(* ===== verification/_CoqProject ===== *)
-Q . S2P
Prelude.v
Aes.v
NInt.v
Base64.v
Hash.v
Func.v
Text.v
Md5.v
Packet.v
Crypt.v
YsDB.v
Connection.v
Socket.v
Client.v
Keys.v
Pools.v
ThreadPool.v
Cache.v
HttpParser.v
Websocket.v
HttpIo.v
HttpRequest.v
Httpd.v
WebServer.v
Template.v
FastCgi.v
Floats.v
LuaLex.v
LuaApi.v
Scripts.v
LangSolver.v
Live.v
Sta.v
Daemon.v
Plus.v
Crc32.v
Adler32.v
Inftrees.v
InfTable.v
Trees.v
TreeBuild.v
Canon.v
Lookup.v
BlockReader.v
TreeSend.v
Lz.v
Deflate.v
Overlay.v
Inflated.v
Blocks.v
Compressors.v
Stored.v
Compress.v
Streams.v
