(* ===== verification/Prelude.v ===== *)
(** * YRSSF: a verification development

    YRSSF (src/) is a peer-to-peer classroom and live-streaming server in C++ and
    C: a UDP protocol between a client, a server and the server's parent, accounts
    in a key/value store, an HTTP server with CGI, FastCGI, websockets and
    templates, screen and sound streaming, and Lua scripts that drive all of it.
    This library models the parts with logic of their own and proves what makes
    them correct, or how they fail.

    ** How the program fits together, and where each part is

    A datagram arrives in a [netSource] buffer (core/server-base.hpp; Socket.v)
    taken from a pool (server.hpp; Pools.v), is decrypted if it is marked so
    (crypt.hpp over aes/aes.c; Crypt.v, Aes.v), and handled by [ysConnection::run]
    (ysconnection.hpp; Connection.v), which logs in the sender, refuses numbers
    seen before, and dispatches on the message code (classes.hpp; Packet.v).
    Accounts, sources, the replay log and the list of live listeners are in
    ysdb.hpp (YsDB.v) over LevelDB, an interface of the model.  A client or a
    child server sends the same packets and waits for an answer (client.hpp and
    half of ysconnection.hpp; Client.v), integers in network order (nint.hpp;
    NInt.v), with the helpers of func.hpp (Func.v, Hash.v), base64.hpp (Base64.v)
    and the MD5 of cppjieba (Md5.v).  Certificates and shared keys are made and
    checked by key.hpp (Keys.v), over the elliptic curves of OpenSSL; the client sends
    its parent a sign of life every four seconds (daemon.hpp; Daemon.v).

    The HTTP server (httpd.hpp; HttpIo.v, HttpRequest.v, Httpd.v) runs its requests
    on a thread pool (threadpool.hpp; ThreadPool.v); webserver.hpp installs its
    rules (WebServer.v); httpdpaser.hpp decodes queries and forms (HttpParser.v),
    websocket.hpp frames (Websocket.v), httpdtemplate.hpp templates (Template.v),
    httpdfastcgi.hpp talks to FastCGI servers (FastCgi.v), cache.hpp and
    filecache.hpp keep values and files (Cache.v).

    Lua scripts drive the program, and main.cpp gives them its functions (LuaApi.v):
    filters that are to make texts safe inside Lua and SQL, judged against the lexer of
    Lua (LuaLex.v) and the tokens of SQLite, keys, names, and values with threads that
    clean them up.  A queue of scripts and workers run them (scriptqueue.hpp,
    scriptworker.hpp; Scripts.v); a server runs a _PLUS script for a request, in a state
    that has the whole API and what an earlier script left (Plus.v); scripts use a word segmenter under a reader-writer lock
    (languagesolver.hpp, rwmutex.hpp; LangSolver.v) and statistics (sta.hpp; Sta.v on
    the doubles of Floats.v).  live.hpp broadcasts the screen and sound (Live.v).

    [sendCompressed] of httpd.hpp compresses with zlib.  Its checksums are in Crc32.v and
    Adler32.v.  deflate.c is in two layers: Lz.v has the window, the hash chains and
    [longest_match], Deflate.v the five compressors, [deflate], [deflateInit2_] and
    [compress2].  They tally symbols with trees.c: TreeSend.v (tally, transmission of
    trees, choice of blocks) over TreeBuild.v (Huffman trees) and Trees.v (bit buffer,
    codes).  The tables of inflate are in Inftrees.v, what they hold in InfTable.v, and how
    inflate.c finds a symbol in them in Lookup.v.  The proofs about compression: Canon.v
    (the codes are canonical), BlockReader.v and Inflated.v (a decoder written from the
    RFCs alone), Blocks.v (the invariant of a stream), Compressors.v and Stored.v (each
    compressor keeps it), Compress.v ([deflate]), Streams.v (sequences of calls and
    [compress2]), Overlay.v (the symbols that lie in the output buffer).

    ** How definitions correspond to the code

    A definition bears the name of the C function, a method that of its class's
    file.  A byte is a [Z] in [0, 256), a C array a list of them, a C string the
    list of its bytes up to the NUL.  A machine integer is a [Z] with [u8] ... [s64]
    written where the C expression converts or wraps.  A counted loop is [for_],
    [for_down] or a [Fixpoint] on what is left.  A read outside an array gives 0 or
    the argument that stands for whatever lies there; where the program really does
    it a theorem says so.  A struct is a [Record], or, where the code casts buffers
    to it, the list of its bytes with the C layout computed in Packet.v.

    State is passed explicitly.  The handler of datagrams returns the [event]s it
    causes; the handlers of HTTP requests live in the monad [io] of HttpIo.v, whose
    state is the connection and the log of what was done, with [OutOfFuel],
    [OutOfBounds] and [Hangs] (a FastCGI call that does not return) as faults.  What a
    thread does under a lock is one step: the thread pool (whose workers sleep in
    [pthread_cond_wait] until they are signalled) and the pools are transition systems
    whose runs are sequences of such steps in any order.

    What lies outside the repository is a parameter: LevelDB (class [KV], with
    [gmap_kv] as an instance), the elliptic curves of OpenSSL, Lua, SHA1, the
    file system, the clock, the network, and the bytes an uninitialised variable
    holds.  Each hypothesis on one of them has a witness at a concrete instance.

    ** The theorems

    Cryptography and codings: AES inverts itself and follows the schedule of
    FIPS-197; an encrypted packet is restored, and a packet that does not check is
    turned into zeros; MD5, CRC-32 and Adler-32 equal their definitions in every
    version of their loops; base64, queries and websocket frames round-trip, within
    the limits the theorems state.

    The protocol: a request without a good login changes nothing and gets one
    answer, and neither does one whose user's record lacks the permission it asks for;
    a replayed request is refused until the log is cleaned up; a shell command is never run
    on a server with the accounts the program itself makes, as long as no _PLUS request
    comes; a request of the client is decided by the parent's first datagram, and without one
    gives up after ten packets and a thousand turns of silence, which any
    stranger can put off; with encryption on it takes an answer only where the cipher has
    left the number of its own query alone.

    The HTTP server: a request ends and gives its connection away exactly once, unless an
    array is overrun or a FastCGI call hangs; it opens and runs nothing but what lies under the
    directory of static files (or, for a url without a slash, a sibling of it) and the
    script of the rule; regular files are served whole; where an index page is looked for the array is overrun exactly from 119
    bytes on; handshakes of websockets are never accepted; FastCGI streams follow the
    specification within stated sizes, and answers are put together from segments that
    cut contents only; simplified paths have no dot components.

    Shared state: jobs of the thread pool start once, in order and with their own argument,
    and the workers come to rest only when all have been run; pools share no object; the
    cache gives back what was put in, within its time; scripts run once and in order; no
    solver of the segmenter is used or deleted when it is not there, and who changes it is
    alone.

    Scripts and keys: a text that went through [addslashes] is one literal of Lua, one
    that went through [sqlfilter] one token of SQLite; replayed requests are refused
    within a window that is stated; the answer to a _PLUS request holds the script's
    globals and nothing else, whatever the script does; signatures are checked over
    twenty bytes, whatever was signed.
    The 250 packets of a picture hold all of it; a running broadcast shows no change.

    zlib: [inflate_table] ends on any lengths with the right error or with tables in
    which the code of every symbol is found; [build_tree] gives a complete code within the limit of length for any
    frequencies.  Whatever calls of [deflate] feed a stream, at any level, strategy and
    flush, what comes out when it ends decodes, by a decoder that knows only the formats,
    to exactly the input; [compress2] is an instance.  Both suppose that no symbol
    was overwritten by output before it was read, which the program does not ensure: a
    flag of the model tells, and Overlay.v shows blocks for which it happens.

    ** Fuel and bounds

    A recursion that is not structural takes fuel, and the theorem that uses it
    proves that it does not run out: the decoders are given a turn per bit; the loop of
    [inflate_table] takes a turn per symbol, and fills as many entries as the size of a table; the loops of Httpd.v read the input of a
    connection, whose length bounds them; a turn of the compressors uses up a byte of the
    input ([enough_turns]), a turn of [deflate_stored] a byte or it is the last; two turns
    of the loops of [fill_window] and [compress2] are enough.  The loop of
    [recv_fastcgi] can spin for ever, and there the theorem is that every amount of
    fuel runs out.

    ** What is not modelled

    System calls (opening sockets and devices, process control, signals), the start-up
    and the registrations of main.cpp, the Lua bindings of httpd.hpp and others that only
    pass arguments on, devices and JPEG of live.hpp, and floating-point code without
    decisions.  [inttoip] dereferences an integer, [send_client] of httpdfastcgi.hpp
    prints a buffer into itself: neither has a defined result.  Of deflate.c, the calls
    that change a stream under way (parameters, dictionary, prime, copy, tune) and the
    gzip header a caller supplies; memory is found and versions agree.  inflate.c and the
    gz functions of zlib, which nothing calls, and the rest of the vendored Lua,
    SQLite, LevelDB, cppjieba and noVNC, which are called; src/lock and src/live, scripts and
    capture programs.  The PROJECT manifest lists every part. *)

From Stdlib Require Export ZArith Lia Bool.
From Stdlib Require Export Btauto.
From stdpp Require Export base list numbers.

#[global] Open Scope Z_scope.

(** ** Machine integers

    A w-bit C integer is a [Z]; every C operation that can leave the range is
    followed by one of these conversions. *)

Definition u8 (z : Z) : Z := z mod 2 ^ 8.
Definition u16 (z : Z) : Z := z mod 2 ^ 16.
Definition u32 (z : Z) : Z := z mod 2 ^ 32.
Definition u64 (z : Z) : Z := z mod 2 ^ 64.
Definition s8 (z : Z) : Z := (z + 2 ^ 7) mod 2 ^ 8 - 2 ^ 7.
Definition s16 (z : Z) : Z := (z + 2 ^ 15) mod 2 ^ 16 - 2 ^ 15.
Definition s32 (z : Z) : Z := (z + 2 ^ 31) mod 2 ^ 32 - 2 ^ 31.
Definition s64 (z : Z) : Z := (z + 2 ^ 63) mod 2 ^ 64 - 2 ^ 63.

Definition byte_ok (b : Z) : Prop := 0 <= b < 256.
Definition byte_okb (b : Z) : bool := (0 <=? b) && (b <? 256).
Abbreviation bytes_ok := (Forall byte_ok).

Lemma u8_range z : byte_ok (u8 z).
Proof. unfold byte_ok, u8. pose proof (Z.mod_pos_bound z (2 ^ 8)). lia. Qed.

Lemma u32_range z : 0 <= u32 z < 2 ^ 32.
Proof. unfold u32. apply Z.mod_pos_bound. lia. Qed.

Lemma s32_range z : - 2 ^ 31 <= s32 z < 2 ^ 31.
Proof. unfold s32. pose proof (Z.mod_pos_bound (z + 2 ^ 31) (2 ^ 32)). lia. Qed.

Lemma u8_id z : byte_ok z -> u8 z = z.
Proof. unfold byte_ok, u8. intros. apply Z.mod_small. lia. Qed.

Lemma u16_id z : 0 <= z < 2 ^ 16 -> u16 z = z.
Proof. unfold u16. intros. apply Z.mod_small. lia. Qed.

Lemma u32_id z : 0 <= z < 2 ^ 32 -> u32 z = z.
Proof. unfold u32. intros. apply Z.mod_small. lia. Qed.

Lemma s32_id z : - 2 ^ 31 <= z < 2 ^ 31 -> s32 z = z.
Proof. unfold s32. intros. rewrite Z.mod_small; lia. Qed.

Lemma u32_s32 z : u32 (s32 z) = u32 z.
Proof.
  unfold u32, s32. rewrite Zminus_mod, Zmod_mod, <- Zminus_mod. f_equal. lia.
Qed.

Lemma s32_u32 z : s32 (u32 z) = s32 z.
Proof. unfold u32, s32. rewrite Zplus_mod_idemp_l. reflexivity. Qed.

Lemma byte_okb_spec b : byte_okb b = true <-> byte_ok b.
Proof. unfold byte_okb, byte_ok. rewrite andb_true_iff, Z.leb_le, Z.ltb_lt. lia. Qed.

#[export] Instance byte_ok_dec b : Decision (byte_ok b).
Proof. destruct (byte_okb b) eqn:E; [left|right]; rewrite <- byte_okb_spec; congruence. Defined.

(** ** Bits *)

(** [xor_bits] proves equalities between exclusive-or combinations. *)
Ltac xor_bits :=
  apply Z.bits_inj'; intros ? ?; rewrite ?Z.lxor_spec;
  repeat match goal with |- context [Z.testbit ?a ?i] => generalize (Z.testbit a i); intro end;
  btauto.

Lemma testbit_high a n i : 0 <= n -> 0 <= a < 2 ^ n -> n <= i -> Z.testbit a i = false.
Proof.
  intros Hn Ha Hi. rewrite <- (Z.mod_small a (2 ^ n)) by done.
  apply Z.mod_pow2_bits_high. lia.
Qed.

Lemma bounded_by_bits a n :
  0 <= n -> 0 <= a -> (forall i, n <= i -> Z.testbit a i = false) -> a < 2 ^ n.
Proof.
  intros Hn Ha H. assert (E : a = a mod 2 ^ n).
  { apply Z.bits_inj'. intros i Hi. destruct (Z.lt_ge_cases i n).
    - rewrite Z.mod_pow2_bits_low; auto.
    - rewrite Z.mod_pow2_bits_high by lia. auto. }
  rewrite E. apply Z.mod_pos_bound. lia.
Qed.

Lemma lxor_bound n a b :
  0 <= n -> 0 <= a < 2 ^ n -> 0 <= b < 2 ^ n -> 0 <= Z.lxor a b < 2 ^ n.
Proof.
  intros Hn Ha Hb. assert (0 <= Z.lxor a b) by (apply Z.lxor_nonneg; lia).
  split; [done|]. apply bounded_by_bits; [lia..|].
  intros i Hi. rewrite Z.lxor_spec, !(testbit_high _ n) by done. done.
Qed.

Lemma lor_bound n a b :
  0 <= n -> 0 <= a < 2 ^ n -> 0 <= b < 2 ^ n -> 0 <= Z.lor a b < 2 ^ n.
Proof.
  intros Hn Ha Hb. assert (0 <= Z.lor a b) by (apply Z.lor_nonneg; lia).
  split; [done|]. apply bounded_by_bits; [lia..|].
  intros i Hi. rewrite Z.lor_spec, !(testbit_high _ n) by done. done.
Qed.

Lemma land_bound n a b : 0 <= n -> 0 <= a -> 0 <= b < 2 ^ n -> 0 <= Z.land a b < 2 ^ n.
Proof.
  intros Hn Ha Hb. assert (0 <= Z.land a b) by (apply Z.land_nonneg; lia).
  split; [done|]. apply bounded_by_bits; [lia..|].
  intros i Hi. rewrite Z.land_spec, (testbit_high b n) by done. apply andb_false_r.
Qed.

(** Disjoint bits add up. *)
Lemma lor_shiftl_add a b n :
  0 <= n -> 0 <= b < 2 ^ n -> Z.lor (Z.shiftl a n) b = a * 2 ^ n + b.
Proof.
  intros Hn Hb. rewrite <- Z.shiftl_mul_pow2 by done.
  rewrite <- Z.lxor_lor, Z.add_nocarry_lxor; try done.
  all: apply Z.bits_inj'; intros i Hi; rewrite Z.land_spec, Z.bits_0.
  all: destruct (Z.lt_ge_cases i n);
    [rewrite Z.shiftl_spec_low by done; done|rewrite (testbit_high b n) by done; apply andb_false_r].
Qed.

Lemma land_ones_mod a n : 0 <= n -> Z.land a (2 ^ n - 1) = a mod 2 ^ n.
Proof. intros. rewrite <- Z.land_ones, Z.ones_equiv, <- Z.sub_1_r by done. done. Qed.

(** A check over every number below [n], or over every byte, for [vm_compute]. *)
Definition all_below (n : nat) (f : Z -> bool) : bool := forallb (fun k => f (Z.of_nat k)) (seq 0 n).

Lemma all_below_spec n f : all_below n f = true -> forall x, 0 <= x < Z.of_nat n -> f x = true.
Proof.
  unfold all_below. rewrite forallb_forall. intros H x Hx.
  rewrite <- (Z2Nat.id x) by lia. apply H, in_seq. lia.
Qed.

Definition below256 : (Z -> bool) -> bool := all_below 256.

Lemma below256_spec f c : below256 f = true -> byte_ok c -> f c = true.
Proof. intros F Hc. by apply (all_below_spec 256 f F). Qed.

Lemma lxor_byte a b : byte_ok a -> byte_ok b -> byte_ok (Z.lxor a b).
Proof. intros. by apply (lxor_bound 8). Qed.

Lemma lxor_cancel_r a k : Z.lxor (Z.lxor a k) k = a.
Proof. xor_bits. Qed.

(** ** Loops

    [for_ lo n body s] is [for (i = lo; i < lo + n; ++i) body], the state [s]
    threaded through. *)

Definition for_ {T} (lo n : nat) (body : nat -> T -> T) (s : T) : T :=
  fold_left (fun s i => body i s) (seq lo n) s.

Lemma for_0 {T} lo (body : nat -> T -> T) s : for_ lo 0 body s = s.
Proof. done. Qed.

Lemma for_S {T} lo n (body : nat -> T -> T) s :
  for_ lo (S n) body s = for_ (S lo) n body (body lo s).
Proof. done. Qed.

Lemma for_last {T} lo n (body : nat -> T -> T) s :
  for_ lo (S n) body s = body (lo + n)%nat (for_ lo n body s).
Proof. unfold for_. rewrite seq_S, fold_left_app. done. Qed.

Lemma for_ind {T} (P : nat -> T -> Prop) lo n body s :
  P lo s ->
  (forall i s, (lo <= i < lo + n)%nat -> P i s -> P (Datatypes.S i) (body i s)) ->
  P (lo + n)%nat (for_ lo n body s).
Proof.
  revert lo s. induction n as [|n IH]; intros lo s H0 Hs.
  - rewrite Nat.add_0_r. done.
  - rewrite for_S, Nat.add_succ_r. rewrite <- Nat.add_succ_l. apply IH.
    + apply Hs; [lia|done].
    + intros i s' Hi. apply Hs. lia.
Qed.

Lemma for_inv {T} (P : T -> Prop) lo n body s :
  P s -> (forall i s, (lo <= i < lo + n)%nat -> P s -> P (body i s)) -> P (for_ lo n body s).
Proof. intros. apply (for_ind (fun _ => P)); auto. Qed.

(** [for_down n body s] is [for (i = n; i > 0; i--) body]. *)
Fixpoint for_down {T} (n : nat) (body : nat -> T -> T) (s : T) : T :=
  match n with
  | O => s
  | S n' => for_down n' body (body n s)
  end.

Lemma for_down_0 {T} (body : nat -> T -> T) s : for_down 0 body s = s.
Proof. reflexivity. Qed.

Lemma for_down_S {T} n (body : nat -> T -> T) s :
  for_down (S n) body s = for_down n body (body (S n) s).
Proof. reflexivity. Qed.

Lemma for_down_inv {T} (P : T -> Prop) n body s :
  P s -> (forall i s, P s -> P (body i s)) -> P (for_down n body s).
Proof. revert s. induction n; simpl; auto. Qed.

(** ** C arrays of bytes

    A C array is a list; [get] reads cell [i].  A read outside the array has no
    defined result in C: the model returns 0 there, and the theorems that rely
    on a read state that the index is in range. *)

Definition get (l : list Z) (i : Z) : Z := nth (Z.to_nat i) l 0.
Definition getn (l : list Z) (i : nat) : Z := nth i l 0.
Definition setn (l : list Z) (i : nat) (v : Z) : list Z := <[i:=v]> l.

Lemma get_of_nat l i : get l (Z.of_nat i) = getn l i.
Proof. unfold get, getn. by rewrite Nat2Z.id. Qed.

Lemma getn_byte l i : bytes_ok l -> byte_ok (getn l i).
Proof.
  intros H. unfold getn. destruct (Nat.lt_ge_cases i (length l)).
  - rewrite Forall_forall in H. apply H, nth_In. done.
  - rewrite nth_overflow by done. unfold byte_ok. lia.
Qed.

Lemma get_byte l i : bytes_ok l -> byte_ok (get l i).
Proof. apply getn_byte. Qed.

Lemma setn_byte l i v : bytes_ok l -> byte_ok v -> bytes_ok (setn l i v).
Proof. intros. unfold setn. apply Forall_insert; done. Qed.

Lemma length_setn l i v : length (setn l i v) = length l.
Proof. apply length_insert. Qed.

Lemma getn_setn l i j v : (i < length l)%nat -> getn (setn l i v) j = if (j =? i)%nat then v else getn l j.
Proof.
  intros Hi. unfold getn, setn. rewrite !nth_lookup. destruct (Nat.eqb_spec j i) as [->|Hn].
  - by rewrite list_lookup_insert_eq.
  - by rewrite list_lookup_insert_ne.
Qed.

Lemma getn_replicate n i v : (i < n)%nat -> getn (replicate n v) i = v.
Proof. intros. unfold getn. by rewrite nth_lookup, lookup_replicate_2. Qed.

(** A loop that updates consecutive cells from its own index maps the slice. *)
Lemma for_update_slice (g : nat -> Z -> Z) b : forall pre post off k,
  (off + k)%nat = length pre ->
  for_ k (length b) (fun i l => setn l (off + i) (g i (getn l (off + i)))) (pre ++ b ++ post)
  = pre ++ imap (fun i x => g (k + i)%nat x) b ++ post.
Proof.
  induction b as [|x b IH]; intros pre post off k Hk; [done|].
  cbn [length]. rewrite for_S, Hk.
  assert (E : getn (pre ++ (x :: b) ++ post) (length pre) = x).
  { unfold getn. rewrite app_nth2, Nat.sub_diag by lia. done. }
  rewrite E. assert (U : setn (pre ++ (x :: b) ++ post) (length pre) (g k x)
                        = (pre ++ [g k x]) ++ b ++ post).
  { unfold setn. rewrite <- (Nat.add_0_r (length pre)), insert_app_r. simpl.
    rewrite <- app_assoc. done. }
  rewrite U, IH by (rewrite length_app; simpl; lia).
  rewrite <- app_assoc. simpl. rewrite Nat.add_0_r. do 2 f_equal. f_equal.
  apply imap_ext. intros. simpl. f_equal. lia.
Qed.

Lemma getn_slice pre b post i :
  (i < length b)%nat -> getn (pre ++ b ++ post) (length pre + i) = getn b i.
Proof.
  intros. unfold getn. rewrite app_nth2 by lia.
  replace (length pre + i - length pre)%nat with i by lia. by rewrite app_nth1.
Qed.

Lemma imap_getn (f : nat -> Z -> Z) (h : Z -> Z) b : forall c,
  length c = length b ->
  (forall i x, (i < length b)%nat -> f i x = h (getn c i)) ->
  imap f b = map h c.
Proof.
  revert f. induction b as [|x b IH]; intros f [|y c]; simpl; intros Hl Hf; try done.
  f_equal; [exact (Hf 0%nat x ltac:(lia))|].
  apply IH; [lia|]. intros i z Hi. exact (Hf (S i) z ltac:(lia)).
Qed.

(** ** Hint databases *)

Create HintDb bytes.
#[export] Hint Resolve u8_range lxor_byte getn_byte get_byte setn_byte : bytes.
Create Rewrite HintDb len.
#[export] Hint Rewrite length_setn @length_insert @length_app @length_replicate : len.
