(* ===== verification/Aes.v ===== *)
(** * Aes: core/aes/aes.c, AES-128 in ECB and CBC mode

    The 4x4 state [state[i][j]] is the 16-byte list whose cell [i*4+j] it is,
    as the C code casts it over the output buffer.  Every function below is the
    C function of the same name, its loops written with [for_].  An exclusive or
    of two bytes is a byte, so a store of one needs no conversion to [uint8_t]
    (the [_bytes] lemmas check this for every operation). *)

From S2P Require Import Prelude.

(** ** Tables and constants *)

Definition Nb : nat := 4.
Definition Nk : nat := 4.
Definition KEYLEN : nat := 16.
Definition Nr : nat := 10.

(** [sbox[256]] *)
Definition sbox : list Z :=
  [ 0x63; 0x7c; 0x77; 0x7b; 0xf2; 0x6b; 0x6f; 0xc5; 0x30; 0x01; 0x67; 0x2b; 0xfe; 0xd7; 0xab; 0x76;
    0xca; 0x82; 0xc9; 0x7d; 0xfa; 0x59; 0x47; 0xf0; 0xad; 0xd4; 0xa2; 0xaf; 0x9c; 0xa4; 0x72; 0xc0;
    0xb7; 0xfd; 0x93; 0x26; 0x36; 0x3f; 0xf7; 0xcc; 0x34; 0xa5; 0xe5; 0xf1; 0x71; 0xd8; 0x31; 0x15;
    0x04; 0xc7; 0x23; 0xc3; 0x18; 0x96; 0x05; 0x9a; 0x07; 0x12; 0x80; 0xe2; 0xeb; 0x27; 0xb2; 0x75;
    0x09; 0x83; 0x2c; 0x1a; 0x1b; 0x6e; 0x5a; 0xa0; 0x52; 0x3b; 0xd6; 0xb3; 0x29; 0xe3; 0x2f; 0x84;
    0x53; 0xd1; 0x00; 0xed; 0x20; 0xfc; 0xb1; 0x5b; 0x6a; 0xcb; 0xbe; 0x39; 0x4a; 0x4c; 0x58; 0xcf;
    0xd0; 0xef; 0xaa; 0xfb; 0x43; 0x4d; 0x33; 0x85; 0x45; 0xf9; 0x02; 0x7f; 0x50; 0x3c; 0x9f; 0xa8;
    0x51; 0xa3; 0x40; 0x8f; 0x92; 0x9d; 0x38; 0xf5; 0xbc; 0xb6; 0xda; 0x21; 0x10; 0xff; 0xf3; 0xd2;
    0xcd; 0x0c; 0x13; 0xec; 0x5f; 0x97; 0x44; 0x17; 0xc4; 0xa7; 0x7e; 0x3d; 0x64; 0x5d; 0x19; 0x73;
    0x60; 0x81; 0x4f; 0xdc; 0x22; 0x2a; 0x90; 0x88; 0x46; 0xee; 0xb8; 0x14; 0xde; 0x5e; 0x0b; 0xdb;
    0xe0; 0x32; 0x3a; 0x0a; 0x49; 0x06; 0x24; 0x5c; 0xc2; 0xd3; 0xac; 0x62; 0x91; 0x95; 0xe4; 0x79;
    0xe7; 0xc8; 0x37; 0x6d; 0x8d; 0xd5; 0x4e; 0xa9; 0x6c; 0x56; 0xf4; 0xea; 0x65; 0x7a; 0xae; 0x08;
    0xba; 0x78; 0x25; 0x2e; 0x1c; 0xa6; 0xb4; 0xc6; 0xe8; 0xdd; 0x74; 0x1f; 0x4b; 0xbd; 0x8b; 0x8a;
    0x70; 0x3e; 0xb5; 0x66; 0x48; 0x03; 0xf6; 0x0e; 0x61; 0x35; 0x57; 0xb9; 0x86; 0xc1; 0x1d; 0x9e;
    0xe1; 0xf8; 0x98; 0x11; 0x69; 0xd9; 0x8e; 0x94; 0x9b; 0x1e; 0x87; 0xe9; 0xce; 0x55; 0x28; 0xdf;
    0x8c; 0xa1; 0x89; 0x0d; 0xbf; 0xe6; 0x42; 0x68; 0x41; 0x99; 0x2d; 0x0f; 0xb0; 0x54; 0xbb; 0x16 ].

(** [rsbox[256]] *)
Definition rsbox : list Z :=
  [ 0x52; 0x09; 0x6a; 0xd5; 0x30; 0x36; 0xa5; 0x38; 0xbf; 0x40; 0xa3; 0x9e; 0x81; 0xf3; 0xd7; 0xfb;
    0x7c; 0xe3; 0x39; 0x82; 0x9b; 0x2f; 0xff; 0x87; 0x34; 0x8e; 0x43; 0x44; 0xc4; 0xde; 0xe9; 0xcb;
    0x54; 0x7b; 0x94; 0x32; 0xa6; 0xc2; 0x23; 0x3d; 0xee; 0x4c; 0x95; 0x0b; 0x42; 0xfa; 0xc3; 0x4e;
    0x08; 0x2e; 0xa1; 0x66; 0x28; 0xd9; 0x24; 0xb2; 0x76; 0x5b; 0xa2; 0x49; 0x6d; 0x8b; 0xd1; 0x25;
    0x72; 0xf8; 0xf6; 0x64; 0x86; 0x68; 0x98; 0x16; 0xd4; 0xa4; 0x5c; 0xcc; 0x5d; 0x65; 0xb6; 0x92;
    0x6c; 0x70; 0x48; 0x50; 0xfd; 0xed; 0xb9; 0xda; 0x5e; 0x15; 0x46; 0x57; 0xa7; 0x8d; 0x9d; 0x84;
    0x90; 0xd8; 0xab; 0x00; 0x8c; 0xbc; 0xd3; 0x0a; 0xf7; 0xe4; 0x58; 0x05; 0xb8; 0xb3; 0x45; 0x06;
    0xd0; 0x2c; 0x1e; 0x8f; 0xca; 0x3f; 0x0f; 0x02; 0xc1; 0xaf; 0xbd; 0x03; 0x01; 0x13; 0x8a; 0x6b;
    0x3a; 0x91; 0x11; 0x41; 0x4f; 0x67; 0xdc; 0xea; 0x97; 0xf2; 0xcf; 0xce; 0xf0; 0xb4; 0xe6; 0x73;
    0x96; 0xac; 0x74; 0x22; 0xe7; 0xad; 0x35; 0x85; 0xe2; 0xf9; 0x37; 0xe8; 0x1c; 0x75; 0xdf; 0x6e;
    0x47; 0xf1; 0x1a; 0x71; 0x1d; 0x29; 0xc5; 0x89; 0x6f; 0xb7; 0x62; 0x0e; 0xaa; 0x18; 0xbe; 0x1b;
    0xfc; 0x56; 0x3e; 0x4b; 0xc6; 0xd2; 0x79; 0x20; 0x9a; 0xdb; 0xc0; 0xfe; 0x78; 0xcd; 0x5a; 0xf4;
    0x1f; 0xdd; 0xa8; 0x33; 0x88; 0x07; 0xc7; 0x31; 0xb1; 0x12; 0x10; 0x59; 0x27; 0x80; 0xec; 0x5f;
    0x60; 0x51; 0x7f; 0xa9; 0x19; 0xb5; 0x4a; 0x0d; 0x2d; 0xe5; 0x7a; 0x9f; 0x93; 0xc9; 0x9c; 0xef;
    0xa0; 0xe0; 0x3b; 0x4d; 0xae; 0x2a; 0xf5; 0xb0; 0xc8; 0xeb; 0xbb; 0x3c; 0x83; 0x53; 0x99; 0x61;
    0x17; 0x2b; 0x04; 0x7e; 0xba; 0x77; 0xd6; 0x26; 0xe1; 0x69; 0x14; 0x63; 0x55; 0x21; 0x0c; 0x7d ].

(** [Rcon[255]] *)
Definition Rcon : list Z :=
  [ 0x8d; 0x01; 0x02; 0x04; 0x08; 0x10; 0x20; 0x40; 0x80; 0x1b; 0x36; 0x6c; 0xd8; 0xab; 0x4d; 0x9a;
    0x2f; 0x5e; 0xbc; 0x63; 0xc6; 0x97; 0x35; 0x6a; 0xd4; 0xb3; 0x7d; 0xfa; 0xef; 0xc5; 0x91; 0x39;
    0x72; 0xe4; 0xd3; 0xbd; 0x61; 0xc2; 0x9f; 0x25; 0x4a; 0x94; 0x33; 0x66; 0xcc; 0x83; 0x1d; 0x3a;
    0x74; 0xe8; 0xcb; 0x8d; 0x01; 0x02; 0x04; 0x08; 0x10; 0x20; 0x40; 0x80; 0x1b; 0x36; 0x6c; 0xd8;
    0xab; 0x4d; 0x9a; 0x2f; 0x5e; 0xbc; 0x63; 0xc6; 0x97; 0x35; 0x6a; 0xd4; 0xb3; 0x7d; 0xfa; 0xef;
    0xc5; 0x91; 0x39; 0x72; 0xe4; 0xd3; 0xbd; 0x61; 0xc2; 0x9f; 0x25; 0x4a; 0x94; 0x33; 0x66; 0xcc;
    0x83; 0x1d; 0x3a; 0x74; 0xe8; 0xcb; 0x8d; 0x01; 0x02; 0x04; 0x08; 0x10; 0x20; 0x40; 0x80; 0x1b;
    0x36; 0x6c; 0xd8; 0xab; 0x4d; 0x9a; 0x2f; 0x5e; 0xbc; 0x63; 0xc6; 0x97; 0x35; 0x6a; 0xd4; 0xb3;
    0x7d; 0xfa; 0xef; 0xc5; 0x91; 0x39; 0x72; 0xe4; 0xd3; 0xbd; 0x61; 0xc2; 0x9f; 0x25; 0x4a; 0x94;
    0x33; 0x66; 0xcc; 0x83; 0x1d; 0x3a; 0x74; 0xe8; 0xcb; 0x8d; 0x01; 0x02; 0x04; 0x08; 0x10; 0x20;
    0x40; 0x80; 0x1b; 0x36; 0x6c; 0xd8; 0xab; 0x4d; 0x9a; 0x2f; 0x5e; 0xbc; 0x63; 0xc6; 0x97; 0x35;
    0x6a; 0xd4; 0xb3; 0x7d; 0xfa; 0xef; 0xc5; 0x91; 0x39; 0x72; 0xe4; 0xd3; 0xbd; 0x61; 0xc2; 0x9f;
    0x25; 0x4a; 0x94; 0x33; 0x66; 0xcc; 0x83; 0x1d; 0x3a; 0x74; 0xe8; 0xcb; 0x8d; 0x01; 0x02; 0x04;
    0x08; 0x10; 0x20; 0x40; 0x80; 0x1b; 0x36; 0x6c; 0xd8; 0xab; 0x4d; 0x9a; 0x2f; 0x5e; 0xbc; 0x63;
    0xc6; 0x97; 0x35; 0x6a; 0xd4; 0xb3; 0x7d; 0xfa; 0xef; 0xc5; 0x91; 0x39; 0x72; 0xe4; 0xd3; 0xbd;
    0x61; 0xc2; 0x9f; 0x25; 0x4a; 0x94; 0x33; 0x66; 0xcc; 0x83; 0x1d; 0x3a; 0x74; 0xe8; 0xcb ].

(** ** Key schedule *)

Definition getSBoxValue (num : Z) : Z := get sbox num.
Definition getSBoxInvert (num : Z) : Z := get rsbox num.

(** The first loop: the first round key is the key itself. *)
Definition KeyCopy (Key RoundKey : list Z) : list Z :=
  for_ 0 Nk (fun i rk =>
    let rk := setn rk (i * 4 + 0) (getn Key (i * 4 + 0)) in
    let rk := setn rk (i * 4 + 1) (getn Key (i * 4 + 1)) in
    let rk := setn rk (i * 4 + 2) (getn Key (i * 4 + 2)) in
    setn rk (i * 4 + 3) (getn Key (i * 4 + 3))) RoundKey.

Definition RotWord (tempa : list Z) : list Z :=
  let k := getn tempa 0 in
  let tempa := setn tempa 0 (getn tempa 1) in
  let tempa := setn tempa 1 (getn tempa 2) in
  let tempa := setn tempa 2 (getn tempa 3) in
  setn tempa 3 k.

Definition SubWord (tempa : list Z) : list Z :=
  let tempa := setn tempa 0 (getSBoxValue (getn tempa 0)) in
  let tempa := setn tempa 1 (getSBoxValue (getn tempa 1)) in
  let tempa := setn tempa 2 (getSBoxValue (getn tempa 2)) in
  setn tempa 3 (getSBoxValue (getn tempa 3)).

(** The body of the second loop, for [i = Nk .. Nb*(Nr+1)-1]. *)
Definition KeyExpansion_body (i : nat) (rk : list Z) : list Z :=
  let tempa := for_ 0 4 (fun j t => setn t j (getn rk ((i - 1) * 4 + j))) (replicate 4 0) in
  let tempa :=
    if (i mod Nk =? 0)%nat then
      let tempa := SubWord (RotWord tempa) in
      setn tempa 0 (Z.lxor (getn tempa 0) (getn Rcon (i / Nk)))
    else if (6 <? Nk)%nat && (i mod Nk =? 4)%nat then SubWord tempa
    else tempa in
  let rk := setn rk (i * 4 + 0) (Z.lxor (getn rk ((i - Nk) * 4 + 0)) (getn tempa 0)) in
  let rk := setn rk (i * 4 + 1) (Z.lxor (getn rk ((i - Nk) * 4 + 1)) (getn tempa 1)) in
  let rk := setn rk (i * 4 + 2) (Z.lxor (getn rk ((i - Nk) * 4 + 2)) (getn tempa 2)) in
  setn rk (i * 4 + 3) (Z.lxor (getn rk ((i - Nk) * 4 + 3)) (getn tempa 3)).

Definition KeyExpansion (Key RoundKey : list Z) : list Z :=
  for_ Nk (Nb * (Nr + 1) - Nk) KeyExpansion_body (KeyCopy Key RoundKey).

(** ** Round operations *)

Definition cell (i j : nat) : nat := (i * 4 + j)%nat.
Definition rk_cell (round i j : nat) : nat := (round * Nb * 4 + i * Nb + j)%nat.

Definition AddRoundKey (RoundKey : list Z) (round : nat) (state : list Z) : list Z :=
  for_ 0 4 (fun i st => for_ 0 4 (fun j st =>
    setn st (cell i j) (Z.lxor (getn st (cell i j)) (getn RoundKey (rk_cell round i j)))) st) state.

Definition SubBytes (state : list Z) : list Z :=
  for_ 0 4 (fun i st => for_ 0 4 (fun j st =>
    setn st (cell j i) (getSBoxValue (getn st (cell j i)))) st) state.

Definition ShiftRows (st : list Z) : list Z :=
  (* first row, one column to the left *)
  let temp := getn st (cell 0 1) in
  let st := setn st (cell 0 1) (getn st (cell 1 1)) in
  let st := setn st (cell 1 1) (getn st (cell 2 1)) in
  let st := setn st (cell 2 1) (getn st (cell 3 1)) in
  let st := setn st (cell 3 1) temp in
  (* second row, two columns *)
  let temp := getn st (cell 0 2) in
  let st := setn st (cell 0 2) (getn st (cell 2 2)) in
  let st := setn st (cell 2 2) temp in
  let temp := getn st (cell 1 2) in
  let st := setn st (cell 1 2) (getn st (cell 3 2)) in
  let st := setn st (cell 3 2) temp in
  (* third row, three columns *)
  let temp := getn st (cell 0 3) in
  let st := setn st (cell 0 3) (getn st (cell 3 3)) in
  let st := setn st (cell 3 3) (getn st (cell 2 3)) in
  let st := setn st (cell 2 3) (getn st (cell 1 3)) in
  setn st (cell 1 3) temp.

Definition xtime (x : Z) : Z :=
  u8 (Z.lxor (Z.shiftl x 1) (Z.land (Z.shiftr x 7) 1 * 0x1b)).

Definition MixColumns (state : list Z) : list Z :=
  for_ 0 4 (fun i st =>
    let t := getn st (cell i 0) in
    let Tmp := Z.lxor (Z.lxor (Z.lxor (getn st (cell i 0)) (getn st (cell i 1)))
                              (getn st (cell i 2))) (getn st (cell i 3)) in
    let Tm := xtime (Z.lxor (getn st (cell i 0)) (getn st (cell i 1))) in
    let st := setn st (cell i 0) (Z.lxor (getn st (cell i 0)) (Z.lxor Tm Tmp)) in
    let Tm := xtime (Z.lxor (getn st (cell i 1)) (getn st (cell i 2))) in
    let st := setn st (cell i 1) (Z.lxor (getn st (cell i 1)) (Z.lxor Tm Tmp)) in
    let Tm := xtime (Z.lxor (getn st (cell i 2)) (getn st (cell i 3))) in
    let st := setn st (cell i 2) (Z.lxor (getn st (cell i 2)) (Z.lxor Tm Tmp)) in
    let Tm := xtime (Z.lxor (getn st (cell i 3)) t) in
    setn st (cell i 3) (Z.lxor (getn st (cell i 3)) (Z.lxor Tm Tmp))) state.

(** The macro [Multiply(x, y)]. *)
Definition Multiply (x y : Z) : Z :=
  Z.lxor (Z.lxor (Z.lxor (Z.lxor
    (Z.land y 1 * x)
    (Z.land (Z.shiftr y 1) 1 * xtime x))
    (Z.land (Z.shiftr y 2) 1 * xtime (xtime x)))
    (Z.land (Z.shiftr y 3) 1 * xtime (xtime (xtime x))))
    (Z.land (Z.shiftr y 4) 1 * xtime (xtime (xtime (xtime x)))).

Definition InvMixColumns (state : list Z) : list Z :=
  for_ 0 4 (fun i st =>
    let a := getn st (cell i 0) in
    let b := getn st (cell i 1) in
    let c := getn st (cell i 2) in
    let d := getn st (cell i 3) in
    let st := setn st (cell i 0) (Z.lxor (Z.lxor (Z.lxor
      (Multiply a 0x0e) (Multiply b 0x0b)) (Multiply c 0x0d)) (Multiply d 0x09)) in
    let st := setn st (cell i 1) (Z.lxor (Z.lxor (Z.lxor
      (Multiply a 0x09) (Multiply b 0x0e)) (Multiply c 0x0b)) (Multiply d 0x0d)) in
    let st := setn st (cell i 2) (Z.lxor (Z.lxor (Z.lxor
      (Multiply a 0x0d) (Multiply b 0x09)) (Multiply c 0x0e)) (Multiply d 0x0b)) in
    setn st (cell i 3) (Z.lxor (Z.lxor (Z.lxor
      (Multiply a 0x0b) (Multiply b 0x0d)) (Multiply c 0x09)) (Multiply d 0x0e))) state.

Definition InvSubBytes (state : list Z) : list Z :=
  for_ 0 4 (fun i st => for_ 0 4 (fun j st =>
    setn st (cell j i) (getSBoxInvert (getn st (cell j i)))) st) state.

Definition InvShiftRows (st : list Z) : list Z :=
  (* first row, one column to the right *)
  let temp := getn st (cell 3 1) in
  let st := setn st (cell 3 1) (getn st (cell 2 1)) in
  let st := setn st (cell 2 1) (getn st (cell 1 1)) in
  let st := setn st (cell 1 1) (getn st (cell 0 1)) in
  let st := setn st (cell 0 1) temp in
  (* second row, two columns *)
  let temp := getn st (cell 0 2) in
  let st := setn st (cell 0 2) (getn st (cell 2 2)) in
  let st := setn st (cell 2 2) temp in
  let temp := getn st (cell 1 2) in
  let st := setn st (cell 1 2) (getn st (cell 3 2)) in
  let st := setn st (cell 3 2) temp in
  (* third row, three columns *)
  let temp := getn st (cell 0 3) in
  let st := setn st (cell 0 3) (getn st (cell 1 3)) in
  let st := setn st (cell 1 3) (getn st (cell 2 3)) in
  let st := setn st (cell 2 3) (getn st (cell 3 3)) in
  setn st (cell 3 3) temp.

(** ** The cipher and its inverse *)

Definition Cipher (RoundKey state : list Z) : list Z :=
  let st := AddRoundKey RoundKey 0 state in
  let st := for_ 1 (Nr - 1) (fun round st =>
    AddRoundKey RoundKey round (MixColumns (ShiftRows (SubBytes st)))) st in
  AddRoundKey RoundKey Nr (ShiftRows (SubBytes st)).

Definition InvCipher (RoundKey state : list Z) : list Z :=
  let st := AddRoundKey RoundKey Nr state in
  let st := for_down (Nr - 1) (fun round st =>
    InvMixColumns (AddRoundKey RoundKey round (InvSubBytes (InvShiftRows st)))) st in
  AddRoundKey RoundKey 0 (InvSubBytes (InvShiftRows st)).

(** [BlockCopy(output, input)] on pointers into two buffers: [KEYLEN] bytes are
    copied from [input + ip] to [output + op]. *)
Definition BlockCopy (output : list Z) (op : nat) (input : list Z) (ip : nat) : list Z :=
  for_ 0 KEYLEN (fun i out => setn out (op + i) (getn input (ip + i))) output.

(** The cipher works in place on the 16 bytes [state] points at. *)
Definition read_block (buf : list Z) (p : nat) : list Z := map (fun i => getn buf (p + i)) (seq 0 KEYLEN).
Definition on_block (f : list Z -> list Z) (buf : list Z) (p : nat) : list Z :=
  let st := f (read_block buf p) in
  for_ 0 KEYLEN (fun i buf => setn buf (p + i) (getn st i)) buf.

(** The static variables the functions keep between calls: the round keys and
    the bytes [Iv] points at (the buffers of a call are disjoint and are not
    written through another pointer while [Iv] points into them). *)
Record aes_st := mk_aes_st { RoundKey : list Z; Iv : list Z }.

Definition aes_init : aes_st := mk_aes_st (replicate 176 0) [].

Definition AES128_ECB_encrypt (input key output : list Z) (s : aes_st) : list Z * aes_st :=
  let output := BlockCopy output 0 input 0 in
  let rk := KeyExpansion key (RoundKey s) in
  (on_block (Cipher rk) output 0, mk_aes_st rk (Iv s)).

Definition AES128_ECB_decrypt (input key output : list Z) (s : aes_st) : list Z * aes_st :=
  let output := BlockCopy output 0 input 0 in
  let rk := KeyExpansion key (RoundKey s) in
  (on_block (InvCipher rk) output 0, mk_aes_st rk (Iv s)).

(** ** CBC mode *)

Definition XorWithIv (iv buf : list Z) (p : nat) : list Z :=
  for_ 0 KEYLEN (fun i buf => setn buf (p + i) (Z.lxor (getn buf (p + i)) (getn iv i))) buf.

(** The locals of the loop: the two buffers, the current pointers' offset into
    them, and the bytes at [Iv]. *)
Record cbc_st := mk_cbc { c_out : list Z; c_in : list Z; c_pos : nat; c_iv : list Z }.

Definition CBC_encrypt_body (rk : list Z) (c : cbc_st) : cbc_st :=
  let input := XorWithIv (c_iv c) (c_in c) (c_pos c) in
  let output := BlockCopy (c_out c) (c_pos c) input (c_pos c) in
  let output := on_block (Cipher rk) output (c_pos c) in
  mk_cbc output input (c_pos c + KEYLEN) (read_block output (c_pos c)).

Definition CBC_decrypt_body (rk : list Z) (c : cbc_st) : cbc_st :=
  let output := BlockCopy (c_out c) (c_pos c) (c_in c) (c_pos c) in
  let output := on_block (InvCipher rk) output (c_pos c) in
  let output := XorWithIv (c_iv c) output (c_pos c) in
  mk_cbc output (c_in c) (c_pos c + KEYLEN) (read_block (c_in c) (c_pos c)).

(** [for(i = 0; i < length; i += KEYLEN)] turns this many times. *)
Definition cbc_turns (length : nat) : nat := ((length + KEYLEN - 1) / KEYLEN)%nat.

(** The tail both functions run on the bytes of a last partial block. *)
Definition CBC_remainder (f : list Z -> list Z) (remainders : nat) (c : cbc_st) : list Z :=
  if (remainders =? 0)%nat then c_out c
  else
    let output := BlockCopy (c_out c) (c_pos c) (c_in c) (c_pos c) in
    let output := for_ remainders (KEYLEN - remainders) (fun i out => setn out (c_pos c + i) 0) output in
    on_block f output (c_pos c).

(** [key] and [iv] are [None] when the caller passes 0. *)
Definition CBC_setup (output input : list Z) (key iv : option (list Z)) (s : aes_st) : list Z * cbc_st :=
  let output := BlockCopy output 0 input 0 in
  let rk := match key with Some k => KeyExpansion k (RoundKey s) | None => RoundKey s end in
  let iv := match iv with Some v => v | None => Iv s end in
  (rk, mk_cbc output input 0 iv).

Definition AES128_CBC_encrypt_buffer (output input : list Z) (length : nat)
    (key iv : option (list Z)) (s : aes_st) : list Z * list Z * aes_st :=
  let remainders := (length mod KEYLEN)%nat in
  let '(rk, c) := CBC_setup output input key iv s in
  let c := Nat.iter (cbc_turns length) (CBC_encrypt_body rk) c in
  (CBC_remainder (Cipher rk) remainders c, c_in c, mk_aes_st rk (c_iv c)).

Definition AES128_CBC_decrypt_buffer (output input : list Z) (length : nat)
    (key iv : option (list Z)) (s : aes_st) : list Z * list Z * aes_st :=
  let remainders := (length mod KEYLEN)%nat in
  let '(rk, c) := CBC_setup output input key iv s in
  let c := Nat.iter (cbc_turns length) (CBC_decrypt_body rk) c in
  (CBC_remainder (InvCipher rk) remainders c, c_in c, mk_aes_st rk (c_iv c)).

(** ** Bytes and lengths

    A state is sixteen bytes; [state16] destructs it into its cells, so that a
    round operation evaluates to sixteen expressions over them. *)

Definition state_ok (st : list Z) : Prop := length st = 16%nat /\ bytes_ok st.

Ltac state16 st :=
  do 16 (let x := fresh "b" in destruct st as [|x st]; [discriminate|]);
  destruct st; [|discriminate].

Lemma table_bytes t : forallb byte_okb t = true -> bytes_ok t.
Proof.
  rewrite forallb_forall. intros H. apply Forall_forall. intros x Hx.
  apply byte_okb_spec. auto.
Qed.

Lemma getSBoxValue_byte b : byte_ok (getSBoxValue b).
Proof. apply get_byte, table_bytes. vm_compute. reflexivity. Qed.

Lemma getSBoxInvert_byte b : byte_ok (getSBoxInvert b).
Proof. apply get_byte, table_bytes. vm_compute. reflexivity. Qed.

Lemma Rcon_bytes : bytes_ok Rcon.
Proof. apply table_bytes. vm_compute. reflexivity. Qed.

Lemma xtime_byte x : byte_ok (xtime x).
Proof. apply u8_range. Qed.

#[export] Hint Resolve getSBoxValue_byte getSBoxInvert_byte Rcon_bytes xtime_byte : bytes.

Lemma bit_mul_byte y n x : byte_ok x -> byte_ok (Z.land (Z.shiftr y n) 1 * x).
Proof.
  intros. change 1 with (Z.ones 1). rewrite Z.land_ones by lia.
  pose proof (Z.mod_pos_bound (Z.shiftr y n) (2 ^ 1)) as B.
  assert (Z.shiftr y n mod 2 ^ 1 = 0 \/ Z.shiftr y n mod 2 ^ 1 = 1) as [-> | ->] by lia;
    unfold byte_ok in *; lia.
Qed.

Lemma Multiply_byte x y : byte_ok x -> byte_ok (Multiply x y).
Proof.
  intros. unfold Multiply. rewrite <- (Z.shiftr_0_r y) at 1.
  auto 10 using bit_mul_byte with bytes.
Qed.

#[export] Hint Resolve Multiply_byte : bytes.

(** Every in-place operation keeps a state a state. *)
Lemma setn_state st i v : state_ok st -> byte_ok v -> state_ok (setn st i v).
Proof. intros [? ?] ?. split; [by rewrite length_setn|auto with bytes]. Qed.

Lemma getn_state st i : state_ok st -> byte_ok (getn st i).
Proof. intros [_ ?]. auto with bytes. Qed.

#[export] Hint Resolve setn_state getn_state : bytes.

Ltac state_loop := repeat (apply for_inv; [|intros]); auto with bytes.

Lemma AddRoundKey_state rk r st : bytes_ok rk -> state_ok st -> state_ok (AddRoundKey rk r st).
Proof. intros. unfold AddRoundKey. state_loop. Qed.

Lemma SubBytes_state st : state_ok st -> state_ok (SubBytes st).
Proof. intros. unfold SubBytes. state_loop. Qed.

Lemma InvSubBytes_state st : state_ok st -> state_ok (InvSubBytes st).
Proof. intros. unfold InvSubBytes. state_loop. Qed.

Lemma ShiftRows_state st : state_ok st -> state_ok (ShiftRows st).
Proof. intros. unfold ShiftRows. auto 30 with bytes. Qed.

Lemma InvShiftRows_state st : state_ok st -> state_ok (InvShiftRows st).
Proof. intros. unfold InvShiftRows. auto 30 with bytes. Qed.

Lemma MixColumns_state st : state_ok st -> state_ok (MixColumns st).
Proof. intros. unfold MixColumns. state_loop; auto 20 with bytes. Qed.

Lemma InvMixColumns_state st : state_ok st -> state_ok (InvMixColumns st).
Proof. intros. unfold InvMixColumns. state_loop; auto 20 with bytes. Qed.

#[export] Hint Resolve AddRoundKey_state SubBytes_state InvSubBytes_state ShiftRows_state
  InvShiftRows_state MixColumns_state InvMixColumns_state : bytes.

(** ** Each round operation is undone by its inverse *)

Lemma rsbox_sbox b : byte_ok b -> getSBoxInvert (getSBoxValue b) = b.
Proof.
  intros H. unfold byte_ok in H.
  assert (F : forallb (fun n => getSBoxInvert (getSBoxValue (Z.of_nat n)) =? Z.of_nat n)
                (seq 0 256) = true) by (vm_compute; reflexivity).
  rewrite forallb_forall in F. specialize (F (Z.to_nat b)).
  rewrite Z2Nat.id in F by lia. apply Z.eqb_eq, F, in_seq. lia.
Qed.

Lemma sbox_rsbox b : byte_ok b -> getSBoxValue (getSBoxInvert b) = b.
Proof.
  intros H. unfold byte_ok in H.
  assert (F : forallb (fun n => getSBoxValue (getSBoxInvert (Z.of_nat n)) =? Z.of_nat n)
                (seq 0 256) = true) by (vm_compute; reflexivity).
  rewrite forallb_forall in F. specialize (F (Z.to_nat b)).
  rewrite Z2Nat.id in F by lia. apply Z.eqb_eq, F, in_seq. lia.
Qed.

Lemma SubBytes_map st : length st = 16%nat -> SubBytes st = map getSBoxValue st.
Proof. intros. state16 st. reflexivity. Qed.

Lemma InvSubBytes_map st : length st = 16%nat -> InvSubBytes st = map getSBoxInvert st.
Proof. intros. state16 st. reflexivity. Qed.

Lemma InvSubBytes_SubBytes st : state_ok st -> InvSubBytes (SubBytes st) = st.
Proof.
  intros [Hl Hb]. rewrite SubBytes_map, InvSubBytes_map by (rewrite ?length_map; done).
  rewrite map_map. clear Hl. induction Hb; simpl; [done|]. rewrite rsbox_sbox by done. congruence.
Qed.

Lemma SubBytes_InvSubBytes st : state_ok st -> SubBytes (InvSubBytes st) = st.
Proof.
  intros [Hl Hb]. rewrite InvSubBytes_map, SubBytes_map by (rewrite ?length_map; done).
  rewrite map_map. clear Hl. induction Hb; simpl; [done|]. rewrite sbox_rsbox by done. congruence.
Qed.

Lemma InvShiftRows_ShiftRows st : state_ok st -> InvShiftRows (ShiftRows st) = st.
Proof. intros [? _]. state16 st. reflexivity. Qed.

Lemma ShiftRows_InvShiftRows st : state_ok st -> ShiftRows (InvShiftRows st) = st.
Proof. intros [? _]. state16 st. reflexivity. Qed.

(** The round key bytes, in state order. *)
Definition in_state_order (K : nat -> nat -> Z) : list Z :=
  flat_map (fun i => map (K i) (seq 0 4)) (seq 0 4).

Definition round_key (rk : list Z) (round : nat) : list Z :=
  in_state_order (fun i j => getn rk (rk_cell round i j)).

Lemma xor_loop (K : nat -> nat -> Z) st :
  length st = 16%nat ->
  for_ 0 4 (fun i st => for_ 0 4 (fun j st =>
    setn st (cell i j) (Z.lxor (getn st (cell i j)) (K i j))) st) st
  = zip_with Z.lxor st (in_state_order K).
Proof. intros. state16 st. reflexivity. Qed.

Lemma AddRoundKey_zip rk r st :
  length st = 16%nat -> AddRoundKey rk r st = zip_with Z.lxor st (round_key rk r).
Proof. apply (xor_loop (fun i j => getn rk (rk_cell r i j))). Qed.

Lemma zip_xor_involutive st ks :
  length ks = length st -> zip_with Z.lxor (zip_with Z.lxor st ks) ks = st.
Proof.
  revert ks. induction st as [|x st IH]; intros [|k ks]; simpl; try done.
  intros H. rewrite lxor_cancel_r, IH; [done|lia].
Qed.

Lemma AddRoundKey_involutive rk r st :
  state_ok st -> AddRoundKey rk r (AddRoundKey rk r st) = st.
Proof.
  intros [? _]. assert (Hk : length (round_key rk r) = 16%nat) by reflexivity.
  rewrite (AddRoundKey_zip _ _ st), AddRoundKey_zip by
    (try done; rewrite length_zip_with; lia).
  apply zip_xor_involutive. lia.
Qed.

(** ** MixColumns is a linear map with InvMixColumns as its inverse *)

Lemma xtime_bit7 x :
  Z.land (Z.shiftr x 7) 1 * 0x1b = if Z.testbit x 7 then 0x1b else 0.
Proof.
  rewrite (Z.land_ones _ 1) by lia. change (2 ^ 1) with 2.
  rewrite <- Z.bit0_mod, Z.shiftr_spec by lia. change (0 + 7) with 7.
  destruct (Z.testbit x 7); reflexivity.
Qed.

Lemma xtime_lxor x y : xtime (Z.lxor x y) = Z.lxor (xtime x) (xtime y).
Proof.
  unfold xtime, u8. rewrite !xtime_bit7, Z.lxor_spec.
  rewrite <- !Z.land_ones by lia. rewrite Z.shiftl_lxor.
  destruct (Z.testbit x 7), (Z.testbit y 7); simpl xorb;
    apply Z.bits_inj'; intros n Hn; repeat (rewrite Z.land_spec || rewrite Z.lxor_spec);
    rewrite ?Z.bits_0; btauto.
Qed.

Lemma Multiply_consts x :
  Multiply x 0x0e = Z.lxor (Z.lxor (xtime x) (xtime (xtime x))) (xtime (xtime (xtime x))) /\
  Multiply x 0x0b = Z.lxor (Z.lxor x (xtime x)) (xtime (xtime (xtime x))) /\
  Multiply x 0x0d = Z.lxor (Z.lxor x (xtime (xtime x))) (xtime (xtime (xtime x))) /\
  Multiply x 0x09 = Z.lxor x (xtime (xtime (xtime x))).
Proof.
  unfold Multiply. cbn [Z.land Z.shiftr Z.shiftl Z.opp Pos.iter Pos.div2 Z.div2 Pos.land Z.of_N
    Z.mul Pos.Ndouble N.double]. 
  repeat split; change (Z.pos 1) with 1; rewrite ?Z.mul_1_l, ?Z.mul_0_l, ?Z.lxor_0_r, ?Z.lxor_0_l;
  reflexivity.
Qed.

(** The columns [MixColumns] and [InvMixColumns] compute. *)
Definition mix_col (a b c d : Z) : list Z :=
  let Tmp := Z.lxor (Z.lxor (Z.lxor a b) c) d in
  [ Z.lxor a (Z.lxor (xtime (Z.lxor a b)) Tmp); Z.lxor b (Z.lxor (xtime (Z.lxor b c)) Tmp);
    Z.lxor c (Z.lxor (xtime (Z.lxor c d)) Tmp); Z.lxor d (Z.lxor (xtime (Z.lxor d a)) Tmp) ].

Definition inv_mix_row (a b c d : Z) : Z :=
  Z.lxor (Z.lxor (Z.lxor (Multiply a 0x0e) (Multiply b 0x0b)) (Multiply c 0x0d)) (Multiply d 0x09).

Definition inv_mix_col (a b c d : Z) : list Z :=
  [ inv_mix_row a b c d;
    Z.lxor (Z.lxor (Z.lxor (Multiply a 0x09) (Multiply b 0x0e)) (Multiply c 0x0b)) (Multiply d 0x0d);
    Z.lxor (Z.lxor (Z.lxor (Multiply a 0x0d) (Multiply b 0x09)) (Multiply c 0x0e)) (Multiply d 0x0b);
    Z.lxor (Z.lxor (Z.lxor (Multiply a 0x0b) (Multiply b 0x0d)) (Multiply c 0x09)) (Multiply d 0x0e) ].

Ltac xtime_linear :=
  rewrite ?(fun x => proj1 (Multiply_consts x)),
          ?(fun x => proj1 (proj2 (Multiply_consts x))),
          ?(fun x => proj1 (proj2 (proj2 (Multiply_consts x)))),
          ?(fun x => proj2 (proj2 (proj2 (Multiply_consts x))));
  rewrite ?xtime_lxor.

Ltac mix_inverse :=
  repeat f_equal; xtime_linear; xor_bits.

Lemma inv_mix_mix a b c d :
  match mix_col a b c d with
  | [a'; b'; c'; d'] => inv_mix_col a' b' c' d' = [a; b; c; d]
  | _ => False
  end.
Proof.
  unfold mix_col, inv_mix_col, inv_mix_row.
  f_equal; [|f_equal; [|f_equal; [|f_equal]]]; xtime_linear; xor_bits.
Qed.

Lemma mix_inv_mix a b c d :
  match inv_mix_col a b c d with
  | [a'; b'; c'; d'] => mix_col a' b' c' d' = [a; b; c; d]
  | _ => False
  end.
Proof.
  unfold mix_col, inv_mix_col, inv_mix_row.
  f_equal; [|f_equal; [|f_equal; [|f_equal]]]; xtime_linear; xor_bits.
Qed.

(** A column operation applied to the four columns of a state. *)
Definition on_columns (f : Z -> Z -> Z -> Z -> list Z) (st : list Z) : list Z :=
  flat_map (fun i => f (getn st (cell i 0)) (getn st (cell i 1)) (getn st (cell i 2))
                       (getn st (cell i 3))) (seq 0 4).

Lemma MixColumns_columns st : length st = 16%nat -> MixColumns st = on_columns mix_col st.
Proof. intros. state16 st. reflexivity. Qed.

Lemma InvMixColumns_columns st :
  length st = 16%nat -> InvMixColumns st = on_columns inv_mix_col st.
Proof. intros. state16 st. reflexivity. Qed.

(** Two column operations that cancel on a column cancel on the state. *)
Lemma on_columns_cancel (f g : Z -> Z -> Z -> Z -> list Z) :
  (forall a b c d, exists a' b' c' d', f a b c d = [a'; b'; c'; d'] /\ g a' b' c' d' = [a; b; c; d]) ->
  forall st, length st = 16%nat -> on_columns g (on_columns f st) = st.
Proof.
  intros H st Hl. state16 st.
  destruct (H b b0 b1 b2) as (? & ? & ? & ? & E1 & G1).
  destruct (H b3 b4 b5 b6) as (? & ? & ? & ? & E2 & G2).
  destruct (H b7 b8 b9 b10) as (? & ? & ? & ? & E3 & G3).
  destruct (H b11 b12 b13 b14) as (? & ? & ? & ? & E4 & G4).
  unfold on_columns at 2. cbn. rewrite E1, E2, E3, E4. cbn.
  unfold on_columns. cbn. rewrite G1, G2, G3, G4. reflexivity.
Qed.

Lemma InvMixColumns_MixColumns st : state_ok st -> InvMixColumns (MixColumns st) = st.
Proof.
  intros H. rewrite InvMixColumns_columns, MixColumns_columns;
    [|apply H|apply MixColumns_state, H].
  apply on_columns_cancel; [|apply H]. intros.
  pose proof (inv_mix_mix a b c d). unfold mix_col in *. eauto 10.
Qed.

Lemma MixColumns_InvMixColumns st : state_ok st -> MixColumns (InvMixColumns st) = st.
Proof.
  intros H. rewrite MixColumns_columns, InvMixColumns_columns;
    [|apply H|apply InvMixColumns_state, H].
  apply on_columns_cancel; [|apply H]. intros.
  pose proof (mix_inv_mix a b c d). unfold inv_mix_col in *. eauto 10.
Qed.

(** ** The cipher round trips, for any round keys

    From here on the round operations are used through the lemmas above only. *)

#[local] Opaque SubBytes ShiftRows MixColumns AddRoundKey InvSubBytes InvShiftRows InvMixColumns.

Section Rounds.
Context (rk : list Z) (Hrk : bytes_ok rk).

Definition enc_round (round : nat) (st : list Z) : list Z :=
    AddRoundKey rk round (MixColumns (ShiftRows (SubBytes st))).
Definition dec_round (round : nat) (st : list Z) : list Z :=
    InvSubBytes (InvShiftRows (InvMixColumns (AddRoundKey rk round st))).

Lemma enc_round_state r st : state_ok st -> state_ok (enc_round r st).
Proof using Hrk. unfold enc_round. auto with bytes. Qed.

Lemma dec_round_state r st : state_ok st -> state_ok (dec_round r st).
Proof using Hrk. unfold dec_round. auto with bytes. Qed.

Lemma dec_enc_round r st : state_ok st -> dec_round r (enc_round r st) = st.
Proof using Hrk.
    intros. unfold dec_round, enc_round.
    rewrite AddRoundKey_involutive, InvMixColumns_MixColumns, InvShiftRows_ShiftRows,
      InvSubBytes_SubBytes; auto with bytes.
Qed.

Lemma enc_dec_round r st : state_ok st -> enc_round r (dec_round r st) = st.
Proof using Hrk.
    intros. unfold dec_round, enc_round.
    rewrite SubBytes_InvSubBytes, ShiftRows_InvShiftRows, MixColumns_InvMixColumns,
      AddRoundKey_involutive; auto with bytes.
Qed.

Definition enc_rounds (n : nat) (st : list Z) : list Z := for_ 1 n enc_round st.
Definition dec_rounds (n : nat) (st : list Z) : list Z := for_down n dec_round st.

Lemma enc_rounds_state n st : state_ok st -> state_ok (enc_rounds n st).
Proof using Hrk. intros. unfold enc_rounds. apply for_inv; auto using enc_round_state. Qed.

Lemma dec_rounds_state n st : state_ok st -> state_ok (dec_rounds n st).
Proof using Hrk. intros. unfold dec_rounds. apply for_down_inv; auto using dec_round_state. Qed.

Lemma enc_rounds_S n st : enc_rounds (S n) st = enc_round (S n) (enc_rounds n st).
Proof. unfold enc_rounds. apply for_last. Qed.

Lemma dec_enc_rounds n st : state_ok st -> dec_rounds n (enc_rounds n st) = st.
Proof using Hrk.
    intros H. unfold dec_rounds. induction n as [|n IH].
    { rewrite for_down_0. reflexivity. }
   
    rewrite enc_rounds_S, for_down_S, dec_enc_round by (by apply enc_rounds_state). exact IH.
Qed.

Lemma enc_dec_rounds n st : state_ok st -> enc_rounds n (dec_rounds n st) = st.
Proof using Hrk.
    unfold dec_rounds. revert st. induction n as [|n IH].
    { intros st _. rewrite for_down_0. reflexivity. }
   
    intros st H. rewrite enc_rounds_S, for_down_S, IH by (by apply dec_round_state).
    by apply enc_dec_round.
Qed.

Lemma Cipher_rounds st :
    Cipher rk st = AddRoundKey rk Nr (ShiftRows (SubBytes (enc_rounds 9 (AddRoundKey rk 0 st)))).
Proof. unfold Cipher, enc_rounds, enc_round. reflexivity. Qed.

(** The inverse loop starts each turn with the row and byte inverses the
      previous turn left to do. *)
Lemma inv_loop_shift n st :
    InvSubBytes (InvShiftRows (for_down n (fun round st =>
      InvMixColumns (AddRoundKey rk round (InvSubBytes (InvShiftRows st)))) st))
    = dec_rounds n (InvSubBytes (InvShiftRows st)).
Proof.
    unfold dec_rounds. revert st. induction n as [|n IH]; intros st.
    - by rewrite !for_down_0.
    - rewrite !for_down_S, IH. reflexivity.
Qed.

Lemma InvCipher_rounds st :
    InvCipher rk st
    = AddRoundKey rk 0 (dec_rounds 9 (InvSubBytes (InvShiftRows (AddRoundKey rk Nr st)))).
Proof. unfold InvCipher. by rewrite inv_loop_shift. Qed.

Lemma Cipher_state st : state_ok st -> state_ok (Cipher rk st).
Proof using Hrk. intros. rewrite Cipher_rounds. auto 12 using enc_rounds_state with bytes. Qed.

Lemma InvCipher_state st : state_ok st -> state_ok (InvCipher rk st).
Proof using Hrk. intros. rewrite InvCipher_rounds. auto 12 using dec_rounds_state with bytes. Qed.

Lemma InvCipher_Cipher st : state_ok st -> InvCipher rk (Cipher rk st) = st.
Proof using Hrk.
    intros. rewrite Cipher_rounds, InvCipher_rounds.
    rewrite AddRoundKey_involutive, InvShiftRows_ShiftRows, InvSubBytes_SubBytes, dec_enc_rounds,
      AddRoundKey_involutive; auto 12 using enc_rounds_state with bytes.
Qed.

Lemma Cipher_InvCipher st : state_ok st -> Cipher rk (InvCipher rk st) = st.
Proof using Hrk.
    intros. rewrite InvCipher_rounds, Cipher_rounds.
    rewrite AddRoundKey_involutive, enc_dec_rounds, SubBytes_InvSubBytes, ShiftRows_InvShiftRows,
      AddRoundKey_involutive; auto 12 using dec_rounds_state with bytes.
Qed.
End Rounds.

(** ** Key expansion *)

Lemma KeyExpansion_bytes key rk :
  bytes_ok key -> bytes_ok rk -> bytes_ok (KeyExpansion key rk).
Proof.
  intros Hk Hr. unfold KeyExpansion. apply for_inv.
  - unfold KeyCopy. apply for_inv; auto 10 with bytes.
  - intros i st _ Hst. unfold KeyExpansion_body.
    set (t0 := for_ 0 4 _ _).
    assert (H0 : bytes_ok t0).
    { apply for_inv; auto with bytes. apply Forall_replicate. unfold byte_ok. lia. }
    set (t1 := if (i mod Nk =? 0)%nat then _ else _).
    assert (H1 : bytes_ok t1).
    { unfold t1, SubWord, RotWord. destruct (i mod Nk =? 0)%nat; [auto 20 with bytes|].
      destruct ((6 <? Nk)%nat && (i mod Nk =? 4)%nat); auto 20 with bytes. }
    auto 20 with bytes.
Qed.

Lemma KeyExpansion_length key rk : length (KeyExpansion key rk) = length rk.
Proof.
  unfold KeyExpansion. apply (for_inv (fun l => length l = length rk)).
  - apply (for_inv (fun l => length l = length rk)); [done|].
    intros. autorewrite with len. done.
  - intros. unfold KeyExpansion_body. cbv zeta. autorewrite with len. done.
Qed.

(** ** Blocks in a buffer *)

Lemma BlockCopy_slice pre b post input ip :
  length b = KEYLEN ->
  BlockCopy (pre ++ b ++ post) (length pre) input ip = pre ++ read_block input ip ++ post.
Proof.
  intros Hb. unfold BlockCopy. rewrite <- Hb.
  rewrite (for_update_slice (fun i _ => getn input (ip + i))) by lia.
  do 2 f_equal. transitivity (map id (read_block input ip)); [|apply map_id].
  unfold read_block. apply imap_getn; [by rewrite length_map, length_seq|].
  intros i x Hi. unfold getn at 2. rewrite (nth_indep _ 0 (getn input (ip + 0)))
    by (rewrite length_map, length_seq; lia).
  rewrite (map_nth (fun i => getn input (ip + i))), seq_nth by lia. done.
Qed.

Lemma read_block_slice pre b post :
  length b = KEYLEN -> read_block (pre ++ b ++ post) (length pre) = b.
Proof.
  intros Hb. unfold read_block.
  rewrite (map_ext_in _ (fun i => getn b i)).
  - unfold KEYLEN in Hb. state16 b. reflexivity.
  - intros i Hi%in_seq. apply getn_slice. lia.
Qed.

Lemma on_block_slice f pre b post :
  length b = KEYLEN -> length (f b) = KEYLEN ->
  on_block f (pre ++ b ++ post) (length pre) = pre ++ f b ++ post.
Proof.
  intros Hb Hf. unfold on_block. rewrite read_block_slice by done. rewrite <- Hb at 1.
  rewrite (for_update_slice (fun i _ => getn (f b) i)) by lia.
  do 2 f_equal. transitivity (map id (f b)); [apply imap_getn; [lia|done]|apply map_id].
Qed.

Lemma XorWithIv_slice iv pre b post :
  length b = KEYLEN -> length iv = KEYLEN ->
  XorWithIv iv (pre ++ b ++ post) (length pre) = pre ++ zip_with Z.lxor b iv ++ post.
Proof.
  intros Hb Hi. unfold XorWithIv. rewrite <- Hb.
  rewrite (for_update_slice (fun i x => Z.lxor x (getn iv i))) by lia. do 2 f_equal.
  unfold KEYLEN in *. state16 b. state16 iv. reflexivity.
Qed.

Lemma read_block_state buf p : bytes_ok buf -> state_ok (read_block buf p).
Proof.
  intros. split; [reflexivity|]. unfold read_block. apply Forall_map, Forall_forall.
  auto with bytes.
Qed.

Lemma zip_xor_state a b : state_ok a -> state_ok b -> state_ok (zip_with Z.lxor a b).
Proof.
  intros [La Ba] [Lb Bb]. split; [rewrite length_zip_with; lia|].
  clear La Lb. revert b Bb. induction Ba; intros ? Bb; simpl; [constructor|].
  destruct Bb; constructor; auto with bytes.
Qed.

(** ** The key schedule of FIPS-197, as a recurrence on words

    [key_words key n] is the reversed list of the first [4 + n] words. *)

Definition sched_core (i : nat) (w : list Z) : list Z :=
  if (i mod 4 =? 0)%nat then
    match w with
    | [a; b; c; d] =>
        [ Z.lxor (getSBoxValue b) (getn Rcon (i / 4)); getSBoxValue c; getSBoxValue d; getSBoxValue a ]
    | _ => w
    end
  else w.

Definition sched_next (ws : list (list Z)) : list Z :=
  match ws with
  | w1 :: _ :: _ :: w4 :: _ => zip_with Z.lxor w4 (sched_core (length ws) w1)
  | _ => []
  end.

Fixpoint key_words (key : list Z) (n : nat) : list (list Z) :=
  match n with
  | O => map (fun i => map (fun j => getn key (i * 4 + j)) (seq 0 4)) [3; 2; 1; 0]%nat
  | S m => let ws := key_words key m in sched_next ws :: ws
  end.

Lemma getn_app_r (pre b : list Z) k : getn (pre ++ b) (length pre + k) = getn b k.
Proof. unfold getn. rewrite app_nth2 by lia. f_equal. lia. Qed.

Lemma setn_app_r (pre b : list Z) k v : setn (pre ++ b) (length pre + k) v = pre ++ setn b k v.
Proof. apply insert_app_r. Qed.

#[local] Opaque getSBoxValue.

Ltac word4 w :=
  do 4 (let x := fresh "x" in destruct w as [|x w]; [discriminate|]);
  destruct w; [|discriminate].

Lemma KeyExpansion_step i pre w4 w3 w2 w1 old rest :
  (4 <= i)%nat -> length pre = ((i - 4) * 4)%nat ->
  length w4 = 4%nat -> length w3 = 4%nat -> length w2 = 4%nat -> length w1 = 4%nat ->
  length old = 4%nat ->
  KeyExpansion_body i (pre ++ w4 ++ w3 ++ w2 ++ w1 ++ old ++ rest)
  = pre ++ w4 ++ w3 ++ w2 ++ w1 ++ zip_with Z.lxor w4 (sched_core i w1) ++ rest.
Proof.
  intros Hi Hp H4 H3 H2 H1 Ho. word4 w4. word4 w3. word4 w2. word4 w1. word4 old.
  unfold KeyExpansion_body, sched_core, Nk.
  replace ((i - 4) * 4)%nat with (length pre) by lia.
  replace (i * 4)%nat with (length pre + 16)%nat by lia.
  replace ((i - 1) * 4)%nat with (length pre + 12)%nat by lia.
  generalize (getn Rcon (i / 4)) (i mod 4 =? 0)%nat (i mod 4 =? 4)%nat. clear. intros r z z4.
  unfold for_. cbn [fold_left seq app]. rewrite <- !Nat.add_assoc, !getn_app_r.
  destruct z; cbv zeta; repeat (rewrite ?getn_app_r, ?setn_app_r; cbn); reflexivity.
Qed.

Lemma key_words_length key n : length (key_words key n) = (4 + n)%nat.
Proof. induction n as [|n IH]; [done|]. simpl. rewrite IH. lia. Qed.

Lemma key_words_words key n : Forall (fun w => length w = 4%nat) (key_words key n).
Proof.
  induction n as [|n IH]; [repeat constructor|]. simpl. constructor; [|done].
  pose proof (key_words_length key n) as L. unfold sched_next.
  destruct (key_words key n) as [|w1 [|w2 [|w3 [|w4 ws]]]]; simpl in L; try lia.
  repeat match goal with H : Forall _ (_ :: _) |- _ => inversion H; clear H; subst end.
  word4 w1. word4 w4. rewrite length_zip_with. unfold sched_core.
  destruct (_ =? 0)%nat; reflexivity.
Qed.

Lemma concat_rev_length (ws : list (list Z)) :
  Forall (fun w => length w = 4%nat) ws -> length (concat (rev ws)) = (length ws * 4)%nat.
Proof.
  induction 1; [done|]. simpl. rewrite concat_app, length_app. simpl. rewrite length_app. simpl. lia.
Qed.

(** One turn of the second loop appends the next word of the recurrence. *)
Lemma KeyExpansion_turn key n old rest :
  length old = 4%nat ->
  KeyExpansion_body (4 + n) (concat (rev (key_words key n)) ++ old ++ rest)
  = concat (rev (key_words key (S n))) ++ rest.
Proof.
  intros Ho. pose proof (key_words_length key n) as L. pose proof (key_words_words key n) as W.
  cbn [key_words]. unfold sched_next. rewrite L.
  destruct (key_words key n) as [|w1 [|w2 [|w3 [|w4 ws]]]]; simpl in L; try lia.
  repeat match goal with H : Forall _ (_ :: _) |- _ => inversion H; clear H; subst end.
  cbn [rev]. rewrite !concat_app. cbn [concat]. rewrite !app_nil_r, <- !app_assoc.
  rewrite KeyExpansion_step; try done; [lia|].
  rewrite concat_rev_length by done. f_equal. lia.
Qed.

Lemma KeyCopy_words key rk :
  (16 <= length rk)%nat ->
  exists rest, KeyCopy key rk = concat (rev (key_words key 0)) ++ rest /\
               length rest = (length rk - 16)%nat.
Proof.
  intros L. exists (drop 16 rk). rewrite length_drop. split; [|done].
  do 16 (destruct rk as [|? rk]; [simpl in L; lia|]). reflexivity.
Qed.

Lemma KeyExpansion_loop key n : forall rest,
  (n * 4 <= length rest)%nat ->
  for_ 4 n KeyExpansion_body (concat (rev (key_words key 0)) ++ rest)
  = concat (rev (key_words key n)) ++ drop (n * 4) rest.
Proof.
  induction n as [|n IH]; intros rest L; [done|].
  rewrite for_last, IH by lia.
  assert (D : drop (n * 4) rest = take 4 (drop (n * 4) rest) ++ drop (S n * 4) rest).
  { rewrite <- (take_drop 4 (drop (n * 4) rest)) at 1. rewrite drop_drop. do 2 f_equal. lia. }
  rewrite D, KeyExpansion_turn; [done|]. rewrite length_take, length_drop. lia.
Qed.

(** ** GF(2^8), as polynomials over bits modulo x^8+x^4+x^3+x+1 *)

Definition clmul (a b : Z) : Z :=
  for_ 0 8 (fun i acc => if Z.testbit b (Z.of_nat i) then Z.lxor acc (Z.shiftl a (Z.of_nat i)) else acc) 0.

Definition gf_reduce (c : Z) : Z :=
  for_down 7 (fun i c =>
    if Z.testbit c (Z.of_nat i + 7) then Z.lxor c (Z.shiftl 0x11b (Z.of_nat i - 1)) else c) c.

Definition gf_mul (a b : Z) : Z := gf_reduce (clmul a b).
Definition gf_pow (a : Z) (n : nat) : Z := Nat.iter n (gf_mul a) 1.
Definition gf_inv (a : Z) : Z := gf_pow a 254.

Definition rotl8 (b : Z) (n : Z) : Z := u8 (Z.lor (Z.shiftl b n) (Z.shiftr b (8 - n))).
Definition affine (b : Z) : Z :=
  Z.lxor (Z.lxor (Z.lxor (Z.lxor (Z.lxor b (rotl8 b 1)) (rotl8 b 2)) (rotl8 b 3)) (rotl8 b 4)) 0x63.

(** ** CBC on lists of blocks *)

Fixpoint cbc_enc (E : list Z -> list Z) (iv : list Z) (bs : list (list Z)) : list (list Z) :=
  match bs with
  | [] => []
  | b :: bs => let c := E (zip_with Z.lxor b iv) in c :: cbc_enc E c bs
  end.

Fixpoint cbc_dec (D : list Z -> list Z) (iv : list Z) (cs : list (list Z)) : list (list Z) :=
  match cs with
  | [] => []
  | c :: cs => zip_with Z.lxor (D c) iv :: cbc_dec D c cs
  end.

#[local] Opaque Cipher InvCipher.

Section Cbc.
Context (rk : list Z) (Hrk : bytes_ok rk).

Lemma cbc_dec_enc bs : forall iv,
    state_ok iv -> Forall state_ok bs -> cbc_dec (InvCipher rk) iv (cbc_enc (Cipher rk) iv bs) = bs.
Proof using Hrk.
    induction bs as [|b bs IH]; intros iv Hi Hb; [done|]. inversion Hb; subst. simpl.
    rewrite InvCipher_Cipher, IH; auto using Cipher_state, zip_xor_state.
    rewrite zip_xor_involutive; [done|]. destruct Hi as [-> _]. by destruct H1.
Qed.

Lemma cbc_enc_blocks bs : forall iv,
    state_ok iv -> Forall state_ok bs ->
    Forall state_ok (cbc_enc (Cipher rk) iv bs) /\ length (cbc_enc (Cipher rk) iv bs) = length bs.
Proof using Hrk.
    induction bs as [|b bs IH]; intros iv Hi Hb; [done|]. inversion Hb; subst. simpl.
    assert (Hc : state_ok (Cipher rk (zip_with Z.lxor b iv))) by
      auto using Cipher_state, zip_xor_state.
    destruct (IH _ Hc H2). auto with lia.
Qed.

Definition cbc_at (out inp : list Z) (pos : nat) (iv : list Z) := mk_cbc out inp pos iv.

Lemma CBC_encrypt_body_slice preo o posto prei b posti iv :
    length preo = length prei -> length o = KEYLEN -> state_ok b -> state_ok iv ->
    let b' := zip_with Z.lxor b iv in
    CBC_encrypt_body rk (mk_cbc (preo ++ o ++ posto) (prei ++ b ++ posti) (length prei) iv)
    = mk_cbc (preo ++ Cipher rk b' ++ posto) (prei ++ b' ++ posti) (length prei + KEYLEN)
        (Cipher rk b').
Proof using Hrk.
    intros Hp Ho Hb Hi b'. unfold CBC_encrypt_body. cbn [c_out c_in c_pos c_iv].
    assert (Hb' : state_ok b') by (by apply zip_xor_state).
    pose proof (Cipher_state rk Hrk b' Hb') as Hc.
    destruct Hb as [Hb _], Hi as [Hi _], Hb' as [Hb' _], Hc as [Hc _].
    rewrite XorWithIv_slice by done. fold b'. rewrite <- Hp. rewrite BlockCopy_slice by done.
    rewrite Hp, read_block_slice by done.
    rewrite <- Hp, on_block_slice, read_block_slice by done. done.
Qed.

Lemma CBC_decrypt_body_slice preo o posto prei c posti iv :
    length preo = length prei -> length o = KEYLEN -> state_ok c -> state_ok iv ->
    CBC_decrypt_body rk (mk_cbc (preo ++ o ++ posto) (prei ++ c ++ posti) (length prei) iv)
    = mk_cbc (preo ++ zip_with Z.lxor (InvCipher rk c) iv ++ posto) (prei ++ c ++ posti)
        (length prei + KEYLEN) c.
Proof using Hrk.
    intros Hp Ho Hc Hi. unfold CBC_decrypt_body. cbn [c_out c_in c_pos c_iv].
    pose proof (InvCipher_state rk Hrk c Hc) as Hd.
    destruct Hc as [Hc _], Hi as [Hi _], Hd as [Hd _].
    rewrite <- Hp, BlockCopy_slice, Hp, read_block_slice by done.
    rewrite <- Hp, on_block_slice, XorWithIv_slice by done. done.
Qed.

Lemma CBC_encrypt_loop bs : forall preo outs prei iv,
    length preo = length prei -> length outs = (length bs * KEYLEN)%nat ->
    state_ok iv -> Forall state_ok bs ->
    c_out (Nat.iter (length bs) (CBC_encrypt_body rk)
             (mk_cbc (preo ++ outs) (prei ++ concat bs) (length prei) iv))
    = preo ++ concat (cbc_enc (Cipher rk) iv bs).
Proof using Hrk.
    induction bs as [|b bs IH]; intros preo outs prei iv Hp Ho Hi Hb.
    - destruct outs; [done|discriminate].
    - inversion Hb as [|? ? Hb1 Hbs]; subst. cbn [length] in *. rewrite Nat.iter_succ_r.
      cbn [concat]. rewrite <- (take_drop KEYLEN outs), CBC_encrypt_body_slice;
        [|done|rewrite length_take; lia|done|done].
      set (b' := zip_with Z.lxor b iv).
      assert (Hb' : state_ok b') by (by apply zip_xor_state).
      pose proof (Cipher_state rk Hrk b' Hb') as Hc.
      rewrite !app_assoc.
      replace (length prei + KEYLEN)%nat with (length (prei ++ b'))
        by (rewrite length_app; by destruct Hb' as [-> _]).
      rewrite IH; [|..]; try done.
      + cbn [cbc_enc concat]. by rewrite <- app_assoc.
      + rewrite !length_app. destruct Hb' as [-> _], Hc as [-> _]. lia.
      + rewrite length_drop. lia.
Qed.

Lemma CBC_decrypt_loop cs : forall preo outs prei iv,
    length preo = length prei -> length outs = (length cs * KEYLEN)%nat ->
    state_ok iv -> Forall state_ok cs ->
    c_out (Nat.iter (length cs) (CBC_decrypt_body rk)
             (mk_cbc (preo ++ outs) (prei ++ concat cs) (length prei) iv))
    = preo ++ concat (cbc_dec (InvCipher rk) iv cs).
Proof using Hrk.
    induction cs as [|c cs IH]; intros preo outs prei iv Hp Ho Hi Hb.
    - destruct outs; [done|discriminate].
    - inversion Hb as [|? ? Hc Hcs]; subst. cbn [length] in *. rewrite Nat.iter_succ_r.
      cbn [concat]. rewrite <- (take_drop KEYLEN outs), CBC_decrypt_body_slice;
        [|done|rewrite length_take; lia|done|done].
      set (d := zip_with Z.lxor (InvCipher rk c) iv).
      assert (Hd : state_ok d) by (apply zip_xor_state; [by apply InvCipher_state|done]).
      rewrite !app_assoc.
      replace (length prei + KEYLEN)%nat with (length (prei ++ c))
        by (rewrite length_app; by destruct Hc as [-> _]).
      rewrite IH; [|..]; try done.
      + cbn [cbc_dec concat]. by rewrite <- app_assoc.
      + rewrite !length_app. destruct Hd as [-> _], Hc as [-> _]. lia.
      + rewrite length_drop. lia.
Qed.
End Cbc.

(** ** Theorems *)

Lemma KeyExpansion_words key rk :
  length rk = 176%nat -> KeyExpansion key rk = concat (rev (key_words key 40)).
Proof.
  intros L. unfold KeyExpansion, Nk, Nb, Nr.
  destruct (KeyCopy_words key rk) as (rest & -> & Lr); [lia|].
  change (4 * (10 + 1) - 4)%nat with 40%nat.
  rewrite KeyExpansion_loop by lia. rewrite drop_ge by lia. apply app_nil_r.
Qed.

Lemma round_keys_bytes key : bytes_ok key -> bytes_ok (concat (rev (key_words key 40))).
Proof.
  intros. rewrite <- (KeyExpansion_words key (replicate 176 0)) by done.
  apply KeyExpansion_bytes; [done|]. apply Forall_replicate. unfold byte_ok. lia.
Qed.

(** The round-key array has its declared size. *)
Definition aes_ok (s : aes_st) : Prop := length (RoundKey s) = 176%nat.

(** What both ECB functions do with their buffers. *)
Lemma ecb_buffers f input out :
  state_ok input -> length out = 16%nat -> length (f input) = 16%nat ->
  on_block f (BlockCopy out 0 input 0) 0 = f input.
Proof.
  intros [Hi _] Ho Hf.
  pose proof (BlockCopy_slice [] out [] input 0 Ho) as E.
  pose proof (read_block_slice [] input [] Hi) as R.
  pose proof (on_block_slice f [] input [] Hi Hf) as B.
  rewrite !app_nil_r in *. change (length []) with 0%nat in *.
  change ([] ++ ?l) with l in *. rewrite E, R. exact B.
Qed.

Lemma ECB_encrypt_block input key out s :
  bytes_ok key -> state_ok input -> length out = 16%nat -> aes_ok s ->
  fst (AES128_ECB_encrypt input key out s) = Cipher (concat (rev (key_words key 40))) input.
Proof.
  intros Hk Hi Ho Hs. unfold AES128_ECB_encrypt. rewrite KeyExpansion_words by done. cbn [fst].
  apply ecb_buffers; [done..|]. by apply (Cipher_state _ (round_keys_bytes key Hk)).
Qed.

Lemma ECB_decrypt_block input key out s :
  bytes_ok key -> state_ok input -> length out = 16%nat -> aes_ok s ->
  fst (AES128_ECB_decrypt input key out s) = InvCipher (concat (rev (key_words key 40))) input.
Proof.
  intros Hk Hi Ho Hs. unfold AES128_ECB_decrypt. rewrite KeyExpansion_words by done. cbn [fst].
  apply ecb_buffers; [done..|]. by apply (InvCipher_state _ (round_keys_bytes key Hk)).
Qed.

(** C13. AES-128 ECB of core/aes/aes.c is a permutation of the blocks: for every
    key, decrypting what was encrypted gives the block back, and encrypting what
    was decrypted does too, whatever the output buffers held and whatever round
    keys earlier calls left in the static [RoundKey] array. *)
Theorem AES128_ECB_roundtrip input key out1 out2 s1 s2 :
  state_ok input -> bytes_ok key -> length out1 = 16%nat -> length out2 = 16%nat ->
  aes_ok s1 -> aes_ok s2 ->
  fst (AES128_ECB_decrypt (fst (AES128_ECB_encrypt input key out1 s1)) key out2 s2) = input /\
  fst (AES128_ECB_encrypt (fst (AES128_ECB_decrypt input key out1 s1)) key out2 s2) = input.
Proof.
  intros Hi Hk H1 H2 Hs1 Hs2. pose proof (round_keys_bytes key Hk) as Hr. split.
  - rewrite (ECB_encrypt_block input), ECB_decrypt_block; auto using InvCipher_Cipher, Cipher_state.
  - rewrite (ECB_decrypt_block input), ECB_encrypt_block; auto using Cipher_InvCipher, InvCipher_state.
Qed.

(** The block lists of the CBC theorem. *)
Lemma cbc_turns_blocks n : cbc_turns (n * KEYLEN) = n.
Proof.
  unfold cbc_turns. rewrite <- Nat.add_sub_assoc, (Nat.add_comm (n * KEYLEN)), Nat.div_add
    by (unfold KEYLEN; lia). reflexivity.
Qed.

Lemma concat_state_length bs : Forall state_ok bs -> length (concat bs) = (length bs * KEYLEN)%nat.
Proof. induction 1 as [|b bs [Hb _]]; [done|]. simpl. rewrite length_app, Hb, IHForall. done. Qed.

Lemma length_BlockCopy out op inp ip : length (BlockCopy out op inp ip) = length out.
Proof.
  unfold BlockCopy. apply (for_inv (fun l => length l = length out)); [done|].
  intros. by autorewrite with len.
Qed.

(** CBC mode of core/aes/aes.c on whole blocks: decrypting an encrypted
    buffer under the same key and initial vector gives the plaintext back, for
    any number of 16-byte blocks. *)
Lemma AES128_CBC_roundtrip bs key iv out1 out2 s1 s2 :
  Forall state_ok bs -> bytes_ok key -> state_ok iv -> aes_ok s1 -> aes_ok s2 ->
  length out1 = (length bs * KEYLEN)%nat -> length out2 = (length bs * KEYLEN)%nat ->
  let n := (length bs * KEYLEN)%nat in
  let '(ct, _, _) := AES128_CBC_encrypt_buffer out1 (concat bs) n (Some key) (Some iv) s1 in
  let '(pt, _, _) := AES128_CBC_decrypt_buffer out2 ct n (Some key) (Some iv) s2 in
  pt = concat bs.
Proof.
  intros Hb Hk Hi H1 H2 L1 L2 n. pose proof (round_keys_bytes key Hk) as Hr.
  unfold AES128_CBC_encrypt_buffer, AES128_CBC_decrypt_buffer, CBC_setup.
  rewrite !KeyExpansion_words by done.
  unfold n. rewrite Nat.Div0.mod_mul, cbc_turns_blocks. unfold CBC_remainder. cbn [Nat.eqb].
  set (rk := concat (rev (key_words key 40))) in *.
  pose proof (CBC_encrypt_loop rk Hr bs [] (BlockCopy out1 0 (concat bs) 0) [] iv eq_refl) as E.
  change ([] ++ ?l) with l in E. change (length []) with 0%nat in E.
  rewrite E by (rewrite ?length_BlockCopy; done). clear E.
  destruct (cbc_enc_blocks rk Hr bs iv Hi Hb) as [Hcs Lcs].
  set (cs := cbc_enc (Cipher rk) iv bs) in *.
  pose proof (CBC_decrypt_loop rk Hr cs [] (BlockCopy out2 0 (concat cs) 0) [] iv eq_refl) as D.
  change ([] ++ ?l) with l in D. change (length []) with 0%nat in D. rewrite Lcs in D.
  rewrite D by (rewrite ?length_BlockCopy; done). unfold cs. by rewrite cbc_dec_enc.
Qed.

(** C14. [KeyExpansion] computes the FIPS-197 key schedule: whatever the array
    held, after it the 176 bytes are the 44 words of the recurrence. *)
Theorem KeyExpansion_schedule key rk :
  length rk = 176%nat -> KeyExpansion key rk = concat (rev (key_words key 40)).
Proof. apply KeyExpansion_words. Qed.

(** The tables and the field arithmetic are those of GF(2^8): the S-box is the
    affine map of the field inverse, the inverse table inverts it, [Rcon] holds
    the powers of 2, and the macro [Multiply] is the field product for factors
    below 32. *)
Lemma aes_tables_field b y :
  byte_ok b -> 0 <= y < 32 ->
  getSBoxValue b = affine (gf_inv b) /\ (b <> 0 -> gf_mul b (gf_inv b) = 1) /\
  getSBoxInvert (affine (gf_inv b)) = b /\
  (1 <= b < 255 -> get Rcon b = gf_pow 2 (Z.to_nat (b - 1))) /\
  xtime b = gf_mul b 2 /\ Multiply b y = gf_mul b y.
Proof.
  intros Hb Hy.
  assert (F : all_below 256 (fun b =>
    (getSBoxValue b =? affine (gf_inv b)) && ((b =? 0) || (gf_mul b (gf_inv b) =? 1)) &&
    ((b <? 1) || (254 <? b) || (get Rcon b =? gf_pow 2 (Z.to_nat (b - 1)))) &&
    (xtime b =? gf_mul b 2) &&
    all_below 32 (fun y => Multiply b y =? gf_mul b y)) = true) by (vm_compute; reflexivity).
  pose proof (all_below_spec _ _ F b Hb) as G. cbv beta in G.
  rewrite !andb_true_iff, !orb_true_iff, !Z.eqb_eq, !Z.ltb_lt in G.
  destruct G as [[[[G1 G2] G3] G4] G5]. apply (all_below_spec _ _ G5 y) in Hy.
  apply Z.eqb_eq in Hy. rewrite <- G1. repeat split; auto using rsbox_sbox; lia.
Qed.

(** ** Test vectors of NIST SP 800-38A and the witnesses *)

Definition nist_key : list Z :=
  [0x2b;0x7e;0x15;0x16;0x28;0xae;0xd2;0xa6;0xab;0xf7;0x15;0x88;0x09;0xcf;0x4f;0x3c].
Definition nist_plain : list Z :=
  [0x6b;0xc1;0xbe;0xe2;0x2e;0x40;0x9f;0x96;0xe9;0x3d;0x7e;0x11;0x73;0x93;0x17;0x2a].
Definition nist_cipher : list Z :=
  [0x3a;0xd7;0x7b;0xb4;0x0d;0x7a;0x36;0x60;0xa8;0x9e;0xca;0xf3;0x24;0x66;0xef;0x97].

Example nist_ecb_vector :
  fst (AES128_ECB_encrypt nist_plain nist_key (replicate 16 0) aes_init) = nist_cipher.
Proof. vm_compute. reflexivity. Qed.

Lemma bytes_okb l : forallb byte_okb l = true -> bytes_ok l.
Proof. apply table_bytes. Qed.

Ltac concrete_bytes := apply bytes_okb; vm_compute; reflexivity.

Lemma nist_states : state_ok nist_plain /\ state_ok nist_key /\ state_ok nist_cipher.
Proof. repeat split; try reflexivity; concrete_bytes. Qed.

Lemma AES128_ECB_roundtrip_witness :
  fst (AES128_ECB_decrypt (fst (AES128_ECB_encrypt nist_plain nist_key (replicate 16 0) aes_init))
         nist_key (replicate 16 0) aes_init) = nist_plain /\
  fst (AES128_ECB_encrypt (fst (AES128_ECB_decrypt nist_plain nist_key (replicate 16 0) aes_init))
         nist_key (replicate 16 0) aes_init) = nist_plain.
Proof.
  destruct nist_states as (Hp & Hk & _).
  apply AES128_ECB_roundtrip; try reflexivity; [exact Hp|apply Hk].
Defined.

Lemma AES128_CBC_roundtrip_witness :
  let bs := [nist_plain; nist_key] in
  let '(ct, _, _) := AES128_CBC_encrypt_buffer (replicate 32 0) (concat bs) 32
                       (Some nist_key) (Some nist_cipher) aes_init in
  let '(pt, _, _) := AES128_CBC_decrypt_buffer (replicate 32 0) ct 32
                       (Some nist_key) (Some nist_cipher) aes_init in
  pt = concat bs.
Proof.
  apply (AES128_CBC_roundtrip [nist_plain; nist_key] nist_key nist_cipher);
    try reflexivity; try apply nist_states.
  destruct nist_states as (Hp & Hk & _). auto.
Defined.

Lemma KeyExpansion_schedule_witness :
  KeyExpansion nist_key (replicate 176 0) = concat (rev (key_words nist_key 40)).
Proof. apply KeyExpansion_schedule. reflexivity. Defined.

Lemma aes_tables_field_witness :
  byte_ok 0x53 /\ Multiply 0x53 0x0e = gf_mul 0x53 0x0e.
Proof.
  assert (H : byte_ok 0x53) by (unfold byte_ok; lia). split; [exact H|].
  apply (aes_tables_field 0x53 0x0e H). lia.
Defined.
