(* ===== verification/NInt.v ===== *)
(** * NInt: core/nint.hpp, integers kept in network byte order

    The host is little-endian, as on the Linux and Android targets of the
    makefiles: [htonl] and [ntohl] reverse the four bytes of a word.  The member
    of a [nint32] is the [int32_t] the code stores; [mem32] is its image in the
    packet. *)

From S2P Require Import Prelude.

(** ** Words as bytes *)

(** Byte [i] of a 32-bit pattern, least significant first. *)
Definition byte_of (z : Z) (i : Z) : Z := Z.land (Z.shiftr z (8 * i)) 255.

Definition le32 (z : Z) : list Z := [byte_of z 0; byte_of z 1; byte_of z 2; byte_of z 3].
Definition of_le32 (l : list Z) : Z :=
  match l with
  | [a; b; c; d] => a + 2 ^ 8 * b + 2 ^ 16 * c + 2 ^ 24 * d
  | _ => 0
  end.

Definition htonl (z : Z) : Z := of_le32 (rev (le32 z)).
Definition ntohl (z : Z) : Z := of_le32 (rev (le32 z)).

(** ** nint32 *)

Record nint32 := mk_nint32 { value : Z }.

Definition nint32_default : nint32 := mk_nint32 0.
Definition nint32_of (v : Z) : nint32 := mk_nint32 (s32 (htonl v)).
Definition nint32_val (n : nint32) : Z := s32 (ntohl (value n)).

(** The four bytes a [nint32] occupies in a packet. *)
Definition mem32 (n : nint32) : list Z := le32 (value n).
Definition nint32_at (l : list Z) : nint32 := mk_nint32 (s32 (of_le32 l)).

(** ** nint64 *)

Record nint64 := mk_nint64 { n64_a : Z; n64_b : Z }.

(** [value / 0x100000000] and the rest, both stored through [htonl]. *)
Definition nint64_set (v : Z) : nint64 :=
  let v := u64 v in
  let s := u32 (v / 0x100000000) in
  let z := u32 (v - s * 0x100000000) in
  mk_nint64 (htonl s) (htonl z).

(** The product is a [long]; it is modelled with two's complement wrap-around,
    and [nint64_get_no_overflow] says when C leaves it defined. *)
Definition nint64_get (n : nint64) : Z :=
  u64 (s64 (ntohl (n64_a n) * 0x100000000) + ntohl (n64_b n)).

Definition nint64_get_no_overflow (n : nint64) : Prop :=
  ntohl (n64_a n) * 0x100000000 + ntohl (n64_b n) < 2 ^ 63.

(** [int64_t operator()()]. *)
Definition nint64_call (n : nint64) : Z := s64 (nint64_get n).

(** ** Lemmas *)

Lemma byte_of_mod z i : 0 <= i -> byte_of z i = z / 2 ^ (8 * i) mod 256.
Proof.
  intros. unfold byte_of. change 255 with (Z.ones 8).
  rewrite Z.land_ones, Z.shiftr_div_pow2 by lia. done.
Qed.

Lemma byte_of_ok z i : byte_ok (byte_of z i).
Proof.
  unfold byte_of, byte_ok. change 255 with (Z.ones 8). rewrite Z.land_ones by lia.
  apply Z.mod_pos_bound. lia.
Qed.

#[export] Hint Resolve byte_of_ok : bytes.

Lemma le32_bytes z : bytes_ok (le32 z).
Proof. unfold le32. auto 10 with bytes. Qed.

Ltac divmod := Z.div_mod_to_equations; lia.

Lemma byte_of_le a b c d :
  byte_ok a -> byte_ok b -> byte_ok c -> byte_ok d -> le32 (of_le32 [a; b; c; d]) = [a; b; c; d].
Proof.
  unfold byte_ok. intros. unfold le32, of_le32. rewrite !byte_of_mod by lia.
  change (2 ^ (8 * 0)) with 1; change (2 ^ (8 * 1)) with 256; change (2 ^ (8 * 2)) with 65536;
    change (2 ^ (8 * 3)) with 16777216; change (2 ^ 8) with 256; change (2 ^ 16) with 65536;
    change (2 ^ 24) with 16777216.
  repeat f_equal; divmod.
Qed.

Lemma of_le32_le z : of_le32 (le32 z) = u32 z.
Proof.
  unfold le32, of_le32, u32. rewrite !byte_of_mod by lia.
  change (2 ^ (8 * 0)) with 1; change (2 ^ (8 * 1)) with 256; change (2 ^ (8 * 2)) with 65536;
    change (2 ^ (8 * 3)) with 16777216; change (2 ^ 8) with 256; change (2 ^ 16) with 65536;
    change (2 ^ 24) with 16777216; change (2 ^ 32) with 4294967296. divmod.
Qed.

Lemma le32_u32 z : le32 (u32 z) = le32 z.
Proof. rewrite <- of_le32_le. apply byte_of_le; auto with bytes. Qed.

Lemma le32_s32 z : le32 (s32 z) = le32 z.
Proof. rewrite <- le32_u32, u32_s32, le32_u32. done. Qed.

Lemma le32_htonl z : le32 (htonl z) = rev (le32 z).
Proof. unfold htonl. apply byte_of_le; auto with bytes. Qed.

Lemma ntohl_htonl z : ntohl (htonl z) = u32 z.
Proof. unfold ntohl. rewrite le32_htonl, rev_involutive, of_le32_le. done. Qed.

Lemma ntohl_s32 z : ntohl (s32 z) = ntohl z.
Proof. unfold ntohl. by rewrite le32_s32. Qed.

Lemma nint32_val_of v : nint32_val (nint32_of v) = s32 v.
Proof. unfold nint32_val, nint32_of. cbn [value]. rewrite ntohl_s32, ntohl_htonl, s32_u32. done. Qed.

Lemma mem32_of v : mem32 (nint32_of v) = rev (le32 v).
Proof. unfold mem32, nint32_of. cbn [value]. rewrite le32_s32. apply le32_htonl. Qed.

Lemma nint32_at_mem n : - 2 ^ 31 <= value n < 2 ^ 31 -> nint32_at (mem32 n) = n.
Proof.
  intros. destruct n as [v]. unfold nint32_at, mem32. cbn [value] in *.
  rewrite of_le32_le, s32_u32, s32_id by done. done.
Qed.

(** A [nint32] read back is the [int32_t] that was stored, and its image in
    the packet is the big-endian bytes of that integer, so the field survives
    being copied into a packet and read out of it. *)
Lemma nint32_network_order v :
  - 2 ^ 31 <= v < 2 ^ 31 ->
  nint32_val (nint32_of v) = v /\
  mem32 (nint32_of v) = rev (le32 v) /\
  nint32_val (nint32_at (mem32 (nint32_of v))) = v.
Proof.
  intros. rewrite nint32_at_mem by apply s32_range.
  rewrite !nint32_val_of, s32_id, mem32_of by done. auto.
Qed.

Lemma nint32_network_order_witness :
  nint32_val (nint32_of (-2)) = -2 /\
  mem32 (nint32_of (-2)) = rev (le32 (-2)) /\
  nint32_val (nint32_at (mem32 (nint32_of (-2)))) = -2.
Proof. apply nint32_network_order. lia. Defined.

Lemma u64_range z : 0 <= u64 z < 2 ^ 64.
Proof. unfold u64. apply Z.mod_pos_bound. lia. Qed.

(** A [nint64] keeps every 64-bit value: [get] after [set] is the value, read
    as [int64_t] it is the signed one, and the product in [get] stays inside
    [long] exactly for values below 2^63. *)
Lemma nint64_roundtrip v :
  0 <= v < 2 ^ 64 ->
  nint64_get (nint64_set v) = v /\ nint64_call (nint64_set v) = s64 v /\
  (nint64_get_no_overflow (nint64_set v) <-> v < 2 ^ 63).
Proof.
  intros Hv. unfold nint64_call, nint64_get, nint64_get_no_overflow, nint64_set. cbn [n64_a n64_b].
  assert (E : u64 v = v) by (unfold u64; apply Z.mod_small; done). rewrite E.
  rewrite !ntohl_htonl. change (2 ^ 64) with (0x100000000 * 0x100000000) in Hv.
  assert (Hq : u32 (v / 0x100000000) = v / 0x100000000) by (apply u32_id; divmod).
  assert (Hs : u32 (u32 (v / 0x100000000)) = v / 0x100000000) by (by rewrite !Hq).
  assert (Hr : v - u32 (v / 0x100000000) * 0x100000000 = v mod 0x100000000)
    by (rewrite Hq; divmod).
  assert (Hz : u32 (u32 (v - u32 (v / 0x100000000) * 0x100000000)) = v mod 0x100000000).
  { rewrite Hr. assert (M : u32 (v mod 0x100000000) = v mod 0x100000000)
      by (apply u32_id; divmod). by rewrite !M. }
  rewrite Hs, Hz.
  assert (G : u64 (s64 (v / 0x100000000 * 0x100000000) + v mod 0x100000000) = v).
  { unfold u64, s64. rewrite Zplus_mod, Zminus_mod, Zmod_mod, <- Zminus_mod, <- Zplus_mod.
    replace (v / 0x100000000 * 0x100000000 + 2 ^ 63 - 2 ^ 63 + v mod 0x100000000) with v by divmod.
    apply Z.mod_small. done. }
  rewrite G. repeat split; try done; intros; divmod.
Qed.

Lemma nint64_roundtrip_witness :
  nint64_get (nint64_set (2 ^ 64 - 5)) = 2 ^ 64 - 5 /\
  nint64_call (nint64_set (2 ^ 64 - 5)) = s64 (2 ^ 64 - 5) /\
  (nint64_get_no_overflow (nint64_set (2 ^ 64 - 5)) <-> 2 ^ 64 - 5 < 2 ^ 63).
Proof. apply nint64_roundtrip. lia. Defined.
