(* ===== verification/Base64.v ===== *)
(** * Base64: core/base64.hpp

    Strings are lists of unsigned bytes.  [encode] returns the characters it
    writes before the terminating NUL; [decode] reads up to the first NUL of its
    input (the end of the list stands for it as well). *)

From S2P Require Import Prelude.

(** ** Tables: the 64 characters of [codes], and the values, 253 (white space),
    254 (padding) or 255 (invalid) of [map] *)

Definition codes : list Z :=
  [  65;  66;  67;  68;  69;  70;  71;  72;  73;  74;  75;  76;  77;  78;  79;  80;
     81;  82;  83;  84;  85;  86;  87;  88;  89;  90;  97;  98;  99; 100; 101; 102;
    103; 104; 105; 106; 107; 108; 109; 110; 111; 112; 113; 114; 115; 116; 117; 118;
    119; 120; 121; 122;  48;  49;  50;  51;  52;  53;  54;  55;  56;  57;  43;  47 ].

Definition b64_map : list Z :=
  [ 255; 255; 255; 255; 255; 255; 255; 255; 255; 255; 253; 255; 255; 253; 255; 255;
    255; 255; 255; 255; 255; 255; 255; 255; 255; 255; 255; 255; 255; 255; 255; 255;
    253; 255; 255; 255; 255; 255; 255; 255; 255; 255; 255;  62; 255; 255; 255;  63;
     52;  53;  54;  55;  56;  57;  58;  59;  60;  61; 255; 255; 255; 254; 255; 255;
    255;   0;   1;   2;   3;   4;   5;   6;   7;   8;   9;  10;  11;  12;  13;  14;
     15;  16;  17;  18;  19;  20;  21;  22;  23;  24;  25; 255; 255; 255; 255; 255;
    255;  26;  27;  28;  29;  30;  31;  32;  33;  34;  35;  36;  37;  38;  39;  40;
     41;  42;  43;  44;  45;  46;  47;  48;  49;  50;  51; 255; 255; 255; 255; 255;
    255; 255; 255; 255; 255; 255; 255; 255; 255; 255; 255; 255; 255; 255; 255; 255;
    255; 255; 255; 255; 255; 255; 255; 255; 255; 255; 255; 255; 255; 255; 255; 255;
    255; 255; 255; 255; 255; 255; 255; 255; 255; 255; 255; 255; 255; 255; 255; 255;
    255; 255; 255; 255; 255; 255; 255; 255; 255; 255; 255; 255; 255; 255; 255; 255;
    255; 255; 255; 255; 255; 255; 255; 255; 255; 255; 255; 255; 255; 255; 255; 255;
    255; 255; 255; 255; 255; 255; 255; 255; 255; 255; 255; 255; 255; 255; 255; 255;
    255; 255; 255; 255; 255; 255; 255; 255; 255; 255; 255; 255; 255; 255; 255; 255;
    255; 255; 255; 255; 255; 255; 255; 255; 255; 255; 255; 255; 255; 255; 255; 255 ].

Definition code (i : Z) : Z := get codes i.
Definition pad : Z := 61.

(** ** Encoding *)

(** The four characters of a full group, as the loop writes them. *)
Definition encode_group (a b c : Z) : list Z :=
  [ code (Z.shiftr a 2);
    code (Z.shiftl (Z.land a 3) 4 + Z.shiftr b 4);
    code (Z.shiftl (Z.land b 0xf) 2 + Z.shiftr c 6);
    code (Z.land c 0x3f) ].

(** "Pad it if necessary": one or two bytes are left, [b] is 0 when it is one. *)
Definition encode_tail (a b : Z) (two : bool) : list Z :=
  let c := 0 in
  [ code (Z.shiftr a 2);
    code (Z.shiftl (Z.land a 3) 4 + Z.shiftr b 4);
    if two then code (Z.shiftl (Z.land b 0xf) 2 + Z.shiftr c 6) else pad;
    pad ].

(** The loop takes three bytes a turn while [i < 3*(len/3)]. *)
Fixpoint encode (inp : list Z) : list Z :=
  match inp with
  | a :: b :: c :: inp => encode_group a b c ++ encode inp
  | [a; b] => encode_tail a b true
  | [a] => encode_tail a 0 false
  | [] => []
  end.

(** [return p - out] *)
Definition encode_ret (inp : list Z) : Z := Z.of_nat (length (encode inp)).

(** ** Decoding *)

(** [t], [y] and [g] of the loop, and the bytes written so far, last first. *)
Record dec := mk_dec { d_t : Z; d_y : Z; d_g : Z; d_out : list Z }.

Definition decode_init : dec := mk_dec 0 0 3 [].

(** One turn on the character [x]; [None] is [return -1]. *)
Definition decode_char (x : Z) (d : dec) : option dec :=
  let c := get b64_map x in
  if c =? 255 then None
  else if c =? 253 then Some d
  else
    let '(c, g) := if c =? 254 then (0, d_g d - 1) else (c, d_g d) in
    let t := u64 (Z.lor (Z.shiftl (d_t d) 6) c) in
    let y := d_y d + 1 in
    if y =? 4 then
      let out := Z.land (Z.shiftr t 16) 255 :: d_out d in
      let out := if 1 <? g then Z.land (Z.shiftr t 8) 255 :: out else out in
      let out := if 2 <? g then Z.land t 255 :: out else out in
      Some (mk_dec 0 0 g out)
    else Some (mk_dec t y g (d_out d)).

Fixpoint decode_loop (inp : list Z) (d : dec) : option dec :=
  match inp with
  | [] => Some d
  | x :: inp => if x =? 0 then Some d
                else match decode_char x d with
                     | Some d => decode_loop inp d
                     | None => None
                     end
  end.

(** The bytes written to [out]; the C return value is their number, or -1. *)
Definition decode (inp : list Z) : option (list Z) :=
  match decode_loop inp decode_init with
  | Some d => Some (rev (d_out d))
  | None => None
  end.

(** What [out] has received when [decode] returns, also when it returns -1. *)
Fixpoint decode_written (inp : list Z) (d : dec) : list Z :=
  match inp with
  | [] => rev (d_out d)
  | x :: inp => if x =? 0 then rev (d_out d)
                else match decode_char x d with
                     | Some d => decode_written inp d
                     | None => rev (d_out d)
                     end
  end.

Definition decode_ret (inp : list Z) : Z :=
  match decode inp with Some out => Z.of_nat (length out) | None => -1 end.

(** ** The tables are inverse *)

Definition sextet (x : Z) : Prop := 0 <= x < 64.

Lemma code_facts x : sextet x ->
  get b64_map (code x) = x /\ code x <> 0 /\ code x <> pad /\ byte_ok (code x).
Proof.
  intros H. unfold sextet in H.
  assert (F : forallb (fun n => let x := Z.of_nat n in
     (get b64_map (code x) =? x) && negb (code x =? 0) && negb (code x =? pad) && byte_okb (code x))
     (seq 0 64) = true) by (vm_compute; reflexivity).
  rewrite forallb_forall in F. specialize (F (Z.to_nat x)).
  rewrite Z2Nat.id in F by lia. cbv zeta in F.
  rewrite !andb_true_iff, !negb_true_iff, Z.eqb_eq, !Z.eqb_neq, byte_okb_spec in F.
  destruct F as [[[? ?] ?] ?]; [apply in_seq; lia|]. auto.
Qed.

Lemma decode_written_loop inp : forall d d',
  decode_loop inp d = Some d' -> decode_written inp d = rev (d_out d').
Proof.
  induction inp as [|x inp IH]; intros d d'; simpl; [by intros [= ->]|].
  destruct (x =? 0); [by intros [= ->]|].
  destruct (decode_char x d); [by apply IH|discriminate].
Qed.

(** A turn on a data character shifts it in. *)
Lemma decode_char_code x d :
  sextet x -> 0 <= d_t d < 2 ^ 18 -> d_y d <> 3 ->
  decode_char (code x) d = Some (mk_dec (d_t d * 64 + x) (d_y d + 1) (d_g d) (d_out d)).
Proof.
  intros Hx Ht Hy. destruct (code_facts x Hx) as (E & _). unfold sextet in Hx.
  unfold decode_char. rewrite E.
  destruct (Z.eqb_spec x 255), (Z.eqb_spec x 253), (Z.eqb_spec x 254); try lia.
  destruct (Z.eqb_spec (d_y d + 1) 4); [lia|]. do 2 f_equal.
  rewrite lor_shiftl_add by (simpl; lia). unfold u64. rewrite Z.mod_small; lia.
Qed.

(** The three bytes of a full accumulator. *)
Lemma accumulator_bytes a b c :
  byte_ok a -> byte_ok b -> byte_ok c ->
  let t := a * 65536 + b * 256 + c in
  Z.land (Z.shiftr t 16) 255 = a /\ Z.land (Z.shiftr t 8) 255 = b /\ Z.land t 255 = c.
Proof.
  intros Ha Hb Hc t. unfold byte_ok in *. unfold t. change 255 with (2 ^ 8 - 1).
  rewrite !land_ones_mod, !Z.shiftr_div_pow2 by lia.
  repeat split; Z.div_mod_to_equations; lia.
Qed.

Lemma sextets a b c :
  byte_ok a -> byte_ok b -> byte_ok c ->
  exists s1 s2 s3 s4,
    sextet s1 /\ sextet s2 /\ sextet s3 /\ sextet s4 /\
    Z.shiftr a 2 = s1 /\ Z.shiftl (Z.land a 3) 4 + Z.shiftr b 4 = s2 /\
    Z.shiftl (Z.land b 0xf) 2 + Z.shiftr c 6 = s3 /\ Z.land c 0x3f = s4 /\
    ((s1 * 64 + s2) * 64 + s3) * 64 + s4 = a * 65536 + b * 256 + c.
Proof.
  unfold byte_ok, sextet. intros Ha Hb Hc.
  change 3 with (2 ^ 2 - 1). change 0xf with (2 ^ 4 - 1). change 0x3f with (2 ^ 6 - 1).
  rewrite !land_ones_mod, !Z.shiftr_div_pow2, !Z.shiftl_mul_pow2 by lia.
  do 4 eexists. repeat match goal with |- _ /\ _ => split | |- _ = _ => reflexivity end.
  all: Z.div_mod_to_equations; lia.
Qed.

Lemma decode_loop_code x inp d :
  sextet x -> 0 <= d_t d < 2 ^ 18 -> d_y d <> 3 ->
  decode_loop (code x :: inp) d
  = decode_loop inp (mk_dec (d_t d * 64 + x) (d_y d + 1) (d_g d) (d_out d)).
Proof.
  intros Hx Ht Hy. simpl. destruct (code_facts x Hx) as (_ & N & _).
  destruct (Z.eqb_spec (code x) 0); [done|]. by rewrite decode_char_code.
Qed.

Lemma decode_loop_code_last x inp t out :
  sextet x -> 0 <= t < 2 ^ 18 ->
  let u := t * 64 + x in
  decode_loop (code x :: inp) (mk_dec t 3 3 out)
  = decode_loop inp (mk_dec 0 0 3
      (Z.land u 255 :: Z.land (Z.shiftr u 8) 255 :: Z.land (Z.shiftr u 16) 255 :: out)).
Proof.
  intros Hx Ht u. simpl. destruct (code_facts x Hx) as (E & N & _). unfold sextet in Hx.
  destruct (Z.eqb_spec (code x) 0); [done|]. unfold decode_char. rewrite E.
  destruct (Z.eqb_spec x 255), (Z.eqb_spec x 253), (Z.eqb_spec x 254); try lia.
  cbn [d_t d_y d_g d_out]. cbn [Z.eqb Z.add Pos.add Pos.eqb Z.ltb Z.compare Pos.compare Pos.compare_cont].
  rewrite lor_shiftl_add by (simpl; lia). unfold u64. rewrite Z.mod_small by lia. done.
Qed.

(** A padding character shifts in 0 and lowers [g]. *)
Lemma decode_loop_pad inp t y g out :
  0 <= t < 2 ^ 18 -> y <> 3 ->
  decode_loop (pad :: inp) (mk_dec t y g out)
  = decode_loop inp (mk_dec (t * 64) (y + 1) (g - 1) out).
Proof.
  intros Ht Hy. simpl. unfold decode_char. change (get b64_map pad) with 254.
  cbn [Z.eqb Pos.eqb d_t d_y d_g d_out].
  destruct (Z.eqb_spec (y + 1) 4); [lia|].
  rewrite Z.lor_0_r, Z.shiftl_mul_pow2 by lia. unfold u64. rewrite Z.mod_small by lia. done.
Qed.

Lemma decode_loop_pad_last inp t g out :
  0 <= t < 2 ^ 18 -> g = 3 \/ g = 2 ->
  decode_loop (pad :: inp) (mk_dec t 3 g out)
  = decode_loop inp (mk_dec 0 0 (g - 1)
      ((if g =? 3 then [Z.land (Z.shiftr (t * 64) 8) 255] else []) ++
       Z.land (Z.shiftr (t * 64) 16) 255 :: out)).
Proof.
  intros Ht Hg. simpl. unfold decode_char. change (get b64_map pad) with 254.
  cbn [Z.eqb Pos.eqb d_t d_y d_g d_out].
  rewrite Z.lor_0_r, Z.shiftl_mul_pow2 by lia. unfold u64.
  rewrite Z.mod_small by lia. destruct Hg as [-> | ->]; reflexivity.
Qed.

Lemma decode_group a b c rest out :
  byte_ok a -> byte_ok b -> byte_ok c ->
  decode_loop (encode_group a b c ++ rest) (mk_dec 0 0 3 out)
  = decode_loop rest (mk_dec 0 0 3 (c :: b :: a :: out)).
Proof.
  intros Ha Hb Hc. destruct (sextets a b c Ha Hb Hc) as
    (s1 & s2 & s3 & s4 & H1 & H2 & H3 & H4 & E1 & E2 & E3 & E4 & E).
  unfold encode_group. rewrite E1, E2, E3, E4. unfold sextet in *. cbn [app].
  rewrite !decode_loop_code by (try done; simpl; lia). cbn [d_t d_y d_g d_out].
  change (0 + 1 + 1 + 1) with 3. rewrite decode_loop_code_last by (try done; simpl; lia).
  replace ((((0 * 64 + s1) * 64 + s2) * 64 + s3) * 64 + s4) with (a * 65536 + b * 256 + c) by lia.
  destruct (accumulator_bytes a b c Ha Hb Hc) as (-> & -> & ->). done.
Qed.

Lemma decode_tail1 a out :
  byte_ok a ->
  decode_loop (encode_tail a 0 false) (mk_dec 0 0 3 out) = Some (mk_dec 0 0 1 (a :: out)).
Proof.
  intros Ha. assert (H0 : byte_ok 0) by (unfold byte_ok; lia).
  destruct (sextets a 0 0 Ha H0 H0) as
    (s1 & s2 & s3 & s4 & H1 & H2 & H3 & H4 & E1 & E2 & E3 & E4 & E).
  unfold encode_tail. rewrite E1, E2. unfold sextet in *. simpl in E3, E4. subst s3 s4.
  rewrite !decode_loop_code by (try done; simpl; lia). cbn [d_t d_y d_g d_out].
  change (0 + 1 + 1) with 2. rewrite decode_loop_pad by (simpl; lia).
  change (2 + 1) with 3; change (3 - 1) with 2.
  rewrite decode_loop_pad_last by (simpl; lia). cbn [Z.eqb Pos.eqb app].
  replace (((0 * 64 + s1) * 64 + s2) * 64 * 64) with (a * 65536 + 0 * 256 + 0) by lia.
  destruct (accumulator_bytes a 0 0 Ha H0 H0) as (-> & _ & _). done.
Qed.

Lemma decode_tail2 a b out :
  byte_ok a -> byte_ok b ->
  decode_loop (encode_tail a b true) (mk_dec 0 0 3 out) = Some (mk_dec 0 0 2 (b :: a :: out)).
Proof.
  intros Ha Hb. assert (H0 : byte_ok 0) by (unfold byte_ok; lia).
  destruct (sextets a b 0 Ha Hb H0) as
    (s1 & s2 & s3 & s4 & H1 & H2 & H3 & H4 & E1 & E2 & E3 & E4 & E).
  unfold encode_tail. rewrite E1, E2, E3. unfold sextet in *. simpl in E4. subst s4.
  rewrite !decode_loop_code by (try done; simpl; lia). cbn [d_t d_y d_g d_out].
  change (0 + 1 + 1 + 1) with 3. rewrite decode_loop_pad_last by (simpl; lia).
  cbn [Z.eqb Pos.eqb app].
  replace ((((0 * 64 + s1) * 64 + s2) * 64 + s3) * 64) with (a * 65536 + b * 256 + 0) by lia.
  destruct (accumulator_bytes a b 0 Ha Hb H0) as (-> & -> & _). done.
Qed.

(** Induction three bytes at a time, as the loop runs. *)
Lemma triples_ind (P : list Z -> Prop) :
  P [] -> (forall a, P [a]) -> (forall a b, P [a; b]) ->
  (forall a b c l, P l -> P (a :: b :: c :: l)) -> forall l, P l.
Proof.
  intros H0 H1 H2 H3. fix IH 1. intros [|a [|b [|c l]]]; [done|done|done|]. apply H3, IH.
Qed.

Lemma decode_loop_encode bs : forall out,
  bytes_ok bs ->
  exists g, decode_loop (encode bs) (mk_dec 0 0 3 out) = Some (mk_dec 0 0 g (rev bs ++ out)).
Proof.
  induction bs as [|a|a b|a b c bs IH] using triples_ind; intros out H;
    repeat match goal with H : Forall _ (_ :: _) |- _ => inversion H; clear H; subst end.
  - eauto.
  - eexists. apply decode_tail1. done.
  - eexists. apply decode_tail2; done.
  - cbn [encode]. rewrite decode_group by done.
    destruct (IH (c :: b :: a :: out)) as [g E]; [done|]. exists g. rewrite E.
    simpl. by rewrite <- !app_assoc.
Qed.

(** ** Properties *)

Lemma sextet_high a : byte_ok a -> sextet (Z.shiftr a 2).
Proof.
  unfold byte_ok, sextet. intros. rewrite Z.shiftr_div_pow2 by lia. Z.div_mod_to_equations; lia.
Qed.

Lemma decode_encode bs : bytes_ok bs -> decode (encode bs) = Some bs.
Proof.
  intros H. destruct (decode_loop_encode bs [] H) as [g E].
  unfold decode, decode_init. rewrite E. simpl. by rewrite app_nil_r, rev_involutive.
Qed.

Lemma length_encode bs :
  Z.of_nat (length (encode bs)) = 4 * ((Z.of_nat (length bs) + 2) / 3).
Proof.
  induction bs as [|a|a b|a b c bs IH] using triples_ind; try reflexivity.
  cbn [encode encode_group app length]. rewrite !Nat2Z.inj_succ. Z.div_mod_to_equations; lia.
Qed.

(** The text holds no NUL. *)
Lemma encode_nonzero bs : bytes_ok bs -> Forall (fun x => x <> 0) (encode bs).
Proof.
  assert (S : forall x, sextet x -> code x <> 0) by (intros x Hx; by destruct (code_facts x Hx) as (_ & ? & _)).
  assert (G : forall a b c, byte_ok a -> byte_ok b -> byte_ok c ->
    Forall (fun x => x <> 0) (encode_group a b c) /\
    forall two, c = 0 -> Forall (fun x => x <> 0) (encode_tail a b two)).
  { intros a b c Ha Hb Hc. destruct (sextets a b c Ha Hb Hc) as
      (s1 & s2 & s3 & s4 & H1 & H2 & H3 & H4 & E1 & E2 & E3 & E4 & _).
    unfold encode_group, encode_tail. split; [rewrite E1, E2, E3, E4; auto 10|].
    intros two ->. rewrite E1, E2, E3. assert (pad <> 0) by done. destruct two; auto 10. }
  assert (T : forall a b two, byte_ok a -> byte_ok b -> Forall (fun x => x <> 0) (encode_tail a b two)).
  { intros. apply (G a b 0); [done|done|unfold byte_ok; lia|done]. }
  induction bs as [|a|a b|a b c bs IH] using triples_ind; intros H;
    repeat (apply Forall_cons_iff in H as [? H]).
  - constructor.
  - apply T; unfold byte_ok in *; lia.
  - by apply T.
  - apply Forall_app. split; [by apply G|by apply IH].
Qed.

(** base64: decoding an encoded byte string gives it back (for any length,
    any bytes, with the text ended by NUL or by more input after a NUL), and the
    text has 4 characters per started group of three bytes. *)
Lemma base64_roundtrip bs rest :
  bytes_ok bs ->
  decode (encode bs) = Some bs /\
  decode_loop (encode bs ++ 0 :: rest) decode_init = decode_loop (encode bs) decode_init /\
  decode_ret (encode bs) = Z.of_nat (length bs) /\
  encode_ret bs = 4 * ((Z.of_nat (length bs) + 2) / 3).
Proof.
  intros H. pose proof (decode_encode bs H) as D. split; [exact D|]. split; [|split].
  - clear. generalize (encode bs) decode_init. intros l.
    induction l as [|x l IH]; intros d; [done|]. simpl.
    destruct (x =? 0); [done|]. destruct (decode_char x d); auto.
  - unfold decode_ret. by rewrite D.
  - apply length_encode.
Qed.

(** Whatever text arrives, [decode] writes at most 3 bytes per 4 characters
    read before the NUL, so the 64-byte buffer of [aesblock::getbase64] holds the
    result of any text its length check lets through. *)
Lemma base64_decode_bound inp out :
  decode inp = Some out -> (4 * length out <= 3 * length inp)%nat /\ bytes_ok out.
Proof.
  assert (B : forall t n, byte_ok (Z.land (Z.shiftr t n) 255)).
  { intros. unfold byte_ok. change 255 with (2 ^ 8 - 1). rewrite land_ones_mod by lia.
    apply Z.mod_pos_bound. lia. }
  assert (G : forall inp d d',
    (0 <= d_y d)%Z -> bytes_ok (d_out d) ->
    decode_loop inp d = Some d' ->
    4 * Z.of_nat (length (d_out d')) <= 3 * Z.of_nat (length inp) + 3 * d_y d + 4 * Z.of_nat (length (d_out d))
    /\ bytes_ok (d_out d')).
  { clear inp out. induction inp as [|x inp IH]; intros d d' Hy Hb.
    - simpl. intros [= ->]. split; [lia|done].
    - simpl. destruct (x =? 0); [intros [= ->]; split; [lia|done]|].
      unfold decode_char. destruct (_ =? 255); [done|]. destruct (_ =? 253).
      { intros E. destruct (IH _ _ Hy Hb E). split; [lia|done]. }
      destruct (if get b64_map x =? 254 then _ else _) as [c g]. set (t := u64 _).
      destruct (Z.eqb_spec (d_y d + 1) 4) as [E4|E4]; intros E.
      + apply IH in E; cbn [d_y d_out] in *; [|lia|].
        * destruct E as [E Eb]. split; [|done].
          destruct (1 <? g), (2 <? g); cbn [length] in E; lia.
        * pose proof (B t 0) as B0. rewrite Z.shiftr_0_r in B0.
          destruct (1 <? g), (2 <? g); auto.
      + apply IH in E; cbn [d_y d_out] in *; [|lia|done]. destruct E. split; [lia|done]. }
  unfold decode. destruct (decode_loop inp decode_init) as [d|] eqn:E; [|done].
  intros [= <-]. apply G in E; [|simpl; lia|constructor]. destruct E as [E Eb].
  cbn in E. rewrite length_rev. split; [lia|]. by apply Forall_rev.
Qed.

Lemma base64_roundtrip_witness :
  decode (encode [1; 2; 255; 0]) = Some [1; 2; 255; 0] /\
  decode_loop (encode [1; 2; 255; 0] ++ 0 :: [7]) decode_init
  = decode_loop (encode [1; 2; 255; 0]) decode_init /\
  decode_ret (encode [1; 2; 255; 0]) = 4 /\ encode_ret [1; 2; 255; 0] = 8.
Proof.
  apply (base64_roundtrip [1; 2; 255; 0] [7]). repeat constructor; unfold byte_ok; lia.
Defined.

Lemma base64_decode_bound_witness :
  decode [81; 81; 61; 61] = Some [65] /\ (4 * 1 <= 3 * 4)%nat.
Proof.
  assert (E : decode [81; 81; 61; 61] = Some [65]) by reflexivity. split; [exact E|].
  exact (proj1 (base64_decode_bound _ _ E)).
Defined.
