(* ===== verification/Hash.v ===== *)
(** * Hash: the string hashes of core/func.hpp

    [str] is the byte string the loop reads, [len] its length: the C loop
    [for(i = 0; i < len; str++, i++)] is a fold over it.  [char] is signed, so
    each byte is read through [s8]; [unsigned int] arithmetic wraps at 2^32. *)

From S2P Require Import Prelude.

(** [*str] *)
Definition chr (b : Z) : Z := s8 b.

Definition RSHash (str : list Z) : Z :=
  let b := 378551 in
  fst (fold_left (fun '(hash, a) c => (u32 (hash * a + chr c), u32 (a * b))) str (0, 63689)).

Definition JSHash (str : list Z) : Z :=
  fold_left (fun hash c =>
    Z.lxor hash (u32 (u32 (Z.shiftl hash 5) + chr c + Z.shiftr hash 2))) str 1315423911.

Definition HighBits : Z := u32 (Z.shiftl 0xFFFFFFFF (32 - 4)).

Definition PJWHash_step (hash c : Z) : Z :=
  let BitsInUnsignedInt := 32 in
  let ThreeQuarters := (BitsInUnsignedInt * 3) / 4 in
  let OneEighth := BitsInUnsignedInt / 8 in
  let hash := u32 (u32 (Z.shiftl hash OneEighth) + chr c) in
  let test := Z.land hash HighBits in
  if test =? 0 then hash
  else Z.land (Z.lxor hash (Z.shiftr test ThreeQuarters)) (u32 (Z.lnot HighBits)).

Definition PJWHash (str : list Z) : Z := fold_left PJWHash_step str 0.

Definition ELFHash_step (hash c : Z) : Z :=
  let hash := u32 (u32 (Z.shiftl hash 4) + chr c) in
  let x := u32 (Z.land hash 0xF0000000) in
  let hash := if x =? 0 then hash else Z.lxor hash (Z.shiftr x 24) in
  Z.land hash (u32 (Z.lnot x)).

Definition ELFHash (str : list Z) : Z := fold_left ELFHash_step str 0.

Definition BKDRHash (str : list Z) : Z :=
  let seed := 131 in fold_left (fun hash c => u32 (u32 (hash * seed) + chr c)) str 0.

Definition SDBMHash (str : list Z) : Z :=
  fold_left (fun hash c =>
    u32 (u32 (u32 (chr c + u32 (Z.shiftl hash 6)) + u32 (Z.shiftl hash 16)) - hash)) str 0.

Definition DJBHash (str : list Z) : Z :=
  fold_left (fun hash c => u32 (u32 (u32 (Z.shiftl hash 5) + hash) + chr c)) str 5381.

Definition DEKHash (str : list Z) : Z :=
  fold_left (fun hash c =>
    u32 (Z.lxor (Z.lxor (u32 (Z.shiftl hash 5)) (Z.shiftr hash 27)) (u32 (chr c))))
    str (u32 (Z.of_nat (length str))).

Definition BPHash (str : list Z) : Z :=
  fold_left (fun hash c => u32 (Z.lxor (u32 (Z.shiftl hash 7)) (u32 (chr c)))) str 0.

Definition FNVHash (str : list Z) : Z :=
  let fnv_prime := 0x811C9DC5 in
  fold_left (fun hash c => Z.lxor (u32 (hash * fnv_prime)) (u32 (chr c))) str 0.

Definition APHash_step (i : nat) (hash c : Z) : Z :=
  Z.lxor hash
    (if Z.land (Z.of_nat i) 1 =? 0
     then Z.lxor (u32 (Z.shiftl hash 7)) (u32 (u32 (chr c) * Z.shiftr hash 3))
     else u32 (Z.lnot (u32 (u32 (Z.shiftl hash 11) + Z.lxor (u32 (chr c)) (Z.shiftr hash 5))))).

Definition APHash (str : list Z) : Z :=
  fst (fold_left (fun '(hash, i) c => (APHash_step i hash c, S i)) str (0xAAAAAAAA, 0%nat)).

(** The Lua wrappers stop the string at its first NUL ([strlen]). *)
Fixpoint c_str (l : list Z) : list Z :=
  match l with
  | [] => []
  | x :: l => if x =? 0 then [] else x :: c_str l
  end.

(** [lua_pushinteger(L, H(str, strlen(str)))] pushes the unsigned value. *)
Definition lua_hash (H : list Z -> Z) (str : list Z) : Z := H (c_str str).

(** ** Ranges *)

Definition word32 (z : Z) : Prop := 0 <= z < 2 ^ 32.

Lemma word32_u32 z : word32 (u32 z).
Proof. apply u32_range. Qed.

Lemma word32_lxor a b : word32 a -> word32 b -> word32 (Z.lxor a b).
Proof. intros. by apply (lxor_bound 32). Qed.

Lemma word32_shiftr a n : 0 <= n -> word32 a -> word32 (Z.shiftr a n).
Proof.
  unfold word32. intros Hn Ha. rewrite Z.shiftr_div_pow2 by done.
  pose proof (Z.pow_pos_nonneg 2 n). split; [apply Z.div_pos; lia|].
  apply Z.le_lt_trans with a; [apply Z.div_le_upper_bound; nia|lia].
Qed.

Lemma word32_land a b : word32 a -> word32 b -> word32 (Z.land a b).
Proof. intros [] ?. by apply (land_bound 32). Qed.

#[export] Hint Resolve word32_u32 word32_lxor word32_land : bytes.

Lemma fold_inv {A B} (P : A -> Prop) (f : A -> B -> A) l a :
  P a -> (forall a b, P a -> P (f a b)) -> P (fold_left f l a).
Proof. revert a. induction l; simpl; auto. Qed.

Lemma word32_const z : (0 <=? z) && (z <? 2 ^ 32) = true -> word32 z.
Proof. unfold word32. rewrite andb_true_iff, Z.leb_le, Z.ltb_lt. lia. Qed.

Ltac word32_fold :=
  match goal with |- word32 (?H _) => unfold H; cbv zeta end;
  apply fold_inv; [apply word32_const; reflexivity|intros; auto 10 with bytes].

(** Every hash of func.hpp is an [unsigned int], whatever bytes it reads. *)
Lemma hashes_word32 str :
  Forall word32 [RSHash str; JSHash str; PJWHash str; ELFHash str; BKDRHash str; SDBMHash str;
    DJBHash str; DEKHash str; BPHash str; FNVHash str; APHash str].
Proof.
  repeat apply Forall_cons_2; [..|apply Forall_nil_2]; try solve [word32_fold].
  - unfold RSHash. cbv zeta. apply (fold_inv (fun p => word32 (fst p))); [by split|].
    intros [] ? ?. simpl. auto with bytes.
  - unfold PJWHash. apply fold_inv; [by split|]. intros h c Hh. unfold PJWHash_step.
    destruct (_ =? 0); auto 10 with bytes. apply word32_land; [|auto with bytes].
    apply word32_lxor; [auto with bytes|]. apply word32_shiftr; [by vm_compute|].
    apply word32_land; auto with bytes. by split.
  - unfold ELFHash. apply fold_inv; [by split|]. intros h c Hh. unfold ELFHash_step.
    destruct (_ =? 0); auto 10 with bytes. apply word32_land; [|auto with bytes].
    apply word32_lxor; [auto with bytes|]. apply word32_shiftr; [lia|auto with bytes].
  - unfold DEKHash. apply fold_inv; auto with bytes.
  - unfold APHash. apply (fold_inv (fun p => word32 (fst p))); [by split|].
    intros [h i] c ?. simpl in *. unfold APHash_step.
    destruct (_ =? 0); auto 10 with bytes.
Qed.

(** ** ELFHash and PJWHash *)

Lemma HighBits_val : HighBits = 0xF0000000.
Proof. reflexivity. Qed.

(** The high nibble of a word, as a mask. *)
Lemma nibble_testbit x i :
  word32 x -> Z.testbit (Z.land x 0xF0000000) i = Z.testbit x i && (28 <=? i).
Proof.
  intros Hx. rewrite Z.land_spec. destruct (Z.testbit x i) eqn:E; [|done]. simpl.
  destruct (Z.lt_ge_cases i 0); [rewrite Z.testbit_neg_r in E by lia; done|].
  destruct (Z.lt_ge_cases i 32); [|rewrite (testbit_high x 32) in E; done].
  assert (F : forallb (fun n => eqb (Z.testbit 0xF0000000 (Z.of_nat n)) (28 <=? Z.of_nat n))
                (seq 0 32) = true) by (vm_compute; reflexivity).
  rewrite forallb_forall in F. specialize (F (Z.to_nat i)). rewrite Z2Nat.id in F by lia.
  apply eqb_prop, F, in_seq. lia.
Qed.

Lemma lnot_mask_testbit m i :
  word32 m -> 0 <= i -> Z.testbit (u32 (Z.lnot m)) i = negb (Z.testbit m i) && (i <? 32).
Proof.
  intros Hm Hi. unfold u32. destruct (Z.ltb_spec i 32).
  - rewrite Z.mod_pow2_bits_low, Z.lnot_spec, andb_true_r by lia. done.
  - rewrite Z.mod_pow2_bits_high, andb_false_r by lia. done.
Qed.

(** Both steps keep the low 28 bits of the shifted hash, with the nibble shifted
    out of it folded in when there is one. *)
Definition nibble_step (hash c : Z) : Z :=
  let h := u32 (u32 (Z.shiftl hash 4) + chr c) in
  Z.land (Z.lxor h (Z.shiftr (Z.land h 0xF0000000) 24)) (2 ^ 28 - 1).

Ltac bit_cases i :=
  destruct (Z.leb_spec 28 i); [|assert (i < 28) by lia].

Lemma ones28_testbit i : 0 <= i -> Z.testbit (2 ^ 28 - 1) i = (i <? 28).
Proof.
  intros. change (2 ^ 28 - 1) with (Z.ones 28). destruct (Z.ltb_spec i 28).
  - apply Z.ones_spec_low. lia.
  - apply Z.ones_spec_high. lia.
Qed.

(** Masking with the complement of the whole nibble, or of its set bits only. *)
Lemma clear_nibble h m :
  word32 h -> word32 m ->
  (forall i, 0 <= i -> Z.testbit m i = (28 <=? i) && (i <? 32) \/
             Z.testbit m i = Z.testbit h i && (28 <=? i)) ->
  Z.land (Z.lxor h (Z.shiftr (Z.land h 0xF0000000) 24)) (u32 (Z.lnot m))
  = Z.land (Z.lxor h (Z.shiftr (Z.land h 0xF0000000) 24)) (2 ^ 28 - 1).
Proof.
  intros Hh Hm H. apply Z.bits_inj'. intros i Hi.
  rewrite !Z.land_spec, Z.lxor_spec, lnot_mask_testbit, ones28_testbit, Z.shiftr_spec,
    nibble_testbit by done.
  specialize (H i Hi). destruct (Z.ltb_spec i 32).
  - destruct (Z.ltb_spec i 28), (Z.leb_spec 28 i); try lia.
    + rewrite !andb_false_r in H. destruct H as [-> | ->]; btauto.
    + rewrite (testbit_high h 32 (i + 24)) by (try done; lia).
      destruct H as [-> | ->]; destruct (Z.testbit h i); reflexivity.
  - rewrite (testbit_high h 32 i), (testbit_high h 32 (i + 24)) by (try done; lia). done.
Qed.

Lemma nibble_zero h :
  word32 h -> Z.land h 0xF0000000 = 0 ->
  h = Z.land (Z.lxor h (Z.shiftr (Z.land h 0xF0000000) 24)) (2 ^ 28 - 1).
Proof.
  intros Hh H0. rewrite H0, Z.shiftr_0_l, Z.lxor_0_r. apply Z.bits_inj'. intros i Hi.
  rewrite Z.land_spec, ones28_testbit by done. destruct (Z.ltb_spec i 28); [by rewrite andb_true_r|].
  rewrite andb_false_r. pose proof (nibble_testbit h i Hh) as N. rewrite H0, Z.bits_0 in N.
  destruct (Z.leb_spec 28 i); [|lia]. by rewrite andb_true_r in N.
Qed.

Lemma PJWHash_step_nibble hash c : PJWHash_step hash c = nibble_step hash c.
Proof.
  unfold PJWHash_step, nibble_step. cbv zeta. change (32 / 8) with 4. change (32 * 3 / 4) with 24.
  rewrite HighBits_val. set (h := u32 (u32 (Z.shiftl hash 4) + chr c)). assert (Hh : word32 h) by apply word32_u32.
  destruct (Z.eqb_spec (Z.land h 0xF0000000) 0) as [E|E]; [by apply nibble_zero|].
  apply clear_nibble; [done|by split|]. intros i Hi. left.
  change 0xF0000000 with (Z.land (2 ^ 32 - 1) 0xF0000000).
  rewrite nibble_testbit by (by split). rewrite andb_comm. f_equal.
  change (2 ^ 32 - 1) with (Z.ones 32). destruct (Z.ltb_spec i 32).
  - apply Z.ones_spec_low. lia.
  - apply Z.ones_spec_high. lia.
Qed.

Lemma ELFHash_step_nibble hash c : ELFHash_step hash c = nibble_step hash c.
Proof.
  unfold ELFHash_step, nibble_step. cbv zeta. set (h := u32 (u32 (Z.shiftl hash 4) + chr c)).
  assert (Hh : word32 h) by apply word32_u32.
  assert (Hx : word32 (Z.land h 0xF0000000)) by (apply word32_land; [done|by split]).
  rewrite (u32_id (Z.land h _)) by done.
  destruct (Z.eqb_spec (Z.land h 0xF0000000) 0) as [E|E].
  - rewrite E at 1. rewrite <- nibble_zero by done. change (u32 (Z.lnot 0)) with (Z.ones 32).
    rewrite Z.land_ones by lia. apply Z.mod_small. done.
  - apply clear_nibble; [done..|]. intros i Hi. right. by apply nibble_testbit.
Qed.

Lemma nibble_step_bound hash c : 0 <= nibble_step hash c < 2 ^ 28.
Proof.
  unfold nibble_step. rewrite land_ones_mod by lia. apply Z.mod_pos_bound. lia.
Qed.

(** [PJWHash] and [ELFHash] of func.hpp, written differently, are one
    function, and its values fit in 28 bits. *)
Lemma PJWHash_ELFHash str : PJWHash str = ELFHash str /\ 0 <= ELFHash str < 2 ^ 28.
Proof.
  unfold PJWHash, ELFHash. split.
  - generalize 0. induction str as [|c str IH]; intros h; [done|]. simpl.
    by rewrite PJWHash_step_nibble, ELFHash_step_nibble, IH.
  - apply fold_inv; [lia|]. intros. rewrite ELFHash_step_nibble. apply nibble_step_bound.
Qed.

(** ** Polynomial hashes *)

(** The hash of [str] as a polynomial in [m] with start value [h0], modulo 2^32. *)
Definition poly_hash (m h0 : Z) (str : list Z) : Z :=
  fold_left (fun h c => u32 (h * m + chr c)) str h0.

Lemma fold_left_ext {A B} (f g : A -> B -> A) l a :
  (forall a b, f a b = g a b) -> fold_left f l a = fold_left g l a.
Proof. intros H. revert a. induction l; intros; simpl; [done|]. by rewrite H. Qed.

Lemma u32_add_l a b : u32 (u32 a + b) = u32 (a + b).
Proof. unfold u32. apply Zplus_mod_idemp_l. Qed.
Lemma u32_add_r a b : u32 (a + u32 b) = u32 (a + b).
Proof. unfold u32. apply Zplus_mod_idemp_r. Qed.
Lemma u32_sub_l a b : u32 (u32 a - b) = u32 (a - b).
Proof. unfold u32. apply Zminus_mod_idemp_l. Qed.

(** [BKDRHash], [DJBHash] and [SDBMHash] are polynomial hashes: their shifts
    and subtractions compute multiplication by 131, 33 and 65599 modulo 2^32. *)
Lemma polynomial_hashes str :
  BKDRHash str = poly_hash 131 0 str /\
  DJBHash str = poly_hash 33 5381 str /\
  SDBMHash str = poly_hash 65599 0 str.
Proof.
  unfold BKDRHash, DJBHash, SDBMHash, poly_hash. cbv zeta.
  repeat split; apply fold_left_ext; intros h c;
    rewrite ?Z.shiftl_mul_pow2 by lia; rewrite ?u32_add_l, ?u32_add_r, ?u32_sub_l.
  - done.
  - rewrite <- Z.add_assoc, u32_add_l. f_equal. lia.
  - replace (chr c + u32 (h * 2 ^ 6) + h * 2 ^ 16 - h)
      with (u32 (h * 2 ^ 6) + (chr c + h * 2 ^ 16 - h)) by lia.
    rewrite u32_add_l. f_equal. lia.
Qed.
