(* ===== verification/Func.v ===== *)
(** * Func: the helpers of core/func.hpp

    Number to text and back ([int2str], [str2int]), random numbers and passwords
    ([randnum], [randstr]), fixed-width string copy ([wristr]), URL coding, prefix
    matching, and the [vec3] template with its geometric hash.  A C string is the
    list of its bytes; [c_str] cuts a buffer at its first NUL. *)

From S2P Require Import Prelude Hash.

(** ** int2str and str2int *)

Definition hex_digit (d : Z) : Z := if d <? 10 then 48 + d else 87 + d.

(** Lower-case hexadecimal without leading zeros; eight digits are enough for
    an [unsigned int]. *)
Fixpoint to_hex (fuel : nat) (n : Z) : list Z :=
  match fuel with
  | O => []
  | S fuel => if n <? 16 then [hex_digit n] else to_hex fuel (n / 16) ++ [hex_digit (n mod 16)]
  end.

Definition sp : Z := 32.

(** All the bytes [sprintf(c, "%8x ", v)] writes, its terminating NUL included. *)
Definition sprintf_8x (v : Z) : list Z :=
  let h := to_hex 8 (u32 v) in
  replicate (8 - length h) sp ++ h ++ [sp; 0].

(** [sprintf(c, "%8x ", *i); c[8]='\0';] : the bytes written from [c] on. *)
Definition int2str (i : Z) : list Z := setn (sprintf_8x i) 8 0.

Definition isspace (c : Z) : bool := (c =? 32) || ((9 <=? c) && (c <=? 13)).
Definition isxdigit (c : Z) : bool :=
  ((48 <=? c) && (c <=? 57)) || ((65 <=? c) && (c <=? 70)) || ((97 <=? c) && (c <=? 102)).
Definition xdigit_val (c : Z) : Z :=
  if c <=? 57 then c - 48 else if c <=? 70 then c - 55 else c - 87.

Fixpoint skip_space (s : list Z) : list Z :=
  match s with
  | c :: s' => if isspace c then skip_space s' else s
  | [] => []
  end.

(** The digits [%x] takes, most significant first. *)
Fixpoint scan_hex (s : list Z) (acc : Z) : Z :=
  match s with
  | c :: s => if isxdigit c then scan_hex s (acc * 16 + xdigit_val c) else acc
  | [] => acc
  end.

Definition starts_digit (s : list Z) : bool :=
  match s with c :: _ => isxdigit c | [] => false end.

(** An optional [0x] that is followed by a digit. *)
Definition skip_0x (s : list Z) : list Z :=
  match s with
  | 48 :: x :: s' => if ((x =? 120) || (x =? 88)) && starts_digit s' then s' else s
  | _ => s
  end.

(** [sscanf(c, "%8x", i)]: white space is skipped, then at most eight characters
    are taken, with an optional sign; [None] leaves [*i] as it was. *)
Definition str2int (c : list Z) : option Z :=
  let s := take 8 (skip_space (c_str c)) in
  let '(neg, s) := match s with
                   | 43 :: s => (false, s) | 45 :: s => (true, s) | _ => (false, s) end in
  let s := skip_0x s in
  if starts_digit s then
    let v := scan_hex s 0 in Some (s32 (if neg : bool then - v else v))
  else None.

(** ** Random numbers

    [rand_of seed] is the value [rand()] returns after [srand(seed)]; the C
    library promises [0 <= rand() <= RAND_MAX], which is 2^31-1 on the targets. *)

Section Random.
Context (rand_of : Z -> Z).

(** [static int st]: the state is the counter. *)
Definition randnum (st : Z) : Z * Z :=
    let st := s32 (st + 1) in
    let r := rand_of st in
    let r := if r =? 0 then r + 1 else r in
    (r, st).

(** "xcvbnmasdfghjklqwertyuiop1234567890ZXCVBNMASDFGHJKLQWERTYUIOP" with the
      NUL that [sizeof(arr)] counts. *)
Definition arr : list Z :=
    [120; 99; 118; 98; 110; 109; 97; 115; 100; 102; 103; 104; 106; 107; 108; 113; 119; 101; 114;
     116; 121; 117; 105; 111; 112; 49; 50; 51; 52; 53; 54; 55; 56; 57; 48; 90; 88; 67; 86; 66; 78;
     77; 65; 83; 68; 70; 71; 72; 74; 75; 76; 81; 87; 69; 82; 84; 89; 85; 73; 79; 80; 0].

(** [result] has 17 cells and [result[16]] is 0. *)
Definition randstr (st : Z) : list Z * Z :=
    for_ 0 16 (fun i '(result, st) =>
      let '(r, st) := randnum st in
      (setn result i (get arr (u64 r mod Z.of_nat (length arr))), st)) (replicate 17 0, st).
End Random.

(** ** wristr, prefix_match *)

(** [wristr(in, out)]: at most 16 bytes, up to and including the first NUL. *)
Fixpoint wristr_loop (n : nat) (inp out : list Z) : list Z :=
  match n with
  | O => out
  | S n =>
      let x := match inp with x :: _ => x | [] => 0 end in
      if x =? 0 then 0 :: drop 1 out
      else x :: wristr_loop n (drop 1 inp) (drop 1 out)
  end.

Definition wristr (inp out : list Z) : list Z := wristr_loop 16 inp out.

(** Both are C strings; the end of a list is its NUL. *)
Fixpoint prefix_match (s1 s2 : list Z) : bool :=
  match s1 with
  | [] => true
  | x :: s1 =>
      if x =? 0 then true
      else match s2 with
           | [] => false
           | y :: s2 => if x =? y then prefix_match s1 s2 else false
           end
  end.

(** ** URL coding *)

(** "0123456789ABCDEF" *)
Definition hexchars : list Z := [48; 49; 50; 51; 52; 53; 54; 55; 56; 57; 65; 66; 67; 68; 69; 70].

Definition isupper (c : Z) : bool := (65 <=? c) && (c <=? 90).
Definition tolower (c : Z) : Z := if isupper c then c + 32 else c.

Definition htoi (s0 s1 : Z) : Z :=
  let c := if isupper s0 then tolower s0 else s0 in
  let value := (if (48 <=? c) && (c <=? 57) then c - 48 else c - 97 + 10) * 16 in
  let c := if isupper s1 then tolower s1 else s1 in
  value + (if (48 <=? c) && (c <=? 57) then c - 48 else c - 97 + 10).

(** The characters the encoder replaces. *)
Definition url_escape (c : Z) : bool :=
  ((c <? 48) && negb (c =? 45) && negb (c =? 46)) ||
  ((c <? 65) && (57 <? c)) ||
  ((90 <? c) && (c <? 97) && negb (c =? 95)) ||
  (122 <? c).

Definition url_encode_char (c : Z) : list Z :=
  if c =? 32 then [43]
  else if url_escape c then [37; get hexchars (Z.shiftr c 4); get hexchars (Z.land c 15)]
  else [c].

(** The bytes stored at [start]; the NUL after them and [*new_length] follow. *)
Definition url_encode (s : list Z) : list Z := flat_map url_encode_char s.

(** [url_decode(str, len)] in place: the list is [str[0..len-1]], the result the
    bytes before the NUL it stores; [isxdigit] sees the [char] as an [int]. *)
Fixpoint url_decode (data : list Z) : list Z :=
  match data with
  | [] => []
  | c :: data1 =>
      if c =? 43 then 32 :: url_decode data1
      else
        match data1 with
        | h1 :: h2 :: data3 =>
            if (c =? 37) && isxdigit (s8 h1) && isxdigit (s8 h2)
            then u8 (htoi h1 h2) :: url_decode data3
            else c :: url_decode data1
        | _ => c :: url_decode data1
        end
  end.

Definition url_decode_ret (data : list Z) : Z := Z.of_nat (length (url_decode data)).

(** ** vec3

    The template over its number type: the operations of [T] are parameters. *)

Section Vec3.
Context {T : Type} (zero : T) (add sub mul div : T -> T -> T) (gtb : T -> T -> bool) (half : T -> T).

Record vec3 := mk_vec3 { vx : T; vy : T; vz : T }.

Definition vec3_default : vec3 := mk_vec3 zero zero zero.
Definition vec3_add (a p : vec3) : vec3 :=
    mk_vec3 (add (vx a) (vx p)) (add (vy a) (vy p)) (add (vz a) (vz p)).
Definition vec3_sub (a p : vec3) : vec3 :=
    mk_vec3 (sub (vx a) (vx p)) (sub (vy a) (vy p)) (sub (vz a) (vz p)).
Definition vec3_scale (a : vec3) (p : T) : vec3 :=
    mk_vec3 (mul p (vx a)) (mul p (vy a)) (mul p (vz a)).
Definition vec3_div (a : vec3) (p : T) : vec3 :=
    mk_vec3 (div (vx a) p) (div (vy a) p) (div (vz a) p).
(** [operator*(vec3<T> &i)] *)
Definition vec3_cross (a i : vec3) : vec3 :=
    mk_vec3 (sub (mul (vy a) (vz i)) (mul (vz a) (vy i)))
            (sub (mul (vz a) (vx i)) (mul (vx a) (vz i)))
            (sub (mul (vz a) (vy i)) (mul (vy a) (vx i))).

(** The letter of an octant, and the signs [(x, y, z)] it stands for. *)
Definition octant (bx by_ bz : bool) : Z :=
    match bx, by_, bz with
    | true, true, true => 97 | true, true, false => 98
    | true, false, true => 99 | true, false, false => 100
    | false, true, true => 101 | false, true, false => 102
    | false, false, true => 103 | false, false, false => 104
    end.

Definition shift (b : bool) (v length : T) : T := if b then add v length else sub v length.

(** [GeoHash(length, str, begin, end, zero)] with [n = end - begin]: the bytes
      stored from [str[begin]] on (before the NUL) and the final [*zero]. *)
Fixpoint GeoHash_rec (n : nat) (p : vec3) (length : T) (z : vec3) : list Z * vec3 :=
    match n with
    | O => ([], z)
    | S n =>
        let bx := gtb (vx p) (vx z) in
        let by_ := gtb (vy p) (vy z) in
        let bz := gtb (vz p) (vz z) in
        let z := mk_vec3 (shift bx (vx z) length) (shift by_ (vy z) length) (shift bz (vz z) length) in
        let '(str, z) := GeoHash_rec n p (half length) z in
        (octant bx by_ bz :: str, z)
    end.

Definition GeoHash (p : vec3) (length : T) (l : nat) : list Z :=
    fst (GeoHash_rec l p length vec3_default).

Definition GeoHashDecode_char (c : Z) : option (bool * bool * bool) :=
    if c =? 97 then Some (true, true, true) else if c =? 98 then Some (true, true, false)
    else if c =? 99 then Some (true, false, true) else if c =? 100 then Some (true, false, false)
    else if c =? 101 then Some (false, true, true) else if c =? 102 then Some (false, true, false)
    else if c =? 103 then Some (false, false, true) else if c =? 104 then Some (false, false, false)
    else None.

(** The [while] loop on [str]; the boolean is the return value. *)
Fixpoint GeoHashDecode_loop (s : list Z) (ll : T) (v : vec3) : bool * vec3 :=
    match s with
    | [] => (true, v)
    | c :: s =>
        if c =? 0 then (true, v)
        else match GeoHashDecode_char c with
             | None => (false, v)
             | Some (bx, by_, bz) =>
                 GeoHashDecode_loop s (half ll)
                   (mk_vec3 (shift bx (vx v) ll) (shift by_ (vy v) ll) (shift bz (vz v) ll))
             end
    end.

Definition GeoHashDecode (length : T) (s : list Z) : bool * vec3 :=
    GeoHashDecode_loop s length vec3_default.

Lemma GeoHash_decode_loop n p : forall length z,
    GeoHashDecode_loop (fst (GeoHash_rec n p length z)) length z
    = (true, snd (GeoHash_rec n p length z)).
Proof.
    induction n as [|n IH]; intros length z; [done|]. cbn [GeoHash_rec].
    set (bx := gtb _ _). set (by_ := gtb _ _). set (bz := gtb _ _).
    specialize (IH (half length) (mk_vec3 (shift bx (vx z) length) (shift by_ (vy z) length)
                                    (shift bz (vz z) length))).
    destruct (GeoHash_rec n p _ _) as [str z'] eqn:E. cbn [fst snd] in *.
    cbn [GeoHashDecode_loop].
    replace (octant bx by_ bz =? 0) with false by (by destruct bx, by_, bz).
    replace (GeoHashDecode_char (octant bx by_ bz)) with (Some (bx, by_, bz))
      by (by destruct bx, by_, bz).
    exact IH.
Qed.

Lemma GeoHash_letters n p : forall length z,
    List.length (fst (GeoHash_rec n p length z)) = n /\
    Forall (fun c => 97 <= c <= 104) (fst (GeoHash_rec n p length z)).
Proof.
    induction n as [|n IH]; intros length z; [done|]. cbn [GeoHash_rec].
    set (z1 := mk_vec3 _ _ _). destruct (IH (half length) z1) as [L F].
    destruct (GeoHash_rec n p (half length) z1). cbn in *. split; [lia|].
    constructor; [|done]. destruct (gtb _ _), (gtb _ _), (gtb _ _); simpl; lia.
Qed.
End Vec3.

Arguments vec3 : clear implicits.
Arguments mk_vec3 {T}.

(** The geometric hash: over any number type, the code of a point has one
    letter [a]..[h] per level, and decoding it succeeds and rebuilds exactly the
    centre the encoder ended on, because both walk the same sums. *)
Lemma GeoHash_decode {T} (zero : T) add sub gtb half p length l :
  List.length (GeoHash zero add sub gtb half p length l) = l /\
  Forall (fun c => 97 <= c <= 104) (GeoHash zero add sub gtb half p length l) /\
  GeoHashDecode zero add sub half length (GeoHash zero add sub gtb half p length l)
  = (true, snd (GeoHash_rec add sub gtb half l p length (vec3_default zero))).
Proof.
  unfold GeoHash, GeoHashDecode. rewrite GeoHash_decode_loop.
  pose proof (GeoHash_letters add sub gtb half l p length (vec3_default zero)). tauto.
Qed.

(** The third component of [vec3]'s product is written with [z] for [x]: over
    the integers the product of two vectors need not be orthogonal to them, as a
    cross product is. *)
Lemma vec3_cross_not_orthogonal :
  exists a b : vec3 Z,
    let c := vec3_cross Z.sub Z.mul a b in
    vx a * vx c + vy a * vy c + vz a * vz c <> 0.
Proof. exists (mk_vec3 1 2 3), (mk_vec3 4 5 6). vm_compute. discriminate. Qed.

(** ** Number text *)

Lemma hex_digit_val d : 0 <= d < 16 ->
  isxdigit (hex_digit d) = true /\ xdigit_val (hex_digit d) = d /\
  hex_digit d <> 0 /\ isspace (hex_digit d) = false /\ hex_digit d <> 120 /\ hex_digit d <> 88 /\
  hex_digit d <> 43 /\ hex_digit d <> 45.
Proof.
  intros. assert (F : forallb (fun n => let d := Z.of_nat n in
     isxdigit (hex_digit d) && (xdigit_val (hex_digit d) =? d) && negb (hex_digit d =? 0) &&
     negb (isspace (hex_digit d)) && negb (hex_digit d =? 120) && negb (hex_digit d =? 88) &&
     negb (hex_digit d =? 43) && negb (hex_digit d =? 45))
     (seq 0 16) = true) by (vm_compute; reflexivity).
  rewrite forallb_forall in F. specialize (F (Z.to_nat d)). rewrite Z2Nat.id in F by lia.
  cbv zeta in F. rewrite !andb_true_iff, !negb_true_iff, !Z.eqb_neq, Z.eqb_eq in F.
  destruct F as [[[[[[[? ?] ?] ?] ?] ?] ?] ?]; [apply in_seq; lia|]. auto 10.
Qed.

(** Digits: a list of them is read back as the number it writes. *)
Definition digits (h : list Z) : Prop := Forall (fun c => exists d, 0 <= d < 16 /\ c = hex_digit d) h.

Lemma to_hex_digits fuel n : 0 <= n -> digits (to_hex fuel n).
Proof.
  revert n. induction fuel as [|fuel IH]; intros n Hn; simpl; [constructor|].
  destruct (Z.ltb_spec n 16).
  - constructor; [|constructor]. exists n. lia.
  - apply Forall_app. split; [apply IH, Z.div_pos; lia|].
    constructor; [|constructor]. exists (n mod 16). pose proof (Z.mod_pos_bound n 16). lia.
Qed.

Lemma scan_hex_app h1 h2 acc : digits h1 -> scan_hex (h1 ++ h2) acc = scan_hex h2 (scan_hex h1 acc).
Proof.
  intros H. revert acc. induction H as [|c h (d & Hd & ->) H IH]; intros acc; [done|]. simpl.
  destruct (hex_digit_val d Hd) as (-> & -> & _). apply IH.
Qed.

Lemma scan_to_hex fuel n acc : 0 <= n < 16 ^ Z.of_nat fuel -> (0 < fuel)%nat ->
  exists k, (1 <= k <= fuel)%nat /\ length (to_hex fuel n) = k /\
            scan_hex (to_hex fuel n) acc = acc * 16 ^ Z.of_nat k + n.
Proof.
  revert n acc. induction fuel as [|fuel IH]; intros n acc Hn Hf; [lia|]. simpl.
  destruct (Z.ltb_spec n 16).
  - exists 1%nat. simpl. destruct (hex_digit_val n) as (-> & -> & _); [lia|]. repeat split; lia.
  - rewrite Nat2Z.inj_succ, Z.pow_succ_r in Hn by lia.
    assert (Hq : 0 <= n / 16 < 16 ^ Z.of_nat fuel).
    { split; [apply Z.div_pos; lia|]. apply Z.div_lt_upper_bound; lia. }
    destruct fuel as [|fuel']; [simpl in Hn; lia|].
    destruct (IH (n / 16) acc Hq) as (k & Hk & Lk & E); [lia|].
    exists (S k). rewrite length_app, Lk, scan_hex_app, E by (apply to_hex_digits; lia).
    pose proof (Z.mod_pos_bound n 16). cbn [scan_hex length].
    destruct (hex_digit_val (n mod 16)) as (-> & -> & _); [lia|].
    rewrite Nat2Z.inj_succ, Z.pow_succ_r by lia. pose proof (Z.div_mod n 16). repeat split; lia.
Qed.

Lemma digits_facts h : digits h ->
  c_str h = h /\ Forall (fun c => isxdigit c = true) h.
Proof.
  induction 1 as [|c h (d & Hd & ->) H [IH1 IH2]]; [done|].
  destruct (hex_digit_val d Hd) as (E & _ & N & _). simpl.
  destruct (Z.eqb_spec (hex_digit d) 0); [done|]. rewrite IH1. auto.
Qed.

Lemma c_str_app h1 h2 : c_str h1 = h1 -> c_str (h1 ++ h2) = h1 ++ c_str h2.
Proof.
  induction h1 as [|x h1 IH]; [done|]. simpl. destruct (x =? 0); [done|].
  intros [= E]. by rewrite IH.
Qed.

Lemma skip_space_replicate n s : skip_space (replicate n sp ++ s) = skip_space s.
Proof. by induction n. Qed.

(** The eight characters [int2str] leaves before the NUL: padding, then digits. *)
Lemma int2str_text i :
  exists n h, int2str i = (replicate n sp ++ h) ++ [0; 0] /\ (n + length h = 8)%nat /\
              digits h /\ (0 < length h)%nat /\
              forall acc, scan_hex h acc = acc * 16 ^ Z.of_nat (length h) + u32 i.
Proof.
  pose proof (u32_range i) as B. exists (8 - length (to_hex 8 (u32 i)))%nat, (to_hex 8 (u32 i)).
  change (2 ^ 32) with (16 ^ Z.of_nat 8) in B.
  destruct (scan_to_hex 8 (u32 i) 0 B) as (k & Hk & Lk & _); [lia|].
  split; [|split; [lia|split; [apply to_hex_digits; lia|split; [lia|]]]].
  - unfold int2str, sprintf_8x, setn. rewrite app_assoc.
    set (t := replicate _ sp ++ _). replace 8%nat with (length t + 0)%nat at 1.
    + by rewrite insert_app_r.
    + unfold t. rewrite length_app, length_replicate. lia.
  - intros acc. destruct (scan_to_hex 8 (u32 i) acc B) as (k' & _ & L' & E); [lia|].
    rewrite E. congruence.
Qed.

Lemma str2int_int2str i :
  - 2 ^ 31 <= i < 2 ^ 31 -> str2int (int2str i) = Some i.
Proof.
  intros Hi. destruct (int2str_text i) as (n & h & -> & L & D & Hp & E).
  unfold str2int. destruct (digits_facts h D) as [Ch Xh].
  assert (Cs : c_str (replicate n sp ++ h) = replicate n sp ++ h).
  { rewrite c_str_app; [by rewrite Ch|]. clear. induction n; simpl; congruence. }
  rewrite c_str_app by done. simpl. rewrite app_nil_r, skip_space_replicate.
  destruct D as [|c h (d & Hd & ->) D]; [simpl in Hp; lia|].
  destruct (hex_digit_val d Hd) as (X & _ & _ & Sp & N1 & N2 & N3 & N4).
  assert (S0 : skip_space (hex_digit d :: h) = hex_digit d :: h) by (simpl; by rewrite Sp).
  rewrite S0, take_ge by (simpl in *; lia).
  assert (G : forall s : list Z, match hex_digit d :: s with
     | 43 :: s => (false, s) | 45 :: s => (true, s) | _ => (false, hex_digit d :: s) end
     = (false, hex_digit d :: s)).
  { intros s. revert N3 N4. clear. generalize (hex_digit d) as c. intros.
    repeat case_match; simplify_eq; done. }
  rewrite G. clear G.
  assert (K : skip_0x (hex_digit d :: h) = hex_digit d :: h).
  { unfold skip_0x. destruct D as [|c h (d' & Hd' & ->) D].
    - by repeat case_match.
    - destruct (hex_digit_val d' Hd') as (_ & _ & _ & _ & M1 & M2 & _).
      destruct (Z.eqb_spec (hex_digit d') 120), (Z.eqb_spec (hex_digit d') 88); try done.
      by repeat case_match. }
  rewrite K. unfold starts_digit. rewrite X, E. rewrite Z.mul_0_l, Z.add_0_l, s32_u32.
  by rewrite s32_id.
Qed.

(** The text a caller reads back: eight characters, none of them NUL. *)
Definition num_text (i : Z) : list Z := c_str (int2str i).

Lemma int2str_num_text i :
  int2str i = num_text i ++ [0; 0] /\ length (num_text i) = 8%nat /\
  Forall (fun c => c <> 0) (num_text i).
Proof.
  destruct (int2str_text i) as (n & h & E & L & D & _ & _). unfold num_text. rewrite E.
  destruct (digits_facts h D) as [Ch _].
  assert (Cs : c_str (replicate n sp ++ h) = replicate n sp ++ h).
  { rewrite c_str_app; [by rewrite Ch|]. clear. induction n; simpl; congruence. }
  rewrite c_str_app by done. simpl. rewrite app_nil_r, length_app, length_replicate.
  split; [done|]. split; [lia|]. apply Forall_app. split.
  - apply Forall_replicate. unfold sp. lia.
  - clear - D. induction D as [|c h (d & Hd & ->) D IH]; constructor; [|done].
    by destruct (hex_digit_val d Hd) as (_ & _ & ? & _).
Qed.

Lemma num_text_inj i j :
  - 2 ^ 31 <= i < 2 ^ 31 -> - 2 ^ 31 <= j < 2 ^ 31 -> num_text i = num_text j -> i = j.
Proof.
  intros Hi Hj E. pose proof (str2int_int2str i Hi) as Ei. pose proof (str2int_int2str j Hj) as Ej.
  destruct (int2str_num_text i) as [Fi _], (int2str_num_text j) as [Fj _].
  rewrite Fi, E, <- Fj, Ej in Ei. congruence.
Qed.

(** [int2str] and [str2int]: every [int32_t] survives being written as text
    and read back, so two users never share a database key. *)
Lemma int2str_roundtrip i :
  - 2 ^ 31 <= i < 2 ^ 31 -> str2int (int2str i) = Some i.
Proof. exact (str2int_int2str i). Qed.

(** [int2str] stores ten bytes, whatever the number, and so writes past the
    end of the 9-byte [name], [number] and [timestr] buffers its callers in
    ysdb.hpp, ysconnection.hpp and [nowtime] hand it; the text itself has 8. *)
Lemma int2str_overruns i :
  length (int2str i) = 10%nat /\ (9 < length (int2str i))%nat /\ length (c_str (int2str i)) = 8%nat.
Proof.
  destruct (int2str_text i) as (n & h & -> & L & D & _).
  destruct (digits_facts h D) as [Ch _].
  assert (Cs : c_str (replicate n sp ++ h) = replicate n sp ++ h).
  { rewrite c_str_app; [by rewrite Ch|]. clear. induction n; simpl; congruence. }
  rewrite c_str_app by done. simpl. rewrite app_nil_r, !length_app, length_replicate. simpl. lia.
Qed.


(** ** URL coding round trip *)

(** What one byte encodes to, and that a decoder in front of it undoes it. *)
Lemma url_encode_char_cases c : byte_ok c ->
  (c = 32 /\ url_encode_char c = [43]) \/
  (url_encode_char c = [c] /\ c <> 43 /\ c <> 37) \/
  exists h1 h2, url_encode_char c = [37; h1; h2] /\ isxdigit (s8 h1) = true /\
                isxdigit (s8 h2) = true /\ u8 (htoi h1 h2) = c.
Proof.
  intros Hc. unfold url_encode_char. destruct (Z.eqb_spec c 32); [by left|].
  destruct (url_escape c) eqn:E.
  - right. right. do 2 eexists. split; [done|].
    assert (F : below256 (fun c => isxdigit (s8 (get hexchars (Z.shiftr c 4))) &&
        isxdigit (s8 (get hexchars (Z.land c 15))) &&
        (u8 (htoi (get hexchars (Z.shiftr c 4)) (get hexchars (Z.land c 15))) =? c)) = true)
      by (vm_compute; reflexivity).
    apply (below256_spec _ c F) in Hc. rewrite !andb_true_iff, Z.eqb_eq in Hc. tauto.
  - right. left. split; [done|]. split; intros ->; discriminate.
Qed.

Lemma url_decode_plain c s : c <> 43 -> c <> 37 -> url_decode (c :: s) = c :: url_decode s.
Proof.
  intros H1 H2. cbn [url_decode]. destruct (Z.eqb_spec c 43); [done|].
  destruct (Z.eqb_spec c 37); [done|]. by destruct s as [|? [|? ?]].
Qed.

Lemma url_decode_app c s : byte_ok c -> url_decode (url_encode_char c ++ s) = c :: url_decode s.
Proof.
  intros Hc. destruct (url_encode_char_cases c Hc) as
    [(-> & ->)|[(-> & N1 & N2)|(h1 & h2 & -> & X1 & X2 & E)]].
  - done.
  - by apply url_decode_plain.
  - cbn [app url_decode]. rewrite X1, X2, E. done.
Qed.

(** The characters an encoded string is made of. *)
Definition url_safe (c : Z) : bool :=
  ((48 <=? c) && (c <=? 57)) || ((65 <=? c) && (c <=? 90)) || ((97 <=? c) && (c <=? 122)) ||
  (c =? 45) || (c =? 46) || (c =? 95) || (c =? 43) || (c =? 37).

(** URL coding of func.hpp: decoding the encoded bytes gives them back, for
    any byte string; the encoded text uses only URL-safe characters and fits the
    [3*len+1] bytes [url_encode] allocates, and in-place decoding never grows. *)
Lemma url_roundtrip s :
  bytes_ok s ->
  url_decode (url_encode s) = s /\ url_decode_ret (url_encode s) = Z.of_nat (length s) /\
  Forall (fun c => url_safe c = true) (url_encode s) /\
  (length (url_encode s) + 1 <= 3 * length s + 1)%nat.
Proof.
  intros H. assert (R : url_decode (url_encode s) = s).
  { induction H as [|c s Hc H IH]; [done|]. unfold url_encode in *. simpl.
    by rewrite url_decode_app, IH. }
  split; [exact R|]. unfold url_decode_ret. rewrite R. split; [done|]. clear R.
  induction H as [|c s Hc H [IH1 IH2]]; [simpl; split; [constructor|lia]|].
  unfold url_encode in *. simpl. rewrite length_app. split.
  - apply Forall_app. split; [|done].
    assert (F : below256 (fun c => forallb url_safe (url_encode_char c)) = true)
      by (vm_compute; reflexivity).
    apply (below256_spec _ c F) in Hc. rewrite forallb_forall in Hc. by apply Forall_forall.
  - assert (length (url_encode_char c) <= 3)%nat; [|lia].
    unfold url_encode_char. destruct (c =? 32), (url_escape c); simpl; lia.
Qed.

Lemma url_decode_shrinks_aux n : forall s, (length s <= n)%nat -> (length (url_decode s) <= length s)%nat.
Proof.
  induction n as [|n IH]; intros s Hs; [destruct s; simpl in *; lia|].
  destruct s as [|c s]; [done|]. cbn [length] in Hs.
  pose proof (IH s ltac:(lia)) as G. cbn [url_decode].
  destruct (c =? 43); [simpl; lia|].
  destruct s as [|h1 [|h2 s]]; [simpl; lia|simpl in *; lia|].
  pose proof (IH s ltac:(simpl in Hs; lia)) as G'.
  destruct ((c =? 37) && isxdigit (s8 h1) && isxdigit (s8 h2)); cbn [length] in *; lia.
Qed.

(** Decoding in place is safe on any input, encoded or not: the write pointer
    never passes the read pointer, so the result and its NUL fit the buffer. *)
Lemma url_decode_in_place s : (length (url_decode s) <= length s)%nat.
Proof. by apply (url_decode_shrinks_aux (length s)). Qed.

(** ** wristr and prefix_match *)

Lemma wristr_loop_take n : forall inp out,
  c_str (take n (wristr_loop n inp out)) = c_str (take n inp).
Proof.
  induction n as [|n IH]; intros inp out; [done|]. cbn [wristr_loop].
  destruct inp as [|x inp]; [done|]. destruct (Z.eqb_spec x 0) as [->|E]; [done|].
  simpl. destruct (Z.eqb_spec x 0); [done|]. rewrite drop_0, IH. done.
Qed.

Lemma wristr_loop_drop n : forall inp out,
  (n <= length out)%nat ->
  length (wristr_loop n inp out) = length out /\ drop n (wristr_loop n inp out) = drop n out.
Proof.
  induction n as [|n IH]; intros inp out Hl; [done|].
  destruct out as [|o out]; [simpl in Hl; lia|]. cbn [wristr_loop]. simpl in Hl.
  destruct (_ =? 0); [done|]. cbn [drop length]. rewrite drop_0.
  destruct (IH (drop 1 inp) out) as [-> ->]; [lia|]. done.
Qed.

(** [wristr] copies a string into a 16-byte field: the field then holds the
    string cut at 16 bytes, and no byte past the field is written. *)
Lemma wristr_spec inp out :
  (16 <= length out)%nat ->
  c_str (take 16 (wristr inp out)) = c_str (take 16 inp) /\
  length (wristr inp out) = length out /\ drop 16 (wristr inp out) = drop 16 out.
Proof.
  intros Hl. split; [apply wristr_loop_take|]. by apply (wristr_loop_drop 16).
Qed.

(** [prefix_match] decides whether the first string is a prefix of the
    second, both cut at their NUL. *)
Lemma prefix_match_spec s1 s2 :
  prefix_match s1 s2 = true <-> exists rest, c_str s2 = c_str s1 ++ rest.
Proof.
  revert s2. induction s1 as [|x s1 IH]; intros s2; simpl.
  { split; [by exists (c_str s2)|done]. }
  destruct (Z.eqb_spec x 0) as [->|Hx].
  { split; [by exists (c_str s2)|done]. }
  destruct s2 as [|y s2]; simpl.
  { split; [done|by intros [? ?]]. }
  destruct (Z.eqb_spec x y) as [<-|Hxy].
  - rewrite IH. destruct (Z.eqb_spec x 0); [done|].
    split; intros [rest E]; exists rest; simpl in *; congruence.
  - split; [done|]. intros [rest E]. destruct (y =? 0); simplify_eq.
Qed.

(** ** Random numbers *)

(** [randnum] is never 0, so a packet's [unique] never takes the value the
    replay check of [YsDB] lets through unrecorded; it stays an [int]. *)
Lemma randnum_nonzero (rand_of : Z -> Z) st :
  (forall seed, 0 <= rand_of seed <= 2 ^ 31 - 1) ->
  1 <= fst (randnum rand_of st) <= 2 ^ 31 - 1.
Proof.
  intros H. unfold randnum. simpl. specialize (H (s32 (st + 1))).
  destruct (Z.eqb_spec (rand_of (s32 (st + 1))) 0); lia.
Qed.

(** [randstr] indexes [arr] with a remainder of [sizeof(arr)], which counts
    the final NUL: a draw of remainder 61 ends the password early, so the 16
    characters the server asks for are not all there. *)
Lemma randstr_may_be_short :
  exists rand_of st, (forall seed, 0 <= rand_of seed <= 2 ^ 31 - 1) /\
    length (fst (randstr rand_of st)) = 17%nat /\
    length (c_str (fst (randstr rand_of st))) = 3%nat.
Proof.
  exists (fun seed => if seed =? 4 then 61 else 5), 0. split.
  - intros. destruct (seed =? 4); lia.
  - by vm_compute.
Qed.

(** ** Witnesses *)

Lemma int2str_roundtrip_witness : str2int (int2str (-19)) = Some (-19).
Proof. apply int2str_roundtrip. lia. Defined.

Lemma url_roundtrip_witness :
  url_decode (url_encode [47; 32; 200; 97]) = [47; 32; 200; 97] /\
  url_decode_ret (url_encode [47; 32; 200; 97]) = 4 /\
  Forall (fun c => url_safe c = true) (url_encode [47; 32; 200; 97]) /\
  (length (url_encode [47; 32; 200; 97]%Z) + 1 <= 13)%nat.
Proof. apply (url_roundtrip [47; 32; 200; 97]). repeat constructor; unfold byte_ok; lia. Defined.

Lemma wristr_spec_witness :
  c_str (take 16 (wristr [97; 98; 0; 99] (replicate 17 7))) = [97; 98] /\
  (length (wristr [97; 98; 0; 99]%Z (replicate 17 7%Z)) = 17)%nat /\
  drop 16 (wristr [97; 98; 0; 99] (replicate 17 7)) = [7].
Proof. apply (wristr_spec [97; 98; 0; 99] (replicate 17 7)). simpl. lia. Defined.

Lemma randnum_nonzero_witness : 1 <= fst (randnum (fun _ => 0) 5) <= 2 ^ 31 - 1.
Proof. apply randnum_nonzero. intros. lia. Defined.
