(* ===== verification/Text.v ===== *)
(** * Text: what the C library's [sprintf] writes for ["%d"], and string literals *)

From Stdlib Require String Ascii.
Export String.StringSyntax.
Import Ascii.
From S2P Require Import Prelude Hash.

(** The bytes of a string literal, without its NUL. *)
Definition lit (s : String.string) : list Z :=
  map (fun a => Z.of_N (N_of_ascii a)) (String.list_ascii_of_string s).

Arguments lit s%_string_scope : simpl never.

(** Decimal digits of a number below [10 ^ fuel]. *)
Fixpoint to_dec (fuel : nat) (n : Z) : list Z :=
  match fuel with
  | O => []
  | S fuel => if n <? 10 then [48 + n] else to_dec fuel (n / 10) ++ [48 + n mod 10]
  end.

(** [sprintf(buf, "%d", v)] for a 32-bit [int]: at most ten digits. *)
Definition sprintf_d (v : Z) : list Z :=
  if v <? 0 then 45 :: to_dec 10 (- v) else to_dec 10 v.

(** The number a run of digits writes. *)
Fixpoint dec_val (s : list Z) (acc : Z) : Z :=
  match s with
  | c :: s => dec_val s (acc * 10 + (c - 48))
  | [] => acc
  end.

Definition is_dec (c : Z) : Prop := 48 <= c <= 57.

Lemma dec_val_app s1 s2 acc : dec_val (s1 ++ s2) acc = dec_val s2 (dec_val s1 acc).
Proof. revert acc. induction s1; intros; simpl; auto. Qed.

Lemma to_dec_digits fuel n : 0 <= n -> Forall is_dec (to_dec fuel n).
Proof.
  revert n. induction fuel as [|fuel IH]; intros n Hn; simpl; [constructor|].
  destruct (Z.ltb_spec n 10).
  - constructor; [unfold is_dec; lia|constructor].
  - apply Forall_app. split; [apply IH, Z.div_pos; lia|].
    pose proof (Z.mod_pos_bound n 10). constructor; [unfold is_dec; lia|constructor].
Qed.

Lemma to_dec_val fuel n : 0 <= n < 10 ^ Z.of_nat fuel -> (0 < fuel)%nat -> dec_val (to_dec fuel n) 0 = n.
Proof.
  revert n. induction fuel as [|fuel IH]; intros n Hn Hf; [lia|]. simpl.
  destruct (Z.ltb_spec n 10); [simpl; lia|].
  rewrite Nat2Z.inj_succ, Z.pow_succ_r in Hn by lia.
  assert (Hq : 0 <= n / 10 < 10 ^ Z.of_nat fuel).
  { split; [apply Z.div_pos; lia|]. apply Z.div_lt_upper_bound; lia. }
  destruct fuel as [|fuel]; [simpl in Hn; lia|].
  rewrite dec_val_app, IH by (done || lia). cbn [dec_val].
  pose proof (Z.div_mod n 10). lia.
Qed.

Lemma to_dec_nonempty fuel n : (0 < fuel)%nat -> to_dec fuel n <> [].
Proof.
  destruct fuel as [|fuel]; [lia|]. intros _. simpl. destruct (n <? 10); [done|].
  by destruct (to_dec fuel (n / 10)).
Qed.

(** The characters of a number: a sign or digits, so no NUL and no colon. *)
Lemma sprintf_d_chars v : Forall (fun c => c = 45 \/ is_dec c) (sprintf_d v).
Proof.
  unfold sprintf_d. destruct (Z.ltb_spec v 0).
  - constructor; [by left|]. eapply Forall_impl; [|apply to_dec_digits; lia]. auto.
  - eapply Forall_impl; [|apply to_dec_digits; lia]. auto.
Qed.

#[local] Opaque to_dec.

Lemma sprintf_d_inj a b :
  - 2 ^ 31 <= a < 2 ^ 31 -> - 2 ^ 31 <= b < 2 ^ 31 -> sprintf_d a = sprintf_d b -> a = b.
Proof.
  intros Ha Hb. change (2 ^ 31) with 2147483648 in *.
  assert (V : forall n, 0 <= n <= 2147483648 -> dec_val (to_dec 10 n) 0 = n).
  { intros. apply to_dec_val; [|lia]. change (10 ^ Z.of_nat 10) with 10000000000. lia. }
  assert (N : forall n m, 0 <= n -> 45 :: to_dec 10 m <> to_dec 10 n).
  { intros n m Hn E. pose proof (to_dec_digits 10 n Hn) as D. rewrite <- E in D.
    apply Forall_cons_iff in D as [D _]. unfold is_dec in D. lia. }
  unfold sprintf_d. destruct (Z.ltb_spec a 0), (Z.ltb_spec b 0); intros E.
  - injection E as E. apply (f_equal (fun l => dec_val l 0)) in E. cbv beta in E. rewrite !V in E by lia. lia.
  - destruct (N b (- a)); [lia|done].
  - destruct (N a (- b)); [lia|done].
  - apply (f_equal (fun l => dec_val l 0)) in E. cbv beta in E. rewrite !V in E by lia. done.
Qed.

(** Two texts without the separator are determined by their joined form. *)
Lemma join_inj (sep : Z) : forall (a b c d : list Z),
  Forall (fun x => x <> sep) a -> Forall (fun x => x <> sep) c ->
  a ++ sep :: b = c ++ sep :: d -> a = c /\ b = d.
Proof.
  induction a as [|x a IH]; intros b [|y c] d Ha Hc E; simpl in E; simplify_eq.
  - done.
  - apply Forall_cons_iff in Hc as [Hc _]. done.
  - apply Forall_cons_iff in Ha as [Ha _]. done.
  - apply Forall_cons_iff in Ha as [_ Ha]. apply Forall_cons_iff in Hc as [_ Hc].
    destruct (IH b c d Ha Hc) as [-> ->]; done.
Qed.
