(* ===== verification/Md5.v ===== *)
(** * Md5: core/cppjieba/limonp/Md5.hpp

    The digest the connection takes of a server's public key ([md5String]).  The
    four working variables are one tuple that is rotated after each step, as the
    arguments of the [FF], [GG], [HH] and [II] macros are. *)

From S2P Require Import Prelude.

Module MD5.

Definition S11 := 7.
Definition S12 := 12.
Definition S13 := 17.
Definition S14 := 22.
Definition S21 := 5.
Definition S22 := 9.
Definition S23 := 14.
Definition S24 := 20.
Definition S31 := 4.
Definition S32 := 11.
Definition S33 := 16.
Definition S34 := 23.
Definition S41 := 6.
Definition S42 := 10.
Definition S43 := 15.
Definition S44 := 21.

Definition compl (x : Z) : Z := u32 (Z.lnot x).

Definition F (x y z : Z) : Z := Z.lor (Z.land x y) (Z.land (compl x) z).
Definition G (x y z : Z) : Z := Z.lor (Z.land x z) (Z.land y (compl z)).
Definition H (x y z : Z) : Z := Z.lxor (Z.lxor x y) z.
Definition I (x y z : Z) : Z := Z.lxor y (Z.lor x (compl z)).

Definition ROTATE_LEFT (x n : Z) : Z := Z.lor (u32 (Z.shiftl x n)) (Z.shiftr x (32 - n)).

Definition vars : Type := Z * Z * Z * Z.

(** One of the macros [FF], [GG], [HH], [II], by its function; the new value
    becomes the second argument of the next one. *)
Definition step (f : Z -> Z -> Z -> Z) (v : vars) (x s ac : Z) : vars :=
  let '(a, b, c, d) := v in
  let a := u32 (a + u32 (u32 (f b c d + x) + ac)) in
  let a := ROTATE_LEFT a s in
  let a := u32 (a + b) in
  (d, a, b, c).

Definition FF := step F.
Definition GG := step G.
Definition HH := step H.
Definition II := step I.

Definition round1 : list (nat * Z * Z) := [
  (0%nat, S11, 0xd76aa478); (1%nat, S12, 0xe8c7b756); (2%nat, S13, 0x242070db); (3%nat, S14, 0xc1bdceee);
  (4%nat, S11, 0xf57c0faf); (5%nat, S12, 0x4787c62a); (6%nat, S13, 0xa8304613); (7%nat, S14, 0xfd469501);
  (8%nat, S11, 0x698098d8); (9%nat, S12, 0x8b44f7af); (10%nat, S13, 0xffff5bb1); (11%nat, S14, 0x895cd7be);
  (12%nat, S11, 0x6b901122); (13%nat, S12, 0xfd987193); (14%nat, S13, 0xa679438e); (15%nat, S14, 0x49b40821)].
Definition round2 : list (nat * Z * Z) := [
  (1%nat, S21, 0xf61e2562); (6%nat, S22, 0xc040b340); (11%nat, S23, 0x265e5a51); (0%nat, S24, 0xe9b6c7aa);
  (5%nat, S21, 0xd62f105d); (10%nat, S22, 0x2441453); (15%nat, S23, 0xd8a1e681); (4%nat, S24, 0xe7d3fbc8);
  (9%nat, S21, 0x21e1cde6); (14%nat, S22, 0xc33707d6); (3%nat, S23, 0xf4d50d87); (8%nat, S24, 0x455a14ed);
  (13%nat, S21, 0xa9e3e905); (2%nat, S22, 0xfcefa3f8); (7%nat, S23, 0x676f02d9); (12%nat, S24, 0x8d2a4c8a)].
Definition round3 : list (nat * Z * Z) := [
  (5%nat, S31, 0xfffa3942); (8%nat, S32, 0x8771f681); (11%nat, S33, 0x6d9d6122); (14%nat, S34, 0xfde5380c);
  (1%nat, S31, 0xa4beea44); (4%nat, S32, 0x4bdecfa9); (7%nat, S33, 0xf6bb4b60); (10%nat, S34, 0xbebfbc70);
  (13%nat, S31, 0x289b7ec6); (0%nat, S32, 0xeaa127fa); (3%nat, S33, 0xd4ef3085); (6%nat, S34, 0x4881d05);
  (9%nat, S31, 0xd9d4d039); (12%nat, S32, 0xe6db99e5); (15%nat, S33, 0x1fa27cf8); (2%nat, S34, 0xc4ac5665)].
Definition round4 : list (nat * Z * Z) := [
  (0%nat, S41, 0xf4292244); (7%nat, S42, 0x432aff97); (14%nat, S43, 0xab9423a7); (5%nat, S44, 0xfc93a039);
  (12%nat, S41, 0x655b59c3); (3%nat, S42, 0x8f0ccc92); (10%nat, S43, 0xffeff47d); (1%nat, S44, 0x85845dd1);
  (8%nat, S41, 0x6fa87e4f); (15%nat, S42, 0xfe2ce6e0); (6%nat, S43, 0xa3014314); (13%nat, S44, 0x4e0811a1);
  (4%nat, S41, 0xf7537e82); (11%nat, S42, 0xbd3af235); (2%nat, S43, 0x2ad7d2bb); (9%nat, S44, 0xeb86d391)].

Definition run_round (op : vars -> Z -> Z -> Z -> vars) (x : list Z) (ops : list (nat * Z * Z))
    (v : vars) : vars :=
  fold_left (fun v '(k, s, ac) => op v (getn x k) s ac) ops v.

(** [Decode] and [Encode] on whole words. *)
Definition Decode (len : nat) (input : list Z) : list Z :=
  map (fun i => Z.lor (Z.lor (Z.lor (getn input (4 * i)) (Z.shiftl (getn input (4 * i + 1)) 8))
                        (Z.shiftl (getn input (4 * i + 2)) 16)) (Z.shiftl (getn input (4 * i + 3)) 24))
    (seq 0 (len / 4)).

Definition Encode (len : nat) (input : list Z) : list Z :=
  concat (map (fun i =>
    [Z.land (getn input i) 0xff; Z.land (Z.shiftr (getn input i) 8) 0xff;
     Z.land (Z.shiftr (getn input i) 16) 0xff; Z.land (Z.shiftr (getn input i) 24) 0xff])
    (seq 0 (len / 4))).

Definition MD5Transform (state block : list Z) : list Z :=
  let x := Decode 64 block in
  let v := (getn state 0, getn state 1, getn state 2, getn state 3) in
  let '(a, b, c, d) :=
    run_round II x round4 (run_round HH x round3 (run_round GG x round2 (run_round FF x round1 v))) in
  [u32 (getn state 0 + a); u32 (getn state 1 + b); u32 (getn state 2 + c); u32 (getn state 3 + d)].

(** [__context_t] *)
Record context := mk_context { state : list Z; count0 : Z; count1 : Z; buffer : list Z }.

Definition init_state : list Z := [0x67452301; 0xefcdab89; 0x98badcfe; 0x10325476].

Definition Init (c : context) : context := mk_context init_state 0 0 (buffer c).

(** [memcpy(&buffer[index], from, |from|)] *)
Definition buffer_at (buffer : list Z) (index : nat) (from : list Z) : list Z :=
  take index buffer ++ from ++ drop (index + length from) buffer.

(** [for (i = partLen; i + 63 < inputLen; i += 64) MD5Transform(state, &input[i]);]
    on what is left of [input]; the second component is [&input[i]] at the end. *)
Definition whole_blocks (state input : list Z) : list Z * list Z :=
  for_ 0 (length input / 64) (fun _ '(state, input) =>
    (MD5Transform state (take 64 input), drop 64 input)) (state, input).

Definition Update (c : context) (input : list Z) : context :=
  let inputLen := u32 (Z.of_nat (length input)) in
  let index := Z.to_nat (Z.land (Z.shiftr (count0 c) 3) 0x3f) in
  let bits := u32 (Z.shiftl inputLen 3) in
  let count0' := u32 (count0 c + bits) in
  let count1' := if count0' <? bits then u32 (count1 c + 1) else count1 c in
  let count1' := u32 (count1' + Z.shiftr inputLen 29) in
  let partLen := (64 - index)%nat in
  if (partLen <=? length input)%nat then
    let buffer' := buffer_at (buffer c) index (take partLen input) in
    let state' := MD5Transform (state c) buffer' in
    let '(state', rest) := whole_blocks state' (drop partLen input) in
    mk_context state' count0' count1' (buffer_at buffer' 0 rest)
  else
    mk_context (state c) count0' count1' (buffer_at (buffer c) index input).

Definition PADDING : list Z := 0x80 :: replicate 63 0.

(** The digest of [Final]; the context is zeroized after it. *)
Definition Final (c : context) : list Z :=
  let bits := Encode 8 [count0 c; count1 c] in
  let index := Z.to_nat (Z.land (Z.shiftr (count0 c) 3) 0x3f) in
  let padLen := if (index <? 56)%nat then (56 - index)%nat else (120 - index)%nat in
  let c := Update c (take padLen PADDING) in
  let c := Update c bits in
  Encode 16 (state c).

(** [sprintf("%02x")] of each byte. *)
Definition hex_char (d : Z) : Z := if d <? 10 then 48 + d else 87 + d.
Definition writeToString (digestRaw : list Z) : list Z :=
  concat (map (fun b => [hex_char (Z.shiftr b 4); hex_char (Z.land b 15)]) digestRaw).

(** [buf] is what the context's buffer holds before [Init], which leaves it. *)
Definition MD5_new (buf : list Z) : context := Init (mk_context [] 0 0 buf).

Definition digestMemory (buf : list Z) (memchunk : option (list Z)) : option (list Z) :=
  match memchunk with
  | None => None
  | Some memchunk => Some (writeToString (Final (Update (Init (MD5_new buf)) memchunk)))
  end.

(** [while ((len = fread(...))) Update(buffer, len)], [fread] handing the file
    over in [pieces]. *)
Definition update_all (c : context) (pieces : list (list Z)) : context := fold_left Update pieces c.

(** [fopen filename] is the contents of the file, as [fread] will deliver them. *)
Definition digestFile (buf : list Z) (fopen : list Z -> option (list (list Z)))
    (filename : option (list Z)) : option (list Z) :=
  match filename with
  | None => None
  | Some filename =>
      if bool_decide (filename = []) then None else
      let c := Init (MD5_new buf) in
      match fopen filename with
      | None => None
      | Some pieces => Some (writeToString (Final (update_all c pieces)))
      end
  end.

(** [string] is the characters before its NUL. *)
Definition digestString (buf : list Z) (string : option (list Z)) : option (list Z) :=
  match string with
  | None => None
  | Some string => Some (writeToString (Final (Update (Init (MD5_new buf)) string)))
  end.

(** The answer and [res]. *)
Definition md5String (buf : list Z) (str : option (list Z)) : bool * list Z :=
  match str with
  | None => (false, [])
  | Some _ =>
      match digestString buf str with
      | None => (false, [])
      | Some res => (true, res)
      end
  end.

Definition md5File (buf : list Z) (fopen : list Z -> option (list (list Z)))
    (filepath : option (list Z)) : bool * list Z :=
  match filepath with
  | None | Some [] => (false, [])
  | Some _ =>
      match digestFile buf fopen filepath with
      | None => (false, [])
      | Some res => (true, res)
      end
  end.

(** ** The reference: pad the message, then transform block after block *)

(** The transforms of the first [n] blocks of [l]. *)
Fixpoint absorb (n : nat) (st l : list Z) : list Z :=
  match n with
  | O => st
  | S n => absorb n (MD5Transform st (take 64 l)) (drop 64 l)
  end.

Definition le64 (v : Z) : list Z := map (fun i => v / 2 ^ (8 * Z.of_nat i) mod 256) (seq 0 8).

Definition md5_pad (msg : list Z) : list Z :=
  msg ++ 0x80 :: replicate ((119 - length msg mod 64) mod 64) 0 ++ le64 (8 * Z.of_nat (length msg)).

Definition md5_ref (msg : list Z) : list Z :=
  Encode 16 (absorb (length (md5_pad msg) / 64) init_state (md5_pad msg)).

Lemma absorb_app n : forall m st a b, length a = (64 * n)%nat ->
  absorb (n + m) st (a ++ b) = absorb m (absorb n st a) b.
Proof.
  induction n as [|n IH]; intros m st a b Ha; [by destruct a|]. cbn [absorb Nat.add].
  rewrite take_app_le, drop_app_le by lia. apply IH. rewrite length_drop. lia.
Qed.

Lemma absorb_prefix n st a b : length a = (64 * n)%nat -> absorb n st (a ++ b) = absorb n st a.
Proof. intros Ha. rewrite <- (Nat.add_0_r n) at 1. by rewrite absorb_app. Qed.

Lemma absorb_last n : forall st l,
  absorb (S n) st l = MD5Transform (absorb n st l) (take 64 (drop (64 * n) l)).
Proof.
  induction n as [|n IH]; intros st l; [done|]. cbn [absorb] in *. rewrite IH, drop_drop.
  by replace (64 + 64 * n)%nat with (64 * S n)%nat by lia.
Qed.

Lemma whole_blocks_spec st l :
  whole_blocks st l = (absorb (length l / 64) st l, drop (64 * (length l / 64)) l).
Proof.
  unfold whole_blocks. generalize (length l / 64)%nat. intros n. induction n as [|n IH]; [done|].
  rewrite for_last, IH, absorb_last, drop_drop. by replace (64 * n + 64)%nat with (64 * S n)%nat by lia.
Qed.

(** The context after [msg]: whole blocks transformed, the rest buffered, the
    length counted in bits modulo 2^64. *)
Definition holds (c : context) (msg : list Z) : Prop :=
  let q := (length msg / 64)%nat in
  state c = absorb q init_state msg /\ length (buffer c) = 64%nat /\
  take (length msg mod 64) (buffer c) = drop (64 * q) msg /\
  count0 c = u32 (8 * Z.of_nat (length msg)) /\
  count1 c = u32 (8 * Z.of_nat (length msg) / 2 ^ 32).

Lemma holds_init buf : length buf = 64%nat -> holds (Init (MD5_new buf)) [].
Proof. intros Hb. unfold holds. cbn. auto. Qed.

Lemma count_index n : Z.to_nat (Z.land (Z.shiftr (u32 (8 * Z.of_nat n)) 3) 0x3f) = (n mod 64)%nat.
Proof.
  rewrite Z.shiftr_div_pow2 by lia. change 0x3f with (2 ^ 6 - 1). rewrite land_ones_mod by lia.
  unfold u32. change (2 ^ 32) with 4294967296. change (2 ^ 3) with 8. change (2 ^ 6) with 64.
  rewrite <- (Nat2Z.id (n mod 64)), Nat2Z.inj_mod. f_equal. change (Z.of_nat 64) with 64.
  Z.div_mod_to_equations. lia.
Qed.

Lemma count_add (n l : Z) : 0 <= n -> 0 <= l < 2 ^ 32 ->
  let bits := u32 (Z.shiftl l 3) in
  let c0 := u32 (u32 (8 * n) + bits) in
  c0 = u32 (8 * (n + l)) /\
  u32 ((if c0 <? bits then u32 (u32 (8 * n / 2 ^ 32) + 1) else u32 (8 * n / 2 ^ 32)) + Z.shiftr l 29)
    = u32 (8 * (n + l) / 2 ^ 32).
Proof.
  intros Hn Hl. rewrite Z.shiftl_mul_pow2, Z.shiftr_div_pow2 by lia. unfold u32. cbv zeta.
  change (2 ^ 32) with 4294967296 in *. change (2 ^ 3) with 8. change (2 ^ 29) with 536870912.
  split; [Z.div_mod_to_equations; lia|].
  destruct (Z.ltb_spec ((8 * n mod 4294967296 + l * 8 mod 4294967296) mod 4294967296)
    (l * 8 mod 4294967296)); Z.div_mod_to_equations; lia.
Qed.

Lemma Update_holds c msg x :
  holds c msg -> Z.of_nat (length x) < 2 ^ 32 -> holds (Update c x) (msg ++ x).
Proof.
  intros (Hs & Hb & Ht & H0 & H1) Hx. pose proof (Nat.div_mod_eq (length msg) 64) as Eq.
  pose proof (Nat.mod_upper_bound (length msg) 64) as Hr.
  set (q := (length msg / 64)%nat) in *. set (r := (length msg mod 64)%nat) in *.
  destruct (count_add (Z.of_nat (length msg)) (Z.of_nat (length x))) as [C0 C1]; [lia|lia|].
  unfold Update. rewrite (u32_id (Z.of_nat (length x))) by lia. rewrite H0, H1, count_index. fold r.
  rewrite C0 in C1 |- *. rewrite C1. clear C0 C1.
  assert (Em : msg = take (64 * q) msg ++ take r (buffer c)) by by rewrite Ht, take_drop.
  assert (Lq : length (take (64 * q) msg) = (64 * q)%nat) by (rewrite length_take; lia).
  assert (El : 8 * (Z.of_nat (length msg) + Z.of_nat (length x)) = 8 * Z.of_nat (length (msg ++ x)))
    by (rewrite length_app; lia).
  rewrite El. clear El.
  destruct (Nat.leb_spec (64 - r) (length x)) as [L|G].
  - rewrite whole_blocks_spec. set (p := (64 - r)%nat) in *.
    assert (Eb : buffer_at (buffer c) r (take p x) = take r (buffer c) ++ take p x).
    { unfold buffer_at. rewrite (drop_ge (buffer c)) by (rewrite length_take; lia). by rewrite app_nil_r. }
    rewrite Eb. set (rest := drop p x). set (m := (length rest / 64)%nat).
    pose proof (Nat.div_mod_eq (length rest) 64) as Em'. pose proof (Nat.mod_upper_bound (length rest) 64).
    fold m in Em'. assert (Lr : length rest = (length x - p)%nat) by apply length_drop.
    assert (Lb : length (take r (buffer c) ++ take p x) = 64%nat)
      by (rewrite length_app, !length_take; lia).
    assert (Ex : msg ++ x = (take (64 * q) msg ++ take r (buffer c) ++ take p x) ++ rest).
    { rewrite Em at 1. unfold rest. by rewrite <- !app_assoc, take_drop. }
    assert (Lx : length (msg ++ x) = (64 * (q + 1) + length rest)%nat).
    { rewrite Ex, !length_app. rewrite length_app in Lb. lia. }
    assert (Dq : (length (msg ++ x) / 64 = q + 1 + m)%nat).
    { rewrite Lx. symmetry. apply (Nat.div_unique _ 64 _ (length rest mod 64)); lia. }
    assert (Dr : (length (msg ++ x) mod 64 = length rest mod 64)%nat).
    { rewrite Lx. symmetry. apply (Nat.mod_unique _ 64 (q + 1 + m)); lia. }
    assert (Lp : length (take (64 * q) msg ++ take r (buffer c) ++ take p x) = (64 * (q + 1))%nat)
      by (rewrite length_app; lia).
    unfold holds. cbn [state buffer count0 count1]. rewrite Dq, Dr. repeat (split; [|try done]).
    + rewrite Ex, absorb_app by done. f_equal. rewrite absorb_app by done. cbn [absorb].
      rewrite (take_ge (take r (buffer c) ++ take p x)) by lia. f_equal. rewrite Hs.
      rewrite Em at 1. by apply absorb_prefix.
    + unfold buffer_at. rewrite take_0. cbn [app]. rewrite length_app, !length_drop, Lb. lia.
    + unfold buffer_at. rewrite take_0. cbn [app].
      replace (length rest mod 64)%nat with (length (drop (64 * m) rest)) by (rewrite length_drop; lia).
      rewrite take_app_length. rewrite Ex. replace (64 * (q + 1 + m))%nat with (64 * (q + 1) + 64 * m)%nat by lia.
      rewrite <- drop_drop, <- Lp at 1. by rewrite drop_app_length.
  - assert (Lx : length (msg ++ x) = (64 * q + (r + length x))%nat) by (rewrite length_app; lia).
    assert (Dq : (length (msg ++ x) / 64 = q)%nat).
    { rewrite Lx. symmetry. apply (Nat.div_unique _ 64 _ (r + length x)); lia. }
    assert (Dr : (length (msg ++ x) mod 64 = r + length x)%nat).
    { rewrite Lx. symmetry. apply (Nat.mod_unique _ 64 q); lia. }
    unfold holds. cbn [state buffer count0 count1]. rewrite Dq, Dr. repeat (split; [|try done]).
    + rewrite Hs. rewrite Em, <- app_assoc, !absorb_prefix by done. done.
    + unfold buffer_at. rewrite !length_app, length_take, length_drop. lia.
    + unfold buffer_at. rewrite app_assoc, take_app_le by (rewrite length_app, length_take; lia).
      rewrite take_ge by (rewrite length_app, length_take; lia). rewrite Ht.
      by rewrite drop_app_le by lia.
Qed.

Lemma Encode_le64 n : 0 <= n -> Encode 8 [u32 n; u32 (n / 2 ^ 32)] = le64 n.
Proof.
  intros Hn. unfold Encode, le64. cbn -[Z.land Z.shiftr u32 Z.div Z.modulo Z.pow Z.mul].
  unfold getn. cbn [nth]. change 0xff with (2 ^ 8 - 1). rewrite !land_ones_mod by lia.
  rewrite !Z.shiftr_div_pow2 by lia. unfold u32.
  change (Z.of_nat 0) with 0; change (Z.of_nat 1) with 1; change (Z.of_nat 2) with 2;
    change (Z.of_nat 3) with 3; change (Z.of_nat 4) with 4; change (Z.of_nat 5) with 5;
    change (Z.of_nat 6) with 6; change (Z.of_nat 7) with 7.
  repeat match goal with |- context [2 ^ ?e] => let v := eval vm_compute in (2 ^ e) in change (2 ^ e) with v end.
  repeat (apply (f_equal2 (@cons Z)); [Z.div_mod_to_equations; lia|]). done.
Qed.

Lemma padding_take n : (1 <= n <= 64)%nat -> take n PADDING = 0x80 :: replicate (n - 1) 0.
Proof.
  intros Hn. unfold PADDING. destruct n as [|n]; [lia|]. cbn [take]. f_equal.
  rewrite take_replicate. f_equal. lia.
Qed.

Lemma Final_ref c msg : holds c msg -> Final c = md5_ref msg.
Proof.
  intros Hc. pose proof Hc as (_ & _ & _ & H0 & H1). unfold Final.
  rewrite H0, H1, count_index, Encode_le64 by lia.
  pose proof (Nat.mod_upper_bound (length msg) 64 ltac:(lia)) as Hr. set (r := (length msg mod 64)%nat) in *.
  set (padLen := if (r <? 56)%nat then (56 - r)%nat else (120 - r)%nat).
  assert (Hp : (1 <= padLen <= 64)%nat /\ (padLen - 1 = (119 - r) mod 64)%nat).
  { unfold padLen. destruct (Nat.ltb_spec r 56); split; try lia.
    - apply (Nat.mod_unique _ 64 1); lia.
    - apply (Nat.mod_unique _ 64 0); lia. }
  destruct Hp as [Hp Ep]. rewrite padding_take, Ep by done.
  set (pad := 0x80 :: replicate _ 0).
  assert (Lp : (length pad <= 64)%nat).
  { unfold pad. cbn [length]. rewrite length_replicate. pose proof (Nat.mod_upper_bound (119 - r) 64). lia. }
  apply (Update_holds c msg pad) in Hc; [|lia].
  apply (Update_holds _ _ (le64 (8 * Z.of_nat (length msg)))) in Hc; [|cbn; lia].
  destruct Hc as (Hs & _). unfold md5_ref. rewrite Hs.
  assert (E : md5_pad msg = (msg ++ pad) ++ le64 (8 * Z.of_nat (length msg))) by by rewrite <- app_assoc.
  by rewrite E.
Qed.

Lemma updates_hold pieces : forall c msg, holds c msg ->
  Forall (fun p => Z.of_nat (length p) < 2 ^ 32) pieces ->
  holds (fold_left Update pieces c) (msg ++ concat pieces).
Proof.
  induction pieces as [|p pieces IH]; intros c msg Hc Hp; cbn [fold_left concat]; [by rewrite app_nil_r|].
  apply Forall_cons_iff in Hp as [Hp1 Hp]. rewrite app_assoc. apply IH; [by apply Update_holds|done].
Qed.

(** C19. The digest is MD5: whatever the sizes of the pieces [fread] delivers a
    file in and whatever the buffer held before, md5File computes the transform of
    the padded contents block after block, with the length in bits modulo 2^64 at
    the end, and md5String the same of the string; both say false only where
    there is no file name, no file or no string. *)
Theorem md5_reference (buf : list Z) (fopen : list Z -> option (list (list Z)))
    (Hb : length buf = 64%nat)
    (Hp : forall f pieces, fopen f = Some pieces ->
            Forall (fun p => Z.of_nat (length p) < 2 ^ 32) pieces) :
  (forall path, md5File buf fopen (Some path) =
     match path with
     | [] => (false, [])
     | _ => match fopen path with
            | Some pieces => (true, writeToString (md5_ref (concat pieces)))
            | None => (false, [])
            end
     end) /\
  (forall msg, Z.of_nat (length msg) < 2 ^ 32 ->
     md5String buf (Some msg) = (true, writeToString (md5_ref msg))) /\
  md5File buf fopen None = (false, []) /\ md5String buf None = (false, []).
Proof.
  repeat split; intros.
  - destruct path as [|c path]; [done|]. unfold md5File, digestFile.
    destruct (fopen (c :: path)) as [pieces|] eqn:E; [|done]. do 2 f_equal. apply Final_ref.
    apply (updates_hold pieces _ []); [by apply holds_init|by apply (Hp (c :: path))].
  - unfold md5String, digestString. do 2 f_equal. apply Final_ref.
    apply (Update_holds _ []); [by apply holds_init|done].
Qed.

Lemma md5_reference_witness :
  md5File (replicate 64 7) (fun _ => Some [[97]; []; [98; 99]]) (Some [120]) =
  md5String (replicate 64 0) (Some [97; 98; 99]).
Proof.
  assert (S : forall f pieces, (fun _ : list Z => Some [[97]; []; [98; 99]]) f = Some pieces ->
    Forall (fun p : list Z => Z.of_nat (length p) < 2 ^ 32) pieces)
    by (intros f pieces [= <-]; repeat constructor; cbn; lia).
  rewrite (proj1 (md5_reference (replicate 64 7) _ eq_refl S) [120]).
  vm_compute. reflexivity.
Defined.

(** The test suite of RFC 1321. *)
Example md5_vectors :
  md5String (replicate 64 0) (Some []) = (true, [100;52;49;100;56;99;100;57;56;102;48;48;98;50;48;52;101;57;56;48;48;57;57;56;101;99;102;56;52;50;55;101]) /\
  md5String (replicate 64 0) (Some [97; 98; 99]) = (true, [57;48;48;49;53;48;57;56;51;99;100;50;52;102;98;48;100;54;57;54;51;102;55;100;50;56;101;49;55;102;55;50]).
Proof. split; vm_compute; reflexivity. Qed.
End MD5.
