(* ===== verification/Packet.v ===== *)
(** * Packet: the wire structures of core/classes.hpp

    A packet is the byte image of its C structure: the code casts the received
    buffer to [netHeader], [netQuery] or [netSource] and reads fields at their
    offsets.  The offsets are computed from the member types by the C layout
    rule (each member at the next multiple of its alignment). *)

From S2P Require Import Prelude NInt.

(** ** Layout *)

Definition align_up (off a : nat) : nat := ((off + a - 1) / a * a)%nat.

(** Offsets of members given as (size, alignment), and the offset after the last. *)
Fixpoint offsets (off : nat) (ms : list (nat * nat)) : list nat * nat :=
  match ms with
  | [] => ([], off)
  | (size, a) :: ms =>
      let o := align_up off a in
      let '(os, e) := offsets (o + size) ms in (o :: os, e)
  end.

Definition member_offset (ms : list (nat * nat)) (i : nat) : nat := nth i (fst (offsets 0 ms)) 0%nat.
Definition sizeof_struct (ms : list (nat * nat)) (a : nat) : nat := align_up (snd (offsets 0 ms)) a.

Definition c_char : nat * nat := (1, 1)%nat.
Definition c_int32 : nat * nat := (4, 4)%nat.
Definition c_chars (n : nat) : nat * nat := (n, 1%nat).

Definition SOURCE_CHUNK_SIZE : nat := 4096.

(** [struct netHeader]: crypt, userid, unique, len, hash, password, mode,
    globalMode, function *)
Definition netHeader : list (nat * nat) :=
  [c_char; c_int32; c_int32; c_int32; c_int32; c_chars 16; c_char; c_char; c_chars 16].
Definition sizeof_netHeader : nat := sizeof_struct netHeader 4.

(** [struct netQuery]: header, str1, str2, addr, num1, num2, num3, num4, endchunk *)
Definition netQuery : list (nat * nat) :=
  [(sizeof_netHeader, 4%nat); c_chars 16; c_chars 16; c_int32; c_int32; c_int32; c_int32; c_int32; c_chars 16].
Definition sizeof_netQuery : nat := sizeof_struct netQuery 4.

(** [struct netSource]: header, size, title, source, endchunk *)
Definition netSource : list (nat * nat) :=
  [(sizeof_netHeader, 4%nat); c_int32; c_chars 16; c_chars SOURCE_CHUNK_SIZE; c_chars 16].
Definition sizeof_netSource : nat := sizeof_struct netSource 4.

Definition o_crypt : nat := member_offset netHeader 0.
Definition o_userid : nat := member_offset netHeader 1.
Definition o_unique : nat := member_offset netHeader 2.
Definition o_len : nat := member_offset netHeader 3.
Definition o_hash : nat := member_offset netHeader 4.
Definition o_password : nat := member_offset netHeader 5.
Definition o_mode : nat := member_offset netHeader 6.
Definition o_globalMode : nat := member_offset netHeader 7.
Definition o_function : nat := member_offset netHeader 8.

Definition o_str1 : nat := member_offset netQuery 1.
Definition o_str2 : nat := member_offset netQuery 2.
Definition o_addr : nat := member_offset netQuery 3.
Definition o_num1 : nat := member_offset netQuery 4.
Definition o_num2 : nat := member_offset netQuery 5.
Definition o_num3 : nat := member_offset netQuery 6.
Definition o_num4 : nat := member_offset netQuery 7.

Definition o_size : nat := member_offset netSource 1.
Definition o_title : nat := member_offset netSource 2.
Definition o_source : nat := member_offset netSource 3.

(** What the cipher needs to know of a packet type: where [endchunk] starts and
    [sizeof]. *)
Record kind := mk_kind { k_end : nat; k_size : nat }.
Definition query_kind : kind := mk_kind (member_offset netQuery 8) sizeof_netQuery.
Definition source_kind : kind := mk_kind (member_offset netSource 4) sizeof_netSource.

(** ** Memory access *)

Definition load (data : list Z) (off n : nat) : list Z := take n (drop off data).
Definition store (data : list Z) (off : nat) (bs : list Z) : list Z :=
  take off data ++ bs ++ drop (off + length bs) data.

Definition get8 (data : list Z) (off : nat) : Z := getn data off.
Definition set8 (data : list Z) (off : nat) (v : Z) : list Z := store data off [v].
(** A [nint32] member: stored and read through [nint.hpp]. *)
Definition get_n32 (data : list Z) (off : nat) : Z := nint32_val (nint32_at (load data off 4)).
Definition set_n32 (data : list Z) (off : nat) (v : Z) : list Z := store data off (mem32 (nint32_of v)).
(** A plain [int32_t] member, in host order. *)
Definition get_i32 (data : list Z) (off : nat) : Z := s32 (of_le32 (load data off 4)).
Definition set_i32 (data : list Z) (off : nat) (v : Z) : list Z := store data off (le32 v).

(** [bzero(&data, sizeof(data))] *)
Definition bzero (n : nat) : list Z := replicate n 0.

(** ** Message codes (classes.hpp) *)

Definition _SUCCEED : Z := 0x30.
Definition _FAIL : Z := 0x31.
Definition _NEWSRC : Z := 0x32.
Definition _GETSRC : Z := 0x33.
Definition _DELSRC : Z := 0x34.
Definition _SETSRC_APPEND : Z := 0x35.
Definition _SETACL : Z := 0x36.
Definition _SETPWD : Z := 0x37.
Definition _LOGIN : Z := 0x38.
Definition _NEWUSER : Z := 0x39.
Definition _PLUS : Z := 0x3A.
Definition _GETSRCNAME : Z := 0x3B.
Definition _DELUSER : Z := 0x3C.
Definition _CONNECTUSER : Z := 0x60.
Definition _P2PCONNECT : Z := 0x61.
Definition _P2PCONNECT_C : Z := 0x62.
Definition _LOGIP : Z := 0x63.
Definition _GOLAST : Z := 0x64.
Definition _SHELL : Z := 0xBB.
Definition _GETSERVERINFO : Z := 0xAA.
Definition _CONNECT : Z := 0xAB.
Definition _UPDATEKEY : Z := 0xAC.
Definition _LIVESRC : Z := 0xAD.
Definition _LIVE : Z := 0xAE.
Definition _REGISTER : Z := 0xAF.
Definition _CERT : Z := 0xB0.
Definition _GET_PUBLIC_KEY : Z := 0xB1.
Definition _LIVE_B : Z := 0xB2.
Definition _LIVE_E : Z := 0xB3.

(** ** location (classes.hpp): an address as one ordered number *)

(** [ip] is the [s_addr] word, [port] a [short]. *)
Record location := mk_location { l_ip : Z; l_port : Z }.

Definition location_default : location := mk_location 0 0.

Definition tolongnum (l : location) : Z :=
  let a := l_ip l in
  let p := l_port l in
  let b1 := s64 (Z.shiftl (Z.land a 0xffffffff) 32) in
  let b2 := Z.land p 0xffffffff in
  s64 (Z.lor b1 b2).

Definition location_eqb (a b : location) : bool := tolongnum a =? tolongnum b.
Definition location_ltb (a b : location) : bool := tolongnum a <? tolongnum b.

(** ** Lemmas *)

Lemma length_load data off n : (off + n <= length data)%nat -> length (load data off n) = n.
Proof. intros. unfold load. rewrite length_take, length_drop. lia. Qed.

Lemma length_store data off bs :
  (off + length bs <= length data)%nat -> length (store data off bs) = length data.
Proof.
  intros. unfold store. rewrite !length_app, length_take, length_drop. lia.
Qed.

(** A slice of [pre ++ b ++ post], read and overwritten. *)
Lemma load_slice pre b post : load (pre ++ b ++ post) (length pre) (length b) = b.
Proof. unfold load. by rewrite drop_app_length, take_app_length. Qed.

Lemma store_slice pre b b' post :
  length b' = length b -> store (pre ++ b ++ post) (length pre) b' = pre ++ b' ++ post.
Proof.
  intros H. unfold store. rewrite take_app_length, H. do 2 f_equal.
  rewrite <- drop_drop, drop_app_length, drop_app_length. done.
Qed.

Lemma store_take data off bs n :
  (n <= off)%nat -> (off <= length data)%nat -> take n (store data off bs) = take n data.
Proof.
  intros. unfold store. rewrite take_app_le by (rewrite length_take; lia).
  rewrite take_take. f_equal. lia.
Qed.

Lemma load_store_same data off bs :
  (off + length bs <= length data)%nat -> load (store data off bs) off (length bs) = bs.
Proof.
  intros. unfold load, store. rewrite drop_app_ge; rewrite length_take; [|lia].
  replace (off - off `min` length data)%nat with 0%nat by lia.
  rewrite drop_0. apply take_app_length.
Qed.

(** Reads of disjoint ranges do not see a store. *)
Lemma load_store_other data off bs o n :
  (off + length bs <= length data)%nat -> (o + n <= off \/ off + length bs <= o)%nat ->
  load (store data off bs) o n = load data o n.
Proof.
  intros Hl H. unfold load, store. destruct H as [H|H].
  - rewrite !take_drop_commute. rewrite take_app_le by (rewrite length_take; lia).
    rewrite take_take. do 2 f_equal. lia.
  - f_equal. rewrite drop_app_ge by (rewrite length_take; lia). rewrite length_take.
    rewrite drop_app_ge by lia. rewrite drop_drop. f_equal. lia.
Qed.

(** A read inside a prefix depends on the prefix only. *)
Lemma load_prefix data1 data2 n o k :
  take n data1 = take n data2 -> (o + k <= n)%nat -> load data1 o k = load data2 o k.
Proof.
  intros H Hk. unfold load. rewrite !take_drop_commute. f_equal.
  assert (E : forall d : list Z, take (o + k) (take n d) = take (o + k) d).
  { intros d. rewrite take_take. f_equal. lia. }
  rewrite <- (E data1), <- (E data2). by rewrite H.
Qed.

Lemma get_set_n32 data off v :
  - 2 ^ 31 <= v < 2 ^ 31 -> (off + 4 <= length data)%nat -> get_n32 (set_n32 data off v) off = v.
Proof.
  intros Hv Hl. unfold get_n32, set_n32.
  pose proof (load_store_same data off (mem32 (nint32_of v))) as E. cbn [length mem32 le32] in E.
  change (length (mem32 (nint32_of v))) with 4%nat in E. rewrite E by done.
  rewrite nint32_at_mem by apply s32_range. by rewrite nint32_val_of, s32_id.
Qed.

(** The layout the C compiler gives these structures on the targets. *)
Lemma layout_values :
  sizeof_netHeader = 56%nat /\ sizeof_netQuery = 124%nat /\ sizeof_netSource = 4188%nat /\
  [o_crypt; o_userid; o_unique; o_len; o_hash; o_password; o_mode; o_globalMode; o_function]
  = [0; 4; 8; 12; 16; 20; 36; 37; 38]%nat /\
  k_end query_kind = 108%nat /\ k_end source_kind = 4172%nat.
Proof. by vm_compute. Qed.
