(* ===== verification/Crypt.v ===== *)
(** * Crypt: core/crypt.hpp, packet encryption

    [crypt_encode] and [crypt_decode] are templates over the packet type; here
    the type is a [kind] (where [endchunk] starts, [sizeof]) and the packet the
    list of its bytes.  The static variables of aes.c are threaded through. *)

From S2P Require Import Prelude Aes NInt Base64 Hash Packet.

(** ** aesblock *)

(** [tobase64] writes the text and its NUL. *)
Definition aesblock_tobase64 (data : list Z) : list Z := encode data ++ [0].

(** [getbase64]: [buf] is the uninitialised 64-byte local; the return value of
    [decode] is not looked at, so 16 bytes are copied whatever was written. *)
Definition aesblock_getbase64 (data inp buf : list Z) : list Z :=
  if (64 <? length (c_str inp))%nat then data
  else
    let out := decode_written inp decode_init in
    let buf := out ++ drop (length out) buf in
    for_ 0 16 (fun i data => setn data i (getn buf i)) data.

(** ** Encrypting and decrypting in place *)

(** [while(here<end)] with [here] moving 16 bytes a turn: the number of turns. *)
Definition crypt_turns (from to : nat) : nat := ((to - from + 15) / 16)%nat.

Fixpoint crypt_blocks (f : list Z -> aes_st -> list Z * aes_st) (n here : nat)
    (data : list Z) (s : aes_st) : list Z * aes_st :=
  match n with
  | O => (data, s)
  | S n =>
      let '(buf, s) := f (load data here 16) s in
      crypt_blocks f n (here + 16) (store data here buf) s
  end.

(** [aesblock buf;] is overwritten by every call. *)
Definition aes_buf : list Z := replicate 16 0.
Definition encrypt_block (key b : list Z) (s : aes_st) := AES128_ECB_encrypt b key aes_buf s.
Definition decrypt_block (key b : list Z) (s : aes_st) := AES128_ECB_decrypt b key aes_buf s.

Definition c_t : Z := 116.
Definition c_f : Z := 102.

Definition crypt_encode (k : kind) (data key : list Z) (s : aes_st) : list Z * aes_st :=
  if get8 data o_crypt =? c_t then (data, s)
  else
    let data := set8 data o_crypt c_t in
    let len := (k_end k - o_password)%nat in
    let data := set_n32 data o_len (Z.of_nat len) in
    let data := set_n32 data o_hash (s32 (RSHash (load data o_password len))) in
    crypt_blocks (encrypt_block key) (crypt_turns o_unique (k_end k)) o_unique data s.

Definition crypt_decode (k : kind) (data key : list Z) (s : aes_st) : list Z * aes_st :=
  if negb (get8 data o_crypt =? c_t) then (data, s)
  else
    let data := set8 data o_crypt c_f in
    let '(data, s) :=
      crypt_blocks (decrypt_block key) (crypt_turns o_unique (k_end k)) o_unique data s in
    let hash_d := get_n32 data o_hash in
    let len := get_n32 data o_len in
    if (Z.of_nat (k_end k - o_password) <? len) || (len <? 0) then (bzero (k_size k), s)
    else
      let hash := s32 (RSHash (load data o_password (Z.to_nat len))) in
      if negb (hash_d =? hash) then (bzero (k_size k), s) else (data, s).

(** ** The block loop *)

(** [f] applied to each 16-byte block of [n] blocks. *)
Fixpoint map_blocks (F : list Z -> list Z) (n : nat) (bs : list Z) : list Z :=
  match n with
  | O => []
  | S n => F (take 16 bs) ++ map_blocks F n (drop 16 bs)
  end.

(** The expanded key, and the two block functions it gives. *)
Definition schedule (key : list Z) : list Z := concat (rev (key_words key 40)).
Definition Enc (key b : list Z) : list Z := Cipher (schedule key) b.
Definition Dec (key b : list Z) : list Z := InvCipher (schedule key) b.

#[local] Opaque Cipher InvCipher KeyExpansion key_words BlockCopy.

Lemma encrypt_block_spec key b s :
  bytes_ok key -> state_ok b -> aes_ok s ->
  exists s', encrypt_block key b s = (Enc key b, s') /\ aes_ok s'.
Proof.
  intros Hk Hb Hs. exists (snd (encrypt_block key b s)). split.
  - rewrite (surjective_pairing (encrypt_block key b s)) at 1. f_equal.
    exact (ECB_encrypt_block b key aes_buf s Hk Hb eq_refl Hs).
  - unfold encrypt_block, AES128_ECB_encrypt, aes_ok. cbn [snd RoundKey].
    by rewrite KeyExpansion_length.
Qed.

Lemma decrypt_block_spec key b s :
  bytes_ok key -> state_ok b -> aes_ok s ->
  exists s', decrypt_block key b s = (Dec key b, s') /\ aes_ok s'.
Proof.
  intros Hk Hb Hs. exists (snd (decrypt_block key b s)). split.
  - rewrite (surjective_pairing (decrypt_block key b s)) at 1. f_equal.
    exact (ECB_decrypt_block b key aes_buf s Hk Hb eq_refl Hs).
  - unfold decrypt_block, AES128_ECB_decrypt, aes_ok. cbn [snd RoundKey].
    by rewrite KeyExpansion_length.
Qed.

Lemma schedule_bytes key : bytes_ok key -> bytes_ok (schedule key).
Proof. exact (round_keys_bytes key). Qed.

#[local] Opaque schedule.

Lemma Enc_state key b : bytes_ok key -> state_ok b -> state_ok (Enc key b).
Proof. intros Hk. exact (Cipher_state (schedule key) (schedule_bytes key Hk) b). Qed.

Lemma Dec_state key b : bytes_ok key -> state_ok b -> state_ok (Dec key b).
Proof. intros Hk. exact (InvCipher_state (schedule key) (schedule_bytes key Hk) b). Qed.

Lemma Dec_Enc key b : bytes_ok key -> state_ok b -> Dec key (Enc key b) = b.
Proof. intros Hk. exact (InvCipher_Cipher (schedule key) (schedule_bytes key Hk) b). Qed.

#[local] Opaque Enc Dec.

Section Blocks.
(** A block operation [f] computing [F], and well-formed states of aes.c. *)
Context (f : list Z -> aes_st -> list Z * aes_st) (F : list Z -> list Z).
Context (Hf : forall b s, state_ok b -> aes_ok s -> exists s', f b s = (F b, s') /\ aes_ok s').
Context (HF : forall b, state_ok b -> state_ok (F b)).

Lemma map_blocks_ok n : forall bs,
    bytes_ok bs -> length bs = (n * 16)%nat ->
    bytes_ok (map_blocks F n bs) /\ length (map_blocks F n bs) = (n * 16)%nat.
Proof using HF.
    induction n as [|n IH]; intros bs Hb Hl; [split; [constructor|done]|]. cbn [map_blocks].
    assert (H1 : state_ok (take 16 bs)).
    { split; [rewrite length_take; lia|by apply Forall_take]. }
    destruct (HF _ H1) as [L1 B1].
    destruct (IH (drop 16 bs)) as [B2 L2]; [by apply Forall_drop|rewrite length_drop; lia|].
    split; [by apply Forall_app|]. rewrite length_app. lia.
Qed.

Lemma crypt_blocks_slice n : forall pre bs post s,
    bytes_ok bs -> length bs = (n * 16)%nat -> aes_ok s ->
    exists s', crypt_blocks f n (length pre) (pre ++ bs ++ post) s
               = (pre ++ map_blocks F n bs ++ post, s') /\ aes_ok s'.
Proof using Hf HF.
    induction n as [|n IH]; intros pre bs post s Hb Hl Hs.
    - destruct bs; [|discriminate]. simpl. eauto.
    - cbn [crypt_blocks map_blocks].
      assert (H1 : state_ok (take 16 bs)).
      { split; [rewrite length_take; lia|by apply Forall_take]. }
      assert (E : pre ++ bs ++ post = pre ++ take 16 bs ++ (drop 16 bs ++ post)).
      { by rewrite (app_assoc (take 16 bs)), take_drop. }
      rewrite E. destruct (HF _ H1) as [L1 B1]. destruct (Hf (take 16 bs) s H1 Hs) as (s1 & E1 & Hs1).
      pose proof (load_slice pre (take 16 bs) (drop 16 bs ++ post)) as Ld.
      rewrite (proj1 H1) in Ld. rewrite Ld, E1.
      rewrite store_slice by (destruct H1; congruence).
      destruct (IH (pre ++ F (take 16 bs)) (drop 16 bs) post s1) as (s' & E2 & Hs');
        [by apply Forall_drop|rewrite length_drop; lia|done|].
      rewrite length_app, L1, <- !app_assoc in E2. rewrite E2.
      exists s'. by rewrite <- ?app_assoc.
Qed.
End Blocks.

Lemma map_blocks_inverse key n : forall bs,
  bytes_ok key -> bytes_ok bs -> length bs = (n * 16)%nat ->
  map_blocks (Dec key) n (map_blocks (Enc key) n bs) = bs.
Proof.
  induction n as [|n IH]; intros bs Hk Hb Hl; [by destruct bs|]. cbn [map_blocks].
  assert (H1 : state_ok (take 16 bs)).
  { split; [rewrite length_take; lia|by apply Forall_take]. }
  destruct (Enc_state key _ Hk H1) as [L1 _].
  rewrite take_app_length', drop_app_length', Dec_Enc, IH by done || (rewrite ?length_drop; lia)
    || by apply Forall_drop.
  apply take_drop.
Qed.

(** The loop never touches what precedes it, and keeps the length. *)
Lemma crypt_blocks_prefix f n : forall here data s,
  (forall b s, length b = 16%nat -> length (fst (f b s)) = 16%nat) ->
  (here + n * 16 <= length data)%nat ->
  take here (fst (crypt_blocks f n here data s)) = take here data /\
  length (fst (crypt_blocks f n here data s)) = length data.
Proof.
  induction n as [|n IH]; intros here data s Hf Hl; [done|]. cbn [crypt_blocks].
  pose proof (Hf (load data here 16) s) as Hb. rewrite length_load in Hb by lia.
  specialize (Hb eq_refl). destruct (f (load data here 16) s) as [buf s1]. cbn [fst] in Hb.
  assert (Hs : length (store data here buf) = length data) by (apply length_store; lia).
  destruct (IH (here + 16)%nat (store data here buf) s1 Hf) as [E1 E2]; [lia|].
  split; [|congruence].
  rewrite <- (store_take data here buf here) by lia.
  apply (f_equal (take here)) in E1. rewrite !take_take in E1.
  by replace (here `min` (here + 16))%nat with here in E1 by lia.
Qed.

Lemma crypt_blocks_split f n1 n2 here data s :
  crypt_blocks f (n1 + n2) here data s
  = let '(data, s) := crypt_blocks f n1 here data s in
    crypt_blocks f n2 (here + n1 * 16) data s.
Proof.
  revert here data s. induction n1 as [|n1 IH]; intros here data s.
  - simpl. by rewrite Nat.add_0_r.
  - cbn [crypt_blocks Nat.add]. destruct (f (load data here 16) s) as [b s1]. rewrite IH.
    replace (here + 16 + n1 * 16)%nat with (here + S n1 * 16)%nat by lia. done.
Qed.

(** ** The packet as the loop sees it *)

Lemma store_bytes data off bs : bytes_ok data -> bytes_ok bs -> bytes_ok (store data off bs).
Proof.
  intros. apply Forall_app. split; [by apply Forall_take|].
  apply Forall_app. split; [done|by apply Forall_drop].
Qed.

Lemma set_n32_bytes data off v : bytes_ok data -> bytes_ok (set_n32 data off v).
Proof. intros. apply store_bytes; [done|]. apply le32_bytes. Qed.

Lemma length_set_n32 data off v :
  (off + 4 <= length data)%nat -> length (set_n32 data off v) = length data.
Proof. intros. by apply length_store. Qed.

Lemma length_set8 data off v :
  (off + 1 <= length data)%nat -> length (set8 data off v) = length data.
Proof. intros. by apply length_store. Qed.

Lemma get8_load data off : (off + 1 <= length data)%nat -> load data off 1 = [get8 data off].
Proof.
  intros H. unfold load, get8, getn. rewrite <- (Nat.add_0_r off) at 2. rewrite <- nth_skipn.
  assert (length (drop off data) <> 0%nat) by (rewrite length_drop; lia).
  by destruct (drop off data).
Qed.

(** Equality of the fields of two packets that agree on their first [n] bytes. *)
Lemma get_n32_prefix data1 data2 n o :
  take n data1 = take n data2 -> (o + 4 <= n)%nat -> get_n32 data1 o = get_n32 data2 o.
Proof. intros H Ho. unfold get_n32. by rewrite (load_prefix _ _ n o 4 H Ho). Qed.

Lemma get_n32_load data1 data2 o1 o2 :
  load data1 o1 4 = load data2 o2 4 -> get_n32 data1 o1 = get_n32 data2 o2.
Proof. unfold get_n32. by intros ->. Qed.

(** The kinds the code instantiates the templates with. *)
Inductive packet_kind : kind -> Prop :=
  | is_query : packet_kind query_kind
  | is_source : packet_kind source_kind.

Definition turns (k : kind) : nat := crypt_turns o_unique (k_end k).

(** The loop ends past the checked part and inside the structure. *)
Lemma turns_bounds k : packet_kind k ->
  (k_end k <= 8 + turns k * 16)%nat /\ (8 + turns k * 16 <= k_size k)%nat /\
  (56 <= k_end k)%nat /\ Z.of_nat (k_size k) < 2 ^ 31.
Proof. intros []; vm_compute; repeat split; congruence || (apply Nat.leb_le; reflexivity). Qed.

Lemma turns_mono k1 k2 : (k_end k1 <= k_end k2)%nat -> (turns k1 <= turns k2)%nat.
Proof. intros. unfold turns, crypt_turns. apply Nat.Div0.div_le_mono. lia. Qed.

Lemma kind_le k1 k2 : packet_kind k1 -> packet_kind k2 ->
  (k_size k1 <= k_size k2)%nat -> (k_end k1 <= k_end k2)%nat.
Proof. intros [] [] H; apply Nat.leb_le; apply Nat.leb_le in H; revert H; by vm_compute. Qed.

(** What [crypt_encode] hands to the cipher: [crypt], [len] and [hash] set. *)
Definition sealed (k : kind) (data : list Z) : list Z :=
  let data := set8 data o_crypt c_t in
  let len := (k_end k - o_password)%nat in
  let data := set_n32 data o_len (Z.of_nat len) in
  set_n32 data o_hash (s32 (RSHash (load data o_password len))).

#[local] Opaque RSHash load store.

Lemma sealed_ok k data :
  packet_kind k -> bytes_ok data -> length data = k_size k ->
  bytes_ok (sealed k data) /\ length (sealed k data) = k_size k.
Proof.
  intros Hk Hb Hl. pose proof (turns_bounds k Hk) as (? & ? & ? & ?). unfold sealed. cbv zeta. split.
  - apply set_n32_bytes, set_n32_bytes, store_bytes; [done|].
    repeat constructor; unfold c_t; lia.
  - rewrite !length_set_n32, length_set8; rewrite ?length_set_n32, ?length_set8; rewrite ?length_set8;
      change o_crypt with 0%nat; change o_len with 12%nat; change o_hash with 16%nat; lia.
Qed.

Lemma sealed_fields k data :
  packet_kind k -> length data = k_size k ->
  (forall n, (o_password + n <= k_size k)%nat ->
     load (sealed k data) o_password n = load data o_password n) /\
  load (sealed k data) o_userid 8 = load data o_userid 8 /\
  get8 (sealed k data) o_crypt = c_t /\
  get_n32 (sealed k data) o_len = Z.of_nat (k_end k - o_password) /\
  get_n32 (sealed k data) o_hash = s32 (RSHash (load data o_password (k_end k - o_password))).
Proof.
  intros Hk Hl. pose proof (turns_bounds k Hk) as (? & ? & ? & ?). unfold sealed. cbv zeta.
  change o_crypt with 0%nat; change o_len with 12%nat; change o_hash with 16%nat;
    change o_password with 20%nat; change o_userid with 4%nat.
  set (d1 := set8 data 0 c_t).
  assert (L1 : length d1 = k_size k) by (unfold d1; rewrite length_set8; lia).
  set (d2 := set_n32 d1 12 (Z.of_nat (k_end k - 20))).
  assert (L2 : length d2 = k_size k) by (unfold d2; rewrite length_set_n32; lia).
  assert (Hm : forall v, length (mem32 (nint32_of v)) = 4%nat) by done.
  assert (E1 : forall o n, (1 <= o)%nat -> load d1 o n = load data o n).
  { intros. apply load_store_other; simpl; lia. }
  assert (E2 : forall o n, (o + n <= 12 \/ 16 <= o)%nat -> load d2 o n = load d1 o n).
  { intros. apply load_store_other; rewrite Hm; lia. }
  assert (E3 : forall h o n, (o + n <= 16 \/ 20 <= o)%nat -> load (set_n32 d2 16 h) o n = load d2 o n).
  { intros. apply load_store_other; rewrite Hm; lia. }
  assert (F : get8 (set_n32 d2 16 (s32 (RSHash (load d2 20 (k_end k - 20))))) 0 = c_t) by reflexivity.
  split; [|split; [|split; [exact F|split]]].
  - intros n Hn. by rewrite E3, E2, E1 by lia.
  - by rewrite E3, E2, E1 by lia.
  - etransitivity; [apply get_n32_load, E3; lia|]. apply get_set_n32; lia.
  - rewrite get_set_n32; [|apply s32_range|lia]. by rewrite E2, E1 by lia.
Qed.

(** The encrypted range of a packet, and what [crypt_encode] makes of it. *)
Definition body (k : kind) (data : list Z) : list Z := load data o_unique (turns k * 16).
Definition tail (k : kind) (data : list Z) : list Z := drop (8 + turns k * 16) data.

Lemma split_packet k data :
  packet_kind k -> length data = k_size k ->
  data = take 8 data ++ body k data ++ tail k data /\ length (take 8 data) = 8%nat /\
  length (body k data) = (turns k * 16)%nat.
Proof.
  intros Hk Hl. pose proof (turns_bounds k Hk) as (? & ? & ? & ?). split; [|split].
  - unfold body, tail. Transparent load. unfold load. Opaque load. change o_unique with 8%nat.
    rewrite <- drop_drop. by rewrite !take_drop.
  - rewrite length_take. lia.
  - apply length_load. change o_unique with 8%nat. lia.
Qed.

Lemma crypt_encode_spec k data key s :
  packet_kind k -> bytes_ok data -> length data = k_size k -> bytes_ok key -> aes_ok s ->
  get8 data o_crypt <> c_t ->
  exists s', aes_ok s' /\
    crypt_encode k data key s
    = (take 8 (sealed k data) ++ map_blocks (Enc key) (turns k) (body k (sealed k data))
         ++ tail k (sealed k data), s').
Proof.
  intros Hk Hb Hl Hkey Hs Hc. unfold crypt_encode. rewrite (proj2 (Z.eqb_neq _ _) Hc).
  cbv zeta. fold (sealed k data). fold (turns k).
  destruct (sealed_ok k data Hk Hb Hl) as [Bs Ls].
  destruct (split_packet k _ Hk Ls) as (E & L8 & Lb).
  destruct (crypt_blocks_slice (encrypt_block key) (Enc key)
    (fun b s => encrypt_block_spec key b s Hkey) (fun b => Enc_state key b Hkey)
    (turns k) (take 8 (sealed k data)) (body k (sealed k data)) (tail k (sealed k data)) s)
    as (s' & E' & Hs'); [|done|done|].
  - rewrite E in Bs. apply Forall_app in Bs as [_ Bs]. by apply Forall_app in Bs as [? _].
  - exists s'. split; [done|]. rewrite <- E, L8 in E'. exact E'.
Qed.

#[local] Transparent BlockCopy.

Lemma on_block_length f buf p : length (on_block f buf p) = length buf.
Proof. unfold on_block. apply (for_inv (fun l => length l = length buf)); [done|].
  intros. by rewrite length_setn. Qed.

Lemma BlockCopy_length out op inp ip : length (BlockCopy out op inp ip) = length out.
Proof. unfold BlockCopy. apply (for_inv (fun l => length l = length out)); [done|].
  intros. by rewrite length_setn. Qed.

#[local] Opaque BlockCopy.

Lemma decrypt_block_length key b s : length (fst (decrypt_block key b s)) = 16%nat.
Proof.
  unfold decrypt_block, AES128_ECB_decrypt. cbn [fst]. by rewrite on_block_length, BlockCopy_length.
Qed.

(** Decrypting, with a possibly larger kind, what [sealed] packet of kind [k1]
    was encrypted to: the first part of the loop undoes the encryption, the rest
    of it works past the checked part. *)
Lemma decrypt_blocks_spec k1 n2 pre data rest key s :
  packet_kind k1 -> bytes_ok data -> length data = k_size k1 -> bytes_ok key -> aes_ok s ->
  length pre = 8%nat -> (turns k1 <= n2)%nat ->
  (8 + n2 * 16 <= 8 + turns k1 * 16 + length rest)%nat ->
  let dec := fst (crypt_blocks (decrypt_block key) n2 8
                    (pre ++ map_blocks (Enc key) (turns k1) (body k1 data) ++ rest) s) in
  take (8 + turns k1 * 16) dec = pre ++ body k1 data /\
  length dec = (8 + turns k1 * 16 + length rest)%nat.
Proof.
  intros Hk Hb Hl Hkey Hs Hp Hn Hr. cbv zeta.
  destruct (split_packet k1 data Hk Hl) as (E & L8 & Lb).
  assert (Bb : bytes_ok (body k1 data)).
  { rewrite E in Hb. apply Forall_app in Hb as [_ Hb]. by apply Forall_app in Hb as [? _]. }
  destruct (map_blocks_ok (Enc key) (fun b => Enc_state key b Hkey) _ _ Bb Lb) as [Bm Lm].
  destruct (crypt_blocks_slice (decrypt_block key) (Dec key)
    (fun b s => decrypt_block_spec key b s Hkey) (fun b => Dec_state key b Hkey)
    (turns k1) pre _ rest s Bm Lm Hs) as (s' & E' & Hs').
  rewrite map_blocks_inverse, Hp in E' by done.
  replace n2 with (turns k1 + (n2 - turns k1))%nat by lia.
  rewrite crypt_blocks_split, E'.
  destruct (crypt_blocks_prefix (decrypt_block key) (n2 - turns k1) (8 + turns k1 * 16)
    (pre ++ body k1 data ++ rest) s') as [P L].
  - intros. apply decrypt_block_length.
  - rewrite !length_app. lia.
  - rewrite P, L. rewrite (app_assoc pre). split; [|rewrite !length_app; lia].
    apply take_app_length'. rewrite length_app. lia.
Qed.

Lemma set8_app data1 data2 v :
  (1 <= length data1)%nat -> set8 (data1 ++ data2) 0 v = set8 data1 0 v ++ data2.
Proof.
  intros H. destruct data1 as [|x r]; [simpl in H; lia|].
  Transparent store. unfold set8, store. Opaque store. simpl. by rewrite !drop_0.
Qed.

Lemma take_sealed k data v :
  packet_kind k -> length data = k_size k ->
  take (8 + turns k * 16) (set8 data o_crypt v) = set8 (take 8 data) 0 v ++ body k data.
Proof.
  intros Hk Hl. destruct (split_packet k data Hk Hl) as (E & L8 & Lb).
  rewrite E at 1. change o_crypt with 0%nat. rewrite set8_app by lia.
  rewrite (app_assoc (set8 _ _ _)). apply take_app_length'.
  rewrite length_app, length_set8 by lia. lia.
Qed.

(** The fields both ends agree on after a packet went through the cipher. *)
Definition delivered (k : kind) (data dec : list Z) : Prop :=
  let len := (k_end k - o_password)%nat in
  get8 dec o_crypt = c_f /\
  load dec o_userid 8 = load data o_userid 8 /\
  load dec o_password len = load data o_password len /\
  get_n32 dec o_len = Z.of_nat len /\
  get_n32 dec o_hash = s32 (RSHash (load data o_password len)).

(** Any packet that agrees with a sealed one, [crypt] reset, up to the end of
    the encrypted range. *)
Lemma delivered_prefix k data dec :
  packet_kind k -> bytes_ok data -> length data = k_size k ->
  take (8 + turns k * 16) dec = set8 (take 8 (sealed k data)) 0 c_f ++ body k (sealed k data) ->
  delivered k data dec.
Proof.
  intros Hk Hb Hl Hd. pose proof (turns_bounds k Hk) as (? & ? & ? & ?).
  destruct (sealed_ok k data Hk Hb Hl) as [_ Ls].
  destruct (sealed_fields k data Hk Hl) as (F1 & F2 & _ & F3 & F4).
  rewrite <- take_sealed in Hd by done.
  set (d' := set8 (sealed k data) o_crypt c_f) in Hd.
  assert (P : forall o n, (1 <= o)%nat -> (o + n <= 8 + turns k * 16)%nat ->
                load dec o n = load (sealed k data) o n).
  { intros o n Ho Hn. rewrite (load_prefix dec d' _ o n Hd Hn).
    apply load_store_other; change o_crypt with 0%nat; simpl; lia. }
  assert (L1 : (1 <= length dec)%nat).
  { apply (f_equal length) in Hd. rewrite !length_take in Hd. unfold d' in Hd.
    rewrite length_set8 in Hd; change o_crypt with 0%nat in *; lia. }
  unfold delivered. cbv zeta.
  change o_userid with 4%nat in *; change o_password with 20%nat in *.
  split; [|split; [|split; [|split]]].
  - pose proof (load_prefix dec d' _ 0 1 Hd ltac:(lia)) as E.
    unfold d' in E. change o_crypt with 0%nat in *.
    rewrite get8_load in E by lia. unfold set8 in E.
    pose proof (load_store_same (sealed k data) 0 [c_f] ltac:(simpl; lia)) as E2.
    cbn [length] in E2. rewrite E2 in E. by injection E.
  - rewrite P by lia. exact F2.
  - rewrite P by lia. apply F1. lia.
  - rewrite <- F3. apply get_n32_load, P; change o_len with 12%nat; lia.
  - rewrite <- F4. apply get_n32_load, P; change o_hash with 16%nat; lia.
Qed.

(** C1. A packet that is not yet encrypted, encrypted as kind [k1] and received
    into a buffer of a possibly larger kind [k2] (the server reads every request
    into a [netSource]), is decrypted with the same key to the same user id,
    [unique] and checked part (password to [endchunk]), with [crypt] back to
    ['f'] and [len] and [hash] telling that part's length and hash; whatever
    bytes follow the packet in the buffer do not matter, and nothing is
    rejected. *)
Theorem crypt_roundtrip k1 k2 data post key s :
  packet_kind k1 -> packet_kind k2 -> (k_size k1 + length post = k_size k2)%nat ->
  bytes_ok data -> length data = k_size k1 -> bytes_ok key -> aes_ok s ->
  get8 data o_crypt <> c_t ->
  let '(enc, s1) := crypt_encode k1 data key s in
  let '(dec, s2) := crypt_decode k2 (enc ++ post) key s1 in
  length enc = k_size k1 /\ get8 enc o_crypt = c_t /\
  length dec = k_size k2 /\ delivered k1 data dec.
Proof.
  intros Hk1 Hk2 Hsz Hb Hl Hkey Hs Hc.
  pose proof (turns_bounds k1 Hk1) as (T1 & T2 & T3 & T4).
  pose proof (turns_bounds k2 Hk2) as (U1 & U2 & U3 & U4).
  destruct (sealed_ok k1 data Hk1 Hb Hl) as [Bs Ls].
  destruct (sealed_fields k1 data Hk1 Hl) as (_ & _ & F0 & _ & F4).
  destruct (split_packet k1 _ Hk1 Ls) as (E & L8 & Lb).
  destruct (crypt_encode_spec k1 data key s) as (s1 & Hs1 & ->); try done.
  set (sd := sealed k1 data) in *.
  set (enc := _ ++ _ ++ _).
  assert (Bb : bytes_ok (body k1 sd)).
  { rewrite E in Bs. apply Forall_app in Bs as [_ Bs]. by apply Forall_app in Bs as [? _]. }
  destruct (map_blocks_ok (Enc key) (fun b => Enc_state key b Hkey) _ _ Bb Lb) as [Bm Lm].
  assert (Le : length enc = k_size k1).
  { unfold enc. apply (f_equal length) in E. rewrite !length_app in *. lia. }
  assert (H8 : take 8 enc = take 8 sd) by (apply take_app_length'; lia).
  assert (C0 : get8 enc o_crypt = c_t).
  { pose proof (load_prefix _ _ 8 0 1 H8 ltac:(lia)) as Ld.
    rewrite !get8_load in Ld by lia. exact (eq_trans (f_equal (fun l => getn l 0) Ld) F0). }
  assert (Le2 : (k_end k1 <= k_end k2)%nat) by (apply kind_le; [done|done|lia]).
  assert (Lt : (turns k1 <= turns k2)%nat) by by apply turns_mono.
  pose proof (decrypt_blocks_spec k1 (turns k2) (set8 (take 8 sd) 0 c_f) sd
    (tail k1 sd ++ post) key s1 Hk1 Bs Ls Hkey Hs1) as D.
  assert (S8 : set8 (enc ++ post) o_crypt c_f
               = set8 (take 8 sd) 0 c_f ++ map_blocks (Enc key) (turns k1) (body k1 sd)
                   ++ tail k1 sd ++ post).
  { unfold enc. change o_crypt with 0%nat. rewrite <- !app_assoc. apply set8_app. lia. }
  assert (C1 : get8 (enc ++ post) o_crypt = c_t).
  { rewrite <- C0. unfold get8, getn. apply app_nth1. change o_crypt with 0%nat. lia. }
  unfold crypt_decode. fold (turns k2). rewrite C1, S8. cbn [negb Z.eqb c_t Pos.eqb].
  assert (L8' : length (set8 (take 8 sd) 0 c_f) = 8%nat) by (rewrite length_set8; lia).
  assert (Lr : length (tail k1 sd ++ post) = (k_size k2 - 8 - turns k1 * 16)%nat).
  { rewrite length_app. apply (f_equal length) in E. rewrite !length_app in E. lia. }
  change o_unique with 8%nat.
  destruct (D L8' Lt ltac:(lia)) as [D1 D2]. clear D.
  destruct (crypt_blocks (decrypt_block key) (turns k2) 8 _ s1) as [dec s2]. cbn [fst] in D1, D2.
  pose proof (delivered_prefix k1 data dec Hk1 Hb Hl D1) as F.
  destruct F as (G0 & G1 & G2 & G3 & G4). rewrite G3, G4.
  change o_password with 20%nat in *.
  rewrite (proj2 (Z.ltb_ge _ _)), (proj2 (Z.ltb_ge _ _)) by lia. cbn [orb].
  rewrite Nat2Z.id, G2, Z.eqb_refl. cbn [negb].
  repeat split; try done. lia.
Qed.

Lemma crypt_roundtrip_witness :
  let data := replicate 124 7 in
  let key := map Z.of_nat (seq 0 16) in
  let '(enc, s1) := crypt_encode query_kind data key aes_init in
  let '(dec, s2) := crypt_decode source_kind (enc ++ replicate 4064 1) key s1 in
  length enc = k_size query_kind /\ get8 enc o_crypt = c_t /\
  length dec = k_size source_kind /\ delivered query_kind data dec.
Proof.
  apply (crypt_roundtrip query_kind source_kind (replicate 124 7) (replicate 4064 1)
           (map Z.of_nat (seq 0 16)) aes_init).
  - constructor.
  - constructor.
  - vm_compute. reflexivity.
  - apply Forall_replicate. unfold byte_ok. lia.
  - reflexivity.
  - apply Forall_forall. intros x [n [<- Hn]]%in_map_iff. apply in_seq in Hn.
    unfold byte_ok. lia.
  - reflexivity.
  - vm_compute. discriminate.
Defined.

Lemma length_crypt_blocks k f data s :
  packet_kind k -> length data = k_size k ->
  (forall b s, length (fst (f b s)) = 16%nat) ->
  take 8 (fst (crypt_blocks f (turns k) 8 data s)) = take 8 data /\
  length (fst (crypt_blocks f (turns k) 8 data s)) = k_size k.
Proof.
  intros Hk Hl Hf. pose proof (turns_bounds k Hk) as (? & ? & ? & ?).
  destruct (crypt_blocks_prefix f (turns k) 8 data s) as [H3 H4]; [auto|lia|].
  split; [done|congruence].
Qed.

(** What a packet that claims to be encrypted can be turned into: zeros, or a
    packet marked plain whose length field is within the structure and whose
    hash is the hash of that many bytes. *)
Definition checked (k : kind) (dec : list Z) : Prop :=
  dec = bzero (k_size k) \/
  (get8 dec o_crypt = c_f /\
   0 <= get_n32 dec o_len <= Z.of_nat (k_end k - o_password) /\
   get_n32 dec o_hash = s32 (RSHash (load dec o_password (Z.to_nat (get_n32 dec o_len))))).

(** C16. Whatever bytes and key a packet is decrypted with, [crypt_decode] keeps
    it at its size, and returns either an all-zero packet or one whose length
    field lies between 0 and the end of the structure (a forged length never
    makes the hash read out of it) and whose hash field is the hash of that many
    bytes; a packet not marked encrypted is not touched. *)
Theorem crypt_decode_checked k data key s :
  packet_kind k -> length data = k_size k ->
  let dec := fst (crypt_decode k data key s) in
  length dec = k_size k /\
  if get8 data o_crypt =? c_t then checked k dec else dec = data.
Proof.
  intros Hk Hl. cbv zeta. pose proof (turns_bounds k Hk) as (? & ? & ? & ?).
  unfold crypt_decode. destruct (get8 data o_crypt =? c_t); cbn [negb]; [|done].
  change o_unique with 8%nat. change (crypt_turns 8 (k_end k)) with (turns k).
  assert (L1 : length (set8 data o_crypt c_f) = k_size k).
  { rewrite length_set8; change o_crypt with 0%nat; lia. }
  destruct (length_crypt_blocks k (decrypt_block key) _ s Hk L1 (decrypt_block_length key))
    as [P L].
  destruct (crypt_blocks _ _ _ _ _) as [dec s']. cbn [fst] in P, L.
  destruct (orb _ _) eqn:E1; cbn [fst].
  { split; [apply length_replicate|by left]. }
  apply orb_false_iff in E1 as [H3%Z.ltb_ge H4%Z.ltb_ge].
  destruct (Z.eqb_spec (get_n32 dec o_hash)
    (s32 (RSHash (load dec o_password (Z.to_nat (get_n32 dec o_len)))))) as [E2|E2]; cbn [negb fst].
  - split; [done|]. right. split; [|split; [lia|done]].
    change o_crypt with 0%nat in *.
    pose proof (load_prefix _ _ 8 0 1 P ltac:(lia)) as Ld.
    pose proof (load_store_same data 0 [c_f] ltac:(simpl; lia)) as E3. cbn [length] in E3.
    change (store data 0 [c_f]) with (set8 data 0 c_f) in E3. rewrite E3, get8_load in Ld by lia.
    exact (f_equal (fun l => getn l 0) Ld).
  - split; [apply length_replicate|by left].
Qed.

Lemma crypt_decode_checked_witness :
  let dec := fst (crypt_decode query_kind (c_t :: replicate 123 9) (replicate 16 1) aes_init) in
  length dec = k_size query_kind /\ checked query_kind dec.
Proof.
  apply (crypt_decode_checked query_kind (c_t :: replicate 123 9) (replicate 16 1) aes_init).
  - constructor.
  - reflexivity.
Defined.
