(* ===== verification/YsDB.v ===== *)
(** * YsDB: core/ysdb.hpp, users, sources, replay log and live list

    The two LevelDB databases are abstract: [KV] states what the code relies on
    of [Get], [Put] and [Delete] (a write succeeds and is read back; input/output
    errors are outside the model), and [gmap_kv] shows a finite map has it.
    [Get] leaves its output string alone when the key is not there.  The locks
    make each operation one step.  Byte strings are lists; a [std::string]'s
    [c_str()] followed by an index reads 0 past its end. *)

From Stdlib Require Import Sorted.
From stdpp Require Import gmap relations.
From S2P Require Import Prelude Aes NInt Base64 Hash Func Text Packet Crypt.

(** ** The key/value store *)

Class KV (D : Type) := {
  kv_get : D -> list Z -> option (list Z);
  kv_put : D -> list Z -> list Z -> D;
  kv_del : D -> list Z -> D;
  kv_get_put d k k' v : kv_get (kv_put d k v) k' = if decide (k = k') then Some v else kv_get d k';
  kv_get_del d k k' : kv_get (kv_del d k) k' = if decide (k = k') then None else kv_get d k'
}.

#[export] Program Instance gmap_kv : KV (gmap (list Z) (list Z)) := {
  kv_get d k := d !! k;
  kv_put d k v := <[k := v]> d;
  kv_del d k := delete k d
}.
Next Obligation. intros. simpl. case_decide; [subst; by simplify_map_eq|by simplify_map_eq]. Qed.
Next Obligation. intros. simpl. case_decide; [subst; by simplify_map_eq|by simplify_map_eq]. Qed.

(** [if(db->Get(options,key,&v).ok())]: the flag and the string afterwards. *)
Definition Get {D} `{KV D} (d : D) (k v : list Z) : bool * list Z :=
  match kv_get d k with Some x => (true, x) | None => (false, v) end.

Definition is_empty (v : list Z) : bool := match v with [] => true | _ => false end.

(** ** Constants *)

Definition defaultUserInfo : list Z := lit "1234567890abcdef1234567890abcdef1234567890abcdef".
(** [sizeof] counts the NUL of the array. *)
Definition sizeof_defaultUserInfo : nat := S (length defaultUserInfo).
Definition userpre : list Z := lit "system_user_".
Definition srcpre : list Z := lit "system_src_".

Definition key_user (userid : Z) : list Z := userpre ++ num_text userid.
Definition key_user_tmp (userid : Z) : list Z := userpre ++ num_text userid ++ lit "_tmp".
Definition key_user_time (userid : Z) : list Z := userpre ++ num_text userid ++ lit "_time".
Definition key_user_key (userid : Z) : list Z := userpre ++ num_text userid ++ lit "_key".

(** ** The live list: a [std::set<location>] as its elements in order *)

Fixpoint set_insert (x : location) (l : list location) : list location :=
  match l with
  | [] => [x]
  | y :: l' => if location_ltb x y then x :: l
               else if location_ltb y x then y :: set_insert x l' else l
  end.

Fixpoint set_mem (x : location) (l : list location) : bool :=
  match l with
  | [] => false
  | y :: l => if location_ltb x y then false else if location_ltb y x then set_mem x l else true
  end.

Fixpoint set_erase (x : location) (l : list location) : list location :=
  match l with
  | [] => []
  | y :: l' => if location_ltb x y then l
               else if location_ltb y x then y :: set_erase x l' else l'
  end.

(** ** The state *)

Record ysdb (D : Type) := mk_ysdb {
  userIP : gmap Z location;
  ldata : D;
  livelist : list location;
  unique : D
}.
Arguments mk_ysdb {D}.
Arguments userIP {D}.
Arguments ldata {D}.
Arguments livelist {D}.
Arguments unique {D}.

Section YsDB.
Context {D : Type} `{KV D}.
Implicit Types db : ysdb D.

Definition with_ldata db (d : D) : ysdb D := mk_ysdb (userIP db) d (livelist db) (unique db).
Definition with_unique db (d : D) : ysdb D := mk_ysdb (userIP db) (ldata db) (livelist db) d.
Definition with_live db (l : list location) : ysdb D := mk_ysdb (userIP db) (ldata db) l (unique db).
Definition with_ip db (m : gmap Z location) : ysdb D := mk_ysdb m (ldata db) (livelist db) (unique db).

Definition liveAdd db (address : location) : ysdb D :=
  with_live db (set_insert address (livelist db)).
Definition liveRemove db (address : location) : ysdb D :=
  if set_mem address (livelist db) then with_live db (set_erase address (livelist db)) else db.
Definition liveClean db : ysdb D := with_live db [].
(** [live(callback, arg)]: the callback on every element, in order. *)
Definition live {T} db (callback : location -> T -> T) (arg : T) : T :=
  fold_left (fun t l => callback l t) (livelist db) arg.

(** *** Keys *)

(** [buf] is [getbase64]'s 64-byte local. *)
Definition getkey db (uid : Z) (key buf : list Z) : bool * list Z :=
  match kv_get (ldata db) (key_user_key uid) with
  | None => (false, key)
  | Some v => if (length v <? 16)%nat then (false, key) else (true, aesblock_getbase64 key (c_str v) buf)
  end.

Definition setkey db (uid : Z) (key : list Z) : ysdb D :=
  with_ldata db (kv_put (ldata db) (key_user_key uid) (c_str (aesblock_tobase64 key))).

(** *** The replay log *)

Definition unique_key (uid lid : Z) : list Z := sprintf_d uid ++ 58 :: sprintf_d lid.

Definition logunique db (now uid lid : Z) : bool * ysdb D :=
  if lid =? 0 then (true, db)
  else
    let '(ok, v) := Get (unique db) (unique_key uid lid) [] in
    if ok && negb (is_empty v) then (false, db)
    else (true, with_unique db (kv_put (unique db) (unique_key uid lid) (sprintf_d now))).

Definition uniqueExist db (uid lid : Z) : bool :=
  if lid =? 0 then false
  else
    let '(ok, v) := Get (unique db) (unique_key uid lid) [] in
    ok && negb (is_empty v).

(** *** Users *)

Definition userExist db (userid : Z) : bool :=
  let '(ok, v) := Get (ldata db) (key_user userid) [] in ok && negb (is_empty v).

(** The loop over 16 characters that compares a password with a stored one. *)
Fixpoint pwd_match (n i : nat) (pwd tp : list Z) : bool :=
  match n with
  | O => true
  | S n =>
      if (getn pwd i =? getn tp i) && (getn pwd i =? 0) && (6 <? i)%nat then true
      else if getn pwd i =? 0 then false
      else if getn tp i =? 0 then false
      else if negb (getn pwd i =? getn tp i) then false
      else pwd_match n (S i) pwd tp
  end.

(** [now_txt] is [nowtime()]; [v] the caller's string, and its value afterwards. *)
Definition login db (now_txt : list Z) (userid : Z) (pwd v : list Z) : bool * list Z * ysdb D :=
  let '(ok, v) := Get (ldata db) (key_user_tmp userid) v in
  let tmp := ok && negb (is_empty v) && pwd_match 16 0 pwd v in
  let '(ok, v) := Get (ldata db) (key_user userid) v in
  if negb ok then (false, v, db)
  else if negb tmp && is_empty v then (false, v, db)
  else if negb tmp && negb (pwd_match 16 0 pwd v) then (false, v, db)
  else (true, v, with_ldata db (kv_put (ldata db) (key_user_time userid) now_txt)).

(** [for(i=0;i<16;i++)if(s[i]=='\0')return 0;] *)
Definition all16 (s : list Z) : bool := forallb (fun i => negb (getn s i =? 0)) (seq 0 16).
Definition first (n : nat) (s : list Z) : list Z := map (getn s) (seq 0 n).

Definition setTmpPwd db (userid : Z) (pwd : list Z) : bool * ysdb D :=
  if negb (all16 pwd) then (false, db)
  else (true, with_ldata db (kv_put (ldata db) (key_user_tmp userid) (first 16 pwd))).

(** [writestr], [strlencheck] *)
Definition writestr (a b : list Z) (l begin : nat) : list Z :=
  for_ 0 l (fun i a => setn a (i + begin) (getn b i)) a.
Definition strlencheck (s : list Z) (l : nat) : bool :=
  forallb (fun i => negb (getn s i =? 0)) (seq 0 l).

Definition changePwd db (userid : Z) (pwd : list Z) : bool * ysdb D :=
  if negb (all16 pwd) then (false, db)
  else
    let '(ok, v) := Get (ldata db) (key_user userid) [] in
    if negb ok then (false, db)
    else if (length v <? sizeof_defaultUserInfo)%nat then (false, db)
    else
      let v := for_ 0 16 (fun i v => setn v i (getn pwd i)) v in
      (true, with_ldata db (kv_put (ldata db) (key_user userid) v)).

Definition changeAcl db (userid : Z) (acl : list Z) : bool * ysdb D :=
  if negb (all16 acl) then (false, db)
  else
    let '(ok, v) := Get (ldata db) (key_user userid) [] in
    if negb ok then (false, db)
    else if (length v <? sizeof_defaultUserInfo)%nat then (false, db)
    else
      let v := for_ 0 16 (fun i v => setn v (i + 16) (getn acl i)) v in
      (true, with_ldata db (kv_put (ldata db) (key_user userid) v)).

(** Both are declared [bool] and return nothing. *)
Definition newUser db (userid : Z) : ysdb D :=
  with_ldata db (kv_put (ldata db) (key_user userid) defaultUserInfo).
Definition delUser db (userid : Z) : ysdb D :=
  with_ldata db (kv_del (ldata db) (key_user userid)).

(** *** Sources *)

(** [getSrcName(out, name)]: 16 characters are asked for, 8 are used. *)
Definition getSrcName (name : list Z) : option (list Z) :=
  if negb (all16 name) then None else Some (first 8 name).

(** [getSrcName(out, name, userid)]: [out] is the caller's 17-byte local, of
    which bytes 8 to 16 are written; [str], the user's number, is not used. *)
Definition getSrcName_user (out name : list Z) (userid : Z) : option (list Z) :=
  if negb (all16 name) then None
  else
    let out := for_ 0 8 (fun i out => setn out (i + 8) (getn name i)) out in
    Some (c_str (setn out 16 0)).

Definition writeSrc db (sname src : list Z) : bool * ysdb D :=
  match getSrcName sname with
  | None => (false, db)
  | Some name => (true, with_ldata db (kv_put (ldata db) (srcpre ++ name) (c_str src)))
  end.

(** The operations on a user's own source first look up the common one of the
    same name; [out] is the uninitialised local [name]. *)
Definition own_name db (sname out : list Z) (userid : Z) : option (list Z) :=
  match getSrcName sname with
  | None => None
  | Some name1 =>
      match kv_get (ldata db) (srcpre ++ name1) with
      | None => None
      | Some _ => getSrcName_user out sname userid
      end
  end.

Definition writeSrc_user db (sname : list Z) (userid : Z) (src out : list Z) : bool * ysdb D :=
  match own_name db sname out userid with
  | None => (false, db)
  | Some name => (true, with_ldata db (kv_put (ldata db) (srcpre ++ name) (c_str src)))
  end.

Definition readSrc db (sname src : list Z) : bool * list Z :=
  match getSrcName sname with
  | None => (false, src)
  | Some name => Get (ldata db) (srcpre ++ name) src
  end.

Definition readSrc_user db (sname : list Z) (userid : Z) (src out : list Z) : bool * list Z :=
  match own_name db sname out userid with
  | None => (false, src)
  | Some name => Get (ldata db) (srcpre ++ name) src
  end.

Definition delSrc db (sname : list Z) : bool * ysdb D :=
  match getSrcName sname with
  | None => (false, db)
  | Some name => (true, with_ldata db (kv_del (ldata db) (srcpre ++ name)))
  end.

Definition delSrc_user db (sname : list Z) (userid : Z) (out : list Z) : bool * ysdb D :=
  match own_name db sname out userid with
  | None => (false, db)
  | Some name => (true, with_ldata db (kv_del (ldata db) (srcpre ++ name)))
  end.

Definition existSrc db (sname : list Z) : bool :=
  let '(ok, str) := readSrc db sname [] in ok && negb (is_empty str).
Definition existSrc_user db (sname : list Z) (userid : Z) (out : list Z) : bool :=
  let '(ok, str) := readSrc_user db sname userid [] out in ok && negb (is_empty str).

(** *** Addresses *)

Definition logIP db (userid ip port : Z) : ysdb D :=
  with_ip db (<[userid := mk_location ip port]> (userIP db)).

(** The flag, then what [ip] and [port] are set to. *)
Definition getUserIP db (userid : Z) : bool * (Z * Z) :=
  match userIP db !! userid with
  | None => (false, (0, 0))
  | Some p => (true, (l_ip p, l_port p))
  end.
End YsDB.

(** ** netReg: the signed registration a server accepts

    OpenSSL is outside the repository: [computekey key] is what [DH.computekey]
    leaves in the 33-byte [kb], [verify pubkey data sign slen] the result of
    [ECDSA_verify], [sign_data] what [ECDSA_sign] produces.  [signers] are the
    public keys of the chain [signer], [signer.next], ... *)

(** [struct netReg]: crypt, data (uid, tm, pwd), endchunk, slen, sign, key *)
Definition ECDH_SIZE : nat := 33.
Definition netReg_data : list (nat * nat) := [c_int32; c_int32; c_chars 16].
Definition sizeof_netReg_data : nat := sizeof_struct netReg_data 4.
Definition netReg : list (nat * nat) :=
  [c_char; (sizeof_netReg_data, 4%nat); c_chars 32; c_int32; c_chars 1024; c_chars ECDH_SIZE].
Definition sizeof_netReg : nat := sizeof_struct netReg 4.
Definition r_crypt : nat := member_offset netReg 0.
Definition r_data : nat := member_offset netReg 1.
Definition r_uid : nat := (r_data + member_offset netReg_data 0)%nat.
Definition r_tm : nat := (r_data + member_offset netReg_data 1)%nat.
Definition r_pwd : nat := (r_data + member_offset netReg_data 2)%nat.
Definition r_slen : nat := member_offset netReg 3.
Definition r_sign : nat := member_offset netReg 4.
Definition r_key : nat := member_offset netReg 5.

Section NetReg.
Context {D : Type} `{KV D}.
Context (computekey : list Z -> list Z).
Context (verify : list Z -> list Z -> list Z -> Z -> bool).
Context (sign_data : list Z -> list Z).
Context (signers : list (list Z)).

Definition netReg_encrypt (reg : list Z) (s : aes_st) : list Z * aes_st :=
  if get8 reg r_crypt =? c_t then (reg, s)
  else
    let kb := computekey (load reg r_key ECDH_SIZE) in
    let reg := set8 reg r_crypt c_t in
    crypt_blocks (encrypt_block kb) 3 r_data reg s.

Definition netReg_decrypt (reg : list Z) (s : aes_st) : list Z * aes_st :=
  if negb (get8 reg r_crypt =? c_t) then (reg, s)
  else
    let kb := computekey (load reg r_key ECDH_SIZE) in
    let reg := set8 reg r_crypt c_f in
    crypt_blocks (decrypt_block kb) 3 r_data reg s.

(** [Signer::check]: each key of the chain in turn, on 20 bytes whatever
    [datalen] says. *)
Definition Signer_check (data : list Z) (datalen : nat) (sign : list Z) (slen : Z) : bool :=
  existsb (fun k => verify k (take 20 data) sign slen) signers.

Definition netReg_check (reg : list Z) (now : Z) : bool :=
  let slen := get_n32 reg r_slen in
  if 1024 <? slen then false
  else if 3600 <? s32 (Z.abs (s32 (get_n32 reg r_tm - now))) then false
  else Signer_check (load reg r_data sizeof_netReg_data) sizeof_netReg_data
         (load reg r_sign 1024) (s32 slen).

(** [run] starts with [encrypt] (a no-op on an encrypted record). *)
Definition netReg_run (db : ysdb D) (reg : list Z) (now : Z) (s : aes_st) : ysdb D * aes_st :=
  let '(reg, s) := if get8 reg r_crypt =? c_t then netReg_encrypt reg s else (reg, s) in
  if negb (netReg_check reg now) then (db, s)
  else
    let uid := get_n32 reg r_uid in
    let db := if negb (userExist db uid) then newUser db uid else db in
    (snd (setTmpPwd db uid (drop r_pwd reg)), s).

(** [slen] is set to the length of the signature; the rest of [sign] stays. *)
Definition netReg_dosign (reg : list Z) : list Z :=
  let sign := sign_data (load reg r_data sizeof_netReg_data) in
  let reg := store reg r_sign sign in
  set_n32 reg r_slen (Z.of_nat (length sign)).

Definition netReg_init (reg : list Z) (userid : Z) (pwd : list Z) (now : Z) : list Z :=
  let reg := for_ 0 16 (fun i reg => setn reg (r_pwd + i) (getn pwd i)) reg in
  let reg := set_n32 reg r_uid userid in
  let reg := set_n32 reg r_tm now in
  let reg := set8 reg r_crypt c_f in
  netReg_dosign reg.
End NetReg.

(** ** Keys never collide *)

Lemma num_text_length i : length (num_text i) = 8%nat.
Proof. apply int2str_num_text. Qed.

Lemma key_lengths u :
  length (key_user u) = 20%nat /\ length (key_user_tmp u) = 24%nat /\
  length (key_user_time u) = 25%nat /\ length (key_user_key u) = 24%nat.
Proof.
  unfold key_user, key_user_tmp, key_user_time, key_user_key.
  rewrite !length_app, num_text_length. done.
Qed.

Lemma key_user_src u x : key_user u <> srcpre ++ x.
Proof. unfold key_user. intros E. apply (f_equal (fun l => getn l 7)) in E. discriminate E. Qed.

Lemma key_user_ne u u' :
  key_user u <> key_user_tmp u' /\ key_user u <> key_user_time u' /\ key_user u <> key_user_key u'.
Proof.
  destruct (key_lengths u) as (L & _), (key_lengths u') as (_ & L1 & L2 & L3).
  repeat split; intros E; apply (f_equal length) in E; lia.
Qed.

Lemma key_user_inj u u' :
  - 2 ^ 31 <= u < 2 ^ 31 -> - 2 ^ 31 <= u' < 2 ^ 31 -> key_user u = key_user u' -> u = u'.
Proof. unfold key_user. intros Hu Hu' E. apply app_inv_head in E. by apply num_text_inj. Qed.

Lemma key_user_tmp_inj u u' :
  - 2 ^ 31 <= u < 2 ^ 31 -> - 2 ^ 31 <= u' < 2 ^ 31 -> key_user_tmp u = key_user_tmp u' -> u = u'.
Proof.
  unfold key_user_tmp. intros Hu Hu' E. apply app_inv_head in E.
  apply app_inv_tail in E. by apply num_text_inj.
Qed.

Lemma key_user_tmp_time u u' : key_user_tmp u <> key_user_time u'.
Proof.
  destruct (key_lengths u) as (_ & L & _), (key_lengths u') as (_ & _ & L2 & _).
  intros E; apply (f_equal length) in E; lia.
Qed.

Lemma unique_key_inj u l u' l' :
  - 2 ^ 31 <= u < 2 ^ 31 -> - 2 ^ 31 <= u' < 2 ^ 31 -> - 2 ^ 31 <= l < 2 ^ 31 -> - 2 ^ 31 <= l' < 2 ^ 31 ->
  unique_key u l = unique_key u' l' -> u = u' /\ l = l'.
Proof.
  unfold unique_key. intros Hu Hu' Hl Hl' E.
  assert (N : forall v, Forall (fun x => x <> 58) (sprintf_d v)).
  { intros v. eapply Forall_impl; [|apply sprintf_d_chars]. unfold is_dec. cbv beta. lia. }
  apply join_inj in E as [E1 E2]; [|done..]. split; by apply sprintf_d_inj.
Qed.

(** ** Passwords *)

(** Two 16-character fields hold the same password: equal up to their NUL, and
    at least seven characters long. *)
Definition same_pwd (pwd tp : list Z) : Prop :=
  c_str (first 16 pwd) = c_str (first 16 tp) /\ (7 <= length (c_str (first 16 pwd)))%nat.

Lemma pwd_match_spec n : forall i pwd tp,
  pwd_match n i pwd tp = true <->
  c_str (map (getn pwd) (seq i n)) = c_str (map (getn tp) (seq i n)) /\
  (length (c_str (map (getn pwd) (seq i n))) = n \/
   7 <= i + length (c_str (map (getn pwd) (seq i n))))%nat.
Proof.
  induction n as [|n IH]; intros i pwd tp; [simpl; intuition|]. cbn [pwd_match seq map c_str].
  destruct (Z.eqb_spec (getn pwd i) 0) as [Ep|Np], (Z.eqb_spec (getn tp i) 0) as [Et|Nt].
  - rewrite Ep, Et. simpl. destruct (Nat.ltb_spec 6 i); split; try done; try lia.
    intros _. split; [done|lia].
  - rewrite Ep. destruct (Z.eqb_spec 0 (getn tp i)); [congruence|]. simpl. split; [done|by intros [? _]].
  - destruct (Z.eqb_spec (getn pwd i) (getn tp i)); [congruence|]. simpl. split; [done|by intros [? _]].
  - destruct (Z.eqb_spec (getn pwd i) (getn tp i)) as [E|N]; simpl.
    + rewrite IH, E. split; intros [H1 H2]; split; try lia; [by f_equal|by injection H1].
    + split; [done|]. intros [E _]. congruence.
Qed.

Lemma pwd_match_same pwd tp : pwd_match 16 0 pwd tp = true <-> same_pwd pwd tp.
Proof.
  rewrite pwd_match_spec. fold (first 16 pwd) (first 16 tp). unfold same_pwd.
  split; intros [H1 H2]; split; auto; lia.
Qed.

Lemma defaultUserInfo_no_t i : getn defaultUserInfo i <> c_t.
Proof.
  assert (F : Forall (fun x => x <> c_t) (0 :: defaultUserInfo)).
  { assert (B : forallb (fun x => negb (x =? c_t)) (0 :: defaultUserInfo) = true) by reflexivity.
    rewrite forallb_forall in B. apply List.Forall_forall. intros x Hx.
    apply B in Hx. by rewrite negb_true_iff, Z.eqb_neq in Hx. }
  unfold getn. rewrite List.Forall_forall in F. apply F.
  destruct (nth_in_or_default i defaultUserInfo 0) as [Hi| ->]; [by right|by left].
Qed.

Section Properties.
Context {D : Type} `{KV D}.
Implicit Types db : ysdb D.

Lemma get_ldata_put db k v k' :
  kv_get (ldata (with_ldata db (kv_put (ldata db) k v))) k'
  = if decide (k = k') then Some v else kv_get (ldata db) k'.
Proof. apply kv_get_put. Qed.

Lemma get_ldata_del db k k' :
  kv_get (ldata (with_ldata db (kv_del (ldata db) k))) k'
  = if decide (k = k') then None else kv_get (ldata db) k'.
Proof. apply kv_get_del. Qed.

(** A refused login writes nothing. *)
Lemma login_refused db now_txt uid pwd v v' db' :
  login db now_txt uid pwd v = (false, v', db') -> db' = db.
Proof.
  unfold login. destruct (Get (ldata db) (key_user_tmp uid) v), (Get (ldata db) (key_user uid) _).
  repeat case_match; congruence.
Qed.

(** A login never touches the replay log. *)
Lemma login_unique db now_txt uid pwd v : unique (snd (login db now_txt uid pwd v)) = unique db.
Proof.
  unfold login. destruct (Get (ldata db) (key_user_tmp uid) v), (Get (ldata db) (key_user uid) _).
  by repeat case_match.
Qed.

Lemma login_frame db now_txt uid pwd v k :
  k <> key_user_time uid ->
  kv_get (ldata (snd (login db now_txt uid pwd v))) k = kv_get (ldata db) k.
Proof.
  intros Hk. unfold login. destruct (Get (ldata db) (key_user_tmp uid) v), (Get (ldata db) (key_user uid) _).
  repeat case_match; try done. cbn [snd]. rewrite get_ldata_put. by rewrite decide_False.
Qed.

(** A successful login hands out the user's record. *)
Lemma login_record db now_txt uid pwd v v' db' :
  login db now_txt uid pwd v = (true, v', db') -> kv_get (ldata db) (key_user uid) = Some v'.
Proof.
  unfold login, Get. destruct (kv_get (ldata db) (key_user uid)) as [r|].
  - destruct (match kv_get (ldata db) (key_user_tmp uid) with Some _ => _ | None => _ end).
    cbn [negb]. repeat case_match; congruence.
  - by destruct (match kv_get (ldata db) (key_user_tmp uid) with Some _ => _ | None => _ end).
Qed.

(** A login succeeds exactly when the user has a record and the password is
    the user's temporary one or the one the record starts with (equal 16-byte
    fields, at least seven characters before a NUL); the caller then has the
    record, and only the user's time entry was written. *)
Lemma login_spec db now_txt uid pwd v :
  let '(ok, v', db') := login db now_txt uid pwd v in
  (ok = true <-> exists r, kv_get (ldata db) (key_user uid) = Some r /\
     ((exists t, kv_get (ldata db) (key_user_tmp uid) = Some t /\ t <> [] /\ same_pwd pwd t) \/
      (r <> [] /\ same_pwd pwd r)) ) /\
  (ok = true -> kv_get (ldata db) (key_user uid) = Some v') /\
  (ok = false -> db' = db) /\
  (forall k, k <> key_user_time uid -> kv_get (ldata db') k = kv_get (ldata db) k).
Proof.
  unfold login, Get.
  set (tmp := match kv_get (ldata db) (key_user_tmp uid) with
              | Some t => negb (is_empty t) && pwd_match 16 0 pwd t | None => false end).
  assert (Ht : tmp = true <->
    exists t, kv_get (ldata db) (key_user_tmp uid) = Some t /\ t <> [] /\ same_pwd pwd t).
  { unfold tmp. destruct (kv_get _ (key_user_tmp uid)) as [t|].
    - rewrite andb_true_iff, pwd_match_same. split.
      + intros [E S]. exists t. split; [done|]. split; [by destruct t|done].
      + intros (t' & [= <-] & N & S). split; [by destruct t|done].
    - split; [done|]. by intros (? & ? & _). }
  assert (Et : (match kv_get (ldata db) (key_user_tmp uid) with
                | Some x => (true, x) | None => (false, v) end) =
               (match kv_get (ldata db) (key_user_tmp uid) with Some _ => true | None => false end,
                default v (kv_get (ldata db) (key_user_tmp uid)))).
  { by destruct (kv_get _ (key_user_tmp uid)). }
  rewrite Et. clear Et.
  replace (match kv_get (ldata db) (key_user_tmp uid) with Some _ => true | None => false end &&
           negb (is_empty (default v (kv_get (ldata db) (key_user_tmp uid)))) &&
           pwd_match 16 0 pwd (default v (kv_get (ldata db) (key_user_tmp uid)))) with tmp
    by (unfold tmp; by destruct (kv_get _ (key_user_tmp uid))).
  assert (P : forall k, k <> key_user_time uid ->
    kv_get (ldata (with_ldata db (kv_put (ldata db) (key_user_time uid) now_txt))) k
    = kv_get (ldata db) k).
  { intros k Hk. rewrite get_ldata_put. by destruct (decide (key_user_time uid = k)) as [<-|]. }
  clearbody tmp. destruct (kv_get (ldata db) (key_user uid)) as [r|] eqn:Er; cbn [negb].
  2: { split; [|by auto]. split; [done|]. by intros (? & ? & _). }
  destruct tmp; cbn [negb andb].
  { split; [|by auto]. split; [|done]. intros _. exists r. split; [done|]. left. by apply Ht. }
  assert (Hn : ~ exists t, kv_get (ldata db) (key_user_tmp uid) = Some t /\ t <> [] /\ same_pwd pwd t).
  { intros X. by apply Ht in X. }
  destruct (is_empty r) eqn:Ee.
  { split; [|by auto]. split; [done|]. intros (r' & [= <-] & [X|[X _]]); [done|]. by destruct r. }
  destruct (pwd_match 16 0 pwd r) eqn:Ep; cbn [negb].
  - split; [|by auto]. split; [|done]. intros _. exists r. split; [done|]. right.
    split; [by destruct r|by apply pwd_match_same].
  - split; [|by auto]. split; [done|]. intros (r' & [= <-] & [X|[_ X]]); [done|].
    apply pwd_match_same in X. congruence.
Qed.

(** ** The operations of the database

    One change of the database by one of its own operations.  What main.cpp deletes
    from the replay log by itself, [Automanager::freeunique], is no operation of the
    database; [LuaApi.log_step] has both. *)

Definition key_safe (parhash : list Z) : list Z := lit "safe_key_" ++ parhash.

Inductive ysdb_op : ysdb D -> ysdb D -> Prop :=
  | step_liveAdd db a : ysdb_op db (liveAdd db a)
  | step_liveRemove db a : ysdb_op db (liveRemove db a)
  | step_liveClean db : ysdb_op db (liveClean db)
  | step_setkey db uid key : ysdb_op db (setkey db uid key)
  | step_safe_key db h v : ysdb_op db (with_ldata db (kv_put (ldata db) (key_safe h) v))
  | step_logunique db now uid lid : ysdb_op db (snd (logunique db now uid lid))
  | step_login db now uid pwd v : ysdb_op db (snd (login db now uid pwd v))
  | step_setTmpPwd db uid pwd : ysdb_op db (snd (setTmpPwd db uid pwd))
  | step_changePwd db uid pwd : ysdb_op db (snd (changePwd db uid pwd))
  | step_changeAcl db uid acl : ysdb_op db (snd (changeAcl db uid acl))
  | step_newUser db uid : ysdb_op db (newUser db uid)
  | step_delUser db uid : ysdb_op db (delUser db uid)
  | step_writeSrc db n x : ysdb_op db (snd (writeSrc db n x))
  | step_writeSrc_user db n uid x out : ysdb_op db (snd (writeSrc_user db n uid x out))
  | step_delSrc db n : ysdb_op db (snd (delSrc db n))
  | step_delSrc_user db n uid out : ysdb_op db (snd (delSrc_user db n uid out))
  | step_logIP db uid ip port : ysdb_op db (logIP db uid ip port)
  | step_register db computekey verify signers reg now s :
      ysdb_op db (fst (netReg_run computekey verify signers db reg now s)).

(** Every user record is the default one. *)
Definition accounts_default db : Prop :=
  forall uid, kv_get (ldata db) (key_user uid) = None \/
              kv_get (ldata db) (key_user uid) = Some defaultUserInfo.

Lemma accounts_put db k v :
  accounts_default db -> (forall uid, key_user uid <> k) \/ v = defaultUserInfo ->
  accounts_default (with_ldata db (kv_put (ldata db) k v)).
Proof.
  intros I Hk uid. rewrite get_ldata_put. destruct (decide (k = key_user uid)) as [->|]; [|apply I].
  right. destruct Hk as [Hk| ->]; [by destruct (Hk uid)|done].
Qed.

Lemma accounts_del db k : accounts_default db -> accounts_default (with_ldata db (kv_del (ldata db) k)).
Proof.
  intros I uid. rewrite get_ldata_del. destruct (decide (k = key_user uid)); [by left|apply I].
Qed.

Lemma accounts_short db uid v : accounts_default db ->
  Get (ldata db) (key_user uid) v = (true, defaultUserInfo) \/
  Get (ldata db) (key_user uid) v = (false, v).
Proof. intros I. unfold Get. destruct (I uid) as [-> | ->]; auto. Qed.

Lemma changePwd_default db uid pwd : accounts_default db -> changePwd db uid pwd = (false, db).
Proof.
  intros I. unfold changePwd. destruct (all16 pwd); [|done]. cbn [negb].
  by destruct (accounts_short db uid [] I) as [-> | ->].
Qed.

Lemma changeAcl_default db uid acl : accounts_default db -> changeAcl db uid acl = (false, db).
Proof.
  intros I. unfold changeAcl. destruct (all16 acl); [|done]. cbn [negb].
  by destruct (accounts_short db uid [] I) as [-> | ->].
Qed.

Lemma accounts_login db now uid pwd v : accounts_default db ->
  accounts_default (snd (login db now uid pwd v)) /\
  (fst (fst (login db now uid pwd v)) = true -> snd (fst (login db now uid pwd v)) = defaultUserInfo).
Proof.
  intros I. unfold login. destruct (Get (ldata db) (key_user_tmp uid) v) as [ok v1].
  destruct (accounts_short db uid v1 I) as [-> | ->]; cbn [negb]; [|done].
  repeat case_match; try done. cbn [fst snd]. split; [|done].
  apply accounts_put; [done|]. left. intros. by apply key_user_ne.
Qed.

Lemma accounts_setTmpPwd db uid pwd : accounts_default db -> accounts_default (snd (setTmpPwd db uid pwd)).
Proof.
  intros I. unfold setTmpPwd. destruct (all16 pwd); [|done]. apply accounts_put; [done|].
  left. intros. by apply key_user_ne.
Qed.

Lemma accounts_step db db' : ysdb_op db db' -> accounts_default db -> accounts_default db'.
Proof.
  intros St I. destruct St; try (exact I).
  - unfold liveRemove. by destruct (set_mem a (livelist db)).
  - apply accounts_put; [done|]. left. intros. by apply key_user_ne.
  - apply accounts_put; [done|]. left. intros u E.
    apply (f_equal (fun l => getn l 1)) in E. discriminate E.
  - unfold logunique. repeat case_match; exact I.
  - by apply accounts_login.
  - by apply accounts_setTmpPwd.
  - by rewrite changePwd_default.
  - by rewrite changeAcl_default.
  - apply accounts_put; auto.
  - apply accounts_del, I.
  - unfold writeSrc. case_match; [|done]. apply accounts_put; [done|]. left. intros. apply key_user_src.
  - unfold writeSrc_user. case_match; [|done]. apply accounts_put; [done|]. left. intros. apply key_user_src.
  - unfold delSrc. case_match; [|done]. apply accounts_del, I.
  - unfold delSrc_user. case_match; [|done]. apply accounts_del, I.
  - unfold netReg_run. destruct (if _ =? _ then _ else _) as [reg' s'].
    destruct (negb (netReg_check _ _ _ _)); [exact I|]. cbn [fst].
    apply accounts_setTmpPwd. destruct (negb (userExist _ _)); [apply accounts_put; auto|done].
Qed.

Lemma accounts_steps db db' : rtc ysdb_op db db' -> accounts_default db -> accounts_default db'.
Proof. induction 1 as [|db1 db2 db3 S1 _ IH]; [done|]. intros I. by apply IH, (accounts_step _ _ S1). Qed.

(** From a database in which no account was edited by other means, no
    sequence of operations ever changes an account: every record stays the
    48-character default, because [changePwd] and [changeAcl] ask for
    [sizeof(defaultUserInfo)] = 49 characters and always refuse; so whoever logs
    in gets a record whose permission characters (positions 16 on) are never
    ['t'], and no request that needs a permission can pass. *)
Lemma accounts_never_change db db' :
  accounts_default db -> rtc ysdb_op db db' ->
  accounts_default db' /\
  (forall uid pwd, changePwd db' uid pwd = (false, db')) /\
  (forall uid acl, changeAcl db' uid acl = (false, db')) /\
  (forall now uid pwd v v' db'', login db' now uid pwd v = (true, v', db'') ->
     v' = defaultUserInfo /\ forall i, (16 <= i)%nat -> getn v' i <> c_t).
Proof.
  intros I St. assert (I' : accounts_default db') by by apply (accounts_steps db).
  split; [done|]. split; [by intros; apply changePwd_default|].
  split; [by intros; apply changeAcl_default|]. intros now uid pwd v v' db'' E.
  pose proof (accounts_login db' now uid pwd v I') as [_ L]. rewrite E in L. cbn [fst snd] in L.
  split; [by apply L|]. rewrite L by done. intros i _. apply defaultUserInfo_no_t.
Qed.

(** ** The replay log *)

Lemma sprintf_d_nonempty v : sprintf_d v <> [].
Proof. unfold sprintf_d. destruct (v <? 0); [done|]. apply to_dec_nonempty. lia. Qed.

Lemma logunique_logged db now uid lid :
  lid <> 0 -> uniqueExist (snd (logunique db now uid lid)) uid lid = true /\
  fst (logunique db now uid lid) = negb (uniqueExist db uid lid).
Proof.
  intros Hl. unfold logunique, uniqueExist. apply Z.eqb_neq in Hl. rewrite Hl.
  destruct (Get (unique db) (unique_key uid lid) []) as [ok v] eqn:G.
  destruct (ok && negb (is_empty v)) eqn:E; cbn [fst snd].
  - rewrite G. auto.
  - split; [|done]. unfold Get. cbn [unique with_unique]. rewrite kv_get_put, decide_True by done.
    destruct (sprintf_d now) eqn:S; [by destruct (sprintf_d_nonempty now)|done].
Qed.

Lemma logunique_mono db now u l uid lid :
  uniqueExist db uid lid = true -> uniqueExist (snd (logunique db now u l)) uid lid = true.
Proof.
  unfold logunique, uniqueExist. destruct (lid =? 0); [done|]. intros E.
  destruct (l =? 0); [done|]. destruct (Get (unique db) (unique_key u l) []) as [ok v].
  destruct (ok && negb (is_empty v)); [done|]. unfold Get in *. cbn [snd unique with_unique].
  rewrite kv_get_put. destruct (decide (unique_key u l = unique_key uid lid)); [|done].
  destruct (sprintf_d now) eqn:S; [by destruct (sprintf_d_nonempty now)|done].
Qed.

(** Only [logunique] changes the log. *)
Lemma unique_changes db db' : ysdb_op db db' ->
  unique db' = unique db \/ exists now uid lid, db' = snd (logunique db now uid lid).
Proof.
  intros St. destruct St; try (left; reflexivity); try (right; by do 3 eexists); left.
  - unfold liveRemove. by case_match.
  - unfold login. destruct (Get _ (key_user_tmp _) _), (Get _ (key_user _) _). by repeat case_match.
  - unfold setTmpPwd. by case_match.
  - unfold changePwd. case_match; [done|]. destruct (Get _ _ _). by repeat case_match.
  - unfold changeAcl. case_match; [done|]. destruct (Get _ _ _). by repeat case_match.
  - unfold writeSrc. by case_match.
  - unfold writeSrc_user. by case_match.
  - unfold delSrc. by case_match.
  - unfold delSrc_user. by case_match.
  - unfold netReg_run. destruct (if _ =? _ then _ else _). case_match; [done|].
    unfold setTmpPwd. destruct (negb (all16 _)); cbn; by case_match.
Qed.

Lemma unique_step db db' uid lid :
  ysdb_op db db' -> uniqueExist db uid lid = true -> uniqueExist db' uid lid = true.
Proof.
  intros [E|(now & u & l & ->)]%unique_changes; [|apply logunique_mono].
  unfold uniqueExist. by rewrite E.
Qed.

(** C15. A request number other than 0 is accepted once: [logunique] accepts it
    exactly when it is not in the log, and after that refuses it whatever operations
    of the database follow, up to the next clean-up of the log (which is no operation
    of the database: [LuaApi.replay_window] says what it deletes); the numbers of
    other requests, and of other users, are logged apart. *)
Theorem logunique_replay db now uid lid :
  lid <> 0 ->
  let '(ok, db1) := logunique db now uid lid in
  ok = negb (uniqueExist db uid lid) /\
  (forall db2 now', rtc ysdb_op db1 db2 -> logunique db2 now' uid lid = (false, db2)) /\
  (forall uid' lid', - 2 ^ 31 <= uid < 2 ^ 31 -> - 2 ^ 31 <= uid' < 2 ^ 31 ->
     - 2 ^ 31 <= lid < 2 ^ 31 -> - 2 ^ 31 <= lid' < 2 ^ 31 -> (uid', lid') <> (uid, lid) ->
     uniqueExist db1 uid' lid' = uniqueExist db uid' lid').
Proof.
  intros Hl. destruct (logunique_logged db now uid lid Hl) as [L1 L2].
  destruct (logunique db now uid lid) as [ok db1] eqn:E. cbn [fst snd] in L1, L2.
  split; [done|]. split.
  - intros db2 now' St. assert (L : uniqueExist db2 uid lid = true).
    { clear E L2. induction St as [|a b c S1 _ IH]; [done|]. by apply IH, (unique_step _ _ _ _ S1). }
    revert L. unfold uniqueExist, logunique. destruct (lid =? 0); [done|].
    destruct (Get _ _ _) as [ok' v]. by intros ->.
  - intros uid' lid' Hu Hu' Hlid Hlid' N. revert E. unfold logunique, uniqueExist.
    destruct (lid =? 0); [by intros [= <- <-]|]. destruct (Get (unique db) (unique_key uid lid) []) as [o v].
    destruct (o && negb (is_empty v)); intros [= <- <-]; [done|].
    destruct (lid' =? 0); [done|]. unfold Get. cbn [unique with_unique]. rewrite kv_get_put.
    destruct (decide (unique_key uid lid = unique_key uid' lid')) as [X|]; [|done].
    apply unique_key_inj in X as [-> ->]; done.
Qed.

(** ** Sources *)

Lemma all16_first s : all16 s = true -> Forall (fun x => x <> 0) (first 16 s).
Proof.
  unfold all16, first. intros A. apply List.Forall_forall. intros x Hx.
  apply in_map_iff in Hx as (i & <- & Hi). rewrite forallb_forall in A. apply A in Hi.
  by rewrite negb_true_iff, Z.eqb_neq in Hi.
Qed.

Lemma c_str_id l : Forall (fun x => x <> 0) l -> c_str l = l.
Proof.
  induction 1 as [|x l Hx _ IH]; [done|]. simpl. apply Z.eqb_neq in Hx. by rewrite Hx, IH.
Qed.

(** A common source is read back as the C string that was written, is gone
    after [delSrc], and neither operation is seen through a name whose first
    eight characters differ; but names that agree on eight of their sixteen
    characters are the same source. *)
Lemma source_roundtrip db n x :
  all16 n = true ->
  let db1 := snd (writeSrc db n x) in
  fst (writeSrc db n x) = true /\ readSrc db1 n [] = (true, c_str x) /\
  (existSrc db1 n = negb (is_empty (c_str x))) /\
  fst (readSrc (snd (delSrc db1 n)) n []) = false /\
  (forall n' v, all16 n' = true ->
     (first 8 n' = first 8 n -> readSrc db1 n' v = (true, c_str x)) /\
     (first 8 n' <> first 8 n -> readSrc db1 n' v = readSrc db n' v)).
Proof.
  intros A. unfold existSrc, readSrc, writeSrc, delSrc, getSrcName, Get. rewrite A. cbn [negb snd fst].
  rewrite get_ldata_del, !get_ldata_put, !decide_True by done.
  split; [done|]. split; [done|]. split; [done|]. split; [done|].
  intros n' v A'. rewrite A'. cbn [negb]. rewrite get_ldata_put. split.
  - intros ->. by rewrite decide_True.
  - intros N. rewrite decide_False; [done|]. intros X. by apply app_inv_head in X.
Qed.

(** A user's own source is stored under a name that does not depend on the
    user: with the same uninitialised stack bytes two users read and overwrite
    one entry, whose name starts with those bytes. *)
Lemma own_source_shared db n x out uid uid' :
  all16 n = true -> length out = 17%nat ->
  kv_get (ldata db) (srcpre ++ first 8 n) <> None ->
  Forall (fun b => b <> 0) (take 8 out) ->
  let db1 := snd (writeSrc_user db n uid x out) in
  kv_get (ldata db1) (srcpre ++ take 8 out ++ first 8 n) = Some (c_str x) /\
  readSrc_user db1 n uid' [] out = (true, c_str x).
Proof.
  intros A L K J. unfold writeSrc_user, readSrc_user, own_name, getSrcName, getSrcName_user, Get.
  rewrite A. cbn [negb]. destruct (kv_get (ldata db) (srcpre ++ first 8 n)) as [v|] eqn:Ev; [|done].
  assert (N : c_str (setn (for_ 0 8 (fun i out => setn out (i + 8) (getn n i)) out) 16 0)
              = take 8 out ++ first 8 n).
  { do 17 (destruct out as [|? out]; [discriminate L|]). destruct out; [|discriminate L].
    assert (F8 : Forall (fun x => x <> 0) (first 8 n)).
    { pose proof (all16_first n A) as F. change 16%nat with (8 + 8)%nat in F.
      unfold first in *. rewrite seq_app, map_app in F. by apply Forall_app in F as [? _]. }
    match goal with |- c_str ?l = ?r => change l with (r ++ [0]) end.
    rewrite c_str_app; [apply app_nil_r|]. apply c_str_id, Forall_app. auto. }
  cbv zeta. rewrite N. cbn [snd]. rewrite !get_ldata_put, !decide_True by done. split; [done|].
  case_decide; by rewrite ?Ev, get_ldata_put, decide_True.
Qed.

(** ** Keys *)

Lemma copy16 (data key rest : list Z) :
  length data = 16%nat -> length key = 16%nat ->
  for_ 0 16 (fun i data => setn data i (getn (key ++ rest) i)) data = key.
Proof.
  intros L1 L2. do 16 (destruct data as [|? data]; [discriminate L1|]).
  destruct data; [|discriminate L1]. do 16 (destruct key as [|? key]; [discriminate L2|]).
  destruct key; [|discriminate L2]. reflexivity.
Qed.

(** The AES key a client agreed on is what [getkey] later returns for that
    user: [setkey] stores its base64 text, whose 24 characters and NUL fit the
    32-byte buffer, and reading it back gives the 16 bytes. *)
Lemma getkey_setkey db uid key k0 buf :
  bytes_ok key -> length key = 16%nat -> length k0 = 16%nat ->
  getkey (setkey db uid key) uid k0 buf = (true, key) /\
  (length (aesblock_tobase64 key) <= 32)%nat.
Proof.
  intros Hb Hl Hl0. unfold getkey, setkey. rewrite get_ldata_put, decide_True by done.
  pose proof (encode_nonzero key Hb) as Nz. pose proof (length_encode key) as Le.
  rewrite Hl in Le. change (4 * ((Z.of_nat 16 + 2) / 3)) with 24 in Le.
  unfold aesblock_tobase64. rewrite c_str_app by (by apply c_str_id). simpl (c_str [0]).
  rewrite app_nil_r. destruct (Nat.ltb_spec (length (encode key)) 16); [lia|].
  split; [|rewrite length_app; simpl; lia]. f_equal. unfold aesblock_getbase64.
  rewrite !(c_str_id (encode key)) by done. destruct (Nat.ltb_spec 64 (length (encode key))); [lia|].
  pose proof (decode_encode key Hb) as De. unfold decode in De.
  destruct (decode_loop (encode key) decode_init) as [d|] eqn:E; [|discriminate].
  rewrite (decode_written_loop _ _ _ E). injection De as ->. by apply copy16.
Qed.

(** ** Registration *)

Lemma netReg_run_eq computekey verify signers db reg now s :
  netReg_run computekey verify signers db reg now s
  = if negb (netReg_check verify signers reg now) then (db, s)
    else
      let uid := get_n32 reg r_uid in
      let db := if negb (userExist db uid) then newUser db uid else db in
      (snd (setTmpPwd db uid (drop r_pwd reg)), s).
Proof. unfold netReg_run, netReg_encrypt. destruct (get8 reg r_crypt =? c_t); done. Qed.

Lemma same_pwd_first pwd : all16 pwd = true -> same_pwd pwd (first 16 pwd).
Proof.
  intros A. unfold same_pwd. change (first 16 (first 16 pwd)) with (first 16 pwd).
  rewrite (c_str_id _ (all16_first pwd A)). split; [done|]. simpl. lia.
Qed.

(** A registration changes the database only when some trusted key verifies
    the signature, its time is within an hour and its signature length is at
    most 1024; then the user exists, an existing record is kept, a password
    without NUL is accepted by the next [login], and no entry but the user's
    record and temporary password changes. *)
Lemma netReg_run_spec computekey verify signers db reg now s :
  let uid := get_n32 reg r_uid in
  let pwd := drop r_pwd reg in
  let db' := fst (netReg_run computekey verify signers db reg now s) in
  (db' <> db ->
     (exists k, k ∈ signers /\
        verify k (take 20 (load reg r_data sizeof_netReg_data)) (load reg r_sign 1024)
          (s32 (get_n32 reg r_slen)) = true) /\
     get_n32 reg r_slen <= 1024 /\ s32 (Z.abs (s32 (get_n32 reg r_tm - now))) <= 3600) /\
  (netReg_check verify signers reg now = true ->
     userExist db' uid = true /\
     (userExist db uid = true ->
        kv_get (ldata db') (key_user uid) = kv_get (ldata db) (key_user uid)) /\
     (all16 pwd = true -> forall now_txt v, fst (fst (login db' now_txt uid pwd v)) = true)) /\
  (forall k, k <> key_user uid -> k <> key_user_tmp uid ->
     kv_get (ldata db') k = kv_get (ldata db) k).
Proof.
  intros uid pwd db'. unfold db'. rewrite netReg_run_eq. fold uid pwd. cbv zeta.
  set (dbn := if negb (userExist db uid) then newUser db uid else db).
  assert (Hn : forall k, k <> key_user uid -> kv_get (ldata dbn) k = kv_get (ldata db) k).
  { intros k Hk. unfold dbn. destruct (negb _); [|done]. unfold newUser.
    rewrite get_ldata_put. by rewrite decide_False. }
  assert (Hk : forall k, k <> key_user_tmp uid ->
    kv_get (ldata (snd (setTmpPwd dbn uid pwd))) k = kv_get (ldata dbn) k).
  { intros k Hk. unfold setTmpPwd. destruct (negb (all16 pwd)); [done|]. cbn [snd].
    rewrite get_ldata_put. by rewrite decide_False. }
  destruct (netReg_check verify signers reg now) eqn:C; cbn [negb fst]; [|done].
  assert (Ex : exists r, kv_get (ldata dbn) (key_user uid) = Some r /\ r <> [] /\
                 (userExist db uid = true -> kv_get (ldata db) (key_user uid) = Some r)).
  { unfold dbn, userExist, Get. destruct (kv_get (ldata db) (key_user uid)) as [[|x r]|] eqn:E;
      cbn [andb is_empty negb].
    1, 3: exists defaultUserInfo; unfold newUser; by rewrite get_ldata_put, decide_True.
    exists (x :: r). by rewrite E. }
  destruct Ex as (r & Er & Nr & Kr).
  assert (Nk : key_user uid <> key_user_tmp uid) by apply key_user_ne.
  split; [|split; [|intros k K1 K2; by rewrite Hk, Hn]].
  - intros _. unfold netReg_check in C.
    destruct (Z.ltb_spec 1024 (get_n32 reg r_slen)); [discriminate|].
    destruct (Z.ltb_spec 3600 (s32 (Z.abs (s32 (get_n32 reg r_tm - now))))); [discriminate|].
    split; [|lia]. apply existsb_exists in C as (k & Hin & Hv).
    exists k. split; [by apply list_elem_of_In|done].
  - intros _. split; [|split].
    + unfold userExist, Get. rewrite Hk, Er by done. by destruct r.
    + intros U. rewrite Hk, Er by done. symmetry. by apply Kr.
    + intros A now_txt v. unfold login, Get. rewrite (Hk _ Nk), Er.
      unfold setTmpPwd. rewrite A. cbn [negb snd]. rewrite get_ldata_put, decide_True by done.
      replace (pwd_match 16 0 pwd (first 16 pwd)) with true; [done|].
      symmetry. by apply pwd_match_same, same_pwd_first.
Qed.
End Properties.

(** ** The live list *)

(** The addresses the program stores: a 32-bit word and a [short]. *)
Definition location_ok (l : location) : Prop :=
  0 <= l_ip l < 2 ^ 32 /\ - 2 ^ 15 <= l_port l < 2 ^ 15.

Lemma s64_shift x : 0 <= x < 2 ^ 32 -> s64 (x * 2 ^ 32) = s32 x * 2 ^ 32.
Proof.
  unfold s64, s32. intros. change (2 ^ 64) with 18446744073709551616.
  change (2 ^ 63) with 9223372036854775808. change (2 ^ 32) with 4294967296 in *.
  change (2 ^ 31) with 2147483648. Z.div_mod_to_equations; lia.
Qed.

Lemma tolongnum_val l : location_ok l ->
  tolongnum l = s32 (l_ip l) * 2 ^ 32 + l_port l mod 2 ^ 32.
Proof.
  intros [Hi Hp]. unfold tolongnum. change 0xffffffff with (2 ^ 32 - 1).
  rewrite !land_ones_mod by lia. rewrite (Z.mod_small (l_ip l)) by done.
  rewrite Z.shiftl_mul_pow2, s64_shift by lia.
  pose proof (Z.mod_pos_bound (l_port l) (2 ^ 32)). pose proof (s32_range (l_ip l)).
  rewrite <- Z.shiftl_mul_pow2 by lia. rewrite lor_shiftl_add, Z.shiftl_mul_pow2 by lia.
  unfold s64. change (2 ^ 64) with 18446744073709551616.
  change (2 ^ 63) with 9223372036854775808. change (2 ^ 32) with 4294967296 in *.
  change (2 ^ 31) with 2147483648 in *. rewrite Z.mod_small; lia.
Qed.

Lemma tolongnum_inj a b : location_ok a -> location_ok b -> tolongnum a = tolongnum b -> a = b.
Proof.
  intros Ha Hb. rewrite !tolongnum_val by done. destruct Ha as [Ha1 Ha2], Hb as [Hb1 Hb2].
  destruct a as [ai ap], b as [bi bp]. cbn [l_ip l_port] in *. unfold s32.
  change (2 ^ 32) with 4294967296 in *. change (2 ^ 31) with 2147483648.
  change (2 ^ 15) with 32768 in *. intros E.
  pose proof (Z.mod_pos_bound ap 4294967296). pose proof (Z.mod_pos_bound bp 4294967296).
  assert (E1 : ap mod 4294967296 = bp mod 4294967296) by lia.
  assert (E2 : (ai + 2147483648) mod 4294967296 = (bi + 2147483648) mod 4294967296) by lia.
  f_equal; Z.div_mod_to_equations; lia.
Qed.

(** The invariant of [livelist]: well-formed addresses in strictly increasing
    order, so none twice. *)
Definition live_ok (l : list location) : Prop :=
  Forall location_ok l /\ StronglySorted (fun a b => tolongnum a < tolongnum b) l.

Lemma live_ok_cons y l : live_ok (y :: l) <->
  location_ok y /\ live_ok l /\ Forall (fun b => tolongnum y < tolongnum b) l.
Proof.
  unfold live_ok. rewrite Forall_cons_iff. split.
  - intros [[? ?] S]. inversion S; subst. auto.
  - intros (? & [? ?] & ?). split; [done|]. by constructor.
Qed.

Lemma location_ltb_spec a b : reflect (tolongnum a < tolongnum b) (location_ltb a b).
Proof. apply Z.ltb_spec0. Qed.

(** Positions found by the comparisons of the set operations. *)
Lemma set_insert_ok x l :
  location_ok x -> live_ok l -> live_ok (set_insert x l) /\
  (forall z, z ∈ set_insert x l <-> z = x \/ z ∈ l).
Proof.
  intros Hx. induction l as [|y l IH]; intros Hl; cbn [set_insert].
  - split; [apply live_ok_cons; split; [done|split; [done|constructor]]|].
    intros z. rewrite list_elem_of_singleton.
    split; [auto|]. by intros [?|?%not_elem_of_nil].
  - apply live_ok_cons in Hl as (Hy & Hl & Hlt).
    destruct (location_ltb_spec x y) as [L1|L1]; [|destruct (location_ltb_spec y x) as [L2|L2]].
    + split; [|intros z; by rewrite elem_of_cons].
      apply live_ok_cons. split; [done|]. split; [by apply live_ok_cons|].
      constructor; [done|]. eapply Forall_impl; [|exact Hlt]. cbv beta. lia.
    + destruct (IH Hl) as [IH1 IH2]. split.
      * apply live_ok_cons. split; [done|]. split; [done|]. apply List.Forall_forall. intros z Hz.
        apply list_elem_of_In, IH2 in Hz as [-> |Hz]; [done|].
        rewrite List.Forall_forall in Hlt. apply Hlt. by apply list_elem_of_In.
      * intros z. rewrite !elem_of_cons, IH2. tauto.
    + assert (x = y) as -> by (apply tolongnum_inj; [done|done|lia]).
      split; [by apply live_ok_cons|]. intros z. rewrite elem_of_cons. tauto.
Qed.

Lemma live_lt_notin x l :
  Forall (fun b => tolongnum x < tolongnum b) l -> x ∉ l.
Proof.
  intros F Hx. rewrite List.Forall_forall in F. apply list_elem_of_In in Hx. apply F in Hx. lia.
Qed.

Lemma set_mem_ok x l : location_ok x -> live_ok l -> set_mem x l = true <-> x ∈ l.
Proof.
  intros Hx. induction l as [|y l IH]; intros Hl; cbn [set_mem].
  - split; [done|]. by intros ?%not_elem_of_nil.
  - apply live_ok_cons in Hl as (Hy & Hl & Hlt). rewrite elem_of_cons.
    destruct (location_ltb_spec x y) as [L1|L1]; [|destruct (location_ltb_spec y x) as [L2|L2]].
    + split; [done|]. intros [-> |Hin]; [lia|]. exfalso. revert Hin. apply live_lt_notin.
      eapply Forall_impl; [|exact Hlt]. cbv beta. lia.
    + rewrite IH by done. split; [auto|]. intros [-> |?]; [lia|done].
    + split; [|done]. intros _. left. apply tolongnum_inj; [done|done|lia].
Qed.

Lemma set_erase_ok x l :
  location_ok x -> live_ok l -> live_ok (set_erase x l) /\
  (forall z, z ∈ set_erase x l <-> z <> x /\ z ∈ l).
Proof.
  intros Hx. induction l as [|y l IH]; intros Hl; cbn [set_erase].
  - split; [done|]. intros z. split; [by intros ?%not_elem_of_nil|by intros [_ ?%not_elem_of_nil]].
  - pose proof Hl as Hyl. apply live_ok_cons in Hl as (Hy & Hl & Hlt).
    destruct (location_ltb_spec x y) as [L1|L1]; [|destruct (location_ltb_spec y x) as [L2|L2]].
    + split; [done|]. intros z. split; [|by intros [_ ?]]. intros Hz. split; [|done]. intros ->.
      revert Hz. apply live_lt_notin. constructor; [done|].
      eapply Forall_impl; [|exact Hlt]. cbv beta. lia.
    + destruct (IH Hl) as [IH1 IH2]. split.
      * apply live_ok_cons. split; [done|]. split; [done|]. apply List.Forall_forall. intros z Hz.
        apply list_elem_of_In, IH2 in Hz as [_ Hz].
        rewrite List.Forall_forall in Hlt. apply Hlt. by apply list_elem_of_In.
      * intros z. rewrite !elem_of_cons, IH2. split; [|tauto].
        intros [-> |[? ?]]; [|tauto]. split; [|by left]. intros ->. lia.
    + assert (x = y) as -> by (apply tolongnum_inj; [done|done|lia]).
      split; [done|]. intros z. rewrite elem_of_cons. split; [|tauto].
      intros Hz. split; [|by right]. intros ->. revert Hz. by apply live_lt_notin.
Qed.

Section LiveList.
Context {D : Type} `{KV D}.

(** The live list is a set: with well-formed addresses it stays sorted and
    without repetitions, [liveAdd] adds exactly the address, [liveRemove] removes
    exactly it, and [live] calls back each member once, in address order. *)
Lemma livelist_set (db : ysdb D) a :
  live_ok (livelist db) -> location_ok a ->
  live_ok (livelist (liveAdd db a)) /\ live_ok (livelist (liveRemove db a)) /\
  (forall z, z ∈ livelist (liveAdd db a) <-> z = a \/ z ∈ livelist db) /\
  (forall z, z ∈ livelist (liveRemove db a) <-> z <> a /\ z ∈ livelist db) /\
  NoDup (live db cons []) /\ (forall z, z ∈ live db cons [] <-> z ∈ livelist db).
Proof.
  intros Hl Ha. destruct (set_insert_ok a _ Ha Hl) as [I1 I2], (set_erase_ok a _ Ha Hl) as [E1 E2].
  split; [exact I1|]. split; [|split; [exact I2|split]].
  - unfold liveRemove. by destruct (set_mem a (livelist db)).
  - intros z. unfold liveRemove. destruct (set_mem a (livelist db)) eqn:M; [apply E2|].
    split; [|tauto]. intros Hz. split; [|done]. intros ->. apply (set_mem_ok a _ Ha Hl) in Hz. congruence.
  - assert (R : live db cons [] = rev (livelist db)).
    { unfold live. change (fun t l => l :: t) with (fun (x : list location) y => y :: x).
      rewrite <- fold_left_rev_right. rewrite <- (app_nil_r (rev (livelist db))) at 2.
      generalize (rev (livelist db)) ([] : list location). intros l k.
      induction l; simpl; congruence. }
    rewrite R. split.
    + apply NoDup_ListNoDup, NoDup_rev. clear - Hl. revert Hl. generalize (livelist db) as l.
      induction l as [|y l IH]; intros Hl; constructor.
      * apply live_ok_cons in Hl as (_ & _ & Hlt). intros Hy. revert Hlt.
        intros F. apply (live_lt_notin y l F). by apply list_elem_of_In.
      * apply IH. by apply live_ok_cons in Hl as (_ & ? & _).
    + intros z. rewrite !list_elem_of_In. apply iff_sym, in_rev.
Qed.
End LiveList.

(** ** Witnesses, on a database kept in a finite map *)

Definition gdb : Type := gmap (list Z) (list Z).
Definition empty_db : ysdb gdb := mk_ysdb ∅ ∅ [] ∅.

Lemma accounts_never_change_witness :
  accounts_default (newUser empty_db 7) /\
  (forall uid pwd, changePwd (newUser empty_db 7) uid pwd = (false, newUser empty_db 7)).
Proof.
  destruct (accounts_never_change empty_db (newUser empty_db 7)) as (A & B & _).
  - intros uid. left. reflexivity.
  - apply rtc_once. constructor.
  - split; [exact A|exact B].
Defined.

Lemma logunique_replay_witness :
  let '(ok, db1) := logunique empty_db 5 7 9 in
  ok = negb (uniqueExist empty_db 7 9) /\
  (forall db2 now', rtc ysdb_op db1 db2 -> logunique db2 now' 7 9 = (false, db2)) /\
  (forall uid' lid', - 2 ^ 31 <= 7 < 2 ^ 31 -> - 2 ^ 31 <= uid' < 2 ^ 31 ->
     - 2 ^ 31 <= 9 < 2 ^ 31 -> - 2 ^ 31 <= lid' < 2 ^ 31 -> (uid', lid') <> (7, 9) ->
     uniqueExist db1 uid' lid' = uniqueExist empty_db uid' lid').
Proof. apply (logunique_replay empty_db 5 7 9). lia. Defined.

Lemma source_roundtrip_witness :
  readSrc (snd (writeSrc empty_db (lit "abcdefghijklmnop") (lit "file"))) (lit "abcdefghijklmnop") []
  = (true, c_str (lit "file")).
Proof.
  destruct (source_roundtrip empty_db (lit "abcdefghijklmnop") (lit "file")) as (_ & E & _).
  - reflexivity.
  - exact E.
Defined.

Lemma own_source_shared_witness :
  let db := snd (writeSrc empty_db (lit "abcdefghijklmnop") (lit "f")) in
  let out := replicate 17 90 in
  readSrc_user (snd (writeSrc_user db (lit "abcdefghijklmnop") 1 (lit "g") out))
    (lit "abcdefghijklmnop") 2 [] out = (true, c_str (lit "g")).
Proof.
  apply (own_source_shared (snd (writeSrc empty_db (lit "abcdefghijklmnop") (lit "f")))
           (lit "abcdefghijklmnop") (lit "g") (replicate 17 90) 1 2).
  - reflexivity.
  - reflexivity.
  - vm_compute. discriminate.
  - repeat constructor; discriminate.
Defined.

Lemma getkey_setkey_witness :
  getkey (setkey empty_db 3 (replicate 16 200%Z)) 3 (replicate 16 0) (replicate 64 1)
  = (true, replicate 16 200%Z) /\ (length (aesblock_tobase64 (replicate 16 200%Z)) <= 32)%nat.
Proof.
  apply (getkey_setkey empty_db 3 (replicate 16 200) (replicate 16 0) (replicate 64 1)).
  - apply Forall_replicate. unfold byte_ok. lia.
  - reflexivity.
  - reflexivity.
Defined.

Lemma livelist_set_witness :
  live_ok (livelist (liveAdd (empty_db : ysdb gdb) (mk_location 5 80))).
Proof.
  apply (livelist_set empty_db (mk_location 5 80)).
  - split; constructor.
  - split; cbn; lia.
Defined.
