(* ===== verification/Connection.v ===== *)
(** * Connection: the server side of core/ysconnection.hpp

    [run] is the request handler of [ysConnection] (and of [Server], which does
    not override it).  A datagram is the [netSource]-sized buffer it was received
    into, as a list of bytes; what the handler does to the outside is the list of
    [event]s it returns.  An [env] fixes, for one request, what lies outside the
    program: the clock, the network's answer to [p2pconnect], the file system,
    OpenSSL, the Lua script, and the bytes uninitialised locals hold.  Locks make
    one request one step. *)

From stdpp Require Import gmap relations.
From S2P Require Import Prelude Aes NInt Base64 Hash Func Text Packet Crypt YsDB.

(** ** The state *)

Record server (D : Type) := mk_server {
  sv_db : ysdb D;
  parIP : Z;
  parPort : Z;
  ipstack : list location;
  myuserid : Z;
  mypassword : list Z;          (** 17 bytes, the last one 0 *)
  num : Z;                      (** [static int num] of [run] *)
  dh_pubkey : list Z;           (** [DH.pubkey] *)
  sv_aes : aes_st
}.
Arguments mk_server {D}.
Arguments sv_db {D}.
Arguments parIP {D}.
Arguments parPort {D}.
Arguments ipstack {D}.
Arguments myuserid {D}.
Arguments mypassword {D}.
Arguments num {D}.
Arguments dh_pubkey {D}.
Arguments sv_aes {D}.

Inductive event :=
  | Send (ip port : Z) (data : list Z)
  | P2P (ip port : Z)                       (** the packets and the wait of [p2pconnect] *)
  | CreateFile (name : list Z)
  | AppendFile (name data : list Z)
  | RemoveFile (name : list Z)
  | System (command : list Z).

(** [Throws]: [std::string::at] past the end, which nothing catches. *)
Inductive outcome := Ret (b : bool) | Throws.

(** [AllowShell] of global.hpp, and the outside world during one request. *)
Record env (D : Type) := mk_env {
  AllowShell : bool;
  now_s : Z;                                (** [nowtime_s()] *)
  p2p_answer : Z -> Z -> bool;              (** [p2pconnect] reaches the address *)
  remove_fails : list Z -> bool;            (** [remove(path) == -1] *)
  read_file : list Z -> Z -> Z * list Z;    (** value of [readfile], and [source] after it *)
  computekey : list Z -> list Z;            (** the 33 bytes [computekey] leaves for a peer key *)
  fresh_pubkey : list Z;                    (** the public key [Key::init] generates *)
  sign_data : list Z -> list Z;
  verify : list Z -> list Z -> list Z -> Z -> bool;
  signers : list (list Z);
  plus : server D -> list Z -> list Z -> server D * list Z * list event;
    (** the script, from the query and the user's record: it has the whole API *)
  j_respk : list Z;                         (** uninitialised locals: [respk], *)
  j_key : list Z;                           (** [key], *)
  j_buf : list Z;                           (** [buf] of [getbase64], *)
  j_name : list Z;                          (** [name] of the own-source operations, *)
  j_time : list Z;                          (** the bytes [time] happens to point at, *)
  j_ptr : list Z                            (** and the value of the pointer [respk] *)
}.
Arguments AllowShell {D}.
Arguments now_s {D}.
Arguments p2p_answer {D}.
Arguments remove_fails {D}.
Arguments read_file {D}.
Arguments computekey {D}.
Arguments fresh_pubkey {D}.
Arguments sign_data {D}.
Arguments verify {D}.
Arguments signers {D}.
Arguments plus {D}.
Arguments j_respk {D}.
Arguments j_key {D}.
Arguments j_buf {D}.
Arguments j_name {D}.
Arguments j_time {D}.
Arguments j_ptr {D}.

(** [struct Key::netSendkey]: siglen, sign, pubkey *)
Definition netSendkey : list (nat * nat) := [c_int32; c_chars 1024; c_chars ECDH_SIZE].
Definition sizeof_netSendkey : nat := sizeof_struct netSendkey 4.

Section Connection.
Context {D : Type} `{KV D}.
Implicit Types sv : server D.
Implicit Types e : env D.

Definition with_db sv db : server D :=
  mk_server db (parIP sv) (parPort sv) (ipstack sv) (myuserid sv) (mypassword sv) (num sv)
    (dh_pubkey sv) (sv_aes sv).
Definition with_parent sv ip port st : server D :=
  mk_server (sv_db sv) ip port st (myuserid sv) (mypassword sv) (num sv) (dh_pubkey sv) (sv_aes sv).
Definition with_num sv n : server D :=
  mk_server (sv_db sv) (parIP sv) (parPort sv) (ipstack sv) (myuserid sv) (mypassword sv) n
    (dh_pubkey sv) (sv_aes sv).
Definition with_pubkey sv k : server D :=
  mk_server (sv_db sv) (parIP sv) (parPort sv) (ipstack sv) (myuserid sv) (mypassword sv) (num sv)
    k (sv_aes sv).
Definition with_aes sv s : server D :=
  mk_server (sv_db sv) (parIP sv) (parPort sv) (ipstack sv) (myuserid sv) (mypassword sv) (num sv)
    (dh_pubkey sv) s.

Definition handled : Type := outcome * server D * list event.

(** ** Replies *)

(** [for(int i=0;i<16;i++) to[i]=from[i];] *)
Definition copy_bytes (n : nat) (data : list Z) (off : nat) (from : list Z) : list Z :=
  for_ 0 n (fun i data => setn data (off + i) (getn from i)) data.

Definition reply sv (mode : Z) : list Z :=
  let data := bzero sizeof_netQuery in
  let data := set_n32 data o_userid (myuserid sv) in
  let data := copy_bytes 16 data o_password (mypassword sv) in
  set8 data o_mode mode.

(** [uq] is not used. *)
Definition succeed sv (to port uq : Z) : event := Send to port (reply sv _SUCCEED).
Definition fail sv (to port uq : Z) : event := Send to port (reply sv _FAIL).

Definition checkInParent (userid : Z) (password : list Z) : bool := false.

(** One turn of the loop after another on the same [qypk]: the asked user's
    address to the asker, then the asker's to the asked user. *)
Fixpoint connectUser_turns (n : nat) (ab pb from port : Z) (qypk : list Z) : list event :=
  match n with
  | O => []
  | S n =>
      let qypk := set8 qypk o_mode _P2PCONNECT in
      let qypk := set_i32 qypk o_addr ab in
      let q1 := set_n32 qypk o_num1 pb in
      let qypk := set8 q1 o_mode _P2PCONNECT_C in
      let qypk := set_i32 qypk o_addr from in
      let q2 := set_n32 qypk o_num1 port in
      Send from port q1 :: Send ab pb q2 :: connectUser_turns n ab pb from port q2
  end.

Definition connectUser sv (uid from port : Z) : list event :=
  let '(_, (ab, pb)) := getUserIP (sv_db sv) uid in
  connectUser_turns 8 ab pb from port (bzero sizeof_netQuery).

(** ** The parent server and the stack of former ones *)

Definition pushParent sv (addr port : Z) : server D :=
  with_parent sv addr port (mk_location (parIP sv) (parPort sv) :: ipstack sv).

(** When the address cannot be reached, [iplocker] stays locked. *)
Definition changeParentServer e sv (addr port : Z) : bool * server D * list event :=
  if p2p_answer e addr port then (true, pushParent sv addr port, [P2P addr port])
  else (false, sv, [P2P addr port]).

Definition goLast sv : bool * server D :=
  match ipstack sv with
  | [] => (false, sv)
  | lc :: st => (true, with_parent sv (l_ip lc) (l_port lc) st)
  end.

(** ** Live sources *)

(** [send(..., &respk, sizeof(respk))] on the pointer parameter: 8 bytes. *)
Definition livesrc e sv : list event :=
  flat_map (fun l => replicate 4 (Send (l_ip l) (l_port l) (j_ptr e))) (livelist (sv_db sv)).

(** ** One request: after the common prologue *)

(** The datagram, who sent it, whether it was encrypted and its key, the user's
    record. *)
Record request := mk_request {
  q_from : Z; q_port : Z; q_data : list Z; q_crypt : bool; q_key : list Z; q_info : list Z
}.
Implicit Types q : request.

Definition q_userid q : Z := get_n32 (q_data q) o_userid.
Definition q_unique q : Z := get_i32 (q_data q) o_unique.
Definition q_mode q : Z := get8 (q_data q) o_mode.
Definition q_global q : bool := get8 (q_data q) o_globalMode =? c_t.
Definition q_str1 q : list Z := drop o_str1 (q_data q).
Definition q_str2 q : list Z := drop o_str2 (q_data q).
Definition q_num1 q : Z := get_n32 (q_data q) o_num1.
Definition q_title q : list Z := drop o_title (q_data q).
Definition q_source q : list Z := drop o_source (q_data q).

Definition failed sv q : handled := (Ret false, sv, [fail sv (q_from q) (q_port q) (q_unique q)]).
Definition succeeded sv q (evs : list event) : handled :=
  (Ret true, sv, succeed sv (q_from q) (q_port q) (q_unique q) :: evs).

(** [userinfo.at(i)=='t'] *)
Definition permitted q (i : nat) (sv : server D) (k : bool -> handled) : handled :=
  match q_info q !! i with
  | None => (Throws, sv, [])
  | Some c => k (c =? c_t)
  end.

(** [if(crypt)crypt_encode(&packet,&key);] then [send]. *)
Definition send_reply (k : kind) sv q (pkt : list Z) : server D * event :=
  if q_crypt q then
    let '(pkt, s) := crypt_encode k pkt (q_key q) (sv_aes sv) in
    (with_aes sv s, Send (q_from q) (q_port q) pkt)
  else (sv, Send (q_from q) (q_port q) pkt).

(** [respk.header.userid=myuserid;] and the password. *)
Definition set_identity sv (pkt : list Z) : list Z :=
  copy_bytes 16 (set_n32 pkt o_userid (myuserid sv)) o_password (mypassword sv).
Definition set_unique q (pkt : list Z) : list Z := set_i32 pkt o_unique (q_unique q).

(** [readSrc] as the cases use it: common or own source, by [globalMode]. *)
Definition read_source e sv q (name : list Z) : bool * list Z :=
  if q_global q then readSrc (sv_db sv) name []
  else readSrc_user (sv_db sv) name (q_userid q) [] (j_name e).

(** "static/srcs/ttttttttuuuuuuuurrrrrrrr.yss" *)
Definition filename0 : list Z := lit "static/srcs/ttttttttuuuuuuuurrrrrrrr.yss".

Definition do_updatekey e sv q : handled :=
  let respk := j_respk e in
  let pub := fresh_pubkey e in
  let respk := copy_bytes ECDH_SIZE respk (o_source + member_offset netSendkey 2) pub in
  let shared := computekey e (take ECDH_SIZE (q_source q)) in
  let sg := sign_data e (load respk (o_source + member_offset netSendkey 2) ECDH_SIZE) in
  let respk := store respk (o_source + member_offset netSendkey 1) sg in
  let respk := set_i32 respk o_source (htonl (Z.of_nat (length sg))) in
  let newkey := for_ 0 16 (fun i k => setn k i (getn shared i)) (replicate 16 0) in
  let sv := with_db sv (setkey (sv_db sv) (q_userid q) newkey) in
  let respk := set_identity sv respk in
  let respk := set_n32 respk o_size (Z.of_nat sizeof_netSendkey) in
  let respk := set8 respk o_mode _UPDATEKEY in
  let respk := set_unique q respk in
  let '(sv, ev) := send_reply source_kind sv q respk in
  (Ret true, sv, [ev]).

(** *** Sources *)

Definition do_newsrc e sv q : handled :=
  let filename := copy_bytes 8 filename0 12 (j_time e) in
  let filename := copy_bytes 8 filename 20 (num_text (q_userid q)) in
  let filename := copy_bytes 8 filename 28 (num_text (num sv)) in
  let str1 := q_str1 q in
  if q_global q then
    permitted q 16 sv (fun ok =>
      if ok then
        if negb (existSrc (sv_db sv) str1) then
          let '(w, db) := writeSrc (sv_db sv) str1 filename in
          if w then succeeded (with_db sv db) q [CreateFile (c_str filename)] else failed sv q
        else
          let '(_, result) := readSrc (sv_db sv) str1 [] in
          (Ret true, sv, [CreateFile (c_str result); succeed sv (q_from q) (q_port q) (q_unique q)])
      else failed sv q)
  else
    if negb (existSrc_user (sv_db sv) str1 (q_userid q) (j_name e)) then
      let '(w, db) := writeSrc_user (sv_db sv) str1 (q_userid q) filename (j_name e) in
      if w then succeeded (with_db sv db) q [CreateFile (c_str filename)] else failed sv q
    else
      let '(_, result) := readSrc_user (sv_db sv) str1 (q_userid q) [] (j_name e) in
      (Ret true, sv, [CreateFile (c_str result); succeed sv (q_from q) (q_port q) (q_unique q)]).

(** [fileappend(filename, ...)]: [filename], not the [filenamer] just read. *)
Definition append_to_file sv q : handled :=
  (Ret true, sv,
   [AppendFile (c_str filename0) (take (Z.to_nat (get_n32 (q_data q) o_size)) (q_source q));
    succeed sv (q_from q) (q_port q) (q_unique q)]).

Definition do_append e sv q : handled :=
  let size := get_n32 (q_data q) o_size in
  if (Z.of_nat SOURCE_CHUNK_SIZE <? size) || (size <? 0) then failed sv q
  else if q_global q then
    permitted q 16 sv (fun ok =>
      if ok then
        let '(r, _) := readSrc (sv_db sv) (q_title q) [] in
        if negb r then failed sv q else append_to_file sv q
      else append_to_file sv q)
  else
    let '(r, _) := readSrc_user (sv_db sv) (q_title q) (q_userid q) [] (j_name e) in
    if negb r then failed sv q else append_to_file sv q.

(** [wristr(s, packet.field)] on a 16-byte field. *)
Definition set_wristr (pkt : list Z) (off : nat) (s : list Z) : list Z :=
  store pkt off (wristr s (load pkt off 16)).

Definition do_getsrc e sv q : handled :=
  let '(r, result) := read_source e sv q (q_str1 q) in
  if negb r then failed sv q
  else
    let respk := bzero sizeof_netSource in
    let '(n, src) := read_file e (c_str result) (u32 (Z.of_nat SOURCE_CHUNK_SIZE * q_num1 q)) in
    let respk := copy_bytes SOURCE_CHUNK_SIZE respk o_source src in
    let respk := set_n32 respk o_size n in
    let respk := set_identity sv respk in
    let respk := set_unique q respk in
    let respk := set8 respk o_mode _SETSRC_APPEND in
    let respk := set_wristr respk o_title (q_str1 q) in
    let '(sv, ev) := send_reply source_kind sv q respk in
    (Ret true, sv, [ev]).

Definition do_getsrcname e sv q : handled :=
  let '(r, result) := read_source e sv q (q_str1 q) in
  if negb r then failed sv q
  else
    let respk := bzero sizeof_netSource in
    let respk := store respk o_source (take SOURCE_CHUNK_SIZE (c_str result ++ [0])) in
    let i := Nat.min SOURCE_CHUNK_SIZE (length (c_str result)) in
    let respk := set_n32 respk o_size (Z.of_nat i) in
    let respk := set_identity sv respk in
    let respk := set_unique q respk in
    let '(sv, ev) := send_reply source_kind sv q respk in
    (Ret true, sv, [ev]).

Definition remove_source e sv q (result : list Z) : handled :=
  let name := c_str result in
  if remove_fails e name then
    (Ret false, sv, [RemoveFile name; fail sv (q_from q) (q_port q) (q_unique q)])
  else (Ret true, sv, [RemoveFile name; succeed sv (q_from q) (q_port q) (q_unique q)]).

Definition do_delsrc e sv q : handled :=
  let str1 := q_str1 q in
  if q_global q then
    permitted q 16 sv (fun ok =>
      if ok then
        let '(r, result) := readSrc (sv_db sv) str1 [] in
        if r then remove_source e (with_db sv (snd (delSrc (sv_db sv) str1))) q result
        else failed sv q
      else remove_source e sv q [])
  else
    let '(r, result) := readSrc_user (sv_db sv) str1 (q_userid q) [] (j_name e) in
    if r then
      remove_source e (with_db sv (snd (delSrc_user (sv_db sv) str1 (q_userid q) (j_name e)))) q result
    else failed sv q.

(** *** Users *)

Definition do_newuser sv q : handled :=
  permitted q 17 sv (fun ok =>
    if ok then succeeded (with_db sv (newUser (sv_db sv) (q_num1 q))) q [] else failed sv q).

Definition do_deluser sv q : handled :=
  permitted q 17 sv (fun ok =>
    if ok then succeeded (with_db sv (delUser (sv_db sv) (q_num1 q))) q [] else failed sv q).

(** The last lines of several cases: succeed or fail by the database's answer. *)
Definition answer sv q (r : bool * ysdb D) : handled :=
  let '(ok, db) := r in
  if ok then succeeded (with_db sv db) q [] else failed (with_db sv db) q.

Definition do_setacl sv q : handled :=
  permitted q 17 sv (fun ok =>
    if ok then answer sv q (changeAcl (sv_db sv) (q_num1 q) (q_str1 q)) else failed sv q).

(** The comparison of the old password in [_SETPWD]: 16 characters, no NUL. *)
Fixpoint pwd_strict (n i : nat) (str2 tp : list Z) : bool :=
  match n with
  | O => true
  | S n => if getn str2 i =? 0 then false
           else if getn tp i =? 0 then false
           else if negb (getn str2 i =? getn tp i) then false
           else pwd_strict n (S i) str2 tp
  end.

Definition do_setpwd sv q : handled :=
  if q_global q then
    permitted q 17 sv (fun ok =>
      if ok then answer sv q (changePwd (sv_db sv) (q_num1 q) (q_str1 q)) else failed sv q)
  else
    let '(ok, result) := Get (ldata (sv_db sv)) (key_user (q_userid q)) [] in
    if negb ok then failed sv q
    else if is_empty result then failed sv q
    else if negb (pwd_strict 16 0 (q_str2 q) result) then failed sv q
    else answer sv q (changePwd (sv_db sv) (q_userid q) (q_str1 q)).

Definition do_login sv q : handled :=
  answer sv q (setTmpPwd (sv_db sv) (q_userid q) (q_str1 q)).

Definition do_logip sv q : handled :=
  permitted q 18 sv (fun ok =>
    if ok then succeeded (with_db sv (logIP (sv_db sv) (q_userid q) (q_from q) (q_port q))) q []
    else failed sv q).

(** *** Live, shell, script, certificate *)

(** The packet assembled in [respk] is not what [livesrc] sends. *)
Definition do_livesrc e sv q : handled :=
  permitted q 20 sv (fun ok => if ok then (Ret false, sv, livesrc e sv) else failed sv q).

Definition do_connectuser sv q : handled :=
  (Ret true, sv, connectUser sv (q_num1 q) (q_from q) (q_port q)).

Definition do_shell e sv q : handled :=
  permitted q 19 sv (fun ok =>
    if ok then
      if negb (AllowShell e) then (Ret false, sv, [])
      else (Ret true, sv, [System (c_str (q_source q)); succeed sv (q_from q) (q_port q) (q_unique q)])
    else failed sv q).

Definition do_plus e sv q : handled :=
  let '(sv, qypk, evs) := plus e sv (q_data q) (q_info q) in
  let qypk := set_unique q qypk in
  let '(sv, ev) := send_reply query_kind sv q qypk in
  (Ret true, sv, evs ++ [ev]).

Definition do_cert e sv q : handled :=
  let respk := j_respk e in
  let reg := netReg_init (sign_data e) (load respk o_source sizeof_netReg) (q_userid q)
               (drop o_password (q_data q)) (now_s e) in
  let respk := store respk o_source reg in
  let respk := set_unique q respk in
  let respk := set8 respk o_mode _CERT in
  let '(sv, ev) := send_reply source_kind sv q respk in
  (Ret false, sv, [ev]).

Definition do_live_b sv q : handled :=
  (Ret false, with_db sv (liveAdd (sv_db sv) (mk_location (q_from q) (q_port q))),
   [succeed sv (q_from q) (q_port q) (q_unique q)]).
Definition do_live_e sv q : handled :=
  (Ret false, with_db sv (liveRemove (sv_db sv) (mk_location (q_from q) (q_port q))),
   [succeed sv (q_from q) (q_port q) (q_unique q)]).

(** [switch(header->mode)] *)
Definition dispatch e sv q : handled :=
  let m := q_mode q in
  if m =? _UPDATEKEY then do_updatekey e sv q
  else if m =? _NEWSRC then do_newsrc e sv q
  else if m =? _SETSRC_APPEND then do_append e sv q
  else if m =? _GETSRC then do_getsrc e sv q
  else if m =? _GETSRCNAME then do_getsrcname e sv q
  else if m =? _DELSRC then do_delsrc e sv q
  else if m =? _NEWUSER then do_newuser sv q
  else if m =? _DELUSER then do_deluser sv q
  else if m =? _SETACL then do_setacl sv q
  else if m =? _SETPWD then do_setpwd sv q
  else if m =? _LOGIN then do_login sv q
  else if m =? _LOGIP then do_logip sv q
  else if m =? _LIVESRC then do_livesrc e sv q
  else if m =? _CONNECTUSER then do_connectuser sv q
  else if m =? _SHELL then do_shell e sv q
  else if m =? _PLUS then do_plus e sv q
  else if m =? _CERT then do_cert e sv q
  else if m =? _LIVE_B then do_live_b sv q
  else if m =? _LIVE_E then do_live_e sv q
  else (Ret false, sv, []).

(** *** The prologue *)

(** [num++], then decryption with the key kept for the claimed user. *)
Definition decrypt_request e sv (data : list Z) : server D * list Z * bool * list Z :=
  let sv := with_num sv (s32 (num sv + 1)) in
  if get8 data o_crypt =? c_t then
    let '(ok, key) := getkey (sv_db sv) (get_n32 data o_userid) (j_key e) (j_buf e) in
    if ok then
      let '(data, s) := crypt_decode source_kind data key (sv_aes sv) in
      (with_aes sv s, data, true, key)
    else (sv, data, true, key)
  else (sv, data, false, j_key e).

Definition do_get_public_key e sv q : handled :=
  (Ret true, with_pubkey sv (take ECDH_SIZE (drop o_source (j_respk e))), []).

Definition do_register e sv q : handled :=
  let '(db, s) := netReg_run (computekey e) (verify e) (signers e) (sv_db sv) (q_source q) (now_s e)
                    (sv_aes sv) in
  let sv := with_aes (with_db sv db) s in
  (Ret true, sv, [succeed sv (q_from q) (q_port q) (q_unique q)]).

(** Requests of the parent server; [None] goes on with the common cases. *)
Definition parent_request e sv q : option bool * server D * list event :=
  if (q_from q =? parIP sv) && (q_port q =? parPort sv) then
    let addr := u32 (get_i32 (q_data q) o_addr) in
    let port := s16 (q_num1 q) in
    if q_mode q =? _P2PCONNECT then
      let '(ok, sv, evs) := changeParentServer e sv addr port in (Some ok, sv, evs)
    else if q_mode q =? _P2PCONNECT_C then (None, sv, [P2P addr port])
    else if q_mode q =? _GOLAST then (None, snd (goLast sv), [])
    else (None, sv, [])
  else (None, sv, []).

Definition do_getserverinfo sv q : handled :=
  let p := bzero sizeof_netQuery in
  let p := set8 p o_mode _LOGIN in
  let p := set_identity sv p in
  let p := set_unique q p in
  let '(sv, ev) := send_reply query_kind sv q p in
  (Ret true, sv, [ev]).

(** Who may go on: [login], or the parent's word, then the replay check. *)
Definition authenticate e sv q : option request * server D * list event :=
  let '(ok, info, db) :=
    YsDB.login (sv_db sv) (num_text (now_s e)) (q_userid q) (drop o_password (q_data q)) [] in
  let sv := with_db sv db in
  if negb ok && negb (checkInParent (q_userid q) (drop o_password (q_data q))) then
    (None, sv, [fail sv (q_from q) (q_port q) (q_unique q)])
  else
    let '(fresh, db) := logunique (sv_db sv) (now_s e) (q_userid q) (q_unique q) in
    let sv := with_db sv db in
    if negb fresh then (None, sv, [])
    else (Some (mk_request (q_from q) (q_port q) (q_data q) (q_crypt q) (q_key q) info), sv, []).

Definition run e sv (from port : Z) (data : list Z) : handled :=
  let '(sv, data, crypt, key) := decrypt_request e sv data in
  let q := mk_request from port data crypt key [] in
  if q_mode q =? _GET_PUBLIC_KEY then do_get_public_key e sv q
  else if q_mode q =? _REGISTER then do_register e sv q
  else
    let '(answered, sv, evs) := parent_request e sv q in
    match answered with
    | Some b => (Ret b, sv, evs)
    | None =>
        if q_mode q =? _GETSERVERINFO then
          let '(o, sv, evs') := do_getserverinfo sv q in (o, sv, evs ++ evs')
        else
          let '(auth, sv, evs') := authenticate e sv q in
          match auth with
          | None => (Ret false, sv, evs ++ evs')
          | Some q =>
              let '(o, sv, evs'') := dispatch e sv q in (o, sv, evs ++ evs' ++ evs'')
          end
    end.

(** The server thread: the datagrams it takes off the socket, one [run] each. *)
Fixpoint serve (sv : server D) (reqs : list (env D * Z * Z * list Z)) : server D * list event :=
  match reqs with
  | [] => (sv, [])
  | (e, from, port, data) :: reqs =>
      let '(_, sv, evs) := run e sv from port data in
      let '(sv, evs') := serve sv reqs in (sv, evs ++ evs')
  end.
End Connection.

(** ** Copies *)

Lemma copy_bytes_spec n from : forall data off, (off + n <= length data)%nat ->
  length (copy_bytes n data off from) = length data /\
  (forall k, (k < off \/ off + n <= k)%nat -> getn (copy_bytes n data off from) k = getn data k) /\
  (forall i, (i < n)%nat -> getn (copy_bytes n data off from) (off + i) = getn from i).
Proof.
  unfold copy_bytes. induction n as [|n IH]; intros data off Hl; [by split_and!; [done| |lia]|].
  destruct (IH data off ltac:(lia)) as (L & O & I). rewrite for_last. cbn [Nat.add].
  set (p := for_ 0 n _ data) in *. rewrite length_setn. split; [done|]. split.
  - intros k Hk. rewrite getn_setn by lia. rewrite (proj2 (Nat.eqb_neq _ _)) by lia. apply O. lia.
  - intros i Hi. rewrite getn_setn by lia. destruct (Nat.eqb_spec (off + i) (off + n)).
    + f_equal. lia.
    + apply I. lia.
Qed.

Lemma load_copy_bytes n data off from : (off + n <= length data)%nat ->
  load (copy_bytes n data off from) off n = map (getn from) (seq 0 n).
Proof.
  intros Hl. destruct (copy_bytes_spec n from data off Hl) as (L & _ & I).
  apply nth_ext with (d := 0) (d' := getn from 0).
  - rewrite length_map, length_seq. apply length_load. lia.
  - intros i Hi. rewrite length_load in Hi by lia.
    rewrite (map_nth (getn from)), seq_nth, Nat.add_0_l, <- I by done.
    unfold load, getn. rewrite !nth_lookup, lookup_take_lt, lookup_drop by done. done.
Qed.

Lemma load_copy_other n data off from o m : (off + n <= length data)%nat ->
  (o + m <= off \/ off + n <= o)%nat -> (o + m <= length data)%nat ->
  load (copy_bytes n data off from) o m = load data o m.
Proof.
  intros Hl Ho Hm. destruct (copy_bytes_spec n from data off Hl) as (L & O & _).
  apply nth_ext with (d := 0) (d' := 0); [rewrite !length_load; lia|].
  intros i Hi. rewrite length_load in Hi by lia. pose proof (O (o + i)%nat ltac:(lia)) as E.
  unfold getn in E. unfold load. rewrite !nth_lookup in *. rewrite !lookup_take_lt, !lookup_drop by done. done.
Qed.

(** ** The database changes by its own operations only *)

Section Properties.
Context {D : Type} `{KV D}.
Implicit Types sv : server D.
Implicit Types e : env D.
Implicit Types q : request.

Definition db_of (r : handled) : ysdb D := sv_db (snd (fst r)).
Definition events_of (r : @handled D) : list event := snd r.

Lemma send_reply_db k sv q pkt : sv_db (fst (send_reply k sv q pkt)) = sv_db sv.
Proof. unfold send_reply. destruct (q_crypt q); [|done]. by destruct (crypt_encode _ _ _ _). Qed.

Lemma permitted_db q i sv k :
  (forall b, rtc ysdb_op (sv_db sv) (db_of (k b))) -> rtc ysdb_op (sv_db sv) (db_of (permitted q i sv k)).
Proof. intros Hk. unfold permitted. destruct (q_info q !! i); [apply Hk|apply rtc_refl]. Qed.

Lemma answer_db sv q r :
  ysdb_op (sv_db sv) (snd r) -> rtc ysdb_op (sv_db sv) (db_of (answer sv q r)).
Proof. destruct r as [[] db]; intros; by apply rtc_once. Qed.

(** One case: follow the branches; each leaf changes nothing or takes a step. *)
Ltac leaf :=
  repeat match goal with
  | |- context [send_reply ?k ?sv ?q ?p] =>
      let E := fresh in pose proof (send_reply_db k sv q p) as E;
      destruct (send_reply k sv q p) as [? ?]; cbn in E; unfold db_of; cbn [fst snd]; rewrite E
  end;
  unfold db_of; cbn [fst snd]; first [apply rtc_refl | apply rtc_once; constructor].

Ltac follow :=
  repeat match goal with
  | |- rtc _ _ (db_of (permitted _ _ _ _)) => apply permitted_db; intros []
  | |- rtc _ _ (db_of (answer _ _ _)) => apply answer_db; constructor
  | |- context [if ?b then _ else _] => destruct b
  end.

Lemma sources_db e sv q :
  rtc ysdb_op (sv_db sv) (db_of (do_newsrc e sv q)) /\
  rtc ysdb_op (sv_db sv) (db_of (do_append e sv q)) /\
  rtc ysdb_op (sv_db sv) (db_of (do_getsrc e sv q)) /\
  rtc ysdb_op (sv_db sv) (db_of (do_getsrcname e sv q)) /\
  rtc ysdb_op (sv_db sv) (db_of (do_delsrc e sv q)).
Proof.
  repeat split.
  - unfold do_newsrc. cbv zeta. follow; try leaf.
    + pose proof (step_writeSrc (sv_db sv) (q_str1 q)) as S.
      match goal with |- context [writeSrc ?d ?n ?x] => specialize (S x); destruct (writeSrc d n x) as [[] db] end;
        [by apply rtc_once|leaf].
    + destruct (readSrc _ _ _). leaf.
    + match goal with |- context [writeSrc_user ?d ?n ?u ?x ?o] =>
        pose proof (step_writeSrc_user d n u x o) as S; destruct (writeSrc_user d n u x o) as [[] db] end;
        [by apply rtc_once|leaf].
    + destruct (readSrc_user _ _ _ _ _). leaf.
  - unfold do_append. cbv zeta. follow; try leaf.
    + destruct (readSrc _ _ _) as [[] ?]; leaf.
    + destruct (readSrc_user _ _ _ _ _) as [[] ?]; leaf.
  - unfold do_getsrc. destruct (read_source _ _ _ _) as [[] ?]; cbn [negb]; [|leaf].
    destruct (read_file _ _ _). cbv zeta. leaf.
  - unfold do_getsrcname. destruct (read_source _ _ _ _) as [[] ?]; cbn [negb]; [|leaf]. cbv zeta. leaf.
  - unfold do_delsrc, remove_source. cbv zeta. follow; try leaf.
    + destruct (readSrc _ _ _) as [[] ?]; [follow|]; leaf.
    + destruct (readSrc_user _ _ _ _ _) as [[] ?]; [follow|]; leaf.
Qed.

Lemma dispatch_db e sv q : q_mode q <> _PLUS -> rtc ysdb_op (sv_db sv) (db_of (dispatch e sv q)).
Proof.
  intros Hp%Z.eqb_neq. destruct (sources_db e sv q) as (S1 & S2 & S3 & S4 & S5). unfold dispatch. cbv zeta.
  rewrite Hp.
  repeat match goal with |- context [if ?b then _ else _] => destruct b; [try done|] end.
  - unfold do_updatekey. cbv zeta. leaf.
  - unfold do_newuser. follow; leaf.
  - unfold do_deluser. follow; leaf.
  - unfold do_setacl. follow; leaf.
  - unfold do_setpwd. follow; try leaf. destruct (Get _ _ _). follow; leaf.
  - unfold do_login. follow.
  - unfold do_logip. follow; leaf.
  - unfold do_livesrc. follow; leaf.
  - unfold do_shell. follow; leaf.
  - unfold do_cert. cbv zeta. leaf.
  - unfold do_live_b. leaf.
  - unfold do_live_e. leaf.
  - leaf.
Qed.

Lemma decrypt_request_db e sv data :
  sv_db (fst (fst (fst (decrypt_request e sv data)))) = sv_db sv.
Proof.
  unfold decrypt_request. destruct (_ =? c_t); [|done].
  destruct (getkey _ _ _ _) as [[] key]; [|done]. by destruct (crypt_decode _ _ _ _).
Qed.

Lemma parent_request_db e sv q : sv_db (snd (fst (parent_request e sv q))) = sv_db sv.
Proof.
  unfold parent_request, changeParentServer, goLast, pushParent.
  destruct (_ && _); [|done]. cbv zeta. destruct (_ =? _P2PCONNECT); [by destruct (p2p_answer _ _ _)|].
  destruct (_ =? _P2PCONNECT_C); [done|]. destruct (_ =? _GOLAST); [by destruct (ipstack sv)|done].
Qed.

(** [authenticate] lets a request through only with the record of the user it
    names, after the user's password matched and the number was new. *)
Lemma authenticate_spec e sv q :
  let '(auth, sv', evs) := authenticate e sv q in
  rtc ysdb_op (sv_db sv) (sv_db sv') /\
  Forall (fun ev => ev = fail sv' (q_from q) (q_port q) (q_unique q)) evs /\
  match auth with
  | None => True
  | Some q' =>
      evs = [] /\ kv_get (ldata (sv_db sv)) (key_user (q_userid q)) = Some (q_info q') /\
      q' = mk_request (q_from q) (q_port q) (q_data q) (q_crypt q) (q_key q) (q_info q') /\
      (q_unique q <> 0 -> uniqueExist (sv_db sv') (q_userid q) (q_unique q) = true)
  end.
Proof.
  unfold authenticate.
  pose proof (step_login (sv_db sv) (num_text (now_s e)) (q_userid q) (drop o_password (q_data q)) []) as S1.
  destruct (login _ _ _ _ _) as [[ok info] db] eqn:L. cbn [snd] in S1. destruct ok; cbn [negb andb].
  - apply login_record in L.
    pose proof (step_logunique (sv_db (with_db sv db)) (now_s e) (q_userid q) (q_unique q)) as S2.
    pose proof (logunique_logged (sv_db (with_db sv db)) (now_s e) (q_userid q) (q_unique q)) as U.
    destruct (logunique _ _ _ _) as [fresh db2]. cbn [fst snd] in S2, U.
    assert (R : rtc ysdb_op (sv_db sv) db2) by (eapply rtc_l; [exact S1|by apply rtc_once]).
    destruct fresh; cbn [negb]; [|by auto].
    split; [done|]. split; [constructor|]. split; [done|]. split; [done|]. split; [done|].
    intros Hu. by apply U.
  - split; [by apply rtc_once|]. split; [|done]. constructor; [done|constructor].
Qed.

(** The datagram as the handler reads it, once decrypted. *)
Definition received e sv from port data : request :=
  let '(_, data, crypt, key) := decrypt_request e sv data in
  mk_request from port data crypt key [].

Lemma run_db e sv from port data :
  q_mode (received e sv from port data) <> _PLUS ->
  rtc ysdb_op (sv_db sv) (db_of (run e sv from port data)).
Proof.
  unfold run, received. pose proof (decrypt_request_db e sv data) as E.
  destruct (decrypt_request e sv data) as [[[sv1 data1] crypt] key]. cbn [fst] in E. rewrite <- E.
  set (q := mk_request _ _ _ _ _ _). clearbody q. clear E. intros Hp.
  destruct (q_mode q =? _GET_PUBLIC_KEY); [apply rtc_refl|].
  destruct (q_mode q =? _REGISTER).
  { unfold do_register.
    pose proof (step_register (sv_db sv1) (computekey e) (verify e) (signers e) (q_source q)
      (now_s e) (sv_aes sv1)) as S.
    destruct (netReg_run _ _ _ _ _ _ _) as [db s]. by apply rtc_once. }
  pose proof (parent_request_db e sv1 q) as E.
  destruct (parent_request e sv1 q) as [[[b|] sv2] evs]; cbn [fst snd] in E; rewrite <- E; [apply rtc_refl|].
  destruct (q_mode q =? _GETSERVERINFO).
  { unfold do_getserverinfo. cbv zeta. leaf. }
  pose proof (authenticate_spec e sv2 q) as A.
  destruct (authenticate e sv2 q) as [[[q'|] sv3] evs']; destruct A as (R & _ & A); [|done].
  destruct A as (_ & _ & Eq & _).
  pose proof (dispatch_db e sv3 q' ltac:(by rewrite Eq)) as D2. destruct (dispatch e sv3 q') as [[o sv4] evs''].
  by transitivity (sv_db sv3).
Qed.

(** *** What a request needs to reach the shell *)

Definition is_System (ev : event) : Prop := match ev with System _ => True | _ => False end.

Lemma permitted_events q i sv k ev :
  ev ∈ events_of (permitted q i sv k) -> exists b, ev ∈ events_of (k b) /\ (b = true -> q_info q !! i = Some c_t).
Proof.
  unfold permitted. destruct (q_info q !! i) as [c|]; [|by intros ?%not_elem_of_nil].
  intros Hin. exists (c =? c_t). split; [done|]. by intros ->%Z.eqb_eq.
Qed.

Lemma send_reply_event k sv q p : ~ is_System (snd (send_reply k sv q p)).
Proof. unfold send_reply. destruct (q_crypt q); [|by intros []]. destruct (crypt_encode _ _ _ _); by intros []. Qed.

Definition quiet (r : @handled D) : Prop := Forall (fun ev => ~ is_System ev) (events_of r).

Lemma quiet_permitted q i sv k : (forall b, quiet (k b)) -> quiet (permitted q i sv k).
Proof. intros Hk. unfold permitted. destruct (q_info q !! i); [apply Hk|constructor]. Qed.

Lemma quiet_answer sv q r : quiet (answer sv q r).
Proof. destruct r as [[] ?]; constructor; try (by intros []); constructor. Qed.

Ltac quietly :=
  repeat match goal with
  | |- quiet (permitted _ _ _ _) => apply quiet_permitted; intros []
  | |- quiet (answer _ _ _) => apply quiet_answer
  | |- quiet (match send_reply ?k ?sv ?q ?p with _ => _ end) =>
      pose proof (send_reply_event k sv q p); destruct (send_reply k sv q p)
  | |- context [match ?b with _ => _ end] => destruct b
  end;
  try (repeat (apply List.Forall_cons; [first [done | by intros []]|]); apply List.Forall_nil).

Lemma connectUser_quiet sv uid from port : Forall (fun ev => ~ is_System ev) (connectUser sv uid from port).
Proof.
  unfold connectUser. destruct (getUserIP _ _) as [? [ab pb]].
  generalize 8%nat (bzero sizeof_netQuery). intros n.
  induction n as [|n IH]; intros p; [apply List.Forall_nil|].
  apply List.Forall_cons; [by intros []|]. apply List.Forall_cons; [by intros []|]. apply IH.
Qed.

Lemma livesrc_quiet e sv : Forall (fun ev => ~ is_System ev) (livesrc e sv).
Proof.
  unfold livesrc. induction (livelist (sv_db sv)); [constructor|]. simpl.
  repeat (constructor; [by intros []|]). done.
Qed.

Lemma dispatch_quiet e sv q : q_mode q <> _SHELL -> q_mode q <> _PLUS -> quiet (dispatch e sv q).
Proof.
  intros Hm%Z.eqb_neq Hp%Z.eqb_neq. unfold dispatch. cbv zeta. rewrite Hm, Hp.
  repeat match goal with |- quiet (if ?b then _ else _) => destruct b end.
  - unfold do_updatekey. cbv zeta. quietly.
  - unfold do_newsrc, succeeded, failed. cbv zeta. quietly.
  - unfold do_append, append_to_file, failed. cbv zeta. quietly.
  - unfold do_getsrc, failed. cbv zeta. quietly.
  - unfold do_getsrcname, failed. cbv zeta. quietly.
  - unfold do_delsrc, remove_source, failed. cbv zeta. quietly.
  - unfold do_newuser, succeeded, failed. quietly.
  - unfold do_deluser, succeeded, failed. quietly.
  - unfold do_setacl, failed. quietly.
  - unfold do_setpwd, failed. quietly.
  - apply quiet_answer.
  - unfold do_logip, succeeded, failed. quietly.
  - unfold do_livesrc, failed. apply quiet_permitted. intros []; [apply livesrc_quiet|quietly].
  - apply connectUser_quiet.
  - unfold do_cert. cbv zeta. quietly.
  - unfold do_live_b. quietly.
  - unfold do_live_e. quietly.
  - quietly.
Qed.

Lemma run_shell e sv from port data cmd :
  q_mode (received e sv from port data) <> _PLUS ->
  System cmd ∈ events_of (run e sv from port data) ->
  let q := received e sv from port data in
  q_mode q = _SHELL /\ AllowShell e = true /\ cmd = c_str (q_source q) /\
  exists r, kv_get (ldata (sv_db sv)) (key_user (q_userid q)) = Some r /\ r !! 19%nat = Some c_t.
Proof.
  unfold run, received. pose proof (decrypt_request_db e sv data) as E.
  destruct (decrypt_request e sv data) as [[[sv1 data1] crypt] key]. cbn [fst] in E. rewrite <- E. clear E.
  set (q := mk_request _ _ _ _ _ _). clearbody q. cbv zeta. intros Hp.
  destruct (q_mode q =? _GET_PUBLIC_KEY); [by intros ?%not_elem_of_nil|].
  destruct (q_mode q =? _REGISTER).
  { unfold do_register. destruct (netReg_run _ _ _ _ _ _ _).
    by intros [?|?%not_elem_of_nil]%elem_of_cons. }
  pose proof (parent_request_db e sv1 q) as E.
  assert (P : System cmd ∉ snd (parent_request e sv1 q)).
  { unfold parent_request, changeParentServer. destruct (_ && _); [|apply not_elem_of_nil]. cbv zeta.
    destruct (_ =? _P2PCONNECT).
    { destruct (p2p_answer _ _ _); by intros [?|?%not_elem_of_nil]%elem_of_cons. }
    destruct (_ =? _P2PCONNECT_C); [by intros [?|?%not_elem_of_nil]%elem_of_cons|].
    destruct (_ =? _GOLAST); apply not_elem_of_nil. }
  destruct (parent_request e sv1 q) as [[[b|] sv2] evs]; cbn [fst snd] in E, P; [done|]. rewrite <- E.
  destruct (q_mode q =? _GETSERVERINFO).
  { unfold do_getserverinfo. cbv zeta. destruct (send_reply _ _ _ _) as [sv' ev] eqn:Es. unfold events_of. cbn [snd].
    intros [?|[Hev|?%not_elem_of_nil]%elem_of_cons]%elem_of_app; [done| |done].
    pose proof (send_reply_event query_kind sv2 q
      (set_unique q (set_identity sv2 (set8 (bzero sizeof_netQuery) o_mode _LOGIN)))) as Q.
    rewrite Es in Q. cbn in Q. by rewrite <- Hev in Q. }
  pose proof (authenticate_spec e sv2 q) as A.
  destruct (authenticate e sv2 q) as [[[q'|] sv3] evs']; destruct A as (_ & F & A).
  2: { unfold events_of. cbn [snd]. intros [?|Hin]%elem_of_app; [done|]. rewrite List.Forall_forall in F.
       apply list_elem_of_In in Hin. by apply F in Hin. }
  destruct A as (-> & Er & Eq & _).
  destruct (dispatch e sv3 q') as [[o sv4] evs''] eqn:Ed. unfold events_of. cbn [snd].
  intros [?|Hin]%elem_of_app; [done|].
  assert (M : q_mode q' = q_mode q /\ q_source q' = q_source q) by (rewrite Eq; done).
  destruct M as [M1 M2]. rewrite <- M1, <- M2.
  assert (Hd : System cmd ∈ events_of (dispatch e sv3 q')) by by rewrite Ed.
  destruct (decide (q_mode q' = _SHELL)) as [Hs|Hs].
  2: { pose proof (dispatch_quiet e sv3 q' Hs ltac:(by rewrite M1)) as Q. unfold quiet in Q. rewrite List.Forall_forall in Q.
       apply list_elem_of_In in Hd. by destruct (Q _ Hd). }
  split; [done|]. unfold dispatch in Hd. rewrite Hs in Hd. cbn [Z.eqb Pos.eqb] in Hd.
  apply permitted_events in Hd as ([] & Hd & Hperm).
  - destruct (AllowShell e); unfold events_of in Hd; cbn [negb snd] in Hd; [|by apply not_elem_of_nil in Hd].
    split; [done|]. split.
    + apply elem_of_cons in Hd as [Hd|Hd]; [congruence|].
      by apply elem_of_cons in Hd as [Hd|?%not_elem_of_nil].
    + exists (q_info q'). auto.
  - by apply elem_of_cons in Hd as [Hd|?%not_elem_of_nil].
Qed.

Lemma default_no_perm sv uid i :
  accounts_default (sv_db sv) ->
  ~ exists r, kv_get (ldata (sv_db sv)) (key_user uid) = Some r /\ r !! i = Some c_t.
Proof.
  intros I (r & Er & Hr). destruct (I uid) as [E|E]; [congruence|]. rewrite E in Er.
  injection Er as <-. apply (defaultUserInfo_no_t i). unfold getn. by apply nth_lookup_Some.
Qed.

(** None of the requests is a [_PLUS] request, as the server reads it when its
    turn comes. *)
Fixpoint no_plus sv (reqs : list (env D * Z * Z * list Z)) : bool :=
  match reqs with
  | [] => true
  | (e, from, port, data) :: reqs =>
      negb (q_mode (received e sv from port data) =? _PLUS) &&
      no_plus (snd (fst (run e sv from port data))) reqs
  end.


(** *** Requests that are refused *)

(** The requests that need a login: not one of the three open ones, and not from
    the parent server. *)
Definition needs_login sv q : Prop :=
  q_mode q <> _GET_PUBLIC_KEY /\ q_mode q <> _REGISTER /\ q_mode q <> _GETSERVERINFO /\
  ~ (q_from q = parIP sv /\ q_port q = parPort sv).

(** What decryption does to the server: the counter of requests is advanced, and
    the cipher has been at work if the request says it is encrypted. *)
Lemma decrypt_request_server e sv data :
  let sv' := fst (fst (fst (decrypt_request e sv data))) in
  sv' = with_aes (with_num sv (s32 (num sv + 1))) (sv_aes sv') /\
  (get8 data o_crypt <> c_t -> sv_aes sv' = sv_aes sv).
Proof.
  unfold decrypt_request. destruct (Z.eqb_spec (get8 data o_crypt) c_t); [|done].
  destruct (getkey _ _ _ _) as [[] key]; [|done]. by destruct (crypt_decode _ _ _ _).
Qed.

(** The handler on such a request is [authenticate] and then [dispatch]. *)
Lemma run_needs_login e sv from port data :
  needs_login sv (received e sv from port data) ->
  exists sv1, sv1 = with_aes (with_num sv (s32 (num sv + 1))) (sv_aes sv1) /\
    run e sv from port data =
      let '(auth, sv2, evs) := authenticate e sv1 (received e sv from port data) in
      match auth with
      | None => (Ret false, sv2, evs)
      | Some q => let '(o, sv3, evs') := dispatch e sv2 q in (o, sv3, evs ++ evs')
      end.
Proof.
  unfold run, received. pose proof (decrypt_request_server e sv data) as [E _]. cbv zeta in E.
  destruct (decrypt_request e sv data) as [[[sv1 data1] crypt] key]. cbn [fst] in E.
  set (q := mk_request _ _ _ _ _ _).
  intros (M1%Z.eqb_neq & M2%Z.eqb_neq & M3%Z.eqb_neq & Np). exists sv1.
  split; [done|]. rewrite M1, M2.
  assert (P : parent_request e sv1 q = (None, sv1, [])).
  { unfold parent_request. rewrite E. cbn [parIP parPort with_aes with_num].
    destruct (Z.eqb_spec (q_from q) (parIP sv)), (Z.eqb_spec (q_port q) (parPort sv)); try done.
    by destruct Np. }
  rewrite P, M3. by destruct (authenticate e sv1 q) as [[[q'|] sv2] evs].
Qed.

Lemma authenticate_refused e sv q :
  fst (fst (login (sv_db sv) (num_text (now_s e)) (q_userid q) (drop o_password (q_data q)) [])) = false ->
  authenticate e sv q = (None, sv, [fail sv (q_from q) (q_port q) (q_unique q)]).
Proof.
  unfold authenticate. destruct (login _ _ _ _ _) as [[ok info] db] eqn:L. cbn [fst]. intros ->.
  apply login_refused in L as ->. cbn [negb andb checkInParent]. by destruct sv.
Qed.

(** C5. Without a valid login nothing happens: a request of any mode but the three
    open ones whose password [YsDB.login] refuses is answered with one [_FAIL] packet
    and leaves the server as it was, the counter of requests and the state of the
    cipher apart (the latter only if the request was encrypted).  The address of the
    parent server alone is trusted without a login, and with three modes only:
    [_P2PCONNECT], which is not of this theorem, [_P2PCONNECT_C], which sends packets
    to the address it names and changes nothing, and [_GOLAST], which goes back to the
    former parent; after both of them the login is refused like any other. *)
Theorem run_refuses_bad_login e sv from port data :
  let q := received e sv from port data in
  let trusted := (from =? parIP sv) && (port =? parPort sv) in
  q_mode q <> _GET_PUBLIC_KEY -> q_mode q <> _REGISTER -> q_mode q <> _GETSERVERINFO ->
  (trusted = true -> q_mode q <> _P2PCONNECT) ->
  fst (fst (login (sv_db sv) (num_text (now_s e)) (q_userid q) (drop o_password (q_data q)) [])) = false ->
  let '(o, sv', evs) := run e sv from port data in
  let same := mk_server (sv_db sv) (parIP sv) (parPort sv) (ipstack sv) (myuserid sv) (mypassword sv)
                (s32 (num sv + 1)) (dh_pubkey sv) (sv_aes sv') in
  o = Ret false /\
  (get8 data o_crypt <> c_t -> sv_aes sv' = sv_aes sv) /\
  sv' = (if trusted && (q_mode q =? _GOLAST) then snd (goLast same) else same) /\
  evs = (if trusted && (q_mode q =? _P2PCONNECT_C)
         then [P2P (u32 (get_i32 (q_data q) o_addr)) (s16 (q_num1 q))] else [])
        ++ [fail sv from port (q_unique q)].
Proof.
  unfold received, run. pose proof (decrypt_request_server e sv data) as [E A]. cbv zeta in E, A.
  destruct (decrypt_request e sv data) as [[[sv1 data1] crypt] key]. cbn [fst] in E, A.
  set (q := mk_request _ _ _ _ _ _). cbv zeta.
  intros M1%Z.eqb_neq M2%Z.eqb_neq M3%Z.eqb_neq Mp Hl. rewrite M1, M2.
  unfold parent_request. change (q_from q) with from. change (q_port q) with port.
  assert (P : parIP sv1 = parIP sv /\ parPort sv1 = parPort sv) by (by rewrite E).
  destruct P as [-> ->].
  assert (R : forall sv2, sv_db sv2 = sv_db sv -> authenticate e sv2 q
    = (None, sv2, [fail sv2 from port (q_unique q)])).
  { intros sv2 Hd. apply (authenticate_refused e sv2 q). by rewrite Hd. }
  assert (Ed : sv_db sv1 = sv_db sv) by (by rewrite E).
  destruct ((from =? parIP sv) && (port =? parPort sv)) eqn:T; cbn [andb].
  2: { rewrite M3, R by done. split; [done|]. split; [done|]. split; [exact E|]. by rewrite E. }
  specialize (Mp eq_refl). apply Z.eqb_neq in Mp. rewrite Mp.
  destruct (Z.eqb_spec (q_mode q) _P2PCONNECT_C) as [Mc|Mc].
  { rewrite M3, R by done. rewrite Mc. split; [done|]. split; [done|]. split; [exact E|]. by rewrite E. }
  destruct (q_mode q =? _GOLAST).
  - rewrite M3, R by (unfold goLast; by destruct (ipstack sv1)). split; [done|].
    assert (Ei : ipstack sv1 = ipstack sv) by (by rewrite E).
    unfold goLast. cbn [ipstack]. rewrite Ei.
    destruct (ipstack sv) as [|lc st] eqn:Es; cbn [snd with_parent sv_aes];
      (split; [exact A|]); (split; [rewrite E at 1; unfold with_aes, with_num, with_parent; cbn; by rewrite ?Es|by rewrite E]).
  - rewrite M3, R by done. split; [done|]. split; [done|]. split; [exact E|]. by rewrite E.
Qed.

(** A number already in the replay log is never acted upon again: the
    handler answers a request that needs a login and carries it with nothing at
    all or with [_FAIL], and leaves the sources, the shell and the other users
    alone (only the user's time entry may change). *)
Lemma run_ignores_replay e sv from port data :
  let q := received e sv from port data in
  needs_login sv q -> q_unique q <> 0 ->
  uniqueExist (sv_db sv) (q_userid q) (q_unique q) = true ->
  let '(o, sv', evs) := run e sv from port data in
  o = Ret false /\ (evs = [] \/ evs = [fail sv from port (q_unique q)]) /\
  forall k, k <> key_user_time (q_userid q) ->
    kv_get (ldata (sv_db sv')) k = kv_get (ldata (sv_db sv)) k.
Proof.
  intros q Hn Hu Hx. destruct (run_needs_login e sv from port data Hn) as (sv1 & Es & ->).
  assert (E : sv_db sv1 = sv_db sv) by (by rewrite Es).
  fold q. unfold authenticate. rewrite E.
  pose proof (login_unique (sv_db sv) (num_text (now_s e)) (q_userid q) (drop o_password (q_data q)) []) as U.
  pose proof (login_frame (sv_db sv) (num_text (now_s e)) (q_userid q) (drop o_password (q_data q)) []) as F.
  destruct (login _ _ _ _ _) as [[ok info] db] eqn:L. cbn [snd] in U, F.
  destruct ok; cbn [negb andb].
  - assert (X : uniqueExist db (q_userid q) (q_unique q) = true).
    { revert Hx. unfold uniqueExist. by rewrite U. }
    assert (G : logunique db (now_s e) (q_userid q) (q_unique q) = (false, db)).
    { revert X. unfold uniqueExist, logunique. apply Z.eqb_neq in Hu. rewrite Hu.
      destruct (Get _ _ _). by intros ->. }
    cbn [sv_db with_db]. rewrite G. cbn [negb sv_db with_db]. auto.
  - apply login_refused in L as ->. cbn [checkInParent negb sv_db with_db].
    split; [done|]. split; [|done]. right. unfold fail, reply. rewrite Es. cbn [myuserid mypassword with_db with_aes with_num].
    unfold q, received. by destruct (decrypt_request e sv data) as [[[? ?] ?] ?].
Qed.

(** *** Permissions *)

(** The requests that ask for one of the permissions of the user's record. *)
Definition privileged q : bool :=
  bool_decide (q_mode q ∈ [_NEWUSER; _DELUSER; _SETACL; _LOGIP; _LIVESRC; _SHELL]) ||
  q_global q && bool_decide (q_mode q ∈ [_NEWSRC; _SETPWD]).

(** The record [r] has the characters 16 to 20, and none of them is ['t']. *)
Definition grants_nothing (r : list Z) : Prop :=
  forall i, (16 <= i <= 20)%nat -> exists c, r !! i = Some c /\ c <> c_t.

Lemma permitted_refused q i sv k :
  (16 <= i <= 20)%nat -> grants_nothing (q_info q) -> permitted q i sv k = k false.
Proof.
  intros Hi Hr. destruct (Hr i Hi) as (c & E & Hc). unfold permitted. rewrite E.
  by apply Z.eqb_neq in Hc as ->.
Qed.

Lemma dispatch_unprivileged e sv q : privileged q = true -> grants_nothing (q_info q) ->
  dispatch e sv q = failed sv q.
Proof.
  unfold privileged. intros P Hr.
  assert (K : forall i k, (16 <= i <= 20)%nat -> permitted q i sv k = k false)
    by (intros; by apply permitted_refused).
  apply orb_true_iff in P as [P%bool_decide_eq_true|[G P%bool_decide_eq_true]%andb_true_iff];
    rewrite !elem_of_cons, elem_of_nil in P; unfold dispatch;
    repeat (destruct P as [P|P]; [rewrite P; cbn [Z.eqb Pos.eqb]|]); try done.
  - unfold do_newuser. by rewrite K by lia.
  - unfold do_deluser. by rewrite K by lia.
  - unfold do_setacl. by rewrite K by lia.
  - unfold do_logip. by rewrite K by lia.
  - unfold do_livesrc. by rewrite K by lia.
  - unfold do_shell. by rewrite K by lia.
  - unfold do_newsrc. cbv zeta. rewrite G. by rewrite K by lia.
  - unfold do_setpwd. rewrite G. by rewrite K by lia.
Qed.

Lemma login_livelist db now_txt uid pwd v : livelist (snd (login db now_txt uid pwd v)) = livelist db.
Proof.
  unfold login. destruct (Get (ldata db) (key_user_tmp uid) v), (Get (ldata db) (key_user uid) _).
  by repeat case_match.
Qed.

(** What the login and the replay check leave alone. *)
Lemma authenticate_frame e sv q :
  let '(auth, sv', evs) := authenticate e sv q in
  (evs = [] \/ evs = [fail sv (q_from q) (q_port q) (q_unique q)]) /\
  sv' = with_db sv (sv_db sv') /\ livelist (sv_db sv') = livelist (sv_db sv) /\
  (forall k, k <> key_user_time (q_userid q) ->
     kv_get (ldata (sv_db sv')) k = kv_get (ldata (sv_db sv)) k).
Proof.
  unfold authenticate.
  pose proof (login_frame (sv_db sv) (num_text (now_s e)) (q_userid q) (drop o_password (q_data q)) []) as F.
  pose proof (login_livelist (sv_db sv) (num_text (now_s e)) (q_userid q) (drop o_password (q_data q)) []) as L.
  destruct (login _ _ _ _ _) as [[ok info] db]. cbn [snd] in F, L.
  destruct (negb ok && _); [by split; [right|]|].
  assert (U : livelist (snd (logunique db (now_s e) (q_userid q) (q_unique q))) = livelist db /\
              ldata (snd (logunique db (now_s e) (q_userid q) (q_unique q))) = ldata db).
  { unfold logunique. destruct (_ =? 0); [done|]. destruct (Get _ _ _). by destruct (_ && _). }
  cbn [sv_db with_db]. destruct (logunique _ _ _ _) as [fresh db2]. cbn [snd] in U. destruct U as [U1 U2].
  destruct fresh; cbn [negb sv_db with_db]; (split; [by left|]); (split; [done|]); (split; [congruence|]); intros k Hk; rewrite U2; auto.
Qed.


(** *** The stack of parent servers *)

Fixpoint go_back (n : nat) sv : server D :=
  match n with O => sv | S n => go_back n (snd (goLast sv)) end.

Fixpoint visit e sv (addrs : list (Z * Z)) : server D :=
  match addrs with
  | [] => sv
  | (a, p) :: addrs => visit e (snd (fst (changeParentServer e sv a p))) addrs
  end.

Lemma goLast_push sv a p : goLast (pushParent sv a p) = (true, sv).
Proof. by destruct sv. Qed.

(** Parents are left in the order they were entered: after following any
    list of reachable addresses, as many [goLast] restore the first parent and
    the whole state; one more reports that there is none left, and an address
    that cannot be reached changes nothing. *)
Lemma parent_stack e sv addrs :
  Forall (fun ap => p2p_answer e (fst ap) (snd ap) = true) addrs ->
  go_back (length addrs) (visit e sv addrs) = sv /\
  length (ipstack (visit e sv addrs)) = (length addrs + length (ipstack sv))%nat /\
  (ipstack sv = [] -> goLast sv = (false, sv)) /\
  (forall a p, p2p_answer e a p = false -> changeParentServer e sv a p = (false, sv, [P2P a p])).
Proof.
  intros Hr. assert (G : forall n sv, go_back (S n) sv = snd (goLast (go_back n sv))).
  { induction n as [|n IH]; intros s; [done|]. cbn [go_back] in *. by rewrite <- IH. }
  split; [|split; [|split]].
  - revert sv. induction Hr as [|[a p] addrs Ha Hr IH]; intros sv; [done|]. cbn [length visit fst snd] in *.
    unfold changeParentServer. rewrite Ha. cbn [fst snd]. rewrite G, IH, goLast_push. done.
  - revert sv. induction Hr as [|[a p] addrs Ha Hr IH]; intros sv; [done|]. cbn [length visit fst snd] in *.
    unfold changeParentServer. rewrite Ha. cbn [fst snd]. rewrite IH. cbn. lia.
  - unfold goLast. by intros ->.
  - intros a p Ha. unfold changeParentServer. by rewrite Ha.
Qed.

(** *** Uploads *)

Lemma filename0_str : c_str filename0 = filename0.
Proof. reflexivity. Qed.

(** Whatever source an upload names, its data is appended to the one file
    the name template spells ([fileappend] gets the template, not the name read
    from the database), and never more than one chunk. *)
Lemma append_goes_to_template e sv q name data :
  AppendFile name data ∈ events_of (do_append e sv q) ->
  name = filename0 /\ (length data <= SOURCE_CHUNK_SIZE)%nat /\
  data = take (Z.to_nat (get_n32 (q_data q) o_size)) (q_source q).
Proof.
  set (d := take (Z.to_nat (get_n32 (q_data q) o_size)) (q_source q)).
  assert (F : forall sv', AppendFile name data ∉ events_of (failed sv' q)).
  { intros sv' Hin. by apply elem_of_cons in Hin as [?|?%not_elem_of_nil]. }
  assert (A : AppendFile name data ∈ events_of (append_to_file sv q) ->
              name = filename0 /\ data = d).
  { unfold append_to_file, events_of. cbn [snd]. intros [E|[?|?%not_elem_of_nil]%elem_of_cons]%elem_of_cons;
      [|done|done]. rewrite filename0_str in E. fold d in E. split; congruence. }
  unfold do_append. cbv zeta. destruct (orb _ _) eqn:B; [by intros ?%F|].
  apply orb_false_iff in B as [B1%Z.ltb_ge B2%Z.ltb_ge]. intros Hin.
  assert (X : name = filename0 /\ data = d).
  { destruct (q_global q).
    - apply permitted_events in Hin as ([] & Hin & _); [|by apply A].
      destruct (readSrc _ _ _) as [[] ?]; cbn [negb] in Hin; [by apply A|by apply F in Hin].
    - destruct (readSrc_user _ _ _ _ _) as [[] ?]; cbn [negb] in Hin; [by apply A|by apply F in Hin]. }
  destruct X as [-> ->]. split; [done|]. split; [|done]. unfold d. rewrite length_take. lia.
Qed.
End Properties.

(** ** Witnesses *)

Section Witnesses.

(** A world where files do not open, every address answers and the script
    leaves the database alone. *)
Definition w_env : env gdb :=
  mk_env gdb true 1000 (fun _ _ => true) (fun _ => false) (fun _ _ => (-1, bzero SOURCE_CHUNK_SIZE)) (fun _ => replicate 33 0)
    [] (fun _ => []) (fun _ _ _ _ => false) [] (fun sv _ _ => (sv, bzero sizeof_netQuery, []))
    (bzero 1024) (bzero 33) (bzero 64) (bzero 17) (bzero 17) (bzero 8).

Definition w_server (db : ysdb gdb) : server gdb :=
  mk_server db 1 2 [] 9 (replicate 16 7 ++ [0]) 0 (bzero 33) aes_init.

(** A [netSource] of the user 7 with the given mode, number, password and text. *)
Definition w_packet (mode unique : Z) (pwd text : list Z) : list Z :=
  let d := bzero sizeof_netSource in
  let d := set_n32 d o_userid 7 in
  let d := set_i32 d o_unique unique in
  let d := store d o_password pwd in
  let d := set8 d o_mode mode in
  let d := set_n32 d o_size (Z.of_nat (length text)) in
  store d o_source text.

Definition w_default_pwd : list Z := take 16 defaultUserInfo.
(** The record an administrator would have written by hand. *)
Definition w_admin : list Z := w_default_pwd ++ replicate 32 c_t.
Definition w_admin_db : ysdb gdb :=
  with_ldata empty_db (kv_put (ldata empty_db) (key_user 7) w_admin).

Definition w_new : ysdb gdb := newUser empty_db 7.

Lemma w_new_default : accounts_default w_new.
Proof. apply (accounts_steps empty_db); [apply rtc_once; constructor|]. intros uid. by left. Qed.

Lemma first_event (ev : event) (evs : list event) : hd_error evs = Some ev -> ev ∈ evs.
Proof. destruct evs; [done|]. injection 1 as ->. apply elem_of_cons. by left. Qed.

Lemma w_no_plus :
  no_plus (w_server w_new) [(w_env, 5, 6, w_packet _SHELL 3 w_default_pwd (lit "ls"));
                            (w_env, 5, 6, w_packet _SETACL 4 w_default_pwd (lit "t"))] = true.
Proof. by vm_compute. Qed.


Definition w_setpwd : list Z := w_packet _SETPWD 3 (replicate 16 90) [].
Definition w_newuser : list Z := w_packet _NEWUSER 3 w_default_pwd [].
Definition w_replayed : ysdb gdb := snd (logunique w_new 1000 7 3).

Definition needs_loginb {D} (sv : server D) q : bool :=
  negb (bool_decide (q_mode q ∈ [_GET_PUBLIC_KEY; _REGISTER; _GETSERVERINFO])) &&
  negb ((q_from q =? parIP sv) && (q_port q =? parPort sv)).

Lemma needs_loginb_spec {D} (sv : server D) q : needs_loginb sv q = true -> needs_login sv q.
Proof.
  unfold needs_loginb, needs_login. intros [H1 H2]%andb_prop.
  apply negb_true_iff, bool_decide_eq_false in H1. rewrite !elem_of_cons in H1.
  apply negb_true_iff, andb_false_iff in H2. rewrite !Z.eqb_neq in H2. tauto.
Qed.

Lemma w_setpwd_refused :
  let q := received w_env (w_server w_new) 5 6 w_setpwd in
  fst (fst (login (sv_db (w_server w_new)) (num_text (now_s w_env)) (q_userid q)
              (drop o_password (q_data q)) [])) = false.
Proof. by vm_compute. Qed.

Lemma w_setpwd_mode : q_mode (received w_env (w_server w_new) 5 6 w_setpwd) = _SETPWD.
Proof. by vm_compute. Qed.

Lemma run_refuses_bad_login_witness :
  let '(o, sv', evs) := run w_env (w_server w_new) 5 6 w_setpwd in
  o = Ret false /\
  sv' = mk_server w_new 1 2 [] 9 (replicate 16 7 ++ [0]) 1 (bzero 33) (sv_aes sv') /\
  evs = [fail (w_server w_new) 5 6 (q_unique (received w_env (w_server w_new) 5 6 w_setpwd))].
Proof.
  assert (T : (5 =? parIP (w_server w_new)) && (6 =? parPort (w_server w_new)) = false) by reflexivity.
  assert (M1 : q_mode (received w_env (w_server w_new) 5 6 w_setpwd) <> _GET_PUBLIC_KEY)
    by (rewrite w_setpwd_mode; discriminate).
  assert (M2 : q_mode (received w_env (w_server w_new) 5 6 w_setpwd) <> _REGISTER)
    by (rewrite w_setpwd_mode; discriminate).
  assert (M3 : q_mode (received w_env (w_server w_new) 5 6 w_setpwd) <> _GETSERVERINFO)
    by (rewrite w_setpwd_mode; discriminate).
  pose proof (run_refuses_bad_login w_env (w_server w_new) 5 6 w_setpwd M1 M2 M3
    ltac:(rewrite T; discriminate) w_setpwd_refused) as R.
  destruct (run w_env (w_server w_new) 5 6 w_setpwd) as [[o sv'] evs]. rewrite T in R.
  destruct R as (R1 & _ & R2 & R3). split; [exact R1|]. split; [exact R2|exact R3].
Defined.

Lemma w_newuser_login : needs_login (w_server w_replayed) (received w_env (w_server w_replayed) 5 6 w_newuser).
Proof. apply needs_loginb_spec. by vm_compute. Qed.

Lemma w_newuser_number :
  let q := received w_env (w_server w_replayed) 5 6 w_newuser in
  q_unique q <> 0 /\ uniqueExist (sv_db (w_server w_replayed)) (q_userid q) (q_unique q) = true.
Proof. split; by vm_compute. Qed.

Lemma run_ignores_replay_witness :
  let q := received w_env (w_server w_replayed) 5 6 w_newuser in
  let '(o, sv', evs) := run w_env (w_server w_replayed) 5 6 w_newuser in
  o = Ret false /\ (evs = [] \/ evs = [fail (w_server w_replayed) 5 6 (q_unique q)]) /\
  forall k, k <> key_user_time (q_userid q) ->
    kv_get (ldata (sv_db sv')) k = kv_get (ldata (sv_db (w_server w_replayed))) k.
Proof.
  exact (run_ignores_replay w_env (w_server w_replayed) 5 6 w_newuser w_newuser_login
           (proj1 w_newuser_number) (proj2 w_newuser_number)).
Defined.

Lemma parent_stack_witness :
  let addrs := [(10, 11); (12, 13)] in
  go_back 2 (visit w_env (w_server empty_db) addrs) = w_server empty_db.
Proof.
  apply (parent_stack w_env (w_server empty_db) [(10, 11); (12, 13)]).
  repeat constructor.
Defined.

(** An upload to a global source by a user without the permission. *)
Definition w_append : request :=
  mk_request 5 6 (set8 (w_packet _SETSRC_APPEND 3 w_default_pwd (lit "hello")) o_globalMode c_t)
    false [] defaultUserInfo.

Lemma w_append_event :
  AppendFile filename0 (lit "hello") ∈ events_of (do_append w_env (w_server w_new) w_append).
Proof. apply first_event. by vm_compute. Qed.

Lemma append_goes_to_template_witness :
  filename0 = filename0 /\ (length (lit "hello") <= SOURCE_CHUNK_SIZE)%nat /\
  lit "hello" = take (Z.to_nat (get_n32 (q_data w_append) o_size)) (q_source w_append).
Proof.
  exact (append_goes_to_template w_env (w_server w_new) w_append filename0 (lit "hello") w_append_event).
Defined.
(** The default user, with the right password, asks for a new user. *)
Lemma w_newuser_unprivileged :
  let q := received w_env (w_server w_new) 5 6 w_newuser in
  needs_loginb (w_server w_new) q && privileged q = true /\
  kv_get (ldata w_new) (key_user (q_userid q)) = Some defaultUserInfo.
Proof. split; by vm_compute. Qed.

Lemma default_grants_nothing : grants_nothing defaultUserInfo.
Proof.
  intros i Hi. destruct (defaultUserInfo !! i) as [c|] eqn:E.
  - exists c. split; [done|]. intros ->. apply (defaultUserInfo_no_t i). unfold getn.
    by apply nth_lookup_Some.
  - apply lookup_ge_None in E. change (length defaultUserInfo) with 48%nat in E. lia.
Qed.

End Witnesses.
