(* ===== verification/Socket.v ===== *)
(** * Socket: core/server-base.hpp and the exchange with the parent server

    The datagram socket of [serverBase] and the loop every request of the client
    runs: send the packet, wait for a datagram of the parent server, ten times.

    [net] is what the process will see on its socket, one entry for each time it
    waits ([select]) or reads; after its last entry nothing ever arrives.  A port
    in [net] is the 16-bit number of the datagram; the program keeps ports in a
    [short]. *)

From S2P Require Import Prelude Aes Packet Crypt.

Inductive sock_event :=
  | Silence                                  (** [select] returns 0: the second is over *)
  | Failed                                   (** readable, but [recvfrom] returns -1 *)
  | Datagram (from port : Z) (data : list Z).

Definition next_event (net : list sock_event) : sock_event * list sock_event :=
  match net with
  | [] => (Silence, [])
  | ev :: net => (ev, net)
  end.

(** [recvfrom] into a buffer: at most [size] bytes, the rest is left as it was. *)
Definition recvfrom (buf : list Z) (size : nat) (data : list Z) : list Z := store buf 0 (take size data).

(** [recv_b]: the value returned and, when there is a datagram, its sender and
    the buffer, zeroed first; [None] when it waits forever. *)
Fixpoint recv_b (size : nat) (net : list sock_event) : option (bool * Z * Z * list Z * list sock_event) :=
  match net with
  | [] => None
  | Silence :: net => recv_b size net
  | Failed :: net => Some (false, 0, 0, bzero size, net)
  | Datagram from port data :: net => Some (true, from, s16 port, recvfrom (bzero size) size data, net)
  end.

(** [wait_for_data]: does not take the datagram. *)
Definition wait_for_data (net : list sock_event) : bool * list sock_event :=
  match net with
  | [] => (false, [])
  | Silence :: net => (false, net)
  | net => (true, net)
  end.

(** [for(i=0;i<100;i++)]: [n] turns left.  The value, the sender, the buffer. *)
Fixpoint recv_turns (n size : nat) (buf : list Z) (net : list sock_event) :
    bool * Z * Z * list Z * list sock_event :=
  match n with
  | O => (false, 0, 0, buf, net)
  | S n =>
      let '(ev, net) := next_event net in
      match ev with
      | Silence | Failed => recv_turns n size buf net
      | Datagram from port data => (true, from, s16 port, recvfrom buf size data, net)
      end
  end.
Definition recv_within_time : nat -> list Z -> list sock_event ->
    bool * Z * Z * list Z * list sock_event := recv_turns 100.

(** ** p2pconnect

    One turn of the loop reads the clock and waits once; the answer is [None] when
    the turns end before the ten seconds are over. *)

Fixpoint p2p_loop (t to port : Z) (turns : list (Z * sock_event)) : option bool * nat :=
  match turns with
  | [] => (None, 0%nat)
  | (now, ev) :: turns =>
      if Z.abs (now - t) <? 10 then
        let again := let '(r, n) := p2p_loop t to port turns in (r, S n) in
        match ev with
        | Datagram from sport _ =>
            if (from =? to) && (sport =? port) then (Some true, 1%nat) else again
        | _ => again
        end
      else (Some false, 0%nat)
  end.

(** The value and how many [_CONNECT] packets were sent. *)
Definition p2pconnect (t to port : Z) (turns : list (Z * sock_event)) : option bool * nat :=
  p2p_loop t to port turns.

(** ** The exchange with the parent *)

(** The locals of a request ([qypk], [buf]) and the cipher's static state. *)
Record xstate := mk_x { x_qypk : list Z; x_buf : list Z; x_aes : aes_st }.
Definition with_buf (x : xstate) (buf : list Z) : xstate := mk_x (x_qypk x) buf (x_aes x).

Section Exchange.
(** [on_parent]: what is done with a datagram of the parent server, and whether
    it ends the wait ([false]: [goto] the label before [recv_within_time]). *)
Context (parIP parPort : Z) (size : nat) (on_parent : xstate -> bool * xstate).

(** From the label on. *)
Fixpoint try_loop (fuel : nat) (x : xstate) (net : list sock_event) :
    option (bool * xstate * list sock_event) :=
  match fuel with
  | O => None
  | S fuel =>
      let '(m, from, port, buf, net) := recv_within_time size (x_buf x) net in
      let x := with_buf x buf in
      if m then
        if (from =? parIP) && (port =? parPort) then
          let '(accept, x) := on_parent x in
          if accept then Some (true, x, net) else try_loop fuel x net
        else try_loop fuel x net
      else Some (false, x, net)
  end.

(** [for(i=0;i<10;i++){ send(...); ... }]: whether an answer was taken, the
    locals, the rest of [net], and the packets sent. *)
Fixpoint exchange_loop (fuel n : nat) (x : xstate) (net : list sock_event) :
    option (bool * xstate * list sock_event * list (list Z)) :=
  match n with
  | O => Some (false, x, net, [])
  | S n =>
      let sent := x_qypk x in
      match try_loop fuel x net with
      | None => None
      | Some (true, x, net) => Some (true, x, net, [sent])
      | Some (false, x, net) =>
          match exchange_loop fuel n x net with
          | None => None
          | Some (a, x, net, l) => Some (a, x, net, sent :: l)
          end
      end
  end.

Definition exchange (x : xstate) (net : list sock_event) := exchange_loop (S (length net)) 10 x net.

Strategy 1000 [recv_turns recv_within_time try_loop exchange_loop].

(** ** The specification: one pass over what arrives

    [t] tries and [q] silent seconds of the current one are left; a datagram of
    anyone starts the hundred seconds of the try again. *)

Fixpoint watch (t q : nat) (x : xstate) (net : list sock_event) : option (xstate * list sock_event) :=
  match net with
  | [] => None
  | Datagram from port data :: net =>
      let x := with_buf x (recvfrom (x_buf x) size data) in
      if (from =? parIP) && (s16 port =? parPort) then
        let '(accept, x) := on_parent x in
        if accept then Some (x, net) else watch t 100 x net
      else watch t 100 x net
  | _ :: net =>
      match q, t with
      | S (S q'), _ => watch t (S q') x net
      | _, S (S t') => watch (S t') 100 x net
      | _, _ => None
      end
  end.

(** The rest of a try in which [recv_within_time] has [n] turns left. *)
Definition try_from (fuel n : nat) (x : xstate) (net : list sock_event) :
    option (bool * xstate * list sock_event) :=
  let '(m, from, port, buf, net) := recv_turns n size (x_buf x) net in
  let x := with_buf x buf in
  if m then
    if (from =? parIP) && (port =? parPort) then
      let '(accept, x) := on_parent x in
      if accept then Some (true, x, net) else try_loop fuel x net
    else try_loop fuel x net
  else Some (false, x, net).

Lemma recv_turns_nil n buf : recv_turns n size buf [] = (false, 0, 0, buf, []).
Proof. induction n as [|n IH]; [reflexivity|exact IH]. Qed.

Lemma with_buf_id x : with_buf x (x_buf x) = x.
Proof. by destruct x. Qed.

Lemma try_loop_S fuel x net : try_loop (S fuel) x net = try_from fuel 100 x net.
Proof. cbn [try_loop]. unfold recv_within_time, try_from. reflexivity. Qed.

(** What a try does, in terms of [watch]. *)
Definition try_agrees (t n : nat) (x : xstate) (net : list sock_event)
    (r : option (bool * xstate * list sock_event)) : Prop :=
  match r with
  | None => False
  | Some (true, x', net') => watch t n x net = Some (x', net')
  | Some (false, x', net') =>
      (length net' <= length net)%nat /\
      watch t n x net = match t with S (S t') => watch (S t') 100 x' net' | _ => None end
  end.

Lemma try_agrees_tail t n n' x x' ev net r :
  watch t n x (ev :: net) = watch t n' x' net -> try_agrees t n' x' net r -> try_agrees t n x (ev :: net) r.
Proof.
  intros E. unfold try_agrees. destruct r as [[[[] x2] net2]|]; [congruence| |done].
  intros [L W]. cbn [length]. split; [lia|congruence].
Qed.

Lemma try_from_watch net : forall fuel n t x, (1 <= n <= 100)%nat -> (length net <= fuel)%nat ->
  try_agrees t n x net (try_from fuel n x net).
Proof.
  induction net as [|ev net IH]; intros fuel n t x Hn Hf.
  { unfold try_from. rewrite recv_turns_nil. cbn. split; [lia|].
    by destruct t as [|[|t]]. }
  cbn [length] in Hf. destruct n as [|n]; [lia|].
  assert (Q : forall ev', ev' = Silence \/ ev' = Failed ->
    try_agrees t (S n) x (ev' :: net) (try_from fuel (S n) x (ev' :: net))).
  { intros ev' Hev. assert (E : try_from fuel (S n) x (ev' :: net) = try_from fuel n x net)
      by (unfold try_from; cbn [recv_turns next_event]; by destruct Hev as [->| ->]).
    rewrite E. destruct n as [|n].
    - unfold try_from. cbn [recv_turns]. rewrite with_buf_id. cbn. split; [lia|].
      by destruct Hev as [->| ->]; destruct t as [|[|t]].
    - apply (try_agrees_tail t _ (S n) x x); [|apply IH; lia].
      by destruct Hev as [->| ->]. }
  destruct ev as [| |from port data]; [apply Q; auto..|]. clear Q.
  unfold try_from. cbn [recv_turns next_event]. set (x1 := with_buf x (recvfrom (x_buf x) size data)).
  destruct fuel as [|fuel]; [lia|].
  assert (A : forall x', try_agrees t 100 x' net (try_loop (S fuel) x' net))
    by (intros x'; rewrite try_loop_S; apply IH; lia).
  destruct ((from =? parIP) && (s16 port =? parPort)) eqn:P.
  - destruct (on_parent x1) as [[] x2] eqn:O.
    + unfold try_agrees. cbn [watch]. fold x1. by rewrite P, O.
    + apply (try_agrees_tail t _ 100 x x2); [|apply A]. cbn [watch]. fold x1. by rewrite P, O.
  - apply (try_agrees_tail t _ 100 x x1); [|apply A]. cbn [watch]. fold x1. by rewrite P.
Qed.

Lemma exchange_loop_watch n : forall fuel x net, (length net < fuel)%nat -> (1 <= n)%nat ->
  exists a x' net' sent, exchange_loop fuel n x net = Some (a, x', net', sent) /\
    (1 <= length sent <= n)%nat /\
    (if a then watch n 100 x net = Some (x', net') else watch n 100 x net = None).
Proof.
  induction n as [|n IH]; intros fuel x net Hf Hn; [lia|].
  destruct fuel as [|fuel]; [lia|]. cbn [exchange_loop].
  pose proof (try_from_watch net fuel 100 (S n) x ltac:(lia) ltac:(lia)) as T. rewrite <- try_loop_S in T.
  destruct (try_loop (S fuel) x net) as [[[[] x1] net1]|]; [| |done].
  { do 4 eexists. split; [done|]. split; [cbn; lia|done]. }
  destruct T as [L W]. destruct n as [|n].
  { do 4 eexists. split; [done|]. split; [cbn; lia|done]. }
  destruct (IH (S fuel) x1 net1 ltac:(lia) ltac:(lia)) as (a & x2 & net2 & sent & -> & Ls & Ws).
  do 4 eexists. split; [done|]. split; [cbn; lia|]. by rewrite W.
Qed.

Lemma exchange_watch x net :
  exists a x' net' sent, exchange x net = Some (a, x', net', sent) /\ (1 <= length sent <= 10)%nat /\
    (if a then watch 10 100 x net = Some (x', net') else watch 10 100 x net = None).
Proof. apply exchange_loop_watch; lia. Qed.

(** The seconds of silence in a stretch of [net], and whether the parent is in it. *)
Fixpoint quiet (net : list sock_event) : nat :=
  match net with
  | [] => 0
  | Datagram _ _ _ :: net => quiet net
  | _ :: net => S (quiet net)
  end.
Definition of_parent (ev : sock_event) : Prop :=
  match ev with
  | Datagram from port _ => from = parIP /\ s16 port = parPort
  | _ => False
  end.

(** What strangers leave in the buffer. *)
Fixpoint stirred (x : xstate) (net : list sock_event) : xstate :=
  match net with
  | [] => x
  | Datagram _ _ data :: net => stirred (with_buf x (recvfrom (x_buf x) size data)) net
  | _ :: net => stirred x net
  end.

Lemma of_parent_eqb from port data :
  (from =? parIP) && (s16 port =? parPort) = true <-> of_parent (Datagram from port data).
Proof. cbn. rewrite andb_true_iff, !Z.eqb_eq. done. Qed.

(** [watch] reaches the first datagram of the parent when the silence before it
    is short enough. *)
Lemma watch_reaches pre from port data post : of_parent (Datagram from port data) ->
  forall t q x, Forall (fun ev => ~ of_parent ev) pre -> (1 <= t)%nat -> (1 <= q <= 100)%nat ->
  (quiet pre < (t - 1) * 100 + q)%nat ->
  let x1 := stirred x (pre ++ [Datagram from port data]) in
  let '(accept, x2) := on_parent x1 in
  accept = true -> watch t q x (pre ++ Datagram from port data :: post) = Some (x2, post).
Proof.
  intros Hp. pose proof (proj2 (of_parent_eqb from port data) Hp) as P.
  induction pre as [|ev pre IH]; intros t q x Hpre Ht Hq Hb; cbv zeta.
  { cbn [app stirred watch]. rewrite P. destruct (on_parent _) as [[] x2]; done. }
  apply Forall_cons_iff in Hpre as [Hev Hpre]. destruct ev as [| |f p d]; cbn [app stirred watch quiet] in *.
  1,2: destruct q as [|[|q]]; [lia| |apply IH; (done || lia)];
    destruct t as [|[|t]]; [lia..|apply IH; (done || lia)].
  assert (N : (f =? parIP) && (s16 p =? parPort) = false).
  { apply not_true_is_false. intros E. apply Hev. by apply (of_parent_eqb f p d). }
  rewrite N. apply IH; (done || lia).
Qed.

(** [watch] never answers when the parent's datagrams are never accepted. *)
Lemma watch_never (I : xstate -> Prop) :
  (forall x buf, I x -> I (with_buf x buf)) ->
  (forall x, I x -> fst (on_parent x) = false /\ I (snd (on_parent x))) ->
  forall net t q x, I x -> watch t q x net = None.
Proof.
  intros HB HP. induction net as [|ev net IH]; intros t q x Hx; [done|].
  destruct ev as [| |from port data]; cbn [watch].
  1,2: destruct q as [|[|q]], t as [|[|t]]; auto.
  destruct (_ && _); [|by auto]. specialize (HP _ (HB x (recvfrom (x_buf x) size data) Hx)).
  destruct (on_parent _) as [[] x2]; destruct HP; [done|]. auto.
Qed.

(** Strangers alone are never an answer. *)
Lemma watch_strangers net : Forall (fun ev => ~ of_parent ev) net -> forall t q x, watch t q x net = None.
Proof.
  induction 1 as [|ev net Hev Hnet IH]; intros t q x; [done|].
  destruct ev as [| |from port data]; cbn [watch].
  1,2: destruct q as [|[|q]], t as [|[|t]]; auto.
  destruct (_ && _) eqn:P; [|auto]. by apply of_parent_eqb with (data := data) in P.
Qed.

(** The buffer after what has arrived. *)
Fixpoint received (buf : list Z) (net : list sock_event) : list Z :=
  match net with
  | [] => buf
  | Datagram _ _ data :: net => received (recvfrom buf size data) net
  | _ :: net => received buf net
  end.

Lemma stirred_buf net : forall x, x_buf (stirred x net) = received (x_buf x) net.
Proof. induction net as [|[| |from port data] net IH]; intros x; cbn; [done|apply IH..]. Qed.

(** An answer uses up what was read. *)
Lemma watch_shorter net : forall t q x x' net', watch t q x net = Some (x', net') ->
  (length net' < length net)%nat.
Proof.
  induction net as [|ev net IH]; intros t q x x' net' W; [done|]. cbn [length].
  assert (R : forall t q x, watch t q x net = Some (x', net') -> (length net' < S (length net))%nat).
  { intros t1 q1 x1 W1. apply IH in W1. lia. }
  destruct ev as [| |from port data]; cbn [watch] in W.
  1,2: destruct q as [|[|q]], t as [|[|t]]; first [done|by apply R in W].
  destruct (_ && _); [|by apply R in W].
  destruct (on_parent _) as [[] x2]; [injection W as _ <-; lia|by apply R in W].
Qed.

(** What holds of the locals all along holds of what is sent. *)
Lemma exchange_loop_inv (I : xstate -> Prop) fuel :
  (forall x buf, I x -> I (with_buf x buf)) -> (forall x, I x -> I (snd (on_parent x))) ->
  forall n x net a x' net' sent, I x -> exchange_loop fuel n x net = Some (a, x', net', sent) ->
  I x' /\ Forall (fun p => exists y, I y /\ p = x_qypk y) sent.
Proof.
  intros HB HP.
  assert (F : forall f, (forall x net a x' net', I x -> try_loop f x net = Some (a, x', net') -> I x') ->
    forall m x net a x' net', I x -> try_from f m x net = Some (a, x', net') -> I x').
  { intros f IH m x net a x' net' Hx E.
    unfold try_from in E. destruct (recv_turns m _ _ _) as [[[[b from] port] buf] net1].
    pose proof (HB x buf Hx) as Hb. destruct b; [|injection E as _ <- _; done].
    destruct (_ && _); [|by apply IH in E].
    specialize (HP _ Hb). destruct (on_parent _) as [[] x2]; [injection E as _ <- _; done|by apply IH in E]. }
  assert (T : forall f x net a x' net', I x -> try_loop f x net = Some (a, x', net') -> I x').
  { induction f as [|f IH]; intros x net a x' net' Hx E; [discriminate E|]. rewrite try_loop_S in E.
    exact (F f IH 100%nat x net a x' net' Hx E). }
  induction n as [|n IH]; intros x net a x' net' sent Hx E; cbn [exchange_loop] in E.
  { injection E as _ <- _ <-. split; [done|constructor]. }
  destruct (try_loop fuel x net) as [[[b x1] net1]|] eqn:E1; [|done].
  apply T in E1; [|done]. destruct b.
  - injection E as _ <- _ <-. split; [done|]. constructor; [by exists x|constructor].
  - destruct (exchange_loop fuel n x1 net1) as [[[[b x2] net2] l]|] eqn:E2; [|done].
    injection E as _ <- _ <-. apply IH in E2 as [Hx2 Hl]; [|done]. split; [done|].
    constructor; [by exists x|done].
Qed.

Lemma exchange_inv (I : xstate -> Prop) :
  (forall x buf, I x -> I (with_buf x buf)) -> (forall x, I x -> I (snd (on_parent x))) ->
  forall x net a x' net' sent, I x -> exchange x net = Some (a, x', net', sent) ->
  I x' /\ Forall (fun p => exists y, I y /\ p = x_qypk y) sent.
Proof. intros HB HP x net a x' net' sent Hx E. unfold exchange in E. by eapply exchange_loop_inv. Qed.

(** Strangers leave the query and the cipher alone. *)
Lemma stirred_frame net : forall x, x_qypk (stirred x net) = x_qypk x /\ x_aes (stirred x net) = x_aes x.
Proof.
  induction net as [|[| |from port data] net IH]; intros x; cbn [stirred]; [done|apply IH..|].
  destruct (IH (with_buf x (recvfrom (x_buf x) size data))) as [-> ->]. done.
Qed.
(** Datagrams that keep a try waiting: [n] turns of it are left, and none of the
    stretches without a datagram takes them all; the last entry is a datagram. *)
Fixpoint busy (n : nat) (net : list sock_event) : bool :=
  match net with
  | [] => (n =? 100)%nat
  | Datagram _ _ _ :: net => busy 100 net
  | _ :: net => match n with S (S n') => busy (S n') net | _ => false end
  end.

Lemma recv_turns_silent n buf post :
  recv_turns n size buf (replicate n Silence ++ post) = (false, 0, 0, buf, post).
Proof. induction n as [|n IH]; [done|]. exact IH. Qed.

(** A try that hears from strangers, and then from nobody for a hundred turns. *)
Lemma try_gives_up pre post : Forall (fun ev => ~ of_parent ev) pre -> forall fuel n x,
  (1 <= n <= 100)%nat -> busy n pre = true -> (length pre <= fuel)%nat ->
  try_from fuel n x (pre ++ replicate 100 Silence ++ post) = Some (false, stirred x pre, post).
Proof.
  induction 1 as [|ev pre Hev Hpre IH]; intros fuel n x Hn Hb Hf.
  { cbn [busy] in Hb. apply Nat.eqb_eq in Hb as ->. unfold try_from. cbn [app stirred].
    rewrite recv_turns_silent, with_buf_id. done. }
  cbn [length] in Hf. destruct n as [|n]; [lia|].
  destruct ev as [| |f p d]; cbn [busy stirred app] in *.
  1,2: destruct n as [|n]; [done|]; rewrite <- (IH fuel (S n) x) by (done || lia); done.
  unfold try_from. cbn [recv_turns next_event].
  assert (N : (f =? parIP) && (s16 p =? parPort) = false).
  { apply not_true_is_false. intros E. apply Hev. by apply (of_parent_eqb f p d). }
  rewrite N. destruct fuel as [|fuel]; [lia|]. rewrite try_loop_S. apply IH; (done || lia).
Qed.

Lemma exchange_gives_up n : forall fuel x pre post, Forall (fun ev => ~ of_parent ev) pre -> busy 100 pre = true ->
  (length pre < fuel)%nat -> (1 <= n)%nat ->
  exchange_loop fuel n x (pre ++ replicate (n * 100) Silence ++ post) =
    Some (false, stirred x pre, post, replicate n (x_qypk x)).
Proof.
  induction n as [|n IH]; intros fuel x pre post Hp Hb Hf Hn; [lia|]. destruct fuel as [|fuel]; [lia|].
  cbn [exchange_loop]. rewrite Nat.mul_succ_l, Nat.add_comm, replicate_add, <- app_assoc.
  rewrite try_loop_S, try_gives_up by (done || lia). destruct n as [|n]; [done|].
  pose proof (IH (S fuel) (stirred x pre) [] post ltac:(constructor) eq_refl ltac:(cbn; lia) ltac:(lia)) as E.
  cbn [stirred app] in E. rewrite E, (proj1 (stirred_frame pre x)). done.
Qed.
End Exchange.

#[global] Strategy 1000 [recv_turns recv_within_time try_loop exchange_loop].
#[global] Strategy 100 [exchange].
