(* ===== verification/Client.v ===== *)
(** * Client: core/client.hpp and the client half of core/ysconnection.hpp

    Every request of [Client] (and [login], [getPbk], [updatekey],
    [connectToUser] of [ysConnection]): the packet it builds, the exchange with
    the parent server, what it does with the answer.  An operation takes what the
    socket will see ([net], see Socket.v) and gives its value, the client after
    it, what is left of [net], and its effects in order.  [randnum]'s static
    counter is part of the state.  The parent's address does not change during a
    request. *)

From S2P Require Import Prelude Aes NInt Hash Func Text Md5 Packet Crypt YsDB Connection Socket.

(** The value of a call; [CNoValue]: control flows off the end of a function that
    is declared to return one. *)
Inductive cvalue := CInt (v : Z) | CNoValue.

Inductive effect :=
  | Emit (ev : event)
  | Fwrite (data : list Z)                     (** to the file being downloaded *)
  | Callback (data : list Z) (size : Z)        (** of [liveclient] *)
  | PushString (s : list Z) | PushInteger (v : Z).  (** on the Lua stack *)

(** The class's own state, above that of [Server]. *)
Record client (D : Type) := mk_client {
  cl_sv : server D;
  globalmode : Z;
  iscrypt : bool;
  cl_key : list Z;          (** [aesblock key] *)
  parpbk : list Z;          (** ECDH_SIZE + 1 bytes *)
  parhash : list Z;
  cl_reg : list Z;          (** the global [myUniKey] *)
  seed : Z                  (** the static counter of [randnum] *)
}.
Arguments mk_client {D}.
Arguments cl_sv {D}.
Arguments globalmode {D}.
Arguments iscrypt {D}.
Arguments cl_key {D}.
Arguments parpbk {D}.
Arguments parhash {D}.
Arguments cl_reg {D}.
Arguments seed {D}.

Section Client.
Context {D : Type} `{KV D}.
Context (rand_of : Z -> Z).
Implicit Types c : client D.
Implicit Types e : env D.

Definition with_sv c sv : client D :=
  mk_client sv (globalmode c) (iscrypt c) (cl_key c) (parpbk c) (parhash c) (cl_reg c) (seed c).
Definition with_key c key crypt : client D :=
  mk_client (cl_sv c) (globalmode c) crypt key (parpbk c) (parhash c) (cl_reg c) (seed c).
Definition with_pbk c pbk hash : client D :=
  mk_client (cl_sv c) (globalmode c) (iscrypt c) (cl_key c) pbk hash (cl_reg c) (seed c).
Definition with_reg c reg : client D :=
  mk_client (cl_sv c) (globalmode c) (iscrypt c) (cl_key c) (parpbk c) (parhash c) reg (seed c).
Definition with_seed c st : client D :=
  mk_client (cl_sv c) (globalmode c) (iscrypt c) (cl_key c) (parpbk c) (parhash c) (cl_reg c) st.
Definition with_password c pwd : client D :=
  let sv := cl_sv c in
  with_sv c (mk_server (sv_db sv) (parIP sv) (parPort sv) (ipstack sv) (myuserid sv) pwd (num sv)
    (dh_pubkey sv) (sv_aes sv)).

Definition c_userid c : Z := myuserid (cl_sv c).
Definition c_password c : list Z := mypassword (cl_sv c).
Definition c_aes c : aes_st := sv_aes (cl_sv c).

(** [int rdn=randnum();] *)
Definition draw c : Z * client D :=
  let '(r, st) := randnum rand_of (seed c) in (r, with_seed c st).

(** ** One exchange *)

(** What the loops do with a datagram of the parent: decode the answer, and look
    for the number in the client's own query; in [login] it is the query that is
    decoded; in [connectToUser] nothing is looked for. *)
Definition decode_answer (kb : kind) (key : list Z) (rdn : Z) (x : xstate) : bool * xstate :=
  let '(buf, s) := crypt_decode kb (x_buf x) key (x_aes x) in
  (rdn =? get_i32 (x_qypk x) o_unique, mk_x (x_qypk x) buf s).
Definition decode_own (kq : kind) (key : list Z) (rdn : Z) (x : xstate) : bool * xstate :=
  let '(q, s) := crypt_decode kq (x_qypk x) key (x_aes x) in
  (rdn =? get_i32 q o_unique, mk_x q (x_buf x) s).
Definition decode_any (kb : kind) (key : list Z) (x : xstate) : bool * xstate :=
  let '(buf, s) := crypt_decode kb (x_buf x) key (x_aes x) in (true, mk_x (x_qypk x) buf s).

(** [if(iscrypt)crypt_encode(&qypk,&key);] *)
Definition encode_query c (kq : kind) (qypk : list Z) : list Z * aes_st :=
  if iscrypt c then crypt_encode kq qypk (cl_key c) (c_aes c) else (qypk, c_aes c).

(** The loops; the answer is in [x_buf]. *)
Definition ask c (kq kb : kind) (qypk buf : list Z) (on_parent : xstate -> bool * xstate)
    (net : list sock_event) : option (bool * xstate * client D * list sock_event * list effect) :=
  let sv := cl_sv c in
  let '(qypk, s) := encode_query c kq qypk in
  match exchange (parIP sv) (parPort sv) (k_size kb) on_parent (mk_x qypk buf s) net with
  | None => None
  | Some (a, x, net, sent) =>
      Some (a, x, with_sv c (with_aes sv (x_aes x)), net,
            map (fun p => Emit (Send (parIP sv) (parPort sv) p)) sent)
  end.

Definition mode_of (x : xstate) : Z := get8 (x_buf x) o_mode.
Definition called : Type := option (cvalue * client D * list sock_event * list effect).

(** The requests answered by [_SUCCEED]; [missing] is what is returned when no
    answer comes. *)
Definition ask_succeed c (kq : kind) (qypk : list Z) (rdn : Z) (missing : cvalue) net : called :=
  match ask c kq query_kind qypk (bzero sizeof_netQuery) (decode_answer query_kind (cl_key c) rdn) net with
  | None => None
  | Some (a, x, c, net, out) =>
      Some (if a then CInt (if mode_of x =? _SUCCEED then 1 else 0) else missing, c, net, out)
  end.

(** ** The packets *)

(** [wristr(mypassword,qypk.header.password)], the user id, the number. *)
Definition set_auth c (rdn : Z) (pkt : list Z) : list Z :=
  let pkt := set_wristr pkt o_password (c_password c) in
  let pkt := set_i32 pkt o_unique rdn in
  set_n32 pkt o_userid (c_userid c).

(** A zeroed packet with its mode and the header. *)
Definition query_packet c (mode rdn : Z) : list Z :=
  set_auth c rdn (set8 (bzero sizeof_netQuery) o_mode mode).
Definition source_packet c (mode rdn : Z) : list Z :=
  set_auth c rdn (set8 (bzero sizeof_netSource) o_mode mode).

Definition newSrc_packet c (sname : list Z) (rdn : Z) : list Z :=
  let q := copy_bytes 8 (query_packet c _NEWSRC rdn) o_str1 sname in
  set8 q o_globalMode (globalmode c).

Definition downloadchunk_packet c (sname : list Z) (s rdn : Z) : list Z :=
  let q := set_n32 (query_packet c _GETSRC rdn) o_num1 s in
  let q := copy_bytes 8 q o_str1 sname in
  set8 q o_globalMode (globalmode c).

Definition uploadchunk_packet c (sname buf2 : list Z) (size rdn : Z) : list Z :=
  let q := set_n32 (source_packet c _SETSRC_APPEND rdn) o_size size in
  let q := copy_bytes 8 q o_title sname in
  let q := set8 q o_globalMode (globalmode c) in
  copy_bytes (Nat.min (Z.to_nat size) SOURCE_CHUNK_SIZE) q o_source buf2.

Definition del_packet c (sname : list Z) (rdn : Z) : list Z :=
  let q := copy_bytes 8 (query_packet c _DELSRC rdn) o_str1 sname in
  set8 q o_globalMode (globalmode c).

Definition setPwd_packet c (pwd lpwd : list Z) (rdn : Z) : list Z :=
  let q := set_wristr (query_packet c _SETPWD rdn) o_str1 pwd in
  set_wristr q o_str2 lpwd.

Definition setPwd_user_packet c (pwd : list Z) (puserid rdn : Z) : list Z :=
  let q := set_wristr (query_packet c _SETPWD rdn) o_str1 pwd in
  set_n32 (set8 q o_globalMode c_t) o_num1 puserid.

Definition newUser_packet c (uid rdn : Z) : list Z :=
  let q := set_n32 (query_packet c _NEWUSER rdn) o_num1 uid in
  set8 q o_globalMode c_t.

(** The script's arguments: [None] where one is missing or of another type. *)
Record lua_args := mk_args {
  a_str1 : option (list Z); a_str2 : option (list Z);
  a_num1 : option Z; a_num2 : option Z; a_num3 : option Z; a_num4 : option Z
}.

Definition opt_str (v : option (list Z)) (off : nat) (q : list Z) : list Z :=
  match v with Some s => set_wristr q off s | None => q end.
Definition opt_num (v : option Z) (off : nat) (q : list Z) : list Z :=
  match v with Some n => set_n32 q off n | None => q end.

Definition callPlus_packet c (a : lua_args) (rdn : Z) : list Z :=
  let q := query_packet c _PLUS rdn in
  let q := opt_str (a_str1 a) o_str1 q in
  let q := opt_str (a_str2 a) o_str2 q in
  let q := opt_num (a_num1 a) o_num1 q in
  let q := opt_num (a_num2 a) o_num2 q in
  let q := opt_num (a_num3 a) o_num3 q in
  opt_num (a_num4 a) o_num4 q.

(** ** The requests *)

Definition newSrc c (sname : list Z) net : called :=
  let '(rdn, c) := draw c in
  ask_succeed c query_kind (newSrc_packet c sname rdn) rdn CNoValue net.

Definition uploadchunk c (sname buf2 : list Z) (size : Z) net : called :=
  let '(rdn, c) := draw c in
  ask_succeed c source_kind (uploadchunk_packet c sname buf2 size rdn) rdn (CInt 0) net.

Definition del c (sname : list Z) net : called :=
  let '(rdn, c) := draw c in
  ask_succeed c query_kind (del_packet c sname rdn) rdn CNoValue net.

Definition setPwd c (pwd lpwd : list Z) net : called :=
  let '(rdn, c) := draw c in
  ask_succeed c query_kind (setPwd_packet c pwd lpwd rdn) rdn CNoValue net.

Definition setPwd_user c (pwd : list Z) (puserid : Z) net : called :=
  let '(rdn, c) := draw c in
  ask_succeed c query_kind (setPwd_user_packet c pwd puserid rdn) rdn CNoValue net.

Definition newUser c (uid : Z) net : called :=
  let '(rdn, c) := draw c in
  ask_succeed c query_kind (newUser_packet c uid rdn) rdn CNoValue net.

Definition downloadchunk c (sname : list Z) (s : Z) net : called :=
  let '(rdn, c) := draw c in
  match ask c query_kind source_kind (downloadchunk_packet c sname s rdn) (bzero sizeof_netSource)
          (decode_answer source_kind (cl_key c) rdn) net with
  | None => None
  | Some (a, x, c, net, out) =>
      if a then
        if mode_of x =? _SETSRC_APPEND then
          let bsize := get_n32 (x_buf x) o_size in
          let size := if Z.of_nat SOURCE_CHUNK_SIZE <? bsize then Z.of_nat SOURCE_CHUNK_SIZE else bsize in
          let size := if 0 <? size then size else 0 in
          Some (CInt (if bsize =? Z.of_nat SOURCE_CHUNK_SIZE then 1 else 0), c, net,
                out ++ [Fwrite (load (x_buf x) o_source (Z.to_nat size))])
        else Some (CInt 0, c, net, out)
      else Some (CInt 0, c, net, out)
  end.

(** [while(downloadchunk(sname,f,i))i++;] *)
Fixpoint download_loop (fuel : nat) c (sname : list Z) (i : Z) net :
    option (client D * list sock_event * list effect) :=
  match fuel with
  | O => None
  | S fuel =>
      match downloadchunk c sname i net with
      | None => None
      | Some (v, c, net, out) =>
          match v with
          | CInt 1 =>
              match download_loop fuel c sname (i + 1) net with
              | None => None
              | Some (c, net, out') => Some (c, net, out ++ out')
              end
          | _ => Some (c, net, out)
          end
      end
  end.
Definition download c (sname : list Z) net := download_loop (S (length net)) c sname 0 net.

(** [for(i=0;(i<SOURCE_CHUNK_SIZE && !feof(ff));i++)buf[i]=fgetc(ff);] on what is
    left of the file: the bytes, the rest, and [feof]; at the end [fgetc] gives
    -1, which is stored too. *)
Fixpoint read_chunk (n : nat) (rest : list Z) : list Z * list Z * bool :=
  match n with
  | O => ([], rest, false)
  | S n =>
      match rest with
      | [] => ([255], [], true)
      | b :: rest => let '(l, rest, eof) := read_chunk n rest in (b :: l, rest, eof)
      end
  end.

(** [while(!feof(ff))]; a refused chunk ends the upload. *)
Fixpoint upload_loop (fuel : nat) c (sname rest : list Z) net :
    option (client D * list sock_event * list effect) :=
  match fuel with
  | O => None
  | S fuel =>
      let '(buf, rest, eof) := read_chunk SOURCE_CHUNK_SIZE rest in
      match uploadchunk c sname buf (Z.of_nat (length buf)) net with
      | None => None
      | Some (v, c, net, out) =>
          match v with
          | CInt 1 =>
              if eof then Some (c, net, out)
              else match upload_loop fuel c sname rest net with
                   | None => None
                   | Some (c, net, out') => Some (c, net, out ++ out')
                   end
          | _ => Some (c, net, out)
          end
      end
  end.
Definition upload c (sname file : list Z) net := upload_loop (S (length file)) c sname file net.

(** Six values are pushed from [bufs], whose 17th byte is 0. *)
Definition callPlus c (a : lua_args) (bufs : list Z) net : called :=
  let '(rdn, c) := draw c in
  match ask c query_kind query_kind (callPlus_packet c a rdn) (bzero sizeof_netQuery)
          (decode_answer query_kind (cl_key c) rdn) net with
  | None => None
  | Some (a, x, c, net, out) =>
      if a then
        if mode_of x =? _PLUS then
          let bufs := wristr (drop o_str1 (x_buf x)) bufs in
          let bufs' := wristr (drop o_str2 (x_buf x)) bufs in
          Some (CInt 6, c, net, out ++
            [PushString (c_str bufs); PushString (c_str bufs');
             PushInteger (get_n32 (x_buf x) o_num1); PushInteger (get_n32 (x_buf x) o_num2);
             PushInteger (get_n32 (x_buf x) o_num3); PushInteger (get_n32 (x_buf x) o_num4)])
        else Some (CInt 0, c, net, out)
      else Some (CNoValue, c, net, out)
  end.

(** ** Certificates *)

(** [buf]: the uninitialised local. *)
Definition getUniKey e c (buf : list Z) net : called :=
  let '(rdn, c) := draw c in
  match ask c query_kind source_kind (query_packet c _CERT rdn) buf
          (decode_answer source_kind (cl_key c) rdn) net with
  | None => None
  | Some (a, x, c, net, out) =>
      if a then
        if mode_of x =? _CERT then
          let '(reg, s) := netReg_decrypt (computekey e) (load (x_buf x) o_source sizeof_netReg) (c_aes c) in
          Some (CInt 1, with_sv (with_reg c reg) (with_aes (cl_sv c) s), net, out)
        else Some (CInt 0, c, net, out)
      else Some (CInt 0, c, net, out)
  end.

(** The packet of [getPbk] has no password; [mbuf]: the buffer of the [MD5]
    object. *)
Definition getPbk_packet c (rdn : Z) : list Z :=
  set_i32 (set_n32 (set8 (bzero sizeof_netSource) o_mode _GET_PUBLIC_KEY) o_userid (c_userid c)) o_unique rdn.
Definition getPbk c (buf mbuf : list Z) net : called :=
  let '(rdn, c) := draw c in
  match ask c source_kind source_kind (getPbk_packet c rdn) buf
          (decode_answer source_kind (cl_key c) rdn) net with
  | None => None
  | Some (a, x, c, net, out) =>
      if a then
        if mode_of x =? _GET_PUBLIC_KEY then
          let pbk := load (x_buf x) o_source ECDH_SIZE ++ [0] in
          Some (CInt 1, with_pbk c pbk (snd (MD5.md5String mbuf (Some (c_str pbk)))), net, out)
        else Some (CInt 0, c, net, out)
      else Some (CInt 0, c, net, out)
  end.

(** [reg]: the certificate it is given is not used, and the record it encrypts is
    in a packet it does not send; [respk] and [buf] are uninitialised. *)
Definition reg_packet c (rdn : Z) : list Z :=
  set_i32 (set_n32 (set8 (bzero sizeof_netQuery) o_mode _REGISTER) o_userid (c_userid c)) o_unique rdn.
Definition reg e c (k respk buf mbuf : list Z) net : called :=
  let '(rdn, c) := draw c in
  let qypk := reg_packet c rdn in
  match getPbk c buf mbuf net with
  | None => None
  | Some (v, c, net, out) =>
      match v with
      | CInt 1 =>
          let tR := store (load respk o_source sizeof_netReg) r_key (take ECDH_SIZE (parpbk c)) in
          let '(_, s) := netReg_encrypt (computekey e) tR (c_aes c) in
          let c := with_sv c (with_aes (cl_sv c) s) in
          match ask c query_kind source_kind qypk buf (decode_answer source_kind (cl_key c) rdn) net with
          | None => None
          | Some (a, x, c, net, out') =>
              Some (CInt (if a then if mode_of x =? _SUCCEED then 1 else 0 else 0), c, net, out ++ out')
          end
      | _ => Some (CInt 0, c, net, out)
      end
  end.

(** [reg(path)]: [file] is what [open] and [read] give. *)
Definition reg_file e c (file : option (list Z)) (respk buf mbuf : list Z) net : called :=
  match file with
  | None => Some (CInt 0, c, net, [])
  | Some k => reg e c k respk buf mbuf net
  end.

(** ** Keys *)

Definition safe_key c : list Z := lit "safe_key_" ++ parhash c.

(** The packet carries a fresh public key in its [netSendkey]. *)
Definition updatekey_packet e c (rdn : Z) : list Z :=
  let q := copy_bytes ECDH_SIZE (source_packet c _UPDATEKEY rdn)
             (o_source + member_offset netSendkey 2) (fresh_pubkey e) in
  set_n32 q o_size (Z.of_nat sizeof_netSendkey).

(** [checksign] of the client's own packet. *)
Definition checksign e (qypk : list Z) : bool :=
  let len := ntohl (u32 (get_i32 qypk o_source)) in
  if 1024 <? len then false
  else Signer_check (verify e) (signers e) (load qypk (o_source + member_offset netSendkey 2) ECDH_SIZE)
         ECDH_SIZE (load qypk (o_source + member_offset netSendkey 1) 1024) len.

Definition updatekey e (checkSign : bool) c (buf mbuf : list Z) net : called :=
  match getPbk c buf mbuf net with
  | None => None
  | Some (v, c, net, out) =>
      match v with
      | CInt 1 =>
          let '(rdn, c) := draw c in
          match ask c source_kind source_kind (updatekey_packet e c rdn) (bzero sizeof_netSource)
                  (decode_answer source_kind (cl_key c) rdn) net with
          | None => None
          | Some (a, x, c, net, out') =>
              if a then
                if checkSign && negb (checksign e (x_qypk x)) then Some (CInt 0, c, net, out ++ out')
                else
                  let shared := computekey e (load (x_buf x) o_source ECDH_SIZE) in
                  let key := for_ 0 16 (fun i k => setn k i (getn shared i)) (cl_key c) in
                  let db := sv_db (cl_sv c) in
                  let db := YsDB.with_ldata db (kv_put (ldata db) (safe_key c) (c_str (aesblock_tobase64 key))) in
                  Some (CInt 1, with_key (with_sv c (with_db (cl_sv c) db)) key (iscrypt c), net, out ++ out')
              else Some (CInt 0, c, net, out ++ out')
          end
      | _ => Some (CInt 0, c, net, out)
      end
  end.

(** ** login *)

(** The key kept for this server, if there is one. *)
Definition load_key e c : client D :=
  let '(ok, dbv) := Get (ldata (sv_db (cl_sv c))) (safe_key c) [] in
  if ok then
    if is_empty dbv then c
    else with_key c (aesblock_getbase64 (cl_key c) dbv (j_buf e)) true
  else c.

Definition login_packet c (rdn : Z) (old : list Z) : list Z :=
  let q := set_wristr (set8 (bzero sizeof_netQuery) o_mode _LOGIN) o_password old in
  let q := set_n32 q o_userid (c_userid c) in
  let q := set_wristr q o_str1 (c_password c) in
  set_i32 q o_unique rdn.

Definition login e c (buf mbuf : list Z) net : called :=
  match getPbk c buf mbuf net with
  | None => None
  | Some (v, c, net, out) =>
      match v with
      | CInt 1 =>
          let c := load_key e c in
          let old := c_password c in
          let '(tmp, st) := randstr rand_of (seed c) in
          let c := with_password (with_seed c st) (wristr tmp old) in
          let '(rdn, c) := draw c in
          match ask c query_kind source_kind (login_packet c rdn old) (bzero sizeof_netSource)
                  (decode_own query_kind (cl_key c) rdn) net with
          | None => None
          | Some (a, x, c, net, out1) =>
              if a && (mode_of x =? _SUCCEED) then
                let '(rdn, c) := draw c in
                match ask c query_kind source_kind (query_packet c _GETSERVERINFO rdn) (bzero sizeof_netSource)
                        (decode_own query_kind (cl_key c) rdn) net with
                | None => None
                | Some (a, x, c, net, out2) =>
                    if a && (mode_of x =? _LOGIN) then
                      let '(o, sv, evs) := run e (cl_sv c) (parIP (cl_sv c)) (parPort (cl_sv c)) (x_buf x) in
                      Some (match o with Ret b => CInt (Z.b2z b) | Throws => CNoValue end,
                            with_sv c sv, net, out ++ out1 ++ out2 ++ map Emit evs)
                    else Some (CInt 0, c, net, out ++ out1 ++ out2)
                end
              else Some (CInt 0, c, net, out ++ out1)
          end
      | _ => Some (CInt 0, c, net, out)
      end
  end.

(** ** connectToUser *)

Definition connectToUser_packet c (uid rdn : Z) : list Z :=
  let q := set8 (query_packet c _CONNECTUSER rdn) o_globalMode (globalmode c) in
  set_n32 q o_num1 uid.

(** [*oaddr] and [*oport], when they are set, are in the last component. *)
Definition connectToUser e c (uid : Z) net :
    option (cvalue * client D * list sock_event * list effect * option (Z * Z)) :=
  let '(rdn, c) := draw c in
  match ask c query_kind query_kind (connectToUser_packet c uid rdn) (bzero sizeof_netQuery)
          (decode_any query_kind (cl_key c)) net with
  | None => None
  | Some (a, x, c, net, out) =>
      if a then
        if mode_of x =? _P2PCONNECT then
          let addr := u32 (get_i32 (x_buf x) o_addr) in
          let port := s16 (get_n32 (x_buf x) o_num1) in
          Some (CInt (Z.b2z (p2p_answer e addr port)), c, net, out ++ [Emit (P2P addr port)], Some (addr, port))
        else Some (CInt 0, c, net, out, None)
      else Some (CNoValue, c, net, out, None)
  end.

(** ** Live *)

(** Eight copies of a packet to the parent. *)
Definition send8 c (pkt : list Z) : list effect :=
  replicate 8 (Emit (Send (parIP (cl_sv c)) (parPort (cl_sv c)) pkt)).

(** [liveBegin], [liveEnd]: [qypk] is not initialised. *)
Definition live_signal c (mode : Z) (qypk : list Z) : client D * list effect :=
  let q := set_n32 (set8 qypk o_mode mode) o_userid (c_userid c) in
  let '(rdn, c) := draw c in
  let q := set_wristr (set_i32 q o_unique rdn) o_password (c_password c) in
  let '(q, s) := encode_query c query_kind q in
  (with_sv c (with_aes (cl_sv c) s), send8 c q).
Definition liveBegin c (qypk : list Z) : client D * list effect := live_signal c _LIVE_B qypk.
Definition liveEnd c (qypk : list Z) : client D * list effect := live_signal c _LIVE_E qypk.

Definition live c (data : list Z) (size : Z) (qypk : list Z) : client D * list effect :=
  let q := set_n32 (set8 qypk o_mode _LIVESRC) o_userid (c_userid c) in
  let '(rdn, c) := draw c in
  let q := set_i32 q o_unique rdn in
  let len := if Z.of_nat SOURCE_CHUNK_SIZE <? size then Z.of_nat SOURCE_CHUNK_SIZE else size in
  let q := set_n32 q o_size len in
  let q := copy_bytes (Z.to_nat len) q o_source data in
  let q := set_wristr q o_password (c_password c) in
  let '(q, s) := encode_query c source_kind q in
  (with_sv c (with_aes (cl_sv c) s), send8 c q).

(** [live] of a [netSource] pointer changes the caller's packet; it sends the bytes of the
    pointer ([j_ptr]).  [srv] is the server object of the same process; the
    database is the same global one. *)
Definition live_packet e (nodemode : bool) (srv : server D) c (qypk : list Z) :
    client D * list Z * list effect :=
  if nodemode then
    let q := set_identity srv qypk in
    let '(rdn, c) := draw c in
    let q := set8 (set8 (set_i32 q o_unique rdn) o_mode _LIVE) o_crypt c_f in
    (c, q, map Emit (livesrc e (with_db srv (sv_db (cl_sv c)))))
  else
    let q := set_n32 (set8 qypk o_mode _LIVESRC) o_userid (c_userid c) in
    let '(rdn, c) := draw c in
    let q := set_wristr (set_i32 q o_unique rdn) o_password (c_password c) in
    let '(q, s) := encode_query c source_kind q in
    (with_sv c (with_aes (cl_sv c) s), q, send8 c (j_ptr e)).

(** [while(liveclientrunning)]: the flag is cleared when [net] is used up.  The
    second component says whether the callback ended the loop. *)
Fixpoint live_loop e (nodemode autoboardcast : bool) (srv : server D) (callback : list Z -> Z -> bool)
    c net : client D * bool * list effect :=
  match net with
  | [] => (c, false, [])
  | Silence :: net | Failed :: net => live_loop e nodemode autoboardcast srv callback c net
  | Datagram from port data :: net =>
      let buf := recvfrom (bzero sizeof_netSource) sizeof_netSource data in
      if (from =? parIP (cl_sv c)) && (s16 port =? parPort (cl_sv c)) then
        let '(fresh, db) := logunique (sv_db (cl_sv c)) (now_s e) (get_n32 buf o_userid) (get_i32 buf o_unique) in
        let c := with_sv c (with_db (cl_sv c) db) in
        if negb fresh then live_loop e nodemode autoboardcast srv callback c net
        else if negb (get8 buf o_mode =? _LIVE) then live_loop e nodemode autoboardcast srv callback c net
        else
          let '(c, buf, out) := if autoboardcast then live_packet e nodemode srv c buf else (c, buf, []) in
          let data := load buf o_source SOURCE_CHUNK_SIZE in
          let size := get_n32 buf o_size in
          if negb (callback data size) then (c, true, out ++ [Callback data size])
          else
            let '(c, stopped, out') := live_loop e nodemode autoboardcast srv callback c net in
            (c, stopped, out ++ Callback data size :: out')
      else live_loop e nodemode autoboardcast srv callback c net
  end.

Definition liveclient e (nodemode autoboardcast : bool) (srv : server D) (callback : list Z -> Z -> bool)
    c (q1 q2 : list Z) net : client D * list effect :=
  let '(c, out1) := liveBegin c q1 in
  let '(c, stopped, out2) := live_loop e nodemode autoboardcast srv callback c net in
  if stopped then (c, out1 ++ out2)
  else let '(c, out3) := liveEnd c q2 in (c, out1 ++ out2 ++ out3).
End Client.

(** ** The number of a packet *)

(** [p] is a packet that carries the number [r]. *)
Definition numbered (r : Z) (p : list Z) : Prop := get_i32 p o_unique = r /\ (12 <= length p)%nat.

Lemma numbered_store r p off bs : (12 <= off)%nat -> numbered r p -> numbered r (store p off bs).
Proof.
  intros Ho [E L]. assert (T : take 12 (store p off bs) = take 12 p).
  { unfold store. rewrite take_app_le by (rewrite length_take; lia). rewrite take_take. f_equal. lia. }
  split.
  - rewrite <- E. unfold get_i32. do 2 f_equal. by apply (load_prefix _ _ 12).
  - apply (f_equal length) in T. rewrite !length_take in T. lia.
Qed.

Lemma numbered_setn r p i v : (12 <= i)%nat -> numbered r p -> numbered r (setn p i v).
Proof.
  intros Hi [E L]. split; [|by rewrite length_setn]. rewrite <- E. unfold get_i32. do 2 f_equal.
  apply (load_prefix _ _ 12); [|done]. unfold setn. by rewrite take_insert_ge by lia.
Qed.

Lemma numbered_copy r n p off from : (12 <= off)%nat -> numbered r p -> numbered r (copy_bytes n p off from).
Proof. intros Ho Hp. unfold copy_bytes. apply for_inv; [done|]. intros i s _. apply numbered_setn. lia. Qed.

Lemma numbered_set_i32 p r : (12 <= length p)%nat -> numbered (s32 r) (set_i32 p o_unique r).
Proof.
  intros L. split.
  - unfold get_i32, set_i32. pose proof (load_store_same p o_unique (le32 r)) as E.
    change (length (le32 r)) with 4%nat in E. rewrite E by (change o_unique with 8%nat; lia).
    by rewrite of_le32_le, s32_u32.
  - unfold set_i32. rewrite length_store; [done|]. change (length (le32 r)) with 4%nat.
    change o_unique with 8%nat. lia.
Qed.

Lemma numbered_userid r p v : numbered r p -> numbered r (set_n32 p o_userid v).
Proof.
  intros [E L]. assert (L4 : (o_userid + length (mem32 (nint32_of v)) <= length p)%nat).
  { change (length (mem32 (nint32_of v))) with 4%nat. change o_userid with 4%nat. lia. }
  split.
  - rewrite <- E. unfold get_i32, set_n32. rewrite load_store_other; [done|done|]. right.
    change (length (mem32 (nint32_of v))) with 4%nat. change o_userid with 4%nat. change o_unique with 8%nat. lia.
  - unfold set_n32. by rewrite length_store.
Qed.

Ltac off12 := apply Nat.leb_le; reflexivity.

Lemma store_long p off bs : (12 <= off)%nat -> (12 <= length p)%nat -> (12 <= length (store p off bs))%nat.
Proof. intros. by apply (numbered_store (get_i32 p o_unique)). Qed.

Section Properties.
Context {D : Type} `{KV D}.
Context (rand_of : Z -> Z).
Implicit Types c : client D.
Implicit Types e : env D.

Lemma numbered_auth c rdn p : (12 <= length p)%nat -> numbered (s32 rdn) (set_auth c rdn p).
Proof.
  intros L. unfold set_auth. apply numbered_userid, numbered_set_i32. apply store_long; [off12|done].
Qed.

Lemma numbered_query c mode rdn : numbered (s32 rdn) (query_packet c mode rdn).
Proof. apply numbered_auth, store_long; off12. Qed.

Lemma numbered_source c mode rdn : numbered (s32 rdn) (source_packet c mode rdn).
Proof.
  apply numbered_auth, store_long; [off12|]. unfold bzero. rewrite length_replicate. off12.
Qed.

Lemma numbered_opt_str r v off q : (12 <= off)%nat -> numbered r q -> numbered r (opt_str v off q).
Proof. destruct v; [|done]. apply numbered_store. Qed.

Lemma numbered_opt_num r v off q : (12 <= off)%nat -> numbered r q -> numbered r (opt_num v off q).
Proof. destruct v; [|done]. apply numbered_store. Qed.

Lemma numbered_source_field r p off v : (12 <= off)%nat -> numbered r p -> numbered r (set_n32 p off v).
Proof. apply numbered_store. Qed.

Lemma numbered_byte r p off v : (12 <= off)%nat -> numbered r p -> numbered r (set8 p off v).
Proof. apply numbered_store. Qed.

Lemma numbered_string r p off s : (12 <= off)%nat -> numbered r p -> numbered r (set_wristr p off s).
Proof. apply numbered_store. Qed.

Create HintDb numbered.
Hint Resolve numbered_query numbered_source numbered_opt_str numbered_opt_num numbered_source_field
  numbered_byte numbered_string numbered_copy : numbered.
Hint Extern 2 (_ <= _)%nat => off12 : numbered.

(** Every packet keeps the number its header was given. *)
Lemma packets_numbered c rdn :
  (forall sname, numbered (s32 rdn) (newSrc_packet c sname rdn)) /\
  (forall sname s, numbered (s32 rdn) (downloadchunk_packet c sname s rdn)) /\
  (forall sname buf2 size, numbered (s32 rdn) (uploadchunk_packet c sname buf2 size rdn)) /\
  (forall sname, numbered (s32 rdn) (del_packet c sname rdn)) /\
  (forall pwd lpwd, numbered (s32 rdn) (setPwd_packet c pwd lpwd rdn)) /\
  (forall pwd uid, numbered (s32 rdn) (setPwd_user_packet c pwd uid rdn)) /\
  (forall uid, numbered (s32 rdn) (newUser_packet c uid rdn)) /\
  (forall a, numbered (s32 rdn) (callPlus_packet c a rdn)) /\
  numbered (s32 rdn) (getPbk_packet c rdn).
Proof.
  assert (P : numbered (s32 rdn) (getPbk_packet c rdn)).
  { apply numbered_set_i32. unfold set_n32, set8, bzero.
    rewrite !length_store; rewrite ?length_replicate; off12. }
  split_and!; [intros..|exact P].
  all: unfold newSrc_packet, downloadchunk_packet, uploadchunk_packet, del_packet, setPwd_packet,
      setPwd_user_packet, newUser_packet, callPlus_packet.
  all: auto 12 with numbered.
Qed.

(** ** The exchange of a request *)

Definition to_parent c (p : list Z) : effect := Emit (Send (parIP (cl_sv c)) (parPort (cl_sv c)) p).

Lemma decode_answer_frame kb key rdn x :
  x_qypk (snd (decode_answer kb key rdn x)) = x_qypk x /\
  fst (decode_answer kb key rdn x) = (rdn =? get_i32 (x_qypk x) o_unique).
Proof. unfold decode_answer. by destruct (crypt_decode _ _ _ _). Qed.

Lemma ask_total c kq kb qypk buf onp net :
  let p := parIP (cl_sv c) in let o := parPort (cl_sv c) in
  let x0 := mk_x (fst (encode_query c kq qypk)) buf (snd (encode_query c kq qypk)) in
  exists a x net' sent,
    ask c kq kb qypk buf onp net =
      Some (a, x, with_sv c (with_aes (cl_sv c) (x_aes x)), net', map (to_parent c) sent) /\
    (1 <= length sent <= 10)%nat /\ (a = true -> (length net' < length net)%nat) /\
    (if a then watch p o (k_size kb) onp 10 100 x0 net = Some (x, net')
     else watch p o (k_size kb) onp 10 100 x0 net = None) /\
    ((forall x, x_qypk (snd (onp x)) = x_qypk x) -> Forall (eq (fst (encode_query c kq qypk))) sent).
Proof.
  intros p o x0. unfold ask. destruct (encode_query c kq qypk) as [q s]. cbn [fst snd] in x0.
  destruct (exchange_watch p o (k_size kb) onp x0 net) as (a & x & net' & sent & E & Ls & W).
  unfold p, o, x0 in E. rewrite E. exists a, x, net', sent. split; [done|]. split; [done|].
  split; [intros ->; by eapply watch_shorter|]. split; [done|]. intros F.
  apply (exchange_inv p o (k_size kb) onp (fun y => x_qypk y = q)) in E as [_ E]; [|done| |done].
  - eapply List.Forall_impl; [|exact E]. cbn. by intros ? (y & <- & ->).
  - intros y Hy. by rewrite F.
Qed.

(** A request whose query shows its number ends with the first datagram of the parent. *)
Lemma ask_answered c kq kb qypk buf rdn pre from port data post :
  get_i32 (fst (encode_query c kq qypk)) o_unique = rdn ->
  Forall (fun ev => ~ of_parent (parIP (cl_sv c)) (parPort (cl_sv c)) ev) pre -> (quiet pre < 1000)%nat ->
  of_parent (parIP (cl_sv c)) (parPort (cl_sv c)) (Datagram from port data) ->
  let q := encode_query c kq qypk in
  exists x sent,
    ask c kq kb qypk buf (decode_answer kb (cl_key c) rdn) (pre ++ Datagram from port data :: post) =
      Some (true, x, with_sv c (with_aes (cl_sv c) (x_aes x)), post, map (to_parent c) sent) /\
    x_buf x = fst (crypt_decode kb (received (k_size kb) buf (pre ++ [Datagram from port data])) (cl_key c) (snd q)).
Proof.
  intros Hr Hpre Hq Hp q. subst q.
  destruct (ask_total c kq kb qypk buf (decode_answer kb (cl_key c) rdn) (pre ++ Datagram from port data :: post))
    as (a & x & net' & sent & -> & _ & _ & W & _).
  destruct (encode_query c kq qypk) as [q s]. cbn [fst snd] in *.
  pose proof (watch_reaches _ _ (k_size kb) (decode_answer kb (cl_key c) rdn) pre from port data post Hp
    10 100 (mk_x q buf s) Hpre ltac:(lia) ltac:(lia) ltac:(lia)) as R.
  cbv zeta in R. set (x1 := stirred (k_size kb) (mk_x q buf s) (pre ++ [Datagram from port data])) in *.
  pose proof (decode_answer_frame kb (cl_key c) rdn x1) as [_ Fa].
  destruct (stirred_frame (k_size kb) (pre ++ [Datagram from port data]) (mk_x q buf s)) as [Fq Fs].
  fold x1 in Fq, Fs. rewrite Fq in Fa. cbn [x_qypk x_aes] in Fa, Fs. rewrite Hr, Z.eqb_refl in Fa.
  assert (Fb : x_buf x1 = received (k_size kb) buf (pre ++ [Datagram from port data])) by apply stirred_buf.
  destruct (decode_answer kb (cl_key c) rdn x1) as [accept x2] eqn:E. cbn [fst] in Fa. subst accept.
  rewrite (R eq_refl) in W. destruct a; [|done]. injection W as <- <-. exists x2, sent. split; [done|].
  unfold decode_answer in E. rewrite Fs, Fb in E.
  destruct (crypt_decode kb (received _ _ _) (cl_key c) s) as [b s']. injection E as _ <-. done.
Qed.

(** A query whose own number cannot be recognised never sees an answer. *)
Lemma ask_blind c kq kb qypk buf rdn net :
  get_i32 (fst (encode_query c kq qypk)) o_unique <> rdn ->
  exists x net' sent,
    ask c kq kb qypk buf (decode_answer kb (cl_key c) rdn) net =
      Some (false, x, with_sv c (with_aes (cl_sv c) (x_aes x)), net', map (to_parent c) sent).
Proof.
  intros Hr. destruct (ask_total c kq kb qypk buf (decode_answer kb (cl_key c) rdn) net)
    as (a & x & net' & sent & -> & _ & _ & W & _).
  rewrite (watch_never _ _ _ _ (fun y => x_qypk y = fst (encode_query c kq qypk))) in W; [|done| |done].
  - destruct a; [done|]. by exists x, net', sent.
  - intros y Hy. destruct (decode_answer_frame kb (cl_key c) rdn y) as [F1 F2]. rewrite F1, F2, Hy.
    split; [|done]. apply Z.eqb_neq. congruence.
Qed.

(** Every step that is an exchange gives a result; what it does not change. *)
Lemma ask_some c kq kb qypk buf onp net :
  exists a x s net' out, ask c kq kb qypk buf onp net =
    Some (a, x, with_sv c (with_aes (cl_sv c) s), net', out) /\ (a = true -> (length net' < length net)%nat).
Proof.
  destruct (ask_total c kq kb qypk buf onp net) as (a & x & net' & sent & -> & _ & L & _).
  do 5 eexists. split; [reflexivity|done].
Qed.

(** Follows a function from one exchange to the next. *)
Ltac exchanges :=
  repeat match goal with
  | |- context [ask ?c ?kq ?kb ?q ?b ?onp ?net] =>
      let a := fresh "a" in
      destruct (ask_some c kq kb q b onp net) as (a & ? & ? & ? & ? & -> & _); destruct a; cbn [andb]
  | |- context [draw ?r ?c] => destruct (draw r c)
  | |- context [if ?b then _ else _] => destruct b
  end.

Lemma downloadchunk_some c sname s net :
  exists v c' net' out, downloadchunk rand_of c sname s net = Some (v, c', net', out) /\
    (v = CInt 1 -> (length net' < length net)%nat).
Proof.
  unfold downloadchunk. destruct (draw rand_of c) as [rdn c1].
  match goal with |- context [ask ?c ?kq ?kb ?q ?b ?onp ?net] =>
    destruct (ask_some c kq kb q b onp net) as (a & x & s' & net' & out & -> & L) end.
  destruct a; [|by repeat eexists]. specialize (L eq_refl).
  destruct (_ =? _SETSRC_APPEND); repeat eexists; intros; done.
Qed.

Lemma uploadchunk_some c sname buf2 size net : is_Some (uploadchunk rand_of c sname buf2 size net).
Proof. unfold uploadchunk, ask_succeed. exchanges; done. Qed.

Lemma download_some fuel : forall c sname i net, (length net < fuel)%nat ->
  is_Some (download_loop rand_of fuel c sname i net).
Proof.
  induction fuel as [|fuel IH]; intros c sname i net Hf; [lia|]. cbn [download_loop].
  destruct (downloadchunk_some c sname i net) as (v & c1 & net1 & out & -> & L).
  assert (Dv : v = CInt 1 \/ v <> CInt 1) by (destruct v as [[|[]|]|]; auto; right; congruence).
  destruct Dv as [->|Hv].
  - destruct (IH c1 sname (i + 1) net1) as [[[c2 net2] out2] E]; [specialize (L eq_refl); lia|].
    by rewrite E.
  - destruct v as [[|[]|]|]; done.
Qed.

Lemma read_chunk_spec n : forall rest l rest' eof, read_chunk n rest = (l, rest', eof) ->
  l ++ rest' = rest ++ (if eof then [255] else []) /\ (length l <= n)%nat /\
  (n <> 0%nat -> l <> []) /\ (eof = true -> rest' = []).
Proof.
  induction n as [|n IH]; intros rest l rest' eof E; cbn [read_chunk] in E.
  { injection E as <- <- <-. by rewrite app_nil_r. }
  destruct rest as [|b rest]; [injection E as <- <- <-; split; [done|split; [cbn; lia|done]]|].
  destruct (read_chunk n rest) as [[l1 rest1] eof1] eqn:E1. injection E as <- <- <-.
  apply IH in E1 as (E1 & L & _ & F). cbn [app length]. rewrite E1. split; [done|].
  split; [lia|done].
Qed.

(** The chunks [upload] cuts a file into. *)
Fixpoint chunks (fuel : nat) (rest : list Z) : list (list Z) :=
  match fuel with
  | O => []
  | S fuel =>
      let '(buf, rest, eof) := read_chunk SOURCE_CHUNK_SIZE rest in
      if eof then [buf] else buf :: chunks fuel rest
  end.

(** Sending chunks until one is refused. *)
Fixpoint send_chunks c (sname : list Z) (l : list (list Z)) net :
    option (client D * list sock_event * list effect) :=
  match l with
  | [] => Some (c, net, [])
  | buf :: l =>
      '(v, c, net, out) ← uploadchunk rand_of c sname buf (Z.of_nat (length buf)) net;
      match v with
      | CInt 1 => '(c, net, out') ← send_chunks c sname l net; Some (c, net, out ++ out')
      | _ => Some (c, net, out)
      end
  end.

Lemma upload_loop_chunks fuel : forall c sname rest net, (length rest < fuel)%nat ->
  upload_loop rand_of fuel c sname rest net = send_chunks c sname (chunks fuel rest) net.
Proof.
  induction fuel as [|fuel IH]; intros c sname rest net Hf; [lia|]. cbn [upload_loop chunks].
  destruct (read_chunk SOURCE_CHUNK_SIZE rest) as [[buf rest'] eof] eqn:E.
  apply read_chunk_spec in E as (E & _ & N & _). specialize (N ltac:(done)).
  destruct eof; cbn [send_chunks];
    destruct (uploadchunk _ _ _ _ _ _) as [[[[[v|] c1] net1] out]|]; cbn; try done;
    destruct v as [|[]|]; cbn; try done; [by rewrite app_nil_r|].
  rewrite IH; [by destruct (send_chunks _ _ _ _) as [[[? ?] ?]|]|].
  apply (f_equal length) in E. rewrite !length_app in E. destruct buf; [done|]. cbn in *. lia.
Qed.

Lemma send_chunks_some l : forall c sname net, is_Some (send_chunks c sname l net).
Proof.
  induction l as [|buf l IH]; intros c sname net; [done|]. cbn [send_chunks].
  destruct (uploadchunk_some c sname buf (Z.of_nat (length buf)) net) as [[[[v c1] net1] out] ->].
  cbn. destruct (IH c1 sname net1) as [[[c2 net2] out2] E]. rewrite E.
  destruct v as [[|[]|]|]; done.
Qed.

Lemma chunks_spec fuel : forall rest, (length rest < fuel)%nat ->
  concat (chunks fuel rest) = rest ++ [255] /\
  Forall (fun l => (1 <= length l <= SOURCE_CHUNK_SIZE)%nat) (chunks fuel rest).
Proof.
  induction fuel as [|fuel IH]; intros rest Hf; [lia|]. cbn [chunks].
  destruct (read_chunk SOURCE_CHUNK_SIZE rest) as [[buf rest'] eof] eqn:E.
  apply read_chunk_spec in E as (E & L & N & F). specialize (N ltac:(done)).
  assert (B : (1 <= length buf <= SOURCE_CHUNK_SIZE)%nat) by (destruct buf; [done|cbn [length] in *; lia]).
  destruct eof.
  - rewrite (F eq_refl), app_nil_r in E. cbn [concat]. rewrite app_nil_r. split; [done|]. constructor; [done|constructor].
  - rewrite app_nil_r in E. destruct (IH rest') as [C Cl].
    { apply (f_equal length) in E. rewrite length_app in E. lia. }
    cbn [concat]. rewrite C, app_assoc, E. split; [done|]. by constructor.
Qed.

(** *** No answer *)

Lemma ask_gives_up c kq kb qypk buf onp pre post :
  Forall (fun ev => ~ of_parent (parIP (cl_sv c)) (parPort (cl_sv c)) ev) pre -> busy 100 pre = true ->
  exists x c', ask c kq kb qypk buf onp (pre ++ replicate 1000 Silence ++ post) =
    Some (false, x, c', post, replicate 10 (to_parent c (fst (encode_query c kq qypk)))).
Proof.
  intros Hp Hb. unfold ask. destruct (encode_query c kq qypk) as [q s]. unfold exchange.
  change 1000%nat with (10 * 100)%nat. rewrite exchange_gives_up; [|done|done| |lia].
  - cbn [fst x_qypk]. by do 2 eexists.
  - rewrite !length_app. lia.
Qed.

(** The client with the number drawn, and what a request sends. *)
Definition drawn c : client D := snd (draw rand_of c).
Definition sent c (kq : kind) (packet : client D -> Z -> list Z) : effect :=
  to_parent (drawn c) (fst (encode_query (drawn c) kq (packet (drawn c) (fst (draw rand_of c))))).

Lemma drawn_parent c : parIP (cl_sv (drawn c)) = parIP (cl_sv c) /\ parPort (cl_sv (drawn c)) = parPort (cl_sv c).
Proof. unfold drawn, draw. by destruct (randnum _ _). Qed.

(** C6. A request of the client gives up after ten tries, each of a hundred turns without
    a datagram: when strangers have sent datagrams, never more than a hundred turns
    apart, and then nothing comes for a thousand turns, it has sent ten copies of its
    packet, has waited for all that time, and ends without an answer, with nothing
    else taken from the socket.  Each stranger's datagram starts the hundred turns of
    the try again, so they can keep a request waiting as long as they like.  Without an answer
    [uploadchunk] and [downloadchunk] return 0; the others reach the end of
    a function that has a result to return. *)
Theorem request_gives_up e c pre post
    (Hp : Forall (fun ev => ~ of_parent (parIP (cl_sv c)) (parPort (cl_sv c)) ev) pre)
    (Hb : busy 100 pre = true) :
  let net := pre ++ replicate 1000 Silence ++ post in
  let gives_up (r : @called D) v kq packet := exists c', r = Some (v, c', post, replicate 10 (sent c kq packet)) in
  (forall sname, gives_up (newSrc rand_of c sname net) CNoValue query_kind (fun c => newSrc_packet c sname)) /\
  (forall sname, gives_up (del rand_of c sname net) CNoValue query_kind (fun c => del_packet c sname)) /\
  (forall sname s, gives_up (downloadchunk rand_of c sname s net) (CInt 0) query_kind
     (fun c => downloadchunk_packet c sname s)) /\
  (forall sname buf2 size, gives_up (uploadchunk rand_of c sname buf2 size net) (CInt 0) source_kind
     (fun c => uploadchunk_packet c sname buf2 size)) /\
  (forall pwd lpwd, gives_up (setPwd rand_of c pwd lpwd net) CNoValue query_kind (fun c => setPwd_packet c pwd lpwd)) /\
  (forall pwd uid, gives_up (setPwd_user rand_of c pwd uid net) CNoValue query_kind
     (fun c => setPwd_user_packet c pwd uid)) /\
  (forall uid, gives_up (newUser rand_of c uid net) CNoValue query_kind (fun c => newUser_packet c uid)) /\
  (forall a bufs, gives_up (callPlus rand_of c a bufs net) CNoValue query_kind (fun c => callPlus_packet c a)) /\
  (forall uid, exists c', connectToUser rand_of e c uid net =
     Some (CNoValue, c', post, replicate 10 (sent c query_kind (fun c => connectToUser_packet c uid)), None)).
Proof.
  cbv zeta. destruct (drawn_parent c) as [E1 E2].
  assert (G : forall kq kb qypk buf onp, exists x c', ask (drawn c) kq kb qypk buf onp (pre ++ replicate 1000 Silence ++ post) =
    Some (false, x, c', post, replicate 10 (to_parent (drawn c) (fst (encode_query (drawn c) kq qypk))))).
  { intros. apply ask_gives_up; [|done]. by rewrite E1, E2. }
  unfold sent, drawn in *. clear E1 E2.
  split_and!; intros; unfold newSrc, del, downloadchunk, uploadchunk, setPwd, setPwd_user, newUser, callPlus,
    connectToUser, ask_succeed; destruct (draw rand_of c) as [rdn c1]; cbn [fst snd] in *;
    match goal with |- context [ask ?c ?kq ?kb ?q ?b ?onp ?net] =>
      destruct (G kq kb q b onp) as (x & c' & ->) end; by eexists.
Qed.

(** ** What the answer is *)

Lemma draw_range c : (forall s, 0 <= rand_of s <= 2 ^ 31 - 1) ->
  exists r st, draw rand_of c = (r, with_seed c st) /\ s32 r = r.
Proof.
  intros Hr. unfold draw. pose proof (randnum_nonzero rand_of (seed c) Hr) as R.
  destruct (randnum rand_of (seed c)) as [r st]. cbn [fst] in R. exists r, st. split; [done|].
  apply s32_id. lia.
Qed.

(** The answer the client sees: the first datagram of the parent, over what
    strangers left in the buffer, decoded. *)
Definition answer_seen c (kb : kind) (net : list sock_event) : list Z :=
  fst (crypt_decode kb (received (k_size kb) (bzero (k_size kb)) net) (cl_key c) (c_aes c)).

Lemma ask_succeed_shown c kq qypk rdn missing pre from port data post :
  get_i32 (fst (encode_query c kq qypk)) o_unique = rdn ->
  Forall (fun ev => ~ of_parent (parIP (cl_sv c)) (parPort (cl_sv c)) ev) pre -> (quiet pre < 1000)%nat ->
  of_parent (parIP (cl_sv c)) (parPort (cl_sv c)) (Datagram from port data) ->
  let buf := received sizeof_netQuery (bzero sizeof_netQuery) (pre ++ [Datagram from port data]) in
  let answer := fst (crypt_decode query_kind buf (cl_key c) (snd (encode_query c kq qypk))) in
  exists c' out, ask_succeed c kq qypk rdn missing (pre ++ Datagram from port data :: post) =
    Some (CInt (if get8 answer o_mode =? _SUCCEED then 1 else 0), c', post, out).
Proof.
  intros Hr Hpre Hq Hp. unfold ask_succeed.
  destruct (ask_answered c kq query_kind qypk (bzero sizeof_netQuery) rdn pre from port data post Hr Hpre Hq Hp)
    as (x & sent & E & B).
  rewrite E. do 2 eexists. do 5 f_equal. unfold mode_of. by rewrite B.
Qed.

Lemma ask_succeed_answered c st kq qypk rdn missing pre from port data post :
  iscrypt c = false -> get_i32 qypk o_unique = rdn ->
  Forall (fun ev => ~ of_parent (parIP (cl_sv c)) (parPort (cl_sv c)) ev) pre -> (quiet pre < 1000)%nat ->
  of_parent (parIP (cl_sv c)) (parPort (cl_sv c)) (Datagram from port data) ->
  exists c' out,
    ask_succeed (with_seed c st) kq qypk rdn missing (pre ++ Datagram from port data :: post) =
    Some (CInt (if get8 (answer_seen c query_kind (pre ++ [Datagram from port data])) o_mode =? _SUCCEED
                then 1 else 0), c', post, out).
Proof.
  intros Hc Hr Hpre Hq Hp. assert (E : encode_query (with_seed c st) kq qypk = (qypk, c_aes c))
    by (unfold encode_query; cbn [iscrypt with_seed]; by rewrite Hc).
  pose proof (ask_succeed_shown (with_seed c st) kq qypk rdn missing pre from port data post) as A.
  rewrite E in A. by apply A.
Qed.

(** C7. An unencrypted request is decided by the first datagram that carries the
    parent's address, if fewer than a thousand seconds of silence come before it,
    and by nothing else: strangers' datagrams do not end the wait, what comes
    after is left on the socket, and whatever that datagram answers is taken for
    the answer to this request. *)
Theorem request_answered c pre from port data post
    (Hr : forall s, 0 <= rand_of s <= 2 ^ 31 - 1) (Hc : iscrypt c = false)
    (Hpre : Forall (fun ev => ~ of_parent (parIP (cl_sv c)) (parPort (cl_sv c)) ev) pre)
    (Hq : (quiet pre < 1000)%nat)
    (Hp : of_parent (parIP (cl_sv c)) (parPort (cl_sv c)) (Datagram from port data)) :
  let net := pre ++ Datagram from port data :: post in
  let v := CInt (if get8 (answer_seen c query_kind (pre ++ [Datagram from port data])) o_mode =? _SUCCEED
                 then 1 else 0) in
  let decided (r : @called D) := exists c' out, r = Some (v, c', post, out) in
  (forall sname, decided (newSrc rand_of c sname net)) /\
  (forall sname, decided (del rand_of c sname net)) /\
  (forall sname buf2 size, decided (uploadchunk rand_of c sname buf2 size net)) /\
  (forall pwd lpwd, decided (setPwd rand_of c pwd lpwd net)) /\
  (forall pwd uid, decided (setPwd_user rand_of c pwd uid net)) /\
  (forall uid, decided (newUser rand_of c uid net)).
Proof.
  cbv zeta. destruct (draw_range c Hr) as (r & st & E & Er).
  pose proof (packets_numbered (with_seed c st) r) as (P1 & P2 & P3 & P4 & P5 & P6 & P7 & _). rewrite Er in *.
  split_and!; intros; unfold newSrc, del, uploadchunk, setPwd, setPwd_user, newUser; rewrite E;
    (apply ask_succeed_answered; [done| |done..]).
  - apply P1.
  - apply P4.
  - apply P3.
  - apply P5.
  - apply P6.
  - apply P7.
Qed.


(** [upload] sends the file and one byte more: it cuts what [fgetc] gives into
    chunks of at most 4096 bytes, in order, and the last one ends with the -1 of
    the end of the file; it stops at the first chunk that is not acknowledged. *)
Lemma upload_chunks c sname file net :
  let l := chunks (S (length file)) file in
  upload rand_of c sname file net = send_chunks c sname l net /\
  concat l = file ++ [255] /\
  Forall (fun b => (1 <= length b <= SOURCE_CHUNK_SIZE)%nat) l.
Proof.
  cbv zeta. destruct (chunks_spec (S (length file)) file ltac:(lia)) as [C L].
  split; [|done]. unfold upload. apply upload_loop_chunks. lia.
Qed.

(** ** Client and server together *)

Lemma get8_store_other p off bs o :
  (off + length bs <= length p)%nat -> (o < off \/ off + length bs <= o)%nat -> (o < length p)%nat ->
  get8 (store p off bs) o = get8 p o.
Proof.
  intros Hb Ho Hl. pose proof (load_store_other p off bs o 1 Hb ltac:(lia)) as E.
  rewrite !get8_load in E by (rewrite ?length_store; lia). by injection E.
Qed.

Lemma getPbk_packet_fields c rdn :
  get8 (getPbk_packet c rdn) o_crypt = 0 /\ get8 (getPbk_packet c rdn) o_mode = _GET_PUBLIC_KEY.
Proof.
  unfold getPbk_packet, set_i32, set_n32.
  change (le32 rdn) with [byte_of rdn 0; byte_of rdn 1; byte_of rdn 2; byte_of rdn 3].
  assert (L : length (mem32 (nint32_of (c_userid c))) = 4%nat) by done.
  revert L. generalize (mem32 (nint32_of (c_userid c))). intros m L.
  assert (L0 : length (set8 (bzero sizeof_netSource) o_mode _GET_PUBLIC_KEY) = sizeof_netSource).
  { unfold set8, bzero. rewrite length_store; rewrite length_replicate; [done|off12]. }
  change o_unique with 8%nat. change o_userid with 4%nat. change o_crypt with 0%nat.
  assert (S : (100 <= sizeof_netSource)%nat) by off12.
  split; rewrite !get8_store_other; rewrite ?length_store, ?L, ?L0; cbn [length]; try lia;
    try (change o_mode with 36%nat; lia); vm_compute; reflexivity.
Qed.

(** C9. A client and a server of this program never log in to each other: the
    server takes the client's request for its public key and answers nothing,
    and as long as nothing else comes from the parent's address [login] gives 0
    after sending that request one to ten times; the password is never sent. *)
Theorem login_unanswered c net
    (Hc : iscrypt c = false)
    (Hn : Forall (fun ev => ~ of_parent (parIP (cl_sv c)) (parPort (cl_sv c)) ev) net) :
  let p := getPbk_packet c (fst (draw rand_of c)) in
  (forall e buf mbuf, exists c' net' n, (1 <= n <= 10)%nat /\
     login rand_of e c buf mbuf net = Some (CInt 0, c', net', replicate n (to_parent c p))) /\
  (forall e sv from port, fst (fst (run e sv from port p)) = Ret true /\ events_of (run e sv from port p) = []).
Proof.
  cbv zeta. split; intros.
  - unfold login, getPbk. destruct (draw rand_of c) as [rdn c1] eqn:Ed.
    assert (F : cl_sv c1 = cl_sv c /\ iscrypt c1 = iscrypt c).
    { unfold draw in Ed. destruct (randnum _ _). by injection Ed as _ <-. }
    destruct F as [F1 F2]. cbn [fst].
    assert (Ep : getPbk_packet c1 rdn = getPbk_packet c rdn) by (unfold getPbk_packet, c_userid; by rewrite F1).
    rewrite Ep. destruct (ask_total c1 source_kind source_kind (getPbk_packet c rdn) buf
      (decode_answer source_kind (cl_key c1) rdn) net) as (a & x & net' & sent & -> & L & _ & W & Fs).
    rewrite watch_strangers in W by (by rewrite F1). destruct a; [done|].
    do 2 eexists. exists (length sent). split; [done|]. do 2 f_equal.
    specialize (Fs (fun y => proj1 (decode_answer_frame _ _ _ y))).
    unfold encode_query in Fs. rewrite F2, Hc in Fs. cbn [fst] in Fs.
    assert (T : to_parent c1 = to_parent c) by (unfold to_parent; by rewrite F1). rewrite T.
    clear -Fs. induction Fs as [|y l <- S IH]; [done|]. cbn. by rewrite IH.
  - destruct (getPbk_packet_fields c (fst (draw rand_of c))) as [E1 E2].
    unfold run, decrypt_request. rewrite E1. change (0 =? c_t) with false. cbv iota beta zeta.
    unfold q_mode. cbn [q_data]. rewrite E2. done.
Qed.
End Properties.

(** ** Witnesses *)

Section Witnesses.

Definition w_client (crypt : bool) : client gdb :=
  mk_client (w_server empty_db) 102 crypt (replicate 16 3) (bzero 34) [] (bzero sizeof_netReg) 0.
Definition w_rand (s : Z) : Z := 5.

Lemma w_rand_ok : forall s, 0 <= w_rand s <= 2 ^ 31 - 1.
Proof. intros. unfold w_rand. lia. Qed.

(** A second of silence and a stranger come before the parent's answer. *)
Definition w_before : list sock_event := [Silence; Datagram 1 3 (replicate 200 9); Failed].
Definition w_yes : list Z := reply (w_server empty_db) _SUCCEED.

Lemma w_before_strangers :
  Forall (fun ev => ~ of_parent (parIP (cl_sv (w_client false))) (parPort (cl_sv (w_client false))) ev) w_before.
Proof. repeat apply List.Forall_cons; [intros []|intros [_ E]; vm_compute in E; discriminate|intros []|constructor]. Qed.

Lemma w_yes_seen :
  (get8 (answer_seen (w_client false) query_kind (w_before ++ [Datagram 1 2 w_yes])) o_mode =? _SUCCEED) = true.
Proof. vm_compute. reflexivity. Qed.

(** Strangers a minute apart; what comes after is left. *)
Definition w_strangers : list sock_event :=
  replicate 60 Silence ++ Datagram 1 3 (replicate 200 9) :: replicate 60 Silence ++ [Datagram 7 2 []].

Lemma request_gives_up_witness :
  busy 100 w_strangers = true /\
  exists c', newSrc w_rand (w_client false) (lit "name") (w_strangers ++ replicate 1000 Silence ++ [Datagram 1 2 w_yes]) =
    Some (CNoValue, c', [Datagram 1 2 w_yes],
          replicate 10 (sent w_rand (w_client false) query_kind (fun c => newSrc_packet c (lit "name")))).
Proof.
  split; [reflexivity|]. refine (proj1 (request_gives_up w_rand w_env (w_client false) w_strangers [Datagram 1 2 w_yes] _ eq_refl) (lit "name")).
  unfold w_strangers. apply Forall_app. split; [apply Forall_replicate; intros []|].
  constructor; [intros [_ E]; vm_compute in E; discriminate|]. apply Forall_app. split; [apply Forall_replicate; intros []|].
  constructor; [intros [E _]; vm_compute in E; discriminate|constructor].
Defined.

Lemma request_answered_witness :
  exists c' out,
    newSrc w_rand (w_client false) (lit "name") (w_before ++ Datagram 1 2 w_yes :: [Silence]) =
    Some (CInt 1, c', [Silence], out).
Proof.
  assert (P : of_parent (parIP (cl_sv (w_client false))) (parPort (cl_sv (w_client false))) (Datagram 1 2 w_yes))
    by (split; reflexivity).
  destruct (request_answered w_rand (w_client false) w_before 1 2 w_yes [Silence] w_rand_ok eq_refl
              w_before_strangers ltac:(vm_compute; lia) P) as [A _].
  cbv zeta in A. rewrite w_yes_seen in A. exact (A (lit "name")).
Defined.

Lemma w_number_hidden :
  get_i32 (fst (encode_query (w_client true) query_kind (newSrc_packet (w_client true) (lit "name") 5))) o_unique <> 5.
Proof. vm_compute. discriminate. Qed.


Lemma login_unanswered_witness :
  exists c' net' n, (1 <= n <= 10)%nat /\
    login w_rand w_env (w_client false) [] [] w_before =
    Some (CInt 0, c', net', replicate n (to_parent (w_client false)
            (getPbk_packet (w_client false) (fst (draw w_rand (w_client false)))))).
Proof.
  exact (proj1 (login_unanswered w_rand (w_client false) w_before eq_refl w_before_strangers) w_env [] []).
Defined.
End Witnesses.
