(* ===== verification/Keys.v ===== *)
(** * Keys: core/key.hpp, signatures and key agreement

    [Signer] keeps a key pair and a chain of further keys it trusts, [Key] makes
    the key pairs of the Diffie-Hellman exchange and signs them.  OpenSSL is the
    class [EC]: its functions are operations, and [EC_laws] states how long a
    signature is.  A [const char *] that holds a key is the bytes from that
    address on. *)

From stdpp Require Import gmap.
From S2P Require Import Prelude.
From S2P Require Import Aes.
From S2P Require Import NInt.
From S2P Require Import Text.
From S2P Require Import Packet.
From S2P Require Import Crypt.
From S2P Require Import YsDB.
From S2P Require Import Connection.

#[local] Open Scope Z_scope.

(** ** OpenSSL *)

(** [get0_after_set old new]: what the object that [EC_KEY_get0_public_key]
    returned holds after [EC_KEY_set_public_key] put a copy of [new] in the place
    of [old].  [oct2point] fails on bytes that are no point and leaves
    [infinity], what [EC_POINT_new] made. *)
Class EC := {
  bignum : Type;
  point : Type;
  point2oct : point -> list Z;
  oct2point : list Z -> option point;
  infinity : point;
  bn2hex : bignum -> list Z;
  hex2bn : list Z -> bignum;
  get0_after_set : point -> point -> point;
  ecdsa_sign : bignum -> list Z -> list Z;
  ecdsa_verify : point -> list Z -> list Z -> bool;
  ecdh : bignum -> point -> option (list Z)
}.

(** [ECDSA_size] of the curve: a signature is no longer than 72 bytes. *)
Class EC_laws (E : EC) := {
  sign_length d data : (length (ecdsa_sign d data) <= 72)%nat
}.

Section Keys.
Context {E : EC}.

Record EC_KEY := mk_EC_KEY { k_priv : bignum; k_pub : point }.

(** ** class Signer *)

(** [s_point] is what [point] leads to; [pubkey] and [privkey] are the exported
    strings.  [next] is the rest of the chain. *)
Record Signer := mk_Signer {
  s_key : option EC_KEY;
  s_point : point;
  s_pubkey : list Z;
  s_privkey : option (list Z);
}.
Definition Signer_new (junk : point) (buf : list Z) : Signer := mk_Signer None junk buf None.

(** [g] is the key pair [EC_KEY_generate_key] makes. *)
Definition Signer_init (g : EC_KEY) (s : Signer) : bool * Signer :=
  match s_key s with
  | Some _ => (false, s)
  | None => (true, mk_Signer (Some g) (k_pub g) (point2oct (k_pub g)) (Some (bn2hex (k_priv g))))
  end.

Definition updatekeystr (s : Signer) : Signer :=
  match s_key s with
  | None => s
  | Some k => mk_Signer (Some k) (s_point s) (point2oct (s_point s)) (Some (bn2hex (k_priv k)))
  end.

Definition ensure (g : EC_KEY) (s : Signer) : Signer :=
  match s_key s with None => snd (Signer_init g s) | Some _ => s end.

Definition setpublickey_point (g : EC_KEY) (pbk : point) (s : Signer) : Signer :=
  let s := ensure g s in
  match s_key s with
  | None => s
  | Some k =>
      updatekeystr (mk_Signer (Some (mk_EC_KEY (k_priv k) pbk))
                      (get0_after_set (k_pub k) pbk) (s_pubkey s) (s_privkey s))
  end.

Definition setprivatekey_bn (g : EC_KEY) (pvk : bignum) (s : Signer) : Signer :=
  let s := ensure g s in
  match s_key s with
  | None => s
  | Some k =>
      updatekeystr (mk_Signer (Some (mk_EC_KEY pvk (k_pub k))) (s_point s) (s_pubkey s) (s_privkey s))
  end.

Definition point_of (pbk : list Z) : point :=
  match oct2point (take ECDH_SIZE pbk) with Some p => p | None => infinity end.

Definition setpublickey (g : EC_KEY) (pbk : list Z) (s : Signer) : Signer :=
  setpublickey_point g (point_of pbk) (ensure g s).
Definition setprivatekey (g : EC_KEY) (pvk : list Z) (s : Signer) : Signer :=
  setprivatekey_bn g (hex2bn pvk) (ensure g s).

Definition Signer_init_both (g : EC_KEY) (pvk pbk : list Z) (s : Signer) : Signer :=
  setpublickey g pbk (setprivatekey g pvk (snd (Signer_init g s))).
Definition Signer_init_pub (g : EC_KEY) (pbk : list Z) (s : Signer) : Signer :=
  setpublickey g pbk (snd (Signer_init g s)).

(** [sign] gives the bytes written and [*sig_len]. *)
Definition Signer_sign (s : Signer) (data : list Z) (datalen : nat) : option (list Z) :=
  match s_key s with
  | None => None
  | Some k => Some (ecdsa_sign (k_priv k) (take datalen data))
  end.

(** [ECDSA_verify] gets 20 as the length of the digest, whatever [datalen] is.
    [None]: it is called without a key, which no documentation allows. *)
Definition verify_one (s : Signer) (data sign : list Z) (sig_len : Z) : option bool :=
  match s_key s with
  | None => None
  | Some k => Some (ecdsa_verify (k_pub k) (take 20 data) (take (Z.to_nat sig_len) sign))
  end.
Fixpoint Signer_check (chain : list Signer) (data : list Z) (datalen : nat) (sign : list Z)
    (sig_len : Z) : option bool :=
  match chain with
  | [] => Some false
  | s :: next =>
      match verify_one s data sign sig_len with
      | None => None
      | Some true => Some true
      | Some false => Signer_check next data datalen sign sig_len
      end
  end.

(** [add] puts the new signer right behind the first. *)
Definition Signer_add (g : EC_KEY) (junk : point) (buf pbk : list Z) (chain : list Signer) : list Signer :=
  match chain with
  | [] => []
  | s :: next => s :: Signer_init_pub g pbk (Signer_new junk buf) :: next
  end.

(** ** class Key *)

(** [buf] is the [netSendkey] the pointer of the same name leads to. *)
Record Key := mk_Key { ecdh_key : option EC_KEY; kx_pubkey : list Z; shared : list Z; kx_len : Z }.

Definition Key_init (g : EC_KEY) (k : Key) : bool * Key :=
  let oct := point2oct (k_pub g) in
  (negb (length oct =? 0)%nat, mk_Key (Some g) oct (shared k) (Z.of_nat (length oct))).

(** What [ECDH_compute_key] gives to both versions of [computekey]; the outer
    [None]: [ecdh] and [group] were never set. *)
Definition ecdh_with (k : Key) (pubkey2 : list Z) : option (option (list Z)) :=
  match ecdh_key k with
  | None => None
  | Some e => Some (ecdh (k_priv e) (point_of pubkey2))
  end.
Definition computekey_own (k : Key) (pubkey2 : list Z) : option (bool * Key) :=
  match ecdh_with k pubkey2 with
  | None => None
  | Some None => Some (false, mk_Key (ecdh_key k) (kx_pubkey k) (shared k) 0)
  | Some (Some secret) =>
      Some (true, mk_Key (ecdh_key k) (kx_pubkey k) (store (shared k) 0 secret) (Z.of_nat (length secret)))
  end.
Definition computekey_out (k : Key) (pubkey2 out : list Z) : option (bool * list Z * Key) :=
  match ecdh_with k pubkey2 with
  | None => None
  | Some None => Some (false, out, mk_Key (ecdh_key k) (kx_pubkey k) (shared k) 0)
  | Some (Some secret) =>
      Some (true, store out 0 secret,
            mk_Key (ecdh_key k) (kx_pubkey k) (shared k) (Z.of_nat (length secret)))
  end.

(** The members of [netSendkey], at the start of the list. *)
Definition k_siglen : nat := member_offset netSendkey 0.
Definition k_sign : nat := member_offset netSendkey 1.
Definition k_pubkey : nat := member_offset netSendkey 2.

Definition initbuf (g : EC_KEY) (k : Key) (buf : list Z) : Key * list Z :=
  let k := snd (Key_init g k) in
  (k, for_ 0 ECDH_SIZE (fun i buf => setn buf (k_pubkey + i) (getn (kx_pubkey k) i)) buf).

Definition computekey_buf (k : Key) (buf : list Z) : option (bool * Key) :=
  computekey_own k (load buf k_pubkey ECDH_SIZE).

Definition Key_checksign (chain : list Signer) (buf : list Z) : option bool :=
  let len := ntohl (of_le32 (load buf k_siglen 4)) in
  if 1024 <? len then Some false
  else Signer_check chain (load buf k_pubkey ECDH_SIZE) ECDH_SIZE (load buf k_sign 1024) len.

(** [junk] is [len] when [ECDSA_sign] fails. *)
Definition Key_sign (s : Signer) (junk : Z) (buf : list Z) : list Z :=
  match Signer_sign s (load buf k_pubkey ECDH_SIZE) ECDH_SIZE with
  | None => store buf k_siglen (le32 (htonl junk))
  | Some sign => store (store buf k_sign sign) k_siglen (le32 (htonl (Z.of_nat (length sign))))
  end.

(** What [ECDSA_verify] answers for a trusted key given by its bytes, as the
    parameter of YsDB.v, Connection.v and Client.v. *)
Definition verify_oct (pbk data sign : list Z) (sig_len : Z) : bool :=
  ecdsa_verify (point_of pbk) data (take (Z.to_nat sig_len) sign).
End Keys.
Arguments EC_KEY : clear implicits.
Arguments Signer : clear implicits.
Arguments Key : clear implicits.

(** ** Lemmas *)

Lemma netReg_layout :
  r_crypt = 0%nat /\ r_data = 4%nat /\ r_uid = 4%nat /\ r_tm = 8%nat /\ r_pwd = 12%nat /\
  r_slen = 60%nat /\ r_sign = 64%nat /\ sizeof_netReg_data = 24%nat /\ sizeof_netReg = 1124%nat.
Proof. by vm_compute. Qed.

Lemma netSendkey_layout :
  k_siglen = 0%nat /\ k_sign = 4%nat /\ k_pubkey = 1028%nat /\ sizeof_netSendkey = 1064%nat.
Proof. by vm_compute. Qed.

Section Trust.
Context {E : EC}.

Definition add_all (junk : point) (buf : list Z) (adds : list (EC_KEY E * list Z))
    (chain : list (Signer E)) : list (Signer E) :=
  fold_left (fun chain a => Signer_add (fst a) junk buf (snd a) chain) adds chain.

Lemma init_pub_key g pbk junk buf :
  s_key (Signer_init_pub g pbk (Signer_new junk buf)) = Some (mk_EC_KEY (k_priv g) (point_of pbk)).
Proof. done. Qed.

Lemma add_all_chain junk buf adds : forall s next,
  exists next', add_all junk buf adds (s :: next) = s :: next' ++ next /\
    map s_key next' = map (fun a => Some (mk_EC_KEY (k_priv (fst a)) (point_of (snd a)))) (rev adds).
Proof.
  induction adds as [|a adds IH]; intros s next; [by exists []|].
  destruct (IH s (Signer_init_pub (fst a) (snd a) (Signer_new junk buf) :: next)) as (l & E1 & E2).
  exists (l ++ [Signer_init_pub (fst a) (snd a) (Signer_new junk buf)]). split.
  - unfold add_all in *. cbn [fold_left Signer_add]. rewrite E1, <- app_assoc. done.
  - cbn [rev]. rewrite !map_app, E2. done.
Qed.

Lemma check_keys data n sign len : forall chain keys,
  map s_key chain = map Some keys ->
  Signer_check chain data n sign len
  = Some (existsb (fun k => ecdsa_verify (k_pub k) (take 20 data) (take (Z.to_nat len) sign)) keys).
Proof.
  induction chain as [|s chain IH]; intros [|k keys] Hk; try discriminate; [done|].
  injection Hk as Hs Hk. cbn [Signer_check existsb]. unfold verify_one. rewrite Hs.
  destruct (ecdsa_verify _ _ _); [done|]. rewrite (IH keys Hk). done.
Qed.
End Trust.

Section Certificates.
Context {E : EC} {L : EC_laws E}.

(** What the trusted [keys] say of the first 20 bytes of [data]. *)
Definition accepted (keys : list point) (data sign : list Z) : bool :=
  existsb (fun Q => ecdsa_verify Q (take 20 data) sign) keys.

Lemma sign_checked chain keys s k junk buf :
  s_key s = Some k -> map s_key chain = map Some keys -> length buf = sizeof_netSendkey ->
  let data := load buf k_pubkey ECDH_SIZE in
  Key_checksign chain (Key_sign s junk buf) = Some (accepted (map k_pub keys) data (ecdsa_sign (k_priv k) data)).
Proof.
  destruct netSendkey_layout as (A & B & P & Z1). rewrite Z1, P. intros Hk Hc Hl. cbv zeta.
  unfold Key_sign, Signer_sign. rewrite Hk, P, A, B.
  set (data := load buf 1028 ECDH_SIZE).
  assert (Hd : length data = 33%nat) by (apply length_load; cbn; lia).
  rewrite (take_ge data) by (rewrite Hd; done).
  set (sg := ecdsa_sign (k_priv k) data). pose proof (sign_length (k_priv k) data) as Ls. fold sg in Ls.
  set (w := le32 (htonl (Z.of_nat (length sg)))). set (buf' := store (store buf 4 sg) 0 w).
  assert (L1 : length (store buf 4 sg) = 1064%nat) by (rewrite length_store; lia).
  assert (Lw : length w = 4%nat) by done.
  assert (Ew : load buf' 0 4 = w).
  { unfold buf'. rewrite <- Lw at 2. apply load_store_same. lia. }
  assert (Ed : load buf' 1028 ECDH_SIZE = data).
  { unfold buf'. change ECDH_SIZE with 33%nat. rewrite load_store_other by lia.
    rewrite load_store_other by lia. done. }
  assert (Eg : take (length sg) (load buf' 4 1024) = sg).
  { unfold load. rewrite take_take, Nat.min_l by lia.
    fold (load buf' 4 (length sg)). unfold buf'.
    rewrite load_store_other by lia. apply load_store_same. lia. }
  unfold Key_checksign. rewrite A, B, P, Ew, Ed.
  assert (El : ntohl (of_le32 w) = Z.of_nat (length sg)).
  { unfold w, ntohl. rewrite of_le32_le, le32_u32, le32_htonl, rev_involutive, of_le32_le, u32_id; lia. }
  rewrite El. destruct (Z.ltb_spec 1024 (Z.of_nat (length sg))); [lia|].
  rewrite (check_keys _ _ _ _ _ keys) by done. rewrite Nat2Z.id, Eg. f_equal. unfold accepted.
  clear. induction keys as [|t keys IH]; [done|]. cbn [map existsb]. by rewrite IH.
Qed.

Lemma load_part m l l' off n : load l' 0 m = load l 0 m -> (off + n <= m)%nat -> load l' off n = load l off n.
Proof.
  intros El Hn. assert (X : forall l, load l off n = take n (drop off (load l 0 m))).
  { intros k. unfold load. rewrite drop_0. apply list_eq. intros i.
    destruct (Nat.lt_ge_cases i n); [|by rewrite !lookup_take_ge].
    rewrite !lookup_take_lt, !lookup_drop, lookup_take_lt by lia. done. }
  by rewrite !X, El.
Qed.

(** The bytes of the public key behind the twentieth do not matter. *)
Lemma checksign_twenty chain buf buf' :
  load buf' 0 (k_pubkey + 20) = load buf 0 (k_pubkey + 20) ->
  Key_checksign chain buf' = Key_checksign chain buf.
Proof.
  destruct netSendkey_layout as (A & B & P & _). rewrite P. intros El.
  unfold Key_checksign. rewrite A, B, P, (load_part 1048 buf buf' 0 4), (load_part 1048 buf buf' 4 1024)
    by (done || lia).
  destruct (1024 <? _); [done|].
  assert (Ed : take 20 (load buf' 1028 ECDH_SIZE) = take 20 (load buf 1028 ECDH_SIZE)).
  { pose proof (load_part 1048 buf buf' 1028 20 El ltac:(lia)) as X. unfold load in *.
    by rewrite !take_take. }
  induction chain as [|s chain IH]; cbn [Signer_check]; [done|].
  unfold verify_one in *. rewrite Ed. destruct (s_key s); [|done]. by rewrite IH.
Qed.

Lemma dosign_checked d signers reg now : length reg = sizeof_netReg ->
  let data := load reg r_data sizeof_netReg_data in
  netReg_check verify_oct signers (netReg_dosign (ecdsa_sign d) reg) now
  = if 3600 <? s32 (Z.abs (s32 (get_n32 reg r_tm - now))) then false
    else accepted (map point_of signers) data (ecdsa_sign d data).
Proof.
  destruct netReg_layout as (_ & Dd & _ & R & _ & S1 & S2 & Sd & ->). rewrite Dd, Sd, R. intros Hl. cbv zeta.
  set (data := load reg 4 24) in *.
  pose proof (sign_length d data) as Ls.
  assert (Hd : length data = 24%nat) by (apply length_load; lia).
  set (sg := ecdsa_sign d data) in *. set (reg' := netReg_dosign _ _).
  assert (Er : reg' = set_n32 (store reg 64 sg) 60 (Z.of_nat (length sg)))
    by (unfold reg', netReg_dosign; rewrite S1, S2, Dd, Sd; done).
  assert (L1 : length (store reg 64 sg) = 1124%nat) by (rewrite length_store; lia).
  assert (M4 : forall v, length (mem32 (nint32_of v)) = 4%nat) by done.
  assert (Es : get_n32 reg' 60 = Z.of_nat (length sg)).
  { rewrite Er. apply get_set_n32; lia. }
  assert (Ed : load reg' 4 24 = data).
  { rewrite Er. unfold set_n32. rewrite load_store_other by (rewrite ?M4; lia).
    rewrite load_store_other by lia. done. }
  assert (Et : get_n32 reg' 8 = get_n32 reg 8).
  { rewrite Er. unfold get_n32, set_n32. rewrite load_store_other by (rewrite ?M4; lia).
    rewrite load_store_other by lia. done. }
  assert (Eg : take (length sg) (load reg' 64 1024) = sg).
  { unfold load. rewrite take_take, Nat.min_l by lia.
    fold (load reg' 64 (length sg)). rewrite Er. unfold set_n32.
    rewrite load_store_other by (rewrite ?M4; lia). apply load_store_same. lia. }
  unfold netReg_check. rewrite S1, S2, Dd, Sd, R, Es, Ed, Et.
  destruct (Z.ltb_spec 1024 (Z.of_nat (length sg))); [lia|]. destruct (3600 <? _); [done|].
  rewrite s32_id by lia. unfold YsDB.Signer_check, accepted, verify_oct.
  rewrite Nat2Z.id, Eg. clear. induction signers as [|t signers IH]; [done|]. cbn [map existsb]. by rewrite IH.
Qed.

(** What [netReg::init] has in the record when it signs it: the user, the time and
    the password. *)
Definition reg_data (uid now : Z) (pwd : list Z) : list Z :=
  mem32 (nint32_of uid) ++ mem32 (nint32_of now) ++ map (getn pwd) (seq 0 16).

Lemma init_data reg uid pwd now : length reg = sizeof_netReg ->
  exists reg', (forall sign_data, netReg_init sign_data reg uid pwd now = netReg_dosign sign_data reg') /\
    length reg' = sizeof_netReg /\ load reg' r_data sizeof_netReg_data = reg_data uid now pwd /\
    get_n32 reg' r_tm = s32 now.
Proof.
  destruct netReg_layout as (C & Dd & U & T & P & _ & _ & S & Z1). rewrite Z1. intros Hl.
  set (reg1 := copy_bytes 16 reg 12 pwd).
  assert (L1 : length reg1 = 1124%nat) by (unfold reg1; destruct (copy_bytes_spec 16 pwd reg 12); lia).
  exists (set8 (set_n32 (set_n32 reg1 4 uid) 8 now) 0 c_f).
  assert (M : forall v, length (mem32 (nint32_of v)) = 4%nat) by done.
  assert (L2 : length (set_n32 reg1 4 uid) = 1124%nat)
    by (unfold set_n32; rewrite length_store; rewrite ?M; lia).
  assert (L3 : length (set_n32 (set_n32 reg1 4 uid) 8 now) = 1124%nat)
    by (unfold set_n32 at 1; rewrite length_store; rewrite ?M; lia).
  split; [intros; unfold netReg_init; rewrite P, U, T, C; done|].
  split; [unfold set8; rewrite length_store; rewrite ?L3; cbn [length]; lia|].
  rewrite Dd, S, T. set (reg2 := set8 _ _ _).
  assert (F1 : load reg2 4 4 = mem32 (nint32_of uid)).
  { unfold reg2, set8, set_n32 at 1. rewrite load_store_other by (cbn [length]; rewrite ?length_store, ?M; rewrite ?M, ?L2; lia).
    rewrite load_store_other by (rewrite ?M, ?L2; lia). unfold set_n32.
    rewrite <- (M uid). apply load_store_same. rewrite M. lia. }
  assert (F2 : load reg2 8 4 = mem32 (nint32_of now)).
  { unfold reg2, set8, set_n32 at 1. rewrite load_store_other by (cbn [length]; rewrite ?length_store, ?M; rewrite ?M, ?L2; lia).
    rewrite <- (M now) at 2. apply load_store_same. rewrite M, L2. lia. }
  assert (F3 : load reg2 12 16 = map (getn pwd) (seq 0 16)).
  { unfold reg2, set8, set_n32. rewrite load_store_other by (cbn [length]; rewrite ?length_store; rewrite ?length_store, ?M; rewrite ?M, ?L1; lia).
    rewrite load_store_other by (rewrite ?length_store, ?M; rewrite ?M, ?L1; lia).
    rewrite load_store_other by (rewrite ?M, ?L1; lia). apply load_copy_bytes. lia. }
  split.
  - assert (J : forall o n m, load reg2 o (n + m) = load reg2 o n ++ load reg2 (o + n) m).
    { intros o n m. unfold load. rewrite <- (take_take_drop (drop o reg2) n m), drop_drop. done. }
    unfold reg_data. change 24%nat with (4 + (4 + 16))%nat. rewrite !J. cbn [Nat.add]. by rewrite F1, F2, F3.
  - unfold get_n32. rewrite F2. rewrite nint32_at_mem by apply s32_range. apply nint32_val_of.
Qed.

(** The last four bytes of the password of a registration do not matter either. *)
Lemma reg_twenty signers reg reg' now :
  load reg' 0 (r_data + 20) = load reg 0 (r_data + 20) -> load reg' r_slen 1028 = load reg r_slen 1028 ->
  netReg_check verify_oct signers reg' now = netReg_check verify_oct signers reg now.
Proof.
  destruct netReg_layout as (_ & Dd & _ & R & _ & S1 & S2 & Sd & _). rewrite Dd, S1. intros E1 E2.
  assert (K : forall o n, (o + n <= 1028)%nat -> load reg' (60 + o) n = load reg (60 + o) n).
  { intros o n Hn. assert (X : forall l, load l (60 + o) n = load (drop 60 l) o n)
      by (intros l; unfold load; by rewrite drop_drop).
    rewrite !X. apply (load_part 1028); [|done]. unfold load in *. by rewrite !drop_0. }
  unfold netReg_check. rewrite S1, S2, Dd, R, Sd.
  assert (E3 : get_n32 reg' 60 = get_n32 reg 60) by (unfold get_n32; by rewrite (K 0%nat 4%nat ltac:(lia) : load reg' 60 4 = load reg 60 4)).
  assert (E4 : get_n32 reg' 8 = get_n32 reg 8) by (unfold get_n32; by rewrite (load_part (4 + 20) reg reg' 8 4) by (done || lia)).
  rewrite E3, E4, (K 4%nat 1024%nat ltac:(lia) : load reg' 64 1024 = load reg 64 1024). unfold YsDB.Signer_check, verify_oct.
  assert (E5 : take 20 (load reg' 4 24) = take 20 (load reg 4 24)).
  { pose proof (load_part (4 + 20) reg reg' 4 20 E1 ltac:(lia)) as X. unfold load in *. by rewrite !take_take. }
  by rewrite E5.
Qed.
End Certificates.

(** C32.  Signatures are made over 33 bytes (the public key of an exchange) or 24 (a
    registration: the user, the time, the password), but [check] verifies every one
    against the first 20 bytes only.  So what the program signed itself is accepted
    exactly when some trusted key verifies, for those 20 bytes, a signature made over
    all of them (and, for a registration, the time is within the hour); and whatever
    is accepted is accepted as well with any other bytes behind the twentieth: the end
    of a public key, the last four characters of a password. *)
Theorem certificates_twenty {E : EC} {L : EC_laws E} :
  (forall chain keys s k junk buf,
     s_key s = Some k -> map s_key chain = map Some keys -> length buf = sizeof_netSendkey ->
     let data := load buf k_pubkey ECDH_SIZE in
     Key_checksign chain (Key_sign s junk buf)
     = Some (accepted (map k_pub keys) data (ecdsa_sign (k_priv k) data))) /\
  (forall signers d reg uid pwd now now', length reg = sizeof_netReg ->
     let data := reg_data uid now pwd in
     netReg_check verify_oct signers (netReg_init (ecdsa_sign d) reg uid pwd now) now'
     = if 3600 <? s32 (Z.abs (s32 (s32 now - now'))) then false
       else accepted (map point_of signers) data (ecdsa_sign d data)) /\
  (forall chain buf buf', load buf' 0 (k_pubkey + 20) = load buf 0 (k_pubkey + 20) ->
     Key_checksign chain buf' = Key_checksign chain buf) /\
  (forall signers reg reg' now,
     load reg' 0 (r_data + 20) = load reg 0 (r_data + 20) -> load reg' r_slen 1028 = load reg r_slen 1028 ->
     netReg_check verify_oct signers reg' now = netReg_check verify_oct signers reg now).
Proof.
  split; [intros; by apply sign_checked|]. split; [|split; [apply checksign_twenty|apply reg_twenty]].
  intros signers d reg uid pwd now now' Hl. destruct (init_data reg uid pwd now Hl) as (reg' & -> & Hr & <- & <-).
  by apply dosign_checked.
Qed.

(**  After any keys were added to an initialised signer, [check] accepts what
    the signer's own key or one of the added keys accepts, and nothing else: it
    is the check over the list of trusted keys that the model of the database
    is built on. *)
Lemma check_trusts {E : EC} junk buf adds s k data n sign len :
  s_key s = Some k ->
  Signer_check (add_all junk buf adds [s]) data n sign len
  = Some (ecdsa_verify (k_pub k) (take 20 data) (take (Z.to_nat len) sign)
          || YsDB.Signer_check verify_oct (map snd (rev adds)) data n sign len).
Proof.
  intros Hk. destruct (add_all_chain junk buf adds s []) as (l & -> & El).
  rewrite app_nil_r, (check_keys _ _ _ _ _ (k :: map (fun a => mk_EC_KEY (k_priv (fst a)) (point_of (snd a))) (rev adds))).
  - cbn [existsb]. unfold YsDB.Signer_check, verify_oct. do 2 f_equal. clear El.
    induction (rev adds) as [|a r IH]; [done|]. cbn [map existsb k_pub]. by rewrite IH.
  - cbn [map]. rewrite Hk, El, map_map. done.
Qed.

(** ** The secret of an exchange *)

(** Whoever runs [initbuf] on both sides and hands each other the public keys gets
    one secret, when the group commutes and its points are read back. *)
Lemma exchange_agrees {E : EC} (ga gb : EC_KEY E) (ka kb : Key E) ba bb secret :
  (forall g, g = ga \/ g = gb -> oct2point (point2oct (k_pub g)) = Some (k_pub g) /\ length (point2oct (k_pub g)) = 33%nat) ->
  ecdh (k_priv ga) (k_pub gb) = Some secret -> ecdh (k_priv gb) (k_pub ga) = Some secret ->
  shared ka = shared kb ->
  option_map (fun r => shared (snd r)) (computekey_own (fst (initbuf ga ka ba)) (kx_pubkey (fst (initbuf gb kb bb))))
  = option_map (fun r => shared (snd r)) (computekey_own (fst (initbuf gb kb bb)) (kx_pubkey (fst (initbuf ga ka ba)))).
Proof.
  intros Hg Ha Hb Hs. unfold computekey_own, ecdh_with, point_of. cbn [initbuf Key_init fst snd ecdh_key kx_pubkey shared].
  destruct (Hg ga) as [Oa La]; [auto|]. destruct (Hg gb) as [Ob Lb]; [auto|].
  rewrite !take_ge by (rewrite ?La, ?Lb; done). rewrite Oa, Ob, Ha, Hb. cbn. by rewrite Hs.
Qed.

(** A scheme the law holds of: a signature shows its key and the digest, cut at 32 bytes. *)
Definition toy_ec : EC := {|
  bignum := list Z; point := list Z;
  point2oct p := p; oct2point l := Some l; infinity := [];
  bn2hex d := d; hex2bn l := l; get0_after_set _ new := new;
  ecdsa_sign d data := take 32 data ++ take 33 d;
  ecdsa_verify Q data sg := bool_decide (sg = take 32 data ++ take 33 Q);
  ecdh a b := Some (take 33 (zip_with Z.lxor a b))
|}.

#[export] Instance toy_laws : EC_laws toy_ec.
Proof.
  split. intros d data. cbn. rewrite length_app, !length_take. lia.
Qed.

(** With this scheme, what the program signed with a key it trusts is refused. *)
Lemma certificates_twenty_witness :
  let d := replicate 33 7 in
  let s := mk_Signer (E := toy_ec) (Some (mk_EC_KEY (E := toy_ec) d d)) d d None in
  let reg := replicate sizeof_netReg 0 in
  Key_checksign [s] (Key_sign s 0 (replicate sizeof_netSendkey 2)) = Some false /\
  netReg_check (verify_oct (E := toy_ec)) [d]
    (netReg_init (ecdsa_sign (EC := toy_ec) d) reg 5 (replicate 16 97) 1000) 1000 = false.
Proof.
  destruct (certificates_twenty (E := toy_ec)) as (A & B & _). split.
  - etrans; [eapply (A _ [mk_EC_KEY (E := toy_ec) (replicate 33 7) (replicate 33 7)]);
      [reflexivity|reflexivity|apply length_replicate]|]. vm_compute. reflexivity.
  - etrans; [apply (B [replicate 33 7] (replicate 33 7) (replicate sizeof_netReg 0) 5 (replicate 16 97) 1000 1000);
      apply length_replicate|]. vm_compute. reflexivity.
Defined.

Lemma check_trusts_witness :
  let s := mk_Signer (E := toy_ec) (Some (mk_EC_KEY (E := toy_ec) [1] [1])) [1] [1] None in
  let g := mk_EC_KEY (E := toy_ec) [9] [9] in
  Signer_check (add_all (E := toy_ec) [] [] [(g, [2]); (g, [3])] [s]) [7] 33 (ecdsa_sign (EC := toy_ec) [2] [7]) 2
  = Some true.
Proof.
  intros s g. etrans.
  - apply (check_trusts (E := toy_ec) [] [] _ s (mk_EC_KEY (E := toy_ec) [1] [1])). reflexivity.
  - vm_compute. reflexivity.
Defined.
