(* ===== verification/Pools.v ===== *)
(** * Pools: the free lists of core/luapool.hpp, core/server.hpp and core/threadpool.hpp

    Three pools keep the objects given back to them in a list linked through the
    objects themselves.  The store is a finite map from addresses to objects, so
    that an object in use and the list share it; [new] takes an address that is
    not in the store.  The mutex of a pool makes each operation one step.

    [Pool] is what the three promise to their clients. *)

From S2P Require Import Prelude Packet.
From stdpp Require Import list gmap.

(** ** Lists linked through a store *)

Section Chain.
Context {A : Type} (next : A -> option nat).
Implicit Types h : gmap nat A.

(** [start] leads through [next] over exactly the nodes of [l]. *)
Fixpoint chain h (start : option nat) (l : list nat) : Prop :=
  match l with
  | [] => start = None
  | x :: l => start = Some x /\ exists a, h !! x = Some a /\ chain h (next a) l
  end.

Lemma chain_insert h x a l : forall start, x ∉ l -> chain h start l -> chain (<[x := a]> h) start l.
Proof.
  induction l as [|y l IH]; intros start Hx Hc; [done|].
  apply not_elem_of_cons in Hx as [N Hx]. destruct Hc as (-> & b & Hb & Hc). split; [done|].
  exists b. split; [by rewrite lookup_insert_ne|by apply IH].
Qed.

Lemma chain_delete h x l : forall start, x ∉ l -> chain h start l -> chain (delete x h) start l.
Proof.
  induction l as [|y l IH]; intros start Hx Hc; [done|].
  apply not_elem_of_cons in Hx as [N Hx]. destruct Hc as (-> & b & Hb & Hc). split; [done|].
  exists b. split; [by rewrite lookup_delete_ne|by apply IH].
Qed.

Lemma chain_dom h start l x : chain h start l -> x ∈ l -> x ∈ dom h.
Proof.
  revert start. induction l as [|y l IH]; intros start Hc Hx; [by apply not_elem_of_nil in Hx|].
  destruct Hc as (-> & b & Hb & Hc). apply elem_of_cons in Hx as [->|Hx].
  - by apply elem_of_dom_2 in Hb.
  - by eapply IH.
Qed.

End Chain.

(** ** What a pool promises *)

(** [pool_inv p l u]: [l] is the list of the objects that wait to be used again,
    [u] the set of those that are in use, and these are all the pool has. *)
Class Pool (P : Type) := {
  pool_get : P -> nat * P;
  pool_del : nat -> P -> P;
  pool_inv : P -> list nat -> gset nat -> Prop;
  pool_apart p l u : pool_inv p l u -> NoDup l /\ (forall x, x ∈ l -> x ∉ u);
  pool_get_inv p l u : pool_inv p l u ->
    let '(x, p') := pool_get p in
    x ∉ u /\ match l with
             | y :: l' => x = y /\ pool_inv p' l' ({[x]} ∪ u)
             | [] => pool_inv p' [] ({[x]} ∪ u)
             end;
  pool_del_inv p l u x : pool_inv p l u -> x ∈ u -> pool_inv (pool_del x p) (x :: l) (u ∖ {[x]})
}.

(** ** luapool *)

(** [lua_node]; the interpreter [S] is a parameter: [newstate] is what
    [luaL_newstate] and [initstate] make, [settop0] is [lua_settop(L,0)]. *)
Record lua_node (S : Type) := mk_node { ln_next : option nat; ln_L : S }.
Arguments mk_node {S}.
Arguments ln_next {S}.
Arguments ln_L {S}.

Record lpool (S : Type) := mk_lpool {
  lp_heap : gmap nat (lua_node S); lp_freed : option nat; lp_used : Z; lp_malloced : Z
}.
Arguments mk_lpool {S}.
Arguments lp_heap {S}.
Arguments lp_freed {S}.
Arguments lp_used {S}.
Arguments lp_malloced {S}.

Section LuaPool.
Context {S : Type} (newstate : S) (settop0 : S -> S).

Definition lpool_new : lpool S := mk_lpool ∅ None 0 0.

(** [new lua_node] *)
Definition new_lua_node (h : gmap nat (lua_node S)) : nat * gmap nat (lua_node S) :=
  let r := fresh (dom h) in (r, <[r := mk_node None newstate]> h).

Definition lp_get (p : lpool S) : nat * lpool S :=
  let used := u32 (lp_used p + 1) in
  match lp_freed p with
  | Some r =>
      match lp_heap p !! r with
      | Some n => (r, mk_lpool (<[r := mk_node None (ln_L n)]> (lp_heap p)) (ln_next n) used (lp_malloced p))
      | None => (r, mk_lpool (lp_heap p) None used (lp_malloced p))
      end
  | None =>
      let '(r, h) := new_lua_node (lp_heap p) in
      (r, mk_lpool h None used (u32 (lp_malloced p + 1)))
  end.

Definition lp_del (f : nat) (p : lpool S) : lpool S :=
  match lp_heap p !! f with
  | Some n => mk_lpool (<[f := mk_node (lp_freed p) (ln_L n)]> (lp_heap p)) (Some f) (u32 (lp_used p - 1)) (lp_malloced p)
  | None => p
  end.

Definition Create : lpool S -> nat * lpool S := lp_get.

(** [clean] then [del] *)
Definition clean (t : nat) (p : lpool S) : lpool S :=
  match lp_heap p !! t with
  | Some n => mk_lpool (<[t := mk_node (ln_next n) (settop0 (ln_L n))]> (lp_heap p)) (lp_freed p) (lp_used p) (lp_malloced p)
  | None => p
  end.
Definition Delete (t : nat) (p : lpool S) : lpool S := lp_del t (clean t p).

Definition lp_inv (p : lpool S) (l : list nat) (u : gset nat) : Prop :=
  chain ln_next (lp_heap p) (lp_freed p) l /\ NoDup l /\ (forall x, x ∈ l -> x ∉ u) /\
  dom (lp_heap p) = list_to_set l ∪ u /\
  lp_used p = u32 (Z.of_nat (size u)) /\ lp_malloced p = u32 (Z.of_nat (length l + size u)).
End LuaPool.

(** ** requirePool *)

Record require := mk_require {
  rq_from : Z; rq_port : Z; rq_self : Z; rq_buffer : list Z; rq_next : option nat
}.
Definition require_zero : require := mk_require 0 0 0 (bzero sizeof_netSource) None.

Record rpool := mk_rpool {
  rp_heap : gmap nat require; rp_req : option nat; rp_malloc : Z; rp_using : Z
}.

(** The constructor makes one [require], whose fields but [next] are not set;
    [g] is what they hold. *)
Definition rpool_new (g : require) : rpool :=
  mk_rpool {[0%nat := mk_require (rq_from g) (rq_port g) (rq_self g) (rq_buffer g) None]} (Some 0%nat) 1 0.

(** [bzero(r,sizeof(require))] comes last. *)
Definition rp_get (p : rpool) : nat * rpool :=
  match rp_req p with
  | Some r =>
      let nx := match rp_heap p !! r with Some n => rq_next n | None => None end in
      (r, mk_rpool (<[r := require_zero]> (rp_heap p)) nx (rp_malloc p) (rp_using p + 1))
  | None =>
      let r := fresh (dom (rp_heap p)) in
      (r, mk_rpool (<[r := require_zero]> (rp_heap p)) None (rp_malloc p + 1) (rp_using p + 1))
  end.

Definition rp_del (r : nat) (p : rpool) : rpool :=
  match rp_heap p !! r with
  | Some n =>
      mk_rpool (<[r := mk_require (rq_from n) (rq_port n) (rq_self n) (rq_buffer n) (rp_req p)]> (rp_heap p))
        (Some r) (rp_malloc p) (rp_using p - 1)
  | None => p
  end.

Definition freeone (p : rpool) : rpool :=
  match rp_req p with
  | None => p
  | Some r =>
      let nx := match rp_heap p !! r with Some n => rq_next n | None => None end in
      mk_rpool (delete r (rp_heap p)) nx (rp_malloc p - 1) (rp_using p)
  end.

Definition rp_inv (p : rpool) (l : list nat) (u : gset nat) : Prop :=
  chain rq_next (rp_heap p) (rp_req p) l /\ NoDup l /\ (forall x, x ∈ l -> x ∉ u) /\
  dom (rp_heap p) = list_to_set l ∪ u /\
  rp_using p = Z.of_nat (size u) /\ rp_malloc p = Z.of_nat (length l + size u).

(** ** tw_pool: the nodes of the work queue *)

Record work := mk_work { w_routine : Z; w_arg : Z; w_next : option nat }.

Record tw_pool := mk_twp { tw_heap : gmap nat work; tw_freed : option nat }.

(** [g]: what a new node holds; a reused one keeps its fields. *)
Definition tw_get (g : work) (p : tw_pool) : nat * tw_pool :=
  match tw_freed p with
  | Some r =>
      (r, mk_twp (tw_heap p) (match tw_heap p !! r with Some n => w_next n | None => None end))
  | None =>
      let r := fresh (dom (tw_heap p)) in (r, mk_twp (<[r := g]> (tw_heap p)) None)
  end.

Definition tw_del (f : nat) (p : tw_pool) : tw_pool :=
  match tw_heap p !! f with
  | Some n => mk_twp (<[f := mk_work (w_routine n) (w_arg n) (tw_freed p)]> (tw_heap p)) (Some f)
  | None => p
  end.

Definition tw_inv (p : tw_pool) (l : list nat) (u : gset nat) : Prop :=
  chain w_next (tw_heap p) (tw_freed p) l /\ NoDup l /\ (forall x, x ∈ l -> x ∉ u) /\
  dom (tw_heap p) = list_to_set l ∪ u.

(** ** The three keep the promise *)

Lemma size_add (u : gset nat) x : x ∉ u -> size ({[x]} ∪ u) = S (size u).
Proof. intros. rewrite size_union by set_solver. by rewrite size_singleton. Qed.

Lemma size_remove (u : gset nat) x : x ∈ u -> S (size (u ∖ {[x]})) = size u.
Proof.
  intros. rewrite size_difference, size_singleton by set_solver.
  assert (size u <> 0%nat) by (intros E; apply size_empty_inv in E; set_solver). lia.
Qed.

Lemma u32_succ n : u32 (u32 (Z.of_nat n) + 1) = u32 (Z.of_nat (S n)).
Proof. unfold u32. rewrite Zplus_mod_idemp_l. f_equal. lia. Qed.

Lemma u32_pred n : u32 (u32 (Z.of_nat (S n)) - 1) = u32 (Z.of_nat n).
Proof. unfold u32. rewrite Zminus_mod_idemp_l. f_equal. lia. Qed.

(** Moving an object between the list and the set keeps the store's domain. *)
Lemma dom_take (l : list nat) x (u : gset nat) :
  list_to_set (x :: l) ∪ u = list_to_set l ∪ ({[x]} ∪ u).
Proof. set_solver. Qed.

Lemma dom_give (l : list nat) x (u : gset nat) :
  x ∈ u -> list_to_set (x :: l) ∪ (u ∖ {[x]}) = list_to_set l ∪ u.
Proof.
  intros. apply leibniz_equiv. intros y. destruct (decide (y = x)); set_solver.
Qed.

Section Instances.
Context {S : Type} (newstate : S) (settop0 : S -> S).

Lemma lp_get_inv (p : lpool S) l u : lp_inv p l u ->
  let '(x, p') := lp_get newstate p in
  x ∉ u /\ match l with
           | y :: l' => x = y /\ lp_inv p' l' ({[x]} ∪ u)
           | [] => lp_inv p' [] ({[x]} ∪ u)
           end.
Proof.
  intros (Hc & Hn & Hd & Hdom & Hu & Hm). unfold lp_get. rewrite Hu.
  destruct l as [|y l]; cbn [chain] in Hc.
  - rewrite Hc. cbn. set (x := fresh (dom (lp_heap p))).
    assert (Hx : x ∉ dom (lp_heap p)) by apply is_fresh.
    assert (Hxu : x ∉ u) by (rewrite Hdom in Hx; set_solver). split; [done|].
    unfold lp_inv. cbn. rewrite size_add, Hm, u32_succ, dom_insert_L, Hdom by done. cbn [length].
    rewrite u32_succ. split_and!; [done|constructor|set_solver|set_solver|done|done].
  - destruct Hc as (-> & a & Ha & Hc). rewrite Ha. apply NoDup_cons in Hn as [Hny Hn].
    assert (Hyu : y ∉ u) by (apply Hd; set_solver). split; [done|]. split; [done|].
    unfold lp_inv. cbn. rewrite size_add, u32_succ by done. split_and!.
    + by apply chain_insert.
    + done.
    + intros x Hx. specialize (Hd x). set_solver.
    + rewrite dom_insert_L, Hdom. set_solver.
    + done.
    + rewrite Hm. cbn [length]. do 2 f_equal. lia.
Qed.

Lemma lp_del_inv (p : lpool S) l u x : lp_inv p l u -> x ∈ u -> lp_inv (lp_del x p) (x :: l) (u ∖ {[x]}).
Proof.
  intros (Hc & Hn & Hd & Hdom & Hu & Hm) Hx. pose proof (size_remove u x Hx) as Hs.
  assert (Hxl : x ∉ l) by (intros ?; by apply (Hd x)).
  assert (Hxd : x ∈ dom (lp_heap p)) by (rewrite Hdom; set_solver).
  apply elem_of_dom in Hxd as [a Ha]. unfold lp_del. rewrite Ha, Hu, <- Hs, u32_pred.
  unfold lp_inv. cbn [lp_heap lp_freed lp_used lp_malloced length]. split_and!.
  - split; [done|]. eexists. split; [apply lookup_insert_eq|]. by apply chain_insert.
  - by constructor.
  - intros y [->|Hy]%elem_of_cons; [set_solver|]. specialize (Hd y Hy). set_solver.
  - rewrite dom_insert_L, Hdom, dom_give by done. set_solver.
  - done.
  - rewrite Hm. do 2 f_equal. lia.
Qed.

Lemma clean_inv (p : lpool S) l u x : lp_inv p l u -> x ∈ u -> lp_inv (clean settop0 x p) l u.
Proof.
  intros (Hc & Hn & Hd & Hdom & Hu & Hm) Hx. unfold clean, lp_inv.
  assert (Hxl : x ∉ l) by (intros ?; by apply (Hd x)).
  destruct (lp_heap p !! x) eqn:Ha; [|done]. cbn. split_and!; try done.
  - by apply chain_insert.
  - rewrite dom_insert_L. apply elem_of_dom_2 in Ha. set_solver.
Qed.

#[export] Program Instance lua_pool : Pool (lpool S) := {
  pool_get := Create newstate;
  pool_del := Delete settop0;
  pool_inv := lp_inv
}.
Next Obligation. intros p l u (_ & ? & ? & _). done. Qed.
Next Obligation. apply lp_get_inv. Qed.
Next Obligation. intros p l u x Hp Hx. apply lp_del_inv; [by apply clean_inv|done]. Qed.
End Instances.

Lemma rp_get_inv p l u : rp_inv p l u ->
  let '(x, p') := rp_get p in
  x ∉ u /\ match l with
           | y :: l' => x = y /\ rp_inv p' l' ({[x]} ∪ u)
           | [] => rp_inv p' [] ({[x]} ∪ u)
           end.
Proof.
  intros (Hc & Hn & Hd & Hdom & Hu & Hm). unfold rp_get. destruct l as [|y l]; cbn [chain] in Hc.
  - rewrite Hc. set (x := fresh (dom (rp_heap p))).
    assert (Hx : x ∉ dom (rp_heap p)) by apply is_fresh.
    assert (Hxu : x ∉ u) by (rewrite Hdom in Hx; set_solver). split; [done|].
    unfold rp_inv. cbn. rewrite size_add, dom_insert_L, Hdom by done. cbn [length] in *.
    split_and!; [done|constructor|set_solver|set_solver|lia|lia].
  - destruct Hc as (-> & a & Ha & Hc). rewrite Ha. apply NoDup_cons in Hn as [Hny Hn].
    assert (Hyu : y ∉ u) by (apply Hd; set_solver). split; [done|]. split; [done|].
    unfold rp_inv. cbn. rewrite size_add by done. cbn [length] in Hm. split_and!.
    + by apply chain_insert.
    + done.
    + intros x Hx. specialize (Hd x). set_solver.
    + rewrite dom_insert_L, Hdom. set_solver.
    + lia.
    + lia.
Qed.

Lemma rp_del_inv p l u x : rp_inv p l u -> x ∈ u -> rp_inv (rp_del x p) (x :: l) (u ∖ {[x]}).
Proof.
  intros (Hc & Hn & Hd & Hdom & Hu & Hm) Hx. pose proof (size_remove u x Hx) as Hs.
  assert (Hxl : x ∉ l) by (intros ?; by apply (Hd x)).
  assert (Hxd : x ∈ dom (rp_heap p)) by (rewrite Hdom; set_solver).
  apply elem_of_dom in Hxd as [a Ha]. unfold rp_del. rewrite Ha.
  unfold rp_inv. cbn [rp_heap rp_req rp_using rp_malloc length]. split_and!; [| | | |lia|lia].
  - split; [done|]. eexists. split; [apply lookup_insert_eq|]. by apply chain_insert.
  - by constructor.
  - intros y [->|Hy]%elem_of_cons; [set_solver|]. specialize (Hd y Hy). set_solver.
  - rewrite dom_insert_L, Hdom, dom_give by done. set_solver.
Qed.

(** [freeone] gives one waiting object back to the system. *)
Lemma freeone_inv p l u : rp_inv p l u -> rp_inv (freeone p) (tail l) u.
Proof.
  intros (Hc & Hn & Hd & Hdom & Hu & Hm). unfold freeone. destruct l as [|y l]; cbn [chain tail] in *.
  - rewrite Hc. split_and!; [by rewrite Hc|done..].
  - destruct Hc as (-> & a & Ha & Hc). rewrite Ha. apply NoDup_cons in Hn as [Hny Hn].
    assert (Hyu : y ∉ u) by (apply Hd; set_solver).
    cbn [length] in Hm. unfold rp_inv. cbn [rp_heap rp_req rp_using rp_malloc]. split_and!; [| | | |lia|lia].
    + by apply chain_delete.
    + done.
    + intros x Hx. apply Hd. set_solver.
    + rewrite dom_delete_L, Hdom. set_solver.
Qed.

#[export] Program Instance require_pool : Pool rpool := {
  pool_get := rp_get;
  pool_del := rp_del;
  pool_inv := rp_inv
}.
Next Obligation. intros p l u (_ & ? & ? & _). done. Qed.
Next Obligation. apply rp_get_inv. Qed.
Next Obligation. apply rp_del_inv. Qed.

Lemma tw_get_inv g p l u : tw_inv p l u ->
  let '(x, p') := tw_get g p in
  x ∉ u /\ match l with
           | y :: l' => x = y /\ tw_inv p' l' ({[x]} ∪ u)
           | [] => tw_inv p' [] ({[x]} ∪ u)
           end.
Proof.
  intros (Hc & Hn & Hd & Hdom). unfold tw_get. destruct l as [|y l]; cbn [chain] in Hc.
  - rewrite Hc. set (x := fresh (dom (tw_heap p))).
    assert (Hx : x ∉ dom (tw_heap p)) by apply is_fresh.
    split; [rewrite Hdom in Hx; set_solver|].
    unfold tw_inv. cbn. rewrite dom_insert_L, Hdom.
    split_and!; [done|constructor|set_solver|set_solver].
  - destruct Hc as (-> & a & Ha & Hc). rewrite Ha. apply NoDup_cons in Hn as [Hny Hn].
    assert (Hyu : y ∉ u) by (apply Hd; set_solver). split; [done|]. split; [done|].
    unfold tw_inv. cbn. split_and!; [done|done| |rewrite Hdom; set_solver].
    intros x Hx. specialize (Hd x). set_solver.
Qed.

Lemma tw_del_inv p l u x : tw_inv p l u -> x ∈ u -> tw_inv (tw_del x p) (x :: l) (u ∖ {[x]}).
Proof.
  intros (Hc & Hn & Hd & Hdom) Hx.
  assert (Hxl : x ∉ l) by (intros ?; by apply (Hd x)).
  assert (Hxd : x ∈ dom (tw_heap p)) by (rewrite Hdom; set_solver).
  apply elem_of_dom in Hxd as [a Ha]. unfold tw_del. rewrite Ha.
  unfold tw_inv. cbn [tw_heap tw_freed]. split_and!.
  - split; [done|]. eexists. split; [apply lookup_insert_eq|]. by apply chain_insert.
  - by constructor.
  - intros y [->|Hy]%elem_of_cons; [set_solver|]. specialize (Hd y Hy). set_solver.
  - rewrite dom_insert_L, Hdom, dom_give by done. set_solver.
Qed.

#[export] Program Instance work_pool (g : work) : Pool tw_pool := {
  pool_get := tw_get g;
  pool_del := tw_del;
  pool_inv := tw_inv
}.
Next Obligation. intros g p l u (_ & ? & ? & _). done. Qed.
Next Obligation. apply tw_get_inv. Qed.
Next Obligation. intros _. apply tw_del_inv. Qed.

(** ** Clients of a pool *)

Section Clients.
Context {P : Type} `{Pool P}.

(** [Del i]: whoever holds the [i]-th of the objects in use, in the order they
    were taken, gives it back. *)
Inductive pool_op := Get | Del (i : nat).

(** The pool, the objects in use, and the most that were in use at once. *)
Definition pool_step (s : P * list nat * nat) (op : pool_op) : P * list nat * nat :=
  let '(p, held, peak) := s in
  match op with
  | Get => let '(x, p) := pool_get p in (p, held ++ [x], Nat.max peak (S (length held)))
  | Del i =>
      match held !! i with
      | Some x => (pool_del x p, take i held ++ drop (S i) held, peak)
      | None => (p, held, peak)
      end
  end.
Definition pool_run (p : P) (ops : list pool_op) : P * list nat * nat :=
  fold_left pool_step ops (p, [], 0%nat).

Definition pool_good (n0 : nat) (s : P * list nat * nat) : Prop :=
  let '(p, held, peak) := s in
  NoDup held /\ exists l, pool_inv p l (list_to_set held) /\
    (length l + length held = Nat.max n0 peak)%nat /\ (length held <= peak)%nat.

Lemma pool_step_good n0 s op : pool_good n0 s -> pool_good n0 (pool_step s op).
Proof.
  destruct s as [[p held] peak]. intros (Hn & l & Hi & Hl & Hp). destruct op as [|i]; cbn [pool_step].
  - pose proof (pool_get_inv p l _ Hi) as G. destruct (pool_get p) as [x p']. destruct G as [Hx G].
    assert (Hxh : x ∉ held) by (intros ?; apply Hx; by apply elem_of_list_to_set).
    assert (Hu : {[x]} ∪ list_to_set held = (list_to_set (held ++ [x]) : gset nat)) by set_solver.
    rewrite Hu in G. split.
    { apply NoDup_app. split; [done|]. split; [set_solver|]. by apply NoDup_singleton. }
    rewrite length_app. cbn [length]. destruct l as [|y l].
    + exists []. split; [done|]. cbn [length] in *. lia.
    + destruct G as [-> G]. exists l. split; [done|]. cbn [length] in *. lia.
  - destruct (held !! i) as [x|] eqn:E; [|split; [done|by exists l]].
    pose proof (take_drop_middle held i x E) as M. rewrite <- M in Hn.
    apply NoDup_app in Hn as (N1 & N2 & N3). apply NoDup_cons in N3 as [N3 N4].
    assert (Hx : x ∈ (list_to_set held : gset nat)).
    { apply elem_of_list_to_set. by eapply list_elem_of_lookup_2. }
    pose proof (pool_del_inv p l _ x Hi Hx) as G.
    assert (Hu : list_to_set held ∖ {[x]} = (list_to_set (take i held ++ drop (S i) held) : gset nat)).
    { rewrite <- M at 1. apply leibniz_equiv. intros y. specialize (N2 x). set_solver. }
    rewrite Hu in G. split.
    { apply NoDup_app. split; [done|]. split; [|done]. intros y Hy ?. apply (N2 y Hy). set_solver. }
    exists (x :: l). split; [done|]. apply (f_equal length) in M. rewrite length_app in *.
    cbn [length] in *. lia.
Qed.

Lemma pool_run_good n0 ops : forall s, pool_good n0 s -> pool_good n0 (fold_left pool_step ops s).
Proof. induction ops as [|op ops IH]; intros s Hs; [done|]. cbn. by apply IH, pool_step_good. Qed.

(** Whatever a pool's clients do, an object is never given to two of them, and
    the pool never holds more objects than were in use at once (or than it was
    made with): every object given back is used again before a new one is made. *)
Lemma pool_no_sharing p l0 ops (Hp : pool_inv p l0 ∅) :
  let '(p', held, peak) := pool_run p ops in
  NoDup held /\
  exists l, pool_inv p' l (list_to_set held) /\
    (length l + length held = Nat.max (length l0) peak)%nat /\
    forall x p2, pool_get p' = (x, p2) -> x ∉ held.
Proof.
  pose proof (pool_run_good (length l0) ops (p, [], 0%nat)) as G. unfold pool_run.
  destruct (fold_left pool_step ops (p, [], 0%nat)) as [[p' held] peak].
  destruct G as (Hn & l & Hi & Hl & _).
  { split; [constructor|]. exists l0. cbn [length list_to_set]. split; [done|lia]. }
  split; [done|]. exists l. split; [done|]. split; [done|]. intros x p2 E.
  pose proof (pool_get_inv p' l _ Hi) as X. rewrite E in X. destruct X as [X _].
  intros Hx. by apply X, elem_of_list_to_set.
Qed.
End Clients.

Lemma rpool_new_inv g : rp_inv (rpool_new g) [0%nat] ∅.
Proof.
  unfold rp_inv, rpool_new. cbn [rp_heap rp_req rp_using rp_malloc]. split.
  { split; [done|]. eexists. split; [apply lookup_singleton_eq|done]. }
  split; [apply NoDup_singleton|]. split; [set_solver|]. split; [|done].
  rewrite dom_singleton_L. set_solver.
Qed.

Lemma pool_no_sharing_witness :
  let '(p', held, peak) := pool_run (P := rpool) (rpool_new require_zero) [Get; Get; Del 0; Get] in
  NoDup held /\ held = [1; 0]%nat /\ peak = 2%nat /\ rp_malloc p' = 2%Z.
Proof.
  pose proof (pool_no_sharing (rpool_new require_zero) [0%nat] [Get; Get; Del 0; Get]
    (rpool_new_inv require_zero)) as W.
  destruct (pool_run _ _) as [[p' held] peak] eqn:E. destruct W as [W _]. split; [exact W|].
  vm_compute in E. injection E as <- <- <-. split; [reflexivity|split; reflexivity].
Defined.
