(* ===== verification/ThreadPool.v ===== *)
(** * ThreadPool: the work queue of core/threadpool.hpp

    [tpool_add_work] appends to a queue that is linked through its nodes, worker
    threads take from its head, run the routine and give the node back to the
    pool of nodes ([tw_pool] of Pools.v).  What a thread does while it holds
    [queue_lock] (or the lock of the node pool) is one step; the steps of the
    threads interleave in any order.  A worker that finds the queue empty goes to sleep
    in [pthread_cond_wait] and does nothing until it is woken, by the signal of
    [tpool_add_work], by the broadcast of [tpool_destroy], or for no reason, as POSIX
    allows. *)

From S2P Require Import Prelude Pools.
From stdpp Require Import list gmap.

(** A worker: about to lock the queue and look, asleep in [pthread_cond_wait], with a
    node it took, with one it ran, or gone. *)
Inductive wstate := Waiting | Asleep | Running (n : nat) | Finished (n : nat) | Exited.

(** A routine and its argument. *)
Abbreviation job := (Z * Z)%type (only parsing).

(** [tpool_t] with the node pool, the calls of [tpool_add_work] that have filled their
    node and not yet appended it (the node, and the arguments of the call), and the
    state of the threads. *)
Record tpool := mk_tpool {
  tp_pool : tw_pool;
  queue_head : option nat;
  shutdown : bool;
  pending : list (nat * job);
  workers : list wstate
}.

Definition tpool_create (max_thr_num : nat) : tpool :=
  mk_tpool (mk_twp ∅ None) None false [] (replicate max_thr_num Waiting).

Definition job_of (p : tw_pool) (n : nat) : job :=
  match tw_heap p !! n with Some w => (w_routine w, w_arg w) | None => (0, 0)%Z end.
Definition next_of (p : tw_pool) (n : nat) : option nat :=
  match tw_heap p !! n with Some w => w_next w | None => None end.
Definition write_node (p : tw_pool) (n : nat) (w : work) : tw_pool :=
  mk_twp (<[n := w]> (tw_heap p)) (tw_freed p).
Definition set_next (p : tw_pool) (n : nat) (nx : option nat) : tw_pool :=
  let '(r, a) := job_of p n in write_node p n (mk_work r a nx).

(** The first half of [tpool_add_work]: its early return, a node, its fields. *)
Definition add_begin (g : work) (routine arg : Z) (s : tpool) : Z * tpool :=
  if (routine =? 0)%Z then (-1, s)%Z
  else
    let '(w, p) := tw_get g (tp_pool s) in
    (0%Z, mk_tpool (write_node p w (mk_work routine arg None)) (queue_head s) (shutdown s)
            ((w, (routine, arg)) :: pending s) (workers s)).

(** [while(member->next) member=member->next;] *)
Fixpoint last_member (fuel : nat) (p : tw_pool) (m : nat) : nat :=
  match fuel with
  | O => m
  | S fuel => match next_of p m with Some m' => last_member fuel p m' | None => m end
  end.

(** [pthread_cond_signal] wakes one of those who sleep, if there are any;
    [pthread_cond_broadcast] all of them. *)
Inductive signal : list wstate -> list wstate -> Prop :=
  | signal_one l1 l2 : signal (l1 ++ Asleep :: l2) (l1 ++ Waiting :: l2)
  | signal_none ws : Asleep ∉ ws -> signal ws ws.
Definition wake (w : wstate) : wstate := match w with Asleep => Waiting | w => w end.
Definition broadcast (ws : list wstate) : list wstate := map wake ws.

(** The second half, under [queue_lock]: the queue, the nodes after it, and the workers
    after the signal. *)
Definition append (p : tw_pool) (head : option nat) (w : nat) : tw_pool * option nat :=
  match head with
  | None => (p, Some w)
  | Some m => (set_next p (last_member (size (tw_heap p)) p m) (Some w), head)
  end.
Definition add_end (w : nat) (rest : list (nat * job)) (ws : list wstate) (s : tpool) : tpool :=
  let '(p, head) := append (tp_pool s) (queue_head s) w in
  mk_tpool p head (shutdown s) rest ws.

(** One worker, at its place in the list of threads. *)
Definition set_worker (l1 l2 : list wstate) (w : wstate) (s : tpool) : tpool :=
  mk_tpool (tp_pool s) (queue_head s) (shutdown s) (pending s) (l1 ++ w :: l2).

(** [work=queue_head; queue_head=queue_head->next;] *)
Definition take_work (l1 l2 : list wstate) (n : nat) (s : tpool) : tpool :=
  mk_tpool (tp_pool s) (next_of (tp_pool s) n) (shutdown s) (pending s) (l1 ++ Running n :: l2).
Definition del_work (l1 l2 : list wstate) (n : nat) (s : tpool) : tpool :=
  mk_tpool (tw_del n (tp_pool s)) (queue_head s) (shutdown s) (pending s) (l1 ++ Waiting :: l2).

(** [tpool_destroy] sets [shutdown] without the lock, then broadcasts under it. *)
Definition destroy_begin (s : tpool) : tpool :=
  mk_tpool (tp_pool s) (queue_head s) true (pending s) (workers s).
Definition destroy_wake (s : tpool) : tpool :=
  mk_tpool (tp_pool s) (queue_head s) (shutdown s) (pending s) (broadcast (workers s)).

(** The end of [tpool_destroy], when every thread has been joined: the nodes that
    are still queued are freed, their jobs dropped. *)
Fixpoint free_queue (fuel : nat) (p : tw_pool) (head : option nat) : tw_pool :=
  match fuel, head with
  | S fuel, Some member => free_queue fuel (mk_twp (delete member (tw_heap p)) (tw_freed p)) (next_of p member)
  | _, _ => p
  end.
Definition destroy_end (s : tpool) : tpool :=
  mk_tpool (free_queue (size (tw_heap (tp_pool s))) (tp_pool s) (queue_head s)) None (shutdown s) (pending s) [].

Inductive tp_event := Added (j : job) | Taken (j : job) | Ran (j : job).

(** What a worker does of its own; [None]: nothing to see. *)
Inductive worker_step : tpool -> option tp_event -> tpool -> Prop :=
  | step_take s l1 l2 n :
      workers s = l1 ++ Waiting :: l2 -> shutdown s = false -> queue_head s = Some n ->
      worker_step s (Some (Taken (job_of (tp_pool s) n))) (take_work l1 l2 n s)
  | step_sleep s l1 l2 :
      workers s = l1 ++ Waiting :: l2 -> shutdown s = false -> queue_head s = None ->
      worker_step s None (set_worker l1 l2 Asleep s)
  | step_run s l1 l2 n :
      workers s = l1 ++ Running n :: l2 ->
      worker_step s (Some (Ran (job_of (tp_pool s) n))) (set_worker l1 l2 (Finished n) s)
  | step_del s l1 l2 n :
      workers s = l1 ++ Finished n :: l2 -> worker_step s None (del_work l1 l2 n s)
  | step_exit s l1 l2 :
      workers s = l1 ++ Waiting :: l2 -> shutdown s = true ->
      worker_step s None (set_worker l1 l2 Exited s).

(** What any thread does; [Added] is the call of [tpool_add_work] as it was made. *)
Inductive tp_step : tpool -> option tp_event -> tpool -> Prop :=
  | step_worker s o s' : worker_step s o s' -> tp_step s o s'
  | step_add s g routine arg : tp_step s None (snd (add_begin g routine arg s))
  | step_append s l1 l2 w j ws :
      pending s = l1 ++ (w, j) :: l2 -> signal (workers s) ws ->
      tp_step s (Some (Added j)) (add_end w (l1 ++ l2) ws s)
  | step_wake s l1 l2 : workers s = l1 ++ Asleep :: l2 -> tp_step s None (set_worker l1 l2 Waiting s)
  | step_destroy s : shutdown s = false -> tp_step s None (destroy_begin s)
  | step_broadcast s : shutdown s = true -> tp_step s None (destroy_wake s).

Inductive steps (R : tpool -> option tp_event -> tpool -> Prop) : tpool -> list tp_event -> tpool -> Prop :=
  | steps_nil s : steps R s [] s
  | steps_snoc s tr s1 o s2 : steps R s tr s1 -> R s1 o s2 -> steps R s (tr ++ option_list o) s2.

Definition added : list tp_event -> list job := omap (fun e => match e with Added j => Some j | _ => None end).
Definition taken : list tp_event -> list job := omap (fun e => match e with Taken j => Some j | _ => None end).
Definition ran : list tp_event -> list job := omap (fun e => match e with Ran j => Some j | _ => None end).

(** ** The invariant *)

Definition held_by (w : wstate) : list nat := match w with Running n | Finished n => [n] | _ => [] end.
Definition running_by (w : wstate) : list nat := match w with Running n => [n] | _ => [] end.
Definition held (ws : list wstate) : list nat := concat (map held_by ws).
Definition running (ws : list wstate) : list nat := concat (map running_by ws).

(** The nodes that are not in the free list: queued, pending, or with a worker. *)
Definition in_use (lq : list nat) (pend : list (nat * job)) (ws : list wstate) : list nat := lq ++ map fst pend ++ held ws.

(** A node that is filled holds what the call was given. *)
Definition filled (p : tw_pool) : nat * job -> Prop := fun '(n, j) => next_of p n = None /\ job_of p n = j.

Definition tp_inv (s : tpool) (tr : list tp_event) : Prop :=
  exists lf lq,
    tw_inv (tp_pool s) lf (list_to_set (in_use lq (pending s) (workers s))) /\
    NoDup (in_use lq (pending s) (workers s)) /\
    chain w_next (tw_heap (tp_pool s)) (queue_head s) lq /\
    Forall (filled (tp_pool s)) (pending s) /\
    added tr = taken tr ++ map (job_of (tp_pool s)) lq /\
    taken tr ≡ₚ ran tr ++ map (job_of (tp_pool s)) (running (workers s)) /\
    (shutdown s = false -> Exited ∉ workers s).

Lemma concat_app3 (f : wstate -> list nat) l1 w l2 :
  concat (map f (l1 ++ w :: l2)) = concat (map f l1) ++ f w ++ concat (map f l2).
Proof. by rewrite map_app, concat_app. Qed.

Lemma held_app l1 w l2 : held (l1 ++ w :: l2) = held l1 ++ held_by w ++ held l2.
Proof. apply concat_app3. Qed.

Lemma running_app l1 w l2 : running (l1 ++ w :: l2) = running l1 ++ running_by w ++ running l2.
Proof. apply concat_app3. Qed.

Lemma running_held ws : running ws ⊆ held ws.
Proof.
  induction ws as [|w ws IH]; [done|]. change (running_by w ++ running ws ⊆ held_by w ++ held ws).
  destruct w; cbn; set_solver.
Qed.

(** Only the set of the nodes in use matters to the node pool. *)
Lemma tw_inv_perm p l (u u' : list nat) : u ≡ₚ u' -> tw_inv p l (list_to_set u) -> tw_inv p l (list_to_set u').
Proof. intros E. by rewrite (list_to_set_perm_L _ _ E). Qed.

Lemma write_inv p l (u : gset nat) x w : x ∈ u -> tw_inv p l u -> tw_inv (write_node p x w) l u.
Proof.
  intros Hx (Hc & Hn & Hd & Hdom). unfold tw_inv, write_node. cbn. split; [|split; [done|split; [done|]]].
  - apply chain_insert; [|done]. intros Hl. by apply (Hd x).
  - rewrite dom_insert_L, Hdom. set_solver.
Qed.

Lemma job_write p x w n : n <> x -> job_of (write_node p x w) n = job_of p n.
Proof. intros. unfold job_of, write_node. cbn. by rewrite lookup_insert_ne. Qed.

Lemma map_job_ext p p' l : (forall n, n ∈ l -> job_of p' n = job_of p n) -> map (job_of p') l = map (job_of p) l.
Proof. intros E. apply map_ext_in. intros n Hn. apply E. by apply list_elem_of_In. Qed.

Lemma job_set_next p x nx n : job_of (set_next p x nx) n = job_of p n.
Proof.
  unfold set_next, job_of at 2, write_node, job_of. destruct (decide (n = x)) as [->|N].
  - destruct (tw_heap p !! x) as [w|]; cbn; by rewrite lookup_insert_eq.
  - destruct (tw_heap p !! x) as [w|]; cbn; by rewrite lookup_insert_ne.
Qed.

Lemma tw_del_job p x n : job_of (tw_del x p) n = job_of p n.
Proof.
  unfold tw_del, job_of. destruct (tw_heap p !! x) as [w|] eqn:E; [|done]. cbn.
  destruct (decide (n = x)) as [->|N]; [by rewrite lookup_insert_eq, E|by rewrite lookup_insert_ne].
Qed.

(** [while(member->next)] ends at the last node. *)
Lemma last_member_spec p l : forall fuel m z,
  chain w_next (tw_heap p) (Some m) (l ++ [z]) -> (length l < fuel)%nat -> last_member fuel p m = z.
Proof.
  induction l as [|y l IH]; intros [|fuel] m z Hc Hf; cbn [length] in *; try lia.
  - destruct Hc as (E & a & Ha & Hc). injection E as <-. cbn in Hc. cbn [last_member].
    unfold next_of. by rewrite Ha, Hc.
  - destruct Hc as (E & a & Ha & Hc). injection E as <-. cbn [last_member]. unfold next_of. rewrite Ha.
    assert (exists m', w_next a = Some m') as [m' Em] by (destruct l; destruct Hc as [-> _]; eauto).
    rewrite Em in Hc |- *. apply IH; [done|lia].
Qed.

Lemma chain_append p l z w : forall start, NoDup (l ++ [z]) -> w ∉ l ++ [z] ->
  next_of p w = None -> w ∈ dom (tw_heap p) ->
  chain w_next (tw_heap p) start (l ++ [z]) ->
  chain w_next (tw_heap (set_next p z (Some w))) start ((l ++ [z]) ++ [w]).
Proof.
  induction l as [|y l IH]; intros start Hn Hw Hx Hd Hc; destruct Hc as (-> & a & Ha & Hc).
  - cbn [app] in *. apply not_elem_of_cons in Hw as [Nw _]. split; [done|].
    unfold set_next, job_of. rewrite Ha. cbn. eexists. split; [apply lookup_insert_eq|]. split; [done|].
    rewrite lookup_insert_ne by done. apply elem_of_dom in Hd as [b Hb]. exists b. split; [done|].
    unfold next_of in Hx. by rewrite Hb in Hx.
  - cbn [app] in *. apply NoDup_cons in Hn as [N1 N2]. apply not_elem_of_cons in Hw as [Nw Hw].
    split; [done|]. exists a. split.
    + unfold set_next. destruct (job_of p z). cbn. rewrite lookup_insert_ne; [done|]. set_solver.
    + by apply IH.
Qed.

Lemma append_spec p head w lq : NoDup lq -> w ∉ lq -> next_of p w = None -> w ∈ dom (tw_heap p) ->
  chain w_next (tw_heap p) head lq ->
  let '(p', head') := append p head w in
  chain w_next (tw_heap p') head' (lq ++ [w]) /\
  (p' = p \/ exists z, z ∈ lq /\ p' = set_next p z (Some w)).
Proof.
  intros Hn Hw Hx Hd Hc. unfold append. destruct lq as [|z l _] using rev_ind.
  - cbn in Hc. subst head. apply elem_of_dom in Hd as [b Hb]. split; [|by left]. split; [done|]. exists b. split; [done|].
    unfold next_of in Hx. by rewrite Hb in Hx.
  - assert (exists m, head = Some m) as [m ->] by (destruct l; destruct Hc as [-> _]; eauto).
    assert (L : (length (l ++ [z]) <= size (tw_heap p))%nat).
    { rewrite <- size_dom, <- (size_list_to_set (C := gset nat)) by done. apply subseteq_size.
      intros x Hx'. apply elem_of_list_to_set in Hx'. by eapply chain_dom. }
    rewrite length_app in L. cbn [length] in L.
    rewrite (last_member_spec p l _ m z Hc) by lia. split; [by apply chain_append|].
    right. exists z. split; [set_solver|done].
Qed.

Lemma omap_snoc {A B} (f : A -> option B) l o :
  omap f (l ++ option_list o) = omap f l ++ option_list (o ≫= f).
Proof. rewrite omap_app. f_equal. destruct o as [x|]; cbn; [by destruct (f x)|done]. Qed.

Lemma added_snoc tr o : added (tr ++ option_list o) =
  added tr ++ match o with Some (Added j) => [j] | _ => [] end.
Proof. unfold added. rewrite omap_snoc. by destruct o as [[]|]. Qed.

Lemma taken_snoc tr o : taken (tr ++ option_list o) =
  taken tr ++ match o with Some (Taken j) => [j] | _ => [] end.
Proof. unfold taken. rewrite omap_snoc. by destruct o as [[]|]. Qed.

Lemma ran_snoc tr o : ran (tr ++ option_list o) =
  ran tr ++ match o with Some (Ran j) => [j] | _ => [] end.
Proof. unfold ran. rewrite omap_snoc. by destruct o as [[]|]. Qed.

Ltac snoc := rewrite ?added_snoc, ?taken_snoc, ?ran_snoc, ?app_nil_r.

(** The nodes of a step, up to order. *)
Ltac same_nodes := unfold in_use; rewrite ?held_app, ?map_app; cbn [held_by map fst]; solve_Permutation.

(** The jobs of a step, up to order. *)
Ltac same_jobs := rewrite ?running_app; cbn [running_by]; rewrite ?map_app; cbn [map]; solve_Permutation.

Ltac open_inv :=
  match goal with s : tpool |- _ => destruct s as [p head sh pend ws] end;
  cbn [tp_pool queue_head shutdown pending workers] in *.

Lemma exited_replace l1 w w' l2 : w' <> Exited -> Exited ∉ l1 ++ w :: l2 -> Exited ∉ l1 ++ w' :: l2.
Proof. set_solver. Qed.

Lemma take_inv s tr l1 l2 n :
  tp_inv s tr -> workers s = l1 ++ Waiting :: l2 -> shutdown s = false -> queue_head s = Some n ->
  tp_inv (take_work l1 l2 n s) (tr ++ option_list (Some (Taken (job_of (tp_pool s) n)))).
Proof.
  intros (lf & lq & Hi & Hn & Hc & Hp & Ha & Ht & He). unfold take_work. open_inv. intros -> -> ->.
  destruct lq as [|n' lq]; [done|]. destruct Hc as (E & a & Hl & Hc). injection E as <-.
  assert (P : in_use (n :: lq) pend (l1 ++ Waiting :: l2) ≡ₚ in_use lq pend (l1 ++ Running n :: l2)) by same_nodes.
  exists lf, lq. cbn [tp_pool queue_head shutdown pending workers]. snoc. split_and!.
  - by eapply tw_inv_perm.
  - by rewrite <- P.
  - unfold next_of. by rewrite Hl.
  - done.
  - by rewrite Ha, <- app_assoc.
  - rewrite Ht. same_jobs.
  - intros _. by eapply exited_replace, He.
Qed.

Lemma run_inv s tr l1 l2 n :
  tp_inv s tr -> workers s = l1 ++ Running n :: l2 ->
  tp_inv (set_worker l1 l2 (Finished n) s) (tr ++ option_list (Some (Ran (job_of (tp_pool s) n)))).
Proof.
  intros (lf & lq & Hi & Hn & Hc & Hp & Ha & Ht & He). unfold set_worker. open_inv. intros ->.
  assert (P : in_use lq pend (l1 ++ Running n :: l2) ≡ₚ in_use lq pend (l1 ++ Finished n :: l2)) by same_nodes.
  exists lf, lq. cbn [tp_pool queue_head shutdown pending workers]. snoc. split_and!; try done.
  - by eapply tw_inv_perm.
  - by rewrite <- P.
  - rewrite Ht. same_jobs.
  - intros Hs. by eapply exited_replace, He.
Qed.

Lemma exit_inv s tr l1 l2 :
  tp_inv s tr -> workers s = l1 ++ Waiting :: l2 -> shutdown s = true ->
  tp_inv (set_worker l1 l2 Exited s) (tr ++ option_list None).
Proof.
  intros (lf & lq & Hi & Hn & Hc & Hp & Ha & Ht & He). unfold set_worker. open_inv. intros -> ->.
  assert (P : in_use lq pend (l1 ++ Waiting :: l2) ≡ₚ in_use lq pend (l1 ++ Exited :: l2)) by same_nodes.
  exists lf, lq. cbn [tp_pool queue_head shutdown pending workers]. snoc.
  split_and!; try done.
  - by eapply tw_inv_perm.
  - by rewrite <- P.
  - rewrite Ht. same_jobs.
Qed.

Lemma set_remove_head n (l : list nat) :
  n ∉ l -> list_to_set (n :: l) ∖ {[n]} = (list_to_set l : gset nat).
Proof. intros. apply leibniz_equiv. intros x. rewrite list_to_set_cons. set_solver. Qed.

Lemma del_step_inv s tr l1 l2 n :
  tp_inv s tr -> workers s = l1 ++ Finished n :: l2 ->
  tp_inv (del_work l1 l2 n s) (tr ++ option_list None).
Proof.
  intros (lf & lq & Hi & Hn & Hc & Hp & Ha & Ht & He). unfold del_work. open_inv. intros ->.
  assert (P : in_use lq pend (l1 ++ Finished n :: l2) ≡ₚ n :: in_use lq pend (l1 ++ Waiting :: l2)) by same_nodes.
  rewrite P in Hn. apply NoDup_cons in Hn as [Hnn Hn].
  pose proof (tw_inv_perm _ _ _ _ P Hi) as Hi'.
  apply (tw_del_inv _ _ _ n) in Hi'; [|set_solver].
  exists (n :: lf), lq. cbn [tp_pool queue_head shutdown pending workers]. snoc.
  split_and!; try done.
  - by rewrite set_remove_head in Hi'.
  - unfold tw_del. destruct (tw_heap p !! n); [|done]. apply chain_insert; [|done].
    intros Hl. apply Hnn. unfold in_use. set_solver.
  - rewrite List.Forall_forall in *. intros [x j] Hx. destruct (Hp _ Hx) as [X1 X2]. split; [|by rewrite tw_del_job].
    rewrite <- X1. apply list_elem_of_In, (list_elem_of_fmap_2 fst) in Hx. cbn [fst] in Hx.
    unfold tw_del, next_of. destruct (tw_heap p !! n); [|done]. cbn.
    rewrite lookup_insert_ne; [done|]. intros <-. apply Hnn. unfold in_use. rewrite !elem_of_app. auto.
  - rewrite Ha. f_equal. symmetry. apply map_job_ext. intros. apply tw_del_job.
  - rewrite Ht. apply Permutation_app; [done|]. rewrite !running_app. cbn [running_by].
    rewrite (map_job_ext p (tw_del n p)); [done|]. intros. apply tw_del_job.
  - intros Hs. by eapply exited_replace, He.
Qed.

(** Waking a worker moves no node. *)
Definition same_hands (ws ws' : list wstate) : Prop :=
  held ws' = held ws /\ running ws' = running ws /\ (Exited ∉ ws -> Exited ∉ ws').

Lemma set_hands l1 w w' l2 : held_by w' = held_by w -> running_by w' = running_by w -> w' <> Exited ->
  same_hands (l1 ++ w :: l2) (l1 ++ w' :: l2).
Proof.
  intros E1 E2 N. unfold same_hands. rewrite !held_app, !running_app, E1, E2. split; [done|]. split; [done|].
  by apply exited_replace.
Qed.

Lemma signal_hands ws ws' : signal ws ws' -> same_hands ws ws'.
Proof. intros [l1 l2|ws0 _]; [by apply set_hands|done]. Qed.

Lemma broadcast_hands ws : same_hands ws (broadcast ws).
Proof.
  induction ws as [|w ws (H1 & H2 & H3)]; [done|]. unfold same_hands.
  change (held (broadcast (w :: ws))) with (held_by (wake w) ++ held (broadcast ws)).
  change (running (broadcast (w :: ws))) with (running_by (wake w) ++ running (broadcast ws)).
  rewrite H1, H2. split; [by destruct w|]. split; [by destruct w|]. intros N. apply not_elem_of_cons in N as [N1 N2].
  apply not_elem_of_cons. split; [by destruct w|auto].
Qed.

Lemma hands_inv s tr ws : tp_inv s tr -> same_hands (workers s) ws ->
  tp_inv (mk_tpool (tp_pool s) (queue_head s) (shutdown s) (pending s) ws) tr.
Proof.
  intros (lf & lq & Hi & Hn & Hc & Hp & Ha & Ht & He) (H1 & H2 & H3). exists lf, lq.
  cbn [tp_pool queue_head shutdown pending workers]. unfold in_use in *. rewrite H1, H2. split_and!; auto.
Qed.

Lemma append_inv s tr l1 l2 w j :
  tp_inv s tr -> pending s = l1 ++ (w, j) :: l2 ->
  tp_inv (add_end w (l1 ++ l2) (workers s) s) (tr ++ option_list (Some (Added j))).
Proof.
  intros (lf & lq & Hi & Hn & Hc & Hp & Ha & Ht & He). unfold add_end. open_inv. intros ->.
  assert (P : in_use lq (l1 ++ (w, j) :: l2) ws ≡ₚ in_use (lq ++ [w]) (l1 ++ l2) ws) by same_nodes.
  assert (Hn' := Hn). rewrite P in Hn'. unfold in_use in Hn'. apply NoDup_app in Hn' as (N1 & N2 & _).
  apply NoDup_app in N1 as (N1 & N3 & _).
  apply Forall_app in Hp as [Hp1 Hp2]. apply Forall_cons_iff in Hp2 as [[Hpw Hj] Hp2].
  assert (Hwd : w ∈ dom (tw_heap p)).
  { destruct Hi as (_ & _ & _ & ->). unfold in_use. rewrite map_app. cbn [map fst]. set_solver. }
  pose proof (append_spec p head w lq N1 ltac:(set_solver) Hpw Hwd Hc) as A.
  destruct (append p head w) as [p' head']. destruct A as [A X].
  assert (J : forall n, job_of p' n = job_of p n).
  { destruct X as [->|(z & _ & ->)]; [done|]. intros. apply job_set_next. }
  exists lf, (lq ++ [w]). cbn [tp_pool queue_head shutdown pending workers]. snoc. split_and!; try done.
  - apply (tw_inv_perm _ _ _ _ P). destruct X as [->|(z & Hz & ->)]; [done|].
    unfold set_next. destruct (job_of p z). apply write_inv; [|done]. unfold in_use. set_solver.
  - by rewrite <- P.
  - assert (K : forall x, x ∈ l1 ++ l2 -> filled p x -> filled p' x).
    { intros [x jx] Hx [F1 F2]. split; [|by rewrite J]. rewrite <- F1. apply (list_elem_of_fmap_2 fst) in Hx. cbn [fst] in Hx.
      destruct X as [->|(z & Hz & ->)]; [done|]. unfold set_next, next_of.
      destruct (job_of p z). cbn. rewrite lookup_insert_ne; [done|]. intros <-. apply (N2 z); set_solver. }
    rewrite Forall_forall in *. intros x Hx. apply K; [done|]. apply elem_of_app in Hx as [Hx|Hx]; auto.
  - rewrite Ha, map_app, <- app_assoc. cbn [map]. rewrite J, Hj. by rewrite (map_job_ext p p').
  - rewrite Ht. by rewrite (map_job_ext p p').
Qed.

Lemma add_end_inv s tr l1 l2 w j ws :
  tp_inv s tr -> pending s = l1 ++ (w, j) :: l2 -> signal (workers s) ws ->
  tp_inv (add_end w (l1 ++ l2) ws s) (tr ++ option_list (Some (Added j))).
Proof.
  intros Hi Hp Hs. pose proof (append_inv s tr l1 l2 w j Hi Hp) as H. apply (hands_inv _ _ ws) in H.
  - unfold add_end in *. by destruct (append _ _ _).
  - unfold add_end. destruct (append _ _ _). by apply signal_hands.
Qed.

(** Getting a node changes at most that node. *)
Lemma tw_get_other g p x p' n : tw_get g p = (x, p') -> n <> x -> tw_heap p' !! n = tw_heap p !! n.
Proof.
  unfold tw_get. destruct (tw_freed p) as [r|]; intros [= <- <-] N; [done|]. cbn. by rewrite lookup_insert_ne.
Qed.

Lemma add_begin_inv s tr g routine arg :
  tp_inv s tr -> tp_inv (snd (add_begin g routine arg s)) (tr ++ option_list None).
Proof.
  intros (lf & lq & Hi & Hn & Hc & Hp & Ha & Ht & He). unfold add_begin. open_inv.
  destruct (routine =? 0)%Z.
  { exists lf, lq. cbn [snd tp_pool queue_head shutdown pending workers]. snoc. by split_and!. }
  pose proof (tw_get_inv g p lf _ Hi) as G. pose proof (tw_get_other g p) as O.
  destruct (tw_get g p) as [x p']. destruct G as [Hx G]. specialize (O x p').
  assert (Hxu : x ∉ in_use lq pend ws) by (intros ?; apply Hx; by apply elem_of_list_to_set).
  assert (exists lf', tw_inv p' lf' ({[x]} ∪ list_to_set (in_use lq pend ws))) as [lf' G'].
  { destruct lf as [|y lf]; [by exists []|]. destruct G as [_ G]. by exists lf. }
  set (w := mk_work routine arg None). set (p2 := write_node p' x w).
  assert (L : forall n, n <> x -> tw_heap p2 !! n = tw_heap p !! n).
  { intros n N. unfold p2, write_node. cbn. rewrite lookup_insert_ne by done. by apply O. }
  assert (J : forall n, n <> x -> job_of p2 n = job_of p n) by (intros; unfold job_of; by rewrite L).
  assert (X : forall n, n <> x -> next_of p2 n = next_of p n) by (intros; unfold next_of; by rewrite L).
  assert (P : x :: in_use lq pend ws ≡ₚ in_use lq ((x, (routine, arg)) :: pend) ws) by (unfold in_use; cbn [map fst]; solve_Permutation).
  assert (Nq : x ∉ lq) by (intros ?; apply Hxu; unfold in_use; set_solver).
  assert (Np : x ∉ map fst pend) by (intros ?; apply Hxu; unfold in_use; set_solver).
  assert (Nh : x ∉ running ws).
  { intros R%running_held. apply Hxu. unfold in_use. set_solver. }
  exists lf', lq. cbn [snd tp_pool queue_head shutdown pending workers]. snoc. fold w. fold p2.
  split_and!; try done.
  - apply (tw_inv_perm _ _ _ _ P), write_inv; [set_solver|]. by rewrite list_to_set_cons.
  - rewrite <- P. by constructor.
  - clear -Hc L Nq. revert head Hc. induction lq as [|y lq IH]; intros head Hc; [done|].
    apply not_elem_of_cons in Nq as [N Nq]. destruct Hc as (-> & a & Hl & Hc). split; [done|]. exists a.
    rewrite L by done. split; [done|]. by apply IH.
  - constructor.
    + unfold filled, p2, next_of, job_of, write_node. cbn. by rewrite lookup_insert_eq.
    + rewrite Forall_forall in *. intros [n j] Hn'. destruct (Hp _ Hn') as [F1 F2]. apply (list_elem_of_fmap_2 fst) in Hn'.
      cbn [fst] in Hn'. assert (n <> x) by (intros ->; done). split; [by rewrite X|by rewrite J].
  - rewrite Ha. f_equal. symmetry. apply map_job_ext. intros n Hq. apply J. intros ->. done.
  - rewrite Ht. apply Permutation_app; [done|]. rewrite (map_job_ext p p2); [done|].
    intros n Hq. apply J. intros ->. done.
Qed.

Lemma destroy_inv s tr : tp_inv s tr -> tp_inv (destroy_begin s) (tr ++ option_list None).
Proof.
  intros (lf & lq & Hi & Hn & Hc & Hp & Ha & Ht & He). exists lf, lq.
  unfold destroy_begin. cbn [tp_pool queue_head shutdown pending workers]. snoc. by split_and!.
Qed.

Lemma step_inv s tr o s' : tp_inv s tr -> tp_step s o s' -> tp_inv s' (tr ++ option_list o).
Proof.
  intros Hi Hs. destruct Hs as [s o s' W|s g r a|s l1 l2 w j ws Hp Hs|s l1 l2 Hw|s Hd|s Hd]; [destruct W| | | | |].
  - by apply take_inv.
  - rewrite app_nil_r. apply (hands_inv s); [done|]. rewrite H. by apply set_hands.
  - by apply run_inv.
  - by apply del_step_inv.
  - by apply exit_inv.
  - by apply add_begin_inv.
  - by apply add_end_inv.
  - rewrite app_nil_r. apply (hands_inv s); [done|]. rewrite Hw. by apply set_hands.
  - by apply destroy_inv.
  - rewrite app_nil_r. apply (hands_inv s); [done|]. apply broadcast_hands.
Qed.

Lemma steps_inv s tr s' : tp_inv s [] -> steps tp_step s tr s' -> tp_inv s' tr.
Proof. intros Hi. induction 1; [done|]. by eapply step_inv; [apply IHsteps|]. Qed.

Lemma create_inv n : tp_inv (tpool_create n) [].
Proof.
  assert (E : forall f, (f Waiting = @nil nat) -> concat (map f (replicate n Waiting)) = []).
  { intros f Hf. induction n as [|n IH]; cbn; [done|]. by rewrite Hf. }
  exists [], []. unfold tpool_create. cbn [tp_pool queue_head shutdown pending workers].
  unfold in_use, held, running. rewrite !E by done. cbn. split_and!; try done.
  - split; [done|]. split; [constructor|]. split; [by intros x ?%not_elem_of_nil|]. set_solver.
  - constructor.
  - intros _. by intros [? _]%elem_of_replicate.
Qed.

(** ** What the pool guarantees *)

Lemma running_length ws : (length (running ws) <= length ws)%nat.
Proof.
  induction ws as [|w ws IH]; [done|]. change (running (w :: ws)) with (running_by w ++ running ws).
  rewrite length_app. destruct w; cbn [running_by length]; lia.
Qed.

(** C20. The pool is a queue, however the threads interleave: jobs are started in
    the order in which they were added and none twice, and every routine that
    runs is called with the argument its own call of [tpool_add_work] gave; besides
    the jobs already run, the jobs started are at most one per worker.  A node is in one
    place at a time: free, queued, being filled, or with one worker. *)
Theorem queue_order n tr s (Hs : steps tp_step (tpool_create n) tr s) :
  (exists waiting, added tr = taken tr ++ waiting) /\
  (exists now, taken tr ≡ₚ ran tr ++ now /\ (length now <= length (workers s))%nat) /\
  (exists lf lq, tw_inv (tp_pool s) lf (list_to_set (in_use lq (pending s) (workers s))) /\
     NoDup (in_use lq (pending s) (workers s)) /\ chain w_next (tw_heap (tp_pool s)) (queue_head s) lq).
Proof.
  pose proof (steps_inv _ _ _ (create_inv n) Hs) as (lf & lq & Hi & Hn & Hc & _ & Ha & Ht & _).
  split; [by eexists|]. split; [|by exists lf, lq].
  eexists. split; [exact Ht|]. rewrite length_map. apply running_length.
Qed.

Lemma steps_trans R s tr s1 : steps R s tr s1 -> forall tr' s2, steps R s1 tr' s2 -> steps R s (tr ++ tr') s2.
Proof.
  intros H tr' s2 H'. induction H'; [by rewrite app_nil_r|]. rewrite app_assoc. eapply steps_snoc; eauto.
Qed.

Lemma steps_one (R : tpool -> option tp_event -> tpool -> Prop) s o s' : R s o s' -> steps R s (option_list o) s'.
Proof. intros. change (option_list o) with ([] ++ option_list o). eapply steps_snoc; [constructor|done]. Qed.

(** Workers are threads of the program. *)
Lemma worker_steps s tr s' : steps worker_step s tr s' -> steps tp_step s tr s'.
Proof. induction 1; [constructor|]. eapply steps_snoc; [done|]. by constructor. Qed.

(** No step adds or removes a thread. *)
Lemma signal_length ws ws' : signal ws ws' -> length ws' = length ws.
Proof. intros [l1 l2|ws0 _]; [|done]. by rewrite !length_app. Qed.

Lemma step_workers s o s' : tp_step s o s' -> length (workers s') = length (workers s).
Proof.
  intros [s0 o0 s1 W|s0 g r a|s0 l1 l2 w j ws Hp Hs|s0 l1 l2 Hw|s0 Hd|s0 Hd].
  - destruct W as [x l1 l2 n Hw _ _|x l1 l2 Hw _ _|x l1 l2 n Hw|x l1 l2 n Hw|x l1 l2 Hw _];
      rewrite Hw; unfold take_work, set_worker, del_work; cbn [workers]; by rewrite !length_app.
  - unfold add_begin. destruct (_ =? _)%Z; [done|]. by destruct (tw_get g (tp_pool s0)).
  - unfold add_end. destruct (append _ _ _). by apply signal_length.
  - rewrite Hw. unfold set_worker. cbn [workers]. by rewrite !length_app.
  - done.
  - apply length_map.
Qed.

Lemma steps_workers s tr s' : steps tp_step s tr s' -> length (workers s') = length (workers s).
Proof. intros Hs. induction Hs as [|s tr s1 o s2 _ IH St]; [done|]. rewrite <- IH. by eapply step_workers. Qed.

(** ** No wake-up is lost *)

(** Where there is something to take, not all workers are asleep. *)
Definition awake (s : tpool) : Prop := shutdown s = false -> queue_head s <> None -> exists w, w ∈ workers s /\ w <> Asleep.

Lemma awake_here s l1 w l2 : workers s = l1 ++ w :: l2 -> w <> Asleep -> awake s.
Proof. intros E N _ _. exists w. rewrite E. split; [set_solver|done]. Qed.

Lemma signal_awake ws ws' : signal ws ws' -> (0 < length ws)%nat -> exists w, w ∈ ws' /\ w <> Asleep.
Proof.
  intros [l1 l2|[|w ws0] N] Hl; [exists Waiting; split; [set_solver|done]|cbn in Hl; lia|].
  exists w. split; [set_solver|]. intros ->. apply N. set_solver.
Qed.

Lemma step_awake s o s' : (0 < length (workers s))%nat -> awake s -> tp_step s o s' -> awake s'.
Proof.
  intros Hl A St. destruct St as [s0 o0 s1 W|s0 g r a|s0 l1 l2 w j ws Hp Hs|s0 l1 l2 Hw|s0 Hd|s0 Hd].
  - destruct W as [x l1 l2 n Hw Hs Hq|x l1 l2 Hw Hs Hq|x l1 l2 n Hw|x l1 l2 n Hw|x l1 l2 Hw Hs].
    + by eapply awake_here.
    + intros _ N. done.
    + by eapply awake_here.
    + by eapply awake_here.
    + by eapply awake_here.
  - unfold add_begin. destruct (_ =? _)%Z; [exact A|]. destruct (tw_get g (tp_pool s0)). exact A.
  - unfold add_end. destruct (append _ _ _). intros _ _. by apply (signal_awake (workers s0)).
  - by eapply awake_here.
  - by intros ?.
  - unfold awake, destroy_wake. cbn [shutdown]. by rewrite Hd.
Qed.

Lemma steps_awake s tr s' : (0 < length (workers s))%nat -> awake s -> steps tp_step s tr s' -> awake s'.
Proof.
  intros Hl A Hs. induction Hs as [|s tr s1 o s2 Hs IH St]; [done|]. eapply step_awake; [|by apply IH|exact St].
  by rewrite (steps_workers _ _ _ Hs).
Qed.

(** ** The workers come to rest *)

(** What a worker has left to do before it sleeps, and what the workers have. *)
Definition weight (w : wstate) : nat :=
  match w with Waiting => 1 | Asleep => 0 | Running _ => 3 | Finished _ => 2 | Exited => 0 end.
Definition work_left (s : tpool) (tr : list tp_event) : nat :=
  3 * (length (added tr) - length (taken tr)) + sum_list_with weight (workers s).

Lemma worker_step_less s tr o s' : tp_inv s tr -> worker_step s o s' -> (work_left s' (tr ++ option_list o) < work_left s tr)%nat.
Proof.
  intros Hi W. pose proof (step_inv _ _ _ _ Hi (step_worker _ _ _ W)) as (_ & lq' & _ & _ & _ & _ & Ha' & _).
  destruct Hi as (_ & lq & _ & _ & _ & _ & Ha & _). apply (f_equal length) in Ha, Ha'. rewrite !length_app, length_map in Ha, Ha'.
  unfold work_left. destruct W as [x l1 l2 n Hw _ _|x l1 l2 Hw _ _|x l1 l2 n Hw|x l1 l2 n Hw|x l1 l2 Hw _];
    rewrite Hw; unfold take_work, set_worker, del_work; cbn [workers]; rewrite !sum_list_with_app; cbn [sum_list_with weight];
    revert Ha'; snoc; rewrite ?length_app; cbn [length]; lia.
Qed.

(** Where no worker can move, all are asleep and the queue is empty. *)
Lemma at_rest s tr : tp_inv s tr -> awake s -> shutdown s = false -> (forall o s', ~ worker_step s o s') ->
  queue_head s = None /\ Forall (eq Asleep) (workers s).
Proof.
  intros (_ & _ & _ & _ & _ & _ & _ & _ & He) A Hd Hr. assert (F : Forall (eq Asleep) (workers s)).
  { apply Forall_forall. intros w Hw. pose proof Hw as (l1 & l2 & E)%list_elem_of_split. destruct w as [| |n|n|]; [|done|..].
    - exfalso. destruct (queue_head s) as [m|] eqn:Q; [by eapply Hr, (step_take s l1 l2 m)|by eapply Hr, (step_sleep s l1 l2)].
    - exfalso. eapply Hr. by apply (step_run s l1 l2 n).
    - exfalso. eapply Hr. by apply (step_del s l1 l2 n).
    - exfalso. by apply (He Hd). }
  split; [|done]. destruct (queue_head s) as [m|] eqn:Q; [|done]. destruct (A Hd ltac:(by rewrite Q)) as (w & Hw & N).
  rewrite Forall_forall in F. by destruct (N (eq_sym (F w Hw))).
Qed.

Lemma worker_shutdown s tr s' : steps worker_step s tr s' -> shutdown s' = shutdown s /\ added tr = [].
Proof.
  intros Hs. induction Hs as [|s tr s1 o s2 _ [IH1 IH2] St]; [done|]. rewrite <- IH1. snoc. rewrite IH2.
  destruct St as [s0 l1 l2 n _ _ _|s0 l1 l2 _ _ _|s0 l1 l2 n _|s0 l1 l2 n _|s0 l1 l2 _ _]; done.
Qed.

Lemma asleep_running ws : Forall (eq Asleep) ws -> running ws = [].
Proof. induction 1 as [|w ws <- _ IH]; [done|]. exact IH. Qed.

(** C21. Nothing that was added is lost.  Take any reachable state of a pool that is not
    being destroyed and leave its workers to themselves, in any order and without wake-ups
    but those the program sends: they cannot go on for ever, and whenever none of them
    can go on, the queue is empty, all are asleep, and every job that was added has
    been run exactly once. *)
Theorem queue_drains n tr s (Hn : (0 < n)%nat) (Hs : steps tp_step (tpool_create n) tr s)
    (Hd : shutdown s = false) :
  Acc (fun s2 s1 => exists o, worker_step s1 o s2) s /\
  forall tr' s', steps worker_step s tr' s' -> (forall o s2, ~ worker_step s' o s2) ->
    queue_head s' = None /\ Forall (eq Asleep) (workers s') /\ ran (tr ++ tr') ≡ₚ added tr.
Proof.
  assert (L : (0 < length (workers (tpool_create n)))%nat) by (cbn [workers tpool_create]; by rewrite length_replicate).
  pose proof (steps_inv _ _ _ (create_inv n) Hs) as Hi. split.
  - clear Hs L Hd Hn. remember (work_left s tr) as m eqn:Em. revert s tr Hi Em. induction m as [m IH] using lt_wf_ind. intros s tr Hi ->.
    constructor. intros s' [o W]. eapply IH; [exact (worker_step_less _ _ _ _ Hi W)| |done]. eapply step_inv; [done|by constructor].
  - intros tr' s' W R. pose proof (worker_shutdown _ _ _ W) as [D A]. apply worker_steps in W.
    pose proof (steps_trans _ _ _ _ Hs _ _ W) as S. pose proof (steps_inv _ _ _ (create_inv n) S) as Hi'.
    pose proof (steps_awake _ _ _ L ltac:(intros _ N; done) S) as Aw. destruct (at_rest _ _ Hi' Aw ltac:(congruence) R) as [Q F].
    split; [done|]. split; [done|]. destruct Hi' as (_ & lq & _ & _ & C & _ & Ha & Ht & _). rewrite Q in C. destruct lq; [|by destruct C].
    rewrite (asleep_running _ F) in Ht. cbn [map] in Ha, Ht. rewrite app_nil_r in Ha, Ht. rewrite <- Ht, <- Ha.
    unfold added in *. by rewrite omap_app, A, app_nil_r.
Qed.

(** ** Witnesses *)

Section Witnesses.

(** Two jobs are added to a pool of two threads that sleep, in the other order of their
    nodes; the first wakes the first thread. *)
Definition w_junk : work := mk_work 9 9 (Some 5%nat).
Definition w_asleep : tpool := set_worker [Asleep] [] Asleep (set_worker [] [Waiting] Asleep (tpool_create 2)).
Definition w_filled : tpool := snd (add_begin w_junk 30 31 (snd (add_begin w_junk 10 11 w_asleep))).
Definition w_added : tpool := add_end 0 [] [Waiting; Waiting] (add_end 1 [(0%nat, (10, 11)%Z)] [Waiting; Asleep] w_filled).

Lemma w_asleep_steps : steps tp_step (tpool_create 2) [] w_asleep.
Proof.
  refine (steps_trans _ _ [] (set_worker [] [Waiting] Asleep (tpool_create 2)) _ [] _ _); refine (steps_one _ _ None _ _); apply step_worker.
  - by apply (step_sleep _ [] [Waiting]).
  - by apply (step_sleep _ [Asleep] []).
Qed.

Lemma w_added_steps : steps tp_step (tpool_create 2) [Added (30, 31)%Z; Added (10, 11)%Z] w_added.
Proof.
  assert (S2 : steps tp_step (tpool_create 2) [] w_filled).
  { refine (steps_trans _ _ _ _ w_asleep_steps [] _ _).
    exact (steps_trans _ _ _ _ (steps_one _ _ _ _ (step_add _ w_junk 10 11)) _ _ (steps_one _ _ _ _ (step_add _ w_junk 30 31))). }
  refine (steps_trans _ _ _ _ S2 [Added (30, 31)%Z; Added (10, 11)%Z] _ (steps_trans _ _ [Added (30, 31)%Z] _ _ [Added (10, 11)%Z] _ _)).
  - refine (steps_one _ _ _ _ (step_append w_filled [] [(0%nat, (10, 11)%Z)] 1 (30, 31)%Z [Waiting; Asleep] _ _)).
    + vm_compute. reflexivity.
    + exact (signal_one [] [Asleep]).
  - refine (steps_one _ _ _ _ (step_append (add_end 1 [(0%nat, (10, 11)%Z)] [Waiting; Asleep] w_filled) [] [] 0 (10, 11)%Z [Waiting; Waiting] _ _)).
    + vm_compute. reflexivity.
    + exact (signal_one [Waiting] []).
Qed.

Definition w_taken : tpool := take_work [] [Waiting] 1 w_added.
Lemma w_taken_steps :
  steps tp_step (tpool_create 2) [Added (30, 31)%Z; Added (10, 11)%Z; Taken (30, 31)%Z] w_taken.
Proof.
  exact (steps_trans _ _ _ _ w_added_steps _ _ (steps_one _ _ _ _ (step_worker _ _ _
    (step_take w_added [] [Waiting] 1 ltac:(vm_compute; reflexivity) ltac:(vm_compute; reflexivity)
       ltac:(vm_compute; reflexivity))))).
Qed.

Lemma queue_order_witness :
  let tr := [Added (30, 31)%Z; Added (10, 11)%Z; Taken (30, 31)%Z] in
  steps tp_step (tpool_create 2) tr w_taken /\ (exists waiting, added tr = taken tr ++ waiting) /\
  exists lf lq, tw_inv (tp_pool w_taken) lf (list_to_set (in_use lq (pending w_taken) (workers w_taken))) /\
    chain w_next (tw_heap (tp_pool w_taken)) (queue_head w_taken) lq.
Proof.
  split; [exact w_taken_steps|]. destruct (queue_order 2 _ _ w_taken_steps) as (A & _ & lf & lq & B & _ & C).
  split; [exact A|]. exists lf, lq. split; [exact B|exact C].
Defined.

Lemma queue_drains_witness :
  Acc (fun s2 s1 => exists o, worker_step s1 o s2) w_added /\
  forall tr' s', steps worker_step w_added tr' s' -> (forall o s2, ~ worker_step s' o s2) ->
    queue_head s' = None /\ Forall (eq Asleep) (workers s') /\
    ran ([Added (30, 31)%Z; Added (10, 11)%Z] ++ tr') ≡ₚ [(30, 31); (10, 11)]%Z.
Proof. exact (queue_drains 2 _ _ ltac:(lia) w_added_steps ltac:(vm_compute; reflexivity)). Defined.
End Witnesses.
