(* ===== verification/Cache.v ===== *)
(** * Cache: core/cache.hpp and core/filecache.hpp

    The cache is a [std::map] from strings to values; it is the list of its
    entries in the order of their keys, which is the order [freetrash] walks
    through.  [now] is what [nowtime_s] returns.  [timeout] ends without a value
    for an entry that is not old enough: [junk] is what its caller then sees. *)

From stdpp Require Import gmap sorting.
From S2P Require Import Prelude Hash.
#[local] Open Scope Z_scope.

(** ** Values *)

(** [data]: a block from [malloc], by its address; [onfree] is [NULL] or a
    function that frees it. *)
Record value := mk_value {
  v_time : Z; v_tl : Z; v_onfree : bool; v_data : option nat; v_length : Z; v_v : list Z
}.

(** The constructor [value(tt)]. *)
Definition value_new (now tt : Z) : value := mk_value (u32 now) (u32 tt) false None 0 [].

Definition ysabs (inp : Z) : Z := if 0 <? inp then inp else s32 (- inp).

(** [ysabs(nowtime_s()-time)>=tl] *)
Definition time_over (now : Z) (s : value) : bool :=
  v_tl s <=? u32 (ysabs (s32 (u32 (now - v_time s)))).

Definition timeout (now : Z) (junk : bool) (s : value) : bool :=
  if time_over now s then true else junk.

(** ** The map *)

(** [std::string]'s order: bytes as [unsigned char], a prefix first. *)
Fixpoint key_ltb (a b : list Z) : bool :=
  match a, b with
  | _, [] => false
  | [], _ :: _ => true
  | x :: a, y :: b => (x <? y) || ((x =? y) && key_ltb a b)
  end.
Definition key_lt (a b : list Z) : Prop := key_ltb a b = true.

Definition cache : Type := list (list Z * value).

Fixpoint cache_find (c : cache) (k : list Z) : option value :=
  match c with
  | [] => None
  | (k', v) :: c => if decide (k = k') then Some v else cache_find c k
  end.

(** [cache[k]=v] *)
Fixpoint cache_put (c : cache) (k : list Z) (v : value) : cache :=
  match c with
  | [] => [(k, v)]
  | (k', v') :: c' =>
      if decide (k = k') then (k, v) :: c'
      else if key_ltb k k' then (k, v) :: c
      else (k', v') :: cache_put c' k v
  end.

Fixpoint cache_erase (c : cache) (k : list Z) : cache :=
  match c with
  | [] => []
  | (k', v) :: c => if decide (k = k') then c else (k', v) :: cache_erase c k
  end.

(** ** cache.hpp *)

(** [set], when its three arguments have their types. *)
Definition set (now : Z) (c : cache) (k v : list Z) (t : Z) : cache :=
  let val := value_new now t in
  cache_put c k (mk_value (v_time val) (v_tl val) (v_onfree val) (v_data val) (v_length val) v).

(** [read]: the string pushed, if any. *)
Definition read (now : Z) (junk : bool) (c : cache) (k : list Z) : option (list Z) :=
  match cache_find c k with
  | None => None
  | Some s => if timeout now junk s then None else Some (c_str (v_v s))
  end.

Definition del (c : cache) (k : list Z) : cache :=
  match cache_find c k with
  | None => c
  | Some _ => cache_erase c k
  end.

(** The loop of [freetrash] from the entry [it] on: what stays and the blocks given
    to [free]; [None]: the end of the map is dereferenced.  For an entry that has
    timed out, [it] moves on before [it->second] is copied.  [junk]: what [timeout]
    leaves for the entry of a key. *)
Fixpoint freetrash_loop (now : Z) (junk : list Z -> bool) (it : cache) (freed : list (option nat)) :
    option (cache * list (option nat)) :=
  match it with
  | [] => Some ([], freed)
  | (k, v) :: it =>
      if timeout now (junk k) v then
        match it with
        | [] => None
        | (_, pp) :: _ => freetrash_loop now junk it (freed ++ if v_onfree pp then [v_data pp] else [])
        end
      else '(c, freed) ← freetrash_loop now junk it freed; Some ((k, v) :: c, freed)
  end.
Definition freetrash (now : Z) (junk : list Z -> bool) (c : cache) : option (cache * list (option nat)) :=
  freetrash_loop now junk c [].

(** ** filecache.hpp *)

(** The blocks of the heap and the files of the disk. *)
Abbreviation blocks := (gmap nat (list Z)) (only parsing).
Abbreviation files := (gmap (list Z) (list Z)) (only parsing).

Definition maxsize : Z := 65536.

Definition addcache (now : Z) (c : cache) (name : list Z) (mb : nat) (length : Z) : cache :=
  let v := value_new now 300 in
  cache_put c name (mk_value (v_time v) (v_tl v) true (Some mb) (u32 length) (v_v v)).

(** The value of [getcache] and, when [*rl] is set, the bytes copied to [buf]:
    [-1] as a [bool] is [true]. *)
Definition getcache (c : cache) (mem : blocks) (name : list Z) (begin len : Z) : bool * option (list Z) :=
  match cache_find c name with
  | None => (false, None)
  | Some v =>
      match v_data v with
      | None => (false, None)
      | Some cp =>
          if v_length v =? 0 then (false, None)
          else if v_length v <? begin then (true, None)
          else
            let leng := s32 (if v_length v <? u32 (begin + len) then u32 (v_length v - begin) else len) in
            (true, Some (map (fun i => getn (default [] (mem !! cp)) (Z.to_nat begin + i)) (seq 0 (Z.to_nat leng))))
      end
  end.

(** It reads the file into a new block and returns: nothing is cached. *)
Definition addfileintobuffer (fs : files) (path : list Z) : bool :=
  match fs !! path with
  | None => false
  | Some f => negb ((maxsize <? Z.of_nat (length f)) || (Z.of_nat (length f) =? 0))
  end.

(** [open], [lseek], [read]: a negative offset leaves the position at 0. *)
Definition getfile (fs : files) (path : list Z) (sk : Z) (len : Z) : Z * list Z :=
  match fs !! path with
  | None => (-1, [])
  | Some f =>
      let pos := if sk <? 0 then 0 else sk in
      let l := take (Z.to_nat len) (drop (Z.to_nat pos) f) in (Z.of_nat (length l), l)
  end.

(** [find] and nothing else. *)
Definition removefilefrombuffer (c : cache) (path : list Z) : cache := c.

Definition fileappend (c : cache) (fs : files) (n data : list Z) : cache * files :=
  (removefilefrombuffer c n, <[n := default [] (fs !! n) ++ data]> fs).

(** The value and the bytes in [buf]; [rl]: the uninitialised local. *)
Definition readfile (c : cache) (mem : blocks) (fs : files) (path : list Z) (begin len rl : Z) : Z * list Z :=
  match getcache c mem path begin len with
  | (true, Some l) => (Z.of_nat (length l), l)
  | (true, None) => (rl, [])
  | (false, _) => getfile fs path (s32 begin) len
  end.

Definition removefile (c : cache) (fs : files) (path : list Z) : Z * cache * files :=
  (match fs !! path with Some _ => 0 | None => -1 end, removefilefrombuffer c path, delete path fs).

(** ** The map is a map *)

Lemma key_lt_irrefl a : ~ key_lt a a.
Proof.
  unfold key_lt. induction a as [|x a IH]; cbn; [done|]. rewrite Z.ltb_irrefl, Z.eqb_refl. done.
Qed.

Lemma key_lt_trans a b c : key_lt a b -> key_lt b c -> key_lt a c.
Proof.
  unfold key_lt. revert b c. induction a as [|x a IH]; intros [|y b] [|z c]; cbn; try done.
  rewrite !orb_true_iff, !andb_true_iff, !Z.ltb_lt, !Z.eqb_eq.
  intros [H1|[-> H1]] [H2|[-> H2]]; [left; lia|by left|by left|right]. split; [done|by eapply IH].
Qed.

Lemma key_lt_total a b : key_lt a b \/ a = b \/ key_lt b a.
Proof.
  unfold key_lt. revert b. induction a as [|x a IH]; intros [|y b]; cbn; auto.
  rewrite !orb_true_iff, !andb_true_iff, !Z.ltb_lt, !Z.eqb_eq.
  destruct (Z.lt_trichotomy x y) as [?|[->|?]]; [auto| |auto].
  destruct (IH b) as [?|[->|?]]; auto.
Qed.

#[export] Instance key_lt_transitive : Transitive key_lt.
Proof. intros a b c. apply key_lt_trans. Qed.

(** The keys ascend. *)
Definition cache_ok (c : cache) : Prop := StronglySorted key_lt (map fst c).

Lemma cache_find_below c k : Forall (key_lt k) (map fst c) -> cache_find c k = None.
Proof.
  induction c as [|[k' v] c IH]; intros Hb; [done|]. apply Forall_cons_iff in Hb as [Hk Hb]. cbn.
  destruct (decide (k = k')) as [->|_]; [by apply key_lt_irrefl in Hk|by apply IH].
Qed.

Lemma cache_put_keys c k v x : x ∈ map fst (cache_put c k v) -> x = k \/ x ∈ map fst c.
Proof.
  induction c as [|[k' v'] c IH]; cbn; [set_solver|].
  destruct (decide (k = k')) as [->|_]; [set_solver|]. destruct (key_ltb k k'); [set_solver|].
  cbn. intros [->|Hx]%elem_of_cons; [set_solver|]. apply IH in Hx. set_solver.
Qed.

Lemma cache_put_ok c k v : cache_ok c -> cache_ok (cache_put c k v).
Proof.
  unfold cache_ok. induction c as [|[k' v'] c IH]; intros Hc; cbn; [by repeat constructor|].
  apply StronglySorted_inv in Hc as [Hc Hk]. destruct (decide (k = k')) as [->|N]; [by constructor|].
  destruct (key_ltb k k') eqn:E.
  - constructor; [by constructor|]. constructor; [done|]. eapply List.Forall_impl; [|exact Hk].
    intros y. by apply key_lt_trans.
  - constructor; [by apply IH|]. apply List.Forall_forall. intros y Hy%list_elem_of_In.
    apply cache_put_keys in Hy as [->|Hy].
    + destruct (key_lt_total k k') as [L|[->|L]]; [unfold key_lt in L; congruence|done|done].
    + rewrite List.Forall_forall in Hk. by apply Hk, list_elem_of_In.
Qed.

Lemma cache_find_put c k v k2 :
  cache_find (cache_put c k v) k2 = if decide (k2 = k) then Some v else cache_find c k2.
Proof.
  induction c as [|[k' v'] c IH]; cbn; [done|].
  destruct (decide (k = k')) as [->|N]; cbn.
  { by destruct (decide (k2 = k')). }
  destruct (key_ltb k k'); cbn; [done|]. rewrite IH.
  destruct (decide (k2 = k')) as [->|N2]; [|done]. by rewrite decide_False.
Qed.

Lemma cache_erase_keys c k x : x ∈ map fst (cache_erase c k) -> x ∈ map fst c.
Proof. induction c as [|[k' v'] c IH]; cbn; [done|]. destruct (decide (k = k')); cbn; set_solver. Qed.

Lemma cache_erase_ok c k : cache_ok c -> cache_ok (cache_erase c k).
Proof.
  unfold cache_ok. induction c as [|[k' v'] c IH]; intros Hc; cbn; [done|].
  apply StronglySorted_inv in Hc as [Hc Hk]. destruct (decide (k = k')); [done|]. constructor; [by apply IH|].
  rewrite List.Forall_forall in *. intros y Hy%list_elem_of_In%cache_erase_keys. by apply Hk, list_elem_of_In.
Qed.

Lemma cache_find_erase c k k2 : cache_ok c ->
  cache_find (cache_erase c k) k2 = if decide (k2 = k) then None else cache_find c k2.
Proof.
  unfold cache_ok. induction c as [|[k' v'] c IH]; intros Hc; cbn; [by case_decide|].
  apply StronglySorted_inv in Hc as [Hc Hk]. destruct (decide (k = k')) as [->|N]; cbn.
  - destruct (decide (k2 = k')) as [->|]; [by apply cache_find_below|done].
  - rewrite IH by done. destruct (decide (k2 = k')) as [->|]; [by rewrite decide_False|done].
Qed.

Lemma del_find c k k2 : cache_ok c ->
  cache_find (del c k) k2 = if decide (k2 = k) then None else cache_find c k2.
Proof.
  intros Hc. unfold del. destruct (cache_find c k) eqn:E; [by apply cache_find_erase|].
  by destruct (decide (k2 = k)) as [->|].
Qed.

(** ** freetrash *)

(** The entries whose time is not over. *)
Definition alive (now : Z) (junk : list Z -> bool) (c : list (list Z * value)) : list (list Z * value) :=
  filter (fun e => timeout now (junk (fst e)) (snd e) = false) c.

Lemma alive_cons now junk k v c :
  alive now junk ((k, v) :: c) = if timeout now (junk k) v then alive now junk c else (k, v) :: alive now junk c.
Proof. unfold alive. rewrite list.filter_cons. cbn [fst snd]. by destruct (timeout now (junk k) v). Qed.

Lemma freetrash_frees now junk c : forall freed c' freed',
  freetrash_loop now junk c freed = Some (c', freed') ->
  (exists l, freed' = freed ++ l) /\ c' = alive now junk c.
Proof.
  induction c as [|[k v] c IH]; intros freed c' freed' E; cbn in E.
  { injection E as <- <-. split; [exists []; by rewrite app_nil_r|done]. }
  rewrite alive_cons. destruct (timeout now (junk k) v) eqn:T.
  - destruct c as [|[k2 pp] c]; [done|]. apply IH in E as [[l ->] ->]. split; [|done].
    rewrite <- app_assoc. by eexists.
  - destruct (freetrash_loop now junk c freed) as [[c1 f1]|] eqn:E1; [|done]. cbn in E. injection E as <- <-.
    apply IH in E1 as [Hl ->]. done.
Qed.

(** [freetrash] frees the wrong blocks: when an entry has timed out it is the
    next one whose data is freed, so that an entry that stays in the cache behind
    one that goes has lost its data; and when the last entry has timed out the
    loop dereferences the end of the map. *)
Lemma freetrash_wrong now junk pre k v k2 v2 post :
  timeout now (junk k) v = true ->
  freetrash now junk (pre ++ [(k, v)]) = None /\
  (timeout now (junk k2) v2 = false -> v_onfree v2 = true ->
   forall c freed, freetrash now junk (pre ++ (k, v) :: (k2, v2) :: post) = Some (c, freed) ->
     (k2, v2) ∈ c /\ v_data v2 ∈ freed).
Proof.
  intros T. split.
  - unfold freetrash. generalize (@nil (option nat)). induction pre as [|[k1 v1] pre IH]; intros freed; cbn.
    + by rewrite T.
    + destruct (timeout now (junk k1) v1); [|by rewrite IH].
      destruct (pre ++ [(k, v)]) as [|[k3 v3] l] eqn:E; [by destruct pre|]. apply IH.
  - intros T2 F2 c freed E. split.
    + apply freetrash_frees in E as [_ ->]. apply list_elem_of_filter. split; [done|].
      apply elem_of_app. right. right. left.
    + unfold freetrash in E. revert E. generalize (@nil (option nat)). intros f0 E. revert f0 c freed E.
      induction pre as [|[k1 v1] pre IH]; intros f0 c freed E; cbn [app freetrash_loop] in E.
      * rewrite T, F2 in E.
        change (freetrash_loop now junk ((k2, v2) :: post) (f0 ++ [v_data v2]) = Some (c, freed)) in E.
        apply freetrash_frees in E as [[l ->] _]. set_solver.
      * destruct (timeout now (junk k1) v1).
        -- destruct (pre ++ (k, v) :: (k2, v2) :: post) as [|[k3 v3] l] eqn:E3; [by destruct pre|].
           by eapply IH.
        -- destruct (freetrash_loop _ _ _ _) as [[c1 f1]|] eqn:E1; [|done]. cbn in E. injection E as _ <-.
           by eapply IH.
Qed.

Lemma freetrash_wrong_witness :
  exists c freed,
    freetrash 1000 (fun _ => false) (addcache 0 (addcache 999 [] [98] 1 5) [97] 0 5) = Some (c, freed) /\ Some 1%nat ∈ freed.
Proof.
  eexists _, _. split; [vm_compute; reflexivity|].
  apply (proj2 (freetrash_wrong 1000 (fun _ => false) [] [97] (mk_value 0 300 true (Some 0%nat) 5 [])
    [98] (mk_value 999 300 true (Some 1%nat) 5 []) [] eq_refl) eq_refl eq_refl _ _ eq_refl).
Defined.

(** ** Runs *)

(** What the threads of the process do to the map. *)
Inductive cache_op :=
  | OpSet (now : Z) (k v : list Z) (t : Z)
  | OpDel (k : list Z)
  | OpAdd (now : Z) (k : list Z) (mb : nat) (length : Z)
  | OpFree (now : Z) (junk : list Z -> bool).

Definition cache_step (c : cache) (op : cache_op) : option cache :=
  match op with
  | OpSet now k v t => Some (set now c k v t)
  | OpDel k => Some (del c k)
  | OpAdd now k mb length => Some (addcache now c k mb length)
  | OpFree now junk => fst <$> freetrash now junk c
  end.

Fixpoint cache_steps (c : cache) (ops : list cache_op) : option cache :=
  match ops with
  | [] => Some c
  | op :: ops => match cache_step c op with Some c => cache_steps c ops | None => None end
  end.

(** What the last operation on [k] left there; a clean-up takes it away if it has
    timed out by then. *)
Definition step_left (k : list Z) (r : option value) (op : cache_op) : option value :=
  match op with
  | OpSet now k' v t => if decide (k = k') then Some (mk_value (u32 now) (u32 t) false None 0 v) else r
  | OpDel k' => if decide (k = k') then None else r
  | OpAdd now k' mb length =>
      if decide (k = k') then Some (mk_value (u32 now) 300 true (Some mb) (u32 length) []) else r
  | OpFree now junk => match r with Some v => if timeout now (junk k) v then None else r | None => None end
  end.
Definition last_left (k : list Z) (ops : list cache_op) : option value := fold_left (step_left k) ops None.

Lemma alive_keys now junk c x : x ∈ map fst (alive now junk c) -> x ∈ map fst c.
Proof.
  induction c as [|[k v] c IH]; [done|]. rewrite alive_cons. cbn [map fst].
  destruct (timeout now (junk k) v); cbn [map fst]; set_solver.
Qed.

Lemma alive_ok now junk c : cache_ok c -> cache_ok (alive now junk c).
Proof.
  unfold cache_ok. induction c as [|[k v] c IH]; intros Hc; [done|]. cbn [map fst] in Hc.
  apply StronglySorted_inv in Hc as [Hc Hk]. rewrite alive_cons.
  destruct (timeout now (junk k) v); [by apply IH|]. cbn [map fst]. constructor; [by apply IH|].
  rewrite List.Forall_forall in *. intros y Hy%list_elem_of_In%alive_keys. by apply Hk, list_elem_of_In.
Qed.

Lemma alive_find now junk c k : cache_ok c ->
  cache_find (alive now junk c) k =
    match cache_find c k with Some v => if timeout now (junk k) v then None else Some v | None => None end.
Proof.
  unfold cache_ok. induction c as [|[k' v] c IH]; intros Hc; [done|]. cbn [map fst] in Hc.
  apply StronglySorted_inv in Hc as [Hc Hk]. rewrite alive_cons. cbn [cache_find].
  destruct (decide (k = k')) as [->|N].
  - destruct (timeout now (junk k') v) eqn:T; [|cbn [cache_find]; by rewrite decide_True].
    rewrite IH by done. by rewrite cache_find_below.
  - rewrite <- IH by done. destruct (timeout now (junk k') v); [done|]. cbn [cache_find]. by rewrite decide_False.
Qed.

(** The only way it goes wrong: the last entry has timed out. *)
Lemma freetrash_loop_none now junk c : forall freed,
  freetrash_loop now junk c freed = None ->
  exists c0 k v, c = c0 ++ [(k, v)] /\ timeout now (junk k) v = true.
Proof.
  induction c as [|[k v] c IH]; intros freed E; cbn in E; [done|].
  destruct (timeout now (junk k) v) eqn:T.
  - destruct c as [|[k2 v2] c]; [by exists [], k, v|]. apply IH in E as (c0 & k3 & v3 & L & T3).
    exists ((k, v) :: c0), k3, v3. by rewrite L.
  - destruct (freetrash_loop now junk c freed) as [[c1 f1]|] eqn:E1; [done|].
    apply IH in E1 as (c0 & k3 & v3 & -> & T3). by exists ((k, v) :: c0), k3, v3.
Qed.

Lemma cache_step_find c op c' : cache_ok c -> cache_step c op = Some c' ->
  cache_ok c' /\ forall k, cache_find c' k = step_left k (cache_find c k) op.
Proof.
  intros Hc E. destruct op as [now k' v t|k'|now k' mb len|now junk]; cbn [cache_step step_left] in *.
  - injection E as <-. split; [by apply cache_put_ok|]. intros k. unfold set. by rewrite cache_find_put.
  - injection E as <-. split; [unfold del; destruct (cache_find c k'); [by apply cache_erase_ok|done]|].
    intros k. by rewrite del_find.
  - injection E as <-. split; [by apply cache_put_ok|]. intros k. unfold addcache. by rewrite cache_find_put.
  - destruct (freetrash now junk c) as [[c1 freed]|] eqn:F; [|done]. injection E as <-.
    apply freetrash_frees in F as [_ ->]. split; [by apply alive_ok|]. intros k. rewrite alive_find by done.
    by destruct (cache_find c k).
Qed.

Lemma cache_steps_find ops : forall c, cache_ok c ->
  match cache_steps c ops with
  | Some c' => forall k, cache_find c' k = fold_left (step_left k) ops (cache_find c k)
  | None => exists pre now junk post c1 k v, ops = pre ++ OpFree now junk :: post /\
      cache_steps c pre = Some (c1 ++ [(k, v)]) /\ timeout now (junk k) v = true
  end.
Proof.
  induction ops as [|op ops IH]; intros c Hc; cbn [cache_steps fold_left]; [done|].
  destruct (cache_step c op) as [c1|] eqn:E.
  - destruct (cache_step_find c op c1 Hc E) as [Hc1 F]. specialize (IH c1 Hc1).
    destruct (cache_steps c1 ops) as [c'|].
    + intros k. by rewrite IH, F.
    + destruct IH as (pre & now & junk & post & c2 & k & v & -> & R & T).
      exists (op :: pre), now, junk, post, c2, k, v. split; [done|]. cbn [cache_steps]. by rewrite E.
  - destruct op as [now k' v t|k'|now k' mb len|now junk]; try done. cbn [cache_step] in E.
    destruct (freetrash now junk c) as [[c1 freed]|] eqn:F; [done|].
    apply freetrash_loop_none in F as (c0 & k & v & -> & T). by exists [], now, junk, ops, c0, k, v.
Qed.



(** ** Reading files *)

Lemma map_getn_take l b n : (b + n <= length l)%nat -> map (fun i => getn l (b + i)) (seq 0 n) = take n (drop b l).
Proof.
  intros L. apply nth_ext with (d := getn l (b + 0)) (d' := 0).
  - rewrite length_map, length_seq, length_take, length_drop. lia.
  - intros i Hi. rewrite length_map, length_seq in Hi.
    rewrite (map_nth (fun i => getn l (b + i)) (seq 0 n) 0%nat), seq_nth by done.
    unfold getn. rewrite <- (nth_skipn b), nth_firstn. by destruct (Nat.ltb_spec i n); [|lia].
Qed.

(** A file in the cache is read like a file on the disk: the bytes from [begin]
    on, at most [len], never past the block -- if its size fits an [int] and
    [begin + len] a 32-bit word; but appending to it leaves the cache alone, and
    readers go on seeing the old bytes. *)
Lemma readfile_cached c mem fs path v b f begin len rl data
    (Hc : cache_find c path = Some v) (Hd : v_data v = Some b) (Hb : mem !! b = Some f)
    (Hl : v_length v = Z.of_nat (length f)) (Hf : fs !! path = Some f)
    (Hn : 0 < v_length v < 2 ^ 31) (Hr : 0 <= begin <= v_length v) (Hw : 0 <= len < 2 ^ 31)
    (Hs : begin + len < 2 ^ 32) :
  let l := take (Z.to_nat len) (drop (Z.to_nat begin) f) in
  readfile c mem fs path begin len rl = (Z.of_nat (length l), l) /\
  getfile fs path (s32 begin) len = (Z.of_nat (length l), l) /\
  (let '(c', fs') := fileappend c fs path data in
   fs' !! path = Some (f ++ data) /\ readfile c' mem fs' path begin len rl = (Z.of_nat (length l), l)).
Proof.
  cbv zeta. set (l := take (Z.to_nat len) (drop (Z.to_nat begin) f)).
  assert (G : getcache c mem path begin len = (true, Some l)).
  { unfold getcache. rewrite Hc, Hd, Hb, Hl. cbn [default].
    destruct (Z.eqb_spec (Z.of_nat (length f)) 0); [lia|].
    destruct (Z.ltb_spec (Z.of_nat (length f)) begin); [lia|]. do 2 f_equal. unfold l.
    rewrite (u32_id (begin + len)) by lia. destruct (Z.ltb_spec (Z.of_nat (length f)) (begin + len)).
    - rewrite u32_id, s32_id by lia. unfold id. rewrite map_getn_take by lia.
      rewrite !take_ge by (rewrite length_drop; lia). done.
    - rewrite s32_id by lia. unfold id. rewrite map_getn_take by lia. done. }
  split; [unfold readfile; by rewrite G|]. split.
  - unfold getfile. rewrite Hf, s32_id by lia. destruct (Z.ltb_spec begin 0); [lia|]. done.
  - unfold fileappend, removefilefrombuffer. rewrite Hf. cbn [default]. split; [by rewrite lookup_insert_eq|].
    unfold readfile. by rewrite G.
Qed.

Lemma readfile_cached_witness :
  let c := addcache 0 [] [120] 3 4 in
  let '(c', fs') := fileappend c {[ [120] := [1; 2; 3; 4] ]} [120] [5] in
  readfile c' {[ 3%nat := [1; 2; 3; 4] ]} fs' [120] 1 9 77 = (3, [2; 3; 4]).
Proof.
  exact (proj2 (proj2 (proj2 (readfile_cached (addcache 0 [] [120] 3 4) {[ 3%nat := [1; 2; 3; 4] ]}
    {[ [120] := [1; 2; 3; 4] ]} [120] (mk_value 0 300 true (Some 3%nat) 4 []) 3 [1; 2; 3; 4] 1 9 77 [5] eq_refl eq_refl eq_refl eq_refl eq_refl
    ltac:(cbn; lia) ltac:(cbn; lia) ltac:(lia) ltac:(lia))))).
Defined.
