(* ===== verification/HttpParser.v ===== *)
(** * HttpParser: core/httpdpaser.hpp

    The parser of key/value strings ([kv_paser]), which reads the query, the
    cookie and the body of a request.  [mem] is the memory from the string on, up
    to the end of the object it lies in: its NUL is one of its bytes, and reading
    on behind the last byte is outside the object. *)

From stdpp Require Import gmap.
From S2P Require Import Prelude Hash.
#[local] Open Scope Z_scope.

(** ** Case *)

Definition downchar (c : Z) : Z :=
  if s8 c <? 65 then c else if 90 <? s8 c then c else u8 (c + (97 - 65)).

(** [while *inp]: the rest of the memory is left alone. *)
Fixpoint downstr (mem : list Z) : list Z :=
  match mem with
  | [] => []
  | c :: mem => if c =? 0 then c :: mem else downchar c :: downstr mem
  end.

(** ** kv_paser *)

Abbreviation strmap := (gmap (list Z) (list Z)) (only parsing).

Inductive parsed := Parsed (om : strmap) | Overread.

(** [for(i=0;(i<n && *cp!=c && cp!=NULL);i++)] copying a byte, from a pointer
    that is not null: the copied bytes and the memory from [cp] on; [None]: a
    read outside. *)
Fixpoint copy_until (n : nat) (c : Z) (mem : list Z) : option (list Z * list Z) :=
  match n with
  | O => Some ([], mem)
  | S n =>
      match mem with
      | [] => None
      | x :: mem' =>
          if x =? c then Some ([], mem)
          else '(l, m) ← copy_until n c mem'; Some (x :: l, m)
      end
  end.

(** [while *cp]; the outer [None]: out of fuel. *)
Fixpoint kv_loop (fuel : nat) (cl ce : Z) (mem : list Z) (om : strmap) : option parsed :=
  match fuel with
  | O => None
  | S fuel =>
      match mem with
      | [] => Some Overread
      | x :: _ =>
          if x =? 0 then Some (Parsed om)
          else
            match copy_until 126 cl mem with
            | None => Some Overread
            | Some (buffer_k, mem) =>
                match copy_until 1022 ce (tail mem) with
                | None => Some Overread
                | Some (buffer_v, mem) => kv_loop fuel cl ce (tail mem) (<[c_str buffer_k := c_str buffer_v]> om)
                end
            end
      end
  end.
Definition kv_paser (mem : list Z) (cl ce : Z) (om : strmap) : option parsed :=
  kv_loop (S (length mem)) cl ce mem om.

(** ** The fields of a request *)

Definition c_eq : Z := 61.
Definition c_amp : Z := 38.
Definition c_semi : Z := 59.

(** A string that may be missing: [None] is [NULL]. *)
Definition decode_field (str : option (list Z)) (ce : Z) (om : strmap) : option parsed :=
  match str with
  | None => Some (Parsed om)
  | Some mem => if getn mem 0 =? 0 then Some (Parsed om) else kv_paser mem c_eq ce om
  end.
Definition query_decode (query : option (list Z)) : strmap -> option parsed := decode_field query c_amp.
Definition cookie_decode (cookie : option (list Z)) : strmap -> option parsed := decode_field cookie c_semi.

(** [postdata] has 4096 bytes, [mem] is those and what follows them in the
    object. *)
Definition post_decode (mem : list Z) : strmap -> option parsed :=
  decode_field (Some (setn mem 4095 0)) c_amp.

(** ** Lemmas *)

Lemma copy_until_shorter n c : forall mem l m, copy_until n c mem = Some (l, m) -> (length m <= length mem)%nat.
Proof.
  induction n as [|n IH]; intros mem l m E; cbn in E; [by injection E as _ <-|].
  destruct mem as [|x mem]; [done|]. destruct (x =? c); [by injection E as _ <-|].
  destruct (copy_until n c mem) as [[l1 m1]|] eqn:E1; [|done]. cbn in E. injection E as _ <-.
  apply IH in E1. cbn [length]. lia.
Qed.

(** The bytes up to the separator, when it comes soon enough. *)
Lemma copy_until_stop c l : forall n rest, Forall (fun x => x <> c) l -> (length l < n)%nat ->
  copy_until n c (l ++ c :: rest) = Some (l, c :: rest).
Proof.
  induction l as [|x l IH]; intros [|n] rest Hl Hn; cbn [length] in Hn; try lia; cbn [copy_until app].
  - by rewrite Z.eqb_refl.
  - apply Forall_cons_iff in Hl as [Hx Hl]. destruct (Z.eqb_spec x c); [done|].
    rewrite IH by (done || lia). done.
Qed.

(** Without a separator the loop leaves the object. *)
Lemma copy_until_overread c mem : forall n, Forall (fun x => x <> c) mem -> (length mem < n)%nat ->
  copy_until n c mem = None.
Proof.
  induction mem as [|x mem IH]; intros [|n] Hl Hn; cbn [length] in Hn; try lia; [done|]. cbn [copy_until].
  apply Forall_cons_iff in Hl as [Hx Hl]. destruct (Z.eqb_spec x c); [done|].
  rewrite IH by (done || lia). done.
Qed.

Lemma kv_loop_some cl ce fuel : forall mem om, (length mem < fuel)%nat -> is_Some (kv_loop fuel cl ce mem om).
Proof.
  induction fuel as [|fuel IH]; intros mem om Hf; [lia|]. cbn [kv_loop].
  destruct mem as [|x mem]; [done|]. destruct (x =? 0); [done|].
  destruct (copy_until 126 cl (x :: mem)) as [[k m]|] eqn:Ek; [|done].
  destruct (copy_until 1022 ce (tail m)) as [[v m2]|] eqn:Ev; [|done].
  apply IH. apply copy_until_shorter in Ek, Ev. cbn [length] in *.
  destruct m as [|y m]; cbn [tail length] in *; destruct m2 as [|z m2]; cbn [tail length] in *; lia.
Qed.

(** A key and a value the buffers can hold, without NULs or separators. *)
Definition pair_ok (cl ce : Z) (kv : list Z * list Z) : Prop :=
  Forall (fun x => x <> 0 /\ x <> cl) (fst kv) /\ Forall (fun x => x <> 0 /\ x <> ce) (snd kv) /\
  (length (fst kv) < 126)%nat /\ (length (snd kv) < 1022)%nat.

(** "k=v&" for each pair. *)
Definition render (cl ce : Z) (kvs : list (list Z * list Z)) : list Z :=
  concat (map (fun '(k, v) => k ++ cl :: v ++ [ce]) kvs).

Definition put_pair (om : strmap) (kv : list Z * list Z) : strmap := <[fst kv := snd kv]> om.

Lemma c_str_clean c l : Forall (fun x => x <> 0 /\ x <> c) l -> c_str l = l.
Proof.
  induction 1 as [|x l [Hx _] _ IH]; [done|]. cbn. destruct (Z.eqb_spec x 0); [done|]. by rewrite IH.
Qed.

(** One turn of the loop on a pair. *)
Lemma kv_turn cl ce fuel k v rest om : cl <> 0 -> pair_ok cl ce (k, v) ->
  kv_loop (S fuel) cl ce (k ++ cl :: v ++ ce :: rest) om = kv_loop fuel cl ce rest (put_pair om (k, v)).
Proof.
  intros Hcl (Hk & Hv & Lk & Lv). cbn [fst snd] in *. cbn [kv_loop].
  assert (H0 : exists x m, k ++ cl :: v ++ ce :: rest = x :: m /\ x <> 0).
  { destruct k as [|x k]; [by exists cl, (v ++ ce :: rest)|].
    apply Forall_cons_iff in Hk as [[Hx _] _]. by exists x, (k ++ cl :: v ++ ce :: rest). }
  destruct H0 as (x & m & E & Hx). rewrite E at 1. destruct (Z.eqb_spec x 0); [done|].
  rewrite copy_until_stop; [|by eapply List.Forall_impl, Hk; intros ? []|done]. cbn [tail].
  rewrite copy_until_stop; [|by eapply List.Forall_impl, Hv; intros ? []|done]. cbn [tail].
  by rewrite (c_str_clean cl k), (c_str_clean ce v).
Qed.

Lemma length_pair_render cl ce (k v : list Z) : length (k ++ cl :: v ++ [ce]) = (length k + length v + 2)%nat.
Proof. rewrite length_app. cbn [length]. rewrite length_app. cbn. lia. Qed.

Lemma kv_render cl ce kvs : forall fuel rest om, cl <> 0 -> Forall (pair_ok cl ce) kvs -> (length kvs <= fuel)%nat ->
  kv_loop fuel cl ce (render cl ce kvs ++ rest) om =
  kv_loop (fuel - length kvs) cl ce rest (fold_left put_pair kvs om).
Proof.
  induction kvs as [|[k v] kvs IH]; intros fuel rest om Hcl Hp Hf; cbn [length fold_left].
  { by rewrite Nat.sub_0_r. }
  apply Forall_cons_iff in Hp as [Hkv Hp]. cbn [length] in Hf. destruct fuel as [|fuel]; [lia|].
  unfold render. cbn [map concat]. rewrite <- !app_assoc. cbn [app]. rewrite <- !app_assoc. cbn [app].
  rewrite kv_turn by done. by apply IH; [| |lia].
Qed.

Lemma render_length cl ce kvs : (length kvs <= length (render cl ce kvs))%nat.
Proof.
  induction kvs as [|[k v] kvs IH]; [done|]. unfold render in *. cbn [map concat length].
  rewrite length_app, length_pair_render. lia.
Qed.

(** A string of pairs is read back into the map it stands for, a later value
    of a key over an earlier one, if every pair ends with its separator; if the
    last one does not, as in any query "a=1&b=2", the parser runs over the NUL
    and reads outside the object when it ends there.  Either way it ends. *)
Lemma kv_paser_pairs cl ce kvs k v om
    (Hcl : cl <> 0) (Hce : ce <> 0) (Hp : Forall (pair_ok cl ce) kvs) (Hl : pair_ok cl ce (k, v))
    (Hs : (length v < 1021)%nat) :
  (forall junk, kv_paser (render cl ce kvs ++ 0 :: junk) cl ce om = Some (Parsed (fold_left put_pair kvs om))) /\
  kv_paser (render cl ce kvs ++ k ++ cl :: v ++ [0]) cl ce om = Some Overread /\
  (forall mem, is_Some (kv_paser mem cl ce om)).
Proof.
  split; [|split].
  - intros junk. unfold kv_paser. pose proof (render_length cl ce kvs) as L.
    rewrite kv_render by (done || (rewrite length_app; lia)). rewrite length_app.
    match goal with |- kv_loop (?a - _)%nat _ _ _ _ = _ =>
      replace (a - length kvs)%nat with (S (pred a - length kvs)) by lia end.
    done.
  - unfold kv_paser. pose proof (render_length cl ce kvs) as L.
    rewrite kv_render by (done || (rewrite length_app; lia)). rewrite length_app.
    match goal with |- kv_loop (?a - _)%nat _ _ _ _ = _ =>
      replace (a - length kvs)%nat with (S (pred a - length kvs)) by lia end.
    destruct Hl as (Hk & Hv & Lk & Lv). cbn [fst snd] in *. cbn [kv_loop].
    assert (H0 : exists x m, k ++ cl :: v ++ [0] = x :: m /\ x <> 0).
    { destruct k as [|x k]; [by exists cl, (v ++ [0])|].
      apply Forall_cons_iff in Hk as [[Hx _] _]. by exists x, (k ++ cl :: v ++ [0]). }
    destruct H0 as (x & m & E & Hx). rewrite E at 1. destruct (Z.eqb_spec x 0); [done|].
    rewrite copy_until_stop; [|by eapply List.Forall_impl, Hk; intros ? []|done]. cbn [tail].
    rewrite copy_until_overread; [done| |rewrite length_app; cbn; lia].
    apply Forall_app. split; [by eapply List.Forall_impl, Hv; intros ? []|]. by repeat constructor.
  - intros mem. unfold kv_paser. apply kv_loop_some. lia.
Qed.

Ltac w_pair := repeat first [discriminate | split | constructor].

Lemma kv_paser_pairs_witness :
  kv_paser [97; 61; 49; 38; 98; 61; 50; 38; 0; 7] c_eq c_amp ∅ =
    Some (Parsed (<[[98] := [50]]> (<[[97] := [49]]> ∅))) /\
  kv_paser [97; 61; 49; 38; 98; 61; 50; 0] c_eq c_amp ∅ = Some Overread.
Proof.
  assert (P : Forall (pair_ok c_eq c_amp) [([97], [49])]).
  { constructor; [|constructor]. w_pair. }
  assert (P2 : Forall (pair_ok c_eq c_amp) [([97], [49]); ([98], [50])]).
  { constructor; [by apply Forall_cons_iff in P as [P _]|]. constructor; [|constructor].
    w_pair. }
  assert (L : pair_ok c_eq c_amp ([98], [50])) by w_pair.
  split.
  - exact (proj1 (kv_paser_pairs c_eq c_amp _ [98] [50] ∅ ltac:(done) ltac:(done) P2 L ltac:(cbn; lia)) [7]).
  - exact (proj1 (proj2 (kv_paser_pairs c_eq c_amp _ [98] [50] ∅ ltac:(done) ltac:(done) P L ltac:(cbn; lia)))).
Defined.
