(* ===== verification/Websocket.v ===== *)
(** * Websocket: the frames of core/websocket.hpp

    [encodeFrame] and [decodeFrame] on byte strings.  Both build a C string in a
    buffer and assign it to a [std::string], which stops at the first NUL. *)

From S2P Require Import Prelude Hash.

Definition WS_OPENING_FRAME : Z := 0xF3.
Definition WS_ERROR_FRAME : Z := 0xF1.
Definition WS_TEXT_FRAME : Z := 0x01.
Definition WS_BINARY_FRAME : Z := 0x02.
Definition WS_PING_FRAME : Z := 0x09.
Definition WS_PONG_FRAME : Z := 0x0A.
Definition WS_CLOSING_FRAME : Z := 0x08.
Definition WS_EMPTY_FRAME : Z := 0xF0.

(** [ntohs], [htons] on the little-endian targets, and a [uint16_t] in memory. *)
Definition swap16 (v : Z) : Z := Z.lor (Z.shiftl (Z.land v 0xff) 8) (Z.shiftr (u16 v) 8).
Definition le16 (v : Z) : list Z := [Z.land v 0xff; Z.land (Z.shiftr v 8) 0xff].
Definition of_le16 (a b : Z) : Z := Z.lor a (Z.shiftl b 8).

(** The payload length the header gives and the bytes it takes; [None]: an
    opcode or a length that makes the frame an error. *)
Definition payload_length (frameData : list Z) : Z * nat * bool :=
  let payloadLength := Z.land (getn frameData 1) 0x7f in
  if payloadLength =? 0x7e then
    (swap16 (of_le16 (getn frameData 2) (getn frameData 3)), 2%nat, true)
  else if payloadLength =? 0x7f then (payloadLength, 0%nat, false)
  else (payloadLength, 0%nat, true).

(** The value and [outMessage].  The frame's length is not looked at again: bytes
    past it read as 0 here. *)
Definition decodeFrame (inFrame outMessage : list Z) : Z * list Z :=
  let frameData := inFrame in
  let ret := if (length inFrame <? 2)%nat then WS_ERROR_FRAME else WS_OPENING_FRAME in
  let ret := if negb (Z.land (getn frameData 0) 0x70 =? 0) then WS_ERROR_FRAME else ret in
  let ret := Z.land (getn frameData 0) 0x80 in
  let ret := if negb (Z.land (getn frameData 0) 0x80 =? 0x80) then WS_ERROR_FRAME else ret in
  let ret := if negb (Z.land (getn frameData 1) 0x80 =? 0x80) then WS_ERROR_FRAME else ret in
  let opcode := Z.land (getn frameData 0) 0x0f in
  let '(payloadLength, payloadFieldExtraBytes, ret) :=
    if opcode =? WS_TEXT_FRAME then
      let '(n, extra, ok) := payload_length frameData in
      (n, extra, if ok : bool then ret else WS_ERROR_FRAME)
    else if (opcode =? WS_BINARY_FRAME) || (opcode =? WS_PING_FRAME) || (opcode =? WS_PONG_FRAME) then (0, 0%nat, ret)
    else if opcode =? WS_CLOSING_FRAME then (0, 0%nat, WS_CLOSING_FRAME)
    else (0, 0%nat, WS_ERROR_FRAME) in
  if negb (ret =? WS_ERROR_FRAME) && (0 <? payloadLength) then
    let maskingKey := drop (2 + payloadFieldExtraBytes) frameData in
    let payloadData := map (getn frameData) (seq (2 + payloadFieldExtraBytes + 4) (Z.to_nat payloadLength)) in
    let payloadData := imap (fun i b => Z.lxor b (getn maskingKey (i mod 4))) payloadData in
    (ret, c_str payloadData)
  else (ret, outMessage).

(** [memcpy] of [n] bytes of [inMessage] behind the header; the result is cut at
    the first NUL of the whole frame. *)
Definition encodeFrame (inMessage outFrame : list Z) (frameType : Z) : Z * list Z :=
  let messageLength := Z.of_nat (length inMessage) in
  if 32767 <? messageLength then (WS_ERROR_FRAME, outFrame)
  else
    let b0 := u8 (Z.lor 0x80 frameType) in
    let frameHeader :=
      if messageLength <=? 0x7d then [b0; u8 messageLength]
      else b0 :: 0x7e :: le16 (swap16 messageLength) in
    (WS_EMPTY_FRAME, c_str (frameHeader ++ inMessage)).

(** [wsSend]: what is sent. *)
Definition wsSend (data : list Z) : list Z := snd (encodeFrame data [] WS_TEXT_FRAME).

(** [boardcast]: [sends fd data] is what [send] returns; a descriptor whose send
    fails is closed and leaves the list. *)
Definition boardcast (sends : Z -> list Z -> Z) (fds : list Z) (data : list Z) : list Z * list Z :=
  (filter (fun fd => sends fd (wsSend data) ≠ -1) fds,
   filter (fun fd => sends fd (wsSend data) = -1) fds).
Definition add (fds : list Z) (fd : Z) : list Z := fds ++ [fd].

(** ** Frames of a client *)

(** A text frame as RFC 6455 has a client send it. *)
Definition client_frame (key msg : list Z) : list Z :=
  let n := Z.of_nat (length msg) in
  0x81 :: (if n <=? 125 then [0x80 + n] else [0x80 + 126; n / 256; n mod 256]) ++
  key ++ imap (fun i b => Z.lxor b (getn key (i mod 4))) msg.

Definition non_nul (l : list Z) : Prop := Forall (fun b => b <> 0) l.

Lemma c_str_non_nul l : non_nul l -> c_str l = l.
Proof. induction 1 as [|b l Hb _ IH]; [done|]. cbn. destruct (Z.eqb_spec b 0); [done|]. by rewrite IH. Qed.

Lemma swap16_be hi lo : byte_ok hi -> byte_ok lo -> swap16 (of_le16 hi lo) = hi * 256 + lo.
Proof.
  intros Hh Hl. unfold swap16, of_le16. unfold byte_ok in *.
  assert (E : Z.lor hi (Z.shiftl lo 8) = lo * 2 ^ 8 + hi) by (rewrite Z.lor_comm; apply lor_shiftl_add; lia).
  rewrite E, u16_id by (change (2 ^ 16) with 65536; lia).
  change 0xff with (2 ^ 8 - 1). rewrite land_ones_mod, Z.shiftr_div_pow2 by lia.
  change (2 ^ 8) with 256 in *. replace ((lo * 256 + hi) mod 256) with hi by (apply Z.mod_unique with lo; lia).
  replace ((lo * 256 + hi) / 256) with lo by (apply Z.div_unique with hi; lia).
  rewrite lor_shiftl_add by (change (2 ^ 8) with 256; lia). done.
Qed.

Lemma map_getn_slice pre l : map (getn (pre ++ l)) (seq (length pre) (length l)) = l.
Proof.
  apply nth_ext with (d := 0) (d' := 0); [by rewrite length_map, length_seq|].
  intros i Hi. rewrite length_map, length_seq in Hi.
  rewrite nth_indep with (d' := getn (pre ++ l) 0) by (by rewrite length_map, length_seq).
  rewrite map_nth, seq_nth by done. unfold getn. rewrite app_nth2 by lia. f_equal. lia.
Qed.

(** Masking twice is nothing. *)
Lemma unmask key msg :
  imap (fun i b => Z.lxor b (getn key (i mod 4))) (imap (fun i b => Z.lxor b (getn key (i mod 4))) msg) = msg.
Proof.
  apply list_eq. intros i. rewrite !list_lookup_imap. destruct (msg !! i) as [b|]; cbn; [|done].
  by rewrite lxor_cancel_r.
Qed.

(** The header of a client's frame: its length field, and where the key starts. *)
Lemma client_header n rest : 0 <= n <= 65535 ->
  let hd := 0x81 :: (if n <=? 125 then [0x80 + n] else [0x80 + 126; n / 256; n mod 256]) in
  let extra := if n <=? 125 then 0%nat else 2%nat in
  length hd = (2 + extra)%nat /\ getn (hd ++ rest) 0 = 0x81 /\
  Z.land (getn (hd ++ rest) 1) 0x80 = 0x80 /\ payload_length (hd ++ rest) = (n, extra, true).
Proof.
  intros Hn. destruct (Z.leb_spec n 125).
  - assert (F : all_below 126 (fun n => (Z.land (0x80 + n) 0x80 =? 0x80) && (Z.land (0x80 + n) 0x7f =? n)) = true)
      by (vm_compute; reflexivity).
    pose proof (all_below_spec _ _ F n ltac:(lia)) as E. apply andb_true_iff in E as [E1%Z.eqb_eq E2%Z.eqb_eq].
    unfold payload_length, getn. cbn [app nth]. rewrite E1, E2.
    destruct (Z.eqb_spec n 0x7e); [lia|]. destruct (Z.eqb_spec n 0x7f); [lia|]. done.
  - split; [done|]. split; [done|]. split; [done|]. unfold payload_length, getn. cbn [app nth].
    change (Z.land (0x80 + 126) 0x7f =? 0x7e) with true. cbv iota.
    rewrite swap16_be; unfold byte_ok; try (split; [apply Z.div_pos|apply Z.div_lt_upper_bound]; lia).
    + do 2 f_equal. pose proof (Z.div_mod n 256). lia.
    + apply Z.mod_pos_bound. lia.
Qed.

(** A masked text frame as a client sends it is decoded to its message, up to
    65535 bytes and whatever follows the frame: the mask is taken off, and the
    message ends at its first NUL; an empty message leaves the output as it was. *)
Lemma decode_client_frame key msg rest out
    (Hk : length key = 4%nat) (Hm : Z.of_nat (length msg) <= 65535) :
  decodeFrame (client_frame key msg ++ rest) out =
  (0x80, match msg with [] => out | _ => c_str msg end).
Proof.
  unfold client_frame. set (n := Z.of_nat (length msg)) in *.
  set (masked := imap _ msg).
  assert (Lm : length masked = length msg) by apply length_imap.
  destruct (client_header n (key ++ masked ++ rest) ltac:(lia)) as (Lh & H0 & H1 & Hp).
  set (hd := 0x81 :: _) in *. set (extra := if n <=? 125 then 0%nat else 2%nat) in *.
  assert (E : (0x81 :: (if n <=? 125 then [0x80 + n] else [0x80 + 126; n / 256; n mod 256]) ++ key ++ masked) ++ rest
    = hd ++ key ++ masked ++ rest) by (unfold hd; cbn [app]; by rewrite <- !app_assoc).
  rewrite E. unfold decodeFrame. rewrite H0, H1, Hp. cbv zeta.
  change (Z.land 0x81 0x0f =? WS_TEXT_FRAME) with true. change (Z.land 0x81 0x80) with 0x80.
  change (negb (0x80 =? 0x80)) with false. cbv iota. change (0x80 =? WS_ERROR_FRAME) with false. cbn [negb andb].
  destruct (Z.ltb_spec 0 n) as [Hn|Hn].
  - assert (D : drop (2 + extra) (hd ++ key ++ masked ++ rest) = key ++ masked ++ rest)
      by (rewrite <- Lh; apply drop_app_length).
    assert (M : map (getn (hd ++ key ++ masked ++ rest)) (seq (2 + extra + 4) (Z.to_nat n)) = masked).
    { unfold n. rewrite Nat2Z.id, <- Lm, <- Lh. rewrite <- Hk, <- length_app.
      replace (hd ++ key ++ masked ++ rest) with ((hd ++ key) ++ masked ++ rest) by by rewrite <- app_assoc.
      rewrite <- (map_getn_slice (hd ++ key) masked) at 3. apply map_ext_in. intros i Hi. apply in_seq in Hi.
      unfold getn. rewrite app_assoc, app_nth1; [done|]. rewrite length_app. lia. }
    rewrite D, M. f_equal.
    assert (K : imap (fun i b => Z.lxor b (getn (key ++ masked ++ rest) (i mod 4))) masked = msg).
    { rewrite <- (unmask key msg). fold masked. apply imap_ext. intros i b _. f_equal. unfold getn.
      apply app_nth1. rewrite Hk. apply Nat.mod_upper_bound. lia. }
    rewrite K. destruct msg; [by unfold n in Hn|done].
  - destruct msg; [done|]. unfold n in Hn. cbn [length] in Hn. lia.
Qed.

Lemma decode_client_frame_witness :
  decodeFrame (client_frame [1; 2; 3; 4] [104; 105; 33; 5; 0; 9] ++ [7]) [] = (0x80, [104; 105; 33; 5]).
Proof. exact (decode_client_frame [1; 2; 3; 4] [104; 105; 33; 5; 0; 9] [7] [] eq_refl ltac:(vm_compute; discriminate)). Defined.

(** What the server sends for a text without NULs, on every branch: the frame
    up to its first NUL.  Up to 125 bytes, the frame is whole (but for an empty
    message); from 126 to 255 bytes, the high byte of the length ends it after
    two bytes and nothing of the message is sent; from there to 32767, the frame
    is whole unless its length is a multiple of 256, and then three bytes are
    sent; a longer message is an error and nothing is assigned. *)
Lemma encode_frame_branches msg out (Hm : non_nul msg) :
  let n := Z.of_nat (length msg) in
  encodeFrame msg out WS_TEXT_FRAME =
  if n =? 0 then (WS_EMPTY_FRAME, [0x81])
  else if n <=? 125 then (WS_EMPTY_FRAME, 0x81 :: n :: msg)
  else if n <=? 255 then (WS_EMPTY_FRAME, [0x81; 0x7e])
  else if n <=? 32767 then
    (WS_EMPTY_FRAME, if n mod 256 =? 0 then [0x81; 0x7e; n / 256]
                     else 0x81 :: 0x7e :: n / 256 :: n mod 256 :: msg)
  else (WS_ERROR_FRAME, out).
Proof.
  cbv zeta. unfold encodeFrame. set (n := Z.of_nat (length msg)). cbv zeta.
  change (u8 (Z.lor 0x80 WS_TEXT_FRAME)) with 0x81.
  destruct (Z.ltb_spec 32767 n) as [L|L].
  { destruct (Z.eqb_spec n 0); [lia|]. destruct (Z.leb_spec n 125); [lia|].
    destruct (Z.leb_spec n 255); [lia|]. by destruct (Z.leb_spec n 32767); [lia|]. }
  assert (n <= 125 \/ 125 < n) as [S|S] by lia.
  - destruct (Z.leb_spec n 0x7d); [|lia]. destruct (Z.leb_spec n 125); [|lia]. rewrite u8_id by (unfold byte_ok; lia).
    f_equal. cbn [app c_str]. change (0x81 =? 0) with false. cbv iota.
    destruct (Z.eqb_spec n 0); [done|]. by rewrite c_str_non_nul.
  - destruct (Z.leb_spec n 0x7d); [lia|]. destruct (Z.eqb_spec n 0); [lia|]. destruct (Z.leb_spec n 125); [lia|].
    assert (H1 : 0 <= n / 256 < 128) by (split; [apply Z.div_pos|apply Z.div_lt_upper_bound]; lia).
    pose proof (Z.mod_pos_bound n 256 ltac:(lia)) as H2. pose proof (Z.div_mod n 256 ltac:(lia)) as H3.
    assert (E : le16 (swap16 n) = [n / 256; n mod 256]).
    { unfold le16, swap16. rewrite u16_id by (change (2 ^ 16) with 65536; lia).
      change 0xff with (2 ^ 8 - 1). rewrite !land_ones_mod, !Z.shiftr_div_pow2 by lia.
      change (2 ^ 8) with 256. rewrite lor_shiftl_add by (change (2 ^ 8) with 256; lia). change (2 ^ 8) with 256.
      f_equal; [symmetry; apply Z.mod_unique with (n mod 256); lia|]. f_equal.
      replace ((n mod 256 * 256 + n / 256) / 256) with (n mod 256) by (apply Z.div_unique with (n / 256); lia).
      apply Z.mod_small. lia. }
    rewrite E. cbn [app c_str]. change (0x81 =? 0) with false. change (0x7e =? 0) with false. cbv iota.
    destruct (Z.leb_spec n 255), (Z.eqb_spec (n / 256) 0); try lia; [done|].
    destruct (Z.leb_spec n 32767); [|lia]. destruct (Z.eqb_spec (n mod 256) 0); [done|]. by rewrite c_str_non_nul.
Qed.

Lemma encode_frame_branches_witness :
  encodeFrame (replicate 200 65) [] WS_TEXT_FRAME = (WS_EMPTY_FRAME, [0x81; 0x7e]).
Proof.
  assert (N : non_nul (replicate 200 65)) by (apply Forall_replicate; discriminate).
  exact (encode_frame_branches (replicate 200 65) [] N).
Defined.
