(* ===== verification/HttpIo.v ===== *)
(** * HttpIo: how core/httpd.hpp talks to a connection

    A handler of the HTTP server reads the bytes of its connection, sends bytes,
    opens files and starts programs, and counts itself in [thread_number].  It is
    a computation in the monad [io]: it passes on what is left of the input, what
    it has done so far and the counter, and it may end in a [fault] where the
    code writes outside an array, or where the call of a FastCGI server does not
    return. *)

From stdpp Require Import gmap.
From S2P Require Import Prelude Hash Func.
#[local] Open Scope Z_scope.

(** ** The monad *)

Inductive fault := OutOfFuel | OutOfBounds | Hangs.

Inductive event :=
  | Send (l : list Z)
  | Open (path : list Z)
  | ExecLua (path method query : list Z)
  | ExecCgi (path : list Z) (env : list (list Z)) (body : list Z)
  | FastCgi (path method query : list Z)
  | RunLua (script : list Z) (globals : list (list Z * gmap (list Z) (list Z)))
  | WsAdd
  | Close.

(** The input lasts until the peer closes: after it every [recv] gives 0. *)
Record conn := mk_conn { c_in : list Z; c_out : list event; thread_number : Z }.

Definition io (A : Type) : Type := conn -> (fault + A) * conn.

Definition ret {A} (a : A) : io A := fun s => (inr a, s).
Definition bind {A B} (m : io A) (f : A -> io B) : io B :=
  fun s => match m s with
           | (inl e, s) => (inl e, s)
           | (inr a, s) => f a s
           end.
Definition fail {A} (e : fault) : io A := fun s => (inl e, s).

Declare Scope io_scope.
Delimit Scope io_scope with io.
Notation "'let!' x := m 'in' k" := (bind m (fun x => k))
  (at level 200, x pattern, m at level 100, k at level 200) : io_scope.
Notation "m ;;; k" := (bind m (fun _ => k)) (at level 100, k at level 200, right associativity) : io_scope.
#[global] Open Scope io_scope.

Definition emit (e : event) : io unit :=
  fun s => (inr tt, mk_conn (c_in s) (c_out s ++ [e]) (thread_number s)).
Definition emits (es : list event) : io unit :=
  fun s => (inr tt, mk_conn (c_in s) (c_out s ++ es) (thread_number s)).
Definition send (l : list Z) : io unit := emit (Send l).
Definition close : io unit := emit Close.
Definition add_threads (d : Z) : io unit :=
  fun s => (inr tt, mk_conn (c_in s) (c_out s) (thread_number s + d)).
Definition threads : io Z := fun s => (inr (thread_number s), s).
(** A step that only consumes input. *)
Definition reading {A} (f : list Z -> A * list Z) : io A :=
  fun s => let '(a, r) := f (c_in s) in (inr a, mk_conn r (c_out s) (thread_number s)).

(** ** Invariants of a computation *)

(** How often a list of events gives the connection away: closed, or kept with
    the open websockets. *)
Fixpoint ends (es : list event) : nat :=
  match es with
  | [] => 0
  | (Close | WsAdd) :: es => S (ends es)
  | _ :: es => ends es
  end.

Lemma ends_app es es' : ends (es ++ es') = (ends es + ends es')%nat.
Proof. induction es as [|[] es IH]; cbn [app ends]; lia. Qed.

(** What a computation may add to the output, and what it does to the counter.
    [quiet P d c m]: whatever happens, all events of [m] satisfy [P], and if [m]
    returns the counter has changed by [d] and the connection been given away
    [c] times; only a write outside an array can stop it, or the call of a FastCGI
    server, which is then the last event. *)
Definition stopped (e : fault) (es : list event) : Prop :=
  e = OutOfBounds \/ e = Hangs /\ exists es' path method query, es = es' ++ [FastCgi path method query].
Definition quiet {A} (P : event -> Prop) (d : Z) (c : nat) (m : io A) : Prop :=
  forall s, exists es, Forall P es /\ c_out (snd (m s)) = c_out s ++ es /\
    match fst (m s) with
    | inr _ => thread_number (snd (m s)) = thread_number s + d /\ ends es = c
    | inl e => stopped e es
    end.

Section Quiet.
Context {A B : Type} (P : event -> Prop).

Lemma quiet_ret (a : A) : quiet P 0 0 (ret a).
Proof. intros s. exists []. cbn. rewrite app_nil_r. repeat split; [constructor|lia]. Qed.

Lemma quiet_overflow d c : quiet P d c (@fail A OutOfBounds).
Proof. intros s. exists []. cbn. rewrite app_nil_r. split; [constructor|]. split; [done|]. by left. Qed.

Lemma stopped_app e es es' : stopped e es' -> stopped e (es ++ es').
Proof.
  intros [He|(He & l & p & m & q & ->)]; [by left|right]. split; [done|]. exists (es ++ l), p, m, q. by rewrite app_assoc.
Qed.

Lemma quiet_bind (m : io A) (f : A -> io B) d d' c c' :
  quiet P d c m -> (forall a, quiet P d' c' (f a)) -> quiet P (d + d') (c + c') (bind m f).
Proof.
  intros Hm Hf s. unfold bind. destruct (Hm s) as (es & He & Ho & Ht).
  destruct (m s) as [[e|a] s'] eqn:E; cbn [fst snd] in *; [by exists es|].
  destruct (Hf a s') as (es' & He' & Ho' & Ht'). exists (es ++ es'). split; [by apply Forall_app|].
  split; [by rewrite Ho', Ho, app_assoc|]. destruct (fst (f a s')); [by apply stopped_app|]. rewrite ends_app. lia.
Qed.

Lemma quiet_bind0 (m : io A) (f : A -> io B) d c :
  quiet P 0 0 m -> (forall a, quiet P d c (f a)) -> quiet P d c (bind m f).
Proof. apply quiet_bind. Qed.

(** The same, when the second part relies on what the first one returns. *)
Lemma quiet_bind_ret (R : A -> Prop) (m : io A) (f : A -> io B) d c :
  quiet P 0 0 m -> (forall s a s', m s = (inr a, s') -> R a) ->
  (forall a, R a -> quiet P d c (f a)) -> quiet P d c (bind m f).
Proof.
  intros Hm HR Hf s. unfold bind. destruct (Hm s) as (es & He & Ho & Ht).
  destruct (m s) as [[e|a] s'] eqn:E; cbn [fst snd] in *; [by exists es|].
  destruct (Hf a (HR _ _ _ E) s') as (es' & He' & Ho' & Ht'). exists (es ++ es').
  split; [by apply Forall_app|]. split; [by rewrite Ho', Ho, app_assoc|].
  destruct (fst (f a s')); [by apply stopped_app|]. rewrite ends_app. lia.
Qed.

Lemma quiet_emits es : Forall P es -> quiet P 0 (ends es) (emits es).
Proof. intros H s. exists es. cbn. repeat split; [done|lia]. Qed.

Lemma quiet_emit e : P e -> quiet P 0 (ends [e]) (emit e).
Proof. intros H. apply (quiet_emits [e]). by constructor. Qed.

Lemma quiet_send l : P (Send l) -> quiet P 0 0 (send l).
Proof. apply quiet_emit. Qed.

Lemma quiet_sends ls : (forall l, P (Send l)) -> quiet P 0 0 (emits (map Send ls)).
Proof.
  intros H s. exists (map Send ls). cbn. split; [by apply Forall_map, Forall_true|]. split; [done|].
  split; [lia|]. induction ls; auto.
Qed.

Lemma quiet_close : P Close -> quiet P 0 1 close.
Proof. apply quiet_emit. Qed.

Lemma quiet_add d : quiet P d 0 (add_threads d).
Proof. intros s. exists []. cbn. rewrite app_nil_r. repeat split. constructor. Qed.

Lemma quiet_threads : quiet P 0 0 threads.
Proof. intros s. exists []. cbn. rewrite app_nil_r. repeat split; [constructor|lia]. Qed.

Lemma quiet_reading (f : list Z -> A * list Z) : quiet P 0 0 (reading f).
Proof.
  intros s. exists []. unfold reading. destruct (f (c_in s)). cbn. rewrite app_nil_r.
  repeat split; [constructor|lia].
Qed.
End Quiet.

Create HintDb quiet.
#[export] Hint Resolve quiet_ret quiet_overflow quiet_threads quiet_reading : quiet.

(** ** Lines *)

(** The bytes [get_line] stores for a buffer of [S n] bytes: a carriage return,
    with a line feed behind it or not, ends a line like a line feed. *)
Fixpoint read_line (n : nat) (input : list Z) : list Z * list Z :=
  match n, input with
  | O, _ => ([], input)
  | S _, [] => ([], [])
  | S n, c :: rest =>
      if c =? 13 then
        match rest with
        | d :: rest' => if d =? 10 then ([10], rest') else ([10], rest)
        | [] => ([10], [])
        end
      else if c =? 10 then ([10], rest)
      else let '(l, r) := read_line n rest in (c :: l, r)
  end.

(** A string written to a buffer, with its NUL; the rest keeps what it held. *)
Definition strcpy_to (buf l : list Z) : list Z := l ++ 0 :: drop (S (length l)) buf.

(** [get_line(sock, buf, size)]: the count, and [buf] afterwards. *)
Definition get_line (size : nat) (buf : list Z) : io (Z * list Z) :=
  reading (fun input =>
    let '(l, rest) := read_line (size - 1) input in ((Z.of_nat (length l), strcpy_to buf l), rest)).

(** [while ((numchars > 0) && strcmp("\n", buf)) { body; numchars = get_line(fd, buf, size); }] *)
Section HeaderLoop.
Context {T : Type}.
Fixpoint header_loop (fuel : nat) (body : list Z -> T -> T) (numchars : Z) (buf : list Z) (t : T)
    (input : list Z) : option (T * list Z) :=
  match fuel with
  | O => None
  | S fuel =>
      if (0 <? numchars) && negb (bool_decide (c_str buf = [10])) then
        let t := body buf t in
        let '(l, rest) := read_line (length buf - 1) input in
        header_loop fuel body (Z.of_nat (length l)) (strcpy_to buf l) t rest
      else Some (t, input)
  end.

(** Every turn after the first follows a line that was not empty: with one turn
    for every byte of the input, and two more, the loop ends. *)
Definition read_headers (body : list Z -> T -> T) (numchars : Z) (buf : list Z) (t : T) : io T :=
  fun s => match header_loop (S (S (length (c_in s)))) body numchars buf t (c_in s) with
           | Some (t, rest) => (inr t, mk_conn rest (c_out s) (thread_number s))
           | None => (inl OutOfFuel, s)
           end.

Lemma read_line_length n : forall input l r, read_line n input = (l, r) ->
  (length l + length r <= length input)%nat.
Proof.
  induction n as [|n IH]; intros [|c input] l r E; cbn [read_line] in E; try (injection E as <- <-; cbn; lia).
  destruct (c =? 13).
  { destruct input as [|d input]; [injection E as <- <-; cbn; lia|].
    destruct (d =? 10); injection E as <- <-; cbn; lia. }
  destruct (c =? 10); [injection E as <- <-; cbn; lia|].
  destruct (read_line n input) as [l1 r1] eqn:E1. injection E as <- <-. apply IH in E1. cbn. lia.
Qed.

Lemma header_loop_ends body fuel : forall numchars buf t input,
  (length input + (if (0 <? numchars)%Z then 1 else 0) < fuel)%nat ->
  is_Some (header_loop fuel body numchars buf t input).
Proof.
  induction fuel as [|fuel IH]; intros numchars buf t input Hf; [lia|]. cbn [header_loop].
  destruct (Z.ltb_spec 0 numchars) as [Hn|Hn]; cbn [andb]; [|done].
  destruct (negb _); [|done]. destruct (read_line _ input) as [l r] eqn:E. apply IH.
  apply read_line_length in E. destruct (Z.ltb_spec 0 (Z.of_nat (length l))); lia.
Qed.

Lemma quiet_headers P body numchars buf t : quiet P 0 0 (read_headers body numchars buf t).
Proof.
  intros s. exists []. unfold read_headers.
  destruct (header_loop_ends body (S (S (length (c_in s)))) numchars buf t (c_in s)) as [[t' r] ->].
  { destruct (0 <? numchars); lia. }
  cbn. rewrite app_nil_r. repeat split; [constructor|lia].
Qed.
End HeaderLoop.
#[export] Hint Resolve quiet_headers : quiet.

(** ** Numbers in texts *)

(** [atoi]: what [strtol] gives, clamped to 64 bits, as an [int]. *)
Fixpoint scan_dec (s : list Z) (acc : Z) : Z :=
  match s with
  | c :: s => if (48 <=? c) && (c <=? 57) then scan_dec s (acc * 10 + (c - 48)) else acc
  | [] => acc
  end.
Definition atoi (s : list Z) : Z :=
  let s := skip_space (c_str s) in
  let '(neg, s) := match s with 45 :: s' => (true, s') | 43 :: s' => (false, s') | _ => (false, s) end in
  let v := scan_dec s 0 in
  s32 (Z.max (- 2 ^ 63) (Z.min (2 ^ 63 - 1) (if neg : bool then - v else v))).

(** [strcasecmp(a, b) == 0] in the C locale. *)
Definition tolower (c : Z) : Z := if (65 <=? c) && (c <=? 90) then c + 32 else c.
Definition same_nocase (a b : list Z) : bool :=
  bool_decide (map tolower (c_str a) = map tolower (c_str b)).

(** [strrchr(s, c) + 1]: what follows the last [c] of a string. *)
Fixpoint after_last (c : Z) (s : list Z) : option (list Z) :=
  match s with
  | [] => None
  | x :: s =>
      match after_last c s with
      | Some r => Some r
      | None => if x =? c then Some s else None
      end
  end.

(** A string up to the first [c], and what follows it. *)
Fixpoint split_at (c : Z) (s : list Z) : list Z * option (list Z) :=
  match s with
  | [] => ([], None)
  | x :: s => if x =? c then ([], Some s) else let '(l, r) := split_at c s in (x :: l, r)
  end.

(** ** Lemmas *)

(** A line as a client sends it, if the buffer can hold it. *)
Lemma read_line_crlf l : forall n rest, Forall (fun c => c <> 10 /\ c <> 13) l -> (length l < n)%nat ->
  read_line n (l ++ 13 :: 10 :: rest) = (l ++ [10], rest).
Proof.
  induction l as [|c l IH]; intros [|n] rest Hl Hn; cbn [length] in Hn; try lia; [done|]. cbn [app read_line].
  apply Forall_cons_iff in Hl as [[H1 H2] Hl].
  destruct (Z.eqb_spec c 13); [done|]. destruct (Z.eqb_spec c 10); [done|].
  by rewrite IH by (done || lia).
Qed.

Lemma c_str_nul l x : Forall (fun c => c <> 0) l -> c_str (l ++ 0 :: x) = l.
Proof.
  induction 1 as [|c l Hc _ IH]; [done|]. cbn [app c_str].
  destruct (Z.eqb_spec c 0); [done|]. by rewrite IH.
Qed.

Lemma c_str_strcpy_to buf l : Forall (fun c => c <> 0) l -> c_str (strcpy_to buf l) = l.
Proof. apply c_str_nul. Qed.

Lemma length_strcpy_to buf l : (length l < length buf)%nat -> length (strcpy_to buf l) = length buf.
Proof. intros. unfold strcpy_to. rewrite length_app. cbn [length]. rewrite length_drop. lia. Qed.

Lemma split_at_spec c l : forall r, Forall (fun x => x <> c) l -> split_at c (l ++ c :: r) = (l, Some r).
Proof.
  induction l as [|x l IH]; intros r Hl; cbn [app split_at]; [by rewrite Z.eqb_refl|].
  apply Forall_cons_iff in Hl as [Hx Hl]. destruct (Z.eqb_spec x c); [done|]. by rewrite IH.
Qed.

(** Lines of text with a blank line behind them. *)
Definition line_ok (size : nat) (l : list Z) : Prop :=
  Forall (fun c => c <> 0 /\ c <> 10 /\ c <> 13) l /\ l <> [] /\ (length l + 1 < size)%nat.
Definition render_lines (ls : list (list Z)) : list Z := concat (map (fun l => l ++ [13; 10]) ls).

(** From a line that is not blank, the loop runs its body on each line. *)
Lemma header_loop_lines {T} (body f : list Z -> T -> T) size
    (Hf : forall buf l t, line_ok size l -> body (strcpy_to buf (l ++ [10])) t = f l t) ls :
  forall fuel rest n buf t, Forall (line_ok size) ls -> (length ls + 1 < fuel)%nat ->
  0 < n -> length buf = size -> (1 < size)%nat -> c_str buf <> [10] ->
  header_loop fuel body n buf t (render_lines ls ++ [13; 10] ++ rest)
  = Some (fold_left (fun t l => f l t) ls (body buf t), rest).
Proof.
  induction ls as [|l ls IH]; intros fuel rest n buf t Hl Hn H0 Hb Hs Hc.
  - destruct fuel as [|[|fuel]]; [cbn in Hn; lia..|]. cbn [header_loop].
    destruct (Z.ltb_spec 0 n); [|lia]. rewrite bool_decide_eq_false_2 by done. cbn [negb andb].
    rewrite Hb. destruct size as [|[|size]]; [lia..|]. done.
  - destruct fuel as [|fuel]; [lia|]. cbn [header_loop].
    destruct (Z.ltb_spec 0 n); [|lia]. rewrite bool_decide_eq_false_2 by done. cbn [negb andb].
    apply Forall_cons_iff in Hl as [Hl Hls]. destruct (Hl) as (Hc1 & Hne & Hlen).
    change (render_lines (l :: ls)) with ((l ++ [13; 10]) ++ render_lines ls).
    replace (((l ++ [13; 10]) ++ render_lines ls) ++ [13; 10] ++ rest)
      with (l ++ 13 :: 10 :: (render_lines ls ++ [13; 10] ++ rest)) by (by rewrite <- !app_assoc).
    rewrite read_line_crlf.
    2: { eapply List.Forall_impl, Hc1. naive_solver. }
    2: { lia. }
    assert (Hz : Forall (fun c => c <> 0) (l ++ [10])).
    { apply Forall_app. split; [eapply List.Forall_impl, Hc1; naive_solver|by repeat constructor]. }
    rewrite IH; try done.
    + cbn [fold_left]. by rewrite Hf.
    + cbn [length] in Hn. lia.
    + rewrite length_app. cbn [length]. lia.
    + rewrite length_strcpy_to; [done|]. rewrite length_app. cbn [length]. lia.
    + rewrite c_str_strcpy_to by done. destruct l as [|c l]; [done|]. intros [= -> E].
      apply (f_equal length) in E. rewrite length_app in E. cbn in E. lia.
Qed.

Lemma render_lines_length ls : (length ls <= length (render_lines ls))%nat.
Proof.
  induction ls as [|l ls IH]; [done|]. unfold render_lines in *. cbn [map concat length].
  rewrite !length_app. cbn [length]. lia.
Qed.
