(* ===== verification/HttpRequest.v ===== *)
(** * HttpRequest: class request of core/httpd.hpp, and core/httpdmime.hpp

    The headers, the cookie and the body of a request are read when a handler
    asks for them. *)

From stdpp Require Import gmap.
From S2P Require Import Prelude Hash Func Text HttpParser HttpIo.
#[local] Open Scope Z_scope.

(** ** The request *)

(** [url] and [paseredX] are strings; [query] and [cookie] are pointers: the
    memory from them on to the end of the object, or [NULL]. *)
Record request := mk_request {
  inited : bool;
  url : list Z;
  query : option (list Z);
  cookie : option (list Z);
  postmode : bool;
  content_length : Z;
  postdata : list Z;
  paseredquery : strmap;
  paseredpost : strmap;
  paseredcookie : strmap;
  paseredheader : strmap
}.

(** [requestBase()], with the [url], [query] and [postmode] that
    [accept_request] then sets; [junk]: the 4096 bytes of [postdata]. *)
Definition request_new (junk u : list Z) (q : option (list Z)) (post : bool) : request :=
  mk_request false u q None post (-1) junk ∅ ∅ ∅ ∅.

Definition with_headers (r : request) (h : strmap) (n : Z) : request :=
  mk_request true (url r) (query r) (cookie r) (postmode r) n (postdata r)
    (paseredquery r) (paseredpost r) (paseredcookie r) h.
Definition with_cookie (r : request) (c : option (list Z)) (m : strmap) : request :=
  mk_request (inited r) (url r) (query r) c (postmode r) (content_length r) (postdata r)
    (paseredquery r) (paseredpost r) m (paseredheader r).
Definition with_query (r : request) (m : strmap) : request :=
  mk_request (inited r) (url r) (query r) (cookie r) (postmode r) (content_length r) (postdata r)
    m (paseredpost r) (paseredcookie r) (paseredheader r).
Definition with_post (r : request) (d : list Z) (m : strmap) : request :=
  mk_request (inited r) (url r) (query r) (cookie r) (postmode r) (content_length r) d
    (paseredquery r) m (paseredcookie r) (paseredheader r).

Definition k_content_length : list Z := Eval compute in lit "content-length".
Definition k_cookie : list Z := Eval compute in lit "cookie".

(** One turn of the loop in [readheader]: the key is the text before the first
    colon, in lower case; the value is all that follows it. *)
Definition header_line (buf : list Z) (m : strmap) : strmap :=
  match c_str buf with
  | [] => m
  | s =>
      let '(k, v) := split_at 58 s in
      match v with
      | None | Some [] => m
      | Some v => <[downstr k := v]> m
      end
  end.

(** [numchars] is not initialised. *)
Definition readheader (numchars : Z) (r : request) : io request :=
  let! m := read_headers header_line numchars (replicate 4096 0) (paseredheader r) in
  ret (with_headers r m (match m !! k_content_length with Some v => atoi v | None => -1 end)).

Definition init (numchars : Z) (r : request) : io request :=
  if inited r then ret r else readheader numchars r.

Definition checkpost (numchars : Z) (r : request) : io (bool * request) :=
  let! r := init numchars r in
  ret (negb (content_length r =? -1), r).

Definition getcookie (numchars : Z) (r : request) : io (bool * request) :=
  let! r := init numchars r in
  ret (match paseredheader r !! k_cookie with
       | None => (false, r)
       | Some v => (true, with_cookie r (Some (c_str v ++ [0])) (paseredcookie r))
       end).

(** One [recv] of at most 4096 bytes; [arrived]: how many it finds. *)
Definition getpost (numchars : Z) (arrived : nat) (r : request) : io (bool * request) :=
  let! (ok, r) := checkpost numchars r in
  if negb ok then ret (false, r)
  else
    let! l := reading (fun input =>
      let n := Nat.max 1 (Nat.min arrived 4096) in (take n input, drop n input)) in
    ret (true, with_post r (l ++ drop (length l) (postdata r)) (paseredpost r)).

(** [recv(fd, &c, 1, 0)] for every byte of the body: at the end of the input [c]
    keeps its last value. *)
Fixpoint recv_body (n : nat) (c : Z) (input : list Z) : list Z * list Z :=
  match n with
  | O => ([], input)
  | S n =>
      let '(c, input) := match input with x :: r => (x, r) | [] => (c, []) end in
      let '(l, input) := recv_body n c input in (c :: l, input)
  end.

(** What is written to the file, if anything is; [c0]: the uninitialised [c]. *)
Definition writePostIntoFile (httpBodyLength : Z) (numchars c0 : Z) (r : request) :
    io (option (list Z) * request) :=
  let! (ok, r) := checkpost numchars r in
  if negb ok then ret (None, r)
  else if httpBodyLength <? u32 (content_length r) then ret (None, r)
  else
    let! l := reading (recv_body (Z.to_nat (content_length r)) c0) in ret (Some l, r).

(** The decoders of httpdpaser.hpp on the fields of the request. *)
Definition of_parsed (p : option parsed) : io strmap :=
  match p with
  | Some (Parsed m) => ret m
  | Some Overread => fail OutOfBounds
  | None => fail OutOfFuel
  end.
Definition req_query_decode (r : request) : io request :=
  let! m := of_parsed (query_decode (query r) (paseredquery r)) in ret (with_query r m).
Definition req_cookie_decode (r : request) : io request :=
  let! m := of_parsed (cookie_decode (cookie r) (paseredcookie r)) in ret (with_cookie r (cookie r) m).
Definition req_post_decode (r : request) : io request :=
  let! m := of_parsed (post_decode (postdata r) (paseredpost r)) in
  ret (with_post r (setn (postdata r) 4095 0) m).

(** ** MIME types *)

(** [getext]: the extension, when there is one of at most 14 characters. *)
Definition getext (path : list Z) : option (list Z) :=
  match after_last 46 path with
  | None | Some [] => None
  | Some tmp => if (14 <? length tmp)%nat then None else Some tmp
  end.

Definition Mime : strmap := list_to_map [
  (lit "html", lit "text/html;charset=UTF-8");
  (lit "txt", lit "text/plain;charset=UTF-8");
  (lit "gif", lit "image/gif");
  (lit "jpg", lit "image/jpeg");
  (lit "mp2", lit "video/mpeg");
  (lit "mp3", lit "audio/mpeg");
  (lit "mpa", lit "video/mpeg");
  (lit "mpe", lit "video/mpeg");
  (lit "mpeg", lit "video/mpeg");
  (lit "mpg", lit "video/mpeg");
  (lit "svg", lit "image/svg+xml");
  (lit "zip", lit "application/zip");
  (lit "sh", lit "application/x-sh");
  (lit "bmp", lit "image/bmp")].

Definition setmime (m : strmap) (k v : list Z) : strmap := <[c_str k := c_str v]> m.

Definition text_plain : list Z := Eval compute in lit "text/plain".
Definition getinfo (m : strmap) (path : list Z) : list Z :=
  match getext path with
  | Some e => match m !! e with Some v => v | None => text_plain end
  | None => text_plain
  end.

Definition crlf : list Z := [13; 10].
Definition content_type : list Z := Eval compute in lit "Content-Type: ".

(** The header line is printed to a buffer of 128 bytes. *)
Definition sendheader (m : strmap) (path : list Z) : io unit :=
  let l := content_type ++ getinfo m path ++ crlf in
  if (128 <=? length l)%nat then fail OutOfBounds else send l.

(** ** What is read *)

(** A header as a client writes it: a name, everything behind the colon, a line
    the buffer can hold. *)
Definition header_ok (h : list Z * list Z) : Prop :=
  Forall (fun c => c <> 0 /\ c <> 10 /\ c <> 13 /\ c <> 58) (fst h) /\
  Forall (fun c => c <> 0 /\ c <> 10 /\ c <> 13) (snd h) /\
  (length (fst h) + length (snd h) < 4093)%nat.
Definition render_headers (hs : list (list Z * list Z)) : list Z :=
  concat (map (fun '(k, v) => k ++ 58 :: v ++ crlf) hs).

(** The entry it becomes: the line feed stays in the value. *)
Definition put_header (m : strmap) (h : list Z * list Z) : strmap :=
  <[map downchar (fst h) := snd h ++ [10]]> m.

Lemma downstr_clean k : Forall (fun c => c <> 0) k -> downstr k = map downchar k.
Proof.
  induction 1 as [|c k Hc _ IH]; [done|]. cbn [downstr map].
  destruct (Z.eqb_spec c 0); [done|]. by rewrite IH.
Qed.

Lemma header_line_ok buf m k v : header_ok (k, v) ->
  header_line (strcpy_to buf (k ++ 58 :: v ++ [10])) m = put_header m (k, v).
Proof.
  intros (Hk & Hv & _). cbn [fst snd] in *. unfold header_line.
  rewrite c_str_strcpy_to.
  2: { apply Forall_app. split; [eapply List.Forall_impl, Hk; naive_solver|].
       constructor; [done|]. apply Forall_app. split; [|by repeat constructor].
       eapply List.Forall_impl, Hv; naive_solver. }
  assert (E : split_at 58 (k ++ 58 :: v ++ [10]) = (k, Some (v ++ [10])))
    by (apply split_at_spec; eapply List.Forall_impl, Hk; naive_solver).
  unfold put_header. cbn [fst snd].
  rewrite <- downstr_clean by (eapply List.Forall_impl, Hk; naive_solver).
  destruct (k ++ 58 :: v ++ [10]) eqn:E2; [by destruct k|]. rewrite E. by destruct v.
Qed.

(** The headers are lines. *)
Definition header_text (h : list Z * list Z) : list Z := fst h ++ 58 :: snd h.

Lemma header_line_text h : header_ok h -> line_ok 4096 (header_text h).
Proof.
  destruct h as [k v]. intros (Hk & Hv & Hl). cbn [fst snd] in *. unfold header_text. cbn [fst snd]. split; [|split].
  - apply Forall_app. split; [eapply List.Forall_impl, Hk; naive_solver|]. constructor; [done|].
    eapply List.Forall_impl, Hv; naive_solver.
  - by destruct k.
  - rewrite length_app. cbn [length]. lia.
Qed.

Lemma render_headers_lines hs : render_headers hs = render_lines (map header_text hs).
Proof.
  unfold render_headers, render_lines. rewrite map_map. f_equal. apply map_ext. intros [k v].
  unfold header_text. cbn [fst snd]. by rewrite <- app_assoc.
Qed.

Lemma fold_headers hs : forall m (f : list Z -> strmap -> strmap),
  Forall header_ok hs -> (forall h m, header_ok h -> f (header_text h) m = put_header m h) ->
  fold_left (fun m l => f l m) (map header_text hs) m = fold_left put_header hs m.
Proof.
  induction hs as [|h hs IH]; intros m f Hh Hf; [done|]. apply Forall_cons_iff in Hh as [Hh Hhs].
  cbn [map fold_left]. by rewrite Hf, IH.
Qed.

(** The headers of a request are read into the map from their names in lower
    case, a later one over an earlier one, and the body is left to be read; but a
    value is all that stands behind the colon, the blank before it and the line
    feed after it included.  If the uninitialised counter is not positive the
    headers are not read at all. *)
Lemma readheader_fields n0 r hs body out tn
    (Hh : Forall header_ok hs) (Hr : paseredheader r = ∅) :
  let s := mk_conn (render_headers hs ++ crlf ++ body) out tn in
  let m := fold_left put_header hs ∅ in
  let clen m := match m !! k_content_length with Some v => atoi v | None => -1 end in
  readheader n0 r s =
    (if 0 <? n0 then (inr (with_headers r m (clen m)), mk_conn body out tn)
     else (inr (with_headers r ∅ (-1)), s)).
Proof.
  cbv zeta. unfold readheader, bind, read_headers. cbn [c_in c_out thread_number]. rewrite Hr.
  destruct (Z.ltb_spec 0 n0) as [Hn|Hn].
  - rewrite render_headers_lines. change crlf with [13; 10].
    set (f l m := header_line (strcpy_to [] (l ++ [10])) m).
    rewrite (header_loop_lines header_line f 4096); try done; try lia.
    + rewrite (fold_headers hs _ f); [done..|]. intros [k v] m Hkv. unfold f, header_text. cbn [fst snd].
      rewrite <- app_assoc. by apply header_line_ok.
    + intros buf l m (Hl & _). unfold f, header_line. rewrite !c_str_strcpy_to; [done|..];
        (apply Forall_app; split; [eapply List.Forall_impl, Hl; naive_solver|by repeat constructor]).
    + apply Forall_map. eapply List.Forall_impl, Hh. intros h. apply header_line_text.
    + rewrite !length_app. pose proof (render_lines_length (map header_text hs)). lia.
  - cbn [header_loop]. destruct (Z.ltb_spec 0 n0); [lia|]. done.
Qed.

Lemma readheader_fields_witness :
  let hs := [(lit "Upgrade", lit " websocket"); (lit "Content-Length", lit " 12")] in
  Forall header_ok hs /\
  readheader 1 (request_new [] [] None false) (mk_conn (render_headers hs ++ crlf ++ [7]) [] 0)
  = (inr (with_headers (request_new [] [] None false) (fold_left put_header hs ∅) 12), mk_conn [7] [] 0).
Proof.
  assert (H : Forall header_ok [(lit "Upgrade", lit " websocket"); (lit "Content-Length", lit " 12")]).
  { repeat constructor; vm_compute; try lia; intros [=]. }
  split; [exact H|]. exact (readheader_fields 1 (request_new [] [] None false) _ [7] [] 0 H eq_refl).
Defined.

(** ** What the operations do besides *)

Section Quiet.
Context (P : event -> Prop).

Lemma quiet_parsed p : p <> None -> quiet P 0 0 (of_parsed p).
Proof. destruct p as [[m|]|]; [intros; apply quiet_ret|intros; apply quiet_overflow|done]. Qed.

Lemma decode_field_some str ce om : decode_field str ce om <> None.
Proof.
  unfold decode_field. destruct str as [mem|]; [|done]. destruct (_ =? 0); [done|].
  unfold kv_paser. destruct (kv_loop_some c_eq ce (S (length mem)) mem om) as [? ->]; [lia|done].
Qed.

Lemma quiet_init n r : quiet P 0 0 (init n r).
Proof.
  unfold init, readheader. destruct (inited r); [apply quiet_ret|].
  apply quiet_bind0; auto with quiet.
Qed.

Lemma quiet_checkpost n r : quiet P 0 0 (checkpost n r).
Proof. apply quiet_bind0; [apply quiet_init|auto with quiet]. Qed.

Lemma quiet_getcookie n r : quiet P 0 0 (getcookie n r).
Proof. apply quiet_bind0; [apply quiet_init|auto with quiet]. Qed.

Lemma quiet_getpost n k r : quiet P 0 0 (getpost n k r).
Proof.
  apply quiet_bind0; [apply quiet_checkpost|]. intros [ok r']. destruct (negb ok); auto with quiet.
  apply quiet_bind0; auto with quiet.
Qed.

Lemma quiet_query r : quiet P 0 0 (req_query_decode r).
Proof. apply quiet_bind0; [apply quiet_parsed, decode_field_some|auto with quiet]. Qed.

Lemma quiet_cookie r : quiet P 0 0 (req_cookie_decode r).
Proof. apply quiet_bind0; [apply quiet_parsed, decode_field_some|auto with quiet]. Qed.

Lemma quiet_post r : quiet P 0 0 (req_post_decode r).
Proof. apply quiet_bind0; [apply quiet_parsed, decode_field_some|auto with quiet]. Qed.
End Quiet.
#[export] Hint Resolve quiet_init quiet_checkpost quiet_getcookie quiet_getpost quiet_query quiet_cookie
  quiet_post : quiet.
