(* ===== verification/Httpd.v ===== *)
(** * Httpd: the server of core/httpd.hpp

    [accept_request] reads the request line, refuses paths that could leave the
    directory of the static files, looks for a handler, and otherwise serves a
    file or starts a program.  The file system, the rewriting function and what
    the stack holds before it is written are a [site]. *)

From stdpp Require Import gmap.
From S2P Require Import Prelude Hash Func Text HttpParser HttpIo HttpRequest.
#[local] Open Scope Z_scope.

(** ** The site *)

(** A rule: its prefix and its callback, [None] for [NULL]. *)
Record router := mk_router { prefix : list Z; callback : option (request -> io unit) }.

Record site := mk_site {
  rewrite_url : option (list Z -> list Z);      (* on the memory of the url *)
  handlers : list router;
  ws : list router;
  allowexec : list (list Z);
  mimer : strmap;
  httpBodyLength : Z;                           (* config *)
  maxRequest : Z;
  fastcgi_on : bool;
  fastcgi_call : list Z -> list Z -> list Z -> list Z -> option (list Z * list (list Z));
    (* fastcgi::call on the path, the method, the query and the input: what is left of
       the input and what is sent to the client; None: it does not return *)
  stat : list Z -> option (bool * bool);        (* is it a directory, is it executable *)
  fopen : list Z -> Z * list Z;                 (* the descriptor and the content *)
  forks : bool;                                 (* whether pipe and fork work *)
  cgi_output : list Z -> list (list Z) -> list Z -> list Z;
  junk_buf : list Z; junk_url : list Z; junk_ext : list Z; junk_post : list Z
}.

Definition file_exist (st : site) (path : list Z) : bool :=
  match stat st path with Some _ => true | None => false end.
Definition allowed (st : site) (ext : list Z) : bool := bool_decide (c_str ext ∈ allowexec st).
Definition allowext (l : list (list Z)) (ext : list Z) : list (list Z) := c_str ext :: l.

(** ** Answers *)

Definition line (s : list Z) : list Z := s ++ crlf.

Definition SERVER_STRING : list Z := Eval compute in lit "Server: yrssf-httpd/0.1.0" ++ crlf.
Definition http_404 : list (list Z) := Eval compute in [
  line (lit "HTTP/1.0 404 NOT FOUND"); SERVER_STRING; line (lit "Content-Type: text/html"); line [];
  line (lit "<HTML><TITLE>Not Found</TITLE>"); line (lit "<BODY><P>The server could not fulfill");
  line (lit "your request because the resource specified"); line (lit "is unavailable or nonexistent.");
  line (lit "</BODY></HTML>")].
Definition http_403 : list (list Z) := Eval compute in [
  line (lit "HTTP/1.0 403 NOT FOUND"); SERVER_STRING; line (lit "Content-Type: text/html"); line [];
  line (lit "<HTML><TITLE>Forbidden</TITLE>"); line (lit "<BODY><P>The file have been forbidden</P>");
  line (lit "</BODY></HTML>")].
Definition http_501 : list (list Z) := Eval compute in [
  line (lit "HTTP/1.0 501 Method Not Implemented"); SERVER_STRING; line (lit "Content-Type: text/html");
  line []; line (lit "<HTML><HEAD><TITLE>Method Not Implemented"); line (lit "</TITLE></HEAD>");
  line (lit "<BODY><P>HTTP request method not supported."); line (lit "</BODY></HTML>")].
Definition http_500 : list (list Z) := Eval compute in [
  line (lit "HTTP/1.0 500 Internal Server Error"); line (lit "Content-type: text/html"); line [];
  line (lit "<P>Error prohibited CGI execution.")].
Definition http_400 : list (list Z) := Eval compute in [
  line (lit "HTTP/1.0 400 BAD REQUEST"); line (lit "Content-type: text/html"); line [];
  lit "<P>Your browser sent a bad request, "; line (lit "such as a POST without a Content-Length.")].
Definition ok_200 : list Z := Eval compute in line (lit "HTTP/1.0 200 OK").

Definition not_found : io unit := emits (map Send http_404).
Definition forbidden : io unit := emits (map Send http_403).
Definition unimplemented : io unit := emits (map Send http_501).
Definition cannot_execute : io unit := emits (map Send http_500).

(** [send(connfd, buf, sizeof(buf), 0)]: the whole buffer, five times; [buf]: what
    the stack holds. *)
Fixpoint whole_buffers (buf : list Z) (ls : list (list Z)) : list (list Z) :=
  match ls with
  | [] => []
  | l :: ls => let buf := strcpy_to buf l in buf :: whole_buffers buf ls
  end.
Definition bad_request (buf : list Z) : io unit := emits (map Send (whole_buffers buf http_400)).

(** ** Reading requests *)

Definition content_length_colon : list Z := Eval compute in lit "Content-Length:".

(** The turn of the loops that look for the length of the body:
    [buf[15]='\0'; if(!strcasecmp(buf,"Content-Length:")) n=atoi(&buf[16]);] *)
Definition length_line (buf : list Z) (n : Z) : Z :=
  if same_nocase (setn buf 15 0) content_length_colon then atoi (drop 16 buf) else n.

(** [buf[0]='A'; buf[1]='\0';] *)
Definition buf_A (junk : list Z) : list Z := strcpy_to junk [65].

Definition readBufferBeforeSend (st : site) : io unit :=
  let! content_length := read_headers length_line 1 (buf_A (junk_buf st)) (-1) in
  if negb (content_length =? -1) && (u32 content_length <? httpBodyLength st) then
    reading (fun input => (tt, drop (Z.to_nat content_length) input))
  else ret tt.

Definition skip_headers (st : site) : io unit := read_headers (fun _ t => t) 1 (buf_A (junk_buf st)) tt.

(** ** Files *)

(** [cat]: 1024 bytes at a time. *)
Fixpoint chunks_of (fuel : nat) (l : list Z) : list (list Z) :=
  match fuel, l with
  | S fuel, _ :: _ => take 1024 l :: chunks_of fuel (drop 1024 l)
  | _, _ => []
  end.
Definition cat (content : list Z) : io unit := emits (map Send (chunks_of (length content) content)).

Definition headers (st : site) (filename : list Z) : io unit :=
  send ok_200;;; send SERVER_STRING;;; sendheader (mimer st) filename;;; send crlf.

Definition serve_file (st : site) (filename : list Z) : io unit :=
  skip_headers st;;;
  emit (Open filename);;;
  let '(resource, content) := fopen st filename in
  if resource <? 1 then not_found
  else headers st filename;;; cat content.

(** ** Programs *)

Definition get_m : list Z := Eval compute in lit "GET".
Definition post_m : list Z := Eval compute in lit "POST".

Definition execute_lua (path method query : list Z) : io unit := emit (ExecLua path method query).

(** [sprintf] to one of the arrays of 255 bytes. *)
Definition env255 (k v : list Z) : io (list Z) :=
  if (255 <=? length (k ++ v))%nat then fail OutOfBounds else ret (k ++ v).

Definition request_method : list Z := Eval compute in lit "REQUEST_METHOD=".
Definition query_string_eq : list Z := Eval compute in lit "QUERY_STRING=".
Definition content_length_eq : list Z := Eval compute in lit "CONTENT_LENGTH=".

(** The body is read for a POST, which has a length by then. *)
Definition execute_cgi (st : site) (path method query : list Z) : io unit :=
  let! content_length :=
    if same_nocase method get_m then skip_headers st;;; ret (-1)
    else
      let! (numchars, buf) := get_line 1024 (buf_A (junk_buf st)) in
      read_headers length_line numchars buf (-1) in
  if negb (same_nocase method get_m) && (content_length =? -1) then bad_request (junk_buf st)
  else
    send ok_200;;;
    if negb (forks st) then cannot_execute
    else
      let! meth_env := env255 request_method method in
      let! env :=
        if same_nocase method get_m then env255 query_string_eq query
        else env255 content_length_eq (sprintf_d content_length) in
      let! body :=
        if same_nocase method post_m then reading (recv_body (Z.to_nat content_length) 0) else ret [] in
      emit (ExecCgi path [meth_env; env] body);;;
      emits (map (fun c => Send [c]) (cgi_output st path [meth_env; env] body)).

(** ** The request line *)

(** [while(!ISspace(buf[j]) && i<n)]: what is copied, and the buffer from [j] on. *)
Fixpoint scan_word (n : nat) (buf : list Z) : list Z * list Z :=
  match n, buf with
  | S n, c :: buf' => if isspace c then ([], buf) else let '(w, r) := scan_word n buf' in (c :: w, r)
  | _, _ => ([], buf)
  end.

(** The loop that looks for [..], [./], [//] and [/.]. *)
Fixpoint forbidden_url (u : list Z) : bool :=
  match u with
  | [] => false
  | c :: u' =>
      let d := match u' with d :: _ => d | [] => 0 end in
      ((c =? 46) && ((d =? 46) || (d =? 47))) || ((c =? 47) && ((d =? 47) || (d =? 46))) || forbidden_url u'
  end.

Fixpoint prefix_callback (rules : list router) (str : list Z) : option (request -> io unit) :=
  match rules with
  | [] => None
  | r :: rules => if prefix_match (prefix r) str then callback r else prefix_callback rules str
  end.

Definition static_dir : list Z := Eval compute in lit "static".
Definition index_names : list (list Z) := Eval compute in
  [lit "index.lua"; lit "index.htm"; lit "index"; lit "index.php"; lit "index.cgi"].
Definition index_html : list Z := Eval compute in lit "index.html".

(** [findindex]: every name is first printed behind the path, to a buffer of 128
    bytes. *)
Fixpoint first_index (st : site) (path : list Z) (names : list (list Z)) : io (list Z) :=
  match names with
  | [] => ret (path ++ index_html)
  | n :: names =>
      if (128 <=? length (path ++ n))%nat then fail OutOfBounds
      else if file_exist st (path ++ n) then ret (path ++ n)
      else first_index st path names
  end.
Definition findindex (st : site) (path : list Z) : io (list Z) := first_index st path index_names.

(** [if(path[strlen(path)-1]=='/') findindex(path);] *)
Definition index_if_slash (st : site) (path : list Z) : io (list Z) :=
  if List.last path 0 =? 47 then findindex st path else ret path.

(** [fastcgi::call]; its parts are in FastCgi.v. *)
Definition call_fastcgi (st : site) (path method query : list Z) : io unit :=
  emit (FastCgi path method query);;;
  fun s => match fastcgi_call st path method query (c_in s) with
           | None => (inl Hangs, s)
           | Some (rest, sent) => (inr tt, mk_conn rest (c_out s ++ map Send sent) (thread_number s))
           end.

(** A regular file: the program it is, or its content. *)
Definition serve_path (st : site) (path method query : list Z) (exec : bool) : io unit :=
  let ext := match getext path with Some e => e | None => junk_ext st end in
  let cgi := exec && allowed st ext in
  if negb cgi then serve_file st path
  else if bool_decide (c_str ext = lit "lua") then execute_lua path method query
  else if fastcgi_on st then call_fastcgi st path method query
  else execute_cgi st path method query.

(** From [check_dir] on.  Every turn makes the path longer, and a path of 497
    bytes is refused. *)
Fixpoint check_dir (fuel : nat) (st : site) (path method query : list Z) : io unit :=
  match fuel with
  | O => fail OutOfFuel
  | S fuel =>
      if (512 - 16 <? length path)%nat then
        readBufferBeforeSend st;;; bad_request (junk_buf st);;; close;;; add_threads (-1)
      else
        match stat st path with
        | None => readBufferBeforeSend st;;; not_found;;; close;;; add_threads (-1)
        | Some (true, _) => let! path := findindex st (path ++ [47]) in check_dir fuel st path method query
        | Some (false, exec) =>
            serve_path st path method query exec;;; close;;; add_threads (-1)
        end
  end.

(** From the request line to the answer. *)
Definition serve_url (st : site) (req : request) (u method query : list Z) : io unit :=
  if forbidden_url u then readBufferBeforeSend st;;; forbidden;;; close;;; add_threads (-1)
  else
    match prefix_callback (handlers st) u with
    | Some cb => cb req;;; close;;; add_threads (-1)
    | None =>
        match prefix_callback (ws st) u with
        | Some cb => add_threads (-1);;; cb req
        | None =>
            if (512 - 16 <? length u)%nat then
              readBufferBeforeSend st;;; bad_request (junk_buf st);;; close;;; add_threads (-1)
            else
              let! path := index_if_slash st (static_dir ++ u) in
              check_dir 512 st path method query
        end
    end.

(** The url of a request line and what [query_string] points to: both in the
    array [url]. *)
Definition parse_url (st : site) (buf : list Z) : list Z * option (list Z) :=
  let '(w, _) := scan_word 254 buf in
  let mem := strcpy_to (junk_url st) w in
  let mem := match rewrite_url st with Some f => f mem | None => mem end in
  match split_at 63 (c_str mem) with
  | (u, None) => (u, None)
  | (u, Some _) => (u, Some (drop (S (length u)) mem))
  end.

Definition accept_request (st : site) : io unit :=
  add_threads 1;;;
  let! n := threads in
  if maxRequest st <? u32 n then add_threads (-1);;; close
  else
    let! (numchars, buf) := get_line 1024 (junk_buf st) in
    let '(w, rest) := scan_word 254 buf in
    let method := c_str w in
    if negb (same_nocase method get_m) && negb (same_nocase method post_m) then
      readBufferBeforeSend st;;; unimplemented;;; close;;; add_threads (-1)
    else
      let '(u, q) := parse_url st (skip_space rest) in
      let req := request_new (junk_post st) u q (same_nocase method post_m) in
      serve_url st req u method (c_str (default [] q)).

(** ** Paths *)

Fixpoint dotdot (p : list Z) : bool :=
  match p with
  | [] => false
  | c :: p' => ((c =? 46) && match p' with d :: _ => d =? 46 | [] => false end) || dotdot p'
  end.

(** A path that starts with [dir] and nowhere goes up. *)
Definition safe_path (dir p : list Z) : Prop := (exists r, p = dir ++ r) /\ dotdot p = false.

(** The url the path is made of, as it stands after the rewriting, and what the path
    starts with: without a slash in front, the url goes on with the name of the
    directory. *)
Definition request_url (st : site) (input : list Z) : list Z :=
  let '(l, _) := read_line (1024 - 1) input in
  let '(_, rest) := scan_word 254 (strcpy_to (junk_buf st) l) in
  fst (parse_url st (skip_space rest)).
Definition url_dir (u : list Z) : list Z := if hd 0 u =? 47 then static_dir ++ [47] else static_dir.

Lemma dotdot_app p q : dotdot p = false -> dotdot q = false -> hd 0 q <> 46 -> dotdot (p ++ q) = false.
Proof.
  intros Hp Hq Hd. induction p as [|c p IH]; [done|]. cbn [app dotdot] in *.
  apply orb_false_iff in Hp as [H1 H2]. rewrite IH by done. rewrite orb_false_r.
  destruct p as [|d p]; [|done]. cbn [app]. destruct q as [|x q]; [done|]. cbn [hd] in Hd.
  destruct (Z.eqb_spec x 46); [done|]. by rewrite andb_false_r.
Qed.

Lemma safe_path_app dir p q : safe_path dir p -> dotdot q = false -> hd 0 q <> 46 -> safe_path dir (p ++ q).
Proof.
  intros [[r ->] Hp] Hq Hd. split; [|by apply dotdot_app].
  exists (r ++ q). by rewrite app_assoc.
Qed.

Lemma forbidden_url_dotdot u : forbidden_url u = false -> dotdot u = false.
Proof.
  induction u as [|c u IH]; [done|]. cbn [forbidden_url dotdot]. rewrite !orb_false_iff. intros [[H1 _] H2].
  split; [|by apply IH]. destruct (c =? 46); [|done]. destruct u as [|d u]; [done|].
  cbn [andb] in *. by apply orb_false_iff in H1 as [-> _].
Qed.

Lemma safe_static u : forbidden_url u = false -> safe_path (url_dir u) (static_dir ++ u).
Proof.
  intros H. split; [|cbn; by apply forbidden_url_dotdot]. unfold url_dir.
  destruct u as [|c u]; [by exists []|]. cbn [hd]. destruct (Z.eqb_spec c 47) as [->|_]; [by exists u|by exists (c :: u)].
Qed.

(** What an index page adds to a path. *)
Lemma first_index_path st names path : forall s p s', first_index st path names s = (inr p, s') ->
  exists n, (n = index_html \/ n ∈ names) /\ p = path ++ n.
Proof.
  induction names as [|n names IH]; intros s p s' E; cbn [first_index] in E.
  - injection E as <- _. eauto.
  - destruct (_ <=? _)%nat; [done|]. destruct (file_exist st (path ++ n)).
    + injection E as <- _. exists n. split; [|done]. right. left.
    + apply IH in E as (n' & [->|H] & ->); [by exists index_html; auto|].
      exists n'. split; [|done]. right. by right.
Qed.

Lemma findindex_path st dir path s p s' : safe_path dir path -> findindex st path s = (inr p, s') ->
  safe_path dir p /\ (length path < length p)%nat.
Proof.
  intros Hs E. apply first_index_path in E as (n & Hn & ->).
  assert (H : dotdot n = false /\ hd 0 n <> 46 /\ (0 < length n)%nat).
  { destruct Hn as [->|Hn]; [vm_compute; split; [done|split; [done|lia]]|].
    apply list_elem_of_In in Hn. cbn in Hn.
    repeat (destruct Hn as [<-|Hn]; [vm_compute; split; [done|split; [done|lia]]|]). done. }
  destruct H as (H1 & H2 & H3). rewrite length_app. split; [by apply safe_path_app|lia].
Qed.

(** ** What a request can do *)

(** Files are below [dir], programs too and have an extension that is allowed; of the
    scripts of handlers only those of [scripts] are run. *)
Definition may_run (st : site) (dir p : list Z) : Prop :=
  safe_path dir p /\ allowed st (match getext p with Some e => e | None => junk_ext st end) = true.
Definition event_ok (scripts : list (list Z)) (st : site) (dir : list Z) (e : event) : Prop :=
  match e with
  | Open p => safe_path dir p
  | ExecLua p _ _ | ExecCgi p _ _ => may_run st dir p
  | FastCgi p _ _ => fastcgi_on st = true /\ may_run st dir p
  | RunLua p _ => p ∈ scripts
  | _ => True
  end.

Section Quiet.
Context (scripts : list (list Z)) (st : site) (dir : list Z).

#[local] Abbreviation Q d c m := (quiet (event_ok scripts st dir) d c m) (only parsing).

Lemma quiet_body : Q 0 0 (readBufferBeforeSend st).
Proof. apply quiet_bind0; [auto with quiet|]. intros n. destruct (_ && _); auto with quiet. Qed.

Lemma quiet_bad_request : Q 0 0 (bad_request (junk_buf st)).
Proof. by apply quiet_sends. Qed.

Lemma quiet_end (m : io unit) : Q 0 0 m -> Q (-1) 1 (m;;; close;;; add_threads (-1)).
Proof.
  intros Hm. apply quiet_bind0; [done|]. intros _. change 1%nat with (1 + 0)%nat.
  apply (quiet_bind _ _ _ 0); [by apply quiet_close|]. intros _. apply quiet_add.
Qed.

(** The refusals: the rest of the request is read, an answer is sent. *)
Lemma quiet_refuse (m : io unit) : Q 0 0 m -> Q (-1) 1 (readBufferBeforeSend st;;; m;;; close;;; add_threads (-1)).
Proof. intros Hm. apply quiet_bind0; [apply quiet_body|]. intros _. by apply quiet_end. Qed.

Lemma quiet_sendheader m p : Q 0 0 (sendheader m p).
Proof. unfold sendheader. destruct (_ <=? _)%nat; [apply quiet_overflow|by apply quiet_send]. Qed.

Lemma quiet_serve_file p : safe_path dir p -> Q 0 0 (serve_file st p).
Proof.
  intros Hp. unfold serve_file, skip_headers. apply quiet_bind0; [auto with quiet|]. intros _.
  apply quiet_bind0; [by apply (quiet_emit _ (Open _))|]. intros _.
  destruct (fopen st p) as [fd content]. destruct (fd <? 1); [by apply quiet_sends|].
  apply quiet_bind0; [|by intros _; apply quiet_sends].
  do 2 (apply quiet_bind0; [by apply quiet_send|]; intros _).
  apply quiet_bind0; [apply quiet_sendheader|]. intros _. by apply quiet_send.
Qed.

Lemma quiet_env k v : Q 0 0 (env255 k v).
Proof. unfold env255. destruct (_ <=? _)%nat; auto with quiet. Qed.

Lemma quiet_execute_cgi p m q : may_run st dir p -> Q 0 0 (execute_cgi st p m q).
Proof.
  intros Hp. unfold execute_cgi, skip_headers. apply quiet_bind0.
  { destruct (same_nocase m get_m); apply quiet_bind0; auto with quiet.
    - apply quiet_reading.
    - intros [n b]. auto with quiet. }
  intros n. destruct (_ && _); [apply quiet_bad_request|].
  apply quiet_bind0; [by apply quiet_send|]. intros _. destruct (negb (forks st)); [by apply quiet_sends|].
  apply quiet_bind0; [apply quiet_env|]. intros e1.
  apply quiet_bind0; [destruct (same_nocase m get_m); apply quiet_env|]. intros e2.
  apply quiet_bind0; [destruct (same_nocase m post_m); auto with quiet|]. intros b.
  apply quiet_bind0; [by apply (quiet_emit _ (ExecCgi _ _ _))|]. intros _.
  rewrite <- (map_map (fun c => [c]) Send). by apply quiet_sends.
Qed.

Lemma quiet_call_fastcgi p m q : fastcgi_on st = true -> may_run st dir p -> Q 0 0 (call_fastcgi st p m q).
Proof.
  intros Hf Hp s. unfold call_fastcgi, bind, emit. cbn [c_in c_out thread_number].
  destruct (fastcgi_call st p m q (c_in s)) as [[rest sent]|]; cbn [fst snd c_out thread_number].
  - exists (FastCgi p m q :: map Send sent). split; [constructor; [done|by apply Forall_map, Forall_true]|].
    rewrite <- app_assoc. split; [done|]. split; [lia|]. cbn [ends]. induction sent; auto.
  - exists [FastCgi p m q]. split; [constructor; [done|constructor]|]. split; [done|]. right. split; [done|]. by exists [], p, m, q.
Qed.

Lemma quiet_serve_path p m q exec : safe_path dir p -> Q 0 0 (serve_path st p m q exec).
Proof.
  intros Hp. unfold serve_path. set (ext := match getext p with Some e => e | None => _ end).
  destruct (exec && allowed st ext) eqn:E; cbn [negb]; [|by apply quiet_serve_file].
  apply andb_true_iff in E as [_ E]. assert (Hr : may_run st dir p) by done.
  destruct (bool_decide _); [by apply (quiet_emit _ (ExecLua _ _ _))|].
  destruct (fastcgi_on st) eqn:Hf; [by apply quiet_call_fastcgi|].
  by apply quiet_execute_cgi.
Qed.

Lemma quiet_findindex p : Q 0 0 (findindex st p).
Proof.
  unfold findindex. generalize index_names. intros names. induction names as [|n names IH]; [apply quiet_ret|].
  cbn [first_index]. destruct (_ <=? _)%nat; [apply quiet_overflow|].
  destruct (file_exist _ _); [apply quiet_ret|done].
Qed.

(** The loop ends: a path of 497 bytes is refused and every turn adds to it. *)
Lemma quiet_check_dir fuel : forall p m q, safe_path dir p -> (1 <= fuel)%nat -> (498 <= length p + fuel)%nat ->
  Q (-1) 1 (check_dir fuel st p m q).
Proof.
  induction fuel as [|fuel IH]; intros p m q Hp H1 Hf; [lia|]. cbn [check_dir].
  change (512 - 16)%nat with 496%nat. destruct (Nat.ltb_spec 496 (length p)) as [Hl|Hl].
  { apply quiet_refuse, quiet_bad_request. }
  destruct (stat st p) as [[[|] exec]|].
  - apply (quiet_bind_ret _ (fun p' => safe_path dir p' /\ (length p < length p')%nat)); [apply quiet_findindex| |].
    + intros s p' s' E. apply (findindex_path _ dir) in E as [H2 H3]; [|by apply safe_path_app].
      rewrite length_app in H3. cbn [length] in H3. split; [done|lia].
    + intros p' [H2 H3]. apply IH; [done|lia..].
  - apply quiet_end. by apply quiet_serve_path.
  - apply quiet_refuse. by apply quiet_sends.
Qed.
End Quiet.

(** ** Requests *)

Section Contained.
Context (scripts : list (list Z)) (st : site).

(** What the rules of a site promise: a handler opens no file, runs no script but
    those of [scripts], and leaves the connection open; a long connection is closed or
    kept. *)
Definition rules_ok (c : nat) (rules : list router) : Prop :=
  Forall (fun r => match callback r with
                   | Some cb => forall dir req, quiet (event_ok scripts st dir) 0 c (cb req)
                   | None => True
                   end) rules.

Lemma prefix_callback_ok c rules u cb dir req : rules_ok c rules -> prefix_callback rules u = Some cb ->
  quiet (event_ok scripts st dir) 0 c (cb req).
Proof.
  induction 1 as [|r rules Hr _ IH]; [done|]. cbn [prefix_callback].
  destruct (prefix_match _ _); [|done]. intros E. by rewrite E in Hr.
Qed.

Lemma quiet_serve_url req u m q : rules_ok 0 (handlers st) -> rules_ok 1 (ws st) ->
  quiet (event_ok scripts st (url_dir u)) (-1) 1 (serve_url st req u m q).
Proof.
  intros Hh Hw. unfold serve_url. destruct (forbidden_url u) eqn:Ef.
  { apply quiet_refuse. by apply quiet_sends. }
  destruct (prefix_callback (handlers st) u) as [cb|] eqn:Eh.
  { apply quiet_end. by eapply prefix_callback_ok. }
  destruct (prefix_callback (ws st) u) as [cb|] eqn:Ew.
  { change 1%nat with (0 + 1)%nat. apply (quiet_bind _ _ _ (-1) 0); [apply quiet_add|].
    intros _. by eapply prefix_callback_ok. }
  destruct (_ <? _)%nat; [apply quiet_refuse, quiet_bad_request|].
  apply safe_static in Ef as Hs.
  apply (quiet_bind_ret _ (safe_path (url_dir u))).
  - unfold index_if_slash. destruct (_ =? _); [apply quiet_findindex|apply quiet_ret].
  - unfold index_if_slash. intros s p s' E. destruct (_ =? _); [|by injection E as <- _].
    by apply (findindex_path _ (url_dir u)) in E as [? _].
  - intros p Hp. apply quiet_check_dir; [done|lia..].
Qed.

(** The request line has been read. *)
Lemma accept_request_step s : accept_request st s =
  (if maxRequest st <? u32 (thread_number s + 1)
   then add_threads (-1);;; close
   else
     let '(w, rest) := scan_word 254 (strcpy_to (junk_buf st) (fst (read_line (1024 - 1) (c_in s)))) in
     let method := c_str w in
     if negb (same_nocase method get_m) && negb (same_nocase method post_m) then
       readBufferBeforeSend st;;; unimplemented;;; close;;; add_threads (-1)
     else
       let '(u, q) := parse_url st (skip_space rest) in
       serve_url st (request_new (junk_post st) u q (same_nocase method post_m)) u method (c_str (default [] q)))
  (mk_conn (if maxRequest st <? u32 (thread_number s + 1) then c_in s else snd (read_line (1024 - 1) (c_in s)))
     (c_out s) (thread_number s + 1)).
Proof.
  unfold accept_request, bind at 1, add_threads at 1. unfold bind at 1, threads. cbn [c_in c_out thread_number].
  destruct (_ <? _); [done|]. unfold bind at 1, get_line, reading. cbn [c_in c_out thread_number].
  destruct (read_line _ _) as [l rest0]. cbn [fst snd].
  by destruct (scan_word 254 _).
Qed.

(** A whole request, with the directory its url names. *)
Lemma accept_request_quiet s : rules_ok 0 (handlers st) -> rules_ok 1 (ws st) ->
  exists es, Forall (event_ok scripts st (url_dir (request_url st (c_in s)))) es /\
    c_out (snd (accept_request st s)) = c_out s ++ es /\
    match fst (accept_request st s) with
    | inr _ => thread_number (snd (accept_request st s)) = thread_number s /\ ends es = 1%nat
    | inl e => stopped e es
    end.
Proof.
  intros Hh Hw. set (dir := url_dir (request_url st (c_in s))).
  assert (G : forall (m : io unit), quiet (event_ok scripts st dir) (-1) 1 m ->
    forall s', c_out s' = c_out s -> thread_number s' = thread_number s + 1 ->
    exists es, Forall (event_ok scripts st dir) es /\ c_out (snd (m s')) = c_out s ++ es /\
      match fst (m s') with
      | inr _ => thread_number (snd (m s')) = thread_number s /\ ends es = 1%nat
      | inl e => stopped e es
      end).
  { intros m Hm s' Ho Ht. destruct (Hm s') as (es & H1 & H2 & H3). exists es. rewrite H2, Ho.
    split; [done|]. split; [done|]. destruct (fst (m s')); [done|]. destruct H3. split; [lia|done]. }
  rewrite accept_request_step. apply G; [|done|done]. unfold dir, request_url. clear G dir.
  destruct (_ <? _).
  { change 1%nat with (0 + 1)%nat. apply (quiet_bind _ _ _ (-1) 0); [apply quiet_add|].
    intros _. by apply quiet_close. }
  destruct (read_line (1024 - 1) (c_in s)) as [l rest0]. cbn [fst].
  destruct (scan_word 254 (strcpy_to (junk_buf st) l)) as [w rest]. cbv zeta.
  destruct (_ && _).
  { apply quiet_refuse. by apply quiet_sends. }
  destruct (parse_url st (skip_space rest)) as [u q]. by apply quiet_serve_url.
Qed.

(** C24. A request comes to an end when the client has ended its input and the
    scripts and programs it starts end: the headers run out, and a directory chain is
    cut off at 497 bytes.  Two things can keep it from that: an array has been overrun
    (as [index_page_bounds] shows), or a FastCGI server is in use and [fastcgi::call]
    does not return (as [FastCgi.recv_fastcgi_answer] shows) -- it is then the last
    thing the request does.  Otherwise the counter of requests is back where it was
    and the connection has been closed, or kept with the websockets, exactly once. *)
Theorem accept_request_ends s (Hh : rules_ok 0 (handlers st)) (Hw : rules_ok 1 (ws st)) :
  exists es, c_out (snd (accept_request st s)) = c_out s ++ es /\
  match fst (accept_request st s) with
  | inl e => e = OutOfBounds \/
      e = Hangs /\ fastcgi_on st = true /\ exists es' path method query, es = es' ++ [FastCgi path method query]
  | inr _ => thread_number (snd (accept_request st s)) = thread_number s /\ ends es = 1%nat
  end.
Proof.
  destruct (accept_request_quiet s Hh Hw) as (es & He & Ho & Ht). exists es. split; [done|].
  destruct (fst (accept_request st s)); [|done].
  destruct Ht as [Ht|(Ht & es' & p & m & q & ->)]; [by left|right]. split; [done|].
  apply Forall_app in He as [_ He]. apply Forall_cons_iff in He as [[He _] _].
  split; [done|]. by exists es', p, m, q.
Qed.
End Contained.

(** ** A well-formed request line *)

Definition word_ok (w : list Z) : Prop := Forall (fun c => isspace c = false /\ c <> 0) w.

Lemma word_chars w : word_ok w -> Forall (fun c => c <> 10 /\ c <> 13) w.
Proof.
  intros H. eapply List.Forall_impl, H. cbn. intros c [Hc _]. split; intros ->; done.
Qed.

Lemma word_non_nul w : word_ok w -> Forall (fun c => c <> 0) w.
Proof. intros H. eapply List.Forall_impl, H. naive_solver. Qed.

Lemma scan_word_stop w : forall n c rest, word_ok w -> isspace c = true -> (length w <= n)%nat ->
  scan_word n (w ++ c :: rest) = (w, c :: rest).
Proof.
  induction w as [|x w IH]; intros n c rest Hw Hc Hn.
  - destruct n; cbn; [done|]. by rewrite Hc.
  - destruct n as [|n]; [cbn in Hn; lia|]. apply Forall_cons_iff in Hw as [[Hx _] Hw].
    cbn [app scan_word]. rewrite Hx. rewrite IH; [done..|]. cbn in Hn. lia.
Qed.

Lemma skip_space_word w rest : word_ok w -> w <> [] -> skip_space (32 :: w ++ rest) = w ++ rest.
Proof.
  intros Hw Hne. cbn [skip_space]. change (isspace 32) with true. cbv iota.
  destruct w as [|c w]; [done|]. apply Forall_cons_iff in Hw as [[Hc _] _]. cbn [app skip_space]. by rewrite Hc.
Qed.

Lemma split_at_none c l : Forall (fun x => x <> c) l -> split_at c l = (l, None).
Proof.
  induction 1 as [|x l Hx _ IH]; [done|]. cbn [split_at]. destruct (Z.eqb_spec x c); [done|]. by rewrite IH.
Qed.

Lemma c_str_plain l : Forall (fun c => c <> 0) l -> c_str l = l.
Proof. intros H. rewrite <- (app_nil_r l) at 1. induction H as [|c l Hc _ IH]; [done|]. cbn [app c_str].
  destruct (Z.eqb_spec c 0); [done|]. by rewrite IH. Qed.

(** A url with its query, as the request line has it. *)
Definition url_text (u : list Z) (q : option (list Z)) : list Z :=
  u ++ match q with Some q => 63 :: q | None => [] end.

(** The request line "[m] [w] [v]" and what follows it. *)
Definition request_text (m w v more : list Z) : list Z := m ++ 32 :: w ++ 32 :: v ++ crlf ++ more.

Section RequestLine.
Context (st : site) (m u v more : list Z) (q : option (list Z)).
Let w := url_text u q.
Context (Hr : rewrite_url st = None)
  (Hm : word_ok m) (Hm2 : same_nocase m get_m = true \/ same_nocase m post_m = true)
  (Hw : word_ok w) (Hu : Forall (fun c => c <> 63) u) (Hne : w <> []) (Hv : Forall (fun c => c <> 10 /\ c <> 13) v)
  (Hlm : (length m <= 254)%nat) (Hlw : (length w <= 254)%nat)
  (Hl : (length m + length w + length v <= 1020)%nat).

(** What the memory at [query] holds, and [query_string]. *)
Definition query_mem : option (list Z) :=
  option_map (fun q => q ++ 0 :: drop (S (length w)) (junk_url st)) q.

Lemma parse_url_word rest c : isspace c = true -> parse_url st (w ++ c :: rest) = (u, query_mem).
Proof.
  intros Hc. unfold parse_url. rewrite scan_word_stop, Hr, c_str_strcpy_to by (done || by apply word_non_nul).
  unfold query_mem. destruct q as [q'|]; unfold w, url_text in *.
  - rewrite split_at_spec by done. cbn [option_map]. do 2 f_equal. unfold strcpy_to. rewrite <- app_assoc. cbn [app].
    change (u ++ 63 :: q' ++ 0 :: drop (S (length (u ++ 63 :: q'))) (junk_url st))
      with (u ++ [63] ++ q' ++ 0 :: drop (S (length (u ++ 63 :: q'))) (junk_url st)).
    rewrite app_assoc. apply drop_app_length'. rewrite length_app. cbn [length]. lia.
  - rewrite app_nil_r in *. by rewrite split_at_none.
Qed.

Lemma accept_request_line out tn (Ht : u32 (tn + 1) <= maxRequest st) :
  accept_request st (mk_conn (request_text m w v more) out tn)
  = serve_url st (request_new (junk_post st) u query_mem (same_nocase m post_m)) u m
      (default [] q) (mk_conn more out (tn + 1)).
Proof.
  unfold accept_request, bind, add_threads, threads. cbn [c_in c_out thread_number].
  destruct (Z.ltb_spec (maxRequest st) (u32 (tn + 1))); [lia|].
  unfold get_line, reading. cbn [c_in c_out thread_number]. unfold request_text.
  replace (m ++ 32 :: w ++ 32 :: v ++ crlf ++ more) with ((m ++ 32 :: w ++ 32 :: v) ++ 13 :: 10 :: more)
    by (rewrite <- app_assoc; cbn [app]; rewrite <- app_assoc; done).
  rewrite read_line_crlf.
  2: { apply Forall_app. split; [by apply word_chars|]. constructor; [done|].
       apply Forall_app. split; [by apply word_chars|]. by constructor. }
  2: { rewrite length_app. cbn [length]. rewrite length_app. cbn [length]. lia. }
  unfold strcpy_to. set (tl := 0 :: drop _ _).
  replace (((m ++ 32 :: w ++ 32 :: v) ++ [10]) ++ tl) with (m ++ 32 :: w ++ 32 :: v ++ 10 :: tl)
    by (rewrite <- !app_assoc; cbn [app]; rewrite <- !app_assoc; done).
  rewrite scan_word_stop by done. rewrite skip_space_word by done.
  rewrite parse_url_word by done. rewrite (c_str_plain m) by by apply word_non_nul.
  replace (negb (same_nocase m get_m) && negb (same_nocase m post_m)) with false
    by (destruct Hm2 as [-> | ->]; by rewrite ?andb_false_r).
  f_equal. unfold query_mem. destruct q as [q'|]; [|done]. cbn [option_map default].
  apply c_str_nul. unfold w, url_text in Hw. apply word_non_nul in Hw. apply Forall_app in Hw as [_ Hw].
  by apply Forall_cons_iff in Hw as [_ Hw].
Qed.
End RequestLine.

(** ** Serving a file *)

Lemma chunks_concat fuel : forall l, (length l <= fuel)%nat ->
  concat (chunks_of fuel l) = l /\ Forall (fun c => (0 < length c <= 1024)%nat) (chunks_of fuel l).
Proof.
  induction fuel as [|fuel IH]; intros [|x l] Hl; cbn [length] in Hl; [done|lia|done|].
  cbn [chunks_of]. destruct (IH (drop 1024 (x :: l))) as [H1 H2].
  { rewrite length_drop. cbn [length]. lia. }
  split.
  - change (concat (?a :: ?b)) with (a ++ concat b). rewrite H1. apply take_drop.
  - constructor; [|done]. rewrite length_take. cbn [length]. lia.
Qed.

Lemma skip_headers_lines st ls body out tn : length (junk_buf st) = 1024%nat -> Forall (line_ok 1024) ls ->
  skip_headers st (mk_conn (render_lines ls ++ crlf ++ body) out tn) = (inr tt, mk_conn body out tn).
Proof.
  intros Hj Hls. unfold skip_headers, read_headers. cbn [c_in c_out thread_number]. change crlf with [13; 10].
  rewrite (header_loop_lines _ (fun _ t => t) 1024); try done; try lia.
  - do 2 f_equal. generalize ls. by induction ls0.
  - pose proof (render_lines_length ls). rewrite length_app. lia.
  - unfold buf_A. rewrite length_strcpy_to; [done|]. rewrite Hj. cbn [length]. lia.
Qed.

Lemma serve_file_sends st path ls body out tn fd content :
  length (junk_buf st) = 1024%nat -> Forall (line_ok 1024) ls ->
  fopen st path = (fd, content) -> 0 < fd ->
  (length (getinfo (mimer st) path) < 112)%nat ->
  serve_file st path (mk_conn (render_lines ls ++ crlf ++ body) out tn)
  = (inr tt, mk_conn body
       (out ++ Open path :: map Send ([ok_200; SERVER_STRING; content_type ++ getinfo (mimer st) path ++ crlf; crlf]
                                      ++ chunks_of (length content) content)) tn).
Proof.
  intros Hj Hls Hf Hfd Hm. unfold serve_file. unfold bind at 1. rewrite skip_headers_lines by done.
  unfold bind at 1, emit. cbn [c_in c_out thread_number]. rewrite Hf.
  destruct (Z.ltb_spec fd 1); [lia|]. unfold headers, sendheader, bind, send, emit, cat, emits.
  cbn [c_in c_out thread_number]. rewrite !length_app. change (length crlf) with 2%nat.
  change (length content_type) with 14%nat.
  destruct (Nat.leb_spec 128 (14 + (length (getinfo (mimer st) path) + 2))); [lia|].
  cbn [c_in c_out thread_number]. do 2 f_equal. rewrite map_app. cbn [map].
  rewrite <- !app_assoc. done.
Qed.

(** C25. A request for a regular file that is no program is answered with the
    headers and the content of that file, in pieces of at most 1024 bytes, and
    the connection is closed; what follows the request is left unread. *)
Theorem static_file_served st m u q v ls body out tn fd content exec
    (Hr : rewrite_url st = None) (Hj : length (junk_buf st) = 1024%nat)
    (Hm : word_ok m) (Hm2 : same_nocase m get_m = true \/ same_nocase m post_m = true)
    (Hw : word_ok (url_text u q))
    (Hu : Forall (fun c => c <> 63) u) (Hne : u <> []) (Hv : Forall (fun c => c <> 10 /\ c <> 13) v)
    (Hlm : (length m <= 254)%nat)
    (Hlw : (length (url_text u q) <= 254)%nat)
    (Hl : (length m + length (url_text u q) + length v <= 1020)%nat)
    (Ht : u32 (tn + 1) <= maxRequest st)
    (Hf : forbidden_url u = false) (Hh : prefix_callback (handlers st) u = None)
    (Hs : prefix_callback (ws st) u = None) (Hd : List.last u 0 <> 47)
    (Hst : stat st (static_dir ++ u) = Some (false, exec))
    (Hx : exec && allowed st (match getext (static_dir ++ u) with Some e => e | None => junk_ext st end) = false)
    (Ho : fopen st (static_dir ++ u) = (fd, content)) (Hfd : 0 < fd) (Hls : Forall (line_ok 1024) ls)
    (Hmi : (length (getinfo (mimer st) (static_dir ++ u)) < 112)%nat) :
  let path := static_dir ++ u in
  exists chunks, concat chunks = content /\ Forall (fun c => (0 < length c <= 1024)%nat) chunks /\
    accept_request st (mk_conn (request_text m (url_text u q) v
                                  (render_lines ls ++ crlf ++ body)) out tn)
    = (inr tt, mk_conn body
         (out ++ Open path :: map Send ([ok_200; SERVER_STRING; content_type ++ getinfo (mimer st) path ++ crlf; crlf]
                                        ++ chunks) ++ [Close]) tn).
Proof.
  cbv zeta. exists (chunks_of (length content) content). destruct (chunks_concat (length content) content) as [C1 C2]; [lia|].
  split; [done|]. split; [done|].
  rewrite accept_request_line; try done; [|by destruct u].
  unfold serve_url. rewrite Hf, Hh, Hs.
  assert (Lu : (length u <= 254)%nat) by (unfold url_text in Hlw; rewrite length_app in Hlw; lia).
  destruct (Nat.ltb_spec (512 - 16) (length u)); [lia|].
  unfold index_if_slash. replace (List.last (static_dir ++ u) 0 =? 47) with false.
  2: { symmetry. apply Z.eqb_neq. destruct (exists_last Hne) as (u' & c & E). rewrite E in *.
       rewrite app_assoc. by rewrite !last_last in *. }
  unfold bind at 1. cbn [ret]. unfold ret.
  change 512%nat with (S 511) at 1. cbn [check_dir].
  destruct (Nat.ltb_spec (512 - 16) (length (static_dir ++ u))) as [Hlt|_].
  { rewrite length_app in Hlt. change (length static_dir) with 6%nat in Hlt. lia. }
  rewrite Hst. unfold serve_path. cbv zeta. rewrite Hx. cbn [negb].
  unfold bind at 1. rewrite (serve_file_sends st (static_dir ++ u) ls body out (tn + 1) fd content) by done.
  unfold bind, close, emit, add_threads. cbn [c_in c_out thread_number]. do 2 f_equal; [|lia].
  rewrite <- app_assoc. done.
Qed.

(** C26. An index page is looked for only as long as the path fits the 128 bytes it
    is printed to: up to 118 bytes the search gives a path, from 119 on it
    overruns the array -- and so does a request for any url of 113 to 254 bytes
    that ends in a slash and is not refused or handled otherwise. *)
Theorem index_page_bounds st m u q v more out tn path s
    (Hr : rewrite_url st = None)
    (Hm : word_ok m) (Hm2 : same_nocase m get_m = true \/ same_nocase m post_m = true)
    (Hw : word_ok (url_text u q)) (Hu : Forall (fun c => c <> 63) u)
    (Hv : Forall (fun c => c <> 10 /\ c <> 13) v)
    (Hlm : (length m <= 254)%nat) (Hlw : (length (url_text u q) <= 254)%nat)
    (Hl : (length m + length (url_text u q) + length v <= 1020)%nat)
    (Ht : u32 (tn + 1) <= maxRequest st)
    (Hf : forbidden_url u = false) (Hh : prefix_callback (handlers st) u = None)
    (Hs : prefix_callback (ws st) u = None) (Hd : List.last u 0 = 47) (Hlu : (113 <= length u)%nat) :
  ((length path <= 118)%nat -> exists p, findindex st path s = (inr p, s)) /\
  ((119 <= length path)%nat -> findindex st path s = (inl OutOfBounds, s)) /\
  accept_request st (mk_conn (request_text m (url_text u q) v more) out tn)
  = (inl OutOfBounds, mk_conn more out (tn + 1)).
Proof.
  assert (Hover : forall path s, (119 <= length path)%nat -> findindex st path s = (inl OutOfBounds, s)).
  { intros p s' Hp. unfold findindex, index_names. cbn [first_index].
    rewrite length_app. cbn [length]. destruct (Nat.leb_spec 128 (length p + 9)); [done|lia]. }
  split; [|split; [by apply Hover|]].
  - intros Hp. unfold findindex.
    assert (Hn : Forall (fun n => (length n <= 9)%nat) index_names) by (repeat constructor).
    induction Hn as [|n names Hn _ IH]; [by eexists|]. cbn [first_index]. rewrite length_app.
    destruct (Nat.leb_spec 128 (length path + length n)); [lia|].
    destruct (file_exist st (path ++ n)); [by eexists|done].
  - assert (Hne : u <> []) by (intros ->; cbn in Hlu; lia).
    rewrite accept_request_line; try done; [|by destruct u].
    unfold serve_url. rewrite Hf, Hh, Hs.
    assert (Lu : (length u <= 254)%nat) by (unfold url_text in Hlw; rewrite length_app in Hlw; lia).
    destruct (Nat.ltb_spec (512 - 16) (length u)); [lia|].
    unfold index_if_slash. replace (List.last (static_dir ++ u) 0 =? 47) with true.
    2: { symmetry. apply Z.eqb_eq. destruct (exists_last Hne) as (u' & c & E). rewrite E in *.
         rewrite app_assoc. by rewrite !last_last in *. }
    unfold bind. rewrite Hover; [done|]. rewrite length_app. change (length static_dir) with 6%nat. lia.
Qed.

(** ** Witnesses *)

(** One text file and one Lua script; nothing is rewritten or handled. *)
Definition w_site : site :=
  mk_site None [] [] [lit "lua"] Mime 65536 16 false (fun _ _ _ _ => None)
    (fun p => if bool_decide (p = lit "static/a.txt") then Some (false, false)
              else if bool_decide (p = lit "static/b.lua") then Some (false, true) else None)
    (fun p => if bool_decide (p = lit "static/a.txt") then (5, [104; 105]) else (-1, []))
    true (fun _ _ _ => []) (replicate 1024 0) (replicate 255 0) [] [].

Lemma accept_request_ends_witness :
  let r := accept_request w_site (mk_conn (request_text get_m (lit "/b.lua") [] crlf) [] 0) in
  exists es, c_out (snd r) = [] ++ es /\
  match fst r with
  | inl e => e = OutOfBounds \/
      e = Hangs /\ fastcgi_on w_site = true /\ exists es' path method query, es = es' ++ [FastCgi path method query]
  | inr _ => thread_number (snd r) = 0 /\ ends es = 1%nat
  end.
Proof.
  exact (accept_request_ends [] w_site (mk_conn (request_text get_m (lit "/b.lua") [] crlf) [] 0)
           ltac:(constructor) ltac:(constructor)).
Defined.

Ltac all_chars := repeat constructor; vm_compute; try lia; try discriminate; intuition discriminate.

Lemma static_file_served_witness :
  exists chunks, concat chunks = [104; 105] /\ Forall (fun c => (0 < length c <= 1024)%nat) chunks /\
    accept_request w_site (mk_conn (request_text get_m (lit "/a.txt?x") (lit "HTTP/1.1")
                                      (render_lines [lit "Host: h"] ++ crlf ++ [7])) [] 0)
    = (inr tt, mk_conn [7]
         (Open (lit "static/a.txt") ::
          map Send ([ok_200; SERVER_STRING; content_type ++ lit "text/plain;charset=UTF-8" ++ crlf; crlf] ++ chunks)
          ++ [Close]) 0).
Proof.
  refine (static_file_served w_site get_m (lit "/a.txt") (Some (lit "x")) (lit "HTTP/1.1") [lit "Host: h"] [7] [] 0
    5 [104; 105] false eq_refl eq_refl _ (or_introl eq_refl) _ _ _ _ _ _ _ _ eq_refl eq_refl eq_refl _ eq_refl
    eq_refl eq_refl _ _ _).
  all: try (vm_compute; lia).
  all: try (vm_compute; discriminate).
  all: all_chars.
Defined.

Lemma index_page_bounds_witness :
  ((length (lit "static/") <= 118)%nat -> exists p, findindex w_site (lit "static/") (mk_conn [] [] 0) = (inr p, mk_conn [] [] 0)) /\
  ((119 <= length (lit "static/"))%nat -> findindex w_site (lit "static/") (mk_conn [] [] 0) = (inl OutOfBounds, mk_conn [] [] 0)) /\
  accept_request w_site (mk_conn (request_text get_m (replicate 112 97 ++ [47]) [] []) [] 0)
  = (inl OutOfBounds, mk_conn [] [] 1).
Proof.
  refine (index_page_bounds w_site get_m (replicate 112 97 ++ [47]) None [] [] [] 0 (lit "static/") (mk_conn [] [] 0)
    eq_refl _ (or_introl eq_refl) _ _ _ _ _ _ _ eq_refl eq_refl eq_refl eq_refl _).
  all: try (vm_compute; lia).
  all: all_chars.
Defined.
