(* ===== verification/WebServer.v ===== *)
(** * WebServer: the handlers of core/webserver.hpp and core/websocket.hpp

    [ajax] runs a Lua script on the fields of a request, [msrc] redirects to the
    files of the parent server, and a websocket begins with a handshake.  The
    theorems put them into the server of Httpd.v. *)

From stdpp Require Import gmap.
From S2P Require Import Prelude Hash Func Text Base64 HttpParser HttpIo HttpRequest Httpd.
#[local] Open Scope Z_scope.

Section Handlers.
(** What the uninitialised counter of [readheader] holds, how many bytes of a body
    arrive at once, the Lua script (the string [RESULT] it leaves), [SHA1] of
    OpenSSL and what the array behind its 20 bytes holds, and [client.parhash]. *)
Context (numchars : Z) (arrived : nat) (lua : list (list Z * strmap) -> option (list Z))
  (SHA1 : list Z -> list Z) (junk_sha : list Z) (parhash : list Z).

(** ** core/websocket.hpp *)

Definition sha1 (inp : list Z) : list Z := c_str (SHA1 inp ++ junk_sha).

Definition magicKey : list Z := Eval compute in lit "258EAFA5-E914-47DA-95CA-C5AB0DC85B11".
Definition k_upgrade : list Z := Eval compute in lit "upgrade".
Definition k_connection : list Z := Eval compute in lit "connection".
Definition k_ws_key : list Z := Eval compute in lit "sec-websocket-key".
Definition v_websocket : list Z := Eval compute in lit "websocket".
Definition v_upgrade : list Z := Eval compute in lit "Upgrade".
Definition handshake_head : list Z := Eval compute in
  lit "HTTP/1.1 101 Switching Protocols" ++ crlf ++ lit "Upgrade: websocket" ++ crlf ++
  lit "Connection: upgrade" ++ crlf ++ lit "Sec-WebSocket-Accept: ".

(** The header a request has, or the empty string. *)
Definition header (r : request) (k : list Z) : list Z := default [] (paseredheader r !! k).

(** [onWebsocketConnect] is never NULL and never refuses. *)
Definition ws_callback (req : request) : io unit :=
  let! req := init numchars req in
  let! req := req_query_decode req in
  let! (_, req) := getcookie numchars req in
  let! req := req_cookie_decode req in
  if negb (bool_decide (header req k_upgrade = v_websocket)) ||
     negb (bool_decide (header req k_connection = v_upgrade))
  then close
  else
    match paseredheader req !! k_ws_key with
    | None => close
    | Some k =>
        let shahash := sha1 (k ++ magicKey) in
        send handshake_head;;; send (Base64.encode shahash);;; send (crlf ++ crlf);;; emit WsAdd
    end.

(** ** core/webserver.hpp *)

Definition ajax_script : list Z := Eval compute in lit "./ajax.lua".
Definition ajax_head : list Z := Eval compute in
  lit "HTTP/1.0 200 OK" ++ crlf ++ lit "Server:yrssf-ajax-server" ++ crlf ++
  lit "Content-Type:text/html;charset=UTF-8" ++ crlf ++ lit "Cache-Control:no-cache" ++ crlf ++ crlf.
Definition null_text : list Z := Eval compute in lit "NULL".

(** The tables are filled with the decoded values; [lua_pushstring] stops at a
    NUL. *)
Definition decoded (m : strmap) : strmap := (fun v => c_str (url_decode v)) <$> m.

Definition ajax (req : request) : io unit :=
  let! req := init numchars req in
  let! req := req_query_decode req in
  let! (_, req) := getcookie numchars req in
  let! req := req_cookie_decode req in
  let! req :=
    if postmode req then
      let! (_, req) := getpost numchars arrived req in req_post_decode req
    else ret req in
  let globals :=
    (lit "GET", decoded (paseredquery req)) ::
    (if postmode req then [(lit "POST", decoded (paseredpost req))] else []) ++
    [(lit "COOKIE", paseredcookie req); (lit "HEADER", paseredheader req)] in
  emit (RunLua ajax_script globals);;;
  send ajax_head;;;
  match lua globals with
  | Some result => send (c_str result)
  | None => send null_text
  end.

Definition msrc_head : list Z := Eval compute in
  lit "HTTP/1.0 302 Moved Temporarily" ++ crlf ++ lit "Server:yrssf-source-server" ++ crlf.

(** The name behind the last slash of the url, below the directory of the parent. *)
Definition msrc_url (u : list Z) : list Z :=
  lit "../" ++ parhash ++
  match after_last 47 u with
  | None | Some [] => []
  | Some tmp => 47 :: tmp
  end.

Definition msrc (req : request) : io unit :=
  let! req := init numchars req in
  let! req := req_query_decode req in
  let! (_, req) := getcookie numchars req in
  let! req := req_cookie_decode req in
  send msrc_head;;;
  send (c_str (lit "Location:" ++ msrc_url (url req) ++ crlf));;;
  send (crlf ++ crlf).

(** [webserverRun]: the rules, in the order they are looked through. *)
Definition web_handlers : list router :=
  [mk_router (lit "/ajax") (Some ajax); mk_router (lit "/mysource") (Some msrc)].
Definition web_ws : list router := [mk_router (lit "/websocket") (Some ws_callback)].

(** ** The handlers keep to the rules *)

Section Quiet.
Context (st : site) (dir : list Z).
#[local] Abbreviation ok := (event_ok [ajax_script] st dir) (only parsing).

(** The four calls every handler begins with. *)
Lemma quiet_begin {A} (req : request) c (k : request -> io A) :
  (forall r, quiet ok 0 c (k r)) ->
  quiet ok 0 c
    (let! req := init numchars req in
     let! req := req_query_decode req in
     let! (_, req) := getcookie numchars req in
     let! req := req_cookie_decode req in k req).
Proof.
  intros Hk. do 2 (apply quiet_bind0; [auto with quiet|]; intros ?).
  apply quiet_bind0; [auto with quiet|]. intros [ok r]. apply quiet_bind0; [auto with quiet|done].
Qed.

Lemma quiet_ws req : quiet ok 0 1 (ws_callback req).
Proof.
  apply quiet_begin. intros r. destruct (_ || _); [by apply quiet_close|].
  destruct (_ !! _); [|by apply quiet_close].
  do 3 (apply quiet_bind0; [by apply quiet_send|]; intros _). by apply (quiet_emit _ WsAdd).
Qed.

Lemma quiet_ajax req : quiet ok 0 0 (ajax req).
Proof.
  apply quiet_begin. intros r. apply quiet_bind0.
  { destruct (postmode r); [|apply quiet_ret]. apply quiet_bind0; [auto with quiet|]. intros [ok r']. auto with quiet. }
  intros r'. apply quiet_bind0; [by apply (quiet_emit _ (RunLua _ _)), list_elem_of_singleton|]. intros _.
  apply quiet_bind0; [by apply quiet_send|]. intros _. destruct (lua _); by apply quiet_send.
Qed.

Lemma quiet_msrc req : quiet ok 0 0 (msrc req).
Proof.
  apply quiet_begin. intros r. do 2 (apply quiet_bind0; [by apply quiet_send|]; intros _). by apply quiet_send.
Qed.

End Quiet.

Lemma web_handlers_ok st : rules_ok [ajax_script] st 0 web_handlers.
Proof. constructor; [exact (quiet_ajax st)|]. constructor; [exact (quiet_msrc st)|constructor]. Qed.

Lemma web_ws_ok st : rules_ok [ajax_script] st 1 web_ws.
Proof. constructor; [exact (quiet_ws st)|constructor]. Qed.

(** C23. The server as [webserverRun] sets it up, with its Lua, redirecting and
    websocket handlers, on any input: every file it opens, and every file it runs as a
    program, has a path that nowhere goes up and that starts with the directory of the
    static files if the url, as it stands after the rewriting, starts with a slash (a
    url that does not goes on with the directory's name, and names a sibling);
    programs have an extension that is allowed; the one script it runs besides is
    [./ajax.lua]; and a FastCGI server is called only if one is in use.  This is about
    all it does, up to the point where an array is overrun, if one is. *)
Theorem webserver_contained st s (Hh : handlers st = web_handlers) (Hw : ws st = web_ws) :
  let u := request_url st (c_in s) in
  exists es, c_out (snd (accept_request st s)) = c_out s ++ es /\
    Forall (fun e =>
      let below p := (exists r, p = (if hd 0 u =? 47 then static_dir ++ [47] else static_dir) ++ r) /\
                     dotdot p = false in
      let runs p := below p /\ allowed st (match getext p with Some e => e | None => junk_ext st end) = true in
      match e with
      | Open p => below p
      | ExecLua p _ _ | ExecCgi p _ _ => runs p
      | FastCgi p _ _ => fastcgi_on st = true /\ runs p
      | RunLua p _ => p = lit "./ajax.lua"
      | Send _ | WsAdd | Close => True
      end) es.
Proof.
  destruct (accept_request_quiet [ajax_script] st s) as (es & He & Ho & _);
    [rewrite Hh; apply web_handlers_ok|rewrite Hw; apply web_ws_ok|].
  exists es. split; [done|]. eapply List.Forall_impl, He. intros e. cbv zeta.
  destruct e; try done. cbn [event_ok]. by intros ->%list_elem_of_singleton.
Qed.

(** ** The handshake *)

(** The two headers a handshake needs. *)
Definition has_upgrade (m : strmap) : Prop := default [] (m !! k_upgrade) = v_websocket.
Definition has_connection (m : strmap) : Prop := default [] (m !! k_connection) = v_upgrade.

Lemma split_at_inv c l : forall k v, split_at c l = (k, Some v) -> l = k ++ c :: v.
Proof.
  induction l as [|x l IH]; intros k v E; cbn [split_at] in E; [done|].
  destruct (Z.eqb_spec x c) as [->|Hx]; [by injection E as <- <-|].
  destruct (split_at c l) as [k' v'] eqn:E'. injection E as <- ->. by rewrite (IH k' v eq_refl).
Qed.

Lemma length_downstr l : length (downstr l) = length l.
Proof. induction l as [|c l IH]; [done|]. cbn [downstr]. destruct (_ =? _); [done|]. cbn. by rewrite IH. Qed.

(** A line that ends with a line feed, or is long, gives neither. *)
Lemma header_line_harmless buf l m : Forall (fun c => c <> 0) l ->
  (l = [] \/ (exists l', l = l' ++ [10]) \/ (100 <= length l)%nat) ->
  (has_upgrade (header_line (strcpy_to buf l) m) -> has_upgrade m) /\
  (has_connection (header_line (strcpy_to buf l) m) -> has_connection m).
Proof.
  intros Hz Hl. unfold header_line. rewrite c_str_strcpy_to by done. destruct l as [|c l]; [done|].
  destruct (split_at 58 (c :: l)) as [k [[|x v]|]] eqn:E; [done| |done].
  apply split_at_inv in E. destruct Hl as [Hl|Hl]; [done|]. rewrite E in Hl. clear E Hz.
  assert (N : forall w, w = v_websocket \/ w = v_upgrade -> (length (k ++ 58%Z :: x :: v) < 100)%nat -> x :: v <> w).
  { intros w Hw Hlen Ew. destruct Hl as [[l' El]|Hl]; [|lia].
    change (k ++ 58 :: x :: v) with (k ++ [58] ++ x :: v) in El. rewrite Ew, app_assoc in El.
    destruct Hw as [-> | ->].
    - change v_websocket with (removelast v_websocket ++ [116]) in El. rewrite app_assoc in El.
      apply app_inj_tail in El. by destruct El.
    - change v_upgrade with (removelast v_upgrade ++ [101]) in El. rewrite app_assoc in El.
      apply app_inj_tail in El. by destruct El. }
  unfold has_upgrade, has_connection. split; intros H.
  - destruct (decide (downstr k = k_upgrade)) as [Ek|Ek]; [|by rewrite lookup_insert_ne in H].
    rewrite Ek, lookup_insert_eq in H. cbn [default] in H. unfold id in H.
    destruct (N v_websocket); [by left| |done].
    apply (f_equal length) in Ek. rewrite length_downstr in Ek. rewrite length_app, H, Ek. vm_compute. lia.
  - destruct (decide (downstr k = k_connection)) as [Ek|Ek]; [|by rewrite lookup_insert_ne in H].
    rewrite Ek, lookup_insert_eq in H. cbn [default] in H. unfold id in H.
    destruct (N v_upgrade); [by right| |done].
    apply (f_equal length) in Ek. rewrite length_downstr in Ek. rewrite length_app, H, Ek. vm_compute. lia.
Qed.

(** The last line may lack its line feed, and gives one of them at most. *)
Lemma header_line_one buf m : ~ has_upgrade m -> ~ has_connection m ->
  ~ (has_upgrade (header_line buf m) /\ has_connection (header_line buf m)).
Proof.
  intros Hu Hc [H1 H2]. unfold header_line in *. destruct (c_str buf) as [|c l]; [done|].
  destruct (split_at 58 (c :: l)) as [k [[|x v]|]]; [done| |done].
  unfold has_upgrade, has_connection in *.
  destruct (decide (downstr k = k_upgrade)) as [Ek|Ek].
  - rewrite Ek, lookup_insert_ne in H2 by done. done.
  - by rewrite lookup_insert_ne in H1.
Qed.

Lemma read_line_cases n : forall input l rest, Forall (fun c => c <> 0) input -> read_line n input = (l, rest) ->
  Forall (fun c => c <> 0) l /\ Forall (fun c => c <> 0) rest /\ (length l <= n)%nat /\
  ((exists l', l = l' ++ [10]) \/ length l = n \/ rest = []).
Proof.
  induction n as [|n IH]; intros [|c input] l rest Hi E; cbn [read_line] in E.
  1-3: injection E as <- <-; repeat split; auto; cbn; lia.
  apply Forall_cons_iff in Hi as [Hc Hi]. destruct (Z.eqb_spec c 13).
  { assert (H : l = [10] /\ Forall (fun c => c <> 0) rest).
    { destruct input as [|d input]; [by injection E as <- <-|]. apply Forall_cons_iff in Hi as [Hd Hi].
      destruct (d =? 10); injection E as <- <-; split; auto; by constructor. }
    destruct H as [-> Hr]. split; [by repeat constructor|]. split; [done|]. split; [cbn; lia|].
    left. by exists []. }
  destruct (Z.eqb_spec c 10) as [->|Hn].
  { injection E as <- <-. split; [by repeat constructor|]. split; [done|]. split; [cbn; lia|].
    left. by exists []. }
  destruct (read_line n input) as [l1 r1] eqn:E1. injection E as <- <-.
  destruct (IH _ _ _ Hi E1) as (H1 & H2 & H3 & H4). split; [by constructor|]. split; [done|].
  split; [cbn; lia|]. destruct H4 as [[l' ->]|[H4|H4]]; [left; by exists (c :: l')|right; left; cbn; lia|by right; right].
Qed.

Lemma header_loop_no_handshake fuel : forall n buf l m input m' r,
  Forall (fun c => c <> 0) input -> Forall (fun c => c <> 0) l -> length buf = 4096%nat -> (length l < 4096)%nat ->
  (l = [] \/ (exists l', l = l' ++ [10]) \/ (100 <= length l)%nat \/ input = []) ->
  ~ has_upgrade m -> ~ has_connection m ->
  header_loop fuel header_line n (strcpy_to buf l) m input = Some (m', r) ->
  ~ (has_upgrade m' /\ has_connection m').
Proof.
  induction fuel as [|fuel IH]; intros n buf l m input m' r Hi Hl Hb Hlen Hcase Hu Hc E; [done|].
  cbn [header_loop] in E. destruct (_ && _); [|injection E as <- _; naive_solver].
  rewrite length_strcpy_to in E by lia. rewrite Hb in E.
  destruct (read_line (4096 - 1) input) as [l1 r1] eqn:E1.
  destruct (read_line_cases _ _ _ _ Hi E1) as (H1 & H2 & H3 & H4).
  assert (Hcase' : (l = [] \/ (exists l', l = l' ++ [10]) \/ (100 <= length l)%nat) \/ input = []) by tauto.
  destruct Hcase' as [Hh| ->].
  - destruct (header_line_harmless buf l m Hl Hh) as [G1 G2].
    eapply IH in E; [exact E|done|done| |lia| |naive_solver|naive_solver].
    + rewrite length_strcpy_to; [done|lia].
    + destruct H4 as [H4|[H4|H4]]; [by right; left|right; right; left; lia|by right; right; right].
  - injection E1 as <- <-. destruct fuel as [|fuel]; [done|]. cbn [header_loop] in E.
    change (Z.of_nat (length (@nil Z))) with 0 in E. cbn [andb] in E. change (0 <? 0) with false in E. cbn [andb] in E.
    injection E as <- _. by apply header_line_one.
Qed.

(** What the headers of a request can be. *)
Lemma init_no_handshake junk u q post s : Forall (fun c => c <> 0) (c_in s) ->
  exists r s', init numchars (request_new junk u q post) s = (inr r, s') /\ c_out s' = c_out s /\
    ~ (has_upgrade (paseredheader r) /\ has_connection (paseredheader r)).
Proof.
  intros Hi. unfold init, readheader. cbn [inited request_new paseredheader]. unfold bind, read_headers.
  assert (B : replicate 4096 0 = strcpy_to (replicate 4096 0) []) by reflexivity.
  destruct (header_loop_ends header_line (S (S (length (c_in s)))) numchars (replicate 4096 0) ∅ (c_in s))
    as [[m rest] E]; [destruct (0 <? numchars); lia|].
  rewrite E. eexists _, _. split; [reflexivity|]. split; [done|]. cbn [paseredheader with_headers].
  rewrite B in E.
  apply (header_loop_no_handshake _ _ (replicate 4096 0) [] ∅ _ m rest) in E; try done;
    [cbn; lia|by left].
Qed.

Lemma of_parsed_run p s : p <> None ->
  (exists m, of_parsed p s = (inr m, s)) \/ of_parsed p s = (inl OutOfBounds, s).
Proof. destruct p as [[m|]|]; [left; by exists m|by right|done]. Qed.

(** C27. No browser gets a websocket: of a request without NUL bytes -- every
    handshake of RFC 6455 among them -- the header values keep their blank and
    their line feed, so they never equal what [callback] compares them with, and
    the connection is closed (or, for a query or a cookie without its last
    separator, the parser has left its string before). *)
Theorem websocket_never_opens junk u q post s (Hi : Forall (fun c => c <> 0) (c_in s)) :
  match ws_callback (request_new junk u q post) s with
  | (inl e, s') => e = OutOfBounds /\ c_out s' = c_out s
  | (inr _, s') => c_out s' = c_out s ++ [Close]
  end.
Proof.
  destruct (init_no_handshake junk u q post s Hi) as (r & s' & E & Ho & Hn).
  assert (Hr : inited r = true).
  { unfold init, readheader in E. cbn [inited request_new] in E. unfold bind, ret in E.
    destruct (read_headers _ _ _ _ s) as [[?|?] ?]; [done|]. by injection E as <- _. }
  unfold ws_callback, bind at 1. rewrite E. unfold req_query_decode, bind at 1 2.
  destruct (of_parsed_run (query_decode (query r) (paseredquery r)) s') as [[mq ->] | ->];
    [by apply decode_field_some| |done].
  unfold ret at 1. unfold getcookie, init, bind at 1 2. cbn [inited with_query]. rewrite Hr. unfold ret at 1 2.
  cbn [paseredheader with_query].
  set (r2 := snd (match paseredheader r !! k_cookie with
                  | None => (false, with_query r mq)
                  | Some v => (true, with_cookie (with_query r mq) (Some (c_str v ++ [0])) (paseredcookie (with_query r mq)))
                  end)).
  assert (H2 : paseredheader r2 = paseredheader r) by (unfold r2; by destruct (paseredheader r !! k_cookie)).
  destruct (match paseredheader r !! k_cookie with None => _ | Some v => _ end) as [ok r2'].
  cbn [snd] in r2. subst r2. unfold req_cookie_decode, bind at 1 2.
  destruct (of_parsed_run (cookie_decode (cookie r2') (paseredcookie r2')) s') as [[mc ->] | ->];
    [by apply decode_field_some| |done].
  unfold ret at 1. unfold header. cbn [paseredheader with_cookie]. rewrite H2.
  unfold has_upgrade, has_connection in Hn.
  destruct (decide (default [] (paseredheader r !! k_upgrade) = v_websocket)) as [D1|D1].
  - rewrite (bool_decide_eq_true_2 _ D1). rewrite (bool_decide_eq_false_2 (_ = v_upgrade)) by tauto.
    cbn. by rewrite Ho.
  - rewrite (bool_decide_eq_false_2 _ D1). cbn. by rewrite Ho.
Qed.
End Handlers.

(** ** Witnesses *)

(** The example of RFC 6455. *)
Definition rfc_handshake : list Z := Eval compute in
  render_headers [(lit "Host", lit " server.example.com"); (lit "Upgrade", lit " websocket");
                  (lit "Connection", lit " Upgrade"); (lit "Sec-WebSocket-Key", lit " dGhlIHNhbXBsZSBub25jZQ==")] ++ crlf.

Lemma rfc_handshake_text : forallb (fun c => negb (c =? 0)) rfc_handshake = true.
Proof. reflexivity. Qed.

Lemma websocket_never_opens_witness :
  match ws_callback 1 (fun x => x) [] (request_new [] (lit "/websocket") None false) (mk_conn rfc_handshake [] 1) with
  | (inl e, s') => e = OutOfBounds /\ c_out s' = []
  | (inr _, s') => c_out s' = [] ++ [Close]
  end.
Proof.
  refine (websocket_never_opens 1 (fun x => x) [] [] (lit "/websocket") None false (mk_conn rfc_handshake [] 1) _).
  apply List.Forall_forall. intros c Hc. pose proof rfc_handshake_text as H.
  rewrite forallb_forall in H. specialize (H c Hc). intros ->. discriminate.
Defined.

(** A site with one file. *)
Definition w_web : site :=
  mk_site None (web_handlers 1 4096 (fun _ => None) []) (web_ws 1 (fun x => x) []) [] Mime 65536 16 false
    (fun _ _ _ _ => None) (fun p => if bool_decide (p = lit "static/a.txt") then Some (false, false) else None)
    (fun p => if bool_decide (p = lit "static/a.txt") then (5, [104; 105]) else (-1, []))
    true (fun _ _ _ => []) (replicate 1024 0) (replicate 255 0) [] [].

Lemma webserver_contained_witness :
  let s := mk_conn (request_text get_m (lit "/a.txt") [] crlf) [] 0 in
  exists es, c_out (snd (accept_request w_web s)) = [] ++ es /\
    forall p, Open p ∈ es -> (exists r, p = static_dir ++ [47] ++ r) /\ dotdot p = false.
Proof.
  assert (U : hd 0 (request_url w_web (request_text get_m (lit "/a.txt") [] crlf)) = 47) by (vm_compute; reflexivity).
  destruct (webserver_contained 1 4096 (fun _ => None) (fun x => x) [] [] w_web
           (mk_conn (request_text get_m (lit "/a.txt") [] crlf) [] 0) eq_refl eq_refl) as (es & E & F).
  exists es. split; [exact E|]. intros p Hp. rewrite List.Forall_forall in F.
  apply list_elem_of_In in Hp. specialize (F _ Hp). cbv zeta in F. cbn [c_in] in F. rewrite U in F.
  destruct F as [[r F] D]. split; [exists r; rewrite F; reflexivity|exact D].
Defined.
