(* ===== verification/Template.v ===== *)
(** * Template: core/httpdtemplate.hpp

    [tpl::render] copies a template and replaces its tags by the strings
    assigned to their names: "<!--", the name in braces, "-->".  The file is read
    byte by byte; behind every "<" it looks ahead with [pread]. *)

From stdpp Require Import gmap.
From S2P Require Import Prelude Hash Text HttpParser.
#[local] Open Scope Z_scope.

(** [while *bufp]: the text up to the closing brace and the rest of the mark;
    [None] if the buffer holds none.  Behind the last byte of the buffer is its
    NUL, which ends the comparison. *)
Fixpoint find_close (l : list Z) : option (list Z) :=
  match l with
  | [] => None
  | c :: l' =>
      if c =? 0 then None
      else if (c =? 125) && (getn l' 0 =? 45) && (getn l' 1 =? 45) && (getn l' 2 =? 62) then Some []
      else option_map (cons c) (find_close l')
  end.

(** [while(read(fd,&buf,1)>0) if(buf=='>') break;] *)
Fixpoint skip_past (c : Z) (rest : list Z) : list Z :=
  match rest with
  | [] => []
  | x :: rest => if x =? c then rest else skip_past c rest
  end.

(** [rest]: the file from the current position; [bufdata]: the 33 bytes looked
    at, of which a short [pread] leaves the last ones as they were.  The result
    is what the callback is given; [None]: out of fuel. *)
Fixpoint render_loop (fuel : nat) (assign : strmap) (rest bufdata : list Z) : option (list Z) :=
  match fuel with
  | O => None
  | S fuel =>
      match rest with
      | [] => Some []
      | buf :: rest =>
          if buf =? 0 then Some []
          else if buf =? 60 then
            match rest with
            | [] => Some []
            | _ =>
                let l := take 32 rest in
                let bufdata := setn (l ++ drop (length l) bufdata) 32 0 in
                if (getn bufdata 0 =? 33) && (getn bufdata 1 =? 45) && (getn bufdata 2 =? 45) &&
                   (getn bufdata 3 =? 123)
                then
                  match find_close (drop 4 bufdata) with
                  | None => option_map (cons buf) (render_loop fuel assign rest bufdata)
                  | Some name =>
                      let bufdata := setn bufdata (4 + length name) 0 in
                      let rest := skip_past 62 rest in
                      let v := match name with
                               | [] => []
                               | _ => match assign !! name with Some v => c_str v | None => [] end
                               end in
                      option_map (app v) (render_loop fuel assign rest bufdata)
                  end
                else option_map (cons buf) (render_loop fuel assign rest bufdata)
            end
          else option_map (cons buf) (render_loop fuel assign rest bufdata)
      end
  end.

(** [render], with a callback set, on the bytes of the file; [junk]: [bufdata]
    before it is written. *)
Definition render (assign : strmap) (file junk : list Z) : option (list Z) :=
  render_loop (S (length file)) assign file junk.

(** The assignments [lua_template] makes, one after the other: a key of more than
    30 characters ends it without a rendering. *)
Fixpoint lua_assign (m : strmap) (pairs : list (list Z * list Z)) : option strmap :=
  match pairs with
  | [] => Some m
  | (p, v) :: pairs => if (30 <? length (c_str p))%nat then None else lua_assign (<[c_str p := c_str v]> m) pairs
  end.
Definition lua_template (pairs : list (list Z * list Z)) (file junk : list Z) : option (option (list Z)) :=
  match lua_assign ∅ pairs with
  | None => Some None
  | Some m => option_map Some (render m file junk)
  end.

(** ** What it renders *)

(** A template as text and tags. *)
Inductive seg := Chars (t : list Z) | Tag (n : list Z).

Definition tag_open : list Z := [33; 45; 45; 123].
Definition tag_close : list Z := [125; 45; 45; 62].
Definition tag_text (n : list Z) : list Z := 60 :: tag_open ++ n ++ tag_close.
Definition seg_text (s : seg) : list Z := match s with Chars t => t | Tag n => tag_text n end.
Definition template_text (segs : list seg) : list Z := concat (map seg_text segs).

(** [r] has a byte that is not the one of [o] at its place. *)
Fixpoint differs (o r : list Z) : bool :=
  match o, r with
  | x :: o, y :: r => if y =? x then differs o r else true
  | _, _ => false
  end.

(** What may follow a "<" that is text: something that is not the opening of a tag, or an
    opening that is not closed within the 32 bytes looked at. *)
Definition opens_no_tag (r : list Z) : Prop :=
  differs tag_open r = true \/ (32 <= length r)%nat /\ find_close (drop 4 (take 32 r) ++ [0]) = None.

Fixpoint text_ok (t rest : list Z) : Prop :=
  match t with
  | [] => True
  | c :: t => c <> 0 /\ (c = 60 -> opens_no_tag (t ++ rest)) /\ text_ok t rest
  end.
Definition tag_chars (n : list Z) : Prop := Forall (fun c => c <> 0 /\ c <> 60 /\ c <> 62 /\ c <> 125) n.
Fixpoint template_ok (segs : list seg) : Prop :=
  match segs with
  | [] => True
  | Chars t :: segs => text_ok t (template_text segs) /\ template_ok segs
  | Tag n :: segs => tag_chars n /\ template_ok segs
  end.

(** What becomes of it: the mark has to fit the 32 bytes that are looked at. *)
Definition seg_out (assign : strmap) (s : seg) : list Z :=
  match s with
  | Chars t => t
  | Tag n =>
      if (24 <? length n)%nat then tag_text n
      else match n with [] => [] | _ => match assign !! n with Some v => c_str v | None => [] end end
  end.

Lemma find_close_app n : forall tl, Forall (fun c => c <> 0 /\ c <> 125) n ->
  find_close (n ++ tl) = option_map (app n) (find_close tl).
Proof.
  induction n as [|c n IH]; intros tl Hn; [cbn [app]; by destruct (find_close tl)|].
  apply Forall_cons_iff in Hn as [[H0 H1] Hn]. cbn [app find_close].
  destruct (Z.eqb_spec c 0); [done|]. destruct (Z.eqb_spec c 125); [done|]. cbn [andb].
  rewrite IH by done. by destruct (find_close tl).
Qed.

Lemma skip_past_stop c l rest : Forall (fun x => x <> c) l -> skip_past c (l ++ c :: rest) = rest.
Proof.
  induction 1 as [|x l Hx _ IH]; cbn [app skip_past]; [by rewrite Z.eqb_refl|].
  by destruct (Z.eqb_spec x c).
Qed.

(** What is looked at behind a "<". *)
Definition window (rest bufdata : list Z) : list Z :=
  setn (take 32 rest ++ drop (length (take 32 rest)) bufdata) 32 0.

Lemma window_short l more bufdata : length bufdata = 33%nat -> (length l <= 32)%nat ->
  exists tl, window (l ++ more) bufdata = l ++ tl /\ length (window (l ++ more) bufdata) = 33%nat.
Proof.
  intros Hb Hl. unfold window. rewrite take_app. rewrite (take_ge l) by done.
  assert (E : forall m d : list Z, length (m ++ d) = 33%nat -> length (setn (m ++ d) 32 0) = 33%nat)
    by (intros; by rewrite length_setn).
  set (m := take _ more). rewrite <- app_assoc. set (tl := m ++ _).
  assert (Lt : length (l ++ tl) = 33%nat).
  { unfold tl. rewrite !length_app, length_drop, Hb, ?length_app.
    assert (length l + length m <= 32)%nat; [|lia]. unfold m. rewrite length_take. lia. }
  exists (setn tl (32 - length l) 0). split; [|by rewrite length_setn].
  unfold setn. by rewrite insert_app_r_alt.
Qed.

Lemma window_long l more bufdata : (32 <= length l)%nat -> length bufdata = 33%nat ->
  window (l ++ more) bufdata = take 32 l ++ [0].
Proof.
  intros Hl Hb. unfold window. rewrite take_app_le by done.
  assert (L : length (take 32 l) = 32%nat) by (rewrite length_take; lia). rewrite L.
  destruct bufdata as [|x0 bufdata]; [done|].
  assert (D : exists x, drop 32 (x0 :: bufdata) = [x]).
  { assert (LD : length (drop 32 (x0 :: bufdata)) = 1%nat) by (rewrite length_drop, Hb; done).
    destruct (drop 32 (x0 :: bufdata)) as [|x [|y d]]; [done| |done]. by exists x. }
  destruct D as [x ->]. unfold setn. rewrite insert_app_r_alt by lia. by rewrite L.
Qed.

Lemma render_lt fuel assign rest bufdata : rest <> [] ->
  render_loop (S fuel) assign (60 :: rest) bufdata =
  let b := window rest bufdata in
  if (getn b 0 =? 33) && (getn b 1 =? 45) && (getn b 2 =? 45) && (getn b 3 =? 123) then
    match find_close (drop 4 b) with
    | None => option_map (cons 60) (render_loop fuel assign rest b)
    | Some name =>
        option_map (app match name with
                        | [] => []
                        | _ => match assign !! name with Some v => c_str v | None => [] end
                        end)
          (render_loop fuel assign (skip_past 62 rest) (setn b (4 + length name) 0))
    end
  else option_map (cons 60) (render_loop fuel assign rest b).
Proof. intros Hr. cbn [render_loop]. destruct rest; [done|]. done. Qed.

(** The window begins as the file goes on. *)
Lemma window_spec rest bufdata i : (i < length rest)%nat -> (i < 32)%nat -> getn (window rest bufdata) i = getn rest i.
Proof.
  intros H1 H2. unfold window, getn, setn. rewrite !nth_lookup, list_lookup_insert_ne by lia.
  rewrite lookup_app_l by (rewrite length_take; lia). by rewrite lookup_take_lt by lia.
Qed.

Lemma length_window rest bufdata : length bufdata = 33%nat -> length (window rest bufdata) = 33%nat.
Proof. intros Hb. unfold window. rewrite length_setn, length_app, length_drop, Hb, length_take. lia. Qed.

Lemma differs_window r bufdata : differs tag_open r = true ->
  let b := window r bufdata in (getn b 0 =? 33) && (getn b 1 =? 45) && (getn b 2 =? 45) && (getn b 3 =? 123) = false.
Proof.
  cbv zeta. unfold tag_open. destruct r as [|x0 r]; [discriminate|]. rewrite (window_spec _ _ 0) by (cbn [length]; lia).
  change (getn (x0 :: r) 0) with x0. cbn [differs]. destruct (x0 =? 33); cbn [andb]; [|done].
  destruct r as [|x1 r]; [discriminate|]. rewrite (window_spec _ _ 1) by (cbn [length]; lia). change (getn (x0 :: x1 :: r) 1) with x1.
  cbn [differs]. destruct (x1 =? 45); cbn [andb]; [|done].
  destruct r as [|x2 r]; [discriminate|]. rewrite (window_spec _ _ 2) by (cbn [length]; lia). change (getn (x0 :: x1 :: x2 :: r) 2) with x2.
  cbn [differs]. destruct (x2 =? 45); cbn [andb]; [|done].
  destruct r as [|x3 r]; [discriminate|]. rewrite (window_spec _ _ 3) by (cbn [length]; lia). change (getn (x0 :: x1 :: x2 :: x3 :: r) 3) with x3.
  cbn [differs]. by destruct (x3 =? 123).
Qed.

(** A "<" that opens no tag is copied. *)
Lemma render_lt_text fuel assign r bufdata : opens_no_tag r -> length bufdata = 33%nat ->
  render_loop (S fuel) assign (60 :: r) bufdata = option_map (cons 60) (render_loop fuel assign r (window r bufdata)).
Proof.
  intros Hr Hb. rewrite render_lt by (intros ->; destruct Hr as [?|[Hl _]]; [done|cbn in Hl; lia]). cbv zeta.
  destruct Hr as [D|[Hl N]]; [by rewrite (differs_window r bufdata D)|].
  pose proof (window_long r [] bufdata Hl Hb) as W. rewrite app_nil_r in W.
  assert (E : find_close (drop 4 (window r bufdata)) = None).
  { rewrite W. rewrite drop_app_le by (rewrite length_take; lia). exact N. }
  rewrite E. by destruct (_ && _).
Qed.

(** Text is copied. *)
Lemma render_text assign t : forall fuel rest bufdata, text_ok t rest -> length bufdata = 33%nat -> (length t <= fuel)%nat ->
  exists b, length b = 33%nat /\
  render_loop fuel assign (t ++ rest) bufdata = option_map (app t) (render_loop (fuel - length t) assign rest b).
Proof.
  induction t as [|c t IH]; intros fuel rest bufdata Ht Hb Hf.
  - exists bufdata. split; [done|]. cbn [app length]. rewrite Nat.sub_0_r. by destruct (render_loop fuel assign rest bufdata).
  - destruct fuel as [|fuel]; [cbn in Hf; lia|]. destruct Ht as (H0 & H1 & Ht). cbn [app length Nat.sub].
    assert (Hf' : (length t <= fuel)%nat) by (cbn in Hf; lia). destruct (Z.eqb_spec c 60) as [->|N].
    + destruct (IH fuel rest (window (t ++ rest) bufdata) Ht (length_window _ _ Hb) Hf') as (b & Lb & E).
      exists b. split; [done|]. rewrite render_lt_text, E by auto. by destruct (render_loop (fuel - length t) assign rest b).
    + destruct (IH fuel rest bufdata Ht Hb Hf') as (b & Lb & E). exists b. split; [done|]. cbn [render_loop].
      destruct (Z.eqb_spec c 0); [done|]. destruct (Z.eqb_spec c 60); [done|]. rewrite E. by destruct (render_loop (fuel - length t) assign rest b).
Qed.

Lemma plain_text_ok t rest : Forall (fun c => c <> 0 /\ c <> 60) t -> text_ok t rest.
Proof. induction 1 as [|c t [H1 H2] _ IH]; [done|]. by split; [|split]. Qed.

(** A tag that fits the window is replaced. *)
Lemma render_tag n fuel assign more bufdata : tag_chars n -> (length n <= 24)%nat -> length bufdata = 33%nat ->
  exists b, length b = 33%nat /\
  render_loop (S fuel) assign (tag_text n ++ more) bufdata
  = option_map (app (seg_out assign (Tag n))) (render_loop fuel assign more b).
Proof.
  intros Hn Hl Hb. unfold tag_text. cbn [app]. rewrite render_lt by done. cbv zeta.
  set (l := tag_open ++ n ++ tag_close).
  destruct (window_short l more bufdata Hb) as (tl & Ew & Lw).
  { unfold l. rewrite !length_app. change (length tag_open) with 4%nat. change (length tag_close) with 4%nat. lia. }
  rewrite Ew in *. unfold l in *. rewrite <- !app_assoc in *. cbn [tag_open app getn nth drop] in *.
  unfold getn. cbn [nth]. cbn [Z.eqb Pos.eqb andb]. rewrite drop_0.
  rewrite find_close_app by (eapply List.Forall_impl, Hn; naive_solver).
  cbn [tag_close app find_close]. unfold getn. cbn [nth Z.eqb Pos.eqb andb option_map].
  rewrite app_nil_r. unfold seg_out. destruct (Nat.ltb_spec 24 (length n)); [lia|].
  eexists. split; [|f_equal].
  - by rewrite length_setn.
  - f_equal. cbn [skip_past]. change (33 =? 62) with false. change (45 =? 62) with false. change (123 =? 62) with false. cbv iota.
    replace (n ++ 125 :: 45 :: 45 :: 62 :: more) with ((n ++ [125; 45; 45]) ++ 62 :: more) by by rewrite <- app_assoc.
    apply skip_past_stop. apply Forall_app. split; [eapply List.Forall_impl, Hn; naive_solver|by repeat constructor].
Qed.

Lemma find_close_cut n : tag_chars n -> (25 <= length n)%nat ->
  find_close (take 28 (n ++ tag_close) ++ [0]) = None.
Proof.
  intros Hn Hl. assert (Hn' : Forall (fun c => c <> 0 /\ c <> 125) n) by (eapply List.Forall_impl, Hn; naive_solver).
  rewrite take_app, <- app_assoc, find_close_app by by apply Forall_take.
  assert (H : (28 - length n = 0 \/ 28 - length n = 1 \/ 28 - length n = 2 \/ 28 - length n = 3)%nat) by lia.
  by destruct H as [-> | [-> | [-> | ->]]].
Qed.

(** A longer tag stays as it is: it is text. *)
Lemma long_tag_text n rest : tag_chars n -> (25 <= length n)%nat -> text_ok (tag_text n) rest.
Proof.
  intros Hn Hl. unfold tag_text. split; [done|]. split.
  - intros _. right. set (l := tag_open ++ n ++ tag_close). assert (Ll : (32 <= length l)%nat).
    { unfold l. rewrite !length_app. change (length tag_open) with 4%nat. change (length tag_close) with 4%nat. lia. }
    split; [rewrite length_app; lia|]. rewrite take_app_le by done. by apply find_close_cut.
  - apply plain_text_ok. apply Forall_app. split; [by repeat constructor|]. apply Forall_app. split; [|by repeat constructor].
    eapply List.Forall_impl, Hn. naive_solver.
Qed.

Lemma render_segs assign segs : forall fuel bufdata, template_ok segs -> length bufdata = 33%nat ->
  (length (template_text segs) < fuel)%nat ->
  render_loop fuel assign (template_text segs) bufdata = Some (concat (map (seg_out assign) segs)).
Proof.
  induction segs as [|sg segs IH]; intros fuel bufdata Hs Hb Hf; [destruct fuel; [cbn in Hf; lia|done]|].
  change (template_text (sg :: segs)) with (seg_text sg ++ template_text segs) in *. rewrite length_app in Hf.
  assert (T : forall t, text_ok t (template_text segs) -> template_ok segs -> seg_text sg = t -> seg_out assign sg = t ->
    render_loop fuel assign (seg_text sg ++ template_text segs) bufdata = Some (concat (map (seg_out assign) (sg :: segs)))).
  { intros t Ht Hs' E1 E2. rewrite E1 in *. destruct (render_text assign t fuel (template_text segs) bufdata Ht Hb ltac:(lia)) as (b & Lb & ->).
    rewrite IH by (done || lia). cbn [map concat option_map]. by rewrite E2. }
  destruct sg as [t|n]; [by apply (T t); try apply Hs|]. destruct Hs as [Hn Hs]. destruct (Nat.ltb_spec 24 (length n)) as [Hl|Hl].
  - apply (T (tag_text n)); [by apply long_tag_text|done|done|]. cbn [seg_out]. by rewrite (proj2 (Nat.ltb_lt _ _) Hl).
  - clear T. destruct fuel as [|fuel]; [lia|]. cbn [seg_text] in *.
    destruct (render_tag n fuel assign (template_text segs) bufdata Hn Hl Hb) as (b & Lb & ->).
    rewrite IH; [done..|]. unfold tag_text in Hf. cbn [length] in Hf. lia.
Qed.


