(* ===== verification/FastCgi.v ===== *)
(** * FastCgi: core/httpdfastcgi.hpp

    The records sent to a FastCGI server, what is made of its answer, and the
    simplification of the path of the script.  The connection to the FastCGI
    server is the list of bytes sent to it or received from it. *)

From S2P Require Import Prelude Hash Func Text HttpIo HttpRequest Httpd.
#[local] Open Scope Z_scope.

(** ** Records *)

Definition FCGI_VERSION_1 : Z := 1.
Definition FCGI_MAX_LEN : Z := 30000.
Definition FCGI_HEADER_LEN : nat := 8.
Definition FCGI_BEGIN_REQUEST : Z := 1.
Definition FCGI_END_REQUEST : Z := 3.
Definition FCGI_PARAMS : Z := 4.
Definition FCGI_STDIN : Z := 5.
Definition FCGI_STDOUT : Z := 6.
Definition FCGI_STDERR : Z := 7.
Definition FCGI_RESPONDER : Z := 1.

(** [struct FCGI_Header], in memory order. *)
Definition makeHeader (type requestId contentLength paddingLength : Z) : list Z :=
  [FCGI_VERSION_1; u8 type; Z.land (Z.shiftr requestId 8) 0xff; Z.land requestId 0xff;
   Z.land (Z.shiftr contentLength 8) 0xff; Z.land contentLength 0xff; u8 paddingLength; 0].

Definition makeBeginRequestBody (role : Z) : list Z :=
  [Z.land (Z.shiftr role 8) 0xff; Z.land role 0xff; 0; 0; 0; 0; 0; 0].

Definition padding_of (n : Z) : Z := if n mod 8 =? 0 then 0 else 8 - n mod 8.

Record http_header := mk_hr { hr_method : list Z; hr_path : list Z; hr_param : list Z; hr_contype : list Z; hr_conlength : list Z }.

(** A parameter: the two lengths are one byte each. *)
Definition params_record (requestId : Z) (name value : list Z) : list Z :=
  let conLength := Z.of_nat (length name) + Z.of_nat (length value) + 2 in
  let paddingLength := padding_of conLength in
  makeHeader FCGI_PARAMS requestId conLength paddingLength ++
  [u8 (Z.of_nat (length name)); u8 (Z.of_nat (length value))] ++ name ++ value ++
  replicate (Z.to_nat paddingLength) 0.

(** [for(j=0;j<send_len;j++)]: eight bytes are received and passed on each time, as
    long as there are any. *)
Definition copy_stdin (send_len : Z) (input : list Z) : list Z * list Z :=
  let n := Z.to_nat (8 * send_len) in (take n input, drop n input).

(** [while(len>0)] *)
Fixpoint send_stdin (fuel : nat) (requestId len : Z) (input : list Z) : option (list Z * list Z) :=
  match fuel with
  | O => None
  | S fuel =>
      if 0 <? len then
        let send_len := if FCGI_MAX_LEN <? len then FCGI_MAX_LEN else len in
        let paddingLength := padding_of send_len in
        let '(body, input) := copy_stdin send_len input in
        match send_stdin fuel requestId (len - send_len) input with
        | None => None
        | Some (more, input) =>
            Some (makeHeader FCGI_STDIN requestId send_len paddingLength ++ body ++
                  replicate (Z.to_nat paddingLength) 0 ++ more, input)
        end
      else Some ([], input)
  end.

(** ** buffer_path_simplify

    In place: [mem] is both [src] and [dest], [walk], [out] and [slash] are offsets
    in it. *)
Record bps := mk_bps { b_mem : list Z; b_walk : nat; b_out : nat; b_slash : nat; b_pre : Z; b_c : Z }.

(** [while(out > start && *out != '/') out--;] *)
Fixpoint back_to_slash (mem : list Z) (out : nat) : nat :=
  match out with
  | O => O
  | S out' => if getn mem out =? 47 then out else back_to_slash mem out'
  end.

Definition bps_slash (s : bps) : bps :=
  if (b_c s =? 47) || (b_c s =? 0) then
    let count := (b_out s - b_slash s)%nat in
    let out :=
      if (count =? 3)%nat && (b_pre s =? 46) then
        let out := b_slash s in
        let out := match out with O => O | S out' => back_to_slash (b_mem s) out' end in
        if b_c s =? 0 then S out else out
      else if (count =? 1)%nat || (b_pre s =? 46) then
        if b_c s =? 0 then S (b_slash s) else b_slash s
      else b_out s in
    mk_bps (b_mem s) (b_walk s) out out (b_pre s) (b_c s)
  else s.

Fixpoint bps_loop (fuel : nat) (s : bps) : option (list Z) :=
  match fuel with
  | O => None
  | S fuel =>
      let s := bps_slash s in
      if b_c s =? 0 then Some (setn (b_mem s) (b_out s) 0)
      else
        let pre := b_c s in
        let c := getn (b_mem s) (b_walk s) in
        bps_loop fuel (mk_bps (setn (b_mem s) (b_out s) pre) (S (b_walk s)) (S (b_out s)) (b_slash s) pre c)
  end.

Fixpoint skip_blanks (fuel : nat) (mem : list Z) (walk : nat) : nat :=
  match fuel with
  | O => walk
  | S fuel => if getn mem walk =? 32 then skip_blanks fuel mem (S walk) else walk
  end.

Definition buffer_path_simplify (mem : list Z) : option (list Z) :=
  let walk := skip_blanks (length mem) mem 0 in
  let pre := getn mem walk in
  let c := getn mem (S walk) in
  let '(mem, out) := if negb (pre =? 47) then (setn mem 0 47, 1%nat) else (mem, 0%nat) in
  let mem := setn mem out pre in
  let out := S out in
  if pre =? 0 then Some (setn mem out 0)
  else bps_loop (S (length mem)) (mk_bps mem (S (S walk)) out 0 pre c).

(** *** What it computes *)

(** A path by its components, each behind a slash. *)
Definition render (comps : list (list Z)) : list Z := concat (map (cons 47) comps).
Fixpoint components (s : list Z) : list (list Z) :=
  match s with
  | [] => [[]]
  | c :: s =>
      if c =? 47 then [] :: components s
      else match components s with w :: ws => (c :: w) :: ws | [] => [[c]] end
  end.

(** A component that is dropped: an empty one, or one that ends in a dot.  One of
    two bytes also takes away the component before it: the code tells ".." by
    its length and its last byte. *)
Definition special (c : list Z) : bool :=
  match c with [] => true | _ => List.last c 0 =? 46 end.
Definition comp_step (stack : list (list Z)) (c : list Z) : list (list Z) :=
  if special c then if (length c =? 2)%nat then removelast stack else stack else stack ++ [c].
Fixpoint simplify (stack comps : list (list Z)) : list Z :=
  match comps with
  | [] => render stack
  | [c] => render (comp_step stack c) ++ (if special c then [47] else [])
  | c :: comps => simplify (comp_step stack c) comps
  end.

Definition comp_ok (c : list Z) : Prop := Forall (fun x => x <> 0 /\ x <> 47) c.

Lemma render_app a b : render (a ++ b) = render a ++ render b.
Proof. unfold render. by rewrite map_app, concat_app. Qed.

Lemma render_one c : render [c] = 47 :: c.
Proof. unfold render. cbn. by rewrite app_nil_r. Qed.

Lemma render_non_nul stack : Forall comp_ok stack -> Forall (fun x => x <> 0) (render stack).
Proof.
  induction 1 as [|c stack Hc _ IH]; [constructor|]. unfold render in *. cbn [map concat].
  apply Forall_app. split; [|done]. constructor; [done|]. eapply List.Forall_impl, Hc. naive_solver.
Qed.

(** The array holds what has been put out and, from [walk] on, what is to come. *)
Record bps_inv (s : bps) (stack : list (list Z)) (cur rest : list Z) : Prop := {
  inv_stack : Forall comp_ok stack;
  inv_cur : comp_ok cur;
  inv_out : take (b_out s) (b_mem s) = render stack ++ 47 :: cur;
  inv_len : b_out s = (length (render stack) + 1 + length cur)%nat;
  inv_slash : b_slash s = length (render stack);
  inv_pre : b_pre s = List.last (47 :: cur) 0;
  inv_rest : exists tl, tl <> [] /\ b_c s :: drop (b_walk s) (b_mem s) = rest ++ 0 :: tl;
  inv_gap : (b_out s <= b_walk s)%nat
}.

Lemma getn_take l n i : (i < n)%nat -> getn l i = getn (take n l) i.
Proof. intros. unfold getn. rewrite !nth_lookup. by rewrite lookup_take_lt. Qed.

Lemma take_take_le (l : list Z) n m : (n <= m)%nat -> take n (take m l) = take n l.
Proof. intros. rewrite take_take. by rewrite Nat.min_l. Qed.

Lemma back_to_slash_spec mem a p : comp_ok p ->
  take (length a + 1 + length p) mem = a ++ 47 :: p ->
  back_to_slash mem (length a + length p) = length a.
Proof.
  revert mem. induction p as [|x p IH] using rev_ind; intros mem Hp Ht.
  - rewrite Nat.add_0_r. cbn [length] in Ht. rewrite Nat.add_0_r in Ht.
    destruct (length a) as [|n] eqn:E; [done|]. cbn [back_to_slash].
    rewrite (getn_take mem (S n + 1)) by lia. rewrite Ht, <- E. unfold getn.
    rewrite app_nth2, Nat.sub_diag by lia. done.
  - apply Forall_app in Hp as [Hp Hx]. apply Forall_cons_iff in Hx as [[_ Hx] _].
    rewrite length_app in *. cbn [length] in *.
    replace (length a + (length p + 1))%nat with (S (length a + length p)) by lia. cbn [back_to_slash].
    rewrite (getn_take mem (length a + 1 + (length p + 1))) by lia. rewrite Ht.
    replace (getn (a ++ 47 :: p ++ [x]) (S (length a + length p))) with x.
    2: { unfold getn. replace (a ++ 47 :: p ++ [x]) with ((a ++ 47 :: p) ++ [x]) by by rewrite <- app_assoc.
         rewrite app_nth2; rewrite length_app; cbn [length]; [|lia].
         by replace (S (length a + length p) - (length a + S (length p)))%nat with 0%nat by lia. }
    destruct (Z.eqb_spec x 47); [done|]. apply IH; [done|].
    rewrite <- (take_take_le mem (length a + 1 + length p) (length a + 1 + (length p + 1))) by lia.
    rewrite Ht. replace (a ++ 47 :: p ++ [x]) with ((a ++ 47 :: p) ++ [x]) by by rewrite <- app_assoc.
    apply take_app_length'. rewrite length_app. cbn [length]. lia.
Qed.

(** The output when a component ends: that of the new stack, with the slash behind
    it when the string ends there and the component is dropped. *)
Definition ended (c : Z) (stack : list (list Z)) (cur : list Z) : list Z :=
  render (comp_step stack cur) ++ (if (c =? 0) && special cur then [47] else []).

Lemma comp_step_ok stack cur : Forall comp_ok stack -> comp_ok cur -> Forall comp_ok (comp_step stack cur).
Proof.
  intros Hs Hc. unfold comp_step. destruct (special cur).
  - destruct (_ =? _)%nat; [|done]. destruct stack as [|p stack _] using rev_ind; [done|].
    rewrite removelast_last. by apply Forall_app in Hs as [Hs _].
  - apply Forall_app. split; [done|by constructor].
Qed.

(** It is a part of what was there. *)
Lemma ended_prefix c stack cur : exists b, render stack ++ 47 :: cur = ended c stack cur ++ b.
Proof.
  unfold ended, comp_step. destruct (special cur).
  - rewrite andb_true_r. destruct (_ =? _)%nat.
    + destruct stack as [|p stack _] using rev_ind.
      * destruct (c =? 0); [by exists cur|by exists (47 :: cur)].
      * rewrite removelast_last, render_app, render_one.
        destruct (c =? 0); [exists (p ++ 47 :: cur)|exists (47 :: p ++ 47 :: cur)]; by rewrite <- !app_assoc.
    + destruct (c =? 0); [exists cur|exists (47 :: cur)]; by rewrite <- !app_assoc.
  - exists []. by rewrite andb_false_r, !app_nil_r, render_app, render_one.
Qed.

Lemma length_ended c stack cur : length (ended c stack cur) =
  (length (render (comp_step stack cur)) + (if (c =? 0)%Z && special cur then 1 else 0))%nat.
Proof. unfold ended. rewrite length_app. by destruct (_ && _). Qed.

Lemma pop_length mem stack p cur n : comp_ok p ->
  take n mem = render (stack ++ [p]) ++ 47 :: cur -> n = (length (render (stack ++ [p])) + 1 + length cur)%nat ->
  match length (render (stack ++ [p])) with O => O | S out' => back_to_slash mem out' end = length (render stack).
Proof.
  intros Hp Ht Hn. rewrite render_app, render_one, length_app in *. cbn [length] in *.
  rewrite Nat.add_succ_r. apply back_to_slash_spec; [done|].
  rewrite <- (take_take_le mem _ n) by lia. rewrite Ht.
  replace (length (render stack) + 1 + length p)%nat with (length (render stack ++ 47 :: p))
    by (rewrite length_app; cbn [length]; lia).
  apply take_app_length.
Qed.

Lemma bps_out_length s stack cur rest : bps_inv s stack cur rest -> (b_c s =? 47) || (b_c s =? 0) = true ->
  b_out (bps_slash s) = length (ended (b_c s) stack cur).
Proof.
  intros I Hc. unfold bps_slash. rewrite Hc. cbn [b_out]. rewrite length_ended.
  destruct I as [Is _ It Il Isl Ip _ _]. rewrite Isl, Ip. rewrite Il in *.
  replace (length (render stack) + 1 + length cur - length (render stack))%nat with (S (length cur)) by lia.
  change (S (length cur) =? 3)%nat with (length cur =? 2)%nat.
  change (S (length cur) =? 1)%nat with (length cur =? 0)%nat.
  unfold comp_step. destruct cur as [|x cur].
  - change (special []) with true. cbn [length Nat.eqb andb orb]. rewrite andb_true_r.
    destruct (b_c s =? 0); lia.
  - change (List.last (47 :: x :: cur) 0) with (List.last (x :: cur) 0).
    change (special (x :: cur)) with (List.last (x :: cur) 0 =? 46).
    change (length (x :: cur) =? 0)%nat with false. cbn [orb].
    destruct (List.last (x :: cur) 0 =? 46); rewrite ?andb_true_r, ?andb_false_r.
    + destruct (_ =? 2)%nat; [|destruct (b_c s =? 0); lia].
      destruct stack as [|p stack _] using rev_ind; [by destruct (b_c s =? 0)|].
      apply Forall_app in Is as [_ Hp]. apply Forall_cons_iff in Hp as [Hp _].
      rewrite (pop_length (b_mem s) stack p (x :: cur) _ Hp It eq_refl), removelast_last.
      destruct (b_c s =? 0); lia.
    + rewrite render_app, render_one, length_app. cbn [length]. lia.
Qed.

(** What [bps_slash] leaves, when a component has ended. *)
Lemma bps_slash_spec s stack cur rest : bps_inv s stack cur rest -> (b_c s =? 47) || (b_c s =? 0) = true ->
  take (b_out (bps_slash s)) (b_mem s) = ended (b_c s) stack cur /\
  (b_out (bps_slash s) <= b_out s)%nat /\
  bps_slash s = mk_bps (b_mem s) (b_walk s) (b_out (bps_slash s)) (b_out (bps_slash s)) (b_pre s) (b_c s).
Proof.
  intros I Hc. rewrite (bps_out_length s stack cur rest) by done.
  destruct (ended_prefix (b_c s) stack cur) as [b E]. pose proof (inv_out _ _ _ _ I) as It.
  pose proof (f_equal length E) as L. rewrite !length_app in L. cbn [length] in L.
  rewrite (inv_len _ _ _ _ I) in *.
  split; [|split; [lia|]].
  - rewrite <- (take_take_le (b_mem s) _ (length (render stack) + 1 + length cur)) by lia.
    rewrite It, E. apply take_app_length.
  - rewrite <- (bps_out_length s stack cur rest) by done. unfold bps_slash. by rewrite Hc.
Qed.

(** The cells behind [walk] are as they were when a character is put out. *)
Lemma put_char mem walk out v c tl : (out <= walk)%nat -> drop walk mem = c :: tl ->
  getn mem walk = c /\ drop (S walk) (setn mem out v) = tl /\
  take (S out) (setn mem out v) = take out mem ++ [v].
Proof.
  intros Ho Hd. assert (L : (walk < length mem)%nat).
  { apply (f_equal length) in Hd. rewrite length_drop in Hd. cbn [length] in Hd. lia. }
  split; [|split].
  - unfold getn. rewrite <- (take_drop walk mem), app_nth2; rewrite length_take_le by lia; [|lia].
    by rewrite Nat.sub_diag, Hd.
  - unfold setn. rewrite drop_insert_lt by lia.
    replace (S walk) with (walk + 1)%nat by lia. by rewrite <- drop_drop, Hd.
  - unfold setn. rewrite (take_S_r _ out v) by (apply list_lookup_insert_eq; lia).
    by rewrite take_insert_ge by lia.
Qed.

Lemma components_cons c s : c <> 47 -> exists w ws, components s = w :: ws /\ components (c :: s) = (c :: w) :: ws.
Proof.
  intros Hc. cbn [components]. destruct (Z.eqb_spec c 47); [done|].
  assert (H : components s <> []).
  { destruct s as [|x s]; [done|]. cbn. destruct (x =? 47); [done|]. by destruct (components s). }
  destruct (components s) as [|w ws]; [done|]. by exists w, ws.
Qed.

(** The components still to come, the first one begun with [cur]. *)
Definition attach (cur : list Z) (comps : list (list Z)) : list (list Z) :=
  match comps with w :: ws => (cur ++ w) :: ws | [] => [cur] end.

Lemma bps_loop_spec rest : forall fuel s stack cur, bps_inv s stack cur rest ->
  Forall (fun x => x <> 0) rest -> (length rest < fuel)%nat ->
  exists mem, bps_loop fuel s = Some mem /\ c_str mem = simplify stack (attach cur (components rest)).
Proof.
  induction rest as [|c rest IH]; intros fuel s stack cur I Hr Hf; (destruct fuel as [|fuel]; [cbn in Hf; lia|]);
    cbn [bps_loop]; destruct (inv_rest _ _ _ _ I) as (tl & Htl & E); injection E as Ec Ed.
  - destruct (bps_slash_spec s stack cur [] I) as (H1 & H2 & H3); [by rewrite Ec|]. rewrite H3. cbn [b_c b_mem b_out].
    rewrite Ec in *. change (0 =? 0) with true. cbv iota. eexists. split; [reflexivity|].
    cbn [components attach simplify]. rewrite app_nil_r.
    unfold ended in H1. change (0 =? 0) with true in H1. cbn [andb] in H1. rewrite <- H1.
    destruct tl as [|x tl]; [done|].
    destruct (put_char (b_mem s) (b_walk s) (b_out (bps_slash s)) 0 x tl) as (_ & _ & P3); [|done|].
    { pose proof (inv_gap _ _ _ _ I). lia. }
    rewrite <- (take_drop (S (b_out (bps_slash s))) (setn _ _ _)), P3, <- app_assoc.
    apply c_str_nul. rewrite H1. apply Forall_app. split.
    + apply render_non_nul, comp_step_ok; apply I.
    + destruct (special cur); by repeat constructor.
  - apply Forall_cons_iff in Hr as [Hc Hr].
    destruct (rest ++ 0 :: tl) as [|d more] eqn:Ed'; [by destruct rest|].
    destruct (Z.eqb_spec c 47) as [E47|E47].
    + destruct (bps_slash_spec s stack cur (c :: rest) I) as (H1 & H2 & H3); [by rewrite Ec, E47|].
      rewrite H3. cbn [b_c b_mem b_out b_walk b_slash b_pre]. rewrite Ec in *.
      destruct (Z.eqb_spec c 0); [done|].
      destruct (put_char (b_mem s) (b_walk s) (b_out (bps_slash s)) c d more) as (P1 & P2 & P3); [|done|].
      { pose proof (inv_gap _ _ _ _ I). lia. }
      unfold ended in H1. rewrite E47 in H1. change (47 =? 0) with false in H1. cbn [andb] in H1. rewrite app_nil_r in H1.
      edestruct (IH fuel (mk_bps (setn (b_mem s) (b_out (bps_slash s)) c) (S (b_walk s)) (S (b_out (bps_slash s)))
                            (b_out (bps_slash s)) c (getn (b_mem s) (b_walk s))) (comp_step stack cur) [])
        as (mem & M1 & M2); [|done|cbn in Hf; lia|].
      * pose proof (bps_out_length s stack cur (c :: rest) I) as Lo. rewrite Ec, E47 in Lo.
        rewrite length_ended in Lo. specialize (Lo eq_refl). change (47 =? 0) with false in Lo. cbn [andb] in Lo.
        rewrite Nat.add_0_r in Lo.
        constructor; cbn [b_mem b_walk b_out b_slash b_pre b_c].
        -- apply comp_step_ok; apply I.
        -- constructor.
        -- by rewrite P3, H1, E47.
        -- cbn [length]. lia.
        -- done.
        -- done.
        -- exists tl. split; [done|]. by rewrite P1, P2, Ed'.
        -- pose proof (inv_gap _ _ _ _ I). lia.
      * exists mem. split; [done|]. rewrite M2. cbn [components]. rewrite E47. change (47 =? 47) with true. cbv iota.
        cbn [attach]. rewrite app_nil_r. destruct (components rest) as [|w ws] eqn:Ew; [|done].
        exfalso. destruct rest as [|y rest]; [done|]. cbn in Ew. destruct (y =? 47); [done|].
        by destruct (components rest).
    + assert (Hs : bps_slash s = s).
      { unfold bps_slash. rewrite Ec. destruct (Z.eqb_spec c 47); [done|]. by destruct (Z.eqb_spec c 0). }
      rewrite Hs, Ec. destruct (Z.eqb_spec c 0); [done|].
      destruct (put_char (b_mem s) (b_walk s) (b_out s) c d more (inv_gap _ _ _ _ I) Ed) as (P1 & P2 & P3).
      edestruct (IH fuel (mk_bps (setn (b_mem s) (b_out s) c) (S (b_walk s)) (S (b_out s)) (b_slash s) c
                            (getn (b_mem s) (b_walk s))) stack (cur ++ [c]))
        as (mem & M1 & M2); [|done|cbn in Hf; lia|].
      * destruct I as [Is Icu It Il Isl Ip _ Ig]. constructor; cbn [b_mem b_walk b_out b_slash b_pre b_c].
        -- done.
        -- apply Forall_app. split; [done|by repeat constructor].
        -- rewrite P3, It, <- app_assoc. done.
        -- rewrite length_app. cbn [length]. lia.
        -- done.
        -- change (47 :: cur ++ [c]) with ((47 :: cur) ++ [c]). by rewrite last_last.
        -- exists tl. split; [done|]. by rewrite P1, P2, Ed'.
        -- lia.
      * exists mem. split; [done|]. rewrite M2. destruct (components_cons c rest E47) as (w & ws & -> & ->).
        cbn [attach]. by rewrite <- app_assoc.
Qed.

Lemma simplify_shape comps : forall stack, comps <> [] -> Forall (fun c => special c = false) stack ->
  exists kept e, simplify stack comps = render kept ++ e /\ (e = [] \/ e = [47]) /\
    Forall (fun c => special c = false) kept.
Proof.
  induction comps as [|c comps IH]; intros stack Hne Hs; [done|].
  assert (Hst : Forall (fun c => special c = false) (comp_step stack c)).
  { unfold comp_step. destruct (special c) eqn:E.
    - destruct (_ =? _)%nat; [|done]. destruct stack as [|p stack _] using rev_ind; [done|].
      rewrite removelast_last. by apply Forall_app in Hs as [Hs _].
    - apply Forall_app. split; [done|by constructor]. }
  destruct comps as [|c2 comps].
  - cbn [simplify]. exists (comp_step stack c). eexists. split; [reflexivity|]. split; [|done].
    destruct (special c); auto.
  - by apply IH.
Qed.

Lemma skip_blanks_spec k t : forall fuel pre, (k < fuel)%nat -> hd 0 t <> 32 ->
  skip_blanks fuel (pre ++ replicate k 32 ++ t) (length pre) = (length pre + k)%nat.
Proof.
  induction k as [|k IH]; intros [|fuel] pre Hf Ht; try lia; cbn [skip_blanks replicate app].
  - unfold getn. rewrite app_nth2, Nat.sub_diag by lia. change (nth 0 t 0) with (nth 0 t 0).
    replace (nth 0 t 0) with (hd 0 t) by by destruct t. destruct (Z.eqb_spec (hd 0 t) 32); [done|lia].
  - unfold getn. rewrite app_nth2, Nat.sub_diag by lia. cbn [nth]. change (32 =? 32) with true. cbv iota.
    replace (pre ++ 32 :: replicate k 32 ++ t) with ((pre ++ [32]) ++ replicate k 32 ++ t) by by rewrite <- app_assoc.
    replace (S (length pre)) with (length (pre ++ [32])) by (rewrite length_app; cbn; lia).
    rewrite IH by (done || lia). rewrite length_app. cbn. lia.
Qed.

(** C28. The path is simplified in place, whatever blanks stand before it: it becomes
    the components the reference keeps, from the root on, so that none of them is
    "." or ".." and none is empty.  (The reference also shows what is lost: any
    component that ends in a dot, and with one of two bytes the one before it.) *)
Theorem buffer_path_simplify_spec k t junk
    (Ht : t <> []) (Hz : Forall (fun x => x <> 0) t) (Hb : hd 0 t <> 32) (Hj : junk <> []) :
  exists mem kept e,
    buffer_path_simplify (replicate k 32 ++ t ++ 0 :: junk) = Some mem /\
    c_str mem = simplify [] (components (if hd 0 t =? 47 then tail t else t)) /\
    c_str mem = render kept ++ e /\ (e = [] \/ e = [47]) /\ Forall (fun c => special c = false) kept.
Proof.
  assert (G : exists mem, buffer_path_simplify (replicate k 32 ++ t ++ 0 :: junk) = Some mem /\
    c_str mem = simplify [] (components (if hd 0 t =? 47 then tail t else t))).
  { unfold buffer_path_simplify.
    pose proof (skip_blanks_spec k (t ++ 0 :: junk) (length (replicate k 32 ++ t ++ 0 :: junk)) []) as Sk.
    cbn [app length plus] in Sk. rewrite Sk; clear Sk.
    2: { rewrite length_app, length_replicate. rewrite length_app. cbn [length]. lia. }
    2: { by destruct t. }
    destruct t as [|x t]; [done|]. cbn [hd tail app] in *. apply Forall_cons_iff in Hz as [Hx Hz].
    set (mem0 := replicate k 32 ++ x :: t ++ 0 :: junk).
    assert (D1 : drop (S k) mem0 = t ++ 0 :: junk).
    { unfold mem0. change (x :: t ++ 0 :: junk) with ([x] ++ t ++ 0 :: junk). rewrite app_assoc.
      apply drop_app_length'. rewrite length_app, length_replicate. cbn. lia. }
    assert (Gx : getn mem0 k = x).
    { unfold mem0, getn. rewrite app_nth2; rewrite length_replicate; [|lia]. by rewrite Nat.sub_diag. }
    rewrite Gx. destruct (t ++ 0 :: junk) as [|c more] eqn:Ec; [by destruct t|].
    assert (Lm : (S k < length mem0)%nat).
    { apply (f_equal length) in D1. rewrite length_drop in D1. cbn [length] in D1. lia. }
    assert (Gc : getn mem0 (S k) = c).
    { unfold getn. rewrite <- (take_drop (S k) mem0), app_nth2; rewrite length_take_le by lia; [|lia].
      by rewrite Nat.sub_diag, D1. }
    assert (D2 : drop (S (S k)) mem0 = more).
    { replace (S (S k)) with (S k + 1)%nat by lia. by rewrite <- drop_drop, D1. }
    rewrite Gc. clearbody mem0. destruct (Z.eqb_spec x 47) as [->|H47]; cbn [negb].
    - destruct (Z.eqb_spec 47 0); [done|].
      destruct (bps_loop_spec t (S (length (setn mem0 0 47))) (mk_bps (setn mem0 0 47) (S (S k)) 1 0 47 c) [] [])
        as (mem & M1 & M2).
      + constructor; cbn [b_mem b_walk b_out b_slash b_pre b_c]; try done; try lia.
        * constructor.
        * destruct mem0; [cbn in Lm; lia|]. reflexivity.
        * exists junk. split; [done|]. unfold setn. rewrite drop_insert_lt, D2 by lia. by rewrite Ec.
      + done.
      + rewrite length_setn. apply (f_equal length) in D1. rewrite length_drop, <- Ec, length_app in D1.
        cbn [length] in D1. lia.
      + exists mem. split; [done|]. rewrite M2. destruct (components t) eqn:E; [|done].
        exfalso. destruct t as [|y t]; [done|]. cbn in E. destruct (y =? 47); [done|]. by destruct (components t).
    - destruct (Z.eqb_spec x 0); [done|].
      destruct (bps_loop_spec t (S (length (setn (setn mem0 0 47) 1 x)))
                  (mk_bps (setn (setn mem0 0 47) 1 x) (S (S k)) 2 0 x c) [] [x]) as (mem & M1 & M2).
      + constructor; cbn [b_mem b_walk b_out b_slash b_pre b_c]; try done; try lia.
        * by repeat constructor.
        * destruct mem0 as [|a [|b mem0]]; [cbn in Lm; lia..|]. reflexivity.
        * exists junk. split; [done|]. unfold setn. rewrite !drop_insert_lt, D2 by lia. by rewrite Ec.
      + done.
      + rewrite !length_setn. apply (f_equal length) in D1. rewrite length_drop, <- Ec, length_app in D1.
        cbn [length] in D1. lia.
      + exists mem. split; [done|]. rewrite M2. destruct (components_cons x t H47) as (w & ws & -> & ->). done. }
  destruct G as (mem & G1 & G2).
  destruct (simplify_shape (components (if hd 0 t =? 47 then tail t else t)) []) as (kept & e & S1 & S2 & S3).
  - generalize (if hd 0 t =? 47 then tail t else t). intros [|y u]; [done|]. cbn. destruct (y =? 47); [done|].
    by destruct (components u).
  - constructor.
  - exists mem, kept, e. by rewrite G2, S1.
Qed.

Lemma buffer_path_simplify_spec_witness :
  exists mem kept e,
    buffer_path_simplify (replicate 1 32 ++ lit "/srv/./static/../x/a./b.php" ++ 0 :: [9; 9]) = Some mem /\
    c_str mem = lit "/srv/b.php" /\
    c_str mem = render kept ++ e /\ (e = [] \/ e = [47]) /\ Forall (fun c => special c = false) kept.
Proof.
  refine (buffer_path_simplify_spec 1 (lit "/srv/./static/../x/a./b.php") [9; 9] _ _ _ _); try done.
  repeat constructor; vm_compute; discriminate.
Defined.

(** ** Sending a request *)

Definition n_SCRIPT_FILENAME : list Z := Eval compute in lit "SCRIPT_FILENAME".
Definition n_REQUEST_METHOD : list Z := Eval compute in lit "REQUEST_METHOD".
Definition n_QUERY_STRING : list Z := Eval compute in lit "QUERY_STRING".
Definition n_CONTENT_TYPE : list Z := Eval compute in lit "CONTENT_TYPE".
Definition n_CONTENT_LENGTH : list Z := Eval compute in lit "CONTENT_LENGTH".

Definition params (filename : list Z) (hr : http_header) : list (list Z * list Z) :=
  [(n_SCRIPT_FILENAME, filename); (n_REQUEST_METHOD, hr_method hr); (n_QUERY_STRING, hr_param hr);
   (n_CONTENT_TYPE, hr_contype hr); (n_CONTENT_LENGTH, hr_conlength hr)].

(** [filename]: the working directory, a slash and the path, in an array of 50
    bytes ([None] if they do not fit), simplified in place; [junk]: the array
    before. *)
Definition script_filename (cwd path junk : list Z) : option (list Z) :=
  let l := cwd ++ 47 :: path in
  if (50 <=? length l)%nat then None
  else option_map c_str (buffer_path_simplify (strcpy_to junk l)).

(** The bytes sent, and what is left of the client's. *)
Definition send_fastcgi (client_fd : Z) (cwd junk : list Z) (hr : http_header) (input : list Z) :
    option (list Z * list Z) :=
  match script_filename cwd (hr_path hr) junk with
  | None => None
  | Some filename =>
      let len := atoi (hr_conlength hr) in
      match (if bool_decide (hr_method hr = post_m) then send_stdin (S (Z.to_nat len)) client_fd len input
             else Some ([], input)) with
      | None => None
      | Some (stdin, input) =>
          Some (makeHeader FCGI_BEGIN_REQUEST client_fd 8 0 ++ makeBeginRequestBody FCGI_RESPONDER ++
                concat (map (fun '(n, v) => params_record client_fd n v) (params filename hr)) ++
                makeHeader FCGI_PARAMS client_fd 0 0 ++ stdin ++ makeHeader FCGI_STDIN client_fd 0 0, input)
      end
  end.

(** ** Receiving the answer

    What arrives is a list of segments: a [recv] gives what the first of them has, as
    far as it was asked for, and no more.  Behind the last one the connection is
    closed ([recv] gives 0), or reset ([-1]). *)

Section Recv.
Context (reset : bool).

(** [None]: [-1]. *)
Fixpoint recv (n : nat) (segs : list (list Z)) : option (list Z) * list (list Z) :=
  match segs with
  | [] => (if reset then None else Some [], [])
  | [] :: segs => recv n segs
  | s :: segs => (Some (take n s), drop n s :: segs)
  end.

(** How it goes on: the calls of [send_client] in their order, each with what
    came on both streams; or the loop that waits for the rest of a record never
    ends ([recv] gives 0 for ever), or freed memory or a NULL pointer is used, or
    the padding overruns its eight bytes. *)
Inductive answer := Answers (l : list (list Z * list Z)) | Spins | BadPointer | Overrun.

Definition add_answer (ok err : list Z) (a : answer) : answer :=
  match a with Answers l => Answers ((ok, err) :: l) | a => a end.

(** The content of a record, or [Stop] when the function returns, [Wait] when the
    loop never ends, [Over] when [buf] is overrun. *)
Inductive content := Content (c : list Z) (segs : list (list Z)) | Stop | Wait | Over.

(** [while(contentLength > 0)]; [c]: what came before. *)
Fixpoint content_loop (fuel n : nat) (c : list Z) (segs : list (list Z)) : option content :=
  if (n =? 0)%nat then Some (Content c segs)
  else
    match fuel with
    | O => None
    | S fuel =>
        match recv (Nat.min 4000 n) segs with
        | (None, _) => Some Stop
        | (Some [], _) => Some Wait
        | (Some l, segs) => content_loop fuel (n - length l) (c ++ l) segs
        end
    end.

(** The padding is received once, to an array of 8 bytes. *)
Definition recv_padding (paddingLength : nat) (c : list Z) (segs : list (list Z)) : content :=
  if (paddingLength =? 0)%nat then Content c segs
  else
    match recv paddingLength segs with
    | (None, _) => Stop
    | (Some l, segs) =>
        if (8 <? length l)%nat then Over
        else if (length l =? paddingLength)%nat then Content c segs else Stop
    end.

(** [b]: the stream so far, [None] for [NULL].  [realloc] to 0 bytes gives [NULL] (in
    glibc), and the function returns. *)
Definition recv_content (b : option (list Z)) (contentLength paddingLength : Z) (segs : list (list Z))
    : option content :=
  let n := Z.to_nat contentLength in
  match b with
  | Some [] => if (n =? 0)%nat then Some Stop else
      match content_loop n n [] segs with
      | Some (Content c segs) => Some (recv_padding (Z.to_nat paddingLength) c segs)
      | r => r
      end
  | _ =>
      match content_loop n n [] segs with
      | Some (Content c segs) => Some (recv_padding (Z.to_nat paddingLength) c segs)
      | r => r
      end
  end.

(** [ok], [err]: [None] for [NULL]; [freed]: both have been given to [free]; [hdr]:
    the header, of which a short read leaves the last bytes as they were. *)
Fixpoint recv_fastcgi (fuel : nat) (client_fd : Z) (hdr : list Z) (segs : list (list Z))
    (ok err : option (list Z)) (freed : bool) : option answer :=
  match fuel with
  | O => None
  | S fuel =>
      match recv 8 segs with
      | (None, _) | (Some [], _) => Some (Answers [])
      | (Some l, segs) =>
          let hdr := l ++ drop (length l) hdr in
          let type := getn hdr 1 in
          let recvId := Z.shiftl (getn hdr 2) 8 + getn hdr 3 in
          let contentLength := Z.shiftl (getn hdr 4) 8 + getn hdr 5 in
          if (type =? FCGI_STDOUT) && (recvId =? client_fd) then
            if freed then Some BadPointer
            else
              match recv_content ok contentLength (getn hdr 6) segs with
              | None => None
              | Some Wait => Some Spins
              | Some Over => Some Overrun
              | Some Stop => Some (Answers [])
              | Some (Content c segs) => recv_fastcgi fuel client_fd hdr segs (Some (default [] ok ++ c)) err freed
              end
          else if (type =? FCGI_STDERR) && (recvId =? client_fd) then
            if freed && bool_decide (err <> None) then Some BadPointer
            else
              match recv_content err contentLength (getn hdr 6) segs with
              | None => None
              | Some Wait => Some Spins
              | Some Over => Some Overrun
              | Some Stop => Some (Answers [])
              | Some (Content c segs) => recv_fastcgi fuel client_fd hdr segs ok (Some (default [] err ++ c)) freed
              end
          else if (type =? FCGI_END_REQUEST) && (recvId =? client_fd) then
            match recv 8 segs with
            | (None, _) => Some (if freed then BadPointer else Answers [])
            | (Some e, segs) =>
                if negb (length e =? 8)%nat then Some (if freed then BadPointer else Answers [])
                else if freed then Some BadPointer
                else
                  match ok with
                  | None => Some BadPointer
                  | Some o =>
                      option_map (add_answer o (default [] err))
                        (recv_fastcgi fuel client_fd hdr segs ok err true)
                  end
            end
          else recv_fastcgi fuel client_fd hdr segs ok err freed
      end
  end.
End Recv.

(** ** Reading the headers: call

    [get_line] is the one of httpd.hpp once more, for a buffer that is smaller than
    the size it is told. *)

Fixpoint has_prefix (p s : list Z) : bool :=
  match p, s with
  | [], _ => true
  | x :: p, y :: s => (x =? y) && has_prefix p s
  | _ :: _, [] => false
  end.
Fixpoint strstr (s sub : list Z) : bool :=
  has_prefix sub s || match s with [] => false | _ :: s => strstr s sub end.

(** What stands two bytes behind the colon, without the last byte: [None] if the
    name is not in the line, [Some None] if there is no colon to be found. *)
Definition get_http_Val (buf sub : list Z) : option (option (list Z)) :=
  if strstr (c_str buf) sub then
    match split_at 58 (c_str buf) with
    | (_, None) => Some None
    | (k, Some _) => Some (Some (removelast (c_str (drop (length k + 2) buf))))
    end
  else None.

Definition c_Content_Length : list Z := Eval compute in lit "Content-Length".
Definition c_Content_Type : list Z := Eval compute in lit "Content-Type".

Definition with_conlength (hr : http_header) (v : list Z) : http_header :=
  mk_hr (hr_method hr) (hr_path hr) (hr_param hr) (hr_contype hr) v.
Definition with_contype (hr : http_header) (v : list Z) : http_header :=
  mk_hr (hr_method hr) (hr_path hr) (hr_param hr) v (hr_conlength hr).

(** A value that is too long, or a line that is, is written outside its array. *)
Definition header_value (buf : list Z) (hr : http_header) : option http_header :=
  match get_http_Val buf c_Content_Length with
  | Some None => None
  | Some (Some v) => if (16 <=? length v)%nat then None else Some (with_conlength hr v)
  | None =>
      match get_http_Val buf c_Content_Type with
      | Some None => None
      | Some (Some v) => if (256 <=? length v)%nat then None else Some (with_contype hr v)
      | None => Some hr
      end
  end.

Fixpoint call_headers (fuel : nat) (recvbytes : Z) (buf : list Z) (hr : http_header) (input : list Z) :
    (fault + http_header) * list Z :=
  match fuel with
  | O => (inl OutOfFuel, input)
  | S fuel =>
      if (0 <? recvbytes) && negb (bool_decide (c_str buf = [10])) then
        let '(l, input) := read_line (8096 - 1) input in
        if (512 <=? length l)%nat then (inl OutOfBounds, input)
        else
          let buf := strcpy_to buf l in
          match header_value buf hr with
          | None => (inl OutOfBounds, input)
          | Some hr => call_headers fuel (Z.of_nat (length l)) buf hr input
          end
      else (inr hr, input)
  end.

Definition http_413 : list (list Z) := Eval compute in [
  line (lit "HTTP/1.0 413 TOO LARGE"); SERVER_STRING; line (lit "Content-Type: text/html"); line [];
  line (lit "<HTML><TITLE>TOO LARGE</TITLE>"); line (lit "<BODY>Too large.<br>"); line (lit "The body is too large.");
  line (lit "</BODY></HTML>")].
Definition error_413 : io unit := emits (map Send http_413).

(** What [exec_fastcgi] is called with, if it is; [hr0], [recvbytes] and [buf]: the
    uninitialised locals. *)
Definition call (httpBodyLength recvbytes : Z) (buf : list Z) (hr0 : http_header) (path method query : list Z) :
    io (option http_header) :=
  let hr := mk_hr (take 9 method) (hr_path hr0) (take 255 query) (hr_contype hr0) (hr_conlength hr0) in
  let! hr := fun s => let '(r, rest) := call_headers (S (S (length (c_in s)))) recvbytes buf hr (c_in s) in
                      (r, mk_conn rest (c_out s) (thread_number s)) in
  if httpBodyLength <? u32 (atoi (hr_conlength hr)) then error_413;;; ret None
  else
    let p := lit "./static" ++ path in
    if (256 <=? length p)%nat then fail OutOfBounds
    else ret (Some (mk_hr (hr_method hr) p (hr_param hr) (hr_contype hr) (hr_conlength hr))).

(** ** The streams by the FastCGI specification *)

(** A record read back: type, request and content. *)
Fixpoint read_records (fuel : nat) (s : list Z) : option (list (Z * Z * list Z)) :=
  match fuel, s with
  | _, [] => Some []
  | O, _ => None
  | S fuel, _ =>
      let clen := Z.to_nat (getn s 4 * 256 + getn s 5) in
      let plen := Z.to_nat (getn s 6) in
      if (length s <? 8 + clen + plen)%nat then None
      else option_map (cons (getn s 1, getn s 2 * 256 + getn s 3, take clen (drop 8 s)))
             (read_records fuel (drop (8 + clen + plen) s))
  end.

(** A length of the name-value format: one byte below 128, four otherwise. *)
Definition read_length (s : list Z) : option (nat * list Z) :=
  match s with
  | a :: s' =>
      if a <? 128 then Some (Z.to_nat a, s')
      else match s' with
           | b :: c :: d :: s'' => Some (Z.to_nat ((a - 128) * 16777216 + b * 65536 + c * 256 + d), s'')
           | _ => None
           end
  | [] => None
  end.
Definition read_pair (s : list Z) : option (list Z * list Z) :=
  match read_length s with
  | None => None
  | Some (n, s) =>
      match read_length s with
      | None => None
      | Some (m, s) => if (length s =? n + m)%nat then Some (take n s, drop n s) else None
      end
  end.

Definition record (type id : Z) (content pad : list Z) : list Z :=
  makeHeader type id (Z.of_nat (length content)) (Z.of_nat (length pad)) ++ content ++ pad.

Lemma two_bytes n : 0 <= n < 65536 ->
  Z.land (Z.shiftr n 8) 0xff * 256 + Z.land n 0xff = n /\
  Z.shiftl (Z.land (Z.shiftr n 8) 0xff) 8 + Z.land n 0xff = n.
Proof.
  intros Hn. rewrite Z.shiftl_mul_pow2, Z.shiftr_div_pow2 by lia.
  change 0xff with (2 ^ 8 - 1). rewrite !land_ones_mod by lia. change (2 ^ 8) with 256.
  rewrite (Z.mod_small (n / 256)) by (split; [apply Z.div_pos|apply Z.div_lt_upper_bound]; lia).
  pose proof (Z.div_mod n 256). lia.
Qed.

Lemma read_record fuel type id c pad rest : 0 <= id < 65536 -> byte_ok type ->
  Z.of_nat (length c) < 65536 -> (length pad < 256)%nat ->
  read_records (S fuel) (record type id c pad ++ rest) =
  option_map (cons (type, id, c)) (read_records fuel rest).
Proof.
  intros Hid Ht Hc Hp. unfold record, makeHeader. cbn [app read_records].
  unfold getn. cbn [nth]. rewrite (u8_id (Z.of_nat (length pad))) by (unfold byte_ok; lia).
  rewrite u8_id by done. rewrite (proj1 (two_bytes id Hid)).
  rewrite (proj1 (two_bytes (Z.of_nat (length c)) ltac:(lia))). rewrite !Nat2Z.id.
  cbn [length drop]. rewrite <- app_assoc, !length_app.
  destruct (Nat.ltb_spec (S (S (S (S (S (S (S (S (length c + (length pad + length rest))))))))))
    (8 + length c + length pad)); [lia|].
  rewrite drop_0, take_app_length. cbn [plus drop]. rewrite <- drop_drop, drop_app_length, drop_app_length. done.
Qed.

Lemma read_pair_params n v : (length n < 128)%nat -> (length v < 128)%nat ->
  read_pair (u8 (Z.of_nat (length n)) :: u8 (Z.of_nat (length v)) :: n ++ v) = Some (n, v).
Proof.
  intros Hn Hv. rewrite !u8_id by (unfold byte_ok; lia). unfold read_pair, read_length.
  destruct (Z.ltb_spec (Z.of_nat (length n)) 128); [|lia].
  destruct (Z.ltb_spec (Z.of_nat (length v)) 128); [|lia].
  rewrite !Nat2Z.id, length_app, Nat.eqb_refl, take_app_length, drop_app_length. done.
Qed.

Lemma padding_of_range n : 0 <= n -> 0 <= padding_of n < 8 /\ (n + padding_of n) mod 8 = 0.
Proof.
  intros Hn. unfold padding_of. pose proof (Z.mod_pos_bound n 8 ltac:(lia)).
  destruct (Z.eqb_spec (n mod 8) 0) as [E|E]; [by rewrite Z.add_0_r|]. split; [lia|].
  pose proof (Z.div_mod n 8 ltac:(lia)). replace (n + (8 - n mod 8)) with ((n / 8 + 1) * 8) by lia.
  by rewrite Z_mod_mult.
Qed.

(** The content of a parameter's record. *)
Definition param_content (n v : list Z) : list Z :=
  u8 (Z.of_nat (length n)) :: u8 (Z.of_nat (length v)) :: n ++ v.

Lemma params_record_eq id n v : params_record id n v =
  record FCGI_PARAMS id (param_content n v)
    (replicate (Z.to_nat (padding_of (Z.of_nat (length (param_content n v))))) 0).
Proof.
  unfold params_record, record, param_content. cbn [length]. rewrite length_app, length_replicate.
  replace (Z.of_nat (S (S (length n + length v)))) with (Z.of_nat (length n) + Z.of_nat (length v) + 2) by lia.
  rewrite Z2Nat.id by (apply padding_of_range; lia). cbn [app]. by rewrite <- app_assoc.
Qed.

Lemma read_params_records ps : forall fuel id rest, 0 <= id < 65536 ->
  Forall (fun p => (length (fst p) < 128)%nat /\ (length (snd p) < 128)%nat) ps ->
  read_records (length ps + fuel) (concat (map (fun '(n, v) => params_record id n v) ps) ++ rest) =
  option_map (app (map (fun '(n, v) => (FCGI_PARAMS, id, param_content n v)) ps)) (read_records fuel rest).
Proof.
  induction ps as [|[n v] ps IH]; intros fuel id rest Hid Hp.
  - cbn. by destruct (read_records fuel rest).
  - apply Forall_cons_iff in Hp as [[Hn Hv] Hp]. cbn [fst snd] in *. cbn [map concat length plus].
    rewrite <- app_assoc, params_record_eq, read_record.
    + rewrite IH by done. by destruct (read_records fuel rest).
    + done.
    + done.
    + unfold param_content. cbn [length]. rewrite length_app. lia.
    + rewrite length_replicate. pose proof (padding_of_range (Z.of_nat (length (param_content n v))) ltac:(lia)). lia.
Qed.

Lemma read_record_nopad fuel type id c rest : 0 <= id < 65536 -> byte_ok type -> (length c <= 8)%nat ->
  read_records (S fuel) (record type id c [] ++ rest) = option_map (cons (type, id, c)) (read_records fuel rest).
Proof. intros. apply read_record; [done|done|lia|]. change (length (@nil Z)) with 0%nat. lia. Qed.

(** A body that fits one record. *)
Lemma send_stdin_one id body : 0 < Z.of_nat (length body) <= 30000 ->
  send_stdin (S (length body)) id (Z.of_nat (length body)) body =
  Some (record FCGI_STDIN id body (replicate (Z.to_nat (padding_of (Z.of_nat (length body)))) 0), []).
Proof.
  intros Hb. assert (E : forall m input, send_stdin (S m) id 0 input = Some ([], input)) by done.
  remember (length body) as n eqn:En. destruct n as [|n]; [lia|].
  assert (U : forall fuel len input, 0 < len <= 30000 -> send_stdin (S fuel) id len input =
    let '(b, r) := copy_stdin len input in
    match send_stdin fuel id (len - len) r with
    | None => None
    | Some (more, r) => Some (makeHeader FCGI_STDIN id len (padding_of len) ++ b ++
                              replicate (Z.to_nat (padding_of len)) 0 ++ more, r)
    end).
  { intros fuel len input Hlen. cbn [send_stdin]. change FCGI_MAX_LEN with 30000.
    destruct (Z.ltb_spec 0 len); [|lia]. by destruct (Z.ltb_spec 30000 len); [lia|]. }
  rewrite U, Z.sub_diag by done. unfold copy_stdin. rewrite E, take_ge, drop_ge, app_nil_r by lia.
  unfold record. rewrite <- En, length_replicate, Z2Nat.id by (apply padding_of_range; lia). done.
Qed.

(** C29. What is sent for a POST whose body is at most 30000 bytes long, and no byte
    longer than its length says, is by the FastCGI specification: the beginning
    of a request to a responder, its five parameters, each a name and a value,
    the end of the parameters, the body and its end -- if no parameter is longer
    than 127 bytes. *)
Theorem send_fastcgi_stream fd cwd junk hr body filename
    (Hfd : 0 <= fd < 65536) (Hf : script_filename cwd (hr_path hr) junk = Some filename)
    (Hm : hr_method hr = post_m) (Hl : atoi (hr_conlength hr) = Z.of_nat (length body))
    (Hb : 0 < Z.of_nat (length body) <= 30000)
    (Hp : Forall (fun p => (length (fst p) < 128)%nat /\ (length (snd p) < 128)%nat) (params filename hr)) :
  exists stream, send_fastcgi fd cwd junk hr body = Some (stream, []) /\
    read_records 9 stream =
      Some ((FCGI_BEGIN_REQUEST, fd, makeBeginRequestBody FCGI_RESPONDER) ::
            map (fun '(n, v) => (FCGI_PARAMS, fd, param_content n v)) (params filename hr) ++
            [(FCGI_PARAMS, fd, []); (FCGI_STDIN, fd, body); (FCGI_STDIN, fd, [])]) /\
    Forall (fun '(n, v) => read_pair (param_content n v) = Some (n, v)) (params filename hr).
Proof.
  unfold send_fastcgi. rewrite Hf, Hl, Hm, Nat2Z.id. rewrite bool_decide_eq_true_2 by done.
  set (pad := replicate (Z.to_nat (padding_of (Z.of_nat (length body)))) 0).
  assert (Lp : padding_of (Z.of_nat (length body)) = Z.of_nat (length pad)).
  { unfold pad. rewrite length_replicate, Z2Nat.id; [done|]. apply padding_of_range. lia. }
  assert (Es : send_stdin (S (length body)) fd (Z.of_nat (length body)) body =
               Some (record FCGI_STDIN fd body pad, [])).
  { by apply send_stdin_one. }
  rewrite Es. eexists. split; [reflexivity|]. split.
  - change (makeHeader FCGI_BEGIN_REQUEST fd 8 0 ++ makeBeginRequestBody FCGI_RESPONDER ++ ?x)
      with (record FCGI_BEGIN_REQUEST fd (makeBeginRequestBody FCGI_RESPONDER) [] ++ x).
    rewrite read_record_nopad by (done || apply Nat.le_refl).
    change 8%nat with (length (params filename hr) + 3)%nat. rewrite read_params_records by done.
    change (makeHeader FCGI_PARAMS fd 0 0) with (record FCGI_PARAMS fd [] []).
    change (makeHeader FCGI_STDIN fd 0 0) with (record FCGI_STDIN fd [] []).
    rewrite read_record_nopad by (done || apply Nat.le_0_l). rewrite read_record; [|done|done|lia|].
    2: { pose proof (padding_of_range (Z.of_nat (length body)) ltac:(lia)). lia. }
    rewrite <- (app_nil_r (record FCGI_STDIN fd [] [])), read_record_nopad by (done || apply Nat.le_0_l). done.
  - eapply List.Forall_impl, Hp. intros [n v] [Hn Hv]. by apply read_pair_params.
Qed.

Lemma send_fastcgi_stream_witness :
  let hr := mk_hr post_m (lit "./staticstatic/a.php") [] (lit "text/plain") (lit "2") in
  exists stream, send_fastcgi 5 (lit "/srv") (replicate 50 0) hr [104; 105] = Some (stream, []) /\
    read_records 9 stream =
      Some ((FCGI_BEGIN_REQUEST, 5, makeBeginRequestBody FCGI_RESPONDER) ::
            map (fun '(n, v) => (FCGI_PARAMS, 5, param_content n v)) (params (lit "/srv/staticstatic/a.php") hr) ++
            [(FCGI_PARAMS, 5, []); (FCGI_STDIN, 5, [104; 105]); (FCGI_STDIN, 5, [])]) /\
    Forall (fun '(n, v) => read_pair (param_content n v) = Some (n, v)) (params (lit "/srv/staticstatic/a.php") hr).
Proof.
  refine (send_fastcgi_stream 5 (lit "/srv") (replicate 50 0)
            (mk_hr post_m (lit "./staticstatic/a.php") [] (lit "text/plain") (lit "2")) [104; 105]
            (lit "/srv/staticstatic/a.php") _ eq_refl eq_refl eq_refl _ _); [lia|cbn; lia|].
  repeat constructor; vm_compute; lia.
Defined.

(** *** The answer *)

(** A record of the answer: whether it belongs to the error stream, its content and
    its padding. *)
Abbreviation out_record := (bool * list Z * list Z)%type (only parsing).
Definition out_ok (r : out_record) : Prop :=
  let '(e, c, pad) := r in Z.of_nat (length c) < 65536 /\ (length pad <= 8)%nat.
Definition out_header (fd : Z) (r : out_record) : list Z :=
  let '(e, c, pad) := r in
  makeHeader (if e : bool then FCGI_STDERR else FCGI_STDOUT) fd (Z.of_nat (length c)) (Z.of_nat (length pad)).

(** What the two buffers hold after a record; [None]: an empty record on a stream that
    has begun with an empty record, for which [realloc] gives [NULL]. *)
Definition put_stream (b : option (list Z)) (c : list Z) : option (list Z) :=
  match b, c with Some [], [] => None | _, _ => Some (default [] b ++ c) end.
Fixpoint put_records (rs : list out_record) (ok err : option (list Z)) : option (option (list Z) * option (list Z)) :=
  match rs with
  | [] => Some (ok, err)
  | (e, c, pad) :: rs =>
      if e : bool then match put_stream err c with Some x => put_records rs ok (Some x) | None => None end
      else match put_stream ok c with Some x => put_records rs (Some x) err | None => None end
  end.

(** The pieces of a stream that must not be torn apart: headers and paddings are one
    piece each, the bytes of the contents may be cut anywhere. *)
Definition bytes_of (c : list Z) : list (list Z) := map (fun b => [b]) c.
Definition pieces_of (fd : Z) (r : out_record) : list (list Z) :=
  let '(e, c, pad) := r in out_header fd r :: bytes_of c ++ (if (length pad =? 0)%nat then [] else [pad]).

(** The segments are runs of pieces. *)
Definition arrives (pieces segs : list (list Z)) : Prop :=
  exists groups, segs = map (@concat Z) groups /\ concat groups = pieces.

Section Answer.
Context (reset : bool).

Lemma recv_piece p pieces segs : p <> [] -> arrives (p :: pieces) segs ->
  exists segs', recv reset (length p) segs = (Some p, segs') /\ arrives pieces segs'.
Proof.
  intros Hp (groups & -> & E). revert E. induction groups as [|[|q g] groups IH]; intros E; [done| |].
  - cbn [map concat recv]. by apply IH.
  - cbn [concat app] in E. injection E as -> E. cbn [map concat].
    destruct p as [|x p]; [done|]. exists (concat g :: map (@concat Z) groups). split.
    + change (recv reset (length (x :: p)) (((x :: p) ++ concat g) :: map (@concat Z) groups))
        with (Some (take (length (x :: p)) ((x :: p) ++ concat g)),
              drop (length (x :: p)) ((x :: p) ++ concat g) :: map (@concat Z) groups).
      by rewrite take_app_length, drop_app_length.
    + by exists (g :: groups).
Qed.

Lemma concat_bytes c : concat (bytes_of c) = c.
Proof. induction c as [|b c IH]; [done|]. cbn. by f_equal. Qed.

Lemma bytes_of_app a b : bytes_of (a ++ b) = bytes_of a ++ bytes_of b.
Proof. apply map_app. Qed.

Lemma bytes_split c pieces g rest : bytes_of c ++ pieces = g ++ rest ->
  (exists c1 c2, c = c1 ++ c2 /\ g = bytes_of c1 /\ rest = bytes_of c2 ++ pieces) \/
  (exists p, g = bytes_of c ++ p /\ pieces = p ++ rest).
Proof.
  revert g. induction c as [|b c IH]; intros g E; [right; by exists g|].
  destruct g as [|q g]; [left; by exists [], (b :: c)|]. cbn in E. injection E as <- E.
  destruct (IH g E) as [(c1 & c2 & -> & -> & ->)|(p & -> & ->)].
  - left. by exists (b :: c1), c2.
  - right. by exists p.
Qed.

(** A [recv] for at most what is left of the content gives a part of it. *)
Lemma recv_bytes k c pieces segs : (0 < k)%nat -> c <> [] -> (k <= length c)%nat \/ pieces = [] ->
  arrives (bytes_of c ++ pieces) segs ->
  exists n segs', (0 < n <= k)%nat /\ (n <= length c)%nat /\ recv reset k segs = (Some (take n c), segs') /\
    arrives (bytes_of (drop n c) ++ pieces) segs'.
Proof.
  intros Hk Hc Hkc (groups & -> & E). revert E. induction groups as [|g groups IH]; intros E.
  { by destruct c. }
  destruct g as [|q g]; [by apply IH|]. clear IH. set (G := q :: g) in *. cbn [map].
  assert (R : concat G <> [] -> recv reset k (concat G :: map (@concat Z) groups)
    = (Some (take k (concat G)), drop k (concat G) :: map (@concat Z) groups)) by by destruct (concat G).
  cbn [concat] in E. symmetry in E. apply bytes_split in E as [(c1 & c2 & Ec & EG & Er)|(p & EG & Ep)].
  - rewrite EG, concat_bytes in *.
    assert (H1 : c1 <> []) by (intros ->; done). rewrite R by done.
    assert (L1 : (0 < length c1)%nat) by (destruct c1; [done|cbn; lia]).
    exists (Nat.min k (length c1)), (drop k c1 :: map (@concat Z) groups). split; [lia|]. split; [rewrite Ec, length_app; lia|]. split.
    + rewrite Ec, take_app_le by lia. do 2 f_equal.
      destruct (Nat.le_ge_cases k (length c1)); [by rewrite Nat.min_l|].
      by rewrite Nat.min_r, !take_ge by lia.
    + exists (bytes_of (drop k c1) :: groups). cbn [map concat]. rewrite concat_bytes. split; [done|].
      rewrite Er, Ec, drop_app_le, bytes_of_app, app_assoc by lia. do 2 f_equal.
      destruct (Nat.le_ge_cases k (length c1)); [by rewrite Nat.min_l|].
      by rewrite Nat.min_r, !drop_ge by lia.
  - assert (L : (0 < length c)%nat) by (destruct c; [done|cbn; lia]).
    rewrite EG, concat_app, concat_bytes in *. rewrite R by (by destruct c).
    exists (Nat.min k (length c)), (drop k (c ++ concat p) :: map (@concat Z) groups).
    split; [lia|]. split; [lia|].
    assert (Hp : (k <= length c)%nat \/ p = []).
    { destruct Hkc as [?|Hn]; [by left|right]. rewrite Hn in Ep. by destruct p. }
    destruct Hp as [Hp| ->].
    + rewrite Nat.min_l, take_app_le by lia. split; [done|].
      exists ((bytes_of (drop k c) ++ p) :: groups). cbn [map concat]. rewrite concat_app, concat_bytes.
      rewrite drop_app_le by lia. split; [done|]. by rewrite Ep, <- app_assoc.
    + cbn [concat app] in *. rewrite app_nil_r.
      assert (Ek : take k c = take (Nat.min k (length c)) c /\ drop k c = drop (Nat.min k (length c)) c).
      { destruct (Nat.le_ge_cases k (length c)); [by rewrite Nat.min_l|].
        by rewrite Nat.min_r, !take_ge, !drop_ge by lia. }
      destruct Ek as [-> ->]. split; [done|].
      exists (bytes_of (drop (Nat.min k (length c)) c) :: groups). cbn [map concat]. rewrite concat_bytes.
      split; [done|]. by rewrite Ep.
Qed.

Lemma content_loop_all fuel : forall c pre pieces segs, (length c <= fuel)%nat ->
  arrives (bytes_of c ++ pieces) segs ->
  exists segs', content_loop reset fuel (length c) pre segs = Some (Content (pre ++ c) segs') /\ arrives pieces segs'.
Proof.
  induction fuel as [|fuel IH]; intros c pre pieces segs Hf Ha; destruct (Nat.eqb_spec (length c) 0) as [E|E].
  - exists segs. apply nil_length_inv in E as ->. by rewrite app_nil_r.
  - lia.
  - exists segs. apply nil_length_inv in E as ->. by rewrite app_nil_r.
  - destruct (recv_bytes (Nat.min 4000 (length c)) c pieces segs ltac:(lia) ltac:(by intros ->) ltac:(left; lia) Ha)
      as (n & segs1 & Hn & Hn' & R & Ha1).
    destruct (IH (drop n c) (pre ++ take n c) pieces segs1) as (segs2 & E2 & Ha2);
      [rewrite length_drop; lia|done|].
    exists segs2. split; [|done]. cbn [content_loop]. rewrite (proj2 (Nat.eqb_neq _ _) E), R.
    assert (Lt : length (take n c) = n) by (rewrite length_take; lia).
    rewrite length_drop, <- app_assoc, take_drop in E2.
    destruct (take n c) as [|x l] eqn:Et; [cbn in Lt; lia|]. rewrite Lt. exact E2.
Qed.

(** The stream breaks off within a content. *)
Lemma content_loop_short fuel : forall c n pre segs, (length c < n <= fuel)%nat ->
  arrives (bytes_of c) segs ->
  content_loop reset fuel n pre segs = Some (if reset then Stop else Wait).
Proof.
  induction fuel as [|fuel IH]; intros c n pre segs Hf Ha; [lia|]. cbn [content_loop].
  destruct (Nat.eqb_spec n 0); [lia|].
  destruct (Nat.eqb_spec (length c) 0) as [E|E].
  - apply nil_length_inv in E as ->. destruct Ha as (groups & -> & E).
    assert (R : forall gs k, concat gs = [] -> recv reset k (map (@concat Z) gs) = (if reset then None else Some [], [])).
    { induction gs as [|[|q g] gs IHg]; intros k Eg; [done| |done]. cbn [map concat recv]. by apply IHg. }
    rewrite R by done. by destruct reset.
  - destruct (recv_bytes (Nat.min 4000 n) c [] segs) as (k & segs1 & Hk & Hk' & R & Ha1);
      [lia|by intros ->|by right|by rewrite app_nil_r|].
    rewrite app_nil_r in Ha1. rewrite R.
    assert (Lt : length (take k c) = k) by (rewrite length_take; lia).
    destruct (take k c) as [|x l] eqn:Et; [cbn in Lt; lia|]. rewrite Lt.
    apply (IH (drop k c)); [rewrite length_drop; lia|done].
Qed.
Lemma recv_content_piece b c pad x pieces segs : (length pad <= 8)%nat -> put_stream b c = Some x ->
  arrives (bytes_of c ++ (if (length pad =? 0)%nat then [] else [pad]) ++ pieces) segs ->
  x = default [] b ++ c /\ exists segs',
    recv_content reset b (Z.of_nat (length c)) (Z.of_nat (length pad)) segs = Some (Content c segs') /\
    arrives pieces segs'.
Proof.
  intros Hp Hx Ha. split.
  { unfold put_stream in Hx. destruct b as [[|? ?]|], c; congruence. }
  destruct (content_loop_all (length c) c [] _ segs ltac:(lia) Ha) as (segs1 & E1 & Ha1).
  assert (P : exists segs', recv_padding reset (length pad) c segs1 = Content c segs' /\ arrives pieces segs').
  { unfold recv_padding. destruct (Nat.eqb_spec (length pad) 0) as [E0|E0]; [by exists segs1|].
    destruct (recv_piece pad pieces segs1) as (segs2 & R & Ha2); [by intros ->|done|].
    exists segs2. rewrite R, Nat.eqb_refl. destruct (Nat.ltb_spec 8 (length pad)); [lia|done]. }
  destruct P as (segs2 & P & Ha2). exists segs2. split; [|done].
  unfold recv_content. rewrite !Nat2Z.id, E1. cbn [app]. rewrite P.
  destruct b as [[|? ?]|]; try done. destruct c; done.
Qed.

(** The loop on a whole header. *)
Lemma recv_header fuel fd type n p hdr pieces segs ok err freed :
  0 <= fd < 65536 -> byte_ok type -> 0 <= n < 65536 -> byte_ok p -> length hdr = 8%nat ->
  arrives (makeHeader type fd n p :: pieces) segs ->
  exists segs', arrives pieces segs' /\
  recv_fastcgi reset (S fuel) fd hdr segs ok err freed =
  let hdr := makeHeader type fd n p in
  if type =? FCGI_STDOUT then
    if freed then Some BadPointer
    else match recv_content reset ok n p segs' with
         | None => None
         | Some Wait => Some Spins
         | Some Over => Some Overrun
         | Some Stop => Some (Answers [])
         | Some (Content c segs) => recv_fastcgi reset fuel fd hdr segs (Some (default [] ok ++ c)) err freed
         end
  else if type =? FCGI_STDERR then
    if freed && bool_decide (err <> None) then Some BadPointer
    else match recv_content reset err n p segs' with
         | None => None
         | Some Wait => Some Spins
         | Some Over => Some Overrun
         | Some Stop => Some (Answers [])
         | Some (Content c segs) => recv_fastcgi reset fuel fd hdr segs ok (Some (default [] err ++ c)) freed
         end
  else if type =? FCGI_END_REQUEST then
    match recv reset 8 segs' with
    | (None, _) => Some (if freed then BadPointer else Answers [])
    | (Some e, segs) =>
        if negb (length e =? 8)%nat then Some (if freed then BadPointer else Answers [])
        else if freed then Some BadPointer
        else match ok with
             | None => Some BadPointer
             | Some o => option_map (add_answer o (default [] err)) (recv_fastcgi reset fuel fd hdr segs ok err true)
             end
    end
  else recv_fastcgi reset fuel fd hdr segs' ok err freed.
Proof.
  intros Hfd Ht Hn Hp Hh Ha. destruct (recv_piece (makeHeader type fd n p) pieces segs ltac:(done) Ha) as (segs1 & R & Ha1).
  exists segs1. split; [done|]. cbv zeta. cbn [recv_fastcgi].
  change (length (makeHeader type fd n p)) with 8%nat in R. rewrite R. clear R Ha Ha1.
  unfold makeHeader. cbn [app length]. rewrite (drop_ge hdr) by lia.
  unfold getn. cbn [app nth]. rewrite (u8_id type), (u8_id p) by done.
  rewrite (proj2 (two_bytes fd Hfd)), (proj2 (two_bytes n Hn)), Z.eqb_refl, !andb_true_r. done.
Qed.

Lemma recv_records fd rs : forall fuel hdr pieces segs ok err ok' err',
  0 <= fd < 65536 -> Forall out_ok rs -> length hdr = 8%nat -> put_records rs ok err = Some (ok', err') ->
  arrives (concat (map (pieces_of fd) rs) ++ pieces) segs ->
  exists hdr' segs', length hdr' = 8%nat /\ arrives pieces segs' /\
  recv_fastcgi reset (length rs + fuel) fd hdr segs ok err false = recv_fastcgi reset fuel fd hdr' segs' ok' err' false.
Proof.
  induction rs as [|[[e c] pad] rs IH]; intros fuel hdr pieces segs ok err ok' err' Hfd Hr Hh Hput Ha.
  { injection Hput as <- <-. by exists hdr, segs. }
  apply Forall_cons_iff in Hr as [[Hc Hp] Hr]. cbn [length plus map concat pieces_of out_header] in *.
  cbn [app] in Ha. rewrite <- !app_assoc in Ha.
  destruct (recv_header (length rs + fuel) fd (if e then FCGI_STDERR else FCGI_STDOUT) (Z.of_nat (length c))
    (Z.of_nat (length pad)) hdr _ segs ok err false
    Hfd ltac:(by destruct e) ltac:(lia) ltac:(unfold byte_ok; lia) Hh Ha) as (segs1 & Ha1 & ->). cbv zeta.
  set (hdr1 := makeHeader _ _ _ _). assert (H1 : length hdr1 = 8%nat) by done. clearbody hdr1.
  destruct e; cbn [put_records] in Hput.
  - destruct (put_stream err c) as [x|] eqn:Ex; [|done].
    destruct (recv_content_piece err c pad x _ segs1 Hp Ex Ha1) as (-> & segs2 & E2 & Ha2).
    change (FCGI_STDERR =? FCGI_STDOUT) with false. change (FCGI_STDERR =? FCGI_STDERR) with true. cbv iota.
    cbn [andb]. rewrite E2. by eapply IH.
  - destruct (put_stream ok c) as [x|] eqn:Ex; [|done].
    destruct (recv_content_piece ok c pad x _ segs1 Hp Ex Ha1) as (-> & segs2 & E2 & Ha2).
    change (FCGI_STDOUT =? FCGI_STDOUT) with true. cbv iota. rewrite E2. by eapply IH.
Qed.
End Answer.


