(* ===== verification/Floats.v ===== *)
(** * Floats: the floating-point numbers of C

    [double] and [float] are the binary64 and binary32 numbers of the Standard
    Library's [SpecFloat], whose operations round to nearest, ties to even, as the
    targets do.  Here are the conversions C adds to them. *)

From Stdlib Require Export SpecFloat.
From S2P Require Import Prelude.

Section Format.
Context (prec emax : Z).

(** A number with value [m * 2 ^ e], rounded. *)
Definition round_at (m e : Z) : spec_float := binary_normalize prec emax m e false.
Definition of_int (z : Z) : spec_float := round_at z 0.

(** A decimal literal [a / b]: both are exact when they have fewer than [prec] bits, so
    that the quotient is rounded once. *)
Definition literal (a b : Z) : spec_float := SFdiv prec emax (of_int a) (of_int b).

(** Conversion from another format. *)
Definition convert (x : spec_float) : spec_float :=
  match x with
  | S754_finite s m e => binary_round prec emax s m e
  | _ => x
  end.
End Format.

(** Conversion to an integer cuts the fraction off; of a NaN or an infinity it has
    no defined result. *)
Definition to_int (x : spec_float) : option Z :=
  match x with
  | S754_zero _ => Some 0
  | S754_finite s m e =>
      let v := if 0 <=? e then Z.pos m * 2 ^ e else Z.pos m / 2 ^ (- e) in
      Some (if s then - v else v)
  | S754_infinity _ | S754_nan => None
  end.

Definition double_of_int : Z -> spec_float := of_int 53 1024.
Definition double_literal : Z -> Z -> spec_float := literal 53 1024.
Definition dadd := SFadd 53 1024.
Definition dsub := SFsub 53 1024.
Definition dmul := SFmul 53 1024.
Definition ddiv := SFdiv 53 1024.
Definition dsqrt := SFsqrt 53 1024.

Definition float_of_int : Z -> spec_float := of_int 24 128.
Definition float_literal : Z -> Z -> spec_float := literal 24 128.
Definition fadd := SFadd 24 128.
Definition fmul := SFmul 24 128.
Definition fdiv := SFdiv 24 128.

(** ** Order *)

Definition is_nan (x : spec_float) : bool := match x with S754_nan => true | _ => false end.

Lemma SFcompare_nan x y : SFcompare x y = None <-> is_nan x || is_nan y = true.
Proof. destruct x as [?|[]| |[] ? ?], y as [?|[]| |[] ? ?]; cbn; intuition congruence. Qed.

(** Numbers that are no NaN are on one side of each other. *)
Lemma ltb_leb x y : is_nan x = false -> is_nan y = false -> SFltb x y = negb (SFleb y x).
Proof.
  intros Hx Hy. unfold SFltb, SFleb.
  assert (E : SFcompare y x = option_map CompOpp (SFcompare x y)).
  { destruct x as [?|[]| |[] m e], y as [?|[]| |[] m' e']; cbn; try done.
    all: rewrite (Z.compare_antisym e e'); destruct (e ?= e') eqn:C; cbn; try done.
    all: pose proof (Pos.compare_cont_antisym m m' Eq) as A; cbn [CompOpp] in A.
    all: change (PosDef.Pos.compare_cont Eq m' m) with (Pos.compare_cont Eq m' m); rewrite A.
    all: change (PosDef.Pos.compare_cont Eq m m') with (Pos.compare_cont Eq m m').
    all: by destruct (Pos.compare_cont Eq m m'). }
  rewrite E. destruct (SFcompare x y) as [[]|] eqn:C; cbn; try done.
  apply SFcompare_nan in C. rewrite Hx, Hy in C. done.
Qed.

(** ** Integers are exact

    An integer of less than 53 bits is a [double] without rounding, and sums of such
    integers, as long as they have less than 53 bits themselves, are exact. *)

Definition sh (n : nat) (m : positive) : positive := Nat.iter n xO m.

Lemma sh_add a b m : sh a (sh b m) = sh (a + b) m.
Proof. unfold sh. by rewrite Nat.iter_add. Qed.

Lemma sh_value n m : Z.pos (sh n m) = Z.pos m * 2 ^ Z.of_nat n.
Proof.
  induction n as [|n IH]; [cbn; lia|]. change (sh (S n) m) with (xO (sh n m)).
  rewrite Pos2Z.inj_xO, IH, Nat2Z.inj_succ, Z.pow_succ_r by lia. lia.
Qed.

Lemma sh_digits n m : digits2_pos (sh n m) = (digits2_pos m + Pos.of_nat (S n) - 1)%positive.
Proof.
  induction n as [|n IH]; [cbn; lia|]. change (sh (S n) m) with (xO (sh n m)). cbn [digits2_pos].
  rewrite IH. lia.
Qed.

Lemma iter_pos_nat {A} (f : A -> A) n : forall x, SpecFloat.iter_pos f n x = Nat.iter (Pos.to_nat n) f x.
Proof.
  induction n as [n IH|n IH|]; intros x; cbn [SpecFloat.iter_pos]; [| |done].
  - rewrite !IH, Pos2Nat.inj_xI.
    replace (S (2 * Pos.to_nat n)) with (Pos.to_nat n + S (Pos.to_nat n))%nat by lia.
    by rewrite Nat.iter_add, Nat.iter_succ_r.
  - rewrite !IH, Pos2Nat.inj_xO, <- Nat.iter_add. f_equal. lia.
Qed.

Lemma shr_exact n m : Nat.iter n shr_1 (Build_shr_record (Z.pos (sh n m)) false false)
  = Build_shr_record (Z.pos m) false false.
Proof.
  induction n as [|n IH]; [done|]. rewrite Nat.iter_succ_r. exact IH.
Qed.

Lemma digits_bound m : 2 ^ (Z.pos (digits2_pos m) - 1) <= Z.pos m < 2 ^ Z.pos (digits2_pos m).
Proof.
  induction m as [m IH|m IH|]; cbn [digits2_pos]; [| |by cbn].
  all: rewrite Pos2Z.inj_succ, Z.pow_succ_r by lia.
  all: replace (Z.succ (Z.pos (digits2_pos m)) - 1) with (Z.succ (Z.pos (digits2_pos m) - 1)) by lia.
  all: rewrite Z.pow_succ_r by lia. all: lia.
Qed.

(** The mantissa of 53 bits. *)
Definition full (c : positive) : positive := sh (53 - Pos.to_nat (digits2_pos c)) c.

Lemma full_digits c : (digits2_pos c <= 53)%positive -> digits2_pos (full c) = 53%positive.
Proof. intros H. unfold full. rewrite sh_digits. lia. Qed.

Lemma round_full s q e : digits2_pos q = 53%positive -> -1074 <= e <= 971 ->
  binary_round_aux 53 1024 s (Z.pos q) e loc_Exact = S754_finite s q e.
Proof.
  intros Hq He. unfold binary_round_aux.
  assert (F : shr_fexp 53 1024 (Z.pos q) e loc_Exact = (Build_shr_record (Z.pos q) false false, e)).
  { unfold shr_fexp. cbn [Zdigits2 shr_record_of_loc]. rewrite Hq. unfold fexp, emin.
    replace (Z.max (53 + e - 53) (3 - 1024 - 53) - e) with 0 by lia. done. }
  rewrite F. cbn [shr_m loc_of_shr_record round_nearest_even]. rewrite F. cbn [shr_m].
  rewrite (proj2 (Z.leb_le _ _)) by lia. done.
Qed.

(** Whatever power of two is taken out of it, an integer has one representation. *)
Lemma round_aux_int s c j : (digits2_pos c <= 53)%positive -> (53 - Pos.to_nat (digits2_pos c) <= j)%nat ->
  binary_round_aux 53 1024 s (Z.pos (sh j c)) (- Z.of_nat j) loc_Exact
  = S754_finite s (full c) (Z.pos (digits2_pos c) - 53).
Proof.
  intros Hc Hj. rewrite <- (round_full s (full c)) by (try apply full_digits; lia).
  set (d := digits2_pos c) in *. unfold binary_round_aux at 1.
  set (n := (j - (53 - Pos.to_nat d))%nat).
  assert (S : sh j c = sh n (full c)) by (unfold full; fold d; rewrite sh_add; f_equal; lia).
  assert (D : Z.pos (digits2_pos (sh j c)) + - Z.of_nat j = Z.pos d) by (rewrite sh_digits; fold d; lia).
  assert (F : shr_fexp 53 1024 (Z.pos (sh j c)) (- Z.of_nat j) loc_Exact
    = shr_fexp 53 1024 (Z.pos (full c)) (Z.pos d - 53) loc_Exact); [|rewrite F; reflexivity].
  unfold shr_fexp. cbn [Zdigits2 shr_record_of_loc]. rewrite D, (full_digits c Hc). unfold fexp, emin.
  replace (Z.max (Z.pos d - 53) (3 - 1024 - 53)) with (Z.pos d - 53) by lia.
  replace (Z.max (53 + (Z.pos d - 53) - 53) (3 - 1024 - 53) - (Z.pos d - 53)) with 0 by lia.
  unfold shr at 2. rewrite S. destruct (Z.pos d - 53 - - Z.of_nat j) as [|p|p] eqn:E; [| |lia].
  - replace n with 0%nat by lia. cbn. f_equal. lia.
  - cbn [shr]. rewrite iter_pos_nat. replace (Pos.to_nat p) with n by lia. rewrite shr_exact. f_equal. lia.
Qed.

Lemma round_int s c j : (digits2_pos c <= 53)%positive -> (j <= 1000)%nat ->
  binary_round 53 1024 s (sh j c) (- Z.of_nat j) = S754_finite s (full c) (Z.pos (digits2_pos c) - 53).
Proof.
  intros Hc Hj. unfold binary_round. set (d := digits2_pos c) in *.
  assert (D : Z.pos (digits2_pos (sh j c)) + - Z.of_nat j = Z.pos d) by (rewrite sh_digits; fold d; lia).
  rewrite D. unfold fexp at 1, emin.
  replace (Z.max (Z.pos d - 53) (3 - 1024 - 53)) with (Z.pos d - 53) by lia.
  destruct (Z_lt_le_dec (Z.pos d - 53) (- Z.of_nat j)) as [Hlt|Hge].
  - unfold shl_align. destruct (Z.pos d - 53 - - Z.of_nat j) as [|n|n] eqn:E; [lia|lia|].
    assert (S : Pos.iter xO (sh j c) n = sh (Pos.to_nat n) (sh j c)) by exact (Pos2Nat.inj_iter n xO (sh j c)).
    rewrite S, sh_add. replace (Pos.to_nat n + j)%nat with (53 - Pos.to_nat d)%nat by lia.
    apply (round_full s (full c)); [by apply full_digits|lia].
  - assert (A : shl_align (sh j c) (- Z.of_nat j) (Z.pos d - 53) = (sh j c, - Z.of_nat j)).
    { unfold shl_align. destruct (Z.pos d - 53 - - Z.of_nat j) eqn:E; [done|done|lia]. }
    rewrite A. apply round_aux_int; [done|]. fold d. lia.
Qed.

Lemma digits_small c : Z.pos c < 2 ^ 53 -> (digits2_pos c <= 53)%positive.
Proof.
  intros H. pose proof (digits_bound c) as [B _]. apply Pos.le_nlt. intros Hn.
  assert (2 ^ 53 <= 2 ^ (Z.pos (digits2_pos c) - 1)) by (apply Z.pow_le_mono_r; lia). lia.
Qed.

(** A scaled integer is the integer. *)
Lemma normalize_int t n : - 2 ^ 53 < t < 2 ^ 53 -> (n <= 1000)%nat ->
  binary_normalize 53 1024 (t * 2 ^ Z.of_nat n) (- Z.of_nat n) false = double_of_int t.
Proof.
  intros Ht Hn. unfold double_of_int, of_int, round_at. destruct t as [|t|t]; [done| |].
  - rewrite <- sh_value. cbn [binary_normalize]. rewrite round_int by (try apply digits_small; lia).
    symmetry. apply (round_int false t 0); [apply digits_small; lia|lia].
  - rewrite <- Pos2Z.opp_pos, Z.mul_opp_l, <- sh_value. change (- Z.pos (sh n t)) with (Z.neg (sh n t)). cbn [binary_normalize].
    rewrite round_int by (try apply digits_small; lia).
    symmetry. apply (round_int true t 0); [apply digits_small; lia|lia].
Qed.

Lemma double_of_int_finite t : - 2 ^ 53 < t < 2 ^ 53 -> t <> 0 ->
  double_of_int t = S754_finite (t <? 0) (full (Z.to_pos (Z.abs t))) (Z.pos (digits2_pos (Z.to_pos (Z.abs t))) - 53).
Proof.
  intros Ht Hn. unfold double_of_int, of_int, round_at. destruct t as [|t|t]; [done| |]; cbn [binary_normalize Z.abs Z.to_pos].
  - apply (round_int false t 0); [apply digits_small; lia|lia].
  - apply (round_int true t 0); [apply digits_small; lia|lia].
Qed.

Lemma align_full c ez : (digits2_pos c <= 53)%positive -> ez <= Z.pos (digits2_pos c) - 53 ->
  fst (shl_align (full c) (Z.pos (digits2_pos c) - 53) ez) = sh (Z.to_nat (- ez)) c.
Proof.
  intros Hc He. unfold shl_align, full. set (d := digits2_pos c) in *.
  destruct (ez - (Z.pos d - 53)) as [|n|n] eqn:E; cbn [fst]; [f_equal; lia|lia|].
  assert (S : forall m, Pos.iter xO m n = sh (Pos.to_nat n) m) by (intros; exact (Pos2Nat.inj_iter n xO m)).
  rewrite S, sh_add. f_equal. lia.
Qed.

Lemma signed_value t n : t <> 0 ->
  cond_Zopp (t <? 0) (Z.pos (sh n (Z.to_pos (Z.abs t)))) = t * 2 ^ Z.of_nat n.
Proof.
  intros Hn. rewrite sh_value, Z2Pos.id by lia. unfold cond_Zopp.
  destruct (Z.ltb_spec t 0); [rewrite Z.abs_neq by lia|rewrite Z.abs_eq by lia]; lia.
Qed.

Lemma dadd_int a b : - 2 ^ 53 < a < 2 ^ 53 -> - 2 ^ 53 < b < 2 ^ 53 -> - 2 ^ 53 < a + b < 2 ^ 53 ->
  dadd (double_of_int a) (double_of_int b) = double_of_int (a + b).
Proof.
  intros Ha Hb Hs. destruct (Z.eq_dec a 0) as [->|Na].
  { destruct (Z.eq_dec b 0) as [->|Nb]; [done|]. rewrite Z.add_0_l, (double_of_int_finite b) by done. done. }
  destruct (Z.eq_dec b 0) as [->|Nb]; [rewrite Z.add_0_r, (double_of_int_finite a) by done; done|].
  assert (Da : (digits2_pos (Z.to_pos (Z.abs a)) <= 53)%positive) by (apply digits_small; lia).
  assert (Db : (digits2_pos (Z.to_pos (Z.abs b)) <= 53)%positive) by (apply digits_small; lia).
  rewrite (double_of_int_finite a), (double_of_int_finite b) by done. unfold dadd, SFadd.
  set (da := digits2_pos (Z.to_pos (Z.abs a))) in *. set (db := digits2_pos (Z.to_pos (Z.abs b))) in *.
  set (ez := Z.min (Z.pos da - 53) (Z.pos db - 53)).
  unfold da at 1, db at 1. rewrite !align_full by (fold da db; lia). rewrite !signed_value by done.
  rewrite <- Z.mul_add_distr_r. assert (Ez : - Z.of_nat (Z.to_nat (- ez)) = ez) by lia.
  rewrite <- Ez at 2. apply normalize_int; lia.
Qed.

Lemma sh_mul a b m n : (sh a m * sh b n = sh (a + b) (m * n))%positive.
Proof.
  apply Pos2Z.inj. rewrite Pos2Z.inj_mul, !sh_value, Pos2Z.inj_mul, Nat2Z.inj_add, Z.pow_add_r by lia. lia.
Qed.

Lemma digits_mul m n : (digits2_pos m + digits2_pos n <= digits2_pos (m * n) + 1)%positive.
Proof.
  pose proof (digits_bound m) as [Bm _]. pose proof (digits_bound n) as [Bn _].
  pose proof (digits_bound (m * n)) as [_ B]. rewrite Pos2Z.inj_mul in B.
  apply Pos.le_nlt. intros H.
  assert (L : 2 ^ Z.pos (digits2_pos (m * n)) <= 2 ^ (Z.pos (digits2_pos m) - 1) * 2 ^ (Z.pos (digits2_pos n) - 1)).
  { rewrite <- Z.pow_add_r by lia. apply Z.pow_le_mono_r; lia. }
  nia.
Qed.

Lemma dmul_int a b : - 2 ^ 53 < a < 2 ^ 53 -> - 2 ^ 53 < b < 2 ^ 53 -> - 2 ^ 53 < a * b < 2 ^ 53 ->
  a <> 0 -> b <> 0 -> dmul (double_of_int a) (double_of_int b) = double_of_int (a * b).
Proof.
  intros Ha Hb Hp Na Nb.
  rewrite (double_of_int_finite a), (double_of_int_finite b), (double_of_int_finite (a * b)) by nia.
  unfold dmul, SFmul.
  assert (P : Z.to_pos (Z.abs (a * b)) = (Z.to_pos (Z.abs a) * Z.to_pos (Z.abs b))%positive).
  { rewrite Z.abs_mul, Z2Pos.inj_mul; lia. }
  assert (S : (a * b <? 0) = xorb (a <? 0) (b <? 0)).
  { destruct (Z.ltb_spec a 0), (Z.ltb_spec b 0), (Z.ltb_spec (a * b) 0); try done; nia. }
  assert (Da : (digits2_pos (Z.to_pos (Z.abs a)) <= 53)%positive) by (apply digits_small; lia).
  assert (Db : (digits2_pos (Z.to_pos (Z.abs b)) <= 53)%positive) by (apply digits_small; lia).
  assert (Dp : (digits2_pos (Z.to_pos (Z.abs (a * b))) <= 53)%positive) by (apply digits_small; lia).
  rewrite S, P in *. set (m := Z.to_pos (Z.abs a)) in *. set (n := Z.to_pos (Z.abs b)) in *.
  pose proof (digits_mul m n) as Dm. unfold full at 1 2. rewrite sh_mul.
  set (j := (53 - Pos.to_nat (digits2_pos m) + (53 - Pos.to_nat (digits2_pos n)))%nat).
  replace (Z.pos (digits2_pos m) - 53 + (Z.pos (digits2_pos n) - 53)) with (- Z.of_nat j) by lia.
  apply round_aux_int; [done|lia].
Qed.

(** The sum of integers, from the left. *)
Lemma dsum_int (l : list Z) : forall a, - 2 ^ 53 < a < 2 ^ 53 ->
  (forall n, - 2 ^ 53 < fold_left Z.add (take n l) a < 2 ^ 53) -> Forall (fun x => - 2 ^ 53 < x < 2 ^ 53) l ->
  fold_left (fun s x => dadd s (double_of_int x)) l (double_of_int a) = double_of_int (fold_left Z.add l a).
Proof.
  induction l as [|x l IH]; intros a Ha Hp Hl; [done|]. cbn [fold_left].
  inversion Hl as [|? ? Hx Hl']; subst. specialize (Hp 1%nat) as H1. cbn in H1.
  rewrite dadd_int by done. apply IH; [done| |done]. intros n. exact (Hp (S n)).
Qed.

(** One step of a sum of products; a product that is zero may have either sign. *)
Lemma dadd_dmul_int s a b : - 2 ^ 53 < a < 2 ^ 53 -> - 2 ^ 53 < b < 2 ^ 53 -> - 2 ^ 53 < a * b < 2 ^ 53 ->
  - 2 ^ 53 < s < 2 ^ 53 -> - 2 ^ 53 < s + a * b < 2 ^ 53 ->
  dadd (double_of_int s) (dmul (double_of_int a) (double_of_int b)) = double_of_int (s + a * b).
Proof.
  intros Ha Hb Hp Hs Hr. destruct (Z.eq_dec a 0) as [Ea|Na]; [|destruct (Z.eq_dec b 0) as [Eb|Nb]].
  3: { rewrite dmul_int by done. by apply dadd_int. }
  all: assert (Z0 : exists sg, dmul (double_of_int a) (double_of_int b) = S754_zero sg).
  1: { subst a. destruct (Z.eq_dec b 0) as [->|Nb]; [by exists false|]. rewrite (double_of_int_finite b) by done.
       eexists. reflexivity. }
  2: { subst b. rewrite (double_of_int_finite a) by done. eexists. reflexivity. }
  all: destruct Z0 as [sg ->]; replace (s + a * b) with s by lia.
  all: destruct (Z.eq_dec s 0) as [->|Ns]; [by destruct sg|by rewrite (double_of_int_finite s)].
Qed.
