(* ===== verification/LuaLex.v ===== *)
(** * LuaLex: the string literals of core/lua/src/llex.c

    Scripts are put together from request fields and run by the embedded Lua, so
    what a literal means is decided by [read_string] (with lctype.c's character
    classes and [luaO_utf8esc] of lobject.c).  [current] is an [int], -1 at the end
    of the input; the buffer is the list of its bytes. *)

From S2P Require Import Prelude.

Definition EOZ : Z := -1.
Definition UCHAR_MAX : Z := 255.
Definition MAX_INT : Z := 2147483647.

(** ** lctype.c, lctype.h *)

Definition luai_ctype_ : list Z := [
  0; 0; 0; 0; 0; 0; 0; 0; 0; 0; 8; 8; 8; 8; 8; 0; 0; 0; 0; 0; 0; 0; 0; 0; 0;
  0; 0; 0; 0; 0; 0; 0; 0; 12; 4; 4; 4; 4; 4; 4; 4; 4; 4; 4; 4; 4; 4; 4; 4;
  22; 22; 22; 22; 22; 22; 22; 22; 22; 22; 4; 4; 4; 4; 4; 4; 4; 21; 21; 21; 21; 21; 21; 5;
  5; 5; 5; 5; 5; 5; 5; 5; 5; 5; 5; 5; 5; 5; 5; 5; 5; 5; 5; 4; 4; 4; 4; 5;
  4; 21; 21; 21; 21; 21; 21; 5; 5; 5; 5; 5; 5; 5; 5; 5; 5; 5; 5; 5; 5; 5; 5; 5;
  5; 5; 5; 4; 4; 4; 4; 0; 0; 0; 0; 0; 0; 0; 0; 0; 0; 0; 0; 0; 0; 0; 0; 0;
  0; 0; 0; 0; 0; 0; 0; 0; 0; 0; 0; 0; 0; 0; 0; 0; 0; 0; 0; 0; 0; 0; 0; 0;
  0; 0; 0; 0; 0; 0; 0; 0; 0; 0; 0; 0; 0; 0; 0; 0; 0; 0; 0; 0; 0; 0; 0; 0;
  0; 0; 0; 0; 0; 0; 0; 0; 0; 0; 0; 0; 0; 0; 0; 0; 0; 0; 0; 0; 0; 0; 0; 0;
  0; 0; 0; 0; 0; 0; 0; 0; 0; 0; 0; 0; 0; 0; 0; 0; 0; 0; 0; 0; 0; 0; 0; 0;
  0; 0; 0; 0; 0; 0; 0; 0; 0; 0; 0; 0; 0; 0; 0; 0].

Definition DIGITBIT : Z := 1.
Definition SPACEBIT : Z := 3.
Definition XDIGITBIT : Z := 4.
Definition testprop (c p : Z) : bool := negb (Z.land (get luai_ctype_ (c + 1)) p =? 0).
Definition lisdigit (c : Z) : bool := testprop c (Z.shiftl 1 DIGITBIT).
Definition lisspace (c : Z) : bool := testprop c (Z.shiftl 1 SPACEBIT).
Definition lisxdigit (c : Z) : bool := testprop c (Z.shiftl 1 XDIGITBIT).
Definition ltolower (c : Z) : Z := Z.lor c (Z.lxor 65 97).

Definition luaO_hexavalue (c : Z) : Z := if lisdigit c then c - 48 else ltolower c - 97 + 10.

(** ** The state of the lexer and its errors *)

Record LexState := mk_ls { current : Z; input : list Z; buff : list Z; linenumber : Z }.

Inductive lex_error :=
| Unfinished_string | Too_many_lines | Hexadecimal_digit_expected | Missing_open | Missing_close
| Utf8_too_large | Decimal_too_large | Invalid_escape | Out_of_fuel.

Inductive lex (A : Type) :=
| Lexed (a : A) (ls : LexState)
| Lexerror (msg : lex_error).
Arguments Lexed {A}.
Arguments Lexerror {A}.

Definition lbind {A B} (m : lex A) (k : A -> LexState -> lex B) : lex B :=
  match m with Lexed a ls => k a ls | Lexerror e => Lexerror e end.
Notation "'lex!' x , ls := m 'in' k" := (lbind m (fun x ls => k))
  (at level 200, x name, ls name, right associativity).

Definition next (ls : LexState) : LexState :=
  match input ls with
  | [] => mk_ls EOZ [] (buff ls) (linenumber ls)
  | c :: rest => mk_ls c rest (buff ls) (linenumber ls)
  end.
Definition save (c : Z) (ls : LexState) : LexState :=
  mk_ls (current ls) (input ls) (buff ls ++ [u8 c]) (linenumber ls).
Definition save_and_next (ls : LexState) : LexState := next (save (current ls) ls).
Definition buffremove (i : nat) (ls : LexState) : LexState :=
  mk_ls (current ls) (input ls) (take (length (buff ls) - i) (buff ls)) (linenumber ls).
Definition currIsNewline (ls : LexState) : bool := (current ls =? 10) || (current ls =? 13).

Definition inclinenumber (ls : LexState) : lex unit :=
  let old := current ls in
  let ls := next ls in
  let ls := if currIsNewline ls && negb (current ls =? old) then next ls else ls in
  let ls := mk_ls (current ls) (input ls) (buff ls) (linenumber ls + 1) in
  if MAX_INT <=? linenumber ls then Lexerror Too_many_lines else Lexed tt ls.

Definition esccheck (c : bool) (msg : lex_error) (ls : LexState) : lex unit :=
  if c then Lexed tt ls else Lexerror msg.

(** ** Escape sequences *)

Definition gethexa (ls : LexState) : lex Z :=
  let ls := save_and_next ls in
  lex! _, ls := esccheck (lisxdigit (current ls)) Hexadecimal_digit_expected ls in
  Lexed (luaO_hexavalue (current ls)) ls.

Definition readhexaesc (ls : LexState) : lex Z :=
  lex! r, ls := gethexa ls in
  lex! d, ls := gethexa ls in
  Lexed (Z.shiftl r 4 + d) (buffremove 2 ls).

Fixpoint utf8_digits (fuel i : nat) (r : Z) (ls : LexState) : lex (nat * Z) :=
  match fuel with
  | O => Lexerror Out_of_fuel
  | S fuel =>
      let ls := save_and_next ls in
      if lisxdigit (current ls) then
        let r := Z.shiftl r 4 + luaO_hexavalue (current ls) in
        lex! _, ls := esccheck (r <=? 0x10FFFF) Utf8_too_large ls in
        utf8_digits fuel (S i) r ls
      else Lexed (i, r) ls
  end.

Definition readutf8esc (fuel : nat) (ls : LexState) : lex Z :=
  let ls := save_and_next ls in
  lex! _, ls := esccheck (current ls =? 123) Missing_open ls in
  lex! r, ls := gethexa ls in
  lex! ir, ls := utf8_digits fuel 4 r ls in
  lex! _, ls := esccheck (current ls =? 125) Missing_close ls in
  Lexed (snd ir) (buffremove (fst ir) (next ls)).

(** The bytes [luaO_utf8esc] puts at the end of its buffer; [acc] are those it
    has, [mfb] the most that fits into a first byte.  Six rounds are enough for
    any [x] below 2^31. *)
Fixpoint utf8_loop (fuel : nat) (x mfb : Z) (acc : list Z) : list Z :=
  match fuel with
  | O => acc
  | S fuel =>
      let acc := u8 (Z.lor 0x80 (Z.land x 0x3f)) :: acc in
      let x := Z.shiftr x 6 in
      let mfb := Z.shiftr mfb 1 in
      if mfb <? x then utf8_loop fuel x mfb acc
      else u8 (Z.lor (Z.shiftl (Z.lnot mfb) 1) x) :: acc
  end.
Definition luaO_utf8esc (x : Z) : list Z :=
  if x <? 0x80 then [u8 x] else utf8_loop 6 x 0x3f [].

Definition utf8esc (fuel : nat) (ls : LexState) : lex unit :=
  lex! r, ls := readutf8esc fuel ls in
  Lexed tt (fold_left (fun ls c => save c ls) (luaO_utf8esc r) ls).

Fixpoint dec_digits (n i : nat) (r : Z) (ls : LexState) : nat * Z * LexState :=
  match n with
  | O => (i, r, ls)
  | S n =>
      if lisdigit (current ls) then
        dec_digits n (S i) (10 * r + current ls - 48) (save_and_next ls)
      else (i, r, ls)
  end.
Definition readdecesc (ls : LexState) : lex Z :=
  let '(i, r, ls) := dec_digits 3 0 0 ls in
  lex! _, ls := esccheck (r <=? UCHAR_MAX) Decimal_too_large ls in
  Lexed r (buffremove i ls).

(** [\z]: the span of spaces behind it. *)
Fixpoint zap_spaces (fuel : nat) (ls : LexState) : lex unit :=
  match fuel with
  | O => Lexerror Out_of_fuel
  | S fuel =>
      if lisspace (current ls) then
        lex! _, ls := (if currIsNewline ls then inclinenumber ls else Lexed tt (next ls)) in
        zap_spaces fuel ls
      else Lexed tt ls
  end.

Definition only_save (c : Z) (ls : LexState) : lex unit := Lexed tt (save c (buffremove 1 ls)).
Definition read_save (c : Z) (ls : LexState) : lex unit := only_save c (next ls).

(** The character behind the backslash. *)
Definition escape (fuel : nat) (ls : LexState) : lex unit :=
  let ls := save_and_next ls in
  let c := current ls in
  if c =? 97 then read_save 7 ls
  else if c =? 98 then read_save 8 ls
  else if c =? 102 then read_save 12 ls
  else if c =? 110 then read_save 10 ls
  else if c =? 114 then read_save 13 ls
  else if c =? 116 then read_save 9 ls
  else if c =? 118 then read_save 11 ls
  else if c =? 120 then lex! c, ls := readhexaesc ls in read_save c ls
  else if c =? 117 then utf8esc fuel ls
  else if (c =? 10) || (c =? 13) then lex! _, ls := inclinenumber ls in only_save 10 ls
  else if (c =? 92) || (c =? 34) || (c =? 39) then read_save c ls
  else if c =? EOZ then Lexed tt ls
  else if c =? 122 then zap_spaces fuel (next (buffremove 1 ls))
  else
    lex! _, ls := esccheck (lisdigit c) Invalid_escape ls in
    lex! c, ls := readdecesc ls in
    only_save c ls.

(** ** read_string *)

Fixpoint string_loop (fuel : nat) (del : Z) (ls : LexState) : lex unit :=
  match fuel with
  | O => Lexerror Out_of_fuel
  | S fuel =>
      let c := current ls in
      if c =? del then Lexed tt ls
      else if (c =? EOZ) || (c =? 10) || (c =? 13) then Lexerror Unfinished_string
      else if c =? 92 then lex! _, ls := escape fuel ls in string_loop fuel del ls
      else string_loop fuel del (save_and_next ls)
  end.

(** The token's text is the buffer without the delimiters. *)
Definition read_string (fuel : nat) (del : Z) (ls : LexState) : lex (list Z) :=
  let ls := save_and_next ls in
  lex! _, ls := string_loop fuel del ls in
  let ls := save_and_next ls in
  Lexed (take (length (buff ls) - 2) (drop 1 (buff ls))) ls.

(** The case of [llex] for a short literal: the buffer is empty when it starts. *)
Definition short_literal (fuel : nat) (ls : LexState) : lex (list Z) :=
  read_string fuel (current ls) (mk_ls (current ls) (input ls) [] (linenumber ls)).

(** ** Reading comes to an end *)

(** The characters that are left, the current one among them. *)
Definition left (ls : LexState) : nat :=
  (length (input ls) + if (current ls =? EOZ)%Z then 0 else 1)%nat.

Definition ends {A} (n : nat) (m : lex A) : Prop :=
  match m with Lexed _ ls => (left ls <= n)%nat | Lexerror e => e <> Out_of_fuel end.

Lemma ends_bind {A B} n n' (m : lex A) (k : A -> LexState -> lex B) :
  ends n m -> (forall a ls, (left ls <= n)%nat -> ends n' (k a ls)) -> ends n' (lbind m k).
Proof. destruct m; cbn; auto. Qed.

Lemma ends_le {A} n n' (m : lex A) : (n <= n')%nat -> ends n m -> ends n' m.
Proof. destruct m; cbn; [lia|done]. Qed.

Lemma next_left ls : (left (next ls) <= length (input ls))%nat.
Proof. unfold next, left. destruct (input ls); cbn [input current length]; case_match; lia. Qed.

Lemma left_buffremove i ls : left (buffremove i ls) = left ls.
Proof. done. Qed.

Lemma left_save c ls : left (save c ls) = left ls.
Proof. done. Qed.

Lemma save_next_left ls : (left (save_and_next ls) <= left ls)%nat.
Proof. unfold save_and_next. pose proof (next_left (save (current ls) ls)). unfold left at 2. cbn in *. lia. Qed.

Lemma save_next_less ls : current ls <> EOZ -> (left (save_and_next ls) < left ls)%nat.
Proof.
  intros. unfold save_and_next. pose proof (next_left (save (current ls) ls)). unfold left at 2. cbn in *.
  destruct (Z.eqb_spec (current ls) EOZ); [done|lia].
Qed.

Lemma next_le ls : (left (next ls) <= left ls)%nat.
Proof. pose proof (next_left ls). unfold left at 2. lia. Qed.

Lemma next_less ls : current ls <> EOZ -> (left (next ls) < left ls)%nat.
Proof.
  intros. pose proof (next_left ls). unfold left at 2. destruct (Z.eqb_spec (current ls) EOZ); [done|lia].
Qed.

Lemma esccheck_ends c msg ls : msg <> Out_of_fuel -> ends (left ls) (esccheck c msg ls).
Proof. by destruct c; cbn. Qed.

Create HintDb lexer.
#[export] Hint Resolve next_le save_next_left esccheck_ends : lexer.

Lemma inclinenumber_ends ls : ends (left (next ls)) (inclinenumber ls).
Proof.
  unfold inclinenumber. destruct (_ <=? _); [done|]. cbn [ends]. unfold left at 1. cbn [input current].
  fold (left (if currIsNewline (next ls) && negb (current (next ls) =? current ls) then next (next ls) else next ls)).
  destruct (_ && _); auto with lexer.
Qed.

Lemma gethexa_ends ls : ends (left ls) (gethexa ls).
Proof.
  unfold gethexa. eapply ends_bind; [by apply esccheck_ends|]. intros [] ls' H. cbn in *.
  pose proof (save_next_left ls). lia.
Qed.

Lemma eoz_not_digit c : lisxdigit c = true \/ lisdigit c = true \/ lisspace c = true -> c <> EOZ.
Proof. intros H ->. vm_compute in H. intuition discriminate. Qed.

Lemma utf8_digits_ends fuel : forall i r ls,
  current ls <> EOZ -> (left ls < fuel)%nat -> ends (left ls) (utf8_digits fuel i r ls).
Proof.
  induction fuel as [|fuel IH]; intros i r ls E Hf; [lia|]. cbn [utf8_digits].
  pose proof (save_next_less ls E). destruct (lisxdigit _) eqn:D; [|cbn; lia].
  unfold esccheck. case_match; [|done]. cbn [lbind]. eapply ends_le; [|apply IH; [|lia]]; [lia|].
  apply eoz_not_digit; auto.
Qed.

Lemma readutf8esc_ends fuel ls : (left ls < fuel)%nat -> ends (left ls) (readutf8esc fuel ls).
Proof.
  intros Hf. unfold readutf8esc. pose proof (save_next_left ls) as H1. set (ls1 := save_and_next ls) in *.
  unfold esccheck at 1. destruct (_ =? 123); [|done]. cbn [lbind].
  unfold gethexa. pose proof (save_next_left ls1) as H2. set (ls2 := save_and_next ls1) in *.
  unfold esccheck at 1. destruct (lisxdigit (current ls2)) eqn:D; [|done]. cbn [lbind].
  assert (E : current ls2 <> EOZ) by (apply eoz_not_digit; auto).
  eapply ends_bind; [apply utf8_digits_ends; [done|lia]|]. intros ir ls3 H3.
  unfold esccheck. destruct (_ =? 125); [|done]. cbn [lbind ends]. pose proof (next_le ls3).
  rewrite left_buffremove. lia.
Qed.

Lemma left_fold_save bs : forall ls, left (fold_left (fun ls c => save c ls) bs ls) = left ls.
Proof. induction bs as [|b bs IH]; intros ls; cbn [fold_left]; [done|]. rewrite IH. done. Qed.

Lemma dec_digits_left n : forall i r ls, (left (snd (dec_digits n i r ls)) <= left ls)%nat.
Proof.
  induction n as [|n IH]; intros i r ls; cbn [dec_digits]; [done|].
  destruct (lisdigit _); [|done]. etrans; [apply IH|apply save_next_left].
Qed.

Lemma zap_spaces_ends fuel : forall ls, (left ls < fuel)%nat -> ends (left ls) (zap_spaces fuel ls).
Proof.
  induction fuel as [|fuel IH]; intros ls Hf; [lia|]. cbn [zap_spaces].
  destruct (lisspace _) eqn:D; [|cbn; lia].
  assert (E : current ls <> EOZ) by (apply eoz_not_digit; auto). apply next_less in E.
  eapply (ends_bind (left (next ls))).
  - destruct (currIsNewline ls); [apply inclinenumber_ends|cbn; lia].
  - intros _ ls' Hl. eapply ends_le; [|apply IH; lia]. lia.
Qed.

Lemma escape_ends fuel ls : current ls <> EOZ -> (left ls <= fuel)%nat ->
  ends (left ls - 1) (escape fuel ls).
Proof.
  intros E Hf. apply save_next_less in E. unfold escape.
  set (l1 := save_and_next ls) in *. assert (H1 : (left l1 <= left ls - 1)%nat) by lia. clearbody l1.
  assert (RS : forall c l, (left l <= left l1)%nat -> ends (left ls - 1) (read_save c l)).
  { intros c l Hl. cbn [read_save only_save ends]. rewrite left_save, left_buffremove. pose proof (next_le l). lia. }
  assert (OS : forall c l, (left l <= left l1)%nat -> ends (left ls - 1) (only_save c l)).
  { intros c l Hl. cbn [only_save ends]. rewrite left_save, left_buffremove. lia. }
  repeat (case_match; [by apply RS|]).
  case_match.
  { unfold readhexaesc. eapply (ends_bind (left l1)); [|auto].
    eapply ends_bind; [apply gethexa_ends|]. intros r l2 K2. eapply (ends_bind (left l1)).
    - eapply ends_le; [|apply gethexa_ends]. done.
    - intros d l3 K3. cbn [ends]. by rewrite left_buffremove. }
  case_match.
  { unfold utf8esc. eapply ends_bind; [apply readutf8esc_ends; lia|]. intros r l2 K2.
    cbn [ends]. rewrite left_fold_save. lia. }
  case_match.
  { eapply ends_bind; [apply inclinenumber_ends|]. intros _ l2 K2. apply OS.
    pose proof (next_le l1). lia. }
  case_match; [by apply RS|]. case_match; [done|]. case_match.
  { eapply ends_le; [|apply zap_spaces_ends].
    - etrans; [apply next_le|]. rewrite left_buffremove. lia.
    - eapply Nat.le_lt_trans; [apply next_le|]. rewrite left_buffremove. lia. }
  eapply ends_bind; [by apply esccheck_ends|]. intros _ l2 K2. unfold readdecesc.
  pose proof (dec_digits_left 3 0 0 l2) as K3. destruct (dec_digits 3 0 0 l2) as [[i r] l3]. cbn [snd] in K3.
  eapply (ends_bind (left l1)); [|auto].
  eapply ends_bind; [by apply esccheck_ends|]. intros _ l4 K4. cbn [ends].
  rewrite left_buffremove. lia.
Qed.

Lemma string_loop_ends fuel : forall del ls, (left ls < fuel)%nat -> ends (left ls) (string_loop fuel del ls).
Proof.
  induction fuel as [|fuel IH]; intros del ls Hf; [lia|]. cbn [string_loop].
  destruct (_ =? del); [cbn; lia|]. destruct (Z.eqb_spec (current ls) EOZ); [done|].
  cbn [orb]. destruct (_ || _); [done|]. destruct (_ =? 92).
  - pose proof (save_next_less ls n).
    eapply ends_bind; [apply escape_ends; [done|lia]|]. intros _ ls' Hl.
    eapply ends_le; [|apply IH; lia]. lia.
  - pose proof (save_next_less ls n). eapply ends_le; [|apply IH; lia]. lia.
Qed.

(** Whatever follows the quote, reading a literal comes to an end: fuel above the
    number of characters left is never used up. *)
Lemma read_string_ends fuel del ls : (left ls < fuel)%nat -> read_string fuel del ls <> Lexerror Out_of_fuel.
Proof.
  intros Hf. unfold read_string. pose proof (save_next_left ls).
  pose proof (string_loop_ends fuel del (save_and_next ls)) as E.
  destruct (string_loop _ _ _) as [a l|e]; cbn in *; [done|]. intros [= ->]. by apply E; [lia|].
Qed.

(** ** What is read back *)

(** The lexer with [l] in front of it. *)
Definition at_ (l buf : list Z) (ln : Z) : LexState := next (mk_ls 0 l buf ln).

Lemma save_next_at c l buf ln : save_and_next (at_ (c :: l) buf ln) = at_ l (buf ++ [u8 c]) ln.
Proof. by destruct l. Qed.

Lemma next_at c l buf ln : next (at_ (c :: l) buf ln) = at_ l buf ln.
Proof. by destruct l. Qed.

Lemma current_at c l buf ln : current (at_ (c :: l) buf ln) = c.
Proof. done. Qed.

(** An escaped quote or backslash stands for itself. *)
Lemma escape_self fuel c l buf ln : c = 92 \/ c = 34 \/ c = 39 ->
  escape fuel (at_ (92 :: c :: l) buf ln) = Lexed tt (at_ l (buf ++ [c]) ln).
Proof.
  intros Hc. unfold escape. rewrite save_next_at, current_at.
  assert (R : read_save c (at_ (c :: l) (buf ++ [u8 92]) ln) = Lexed tt (at_ l (buf ++ [c]) ln)).
  { unfold read_save, only_save. rewrite next_at. unfold save, buffremove, at_, next.
    assert (T : take (length (buf ++ [u8 92]) - 1) (buf ++ [u8 92]) = buf).
    { rewrite length_app. cbn [length]. replace (length buf + 1 - 1)%nat with (length buf) by lia.
      apply take_app_length. }
    destruct Hc as [->|[->| ->]]; destruct l; cbn [current input buff linenumber]; rewrite T; done. }
  destruct Hc as [->|[->| ->]]; exact R.
Qed.
