(* ===== verification/LuaApi.v ===== *)
(** * LuaApi: what core/main.cpp gives to Lua scripts

    The functions a script calls with values on Lua's stack: [args] are the values
    from index 1 on, the result is the list of the values pushed that are returned.
    A [const char *] handed to C++ ends at its first NUL.  The clean-up threads of
    [Automanager] are here as well. *)

From stdpp Require Import sorting gmap.
From S2P Require Import Prelude.
From S2P Require Import Hash.
From S2P Require Import Func.
From S2P Require Import Text.
From S2P Require Import Packet.
From S2P Require Import Crypt.
From S2P Require Import YsDB.
From S2P Require Import Pools.
From S2P Require Import Cache.
From S2P Require Import HttpIo.
From S2P Require Import LuaLex.
From S2P Require Import Floats.

#[local] Open Scope Z_scope.

(** ** Lua's values *)

(** A float is given by the text Lua makes of it. *)
Inductive lua_value := LNil | LBool (b : bool) | LInt (z : Z) | LFloat (text : list Z) | LStr (s : list Z).

Definition larg (args : list lua_value) (i : nat) : lua_value := nth (i - 1) args LNil.

(** A number is a string to [lua_isstring]. *)
Definition lua_isstring (v : lua_value) : bool :=
  match v with LStr _ | LInt _ | LFloat _ => true | _ => false end.
Definition lua_isinteger (v : lua_value) : bool := match v with LInt _ => true | _ => false end.

(** [LUAI_NUMFFORMAT] for a 64-bit integer. *)
Definition int_text (z : Z) : list Z := if z <? 0 then 45 :: to_dec 19 (- z) else to_dec 19 z.
Definition lua_tostring (v : lua_value) : list Z :=
  match v with LStr s => c_str s | LInt z => int_text z | LFloat t => t | _ => [] end.
Definition lua_tointeger (v : lua_value) : Z := match v with LInt z => z | _ => 0 end.

(** ** class Lglobal *)

Definition globals : Type := gmap (list Z) (list Z).

Definition Lglobal_set (args : list lua_value) (m : globals) : list lua_value * globals :=
  if negb (lua_isstring (larg args 1)) then ([], m)
  else if negb (lua_isstring (larg args 2)) then ([], m)
  else ([], <[lua_tostring (larg args 1) := lua_tostring (larg args 2)]> m).

Definition Lglobal_read (args : list lua_value) (m : globals) : list lua_value * globals :=
  if negb (lua_isstring (larg args 1)) then ([], m)
  else match m !! lua_tostring (larg args 1) with
       | None => ([], m)
       | Some s => ([LStr s], m)
       end.

Definition Lglobal_del (args : list lua_value) (m : globals) : list lua_value * globals :=
  if negb (lua_isstring (larg args 1)) then ([], m)
  else ([], delete (lua_tostring (larg args 1)) m).

(** ** Filters *)

Definition pathfilter (args : list lua_value) : list lua_value :=
  if negb (lua_isstring (larg args 1)) then []
  else [LStr (map (fun c => if c =? 47 then 95 else c) (lua_tostring (larg args 1)))].

Fixpoint sql_loop (str : list Z) : list Z :=
  match str with
  | [] => []
  | c :: str => (if (c =? 34) || (c =? 39) then [c] else []) ++ c :: sql_loop str
  end.
Definition sqlfilter (args : list lua_value) : list lua_value :=
  if negb (lua_isstring (larg args 1)) then []
  else [LStr (sql_loop (lua_tostring (larg args 1)))].

Definition reps : list Z := [34; 92].
Fixpoint slash_loop (istr : list Z) : list Z :=
  match istr with
  | [] => []
  | c :: istr => (if existsb (Z.eqb c) reps then [92] else []) ++ c :: slash_loop istr
  end.
Definition addslashes (args : list lua_value) : list lua_value :=
  if negb (lua_isstring (larg args 1)) then []
  else [LStr (slash_loop (lua_tostring (larg args 1)))].

(** ** Calls of the client *)

(** What a function does to [client] and [server], whose operations are in
    Client.v; the client's lock is held around it. *)
Inductive api_call :=
| Upload (name path : list Z) | Download (name path : list Z) | Del (name : list Z)
| SetPwd (pwd lpwd : list Z) | SetPwdUser (pwd : list Z) (uid : Z) | NewUser (uid : Z).

(** [for(int i=0;i<8;i++){ str[i]=sname[i]; if(sname[i]=='\0') break; }] *)
Fixpoint copy8 (n i : nat) (sname str : list Z) : list Z :=
  match n with
  | O => str
  | S n =>
      let str := setn str i (getn sname i) in
      if getn sname i =? 0 then str else copy8 n (S i) sname str
  end.
(** [char str[9]; str[8]='\0'] and the loop; [junk]: what the array holds. *)
Definition name8 (sname junk : list Z) : list Z :=
  c_str (copy8 8 0 sname (setn (take 9 junk) 8 0)).

Definition lua_upload (clientdisabled : bool) (junk : list Z) (args : list lua_value) : list api_call :=
  if clientdisabled then []
  else if negb (lua_isstring (larg args 1)) then []
  else if negb (lua_isstring (larg args 2)) then []
  else [Upload (name8 (lua_tostring (larg args 1)) junk) (lua_tostring (larg args 2))].

Definition lua_download (clientdisabled : bool) (junk : list Z) (args : list lua_value) : list api_call :=
  if clientdisabled then []
  else if negb (lua_isstring (larg args 1)) then []
  else if negb (lua_isstring (larg args 2)) then []
  else [Download (name8 (lua_tostring (larg args 1)) junk) (lua_tostring (larg args 2))].

Definition lua_del (clientdisabled : bool) (junk : list Z) (args : list lua_value) : list api_call :=
  if clientdisabled then []
  else if negb (lua_isstring (larg args 1)) then []
  else [Del (name8 (lua_tostring (larg args 1)) junk)].

Definition lua_setPwd (clientdisabled : bool) (args : list lua_value) : list api_call :=
  if clientdisabled then []
  else if lua_isstring (larg args 1) then
    if negb (lua_isstring (larg args 2)) then []
    else [SetPwd (lua_tostring (larg args 1)) (lua_tostring (larg args 2))]
  else if lua_isinteger (larg args 1) then
    if negb (lua_isstring (larg args 2)) then []
    else [SetPwdUser (lua_tostring (larg args 2)) (s32 (lua_tointeger (larg args 1)))]
  else [].

Definition lua_newUser (clientdisabled : bool) (args : list lua_value) : list api_call :=
  if clientdisabled then []
  else if negb (lua_isinteger (larg args 1)) then []
  else [NewUser (s32 (lua_tointeger (larg args 1)))].

(** ** Data and keys *)

(** What the scripts rely on of LevelDB's iterator: it goes through the entries in
    the order of their keys. *)
Class KVIter (D : Type) `{KV D} := {
  kv_entries : D -> list (list Z * list Z);
  kv_entries_get d k v : (k, v) ∈ kv_entries d <-> kv_get d k = Some v;
  kv_entries_sorted d : StronglySorted key_lt (map fst (kv_entries d))
}.

Section Data.
Context {D : Type} `{KVIter D}.

(** The loop of [lua_ldata_find], from the entry the iterator is at. *)
Fixpoint find_loop (its : list (list Z * list Z)) (i from lim : Z) (pre : option (list Z))
    (rded : bool) : list lua_value :=
  match its with
  | [] => []
  | (key, value) :: its =>
      if (0 <? lim) && (lim <=? i) then []
      else
        let i := if 0 <? lim then i + 1 else i in
        if i <? from then find_loop its i from lim pre rded
        else
          let shown := LStr (c_str value) :: find_loop its i from lim pre true in
          match pre with
          | Some p =>
              if negb (prefix_match p (c_str key)) then
                if rded then [] else find_loop its i from lim pre rded
              else shown
          | None => shown
          end
  end.

(** [Seek]: from the first key that is not below the target. *)
Fixpoint seek (target : list Z) (its : list (list Z * list Z)) : list (list Z * list Z) :=
  match its with
  | [] => []
  | (k, v) :: its' => if key_ltb k target then seek target its' else its
  end.

Definition lua_ldata_find (db : ysdb D) (args : list lua_value) : option (list lua_value) :=
  if negb (lua_isstring (larg args 1)) then None
  else if negb (lua_isinteger (larg args 2)) then None
  else if negb (lua_isinteger (larg args 3)) then None
  else if negb (lua_isstring (larg args 4)) then None
  else
    let pre := if is_empty (lua_tostring (larg args 4)) then None else Some (lua_tostring (larg args 4)) in
    let its := if is_empty (lua_tostring (larg args 1)) then kv_entries (ldata db)
               else seek (lua_tostring (larg args 1)) (kv_entries (ldata db)) in
    let from := s32 (lua_tointeger (larg args 2)) in
    let lim := s32 (from + lua_tointeger (larg args 3)) in
    Some (find_loop its 0 from lim pre false).

Definition ldata_read (db : ysdb D) (args : list lua_value) : list lua_value :=
  if negb (lua_isstring (larg args 1)) then []
  else let '(_, src) := YsDB.Get (ldata db) (lua_tostring (larg args 1)) [] in [LStr (c_str src)].

Definition ldata_set (db : ysdb D) (args : list lua_value) : list lua_value * ysdb D :=
  if negb (lua_isstring (larg args 1)) then ([], db)
  else if negb (lua_isstring (larg args 2)) then ([], db)
  else ([LBool true], with_ldata db (kv_put (ldata db) (lua_tostring (larg args 1)) (lua_tostring (larg args 2)))).

Definition ldata_delete (db : ysdb D) (args : list lua_value) : list lua_value * ysdb D :=
  if negb (lua_isstring (larg args 1)) then ([], db)
  else ([LBool true], with_ldata db (kv_del (ldata db) (lua_tostring (larg args 1)))).

(** [client.key] and the database; [for(int i=0;(i<16 && str[i]);i++)]. *)
Fixpoint key_chars (n i : nat) (str key : list Z) : list Z :=
  match n with
  | O => key
  | S n => if getn str i =? 0 then key else key_chars n (S i) str (setn key i (getn str i))
  end.
Definition lua_setkey (clientdisabled : bool) (args : list lua_value) (s : list Z * ysdb D)
    : list Z * ysdb D :=
  if clientdisabled then s
  else if negb (lua_isstring (larg args 1)) then s
  else
    let key := key_chars 16 0 (lua_tostring (larg args 1)) (bzero 16) in
    if negb (lua_isinteger (larg args 2)) then (key, snd s)
    else (fst s, setkey (snd s) (s32 (lua_tointeger (larg args 2))) key).

(** [junk] and [buf]: the uninitialised [key] and the buffer of its decoding. *)
Definition lua_getkey (junk buf : list Z) (args : list lua_value) (s : list Z * ysdb D) : list lua_value :=
  let tk := if negb (lua_isinteger (larg args 1)) then fst s
            else snd (getkey (snd s) (s32 (lua_tointeger (larg args 1))) junk buf) in
  [LStr (c_str (map (getn tk) (seq 0 16)))].

(** [int num] is not set when the text is no number. *)
Definition hex2num (num : Z) (args : list lua_value) : list lua_value :=
  if negb (lua_isstring (larg args 1)) then []
  else [LInt (default num (str2int (lua_tostring (larg args 1))))].

(** ** Automanager *)

(** One round of [freeunique] at the time [nowtime]: the entries are those of a
    snapshot. *)
Definition freeunique (nowtime : Z) (db : ysdb D) : ysdb D :=
  with_unique db
    (fold_left (fun u '(k, v) =>
       let time := atoi v in
       if Z.abs (time - nowtime) <? 300 then u else kv_del u k)
     (kv_entries (unique db)) (unique db)).
End Data.

(** The arrays of [freemems] and one hour of it, up to the loop that frees; [None]:
    the loop is not reached.  The sums stay in an [int] for the first decades. *)
Definition freemems_hour (nowhour : nat) (mallocCount usingCount : Z) (num times : list Z)
    : list Z * list Z * option Z :=
  let nownum := getn num nowhour in
  let buf := getn num nowhour * getn times nowhour in
  let times := setn times nowhour (getn times nowhour + 1) in
  let num := setn num nowhour (Z.quot (buf + mallocCount) (getn times nowhour)) in
  (num, times,
   if nownum <? 64 then None
   else if SFltb (float_literal 4 5) (SFabs (fdiv (float_of_int usingCount) (float_of_int mallocCount))) then None
   else Some (nownum + 32)).

(** [while(yrssf::pool.mallocCount>(nownum+32)) yrssf::pool.freeone()] *)
Fixpoint freemems_loop (fuel : nat) (limit : Z) (p : rpool) : option rpool :=
  if rp_malloc p <=? limit then Some p
  else match fuel with O => None | S fuel => freemems_loop fuel limit (freeone p) end.

(** ** SQLite's quoted tokens: core/sqlite/sqlite3.c

    The statements of [runsql] are read by [sqlite3GetToken], here the case of a
    quote character, and [sqlite3Dequote]. *)

Inductive sql_token := TK_STRING | TK_ID | TK_ILLEGAL.

(** From character [i] on: where the loop ends and the character there. *)
Fixpoint quote_loop (delim : Z) (z : list Z) (i : nat) : nat * Z :=
  match z with
  | [] => (i, 0)
  | c :: z =>
      if c =? 0 then (i, 0)
      else if c =? delim then
        match z with
        | c2 :: z' => if c2 =? delim then quote_loop delim z' (S (S i)) else (i, c)
        | [] => (i, c)
        end
      else quote_loop delim z (S i)
  end.
Definition quote_token (z : list Z) : sql_token * nat :=
  let '(i, c) := quote_loop (getn z 0) (drop 1 z) 1 in
  if c =? 39 then (TK_STRING, S i) else if negb (c =? 0) then (TK_ID, S i) else (TK_ILLEGAL, i).

Definition sqlite3Isquote (x : Z) : bool := (x =? 34) || (x =? 39) || (x =? 91) || (x =? 96).

(** The text between the quotes, with doubled ones halved; the loop must meet its
    quote ([assert( z[i] )]). *)
Fixpoint dequote_loop (quote : Z) (z : list Z) : list Z :=
  match z with
  | [] => []
  | c :: z =>
      if c =? quote then
        match z with
        | c2 :: z' => if c2 =? quote then quote :: dequote_loop quote z' else []
        | [] => []
        end
      else c :: dequote_loop quote z
  end.
Definition sqlite3Dequote (z : list Z) : list Z :=
  let quote := getn z 0 in
  if negb (sqlite3Isquote quote) then z
  else dequote_loop (if quote =? 91 then 93 else quote) (drop 1 z).

(** ** A database as a finite map *)

Definition entry_le (a b : list Z * list Z) : Prop := key_ltb (fst b) (fst a) = false.

#[export] Instance entry_le_dec a b : Decision (entry_le a b).
Proof. unfold entry_le. apply _. Defined.

#[export] Instance entry_le_total : Total entry_le.
Proof.
  intros a b. unfold entry_le. destruct (key_ltb (fst b) (fst a)) eqn:E; [right|by left].
  apply not_true_is_false. intros E'. by apply (key_lt_irrefl (fst a)), (key_lt_trans _ (fst b)).
Qed.

#[export] Instance entry_le_trans : Transitive entry_le.
Proof.
  intros a b c. unfold entry_le. intros H1 H2. apply not_true_is_false. intros E.
  destruct (key_lt_total (fst a) (fst b)) as [L|[L|L]].
  - assert (key_lt (fst c) (fst b)) by (by eapply key_lt_trans). unfold key_lt in *. congruence.
  - rewrite L in E. congruence.
  - unfold key_lt in L. congruence.
Qed.

Lemma strictly_sorted (l : list (list Z * list Z)) :
  NoDup (map fst l) -> StronglySorted entry_le l -> StronglySorted key_lt (map fst l).
Proof.
  induction 2 as [|a l Hs IH Ha]; cbn in *; [constructor|].
  apply list.NoDup_cons in H as [Hn Hd]. constructor; [by apply IH|].
  rewrite Forall_map. rewrite Forall_forall in *. intros b Hb.
  destruct (key_lt_total (fst a) (fst b)) as [L|[L|L]]; [done| |].
  - destruct Hn. rewrite L. rewrite list_elem_of_In in *. by apply in_map.
  - specialize (Ha b Hb). unfold entry_le in Ha. unfold key_lt in L. congruence.
Qed.

#[export] Program Instance gmap_kv_iter : KVIter (gmap (list Z) (list Z)) := {
  kv_entries d := merge_sort entry_le (map_to_list d)
}.
Next Obligation.
  intros. simpl. rewrite merge_sort_Permutation. apply elem_of_map_to_list.
Qed.
Next Obligation.
  intros. simpl. apply strictly_sorted.
  - rewrite merge_sort_Permutation. apply NoDup_fst_map_to_list.
  - apply StronglySorted_merge_sort; apply _.
Qed.

(** ** Escaped text is read back *)

Lemma c_str_length l : (length (c_str l) <= length l)%nat.
Proof. induction l as [|x l IH]; cbn; [done|]. destruct (x =? 0); cbn; lia. Qed.

Lemma c_str_bytes l : bytes_ok l -> bytes_ok (c_str l).
Proof. induction 1 as [|x l Hx _ IH]; cbn; [done|]. destruct (x =? 0); auto. Qed.

Lemma c_str_no_nul l : Forall (fun x => x <> 0) (c_str l).
Proof. induction l as [|x l IH]; cbn; [done|]. destruct (Z.eqb_spec x 0); auto. Qed.

Definition is_newline (c : Z) : bool := (c =? 10) || (c =? 13).

Lemma slash_loop_read fuel : forall s rest buf ln, bytes_ok s -> (length s < fuel)%nat ->
  string_loop fuel 34 (at_ (slash_loop s ++ 34 :: rest) buf ln)
  = if existsb is_newline s then Lexerror Unfinished_string
    else Lexed tt (at_ (34 :: rest) (buf ++ s) ln).
Proof.
  induction fuel as [|fuel IH]; intros s rest buf ln Hb Hf; [lia|].
  destruct s as [|c s]; [cbn; by rewrite app_nil_r|].
  inversion_clear Hb as [|? ? Hc Hs]. cbn [length] in Hf. cbn [slash_loop existsb reps].
  rewrite orb_false_r. destruct ((c =? 34) || (c =? 92)) eqn:Q; cbn [app string_loop].
  - rewrite current_at. change (92 =? 34) with false. change ((92 =? EOZ) || (92 =? 10) || (92 =? 13)) with false.
    change (92 =? 92) with true. cbv iota. rewrite escape_self.
    + cbn [lbind]. rewrite IH by (done || lia).
      replace (is_newline c) with false.
      * cbn [orb]. by rewrite <- app_assoc.
      * unfold is_newline. apply orb_true_iff in Q as [Q|Q]; apply Z.eqb_eq in Q as ->; done.
    + rewrite orb_true_iff, !Z.eqb_eq in Q. tauto.
  - rewrite current_at. apply orb_false_iff in Q as [Q1 Q2]. rewrite Q1, Q2.
    assert (Ee : (c =? EOZ) = false) by (apply Z.eqb_neq; unfold EOZ, byte_ok in *; lia).
    rewrite Ee. cbn [orb]. unfold is_newline at 1. destruct ((c =? 10) || (c =? 13)); [done|].
    rewrite save_next_at, IH by (done || lia). rewrite <- app_assoc, u8_id by done. done.
Qed.

(** C34.  A text that went through [addslashes] and was put between double quotes in a
    script is one string literal to the lexer, which ends at the quote put behind
    it, whatever follows: its value is the text, up to its first NUL.  A text with
    a line break does not get out of the literal either, it makes the script
    fail. *)
Theorem addslashes_literal s rest buf ln fuel : bytes_ok s -> (length s < fuel)%nat ->
  exists esc, addslashes [LStr s] = [LStr esc] /\
  short_literal fuel (at_ (34 :: esc ++ 34 :: rest) buf ln)
  = if existsb is_newline (c_str s) then Lexerror Unfinished_string
    else Lexed (c_str s) (at_ rest (34 :: c_str s ++ [34]) ln).
Proof.
  intros Hb Hf. exists (slash_loop (c_str s)). split; [done|].
  assert (Hl : (length (c_str s) <= length s)%nat) by apply c_str_length.
  unfold short_literal, read_string.
  change (mk_ls _ _ [] _) with (at_ (34 :: slash_loop (c_str s) ++ 34 :: rest) [] ln).
  rewrite save_next_at. change (current _) with 34. cbn [app]. change (u8 34) with 34.
  rewrite slash_loop_read by (by apply c_str_bytes || lia).
  destruct (existsb _ _); [done|]. cbn [lbind app]. rewrite save_next_at.
  assert (B : forall b, buff (at_ rest b ln) = b) by (by destruct rest).
  rewrite B. change (u8 34) with 34. cbn [drop length app]. rewrite length_app. cbn [length].
  replace (S (length (c_str s) + 1) - 2)%nat with (length (c_str s)) by lia.
  rewrite drop_0, take_app_length. done.
Qed.

Lemma addslashes_literal_witness :
  exists esc, addslashes [LStr (lit "a" ++ [34; 92; 39])] = [LStr esc] /\
  short_literal 5 (at_ (34 :: esc ++ 34 :: lit ") os.exit(") [] 1)
  = Lexed (lit "a" ++ [34; 92; 39]) (at_ (lit ") os.exit(") (34 :: (lit "a" ++ [34; 92; 39]) ++ [34]) 1).
Proof.
  refine (addslashes_literal (lit "a" ++ [34; 92; 39]) (lit ") os.exit(") [] 1 5 _ _).
  - repeat constructor; vm_compute; congruence.
  - vm_compute. repeat constructor.
Defined.

(** What a literal between quotes [q] says: the other kind of quote is doubled in it. *)
Definition double_other (q c : Z) : list Z :=
  if ((c =? 34) || (c =? 39)) && negb (c =? q) then [c; c] else [c].

Lemma quote_loop_filtered q : q = 34 \/ q = 39 -> forall s rest i,
  Forall (fun c => c <> 0) s -> head rest <> Some q ->
  quote_loop q (sql_loop s ++ q :: rest) i = ((i + length (sql_loop s))%nat, q).
Proof.
  intros Hq. assert (Q0 : (q =? 0) = false) by (by destruct Hq as [->| ->]).
  induction s as [|c s IH]; intros rest i Hs Hr; cbn [sql_loop app quote_loop length].
  - rewrite Q0, Z.eqb_refl, Nat.add_0_r. destruct rest as [|d rest]; [done|]. cbn in Hr.
    destruct (Z.eqb_spec d q) as [->|]; [done|done].
  - inversion_clear Hs as [|? ? Hc Hs']. apply Z.eqb_neq in Hc.
    destruct ((c =? 34) || (c =? 39)) eqn:E; cbn [app quote_loop length]; rewrite Hc.
    + destruct (Z.eqb_spec c q) as [->|N].
      * rewrite ?Z.eqb_refl, IH by done. f_equal. lia.
      * rewrite IH by done. f_equal. lia.
    + destruct (Z.eqb_spec c q) as [->|N].
      * destruct Hq as [->| ->]; discriminate.
      * rewrite IH by done. f_equal. lia.
Qed.

Lemma dequote_filtered q : q = 34 \/ q = 39 -> forall s,
  dequote_loop q (sql_loop s ++ [q]) = flat_map (double_other q) s.
Proof.
  intros Hq. induction s as [|c s IH]; cbn [sql_loop app dequote_loop flat_map].
  - by rewrite Z.eqb_refl.
  - unfold double_other at 1. destruct ((c =? 34) || (c =? 39)) eqn:E; cbn [app dequote_loop andb].
    + destruct (Z.eqb_spec c q) as [->|N]; cbn [negb app]; [by rewrite ?Z.eqb_refl, IH|].
      by rewrite IH.
    + destruct (Z.eqb_spec c q) as [->|N]; [destruct Hq as [->| ->]; discriminate|]. cbn [app]. by rewrite IH.
Qed.

(** C35.  A text that went through [sqlfilter] and was put between quotes of either
    kind in a statement is one token to SQLite, which ends at the quote put behind
    it unless another quote follows.  The token's value is the text itself with
    every quote of the other kind doubled: only a text without such quotes is
    read back as it was. *)
Theorem sqlfilter_literal q s rest : q = 34 \/ q = 39 -> head rest <> Some q ->
  exists esc, sqlfilter [LStr s] = [LStr esc] /\
  quote_token (q :: esc ++ q :: rest) = (if q =? 39 then TK_STRING else TK_ID, length (q :: esc ++ [q])) /\
  sqlite3Dequote (q :: esc ++ [q]) = flat_map (double_other q) (c_str s) /\
  (sqlite3Dequote (q :: esc ++ [q]) = c_str s <->
   forall c, In c (c_str s) -> c = 34 \/ c = 39 -> c = q).
Proof.
  intros Hq Hr. exists (sql_loop (c_str s)). split; [done|].
  assert (D : sqlite3Dequote (q :: sql_loop (c_str s) ++ [q]) = flat_map (double_other q) (c_str s)).
  { unfold sqlite3Dequote, getn. cbn [nth]. rewrite skipn_cons, drop_0.
    rewrite <- (dequote_filtered q Hq). by destruct Hq as [->| ->]. }
  split; [|split; [done|]].
  - unfold quote_token, getn. cbn [nth]. rewrite skipn_cons, drop_0. rewrite quote_loop_filtered; [|done|apply c_str_no_nul|done].
    cbn [length]. rewrite length_app. cbn [length].
    destruct Hq as [->| ->]; cbn; f_equal; lia.
  - rewrite D. generalize (c_str s). clear D Hr s. intros s. split.
    + assert (L : forall l, (length l <= length (flat_map (double_other q) l))%nat).
      { induction l as [|c l IH]; cbn; [lia|]. rewrite length_app. unfold double_other at 1.
        case_match; cbn; lia. }
      induction s as [|c s IH]; intros E x Hx Hx'; [done|]. cbn [flat_map] in E. unfold double_other at 1 in E.
      destruct (((c =? 34) || (c =? 39)) && negb (c =? q)) eqn:C.
      * apply (f_equal length) in E. cbn in E. specialize (L s). lia.
      * injection E as E. destruct Hx as [<-|Hx]; [|by apply IH].
        destruct (Z.eqb_spec c q) as [|N]; [done|]. rewrite andb_true_r, orb_false_iff, !Z.eqb_neq in C. lia.
    + intros H. induction s as [|c s IH]; [done|]. cbn [flat_map]. rewrite IH by (intros; apply H; [by right|done]).
      unfold double_other. destruct ((c =? 34) || (c =? 39)) eqn:C; [|done].
      rewrite orb_true_iff, !Z.eqb_eq in C. rewrite (H c); [by rewrite Z.eqb_refl|by left|done].
Qed.

Lemma sqlfilter_literal_witness :
  exists esc, sqlfilter [LStr [97; 39; 34]] = [LStr esc] /\
  quote_token (39 :: esc ++ 39 :: lit " or 1=1") = (TK_STRING, length (39 :: esc ++ [39])) /\
  sqlite3Dequote (39 :: esc ++ [39]) = [97; 39; 34; 34] /\
  (sqlite3Dequote (39 :: esc ++ [39]) = [97; 39; 34] <->
   forall c, In c [97; 39; 34] -> c = 34 \/ c = 39 -> c = 39).
Proof. apply (sqlfilter_literal 39 [97; 39; 34] (lit " or 1=1")); [by right|discriminate]. Defined.

(** ** LDATA_find *)

Section Find.
Context {D : Type} `{KVIter D}.

Lemma sorted_filter (f : list Z * list Z -> bool) (l : list (list Z * list Z)) :
  StronglySorted key_lt (map fst l) -> StronglySorted key_lt (map fst (List.filter f l)).
Proof.
  induction l as [|a l IH]; cbn; [done|]. rewrite StronglySorted_cons. intros [Ha Hs].
  destruct (f a); cbn; [|by apply IH]. rewrite StronglySorted_cons. split; [|by apply IH].
  rewrite List.Forall_forall in *. intros x Hx. apply Ha.
  apply in_map_iff in Hx as (b & <- & Hb). apply filter_In in Hb as [Hb _]. by apply in_map.
Qed.

Lemma sorted_take_drop n m (l : list (list Z * list Z)) :
  StronglySorted key_lt (map fst l) -> StronglySorted key_lt (map fst (drop n (take m l))).
Proof.
  intros Hs. rewrite <- (take_drop m l), map_app in Hs. apply StronglySorted_app_1_l in Hs.
  rewrite <- (take_drop n (take m l)), map_app in Hs. by apply StronglySorted_app_1_r in Hs.
Qed.

(** [Seek] skips the keys below the target. *)
Lemma seek_filter t l : StronglySorted key_lt (map fst l) ->
  seek t l = List.filter (fun kv => negb (key_ltb (fst kv) t)) l.
Proof.
  induction l as [|[k v] l IH]; cbn [map fst seek]; [done|]. rewrite StronglySorted_cons. intros [Ha Hs].
  cbn. destruct (key_ltb k t) eqn:E; cbn; [by apply IH|]. f_equal.
  rewrite List.Forall_forall in Ha. symmetry. clear IH Hs. induction l as [|[k' v'] l IH]; cbn; [done|].
  assert (E' : key_ltb k' t = false).
  { apply not_true_is_false. intros E'. specialize (Ha k' (or_introl eq_refl)).
    assert (key_lt k t) by (by apply (key_lt_trans _ k')). unfold key_lt in *. congruence. }
  rewrite E'. cbn. f_equal. apply IH. intros x Hx. apply Ha. by right.
Qed.

(** Keys between two keys with a prefix have that prefix. *)
Lemma prefix_between p : forall a b c, Forall (fun x => x <> 0) p ->
  prefix_match p (c_str a) = true -> prefix_match p (c_str c) = true -> key_lt a b -> key_lt b c ->
  prefix_match p (c_str b) = true.
Proof.
  unfold key_lt. induction p as [|x p IH]; intros a b c Hp Ha Hc Hab Hbc; [done|].
  inversion_clear Hp as [|? ? Hx Hp']. apply Z.eqb_neq in Hx. cbn [prefix_match] in *. rewrite Hx in *.
  destruct a as [|y a]; cbn in Ha; [done|]. destruct (y =? 0) eqn:Y; [done|].
  destruct (Z.eqb_spec x y) as [<-|]; [|done].
  destruct c as [|z c]; cbn in Hc; [done|]. destruct (z =? 0); [done|].
  destruct (Z.eqb_spec x z) as [<-|]; [|done].
  destruct b as [|w b]; [done|]. cbn in Hab, Hbc.
  rewrite orb_true_iff, andb_true_iff, Z.ltb_lt, Z.eqb_eq in Hab, Hbc.
  assert (w = x) as -> by lia. cbn. rewrite Hx, Z.eqb_refl.
  apply (IH a b c Hp' Ha Hc); [destruct Hab as [|[_ ?]]; [lia|done]|destruct Hbc as [|[_ ?]]; [lia|done]].
Qed.

(** The entries that are not skipped, from entry number [i] on. *)
Definition window (i from lim : Z) (es : list (list Z * list Z)) : list (list Z * list Z) :=
  if 0 <? lim then drop (Z.to_nat (from - 1 - i)) (take (Z.to_nat (lim - i)) es)
  else if i <? from then [] else es.

(** What the loop shows of them. *)
Fixpoint scan (pre : list Z) (rded : bool) (es : list (list Z * list Z)) : list lua_value :=
  match es with
  | [] => []
  | (k, v) :: es =>
      if prefix_match pre (c_str k) then LStr (c_str v) :: scan pre true es
      else if rded then [] else scan pre false es
  end.

Definition opt_pre (p : list Z) : option (list Z) := if is_empty p then None else Some p.

Lemma find_loop_scan p : forall es i from lim rded,
  find_loop es i from lim (opt_pre p) rded = scan p rded (window i from lim es).
Proof.
  induction es as [|[k v] es IH]; intros i from lim rded; cbn [find_loop].
  { unfold window. destruct (0 <? lim); [by rewrite take_nil, drop_nil|by case_match]. }
  assert (One : forall i', find_loop es i' from lim (opt_pre p) rded = scan p rded (window i' from lim es)) by auto.
  assert (Show : forall i', match opt_pre p with
     | Some p0 => if negb (prefix_match p0 (c_str k)) then if rded then [] else find_loop es i' from lim (opt_pre p) rded
                  else LStr (c_str v) :: find_loop es i' from lim (opt_pre p) true
     | None => LStr (c_str v) :: find_loop es i' from lim (opt_pre p) true end
     = scan p rded ((k, v) :: window i' from lim es)).
  { intros i'. rewrite !IH. cbn [scan]. unfold opt_pre. destruct p as [|x p]; cbn [is_empty prefix_match]; [done|].
    destruct (if x =? 0 then true else _); cbn [negb]; [done|]. by destruct rded. }
  destruct (Z.ltb_spec 0 lim) as [Hl|Hl]; cbn [andb].
  - destruct (Z.leb_spec lim i) as [Hi|Hi].
    { unfold window. rewrite (proj2 (Z.ltb_lt 0 lim)) by done.
      replace (Z.to_nat (lim - i)) with 0%nat by lia. by rewrite take_0, drop_nil. }
    assert (W : window i from lim ((k, v) :: es)
      = if i + 1 <? from then window (i + 1) from lim es else (k, v) :: window (i + 1) from lim es).
    { unfold window. rewrite (proj2 (Z.ltb_lt 0 lim)) by done.
      replace (Z.to_nat (lim - i)) with (S (Z.to_nat (lim - (i + 1)))) by lia. rewrite firstn_cons.
      destruct (Z.ltb_spec (i + 1) from).
      - replace (Z.to_nat (from - 1 - i)) with (S (Z.to_nat (from - 1 - (i + 1)))) by lia. by rewrite skipn_cons.
      - replace (Z.to_nat (from - 1 - i)) with 0%nat by lia.
        replace (Z.to_nat (from - 1 - (i + 1))) with 0%nat by lia. by rewrite !drop_0. }
    rewrite W. destruct (i + 1 <? from); [apply One|apply Show].
  - assert (W : window i from lim ((k, v) :: es)
      = if i <? from then window i from lim es else (k, v) :: window i from lim es).
    { unfold window. rewrite (proj2 (Z.ltb_ge 0 lim)) by done. by destruct (i <? from). }
    rewrite W. destruct (i <? from); [apply One|apply Show].
Qed.

Lemma scan_filter p es : Forall (fun x => x <> 0) p -> StronglySorted key_lt (map fst es) ->
  scan p false es
  = map (fun kv => LStr (c_str (snd kv))) (List.filter (fun kv => prefix_match p (c_str (fst kv))) es).
Proof.
  intros Hp.
  assert (After : forall a es, prefix_match p (c_str a) = true -> Forall (key_lt a) (map fst es) ->
    StronglySorted key_lt (map fst es) ->
    scan p true es
    = map (fun kv => LStr (c_str (snd kv))) (List.filter (fun kv => prefix_match p (c_str (fst kv))) es)).
  { intros a. induction es0 as [|[k v] es0 IH]; cbn [map fst scan List.filter]; [done|].
    rewrite list.Forall_cons, StronglySorted_cons. intros Ha [Hak Hae] [Hk Hs].
    destruct (prefix_match p (c_str k)) eqn:E; cbn [map snd]; [f_equal; by apply IH|].
    clear IH. symmetry. induction es0 as [|[k' v'] es0 IH]; cbn [List.filter]; [done|]. cbn [map fst] in *.
    rewrite list.Forall_cons in Hk, Hae. destruct Hk as [Hkk Hk]. destruct Hae as [_ Hae]. rewrite StronglySorted_cons in Hs.
    destruct (prefix_match p (c_str k')) eqn:E'; [|by apply IH; tauto].
    rewrite (prefix_between p a k k') in E; done. }
  induction es as [|[k v] es IH]; cbn [map fst scan List.filter]; [done|].
  rewrite StronglySorted_cons. intros [Hk Hs]. destruct (prefix_match p (c_str k)) eqn:E; cbn [map snd].
  - f_equal. by apply (After k).
  - by apply IH.
Qed.
End Find.

(** The entries a call looks at: all but the first [from - 1] of the first [lim], if
    [lim] is positive. *)
Definition page (from lim : Z) (es : list (list Z * list Z)) : list (list Z * list Z) :=
  if 0 <? lim then drop (Z.to_nat (from - 1)) (take (Z.to_nat lim) es)
  else if 0 <? from then [] else es.

(**  [LDATA_find(begin, from, n, prefix)] gives, in the order of the keys, the
    values of the entries with the prefix among a page of the entries from
    [begin] on.  The page ends at entry number [from + n]; it begins at entry
    number [from], counted from 1, so that a call from 1 or further on looks at
    [n + 1] entries and two calls that follow each other at one entry twice. *)
Lemma ldata_find_spec {D : Type} `{KVIter D} (db : ysdb D) b f n p :
  let from := s32 f in
  let lim := s32 (from + n) in
  let es := List.filter (fun kv => negb (key_ltb (fst kv) (c_str b))) (kv_entries (ldata db)) in
  lua_ldata_find db [LStr b; LInt f; LInt n; LStr p]
  = Some (map (fun kv => LStr (c_str (snd kv)))
            (List.filter (fun kv => prefix_match (c_str p) (c_str (fst kv))) (page from lim es))) /\
  (1 <= from -> 0 <= n -> from + n < 2 ^ 31 -> from + n <= Z.of_nat (length es) ->
   length (page from lim es) = Z.to_nat (n + 1)).
Proof.
  intros from lim es. split.
  - unfold lua_ldata_find, larg. cbn [nth Nat.sub lua_isstring lua_isinteger negb lua_tostring lua_tointeger].
    fold from. fold lim. fold (opt_pre (c_str p)).
    assert (Es : (if is_empty (c_str b) then kv_entries (ldata db) else seek (c_str b) (kv_entries (ldata db))) = es).
    { unfold es. rewrite <- seek_filter by apply kv_entries_sorted. destruct (c_str b); [|done].
      cbn [is_empty]. destruct (kv_entries (ldata db)) as [|[[|] ?] ?]; done. }
    rewrite Es, find_loop_scan. f_equal.
    replace (window 0 from lim es) with (page from lim es) by (unfold page, window; by rewrite !Z.sub_0_r).
    apply scan_filter; [apply c_str_no_nul|].
    assert (Hs : StronglySorted key_lt (map fst es)) by apply sorted_filter, kv_entries_sorted.
    unfold page. destruct (0 <? lim); [by apply sorted_take_drop|]. destruct (0 <? from); [constructor|done].
  - intros Hf Hn Hm Hl. unfold page.
    assert (lim = from + n) as -> by (apply s32_id; lia).
    rewrite (proj2 (Z.ltb_lt _ _)) by lia. rewrite length_drop, length_take. lia.
Qed.

Lemma ldata_find_spec_witness :
  let db := with_ldata empty_db {[ [97; 98] := [1]; [97; 99] := [2]; [98] := [3] ]} in
  lua_ldata_find db [LStr []; LInt 1; LInt 1; LStr [97]] = Some [LStr [1]; LStr [2]] /\
  length (page 1 2 (List.filter (fun kv => negb (key_ltb (fst kv) [])) (kv_entries (ldata db)))) = 2%nat.
Proof.
  intros db. destruct (ldata_find_spec db [] 1 1 [97]) as [-> L]. split; [by vm_compute|].
  apply L; vm_compute; congruence.
Defined.

(** ** The replay log is cleaned *)

Lemma scan_dec_digits s : forall acc, Forall is_dec s -> scan_dec s acc = dec_val s acc.
Proof.
  induction s as [|c s IH]; intros acc Hs; [done|]. inversion_clear Hs as [|? ? Hc Hs'].
  cbn [scan_dec dec_val]. unfold is_dec in Hc. rewrite (proj2 (Z.leb_le _ _)), (proj2 (Z.leb_le _ _)) by lia.
  by apply IH.
Qed.

(** [atoi] reads the time that was logged. *)
Lemma atoi_sprintf_d t : - 2 ^ 31 <= t < 2 ^ 31 -> atoi (sprintf_d t) = t.
Proof.
  intros Ht. assert (V : forall n, 0 <= n <= 2147483648 -> scan_dec (to_dec 10 n) 0 = n).
  { intros n Hn. rewrite scan_dec_digits by (apply to_dec_digits; lia). apply to_dec_val; [|lia].
    change (10 ^ Z.of_nat 10) with 10000000000. lia. }
  assert (Nz : forall l, Forall (fun c => c = 45 \/ is_dec c) l -> c_str l = l).
  { intros l Hl. apply c_str_id. eapply List.Forall_impl; [|done]. unfold is_dec. cbv beta. lia. }
  assert (Sk : forall c l, c = 45 \/ is_dec c -> skip_space (c :: l) = c :: l).
  { intros c l Hc. cbn [skip_space]. unfold isspace, is_dec in *. destruct (_ || _) eqn:E; [|done].
    repeat (apply orb_true_iff in E as [E|E]); lia. }
  unfold atoi. rewrite Nz by apply sprintf_d_chars. unfold sprintf_d.
  change (2 ^ 31) with 2147483648 in Ht. destruct (Z.ltb_spec t 0).
  - rewrite Sk by auto. cbv zeta. rewrite V by lia. rewrite Z.min_r, Z.max_r, Z.opp_involutive by lia.
    apply s32_id. change (2 ^ 31) with 2147483648. lia.
  - destruct (to_dec 10 t) as [|c l] eqn:E; [by apply to_dec_nonempty in E; [|lia]|].
    assert (Hc : is_dec c).
    { assert (F : Forall is_dec (to_dec 10 t)) by (apply to_dec_digits; lia). rewrite E in F. by inversion_clear F. }
    rewrite Sk by auto. assert (Hv : scan_dec (c :: l) 0 = t) by (rewrite <- E; apply V; lia).
    assert (c <> 45 /\ c <> 43) as [N1 N2] by (unfold is_dec in Hc; lia).
    assert (Em : (match c :: l with 45 :: s' => (true, s') | 43 :: s' => (false, s') | _ => (false, c :: l) end)
                 = (false, c :: l)) by (unfold is_dec in Hc; repeat case_match; congruence).
    cbv zeta. rewrite Em. cbv iota. rewrite Hv, Z.min_r, Z.max_r by lia. apply s32_id.
    change (2 ^ 31) with 2147483648. lia.
Qed.

Section Replay.
Context {D : Type} `{KVIter D}.

Definition recent (nowtime : Z) (v : list Z) : bool := Z.abs (atoi v - nowtime) <? 300.

Lemma free_fold nowtime k es : forall u,
  kv_get (fold_left (fun u '(k, v) => if Z.abs (atoi v - nowtime) <? 300 then u else kv_del u k) es u) k
  = if existsb (fun e => bool_decide (fst e = k) && negb (recent nowtime (snd e))) es then None
    else kv_get u k.
Proof.
  induction es as [|[k' v] es IH]; intros u; cbn [fold_left existsb fst snd]; [done|].
  rewrite IH. unfold recent at 2. destruct (existsb _ es); [by rewrite orb_true_r|]. rewrite orb_false_r.
  destruct (_ <? 300); cbn [negb]; [by rewrite andb_false_r|]. rewrite andb_true_r, kv_get_del.
  case_bool_decide; by case_decide.
Qed.

(** A clean-up removes exactly the entries 300 seconds or more away. *)
Lemma freeunique_get nowtime db k :
  kv_get (unique (freeunique nowtime db)) k
  = match kv_get (unique db) k with
    | Some v => if recent nowtime v then Some v else None
    | None => None
    end.
Proof.
  unfold freeunique. cbn [unique with_unique]. rewrite free_fold.
  destruct (existsb _ _) eqn:X.
  - apply existsb_exists in X as ([k' v] & Hin & X). cbn [fst snd] in X. apply andb_true_iff in X as [X R].
    apply bool_decide_eq_true in X as ->. rewrite <- list_elem_of_In in Hin.
    apply kv_entries_get in Hin as ->. apply negb_true_iff in R as ->. done.
  - destruct (kv_get (unique db) k) as [v|] eqn:G; [|done]. destruct (recent nowtime v) eqn:R; [done|].
    rewrite <- not_true_iff_false, existsb_exists in X. destruct X. exists (k, v).
    rewrite <- list_elem_of_In, kv_entries_get. cbn [fst snd]. rewrite R, bool_decide_true by done. done.
Qed.

(** The database between clean-ups, and one at a time [now]. *)
Inductive log_step (ok : Z -> Prop) : ysdb D -> ysdb D -> Prop :=
| log_ysdb db db' : ysdb_op db db' -> log_step ok db db'
| log_free db now : ok now -> log_step ok db (freeunique now db).

Lemma logged_kept ok db db' k v : v <> [] -> (forall now, ok now -> recent now v = true) ->
  rtc (log_step ok) db db' -> kv_get (unique db) k = Some v -> kv_get (unique db') k = Some v.
Proof.
  intros Hv Hr. induction 1 as [|a b c S1 _ IH]; [done|]. intros Hk. apply IH. clear IH.
  destruct S1 as [a b S1|a now Hn].
  - apply unique_changes in S1 as [E|(t & u & l & ->)]; [by rewrite E|].
    unfold logunique. destruct (l =? 0); [done|]. unfold YsDB.Get.
    destruct (kv_get (unique a) (unique_key u l)) as [w|] eqn:G.
    + destruct w; cbn [andb negb is_empty snd]; [|done]. cbn [unique with_unique].
      rewrite kv_get_put. case_decide as E; [|done]. rewrite E in G. congruence.
    + cbn [andb snd]. cbn [unique with_unique]. rewrite kv_get_put. case_decide as E; [|done]. rewrite E in G. congruence.
  - rewrite freeunique_get, Hk, (Hr now Hn). done.
Qed.
End Replay.

(** C33.  The number of a request accepted at the time [t] is refused as long as every
    clean-up happens within 300 seconds of [t], whatever else the database goes
    through; a clean-up 300 seconds or more away forgets it, and the same request
    is accepted a second time.  A clean-up touches no recent entry. *)
Theorem replay_window {D : Type} `{KVIter D} (db : ysdb D) t uid lid :
  lid <> 0 -> - 2 ^ 31 <= t < 2 ^ 31 -> uniqueExist db uid lid = false ->
  let '(ok, db1) := logunique db t uid lid in
  ok = true /\
  (forall db2 now, rtc (log_step (fun now => Z.abs (t - now) < 300)) db1 db2 ->
     logunique db2 now uid lid = (false, db2)) /\
  (forall now, 300 <= Z.abs (t - now) -> fst (logunique (freeunique now db1) now uid lid) = true) /\
  (forall now k v, kv_get (unique db) k = Some v -> recent now v = true ->
     kv_get (unique (freeunique now db)) k = Some v).
Proof.
  intros Hl Ht Hu.
  assert (E : logunique db t uid lid
    = (true, with_unique db (kv_put (unique db) (unique_key uid lid) (sprintf_d t)))).
  { revert Hu. unfold uniqueExist, logunique. rewrite (proj2 (Z.eqb_neq lid 0)) by done.
    destruct (YsDB.Get _ _ _) as [o v]. by intros ->. }
  rewrite E. set (db1 := with_unique _ _).
  assert (G : kv_get (unique db1) (unique_key uid lid) = Some (sprintf_d t)).
  { unfold db1. cbn [unique with_unique]. by rewrite kv_get_put, decide_True. }
  split; [done|]. split; [|split].
  - intros db2 now St. assert (G2 : kv_get (unique db2) (unique_key uid lid) = Some (sprintf_d t)).
    { eapply logged_kept; [apply sprintf_d_nonempty| |done|done].
      intros now' Hn. unfold recent. rewrite atoi_sprintf_d by done. by apply Z.ltb_lt. }
    unfold logunique. rewrite (proj2 (Z.eqb_neq lid 0)) by done. unfold YsDB.Get. rewrite G2. cbn [andb].
    destruct (sprintf_d t) eqn:S0; [by apply sprintf_d_nonempty in S0|done].
  - intros now Hn. unfold logunique. rewrite (proj2 (Z.eqb_neq lid 0)) by done. unfold YsDB.Get.
    rewrite freeunique_get, G. unfold recent. rewrite atoi_sprintf_d by done.
    by rewrite (proj2 (Z.ltb_ge _ _)) by lia.
  - intros now k v Hk Hr. by rewrite freeunique_get, Hk, Hr.
Qed.

Lemma replay_window_witness :
  let '(ok, db1) := logunique empty_db 1000 7 9 in
  ok = true /\
  (forall db2 now, rtc (log_step (fun now => Z.abs (1000 - now) < 300)) db1 db2 ->
     logunique db2 now 7 9 = (false, db2)) /\
  (forall now, 300 <= Z.abs (1000 - now) -> fst (logunique (freeunique now db1) now 7 9) = true) /\
  (forall now k v, kv_get (unique empty_db) k = Some v -> recent now v = true ->
     kv_get (unique (freeunique now empty_db)) k = Some v).
Proof. apply (replay_window empty_db 1000 7 9); [lia|lia|reflexivity]. Defined.

(** ** Memory is given back *)

(** The loop of [freemems] ends exactly when no more requests are in use than the
    limit; with more in use the free list runs dry and [freeone] changes nothing. *)
Lemma freemems_loop_ends limit : forall l p u fuel, rp_inv p l u ->
  (Z.of_nat (size u) <= limit -> (length l <= fuel)%nat ->
   exists p' l', freemems_loop fuel limit p = Some p' /\ rp_inv p' l' u /\ rp_malloc p' <= limit) /\
  (limit < Z.of_nat (size u) -> freemems_loop fuel limit p = None).
Proof.
  intros l. induction l as [|x l IH]; intros p u fuel Hp.
  - assert (M : rp_malloc p = Z.of_nat (size u)) by apply Hp. split.
    + intros Hu _. exists p, []. destruct fuel; cbn [freemems_loop];
        rewrite (proj2 (Z.leb_le _ _)) by lia; split_and!; (done || lia).
    + intros Hu. revert p Hp M. induction fuel as [|fuel IH']; intros p Hp M; cbn [freemems_loop];
        rewrite (proj2 (Z.leb_gt _ _)) by lia; [done|].
      apply freeone_inv in Hp. cbn [tail] in Hp. apply IH'; [done|]. apply Hp.
  - assert (M : rp_malloc p = Z.of_nat (length (x :: l) + size u)) by apply Hp. split.
    + intros Hu Hf. cbn [length] in Hf. destruct fuel as [|fuel]; [lia|]. cbn [freemems_loop].
      destruct (Z.leb_spec (rp_malloc p) limit); [by exists p, (x :: l)|].
      apply freeone_inv in Hp. apply (IH _ u fuel) in Hp as [Hp _]. apply Hp; lia.
    + intros Hu. destruct fuel as [|fuel]; cbn [freemems_loop];
        rewrite (proj2 (Z.leb_gt _ _)) by (cbn [length] in M; lia); [done|].
      apply freeone_inv in Hp. apply (IH _ u fuel) in Hp as [_ Hp]. by apply Hp.
Qed.

(** ** The other calls *)

(** A number is a string: the branch for a user's number is never taken. *)
Lemma setPwd_never_by_user disabled args c :
  In c (lua_setPwd disabled args) -> exists pwd lpwd, c = SetPwd pwd lpwd.
Proof.
  unfold lua_setPwd. destruct disabled; [done|].
  destruct (larg args 1); cbn; try done; destruct (larg args 2); cbn; try done;
    intros [<-|[]]; by do 2 eexists.
Qed.

Lemma getn_0 l i : getn l i = 0 -> c_str (drop i l) = [].
Proof.
  unfold getn. rewrite nth_lookup. intros E. destruct (l !! i) as [x|] eqn:L; cbn in E.
  - subst x. by rewrite (drop_S _ _ _ L).
  - apply lookup_ge_None in L. by rewrite drop_ge.
Qed.

Lemma getn_cons l i : getn l i <> 0 -> drop i l = getn l i :: drop (S i) l.
Proof.
  unfold getn. rewrite nth_lookup. intros E. destruct (l !! i) as [x|] eqn:L; cbn in *; [|done].
  by apply drop_S.
Qed.

Lemma copy8_below n : forall i sname str j, (j < i)%nat -> copy8 n i sname str !! j = str !! j.
Proof.
  induction n as [|n IH]; intros i sname str j Hj; cbn [copy8]; [done|].
  assert (E : setn str i (getn sname i) !! j = str !! j) by (unfold setn; rewrite list_lookup_insert_ne by lia; done).
  destruct (_ =? 0); [done|]. by rewrite IH by lia.
Qed.

Lemma length_copy8 n : forall i sname str, length (copy8 n i sname str) = length str.
Proof.
  induction n as [|n IH]; intros i sname str; cbn [copy8]; [done|].
  destruct (_ =? 0); rewrite ?IH; apply length_setn.
Qed.

Lemma copy8_str n : forall i sname str, length str = (i + n + 1)%nat -> getn str (i + n) = 0 ->
  c_str (drop i (copy8 n i sname str)) = take n (c_str (drop i sname)).
Proof.
  induction n as [|n IH]; intros i sname str Hl Hz.
  - cbn [copy8]. rewrite Nat.add_0_r in Hz. by rewrite getn_0, take_0.
  - cbn [copy8]. destruct (Z.eqb_spec (getn sname i) 0) as [E|E].
    + rewrite (getn_0 sname) by done. rewrite getn_0, take_nil; [done|].
      rewrite getn_setn, Nat.eqb_refl by lia. done.
    + set (str' := setn str i (getn sname i)).
      assert (G : getn (copy8 n (S i) sname str') i = getn sname i).
      { unfold getn at 1. rewrite nth_lookup, copy8_below by lia.
        rewrite <- nth_lookup. fold (getn str' i). unfold str'. by rewrite getn_setn, Nat.eqb_refl by lia. }
      rewrite (getn_cons (copy8 _ _ _ _)), (getn_cons sname), G by congruence. cbn [c_str].
      rewrite (proj2 (Z.eqb_neq _ _)) by done. cbn [take]. f_equal. apply IH.
      * unfold str'. rewrite length_setn. lia.
      * unfold str'. rewrite getn_setn by lia. rewrite (proj2 (Nat.eqb_neq _ _)) by lia.
        by replace (S i + n)%nat with (i + S n)%nat by lia.
Qed.

(** The name of a source is cut to eight characters, whatever the array held. *)
Lemma name8_spec sname junk : (9 <= length junk)%nat -> name8 sname junk = take 8 (c_str sname).
Proof.
  intros Hj. unfold name8. assert (L : length (take 9 junk) = 9%nat) by (rewrite length_take; lia).
  rewrite <- (drop_0 (copy8 _ _ _ _)), copy8_str, drop_0; [done| |].
  - by rewrite length_setn, L.
  - by rewrite getn_setn by lia.
Qed.

Lemma key_chars_spec n : forall i str key, length key = (i + n)%nat -> drop i key = replicate n 0 ->
  take i (key_chars n i str key) = take i key /\
  drop i (key_chars n i str key) = take n (c_str (drop i str)) ++ replicate (n - length (c_str (drop i str))) 0 /\
  length (key_chars n i str key) = length key.
Proof.
  induction n as [|n IH]; intros i str key Hl Hd; cbn [key_chars].
  - rewrite take_0, drop_ge by lia. done.
  - destruct (Z.eqb_spec (getn str i) 0) as [E|E].
    + rewrite (getn_0 str) by done. rewrite take_nil, Nat.sub_0_r. done.
    + destruct (IH (S i) str (setn key i (getn str i))) as (A & B & C).
      { rewrite length_setn. lia. }
      { unfold setn. rewrite drop_insert_lt by lia.
        rewrite <- Nat.add_1_r, <- drop_drop, Hd. done. }
      rewrite C, length_setn. split; [|split; [|done]].
      * apply (f_equal (take i)) in A. rewrite !take_take, !Nat.min_l in A by lia. rewrite A.
        unfold setn. by rewrite take_insert_ge by lia.
      * rewrite (getn_cons str) by done. cbn [c_str]. rewrite (proj2 (Z.eqb_neq _ _)) by done.
        assert (G : getn (key_chars n (S i) str (setn key i (getn str i))) i = getn str i).
        { unfold getn at 1. rewrite nth_lookup, <- (lookup_take_lt _ (S i)), A, lookup_take_lt by lia.
          rewrite <- nth_lookup. fold (getn (setn key i (getn str i)) i). by rewrite getn_setn, Nat.eqb_refl by lia. }
        rewrite getn_cons by congruence. rewrite G, B. done.
Qed.

(** What a script sets as the client's key it reads back, up to its first NUL and to
    sixteen characters. *)
Lemma setkey_getkey {D : Type} `{KV D} s k (db : ysdb D) junk buf :
  lua_getkey junk buf [] (lua_setkey false [LStr s] (k, db)) = [LStr (take 16 (c_str s))].
Proof.
  unfold lua_setkey, lua_getkey, larg. cbn [nth Nat.sub lua_isstring lua_isinteger negb fst snd lua_tostring].
  destruct (key_chars_spec 16 0 (c_str s) (bzero 16)) as (_ & B & C); [done..|]. rewrite drop_0 in B.
  assert (M : forall l, length l = 16%nat -> map (getn l) (seq 0 16) = l).
  { intros l Hl. do 17 (destruct l as [|? l]; [try done|]); done. }
  rewrite M by (by rewrite C). rewrite B. do 2 f_equal. rewrite drop_0.
  assert (N : Forall (fun x => x <> 0) (take 16 (c_str (c_str s)))) by (apply Forall_take, c_str_no_nul).
  destruct (16 - length (c_str (c_str s)))%nat as [|n] eqn:Q; cbn [replicate].
  - rewrite app_nil_r, c_str_id by done. by rewrite (c_str_id (c_str s)) by apply c_str_no_nul.
  - rewrite c_str_nul by done. by rewrite (c_str_id (c_str s)) by apply c_str_no_nul.
Qed.
