(* ===== verification/Scripts.v ===== *)
(** * Scripts: core/scriptqueue.hpp and core/scriptworker.hpp

    [Scriptqueue] keeps the scripts that are to be run one after the other by one
    thread; any thread may insert one.  What happens while the mutex is held is one
    step, and so is everything between two accesses to the queue: [doscript] looks
    at the queue without the mutex, makes a Lua state, and takes the first script
    under the mutex.  What a script does is Lua's; [run] gives the text of its
    error, if it fails with one. *)

From S2P Require Import Prelude.
From S2P Require Import Hash.

(** ** Scriptqueue *)

(** Where a thread in [autodoscr] is: before [isrunning=1]; at the head of the loop;
    behind [if(q.empty())]; running a script; in [sleep(1)]; behind the loop. *)
Inductive consumer := Starting | Looping | Creating | Running (script : list Z) | Sleeping | Ended.

Record scriptqueue := mk_sq {
  q : list (list Z);
  isrunning : bool;
  consumers : list consumer;
  (** the scripts inserted and run so far, in order *)
  inserted : list (list Z);
  done_ : list (list Z)
}.

Definition set_consumers (s : scriptqueue) (cs : list consumer) : scriptqueue :=
  mk_sq (q s) (isrunning s) cs (inserted s) (done_ s).

(** [insert] of a [std::string]; a C string ends at its NUL. *)
Definition insert (script : list Z) (s : scriptqueue) : scriptqueue :=
  mk_sq (q s ++ [script]) (isrunning s) (consumers s) (inserted s ++ [script]) (done_ s).
Definition insert_str (script : list Z) (s : scriptqueue) : scriptqueue := insert (c_str script) s.

Definition stop (s : scriptqueue) : scriptqueue :=
  mk_sq (q s) false (consumers s) (inserted s) (done_ s).

(** [scriptqueuerun]: one more thread. *)
Definition scriptqueuerun (s : scriptqueue) : scriptqueue := set_consumers s (consumers s ++ [Starting]).

Inductive outcome := Next (s : scriptqueue) | Front_of_empty.

(** The next step of consumer [i]; [q.front()] of an empty queue is undefined. *)
Definition consume (i : nat) (c : consumer) (s : scriptqueue) : outcome :=
  let move c' := Next (set_consumers s (<[i := c']> (consumers s))) in
  match c with
  | Starting => Next (mk_sq (q s) true (<[i := Looping]> (consumers s)) (inserted s) (done_ s))
  | Looping =>
      if isrunning s then
        match q s with [] => move Sleeping | _ => move Creating end
      else move Ended
  | Creating =>
      match q s with
      | [] => Front_of_empty
      | str :: rest =>
          Next (mk_sq rest (isrunning s) (<[i := Running str]> (consumers s)) (inserted s) (done_ s))
      end
  | Running str =>
      Next (mk_sq (q s) (isrunning s) (<[i := Looping]> (consumers s)) (inserted s) (done_ s ++ [str]))
  | Sleeping => move Looping
  | Ended => Next s
  end.

(** A step of any thread. *)
Inductive sq_step : scriptqueue -> outcome -> Prop :=
| sq_insert s script : sq_step s (Next (insert_str script s))
| sq_stop s : sq_step s (Next (stop s))
| sq_consume s i c : consumers s !! i = Some c -> sq_step s (consume i c s).

Inductive sq_run : scriptqueue -> outcome -> Prop :=
| run_here s : sq_run s (Next s)
| run_step s s' o : sq_run s (Next s') -> sq_step s' o -> sq_run s o.

(** The program calls [scriptqueuerun] once; [b] is what [isrunning] holds then. *)
Definition sq_init (b : bool) : scriptqueue := scriptqueuerun (mk_sq [] b [] [] []).

(** What is in a consumer's hands. *)
Definition in_hand (c : consumer) : list (list Z) := match c with Running str => [str] | _ => [] end.

(** ** Workers

    [worker(script)] allocates an object with the script and gives it to the thread
    pool of ThreadPool.v, which runs [create_s] on it. *)

Section Worker.
Context (run : list Z -> option (list Z)).

(** The objects by address, [None] once deleted, and what was printed. *)
Record sworkers := mk_sw { sw_objects : list (option (list Z)); sw_log : list (list Z) }.

(** The argument of [threadpool::add], if it is called. *)
Definition create (arg : option (list Z)) (w : sworkers) : option nat * sworkers :=
  match arg with
  | None => (None, w)
  | Some str => (Some (length (sw_objects w)), mk_sw (sw_objects w ++ [Some (c_str str)]) (sw_log w))
  end.

Definition create_s (self : nat) (w : sworkers) : sworkers :=
  match sw_objects w !! self with
  | Some (Some str) =>
      mk_sw (<[self := None]> (sw_objects w))
        (match run str with Some err => sw_log w ++ [err] | None => sw_log w end)
  | _ => w
  end.

(** A worker runs the script it was made for, once. *)
Lemma worker_runs_script str w : exists n,
  fst (create (Some str) w) = Some n /\
  sw_log (create_s n (snd (create (Some str) w)))
  = sw_log w ++ match run (c_str str) with Some err => [err] | None => [] end /\
  create_s n (create_s n (snd (create (Some str) w))) = create_s n (snd (create (Some str) w)).
Proof.
  exists (length (sw_objects w)). split; [done|]. unfold create_s, create. cbn [snd sw_objects sw_log].
  rewrite (list_lookup_middle _ []) by done. split.
  - cbn [sw_log]. destruct (run _); [done|by rewrite app_nil_r].
  - cbn [sw_objects sw_log]. rewrite list_lookup_insert_eq; [done|]. rewrite length_app. cbn. lia.
Qed.
End Worker.

(** ** Invariant *)

Definition sq_inv (s : scriptqueue) : Prop :=
  exists c, consumers s = [c] /\
    inserted s = done_ s ++ in_hand c ++ q s /\
    (c = Creating -> q s <> []).

Lemma sq_inv_init b : sq_inv (sq_init b).
Proof. by exists Starting. Qed.

Lemma consume_inv i c s : sq_inv s -> consumers s !! i = Some c ->
  exists s', consume i c s = Next s' /\ sq_inv s'.
Proof.
  intros (c0 & Hc & He & Hq) Hi. rewrite Hc in Hi.
  destruct i as [|i]; [|done]. injection Hi as ->. unfold consume. rewrite Hc.
  destruct c; cbn in *.
  - eexists. split; [done|]. exists Looping. done.
  - destruct (isrunning s); [destruct (q s) eqn:Q|]; (eexists; split; [done|]).
    + exists Sleeping. cbn. rewrite Q. done.
    + exists Creating. cbn. rewrite Q. done.
    + exists Ended. done.
  - destruct (q s) as [|str rest]; [by destruct Hq|]. eexists. split; [done|].
    exists (Running str). done.
  - eexists. split; [done|]. exists Looping. cbn. rewrite He, <- app_assoc. done.
  - eexists. split; [done|]. exists Looping. done.
  - eexists. split; [done|]. exists Ended. done.
Qed.

Lemma sq_step_inv s o : sq_inv s -> sq_step s o -> exists s', o = Next s' /\ sq_inv s'.
Proof.
  intros I St. destruct St as [s script|s|s i c Hi].
  - eexists. split; [done|]. destruct I as (c & Hc & He & Hq). exists c. cbn. split; [done|].
    split; [rewrite He, <- !app_assoc; done|]. intros ->. by destruct (q s).
  - eexists. split; [done|]. destruct I as (c & Hc & He & Hq). by exists c.
  - by apply consume_inv.
Qed.

Lemma sq_run_inv b o : sq_run (sq_init b) o -> exists s, o = Next s /\ sq_inv s.
Proof.
  intros Hr. remember (sq_init b) as s0 eqn:E0. induction Hr as [s|s s' o Hr IH St]; subst.
  - exists (sq_init b). split; [done|apply sq_inv_init].
  - destruct IH as (s1 & [= <-] & I); [done|]. by eapply sq_step_inv.
Qed.

(** C37.  However insertions, [stop] and the queue's thread interleave, the queue is
    never read while it is empty, although it is looked at without the mutex, and
    the scripts are run in the order they were inserted, none twice and none left
    out: what was inserted is what was run, what is being run, and what waits. *)
Theorem scripts_in_order b o : sq_run (sq_init b) o ->
  exists s c, o = Next s /\ consumers s = [c] /\ inserted s = done_ s ++ in_hand c ++ q s.
Proof. intros (s & -> & c & Hc & He & _)%sq_run_inv. by exists s, c. Qed.

Lemma scripts_in_order_witness :
  exists s c,
    consume 0 Looping (insert_str [97] (mk_sq [] true [Looping] [] [])) = Next s /\
    consumers s = [c] /\ inserted s = done_ s ++ in_hand c ++ q s.
Proof.
  apply (scripts_in_order true).
  set (s1 := mk_sq [] true [Looping] [] []).
  apply (run_step _ (insert_str [97] s1)); [|exact (sq_consume (insert_str [97] s1) 0 Looping eq_refl)].
  apply (run_step _ s1); [|exact (sq_insert s1 [97])].
  apply (run_step _ (sq_init true)); [constructor|].
  exact (sq_consume (sq_init true) 0 Starting eq_refl).
Defined.

(** With two threads taking from it the queue can be read while it is empty. *)
Lemma two_consumers_crash :
  sq_run (scriptqueuerun (sq_init true)) Front_of_empty.
Proof.
  set (s0 := scriptqueuerun (sq_init true)).
  set (s1 := mk_sq [] true [Looping; Starting] [] []).
  set (s2 := mk_sq [] true [Looping; Looping] [] []).
  set (s3 := mk_sq [[97]] true [Looping; Looping] [[97]] []).
  set (s4 := mk_sq [[97]] true [Creating; Looping] [[97]] []).
  set (s5 := mk_sq [[97]] true [Creating; Creating] [[97]] []).
  set (s6 := mk_sq [] true [Running [97]; Creating] [[97]] []).
  apply (run_step _ s6); [|exact (sq_consume s6 1 Creating eq_refl)].
  apply (run_step _ s5); [|exact (sq_consume s5 0 Creating eq_refl)].
  apply (run_step _ s4); [|exact (sq_consume s4 1 Looping eq_refl)].
  apply (run_step _ s3); [|exact (sq_consume s3 0 Looping eq_refl)].
  apply (run_step _ s2); [|exact (sq_insert s2 [97])].
  apply (run_step _ s1); [|exact (sq_consume s1 1 Starting eq_refl)].
  apply (run_step _ s0); [|exact (sq_consume s0 0 Starting eq_refl)].
  constructor.
Qed.

(** A [stop] before the thread has started is lost. *)
Lemma early_stop_lost b :
  consume 0 Starting (stop (sq_init b)) = Next (mk_sq [] true [Looping] [] []).
Proof. done. Qed.

(** ** Every script is run *)

(** [n] steps of the thread alone. *)
Fixpoint alone (n : nat) (s : scriptqueue) : outcome :=
  match n, consumers s with
  | S n, c :: _ => match consume 0 c s with Next s' => alone n s' | o => o end
  | _, _ => Next s
  end.

Lemma alone_looping l : forall ins dn,
  alone (3 * length l) (mk_sq l true [Looping] ins dn) = Next (mk_sq [] true [Looping] ins (dn ++ l)).
Proof.
  induction l as [|str l IH]; intros ins dn; cbn [length].
  - cbn. by rewrite app_nil_r.
  - replace (3 * S (length l))%nat with (S (S (S (3 * length l)))) by lia.
    cbn [alone consumers consume isrunning q set_consumers list_insert]. cbn - [Nat.mul].
    rewrite IH, <- app_assoc. done.
Qed.

(**  From any state the queue can reach without having been stopped, its thread
    can run every script that was inserted: alone, it comes to an empty queue with
    all of them run, in order, in three steps for each that waits and at most two
    more. *)
Lemma scripts_drain b s : sq_run (sq_init b) (Next s) -> isrunning s = true \/ consumers s = [Starting] ->
  consumers s <> [Ended] ->
  exists n, (n <= 3 * length (q s) + 2)%nat /\
    alone n s = Next (mk_sq [] true [Looping] (inserted s) (inserted s)).
Proof.
  intros (s1 & [= <-] & c & Hc & Hi & Hq)%sq_run_inv Hrun He.
  destruct s as [l b0 cs ins dn]. cbn in *. subst cs ins.
  destruct c; [| | | | |done]; (destruct Hrun as [->|Hs]; [|try discriminate]).
  - exists (S (3 * length l)). split; [lia|]. cbn [alone consumers consume]. cbn - [Nat.mul].
    apply alone_looping.
  - exists (S (3 * length l)). split; [lia|]. cbn [alone consumers consume]. cbn - [Nat.mul].
    apply alone_looping.
  - exists (3 * length l)%nat. split; [lia|]. apply alone_looping.
  - destruct l as [|str l]; [by destruct Hq|]. exists (S (S (3 * length l))). split; [cbn; lia|].
    cbn [alone consumers consume q]. cbn - [Nat.mul]. rewrite alone_looping, <- app_assoc. done.
  - exists (S (3 * length l)). split; [lia|]. cbn [alone consumers consume]. cbn - [Nat.mul].
    rewrite alone_looping, <- app_assoc. done.
  - exists (S (3 * length l)). split; [lia|]. cbn [alone consumers consume]. cbn - [Nat.mul].
    apply alone_looping.
Qed.

Lemma scripts_drain_witness :
  exists n, (n <= 3 * 1 + 2)%nat /\
    alone n (insert_str [97] (sq_init true)) = Next (mk_sq [] true [Looping] [[97]] [[97]]).
Proof.
  apply (scripts_drain true (insert_str [97] (sq_init true))).
  - apply (run_step _ (sq_init true)); [constructor|exact (sq_insert (sq_init true) [97])].
  - by left.
  - discriminate.
Defined.
