(* ===== verification/LangSolver.v ===== *)
(** * LangSolver: core/rwmutex.hpp and core/languagesolver.hpp

    One [Solver] object serves all scripts; the functions given to Lua make it, use
    it and delete it under a reader-writer lock.  Threads take steps in any order:
    entering a function (which takes the lock), its tests, its access to the object,
    leaving it.  An argument is [Some] text where Lua has a string. *)

From stdpp Require Import gmap.
From S2P Require Import Prelude.

#[local] Open Scope Z_scope.

(** ** RWMutex *)

(** What POSIX promises of [pthread_rwlock_t]; [None]: the call waits. *)
Record RWMutex := mk_rw { readers : nat; writer : bool }.
Inductive mode := Read | Write.

Definition RWMutex_new : RWMutex := mk_rw 0 false.
Definition Rlock (l : RWMutex) : option RWMutex :=
  if writer l then None else Some (mk_rw (S (readers l)) false).
Definition Wlock (l : RWMutex) : option RWMutex :=
  if writer l then None else if (readers l =? 0)%nat then Some (mk_rw 0 true) else None.
(** [Runlock], [Wunlock] and [unlock] are one call; it gives up what its thread
    holds. *)
Definition unlock (held : mode) (l : RWMutex) : RWMutex :=
  match held with Read => mk_rw (readers l - 1) (writer l) | Write => mk_rw (readers l) false end.
Definition lock_as (m : mode) : RWMutex -> option RWMutex := match m with Read => Rlock | Write => Wlock end.

(** ** The functions *)

(** cppjieba: a solver's state, made from five paths; [Tag], [Extract] with its
    weights and offsets, [InsertUserWord]. *)
Class Jieba := {
  jieba : Type;
  weight : Type;
  new_solver : list (list Z) -> jieba;
  Tag : jieba -> list Z -> list (list Z * list Z);
  Extract : jieba -> list Z -> nat -> list (list Z * weight * list Z);
  InsertUserWord : jieba -> list Z -> option (list Z) -> bool * jieba
}.

Section Langsolver.
Context {J : Jieba}.

Inductive call :=
| Init (args : list (option (list Z)))
| Destory
| Insert (word tag : option (list Z))
| Solve (text : option (list Z))
| Keyword (text : option (list Z))
| Status.

(** What is left on Lua's stack. *)
Inductive result :=
| Nothing
| Pushed (b : bool)
| Words (rows : list (list Z * list Z))
| Keywords (rows : list (list Z * weight * list Z)).

Definition lock_of (f : call) : mode :=
  match f with Init _ | Destory | Insert _ _ => Write | Solve _ | Keyword _ | Status => Read end.

(** The tests at the head of a function: [None]: it goes on. *)
Definition five_paths (args : list (option (list Z))) : bool :=
  forallb (fun a : option (list Z) => match a with Some _ => true | None => false end)
    (map (fun i => nth i args None) (seq 0 5)).
Definition tests (f : call) (solver : option nat) : option result :=
  match f, solver with
  | Init args, None => if five_paths args then None else Some Nothing
  | Init _, Some _ => Some Nothing
  | Status, None => Some (Pushed false)
  | Status, Some _ => Some (Pushed true)
  | _, None => Some Nothing
  | Insert None _, Some _ | Solve None, Some _ | Keyword None, Some _ => Some Nothing
  | _, Some _ => None
  end.

(** [lang_solve], [lang_keyword] and [lang_insert] on the object. *)
Definition use (f : call) (obj : jieba) : result * jieba :=
  match f with
  | Solve (Some text) => (Words (Tag obj text), obj)
  | Keyword (Some text) => (Keywords (Extract obj text 5), obj)
  | Insert (Some word) tag => let '(res, obj) := InsertUserWord obj word tag in (Pushed res, obj)
  | _ => (Nothing, obj)
  end.

(** Where a thread is: outside; behind the lock; behind the tests; behind [delete
    solver]; before [unlock]. *)
Inductive place :=
| Outside
| Entered (f : call)
| Passed (f : call)
| Deleted
| Leaving (f : call) (r : result).

Record state := mk_state {
  lock : RWMutex;
  solver : option nat;
  objects : gmap nat jieba;
  threads : list place
}.

(** [Fault]: an object that is not there is used or deleted. *)
Inductive outcome := Next (s : state) | Fault.

Definition goto (i : nat) (p : place) (s : state) : state :=
  mk_state (lock s) (solver s) (objects s) (<[i := p]> (threads s)).

Definition advance (i : nat) (p : place) (s : state) : outcome :=
  match p with
  | Outside => Next s
  | Entered f =>
      match tests f (solver s) with
      | Some r => Next (goto i (Leaving f r) s)
      | None => Next (goto i (Passed f) s)
      end
  | Passed (Init args) =>
      let a := fresh (dom (objects s)) in
      Next (mk_state (lock s) (Some a)
              (<[a := new_solver (map (default []) (take 5 args))]> (objects s))
              (<[i := Leaving (Init args) (Pushed true)]> (threads s)))
  | Passed f =>
      match solver s with
      | None => Fault
      | Some a =>
          match objects s !! a, f with
          | None, _ => Fault
          | Some _, Destory =>
              Next (mk_state (lock s) (solver s) (delete a (objects s)) (<[i := Deleted]> (threads s)))
          | Some obj, _ =>
              let '(r, obj) := use f obj in
              Next (mk_state (lock s) (solver s) (<[a := obj]> (objects s)) (<[i := Leaving f r]> (threads s)))
          end
      end
  | Deleted => Next (mk_state (lock s) None (objects s) (<[i := Leaving Destory Nothing]> (threads s)))
  | Leaving f _ =>
      Next (mk_state (unlock (lock_of f) (lock s)) (solver s) (objects s) (<[i := Outside]> (threads s)))
  end.

Inductive step : state -> outcome -> Prop :=
| step_enter s i f l :
    threads s !! i = Some Outside -> lock_as (lock_of f) (lock s) = Some l ->
    step s (Next (mk_state l (solver s) (objects s) (<[i := Entered f]> (threads s))))
| step_advance s i p :
    threads s !! i = Some p -> step s (advance i p s).

Definition start (n : nat) : state := mk_state RWMutex_new None ∅ (replicate n Outside).

(** What [n] threads can come to. *)
Inductive run (n : nat) : outcome -> Prop :=
| run_start : run n (Next (start n))
| run_more s o : run n (Next s) -> step s o -> run n o.

(** ** What the lock keeps apart *)

Definition holds (p : place) : option mode :=
  match p with
  | Outside => None
  | Entered f | Passed f | Leaving f _ => Some (lock_of f)
  | Deleted => Some Write
  end.

Definition holds_as (m : mode) (p : place) : bool :=
  match holds p, m with Some Read, Read | Some Write, Write => true | _, _ => false end.
Definition count (m : mode) (l : list place) : nat := length (List.filter (holds_as m) l).

Definition lock_inv (l : RWMutex) (ts : list place) : Prop :=
  readers l = count Read ts /\ (if writer l then count Write ts = 1 /\ count Read ts = 0 else count Write ts = 0)%nat.

(** The object [solver] points to is the only one, except between [delete] and
    [solver=NULL]. *)
Definition consistent (s : state) : Prop :=
  dom (objects s) = match solver s with Some a => {[a]} | None => ∅ end.

Definition place_ok (s : state) (p : place) : Prop :=
  match p with
  | Passed (Init _) => solver s = None
  | Passed Status => False
  | Passed _ => solver s <> None
  | Deleted => objects s = ∅
  | _ => True
  end.

Definition inv (s : state) : Prop :=
  lock_inv (lock s) (threads s) /\ Forall (place_ok s) (threads s) /\
  (consistent s \/ In Deleted (threads s)).

Lemma count_insert m l : forall i p p', l !! i = Some p ->
  (count m (<[i := p']> l) + Nat.b2n (holds_as m p) = count m l + Nat.b2n (holds_as m p'))%nat.
Proof.
  unfold count. induction l as [|x l IH]; intros [|i] p p' Hi; try done.
  - injection Hi as ->. cbn. destruct (holds_as m p), (holds_as m p'); cbn; lia.
  - specialize (IH i p p' Hi). cbn. destruct (holds_as m x); cbn; [f_equal|]; exact IH.
Qed.

Lemma count_pos m l i p : l !! i = Some p -> holds_as m p = true -> (0 < count m l)%nat.
Proof.
  intros Hi Hm. pose proof (count_insert m l i p Outside Hi) as E. rewrite Hm in E. cbn in E. lia.
Qed.

(** A thread that holds the lock for writing is the only one that holds it. *)
Lemma writer_alone l ts i j p q : lock_inv l ts ->
  ts !! i = Some p -> ts !! j = Some q -> i <> j -> holds p = Some Write -> holds q = None.
Proof.
  intros [Hr Hw] Hi Hj Hn Hp. assert (W : holds_as Write p = true) by (unfold holds_as; by rewrite Hp).
  pose proof (count_pos _ _ _ _ Hi W) as Pi. destruct (writer l); [|lia]. destruct Hw as [Hw H0].
  destruct (holds q) as [[]|] eqn:Q; [| |done]; exfalso.
  - assert (R : holds_as Read q = true) by (unfold holds_as; by rewrite Q).
    pose proof (count_pos _ _ _ _ Hj R). lia.
  - assert (W' : holds_as Write q = true) by (unfold holds_as; by rewrite Q).
    pose proof (count_insert Write ts i p Outside Hi) as E. rewrite W in E. cbn in E.
    assert (Hj' : <[i := Outside]> ts !! j = Some q) by (by rewrite list_lookup_insert_ne).
    pose proof (count_pos _ _ _ _ Hj' W'). lia.
Qed.

Lemma no_other_deleted l ts i j p : lock_inv l ts ->
  ts !! i = Some p -> ts !! j = Some Deleted -> i <> j -> holds p = None.
Proof. intros. eapply (writer_alone l ts j i); eauto. Qed.

(** A step that keeps the lock keeps what it says. *)
Lemma lock_inv_same l ts i p p' : ts !! i = Some p -> holds p' = holds p ->
  lock_inv l ts -> lock_inv l (<[i := p']> ts).
Proof.
  intros Hi Hh [Hr Hw]. assert (C : forall m, count m (<[i := p']> ts) = count m ts).
  { intros m. pose proof (count_insert m ts i p p' Hi) as E. unfold holds_as in E. rewrite Hh in E. lia. }
  unfold lock_inv. by rewrite !C.
Qed.

Lemma in_lookup (ts : list place) : In Deleted ts <-> exists j, ts !! j = Some Deleted.
Proof. rewrite <- list_elem_of_In. apply list_elem_of_lookup. Qed.

(** Places of other threads stay right when the state changes under a lock: a writer
    is alone, and a reader changes nothing they depend on. *)
Lemma places_kept s s' i p p' :
  lock_inv (lock s) (threads s) -> Forall (place_ok s) (threads s) -> threads s !! i = Some p ->
  place_ok s' p' -> holds p = Some Write \/ (solver s' = solver s /\ holds p <> None) ->
  Forall (place_ok s') (<[i := p']> (threads s)).
Proof.
  intros L F Hi Hp' Hc. rewrite Forall_lookup. intros j q Hj.
  destruct (decide (i = j)) as [<-|Hn].
  { rewrite list_lookup_insert_eq in Hj by (by eapply lookup_lt_Some). by injection Hj as <-. }
  rewrite list_lookup_insert_ne in Hj by done.
  assert (Hq : place_ok s q) by (by apply (Forall_lookup_1 _ _ j q F)).
  destruct Hc as [Hw|[Hs Hh]].
  - pose proof (writer_alone _ _ _ _ _ _ L Hi Hj Hn Hw) as E. by destruct q.
  - destruct q as [|f|f| |f r]; try done.
    + destruct f; cbn in *; rewrite ?Hs; done.
    + by destruct (no_other_deleted _ _ _ _ _ L Hi Hj Hn).
Qed.

Lemma goto_inv s i p p' : inv s -> threads s !! i = Some p -> holds p' = holds p -> holds p <> None ->
  p <> Deleted -> place_ok s p' -> inv (goto i p' s).
Proof.
  intros (L & F & C) Hi Hh Hn Hd Hp. split; [by eapply lock_inv_same|]. split.
  - eapply (places_kept s); [done..|by right].
  - destruct C as [C|C]; [by left|right]. apply in_lookup in C as [j Hj]. apply in_lookup. exists j. cbn.
    rewrite list_lookup_insert_ne; [done|]. congruence.
Qed.

(** With no thread between [delete] and [solver=NULL] the pointer is right. *)
Lemma inv_consistent s i p : inv s -> threads s !! i = Some p -> holds p <> None -> p <> Deleted -> consistent s.
Proof.
  intros (L & F & [C|C]) Hi Hh Hd; [done|]. apply in_lookup in C as [j Hj].
  destruct Hh. eapply no_other_deleted; eauto. congruence.
Qed.

Lemma passed_object s a f i : inv s -> threads s !! i = Some (Passed f) -> solver s = Some a ->
  exists obj, objects s !! a = Some obj.
Proof.
  intros I Hi Hs. assert (C : consistent s) by (by eapply inv_consistent). unfold consistent in C. rewrite Hs in C.
  apply elem_of_dom. rewrite C. set_solver.
Qed.

Lemma use_inv s i f a obj r obj' : inv s -> threads s !! i = Some (Passed f) -> solver s = Some a ->
  objects s !! a = Some obj ->
  inv (mk_state (lock s) (solver s) (<[a := obj']> (objects s)) (<[i := Leaving f r]> (threads s))).
Proof.
  intros I Hi Hs Ho. pose proof I as (L & F & _). split; [by eapply lock_inv_same|]. split.
  - eapply (places_kept s); [done..|by right].
  - left. assert (C : consistent s) by (by eapply inv_consistent). unfold consistent in *. cbn.
    rewrite dom_insert_L, C, Hs. set_solver.
Qed.

Lemma passed_inv s i f : inv s -> threads s !! i = Some (Passed f) ->
  exists s', advance i (Passed f) s = Next s' /\ inv s'.
Proof.
  intros I Hi. pose proof I as (L & F & _).
  assert (Hp : place_ok s (Passed f)) by (by apply (Forall_lookup_1 _ _ i _ F)).
  destruct f as [args| |w t|t|t|].
  - eexists. split; [done|]. split; [by eapply lock_inv_same|]. split.
    + eapply (places_kept s); [done..|by left].
    + left. assert (C : consistent s) by (by eapply inv_consistent). unfold consistent in *. cbn in *.
      rewrite dom_insert_L, C, Hp. set_solver.
  - cbn in Hp. destruct (solver s) as [a|] eqn:Hs; [|done].
    destruct (passed_object s a _ i I Hi Hs) as [obj Ho].
    unfold advance. rewrite Hs, Ho. eexists. split; [done|]. split; [by eapply lock_inv_same|]. split.
    + eapply (places_kept s); [done..| |by left]. cbn.
      assert (C : consistent s) by (by eapply inv_consistent). unfold consistent in C. rewrite Hs in C.
      apply dom_empty_inv_L. rewrite dom_delete_L, C. set_solver.
    + right. apply in_lookup. exists i. cbn. apply list_lookup_insert_eq. by eapply lookup_lt_Some.
  - cbn in Hp. destruct (solver s) as [a|] eqn:Hs; [|done].
    destruct (passed_object s a _ i I Hi Hs) as [obj Ho].
    unfold advance. rewrite Hs, Ho. destruct (use (Insert w t) obj) as [r obj'] eqn:U.
    eexists. split; [done|]. rewrite <- Hs. by eapply use_inv.
  - cbn in Hp. destruct (solver s) as [a|] eqn:Hs; [|done].
    destruct (passed_object s a _ i I Hi Hs) as [obj Ho].
    unfold advance. rewrite Hs, Ho. destruct (use (Solve t) obj) as [r obj'] eqn:U.
    eexists. split; [done|]. rewrite <- Hs. by eapply use_inv.
  - cbn in Hp. destruct (solver s) as [a|] eqn:Hs; [|done].
    destruct (passed_object s a _ i I Hi Hs) as [obj Ho].
    unfold advance. rewrite Hs, Ho. destruct (use (Keyword t) obj) as [r obj'] eqn:U.
    eexists. split; [done|]. rewrite <- Hs. by eapply use_inv.
  - done.
Qed.

(** Looking at the solver does not change it. *)
Lemma reader_keeps f obj : lock_of f = Read -> (use f obj).2 = obj.
Proof. by destruct f as [args| |w t|[t|]|[t|]|]. Qed.

(** Who changes the solver or the pointer to it holds the lock for writing. *)
Lemma changes_alone s i p s' : inv s -> threads s !! i = Some p -> advance i p s = Next s' ->
  (solver s' = solver s /\ objects s' = objects s) \/
  forall j q, threads s !! j = Some q -> i <> j -> holds q = None.
Proof.
  intros (L & _ & _) Hi E. assert (A : holds p = Some Write -> forall j q, threads s !! j = Some q -> i <> j -> holds q = None).
  { intros Hp j q Hj Hn. exact (writer_alone _ _ _ _ _ _ L Hi Hj Hn Hp). }
  destruct p as [|f|f| |f r]; cbn [holds] in A.
  - injection E as <-. by left.
  - left. cbn [advance] in E. destruct (tests f (solver s)); by injection E as <-.
  - destruct (lock_of f) eqn:M; [left|by right; apply A]. unfold advance in E.
    assert (R : forall a obj, objects s !! a = Some obj -> <[a := (use f obj).2]> (objects s) = objects s).
    { intros a obj Ho. rewrite reader_keeps by done. by apply insert_id. }
    destruct f; try discriminate M; destruct (solver s) as [a|] eqn:Es; try discriminate E;
      destruct (objects s !! a) as [obj|] eqn:Ho; try discriminate E; specialize (R a obj Ho);
      destruct (use _ obj) as [r0 obj0]; injection E as <-; done.
  - right. by apply A.
  - injection E as <-. by left.
Qed.

Lemma enter_lock l ts i f l' : lock_inv l ts -> ts !! i = Some Outside -> lock_as (lock_of f) l = Some l' ->
  lock_inv l' (<[i := Entered f]> ts).
Proof.
  intros [Hr Hw] Hi Hl. pose proof (count_insert Read ts i Outside (Entered f) Hi) as R.
  pose proof (count_insert Write ts i Outside (Entered f) Hi) as W. unfold holds_as in R, W. cbn in R, W.
  destruct (lock_of f); cbn in *; unfold Rlock, Wlock in Hl; destruct (writer l); try done.
  - injection Hl as <-. split; cbn; lia.
  - destruct (Nat.eqb_spec (readers l) 0); [|done]. injection Hl as <-. split; cbn; lia.
Qed.

Lemma leave_lock l ts i f r : lock_inv l ts -> ts !! i = Some (Leaving f r) ->
  lock_inv (unlock (lock_of f) l) (<[i := Outside]> ts).
Proof.
  intros [Hr Hw] Hi. pose proof (count_insert Read ts i _ Outside Hi) as R.
  pose proof (count_insert Write ts i _ Outside Hi) as W.
  pose proof (count_pos (lock_of f) ts i _ Hi) as P. unfold holds_as in R, W, P. cbn in R, W, P.
  destruct (lock_of f), (writer l) eqn:E; cbn in *; specialize (P eq_refl); split; cbn; rewrite ?E; lia.
Qed.

Lemma advance_inv s i p : inv s -> threads s !! i = Some p -> exists s', advance i p s = Next s' /\ inv s'.
Proof.
  intros I Hi. pose proof I as (L & F & C). destruct p as [|f|f| |f r].
  - by exists s.
  - cbn [advance]. destruct (tests f (solver s)) as [r|] eqn:T; (eexists; split; [done|]);
      (eapply goto_inv; [done|done|done|done|done|]); [done|].
    destruct f as [args| |[w|] t|[t|]|[t|]|]; cbn in *; destruct (solver s); try discriminate; try done.
    all: by destruct (five_paths args).
  - by apply passed_inv.
  - eexists. split; [done|]. split; [by eapply lock_inv_same|]. split.
    + eapply (places_kept s); [done..|by left].
    + left. unfold consistent. cbn.
      assert (E : objects s = ∅) by exact (Forall_lookup_1 _ _ i _ F Hi). by rewrite E, dom_empty_L.
  - eexists. split; [done|]. split; [by apply (leave_lock _ _ _ _ r)|]. split.
    + rewrite Forall_lookup. intros j q Hj. destruct (decide (i = j)) as [<-|Hn].
      * cbn in Hj. rewrite list_lookup_insert_eq in Hj by (by eapply lookup_lt_Some). by injection Hj as <-.
      * cbn in Hj. rewrite list_lookup_insert_ne in Hj by done. by apply (Forall_lookup_1 _ _ j q F) in Hj.
    + left. change (consistent s). by eapply inv_consistent.
Qed.

Lemma lang_step_inv s o : inv s -> step s o -> exists s', o = Next s' /\ inv s'.
Proof.
  intros I St. destruct St as [s i f l Hi Hl|s i p Hi].
  - eexists. split; [done|]. destruct I as (L & F & C). split; [by eapply enter_lock|]. split.
    + apply Forall_insert; [exact F|exact Logic.I].
    + destruct C as [C|C]; [by left|right]. apply in_lookup in C as [j Hj]. apply in_lookup. exists j. cbn.
      rewrite list_lookup_insert_ne; [done|]. congruence.
  - by apply advance_inv.
Qed.

Lemma lang_run_inv n o : run n o -> exists s, o = Next s /\ inv s.
Proof.
  induction 1 as [|s o _ IH St].
  - eexists. split; [done|]. unfold start. split; [|split].
    + assert (C : forall m, count m (replicate n Outside) = 0%nat).
      { intros m. unfold count. induction n; [done|by destruct m]. }
      unfold lock_inv, RWMutex_new. cbn [readers writer lock threads]. by rewrite !C.
    + by apply Forall_replicate.
    + by left.
  - destruct IH as (s' & [= <-] & I). by eapply lang_step_inv.
Qed.
End Langsolver.

(** C36.  However any number of threads interleave in the functions of the word
    segmenter, no thread uses or deletes a solver that is not there, two solvers
    never exist at once, a thread whose next step makes, feeds or deletes a solver or sets
    the pointer is the only one inside, and when the last thread has left, the solver in
    memory is the one the pointer leads to. *)
Theorem solver_safe {J : Jieba} n o : run n o ->
  exists s, o = Next s /\ (size (objects s) <= 1)%nat /\
  (forall i j p q, threads s !! i = Some p -> threads s !! j = Some q -> i <> j ->
     holds p = Some Write -> holds q = None) /\
  (forall i p s', threads s !! i = Some p -> advance i p s = Next s' ->
     (solver s' = solver s /\ objects s' = objects s) \/
     forall j q, threads s !! j = Some q -> i <> j -> holds q = None) /\
  (Forall (fun p => p = Outside) (threads s) ->
   dom (objects s) = match solver s with Some a => {[a]} | None => ∅ end).
Proof.
  intros (s & -> & I)%lang_run_inv. pose proof I as (L & F & C). exists s. split; [done|]. split; [|split; [|split]].
  - destruct C as [C|C].
    + rewrite <- size_dom, C. destruct (solver s); [by rewrite size_singleton|by rewrite size_empty; lia].
    + apply in_lookup in C as [i Hi]. pose proof (Forall_lookup_1 _ _ i _ F Hi) as E. cbn in E.
      rewrite E, map_size_empty. lia.
  - intros i j p q. by apply writer_alone with (l := lock s).
  - intros i p s'. by apply changes_alone.
  - intros Ho. destruct C as [C|C]; [done|]. rewrite List.Forall_forall in Ho. by apply Ho in C.
Qed.

(** A segmenter that counts the words it was taught. *)
#[export] Instance toy_jieba : Jieba := {|
  jieba := nat; weight := nat;
  new_solver _ := 0%nat;
  Tag n text := [(text, [Z.of_nat n])];
  Extract n text k := [];
  InsertUserWord n _ _ := (true, S n)
|}.

(** One thread is feeding the solver, another waits outside. *)
Definition feeding : state :=
  mk_state (mk_rw 0 true) (Some 0%nat) {[0%nat := 0%nat]} [Passed (Insert (Some [119]) None); Outside].

Lemma run_advance n s i p : run n (Next s) -> threads s !! i = Some p -> run n (advance i p s).
Proof. intros R Hi. eapply run_more; [exact R|]. by apply step_advance. Qed.

Lemma feeding_run : run 2 (Next feeding).
Proof.
  set (paths := [Some []; Some []; Some []; Some []; Some []] : list (option (list Z))).
  assert (R1 : run 2 (Next (mk_state (mk_rw 0 true) None ∅ [Entered (Init paths); Outside]))).
  { apply (run_more 2 (start 2)); [constructor|]. exact (step_enter (start 2) 0 (Init paths) (mk_rw 0 true) eq_refl eq_refl). }
  pose proof (run_advance _ _ 0 _ R1 eq_refl) as R2. cbn in R2.
  pose proof (run_advance _ _ 0 _ R2 eq_refl) as R3.
  assert (R4 : run 2 (Next (mk_state (mk_rw 0 false) (Some 0%nat) {[0%nat := 0%nat]} [Outside; Outside])))
    by exact (run_advance _ _ 0 _ R3 eq_refl).
  assert (R5 : run 2 (Next (mk_state (mk_rw 0 true) (Some 0%nat) {[0%nat := 0%nat]} [Entered (Insert (Some [119]) None); Outside])))
    by (eapply run_more; [exact R4|]; exact (step_enter (mk_state (mk_rw 0 false) (Some 0%nat) {[0%nat := 0%nat]} [Outside; Outside]) 0
      (Insert (Some [119]) None) (mk_rw 0 true) eq_refl eq_refl)).
  exact (run_advance _ _ 0 _ R5 eq_refl).
Qed.

Lemma solver_safe_witness :
  exists s, Next feeding = Next s /\ (size (objects s) <= 1)%nat /\
  (forall i p s', threads s !! i = Some p -> advance i p s = Next s' ->
     (solver s' = solver s /\ objects s' = objects s) \/
     forall j q, threads s !! j = Some q -> i <> j -> holds q = None).
Proof.
  destruct (solver_safe 2 _ feeding_run) as (s & E & A & _ & B & _). exists s. split; [exact E|]. split; [exact A|exact B].
Defined.
