(* ===== verification/Live.v ===== *)
(** * Live: core/live.hpp, the broadcast of screen and sound

    A [shot] is what the frame buffer device gives; [boardcast] keeps the picture of
    600 by 500 pixels that was sent last, with a log of updates for each of 40 by 25
    chunks; [runliveclient_cb] is what a client does with a packet of the stream.
    Devices, pipes and the network are outside: reads are arguments, [client.live]
    is a function on the packet it is given, which it may change in place.  [None]
    stands for an access with no defined result: through a null pointer, or outside
    an array. *)

From S2P Require Import Prelude.
From S2P Require Import NInt.
From S2P Require Import Base64.
From S2P Require Import Hash.
From S2P Require Import Func.
From S2P Require Import Text.
From S2P Require Import Packet.
From S2P Require Import Crypt.
From S2P Require Import Floats.

(** ** The screen *)

Record rgb565 := mk_565 { pix565 : Z }.
Definition torgb (p : rgb565) : Z * Z * Z :=
  (Z.land (Z.shiftr (pix565 p) 11) 0x1f, Z.land (Z.shiftr (pix565 p) 5) 0x3f, Z.land (pix565 p) 0x1f).

(** [xres] and [yres] are unsigned; [data] is the block of [buffer_size] bytes. *)
Record shot := mk_shot { xres : Z; yres : Z; bits_per_pixel : Z; data : list rgb565 }.
Definition buffer_size (s : shot) : Z := s32 (u32 (u32 (xres s * yres s) * bits_per_pixel s) / 8).

(** The index of the pixel whose address is returned. *)
Definition getpix (s : shot) (x y : Z) : option Z :=
  if (x <? 0) || (y <? 0) || (xres s <? x) || (yres s <? y) then None
  else Some (u32 (x + u32 (y * xres s))).

(** One pixel of [RGB565_to_RGB24], and the loop. *)
Definition rgb24_of (p : rgb565) : list Z :=
  let r := Z.land (Z.shiftr (pix565 p) 11) 0x1f in
  let g := Z.land (Z.shiftr (pix565 p) 5) 0x3f in
  let b := Z.land (pix565 p) 0x1f in
  [u8 (Z.lor (Z.shiftl r 3) (Z.shiftr r 2)); u8 (Z.lor (Z.shiftl g 2) (Z.shiftr g 4));
   u8 (Z.lor (Z.shiftl b 3) (Z.shiftr b 2))].
Definition RGB565_to_RGB24 (pix : list rgb565) (rgb24 : list Z) (width height : Z) : list Z :=
  for_ 0 (Z.to_nat (width * height))
    (fun i rgb24 => store rgb24 (3 * i) (rgb24_of (nth i pix (mk_565 0)))) rgb24.

(** ** The packets *)

Record pixel := mk_pixel { R : Z; G : Z; B : Z }.
#[export] Instance pixel_eq_dec : EqDecision pixel.
Proof. solve_decision. Defined.

(** [struct netPack]: m, x, y, w, h, t; [data] follows. *)
Definition netPack : list (nat * nat) := [c_char; c_int32; c_int32; c_int32; c_int32; c_int32].
Definition p_m : nat := member_offset netPack 0.
Definition p_x : nat := member_offset netPack 1.
Definition p_y : nat := member_offset netPack 2.
Definition p_w : nat := member_offset netPack 3.
Definition p_h : nat := member_offset netPack 4.
Definition p_t : nat := member_offset netPack 5.
Definition p_data : nat := sizeof_struct netPack 4.

(** Member [off] of the [netPack] in a [netSource]. *)
Definition in_source (off : nat) : nat := (o_source + off)%nat.

(** [pxl->R=...; pxl->G=...; pxl->B=...], for pixel number [j]. *)
Definition put_pixel (j : nat) (px : pixel) (nbuf : list Z) : list Z :=
  let o := in_source (p_data + 3 * j) in
  setn (setn (setn nbuf o (R px)) (o + 1) (G px)) (o + 2) (B px).

(** ** class boardcast *)

Record Updatelog := mk_log { u_times : Z; u_ct : Z }.

(** [ct/300.0d > config::livepresent] *)
Definition needsend (livepresent : spec_float) (l : Updatelog) : bool :=
  SFltb livepresent (ddiv (double_of_int (u_ct l)) (double_of_int 300)).

(** [buffer[x][y]] is [buffer x y]; [updatelog[x][y]] is cell [25 * x + y] of the
    1000 of [updatelog]. *)
Record boardcast := mk_bd {
  shotbuf : shot;
  resizex : spec_float;
  resizey : spec_float;
  buffer : Z -> Z -> pixel;
  updatelog : list Updatelog;
  times : Z
}.

(** The constructor sets no pixel and no [ct]. *)
Definition boardcast_new (s : shot) (junk : Z -> Z -> pixel) (cts : list Z) : boardcast :=
  mk_bd s (fdiv (float_of_int (xres s)) (float_of_int 600)) (fdiv (float_of_int (yres s)) (float_of_int 500))
    junk (map (mk_log 0) (take 1000 cts)) 0.

Definition log_cell (x y : Z) : Z := 25 * x + y.

Definition set_buffer (f : Z -> Z -> pixel) (x y : Z) (px : pixel) : Z -> Z -> pixel :=
  fun x' y' => if (x' =? x) && (y' =? y) then px else f x' y'.

Definition setpixel (px : pixel) (x y : Z) (bd : boardcast) : option boardcast :=
  if (x <? 0) || (y <? 0) || (600 <=? x) || (500 <=? y) then Some bd
  else
    let changed := negb ((R (buffer bd x y) =? R px) && (G (buffer bd x y) =? G px) && (B (buffer bd x y) =? B px)) in
    let log :=
      if changed then
        match updatelog bd !! Z.to_nat (log_cell x y) with
        | None => None
        | Some l =>
            let l := if negb (u_times l =? times bd) then mk_log (times bd) 0 else l in
            Some (<[Z.to_nat (log_cell x y) := mk_log (u_times l) (u32 (u_ct l + 1))]> (updatelog bd))
        end
      else Some (updatelog bd) in
    match log with
    | None => None
    | Some log => Some (mk_bd (shotbuf bd) (resizex bd) (resizey bd) (set_buffer (buffer bd) x y px) log (times bd))
    end.

Section Boardcast.
(** What [client.live] leaves of the packet it sends. *)
Context (live : list Z -> list Z).

(** The loop of [sendall]: packet number [iy] has lines [2*iy] and [2*iy+1]. *)
Definition sendall_packet (bd : boardcast) (iy : nat) (nbuf : list Z) : list Z :=
  let y := 2 * Z.of_nat iy in
  let nbuf := set_n32 nbuf (in_source p_x) 0 in
  let nbuf := set_n32 nbuf (in_source p_y) y in
  let nbuf := set_n32 nbuf (in_source p_w) 600 in
  let nbuf := set_n32 nbuf (in_source p_h) 2 in
  let nbuf := for_ 0 600 (fun ix nbuf => put_pixel ix (buffer bd (Z.of_nat ix) y) nbuf) nbuf in
  let nbuf := for_ 0 600 (fun ix nbuf => put_pixel (600 + ix) (buffer bd (Z.of_nat ix) (y + 1)) nbuf) nbuf in
  set8 nbuf (in_source p_m) 119.

(** The packets in order; [nbuf] is the uninitialised local. *)
Fixpoint sendall_loop (bd : boardcast) (n iy : nat) (nbuf : list Z) : list (list Z) :=
  match n with
  | O => []
  | S n =>
      let pkt := sendall_packet bd iy nbuf in
      pkt :: sendall_loop bd n (S iy) (live pkt)
  end.
Definition sendall (nbuf : list Z) (bd : boardcast) : list (list Z) :=
  sendall_loop bd 250 0 (set_n32 nbuf o_size (Z.of_nat SOURCE_CHUNK_SIZE)).

(** The pixel of the screen that is shown at [ix], [iy]; the outer [None]: the
    product is no number. *)
Definition sample (bd : boardcast) (ix iy : nat) : option (option Z) :=
  match to_int (fmul (float_of_int (Z.of_nat ix)) (resizex bd)),
        to_int (fmul (float_of_int (Z.of_nat iy)) (resizey bd)) with
  | Some x, Some y => Some (getpix (shotbuf bd) x y)
  | _, _ => None
  end.

(** [for(ix..600) for(iy..500)] of [sendshot] and [liveshot]: a pixel is looked at
    only [if(pix==NULL)]. *)
Definition look (bd : boardcast) (ix iy : nat) : option boardcast :=
  match sample bd ix iy with
  | Some (Some _) => Some bd
  | Some None => None
  | None => None
  end.
Definition look_all (bd : boardcast) : option boardcast :=
  for_ 0 600 (fun ix s => for_ 0 500 (fun iy s => match s with Some bd => look bd ix iy | None => None end) s) (Some bd).

Definition sendshot (pix : list rgb565) (nbuf : list Z) (bd : boardcast) : option (list (list Z) * boardcast) :=
  let s := shotbuf bd in
  let bd := mk_bd (mk_shot (xres s) (yres s) (bits_per_pixel s) pix)
              (resizex bd) (resizey bd) (buffer bd) (updatelog bd) (times bd) in
  look_all bd ≫= fun bd => Some (sendall nbuf bd, bd).

(** The packet for chunk [ix], [iy]. *)
Definition chunk_packet (bd : boardcast) (ix iy : nat) (nbuf : list Z) : list Z :=
  let nbuf := set8 nbuf (in_source p_m) 105 in
  let nbuf := set_n32 nbuf (in_source p_x) (Z.of_nat ix) in
  let nbuf := set_n32 nbuf (in_source p_y) (Z.of_nat iy) in
  let nbuf := set_n32 nbuf (in_source p_t) (times bd) in
  for_ 0 20 (fun jy nbuf => for_ 0 15 (fun jx nbuf =>
    put_pixel (15 * jy + jx) (buffer bd (Z.of_nat jx) (Z.of_nat jy)) nbuf) nbuf) nbuf.

Definition send_chunk (livepresent : spec_float) (bd : boardcast) (ix iy : nat) (s : list (list Z) * list Z)
    : list (list Z) * list Z :=
  match updatelog bd !! (25 * ix + iy)%nat with
  | Some l =>
      if (u_times l =? times bd) && needsend livepresent l then
        let pkt := chunk_packet bd ix iy (snd s) in (fst s ++ [pkt], live pkt)
      else s
  | None => s
  end.

Definition liveshot (livepresent : spec_float) (nbuf : list Z) (bd : boardcast)
    : option (list (list Z) * boardcast) :=
  look_all bd ≫= fun bd =>
    let '(sent, _) :=
      for_ 0 40 (fun ix s => for_ 0 25 (fun iy s => send_chunk livepresent bd ix iy s) s)
        ([], set_n32 nbuf o_size (Z.of_nat SOURCE_CHUNK_SIZE)) in
    Some (sent, mk_bd (shotbuf bd) (resizex bd) (resizey bd) (buffer bd) (updatelog bd) (u32 (times bd + 1))).

(** ** class sound and class live_f *)

(** [sendsound]: [got] is what [read] puts into the packet; the counter is unsigned. *)
Definition sendsound (times : Z) (got nbuf : list Z) : list Z * Z :=
  let times := u32 (times + 1) in
  let nbuf := set_n32 nbuf o_size (Z.of_nat SOURCE_CHUNK_SIZE) in
  let nbuf := set8 nbuf (in_source p_m) 115 in
  let nbuf := set_n32 nbuf (in_source p_t) times in
  (store nbuf (in_source p_data) (take 3584 got), times).

(** The two objects of [screen], if they were made. *)
Record live_f := mk_live_f { bd : option boardcast; sd : option Z }.

Definition live_init (b : boardcast) (f : live_f) : live_f :=
  match bd f with Some _ => f | None => mk_live_f (Some b) (sd f) end.
Definition live_initSound (f : live_f) : live_f :=
  match sd f with Some _ => f | None => mk_live_f (bd f) (Some 0) end.
Definition live_destory (f : live_f) : live_f := mk_live_f None (sd f).
Definition live_destorySound (f : live_f) : live_f := mk_live_f (bd f) None.
Definition live_sendall (nbuf : list Z) (f : live_f) : list (list Z) :=
  match bd f with None => [] | Some b => sendall nbuf b end.
Definition live_liveall (livepresent : spec_float) (nbuf : list Z) (f : live_f) : option (list (list Z) * live_f) :=
  match bd f with
  | None => Some ([], f)
  | Some b => liveshot livepresent nbuf b ≫= fun '(sent, b) => Some (sent, mk_live_f (Some b) (sd f))
  end.
(** It is [bd] that is tested. *)
Definition live_sendsound (got nbuf : list Z) (f : live_f) : option (list (list Z) * live_f) :=
  match bd f with
  | None => Some ([], f)
  | Some _ =>
      match sd f with
      | None => None
      | Some t => let '(pkt, t) := sendsound t got nbuf in Some ([pkt], mk_live_f (bd f) (Some t))
      end
  end.
End Boardcast.

(** ** The client's side *)

(** [%8x] and [%2x] *)
Definition hex_field (width : nat) (v : Z) : list Z :=
  let h := to_hex 8 (u32 v) in replicate (width - length h) sp ++ h.

Definition pixel_text (np : list Z) (j : nat) : list Z :=
  hex_field 2 (getn np (p_data + 3 * j)) ++ [44] ++ hex_field 2 (getn np (p_data + 3 * j + 1)) ++ [44] ++
  hex_field 2 (getn np (p_data + 3 * j + 2)) ++ [59].

Record cb_result := mk_cb {
  to_websockets : list (list Z);
  to_sound : list (list Z);
  to_pipe : list (list Z * Z);
  livetimer : Z
}.

(** [data] is the [source] of the packet; [livetimer==np->t()] is a comparison. *)
Definition runliveclient_cb (soundputout liveputout have_sound : bool) (timer : Z) (np : list Z) (size : Z)
    : bool * cb_result :=
  let m := getn np p_m in
  let '(web, snd) :=
    if (m =? 105) || (m =? 119) then
      if timer <? get_n32 np p_t then
        ([lit "live " ++ [m; sp] ++ hex_field 8 (get_n32 np p_x) ++ [sp] ++ hex_field 8 (get_n32 np p_y) ++ [sp] ++
          hex_field 8 (get_n32 np p_w) ++ [sp] ++ hex_field 8 (get_n32 np p_h) ++ lit " : " ++
          concat (map (pixel_text np) (seq 0 300))], [])
      else ([], [])
    else if m =? 115 then
      let bufp := load np p_data 3584 in
      ([lit "live s : " ++ encode bufp], if soundputout && have_sound then [bufp] else [])
    else ([], []) in
  let pipe :=
    if liveputout then
      [(np, if Z.of_nat SOURCE_CHUNK_SIZE <? size then Z.of_nat SOURCE_CHUNK_SIZE else size)]
    else [] in
  (true, mk_cb web snd pipe timer).

(** ** The server's pipe *)

(** The loop of [liveserver] over the results of [read], a length and the bytes
    read: each is put into a fresh packet that a thread sends; -1 is no 0. *)
Fixpoint liveserver_reads (reads : list (Z * list Z)) : list (list Z) :=
  match reads with
  | [] => []
  | (len, bytes) :: reads =>
      if len =? 0 then []
      else store (set_n32 (bzero sizeof_netSource) o_size len) o_source bytes :: liveserver_reads reads
  end.

(** ** Colours *)

(** The colours of a pixel are read back from the 24 bits they are spread to; the
    darkest and the brightest become 0 and 255. *)
Lemma rgb24_roundtrip p : 0 <= pix565 p < 2 ^ 16 ->
  match rgb24_of p with
  | [r; g; b] => (Z.shiftr r 3, Z.shiftr g 2, Z.shiftr b 3) = torgb p /\ byte_ok r /\ byte_ok g /\ byte_ok b
  | _ => False
  end /\
  rgb24_of (mk_565 0) = [0; 0; 0] /\ rgb24_of (mk_565 0xffff) = [255; 255; 255].
Proof.
  intros Hp. split; [|by vm_compute]. unfold rgb24_of, torgb.
  assert (L : forall v n, 0 <= n -> 0 <= v -> 0 <= Z.land v (2 ^ n - 1) < 2 ^ n).
  { intros v n Hn Hv. rewrite land_ones_mod by done. apply Z.mod_pos_bound. lia. }
  assert (S : forall v k, 0 <= v -> 0 <= Z.shiftr v k) by (intros; by apply Z.shiftr_nonneg).
  pose proof (L (Z.shiftr (pix565 p) 11) 5 ltac:(lia) (S _ _ (proj1 Hp))) as Lr.
  pose proof (L (Z.shiftr (pix565 p) 5) 6 ltac:(lia) (S _ _ (proj1 Hp))) as Lg.
  pose proof (L (pix565 p) 5 ltac:(lia) (proj1 Hp)) as Lb.
  change (2 ^ 5 - 1) with 0x1f in *. change (2 ^ 6 - 1) with 0x3f in *.
  set (r := Z.land (Z.shiftr (pix565 p) 11) 0x1f) in *. set (g := Z.land (Z.shiftr (pix565 p) 5) 0x3f) in *.
  set (b := Z.land (pix565 p) 0x1f) in *. clearbody r g b.
  pose proof (all_below_spec 32 (fun v => Z.shiftr (u8 (Z.lor (Z.shiftl v 3) (Z.shiftr v 2))) 3 =? v) ltac:(by vm_compute)) as F5.
  pose proof (all_below_spec 64 (fun v => Z.shiftr (u8 (Z.lor (Z.shiftl v 2) (Z.shiftr v 4))) 2 =? v) ltac:(by vm_compute)) as F6.
  split; [|split_and!; apply u8_range].
  rewrite (proj1 (Z.eqb_eq _ _) (F5 r Lr)), (proj1 (Z.eqb_eq _ _) (F6 g Lg)), (proj1 (Z.eqb_eq _ _) (F5 b Lb)). done.
Qed.

(** [getpix] lets a row and a column too many through: the address is behind the
    block exactly for row [yres] and for the last row's column [xres]. *)
Lemma getpix_bounds s x y : 0 < xres s -> 0 < yres s -> xres s * (yres s + 1) + 1 < 2 ^ 32 ->
  0 <= x <= xres s -> 0 <= y <= yres s ->
  exists i, getpix s x y = Some i /\
  (xres s * yres s <= i <-> y = yres s \/ (y = yres s - 1 /\ x = xres s)).
Proof.
  intros Hx Hy Hm Bx By. unfold getpix.
  rewrite (proj2 (Z.ltb_ge x 0)), (proj2 (Z.ltb_ge y 0)), (proj2 (Z.ltb_ge _ x)), (proj2 (Z.ltb_ge _ y)) by lia.
  cbn [orb]. eexists. split; [done|].
  rewrite (u32_id (y * xres s)) by nia. rewrite u32_id by nia. split.
  - intros H. destruct (Z.eq_dec y (yres s)); [by left|right]. assert (y = yres s - 1) by nia. nia.
  - intros [->|[-> ->]]; nia.
Qed.

(** ** The log of updates *)

(** Drawing a pixel that changes writes to a log of 40 by 25 cells with the
    coordinates of the pixel, not of its chunk: the write is outside the log
    exactly when 25 times the column plus the row is 1000 or more, from column 40
    on always; otherwise it is in the cell of the pixel's chunk only for the very
    first pixel. *)
Lemma setpixel_bounds px x y b :
  0 <= x < 600 -> 0 <= y < 500 -> px <> buffer b x y -> length (updatelog b) = 1000%nat ->
  (setpixel px x y b = None <-> 1000 <= 25 * x + y) /\
  (forall b', setpixel px x y b = Some b' ->
     buffer b' x y = px /\
     (exists l, updatelog b' !! Z.to_nat (25 * x + y) = Some l /\ u_times l = times b) /\
     (forall c, c <> Z.to_nat (25 * x + y) -> updatelog b' !! c = updatelog b !! c)) /\
  (25 * x + y = 25 * (x / 15) + y / 20 <-> x = 0 /\ y = 0).
Proof.
  intros Hx Hy Hn Hl. unfold setpixel, log_cell.
  rewrite (proj2 (Z.ltb_ge x 0)), (proj2 (Z.ltb_ge y 0)), (proj2 (Z.leb_gt 600 x)), (proj2 (Z.leb_gt 500 y)) by lia.
  cbn [orb]. assert (Hd : (R (buffer b x y) =? R px) && (G (buffer b x y) =? G px) && (B (buffer b x y) =? B px) = false).
  { apply not_true_iff_false. rewrite !andb_true_iff, !Z.eqb_eq. intros [[E1 E2] E3].
    apply Hn. destruct px, (buffer b x y). cbn in *. congruence. }
  rewrite Hd. cbn [negb]. split; [|split].
  - destruct (updatelog b !! Z.to_nat (25 * x + y)) as [l|] eqn:E.
    + split; [done|]. apply lookup_lt_Some in E. lia.
    + split; [|done]. apply lookup_ge_None in E. lia.
  - intros b'. destruct (updatelog b !! Z.to_nat (25 * x + y)) as [l|] eqn:E; [|done]. intros [= <-]. cbn.
    split; [unfold set_buffer; by rewrite !Z.eqb_refl|]. split.
    + eexists. rewrite list_lookup_insert_eq by (by eapply lookup_lt_Some). split; [done|]. cbn.
      destruct (Z.eqb_spec (u_times l) (times b)); done.
    + intros c Hc. by rewrite list_lookup_insert_ne.
  - pose proof (Z.div_mod x 15 ltac:(lia)). pose proof (Z.div_mod y 20 ltac:(lia)).
    pose proof (Z.mod_pos_bound x 15 ltac:(lia)). pose proof (Z.mod_pos_bound y 20 ltac:(lia)).
    assert (0 <= x / 15) by (apply Z.div_pos; lia). assert (0 <= y / 20) by (apply Z.div_pos; lia). lia.
Qed.

Definition w_board : boardcast :=
  boardcast_new (mk_shot 600 500 16 []) (fun _ _ => mk_pixel 0 0 0) (replicate 1000 0).

Lemma setpixel_bounds_witness :
  (setpixel (mk_pixel 1 0 0) 40 0 w_board = None <-> 1000 <= 25 * 40 + 0) /\
  (forall b', setpixel (mk_pixel 1 0 0) 40 0 w_board = Some b' ->
     buffer b' 40 0 = mk_pixel 1 0 0 /\
     (exists l, updatelog b' !! Z.to_nat (25 * 40 + 0) = Some l /\ u_times l = times w_board) /\
     (forall c, c <> Z.to_nat (25 * 40 + 0) -> updatelog b' !! c = updatelog w_board !! c)) /\
  (25 * 40 + 0 = 25 * (40 / 15) + 0 / 20 <-> 40 = 0 /\ 0 = 0).
Proof. apply (setpixel_bounds (mk_pixel 1 0 0) 40 0 w_board); [lia|lia|discriminate|reflexivity]. Defined.

(** ** The picture in its packets *)

Definition pixel_at (pkt : list Z) (j : nat) : pixel :=
  let o := in_source (p_data + 3 * j) in mk_pixel (getn pkt o) (getn pkt (o + 1)) (getn pkt (o + 2)).

Lemma live_layout :
  o_size = 56%nat /\ o_source = 76%nat /\ sizeof_netSource = 4188%nat /\ p_data = 24%nat /\
  p_m = 0%nat /\ p_x = 4%nat /\ p_y = 8%nat /\ p_w = 12%nat /\ p_h = 16%nat.
Proof. by vm_compute. Qed.

Lemma put_pixel_spec j px p : (in_source (p_data + 3 * j) + 3 <= length p)%nat ->
  length (put_pixel j px p) = length p /\ pixel_at (put_pixel j px p) j = px /\
  (forall k, (k < in_source (p_data + 3 * j) \/ in_source (p_data + 3 * j) + 3 <= k)%nat ->
     getn (put_pixel j px p) k = getn p k).
Proof.
  intros Hl. unfold put_pixel, pixel_at. set (o := in_source (p_data + 3 * j)) in *.
  split; [by rewrite !length_setn|]. split.
  - rewrite !getn_setn by (rewrite ?length_setn; lia).
    rewrite !Nat.eqb_refl, !(proj2 (Nat.eqb_neq _ _)) by lia. by destruct px.
  - intros k Hk. rewrite !getn_setn by (rewrite ?length_setn; lia).
    by rewrite !(proj2 (Nat.eqb_neq _ _)) by lia.
Qed.

(** A loop over consecutive pixels fills in those and nothing else. *)
Lemma put_pixels n b (f : nat -> pixel) p : (in_source (p_data + 3 * (b + n)) <= length p)%nat ->
  let p' := for_ 0 n (fun i p => put_pixel (b + i) (f i) p) p in
  length p' = length p /\ (forall i, (i < n)%nat -> pixel_at p' (b + i) = f i) /\
  (forall k, (k < in_source (p_data + 3 * b) \/ in_source (p_data + 3 * (b + n)) <= k)%nat -> getn p' k = getn p k).
Proof.
  unfold in_source. induction n as [|n IH]; intros Hl; [by split_and!; try lia|].
  destruct IH as (L & A & O); [lia|]. cbv zeta in *. rewrite for_last.
  set (q := for_ 0 n _ p) in *. cbn [Nat.add].
  destruct (put_pixel_spec (b + n) (f n) q) as (L' & A' & O'); [unfold in_source; lia|].
  unfold in_source in O'. split; [lia|]. split.
  - intros i Hi. destruct (decide (i = n)) as [->|Hn]; [done|]. rewrite <- (A i) by lia.
    unfold pixel_at, in_source. by rewrite !O' by lia.
  - intros k Hk. rewrite O' by lia. apply O. lia.
Qed.

Lemma load_ext a b off n : length a = length b ->
  (forall k, (off <= k < off + n)%nat -> getn a k = getn b k) -> load a off n = load b off n.
Proof.
  intros Hl H. unfold load. apply list_eq. intros i.
  destruct (Nat.lt_ge_cases i n) as [Hi|Hi].
  - rewrite !lookup_take_lt, !lookup_drop by done. specialize (H (off + i)%nat ltac:(lia)).
    unfold getn in H. rewrite !nth_lookup in H.
    destruct (a !! (off + i)%nat) as [x|] eqn:Ea, (b !! (off + i)%nat) as [y|] eqn:Eb; cbn in H; [by subst| | |done];
      exfalso; [apply lookup_ge_None in Eb; apply lookup_lt_Some in Ea|apply lookup_ge_None in Ea; apply lookup_lt_Some in Eb]; lia.
  - rewrite !lookup_take_ge by done. done.
Qed.

Lemma get_n32_ext a b off : length a = length b ->
  (forall k, (off <= k < off + 4)%nat -> getn a k = getn b k) -> get_n32 a off = get_n32 b off.
Proof. intros Hl H. unfold get_n32. by rewrite (load_ext a b off 4). Qed.

Lemma get_set_n32_other p off v o : (off + 4 <= length p)%nat -> (o + 4 <= off \/ off + 4 <= o)%nat ->
  get_n32 (set_n32 p off v) o = get_n32 p o.
Proof. intros. unfold get_n32, set_n32. by rewrite load_store_other. Qed.

Lemma set8_setn p off v : (off < length p)%nat -> set8 p off v = setn p off v.
Proof. intros. unfold set8, setn, store. by rewrite insert_take_drop, Nat.add_1_r by done. Qed.

Section Picture.
Context (live : list Z -> list Z).
Context (live_length : forall p, length (live p) = length p).

(** One packet: its fields and its 1200 pixels. *)
Lemma sendall_packet_spec b iy p : length p = sizeof_netSource -> - 2 ^ 31 <= 2 * Z.of_nat iy < 2 ^ 31 ->
  let pkt := sendall_packet b iy p in
  length pkt = sizeof_netSource /\
  getn pkt (in_source p_m) = 119 /\ get_n32 pkt (in_source p_x) = 0 /\
  get_n32 pkt (in_source p_y) = 2 * Z.of_nat iy /\
  get_n32 pkt (in_source p_w) = 600 /\ get_n32 pkt (in_source p_h) = 2 /\
  (forall i, (i < 600)%nat -> pixel_at pkt i = buffer b (Z.of_nat i) (2 * Z.of_nat iy)) /\
  (forall i, (i < 600)%nat -> pixel_at pkt (600 + i) = buffer b (Z.of_nat i) (2 * Z.of_nat iy + 1)).
Proof.
  destruct live_layout as (_ & So & Sz & Sd & Sm & Sx & Sy & Sw & Sh). intros Hl Hy.
  unfold sendall_packet. cbv zeta. unfold in_source. rewrite So, Sm, Sx, Sy, Sw, Sh, Sz.
  rewrite Sz in Hl. set (y := 2 * Z.of_nat iy) in *.
  set (h := set_n32 (set_n32 (set_n32 (set_n32 p (76 + 4) 0) (76 + 8) y) (76 + 12) 600) (76 + 16) 2).
  assert (L1 : length (set_n32 p (76 + 4) 0) = 4188%nat) by (rewrite length_set_n32; lia).
  assert (L2 : length (set_n32 (set_n32 p (76 + 4) 0) (76 + 8) y) = 4188%nat) by (rewrite length_set_n32; lia).
  assert (L3 : length (set_n32 (set_n32 (set_n32 p (76 + 4) 0) (76 + 8) y) (76 + 12) 600) = 4188%nat)
    by (rewrite length_set_n32; lia).
  assert (Lh : length h = 4188%nat) by (unfold h; rewrite length_set_n32; lia).
  destruct (put_pixels 600 0 (fun i => buffer b (Z.of_nat i) y) h) as (La & A & OA);
    [unfold in_source; rewrite So, Sd, Lh; apply Nat.leb_le; reflexivity|].
  cbn [Nat.add] in La, A, OA. set (pa := for_ 0 600 _ h) in *.
  destruct (put_pixels 600 600 (fun i => buffer b (Z.of_nat i) (y + 1)) pa) as (Lb & Bx & OB);
    [unfold in_source; rewrite So, Sd, La, Lh; apply Nat.leb_le; reflexivity|].
  set (pb := for_ 0 600 _ pa) in *. unfold in_source in OA, OB. rewrite So, Sd in OA, OB.
  assert (Lp : length (set8 pb (76 + 0) 119) = 4188%nat) by (rewrite length_set8; lia).
  assert (G : forall k, k <> 76%nat -> getn (set8 pb (76 + 0) 119) k = getn pb k).
  { intros k Hk. rewrite set8_setn, getn_setn by lia. by rewrite (proj2 (Nat.eqb_neq _ _)). }
  split; [done|].
  assert (F : forall o, (78 <= o <= 94)%nat -> get_n32 (set8 pb (76 + 0) 119) o = get_n32 h o).
  { intros o Ho. apply get_n32_ext; [lia|]. intros k Hk. rewrite G, OB, OA by lia. done. }
  split_and!.
  - by rewrite set8_setn, getn_setn by lia.
  - rewrite F by lia. unfold h. rewrite !get_set_n32_other by lia. apply get_set_n32; lia.
  - rewrite F by lia. unfold h. rewrite !get_set_n32_other by lia. apply get_set_n32; lia.
  - rewrite F by lia. unfold h. rewrite !get_set_n32_other by lia. apply get_set_n32; lia.
  - rewrite F by lia. unfold h. apply get_set_n32; lia.
  - intros i Hi. rewrite <- A by done. unfold pixel_at, in_source. rewrite So, Sd, !G, !OB by lia. done.
  - intros i Hi. rewrite <- Bx by done. unfold pixel_at, in_source. rewrite So, Sd, !G by lia. done.
Qed.
End Picture.

Lemma sendall_loop_lookup live b : (forall p, length (live p) = length p) -> forall n iy p,
  length p = sizeof_netSource -> (2 * Z.of_nat (iy + n) < 2 ^ 31) ->
  length (sendall_loop live b n iy p) = n /\
  forall i, (i < n)%nat -> exists q, length q = sizeof_netSource /\
    sendall_loop live b n iy p !! i = Some (sendall_packet b (iy + i) q).
Proof.
  intros Hlive n. induction n as [|n IH]; intros iy p Hp Hn; [split; [done|lia]|].
  destruct (sendall_packet_spec b iy p Hp ltac:(lia)) as (Lp & _).
  destruct (IH (S iy) (live (sendall_packet b iy p))) as (L & G); [by rewrite Hlive|lia|].
  cbn [sendall_loop]. split; [cbn [length]; lia|]. intros [|i] Hi.
  - exists p. rewrite Nat.add_0_r. split; [exact Hp|reflexivity].
  - destruct (G i ltac:(lia)) as (q & Hq & E). exists q. split; [exact Hq|].
    cbn [lookup list_lookup]. rewrite Nat.add_succ_r. exact E.
Qed.

(**  The whole picture is in the 250 packets of [sendall], whatever was in the
    buffer before and whatever the sending makes of it: pixel [x], [y] is in packet
    number [y/2], whose header says lines [2*(y/2)] and the next of width 600, at
    place [x] of its line. *)
Lemma sendall_picture live b nbuf :
  (forall p, length (live p) = length p) -> length nbuf = sizeof_netSource ->
  length (sendall live nbuf b) = 250%nat /\
  forall x y, 0 <= x < 600 -> 0 <= y < 500 -> exists pkt,
    sendall live nbuf b !! Z.to_nat (y / 2) = Some pkt /\ length pkt = sizeof_netSource /\
    getn pkt (in_source p_m) = 119 /\ get_n32 pkt (in_source p_x) = 0 /\
    get_n32 pkt (in_source p_y) = 2 * (y / 2) /\
    get_n32 pkt (in_source p_w) = 600 /\ get_n32 pkt (in_source p_h) = 2 /\
    pixel_at pkt (Z.to_nat (x + 600 * (y mod 2))) = buffer b x y.
Proof.
  intros Hlive Hl. unfold sendall.
  destruct (sendall_loop_lookup live b Hlive 250 0 (set_n32 nbuf o_size (Z.of_nat SOURCE_CHUNK_SIZE)))
    as (L & G); [|lia|].
  { destruct live_layout as (So & _ & Sz & _). rewrite length_set_n32; [done|rewrite Hl, So, Sz; lia]. }
  split; [done|]. intros x y Hx Hy. pose proof (Z.div_mod y 2 ltac:(lia)). pose proof (Z.mod_pos_bound y 2 ltac:(lia)).
  destruct (G (Z.to_nat (y / 2)) ltac:(lia)) as (q & Hq & E).
  eexists. split; [exact E|]. cbn [Nat.add].
  destruct (sendall_packet_spec b (Z.to_nat (y / 2)) q Hq ltac:(lia)) as (S1 & S2 & S3 & S4 & S5 & S6 & A & C).
  rewrite Z2Nat.id in S4, A, C by lia. split_and!; [done..|].
  destruct (Z.eq_dec (y mod 2) 0) as [E0|E0].
  - replace (Z.to_nat (x + 600 * (y mod 2))) with (Z.to_nat x) by lia. rewrite A by lia. f_equal; lia.
  - replace (Z.to_nat (x + 600 * (y mod 2))) with (600 + Z.to_nat x)%nat by lia. rewrite C by lia. f_equal; lia.
Qed.

Lemma sendall_picture_witness :
  length (sendall (fun p => p) (bzero sizeof_netSource) w_board) = 250%nat /\
  forall x y, 0 <= x < 600 -> 0 <= y < 500 -> exists pkt,
    sendall (fun p => p) (bzero sizeof_netSource) w_board !! Z.to_nat (y / 2) = Some pkt /\
    length pkt = sizeof_netSource /\
    getn pkt (in_source p_m) = 119 /\ get_n32 pkt (in_source p_x) = 0 /\
    get_n32 pkt (in_source p_y) = 2 * (y / 2) /\
    get_n32 pkt (in_source p_w) = 600 /\ get_n32 pkt (in_source p_h) = 2 /\
    pixel_at pkt (Z.to_nat (x + 600 * (y mod 2))) = buffer w_board x y.
Proof. apply (sendall_picture (fun p => p) w_board (bzero sizeof_netSource)); [done|apply length_replicate]. Defined.

(** ** Frames of a running broadcast *)

(** [look_all] only looks. *)
Lemma look_all_same b : (forall ix iy, (ix < 600)%nat -> (iy < 500)%nat -> exists i, sample b ix iy = Some (Some i)) ->
  look_all b = Some b.
Proof.
  intros H. unfold look_all.
  assert (I : forall ix, (ix < 600)%nat -> forall n, (n <= 500)%nat ->
    for_ 0 n (fun iy s => match s with Some bd => look bd ix iy | None => None end) (Some b) = Some b).
  { intros ix Hx n. induction n as [|n IH]; intros Hn; [done|]. rewrite for_last, IH by lia. cbn [Nat.add].
    unfold look. destruct (H ix n) as (i & ->); [lia..|done]. }
  assert (O : forall n, (n <= 600)%nat ->
    for_ 0 n (fun ix s => for_ 0 500 (fun iy s => match s with Some bd => look bd ix iy | None => None end) s) (Some b)
      = Some b); [|by apply O].
  intros n. induction n as [|n IH]; intros Hn; [done|]. rewrite for_last, IH by lia. cbn [Nat.add]. apply I; lia.
Qed.

(** A log without an entry of this frame sends nothing. *)
Lemma no_chunk live lp b (s : list (list Z) * list Z) :
  (forall l, l ∈ updatelog b -> u_times l <> times b) ->
  for_ 0 40 (fun ix s => for_ 0 25 (fun iy s => send_chunk live lp b ix iy s) s) s = s.
Proof.
  intros H.
  assert (C : forall ix iy s, send_chunk live lp b ix iy s = s).
  { intros ix iy s'. unfold send_chunk. destruct (updatelog b !! _) as [l|] eqn:E; [|done].
    rewrite (proj2 (Z.eqb_neq _ _)); [done|]. apply H. by eapply list_elem_of_lookup_2. }
  assert (I : forall A (f : nat -> A -> A) n (a : A), (forall i a, f i a = a) -> for_ 0 n f a = a).
  { intros A f n a Hf. induction n as [|n IH]; [done|]. by rewrite for_last, IH, Hf. }
  apply I. intros ix a. apply I. intros iy a'. apply C.
Qed.

(** Frame after frame, each with the local buffer it finds. *)
Fixpoint frames (live : list Z -> list Z) (lp : spec_float) (nbufs : list (list Z)) (b : boardcast)
    : option (list (list (list Z)) * boardcast) :=
  match nbufs with
  | [] => Some ([], b)
  | nbuf :: nbufs =>
      '(sent, b) ← liveshot live lp nbuf b;
      '(rest, b) ← frames live lp nbufs b;
      Some (sent :: rest, b)
  end.

Lemma quiet_frames live lp nbufs : forall b,
  (forall ix iy, (ix < 600)%nat -> (iy < 500)%nat -> exists i, sample b ix iy = Some (Some i)) ->
  (forall l, l ∈ updatelog b -> u_times l = 0) ->
  0 < times b -> times b + Z.of_nat (length nbufs) <= 2 ^ 32 ->
  exists b', frames live lp nbufs b = Some (replicate (length nbufs) [], b') /\
    buffer b' = buffer b /\ updatelog b' = updatelog b.
Proof.
  induction nbufs as [|nbuf nbufs IH]; intros b Hs Hl Ht Hn; [by exists b|].
  cbn [frames length]. cbn [length] in Hn. unfold liveshot. rewrite look_all_same by done. cbn [mbind option_bind].
  rewrite no_chunk by (intros l Hi; rewrite (Hl l Hi); lia).
  cbn [mbind option_bind].
  destruct (decide (nbufs = [])) as [->|Hne]; [eexists; split; [reflexivity|done]|].
  destruct nbufs as [|nbuf' nbufs]; [done|]. cbn [length] in Hn.
  destruct (IH (mk_bd (shotbuf b) (resizex b) (resizey b) (buffer b) (updatelog b) (u32 (times b + 1))))
    as (b' & E & Eb & El); [done|done|cbn [times]; rewrite u32_id; lia|cbn [times length]; rewrite u32_id; lia|].
  exists b'. rewrite E. split; [reflexivity|]. by split.
Qed.

(** C38.  A broadcast never shows what changes on the screen: with every sampled
    point on the screen no frame looks at the pixels, only the first one can send
    chunks, by what memory held when the log was made, and of the following ones,
    until the counter of frames wraps around, none sends a packet; the picture stays
    the one that memory held. *)
Theorem liveshot_silent live lp s junk cts nbuf nbufs :
  (forall ix iy, (ix < 600)%nat -> (iy < 500)%nat ->
     exists i, sample (boardcast_new s junk cts) ix iy = Some (Some i)) ->
  Z.of_nat (length nbufs) < 2 ^ 32 ->
  exists first b', frames live lp (nbuf :: nbufs) (boardcast_new s junk cts) =
      Some (first :: replicate (length nbufs) [], b') /\
    buffer b' = junk /\
    (forall c l, updatelog b' !! c = Some l -> u_times l = 0 /\ cts !! c = Some (u_ct l)).
Proof.
  intros Hs Hn. set (b0 := boardcast_new s junk cts) in *. cbn [frames]. unfold liveshot.
  rewrite look_all_same by done. cbn [mbind option_bind].
  set (r := for_ 0 40 _ _). destruct r as [first nb].
  assert (Hl : forall c l, updatelog b0 !! c = Some l -> u_times l = 0 /\ cts !! c = Some (u_ct l)).
  { intros c l E. cbn in E. rewrite list_lookup_fmap in E. destruct (take 1000 cts !! c) as [t|] eqn:F; [|done].
    apply lookup_take_Some in F as [F _]. injection E as <-. done. }
  destruct (quiet_frames live lp nbufs
    (mk_bd (shotbuf b0) (resizex b0) (resizey b0) (buffer b0) (updatelog b0) 1))
    as (b' & E & Eb & El); [exact Hs| |cbn; lia|cbn [times]; lia|].
  { intros l [c E]%list_elem_of_lookup_1. by apply (Hl c). }
  eexists first, b'. cbn [mbind option_bind].
  change (u32 (times b0 + 1)) with 1. rewrite E.
  split; [reflexivity|]. split; [exact Eb|]. rewrite El. exact Hl.
Qed.

(** A screen of the picture's own size. *)
Definition w_shot : shot := mk_shot 600 500 16 [].

Lemma w_columns : forallb (fun ix => match to_int (fmul (float_of_int (Z.of_nat ix)) (fdiv (float_of_int 600) (float_of_int 600)))
  with Some x => (0 <=? x) && (x <=? 600) | None => false end) (seq 0 600) = true.
Proof. by vm_compute. Qed.
Lemma w_rows : forallb (fun iy => match to_int (fmul (float_of_int (Z.of_nat iy)) (fdiv (float_of_int 500) (float_of_int 500)))
  with Some y => (0 <=? y) && (y <=? 500) | None => false end) (seq 0 500) = true.
Proof. by vm_compute. Qed.

Lemma w_sampled junk cts ix iy : (ix < 600)%nat -> (iy < 500)%nat ->
  exists i, sample (boardcast_new w_shot junk cts) ix iy = Some (Some i).
Proof.
  intros Hx Hy. unfold sample, boardcast_new, w_shot. cbn [resizex resizey shotbuf xres yres].
  pose proof (proj1 (forallb_forall _ _) w_columns ix ltac:(apply in_seq; lia)) as Ex.
  pose proof (proj1 (forallb_forall _ _) w_rows iy ltac:(apply in_seq; lia)) as Ey.
  cbv beta in Ex, Ey.
  destruct (to_int (fmul (float_of_int (Z.of_nat ix)) _)) as [x|]; [|done].
  destruct (to_int (fmul (float_of_int (Z.of_nat iy)) _)) as [y|]; [|done].
  unfold getpix. cbn [xres yres].
  rewrite (proj2 (Z.ltb_ge x 0)), (proj2 (Z.ltb_ge y 0)), (proj2 (Z.ltb_ge _ x)), (proj2 (Z.ltb_ge _ y)) by lia.
  cbn [orb]. by eexists.
Qed.

Lemma liveshot_silent_witness :
  exists first b', frames (fun p => p) (double_of_int 0) [bzero sizeof_netSource; bzero sizeof_netSource]
      (boardcast_new w_shot (fun _ _ => mk_pixel 1 2 3) (replicate 1000 0)) = Some (first :: replicate 1 [], b') /\
    buffer b' = (fun _ _ => mk_pixel 1 2 3) /\
    (forall c l, updatelog b' !! c = Some l -> u_times l = 0 /\ replicate 1000 0 !! c = Some (u_ct l)).
Proof.
  apply (liveshot_silent (fun p => p) (double_of_int 0) w_shot (fun _ _ => mk_pixel 1 2 3) (replicate 1000 0)
    (bzero sizeof_netSource) [bzero sizeof_netSource]); [|done].
  intros ix iy. apply w_sampled.
Defined.

(** ** What is sent and shown *)

(** With the default [livepresent] of 0.01 a chunk is sent from the fourth change
    on: three of 300 pixels are not more than a hundredth. *)
Lemma needsend_default t ct : 0 <= ct <= 300 ->
  needsend (ddiv (double_of_int 1) (double_of_int 100)) (mk_log t ct) = (4 <=? ct).
Proof.
  intros H.
  pose proof (all_below_spec 301 (fun ct => Bool.eqb (needsend (ddiv (double_of_int 1) (double_of_int 100)) (mk_log 0 ct)) (4 <=? ct))
    ltac:(by vm_compute)) as F.
  specialize (F ct ltac:(lia)). apply eqb_prop in F. exact F.
Qed.

(** A packet of the stream is shown only when it is newer than [livetimer], which
    nothing moves, and of a "w" packet the first 300 pixels. *)
Lemma runliveclient_cb_spec soundputout liveputout have_sound timer np size :
  let r := snd (runliveclient_cb soundputout liveputout have_sound timer np size) in
  fst (runliveclient_cb soundputout liveputout have_sound timer np size) = true /\
  livetimer r = timer /\
  (getn np p_m = 105 \/ getn np p_m = 119 -> (to_websockets r = [] <-> get_n32 np p_t <= timer) /\ to_sound r = []) /\
  (to_sound r <> [] <-> getn np p_m = 115 /\ soundputout = true /\ have_sound = true) /\
  (liveputout = true -> exists len, to_pipe r = [(np, len)] /\ len <= Z.of_nat SOURCE_CHUNK_SIZE).
Proof.
  unfold runliveclient_cb. cbv zeta.
  destruct ((getn np p_m =? 105) || (getn np p_m =? 119)) eqn:E.
  - apply orb_true_iff in E. rewrite !Z.eqb_eq in E.
    destruct (Z.ltb_spec timer (get_n32 np p_t)); cbn [fst snd to_websockets to_sound to_pipe livetimer];
      (split; [done|]; split; [done|]; split; [intros _; split; [split; [try done; lia|try done; lia]|done]|];
       split; [split; [done|intros [Hm _]; lia]|]); intros ->; eexists; (split; [reflexivity|]);
      destruct (Z.ltb_spec (Z.of_nat SOURCE_CHUNK_SIZE) size); lia.
  - apply orb_false_iff in E. rewrite !Z.eqb_neq in E.
    destruct (Z.eqb_spec (getn np p_m) 115) as [Em|Em]; cbn [fst snd to_websockets to_sound to_pipe livetimer];
      (split; [done|]; split; [done|]; split; [intros [?|?]; lia|]; split; [|intros ->; eexists; split; [reflexivity|];
       destruct (Z.ltb_spec (Z.of_nat SOURCE_CHUNK_SIZE) size); lia]).
    + destruct soundputout, have_sound; cbn; split; try done; by intros (_ & ? & ?).
    + split; [done|]. intros [? _]. done.
Qed.
