(* ===== verification/Sta.v ===== *)
(** * Sta: core/sta.hpp, statistics for Lua scripts

    Lua's stack is the list of values above the running C function, the deepest
    first.  [strtod] and the formatting of numbers are the C library's: what is
    a number to Lua, and the text of a number, are arguments. *)

From Stdlib Require Import Sorted.
From S2P Require Import Prelude.
From S2P Require Import Hash.
From S2P Require Import Text.
From S2P Require Import Cache.
From S2P Require Import Floats.

(** A table has what is stored at 0 and the values from 1 on. *)
Inductive sta_value :=
| VString (s : list Z)
| VNumber (x : spec_float)
| VTable (zero : option sta_value) (items : list sta_value)
| VOther.

Inductive lua_result := Return (vals : list sta_value) | Lua_error.

Section Sta.
Context (number_text : spec_float -> list Z).
Context (text_number : list Z -> option spec_float).

Definition lua_tostring (v : sta_value) : option (list Z) :=
  match v with VString s => Some (c_str s) | VNumber x => Some (number_text x) | _ => None end.
Definition lua_tonumber (v : sta_value) : option spec_float :=
  match v with VNumber x => Some x | VString s => text_number s | _ => None end.

(** ** The stack *)

Definition stack : Type := list sta_value.

(** Index [-n], one of the values or, below them, the C function. *)
Definition from_top (st : stack) (n : nat) : option sta_value :=
  if (n <=? length st)%nat then st !! (length st - n)%nat else None.

(** [lua_settop] *)
Definition lua_settop (st : stack) (idx : Z) : stack :=
  if 0 <=? idx then take (Z.to_nat idx) st ++ replicate (Z.to_nat idx - length st) VOther
  else take (Z.to_nat (Z.of_nat (length st) + idx + 1)) st.
Definition lua_pop (st : stack) (n : Z) : stack := lua_settop st (- n - 1).

(** [lua_pushnumber(L,i); lua_gettable(L,idx);]: [None]: Lua raises an error, as
    for everything that is no table. *)
Definition push_item (st : stack) (table : option sta_value) (i : nat) : option stack :=
  match table with
  | Some (VTable _ items) => Some (st ++ [nth (i - 1) items VOther])
  | _ => None
  end.

(** ** num *)

(** [data[key]++], in a [std::map]. *)
Fixpoint count_key (k : list Z) (data : list (list Z * Z)) : list (list Z * Z) :=
  match data with
  | [] => [(k, 1)]
  | (k', n) :: data' =>
      if decide (k = k') then (k', s32 (n + 1)) :: data'
      else if key_ltb k k' then (k, 1) :: data
      else (k', n) :: count_key k data'
  end.

(** [for(int i=1;i<=n;i++)]: [n] turns are left. *)
Fixpoint num_loop (n i : nat) (st : stack) (data : list (list Z * Z)) : lua_result + list (list Z * Z) :=
  match n with
  | O => inr data
  | S n =>
      match push_item st (from_top st 1) i with
      | None => inl Lua_error
      | Some st =>
          match from_top st 1 with
          | None => inl Lua_error
          | Some v =>
              match lua_tostring v with
              | None => inl (Return [])
              | Some s => num_loop n (S i) (lua_pop st (-1)) (count_key s data)
              end
          end
      end
  end.

Definition num_row (n : nat) (row : list Z * Z) : sta_value :=
  VTable (Some (VNumber (double_of_int (Z.of_nat n))))
    [VString (c_str (fst row)); VNumber (double_of_int (snd row))].

Definition sta_num (st : stack) : lua_result :=
  match from_top st 1 with
  | Some (VTable _ items) =>
      match num_loop (length items) 1 st [] with
      | inl r => r
      | inr data =>
          Return [VTable (Some (VNumber (double_of_int (-1)))) (imap (fun i row => num_row (S i) row) data)]
      end
  | _ => Return []
  end.

(** ** regression *)

Record sums := mk_sums { xa : spec_float; ya : spec_float; xa2 : spec_float; ya2 : spec_float; xya : spec_float }.
Definition sums0 : sums :=
  mk_sums (double_of_int 0) (double_of_int 0) (double_of_int 0) (double_of_int 0) (double_of_int 0).
Definition add_point (s : sums) (x y : spec_float) : sums :=
  mk_sums (dadd (xa s) x) (dadd (ya s) y) (dadd (xa2 s) (dmul x x)) (dadd (ya2 s) (dmul y y))
    (dadd (xya s) (dmul x y)).

(** A row: a table with numbers at 1 and 2; [None]: nothing is returned. *)
Definition point_of (row : sta_value) : option (spec_float * spec_float) :=
  match row with
  | VTable _ items =>
      match lua_tonumber (nth 0 items VOther), lua_tonumber (nth 1 items VOther) with
      | Some x, Some y => Some (x, y)
      | _, _ => None
      end
  | _ => None
  end.
Fixpoint sum_rows (rows : list sta_value) (s : sums) : option sums :=
  match rows with
  | [] => Some s
  | row :: rows =>
      match point_of row with
      | None => None
      | Some (x, y) => sum_rows rows (add_point s x y)
      end
  end.

(** What is pushed: xa, ya, X, Y, a, b, r. *)
Definition finish (n : Z) (s : sums) : list spec_float :=
  let dn := double_of_int n in
  let X := ddiv (xa s) dn in
  let Y := ddiv (ya s) dn in
  let b := ddiv (dsub (xya s) (dmul (dmul dn X) Y)) (dsub (xa2 s) (dmul (dmul dn X) X)) in
  let a := dsub Y (dmul b X) in
  let r := ddiv (dsub (xya s) (dmul (dmul dn X) Y))
             (dsqrt (dmul (dsub (xa2 s) (dmul (dmul dn X) X)) (dsub (ya2 s) (dmul (dmul dn Y) Y)))) in
  [xa s; ya s; X; Y; a; b; r].

Definition sta_regression (st : stack) : lua_result :=
  match nth 0 st VOther with
  | VTable _ items =>
      match sum_rows items sums0 with
      | None => Return []
      | Some s => Return (map VNumber (finish (Z.of_nat (length items)) s))
      end
  | _ => Return []
  end.

(** ** independence *)

(** The limits of [k] and the probabilities, in thousandths. *)
Definition limits : list (Z * Z * Z) :=
  [(0, 455, 500); (455, 708, 400); (708, 1323, 250); (1323, 2072, 150); (2072, 2706, 100); (2706, 3841, 50);
   (3841, 5024, 25); (5024, 6635, 10); (6635, 7879, 5); (7879, 10828, 1)].
Definition lit3 (a : Z) : spec_float := double_literal a 1000.

(** The chain of [if]: the first has no lower, the last no upper limit; [None]: [Pe]
    is not set. *)
Fixpoint prob (first : bool) (l : list (Z * Z * Z)) (k : spec_float) : option spec_float :=
  match l with
  | [] => if SFleb (lit3 10828) k then Some (lit3 1) else None
  | (lo, hi, p) :: l =>
      if (first || SFleb (lit3 lo) k) && SFltb k (lit3 hi) then Some (lit3 p) else prob false l k
  end.

Definition chi (a b c d : spec_float) : spec_float :=
  let all := dadd (dadd (dadd a b) c) d in
  let m := dsub (dmul a d) (dmul b c) in
  ddiv (dmul (dmul all m) m) (dmul (dmul (dmul (dadd a b) (dadd c d)) (dadd a c)) (dadd b d)).

(** [junk]: what [Pe] holds before. *)
Definition sta_independence (junk : spec_float) (st : stack) : lua_result :=
  match lua_tonumber (nth 0 st VOther), lua_tonumber (nth 1 st VOther),
        lua_tonumber (nth 2 st VOther), lua_tonumber (nth 3 st VOther) with
  | Some a, Some b, Some c, Some d =>
      let k := chi a b c d in
      Return [VNumber k; VNumber (default junk (prob true limits k))]
  | _, _, _, _ => Return []
  end.
End Sta.

Section Properties.
Context (number_text : spec_float -> list Z).
Context (text_number : list Z -> option spec_float).

(** ** num counts at most one word *)

(** [lua_pop(L,-1)] empties the stack: the second turn looks for the table below it,
    finds the C function, and Lua raises an error. *)
Lemma sta_num_spec below z items :
  sta_num number_text (below ++ [VTable z items]) =
  match items with
  | [] => Return [VTable (Some (VNumber (double_of_int (-1)))) []]
  | v :: rest =>
      match lua_tostring number_text v, rest with
      | None, _ => Return []
      | Some s, [] => Return [VTable (Some (VNumber (double_of_int (-1)))) [num_row 1 (s, 1)]]
      | Some _, _ :: _ => Lua_error
      end
  end.
Proof.
  assert (T : forall (st : stack) v, from_top (st ++ [v]) 1 = Some v).
  { intros st v. unfold from_top. rewrite length_app. cbn [length].
    rewrite (proj2 (Nat.leb_le _ _)) by lia. replace (length st + 1 - 1)%nat with (length st) by lia.
    by apply list_lookup_middle. }
  unfold sta_num. rewrite T. destruct items as [|v rest]; [done|]. cbn [length num_loop].
  rewrite T. cbn [push_item]. rewrite T. cbn [nth Nat.sub].
  destruct (lua_tostring number_text v) as [s|]; [|by destruct rest].
  assert (P : lua_pop ((below ++ [VTable z (v :: rest)]) ++ [v]) (-1) = []) by (by unfold lua_pop, lua_settop; cbn).
  rewrite P. destruct rest; done.
Qed.

(** ** Sums of integers are exact *)

Definition int_row (p : Z * Z) : sta_value :=
  VTable None [VNumber (double_of_int (fst p)); VNumber (double_of_int (snd p))].

Record int_sums := mk_is { s_x : Z; s_y : Z; s_xx : Z; s_yy : Z; s_xy : Z }.
Definition add_ints (s : int_sums) (p : Z * Z) : int_sums :=
  mk_is (s_x s + fst p) (s_y s + snd p) (s_xx s + fst p * fst p) (s_yy s + snd p * snd p) (s_xy s + fst p * snd p).
Definition small (z : Z) : Prop := - 2 ^ 53 < z < 2 ^ 53.
Definition small_sums (s : int_sums) : Prop :=
  small (s_x s) /\ small (s_y s) /\ small (s_xx s) /\ small (s_yy s) /\ small (s_xy s).
Definition doubles (s : int_sums) : sums :=
  mk_sums (double_of_int (s_x s)) (double_of_int (s_y s)) (double_of_int (s_xx s)) (double_of_int (s_yy s))
    (double_of_int (s_xy s)).

Lemma squares_small s p : small_sums s -> small_sums (add_ints s p) -> 0 <= s_xx s -> 0 <= s_yy s ->
  small (fst p) /\ small (snd p) /\ small (fst p * fst p) /\ small (snd p * snd p) /\ small (fst p * snd p).
Proof.
  destruct p as [x y]. unfold small_sums, small, add_ints. cbn [fst snd s_x s_y s_xx s_yy s_xy].
  intros (A1 & A2 & A3 & A4 & A5) (B1 & B2 & B3 & B4 & B5) Hx Hy.
  assert (X2 : x * x < 2 ^ 53) by lia. assert (Y2 : y * y < 2 ^ 53) by lia.
  pose proof (Z.square_nonneg (x - y)) as P1. pose proof (Z.square_nonneg (x + y)) as P2.
  pose proof (Z.square_nonneg x) as Px. pose proof (Z.square_nonneg y) as Py.
  assert (Q : forall v, - (v * v) <= v <= v * v) by (intros v; clear; nia).
  pose proof (Q x). pose proof (Q y). clear A1 A2 A3 A4 A5 B1 B2 B3 B4 B5.
  assert (- 2 ^ 53 < 0) by done. revert X2 Y2. generalize (2 ^ 53). intros M X2 Y2. split_and!; lia.
Qed.

Lemma add_point_int s p : small_sums s -> small_sums (add_ints s p) -> 0 <= s_xx s -> 0 <= s_yy s ->
  add_point (doubles s) (double_of_int (fst p)) (double_of_int (snd p)) = doubles (add_ints s p).
Proof.
  intros Hs Ha Hx Hy. destruct (squares_small s p Hs Ha Hx Hy) as (P1 & P2 & P3 & P4 & P5).
  destruct Hs as (A1 & A2 & A3 & A4 & A5), Ha as (B1 & B2 & B3 & B4 & B5). unfold small in *.
  unfold add_point, doubles. cbn [xa ya xa2 ya2 xya].
  rewrite (dadd_int (s_x s)), (dadd_int (s_y s)) by done.
  rewrite (dadd_dmul_int (s_xx s)), (dadd_dmul_int (s_yy s)), (dadd_dmul_int (s_xy s)) by done. done.
Qed.

Lemma sum_rows_int pts : forall s, small_sums s -> 0 <= s_xx s -> 0 <= s_yy s ->
  (forall n, small_sums (fold_left add_ints (take n pts) s)) ->
  sum_rows text_number (map int_row pts) (doubles s) = Some (doubles (fold_left add_ints pts s)).
Proof.
  induction pts as [|p pts IH]; intros s Hs Hx Hy Hp; [done|]. cbn [map sum_rows fold_left].
  change (point_of text_number (int_row p)) with (Some (double_of_int (fst p), double_of_int (snd p))).
  assert (H1 : small_sums (add_ints s p)) by exact (Hp 1%nat).
  cbv iota beta. rewrite add_point_int by done.
  apply IH; [done|cbn; nia|cbn; nia|]. intros n. exact (Hp (S n)).
Qed.
End Properties.

(** The regression of points with integer coordinates works on exact sums: as
    long as the sums of the coordinates, their squares and their products stay below
    2^53, no rounding takes place before the means, and what is returned is what the
    formulas make of the exact sums, the sums themselves first. *)
Lemma regression_sums text_number z pts rest
    (Hp : forall n, small_sums (fold_left add_ints (take n pts) (mk_is 0 0 0 0 0))) :
  let s := fold_left add_ints pts (mk_is 0 0 0 0 0) in
  sta_regression text_number (VTable z (map int_row pts) :: rest)
    = Return (map VNumber (finish (Z.of_nat (length pts)) (doubles s))) /\
  s_x s = foldr Z.add 0 (map fst pts) /\ s_y s = foldr Z.add 0 (map snd pts) /\
  s_xx s = foldr Z.add 0 (map (fun p => fst p * fst p) pts) /\
  s_yy s = foldr Z.add 0 (map (fun p => snd p * snd p) pts) /\
  s_xy s = foldr Z.add 0 (map (fun p => fst p * snd p) pts).
Proof.
  cbv zeta. split.
  - unfold sta_regression. cbn [nth]. change sums0 with (doubles (mk_is 0 0 0 0 0)).
    rewrite sum_rows_int; [by rewrite length_map|exact (Hp 0%nat)|cbn; lia|cbn; lia|done].
  - assert (G : forall s, let s' := fold_left add_ints pts s in
      s_x s' = s_x s + foldr Z.add 0 (map fst pts) /\ s_y s' = s_y s + foldr Z.add 0 (map snd pts) /\
      s_xx s' = s_xx s + foldr Z.add 0 (map (fun p => fst p * fst p) pts) /\
      s_yy s' = s_yy s + foldr Z.add 0 (map (fun p => snd p * snd p) pts) /\
      s_xy s' = s_xy s + foldr Z.add 0 (map (fun p => fst p * snd p) pts)); [|apply (G (mk_is 0 0 0 0 0))].
    clear Hp. induction pts as [|p pts IH]; intros s; [cbn; lia|]. cbn [fold_left map foldr]. cbv zeta in *.
    destruct (IH (add_ints s p)) as (-> & -> & -> & -> & ->). cbn. lia.
Qed.

(** Three points on a line: the slope is 2, the coefficient 1. *)
Lemma regression_sums_witness :
  sta_regression (fun _ => None) [VTable None (map int_row [(1, 1); (2, 3); (3, 5)])]
    = Return (map VNumber (finish 3 (doubles (mk_is 6 9 14 35 22)))) /\
  6 = foldr Z.add 0 (map fst [(1, 1); (2, 3); (3, 5)]) /\ 9 = foldr Z.add 0 (map snd [(1, 1); (2, 3); (3, 5)]) /\
  14 = foldr Z.add 0 (map (fun p => fst p * fst p) [(1, 1); (2, 3); (3, 5)]) /\
  35 = foldr Z.add 0 (map (fun p => snd p * snd p) [(1, 1); (2, 3); (3, 5)]) /\
  22 = foldr Z.add 0 (map (fun p => fst p * snd p) [(1, 1); (2, 3); (3, 5)]).
Proof.
  apply (regression_sums (fun _ => None) None [(1, 1); (2, 3); (3, 5)] []).
  intros n. unfold small_sums, small. destruct n as [|[|[|[|n]]]]; vm_compute; repeat split.
Defined.

Lemma line_found : finish 3 (doubles (mk_is 6 9 14 35 22)) =
  map double_of_int [6; 9; 2; 3; -1; 2; 1].
Proof. by vm_compute. Qed.

(** ** The table of probabilities *)

(** The lower limits are tested in vain: it is the first upper limit above [k] that
    counts. *)
Fixpoint first_above (l : list (Z * Z * Z)) (k : spec_float) : Z :=
  match l with
  | [] => 1
  | (lo, hi, p) :: l => if SFltb k (lit3 hi) then p else first_above l k
  end.

Fixpoint linked (lo : Z) (l : list (Z * Z * Z)) : bool :=
  match l with [] => lo =? 10828 | (lo', hi, _) :: l => (lo =? lo') && negb (is_nan (lit3 hi)) && linked hi l end.

Lemma prob_linked k : is_nan k = false -> forall l first lo, linked lo l = true ->
  first = true \/ SFleb (lit3 lo) k = true -> (first = true -> l <> []) ->
  prob first l k = Some (lit3 (first_above l k)).
Proof.
  intros Hk l. induction l as [|[[lo' hi] p] l IH]; intros first lo Hl Hf Hn.
  - destruct first; [by destruct Hn|]. destruct Hf as [|Hf]; [done|]. cbn in *. apply Z.eqb_eq in Hl as ->.
    by rewrite Hf.
  - cbn [linked prob first_above] in *. apply andb_true_iff in Hl as [Hl Hr]. apply andb_true_iff in Hl as [Hl Hh].
    apply Z.eqb_eq in Hl as <-. apply negb_true_iff in Hh.
    assert (L : first || SFleb (lit3 lo) k = true) by (destruct Hf as [->| ->]; [done|by destruct first]).
    rewrite L. cbn [andb]. destruct (SFltb k (lit3 hi)) eqn:T; [done|].
    apply (IH false hi); [done| |done]. right. rewrite ltb_leb in T by done. by apply negb_false_iff in T.
Qed.

(** [Pe] is set exactly when [k] is a number, by the first limit above it. *)
Lemma prob_spec k :
  (is_nan k = false -> prob true limits k = Some (lit3 (first_above limits k))) /\
  (is_nan k = true -> prob true limits k = None).
Proof.
  split; intros Hk.
  - apply (prob_linked k Hk limits true 0); [by vm_compute|by left|done].
  - assert (C : forall x, SFleb x k = false /\ SFltb k x = false).
    { intros x. unfold SFleb, SFltb. split.
      - assert (E : SFcompare x k = None) by (apply SFcompare_nan; rewrite Hk; by destruct (is_nan x)). by rewrite E.
      - assert (E : SFcompare k x = None) by (apply SFcompare_nan; by rewrite Hk). by rewrite E. }
    assert (G : forall l first, prob first l k = None).
    { intros l. induction l as [|[[lo hi] p] l IH]; intros first; cbn [prob]; [by rewrite (proj1 (C _))|].
      rewrite (proj2 (C _)), andb_false_r. apply IH. }
    apply G.
Qed.

(** A table with an empty row gives no number, and [Pe] is whatever was there. *)
Lemma empty_row_unset junk :
  sta_independence (fun _ => None) junk (map (fun z => VNumber (double_of_int z)) [0; 0; 3; 4])
  = Return [VNumber S754_nan; VNumber junk].
Proof. by vm_compute. Qed.
