(* ===== verification/Daemon.v ===== *)
(** * Daemon: core/daemon.hpp, the packet the client sends every four seconds

    [Loopsend] starts one thread, which never ends: each turn builds a packet from
    [loopsendconf] and the client's name, password and key, and sends it to the
    parent.  [sleep] and the thread are outside. *)

From S2P Require Import Prelude.
From S2P Require Import NInt.
From S2P Require Import Hash.
From S2P Require Import Func.
From S2P Require Import Packet.
From S2P Require Import Aes.
From S2P Require Import Crypt.
From S2P Require Import YsDB.
From S2P Require Import Connection.
From S2P Require Import Socket.
From S2P Require Import Client.

(** [struct{...}loopsendconf]: a global, so that it starts with zeros. *)
Record loopconf := mk_loopconf { lc_mode : Z; lc_num : list Z; lc_str1 : list Z; lc_str2 : list Z }.

Definition loopsendconf0 : loopconf := mk_loopconf 0 [0; 0; 0; 0] (bzero 16) (bzero 16).
(** The constructor of [loopsend]. *)
Definition Loopsend_new (conf : loopconf) : loopconf := mk_loopconf _CONNECT (lc_num conf) (lc_str1 conf) (lc_str2 conf).

Section Daemon.
Context {D : Type} `{KV D}.
Context (rand_of : Z -> Z).
Implicit Types c : client D.
Implicit Types e : env D.

Definition loop_packet c (conf : loopconf) (rdn : Z) : list Z :=
  let q := bzero sizeof_netQuery in
  let q := set8 q o_mode (lc_mode conf) in
  let q := set_n32 q o_num1 (getn (lc_num conf) 0) in
  let q := set_n32 q o_num2 (getn (lc_num conf) 1) in
  let q := set_n32 q o_num3 (getn (lc_num conf) 2) in
  let q := set_n32 q o_num4 (getn (lc_num conf) 3) in
  let q := set_wristr q o_str1 (lc_str1 conf) in
  let q := set_wristr q o_str2 (lc_str2 conf) in
  let q := set_wristr q o_password (c_password c) in
  let q := set_n32 q o_userid (c_userid c) in
  set_i32 q o_unique rdn.

(** One turn of [while(1)] in [send]. *)
Definition loop_turn c (conf : loopconf) : client D * effect :=
  let '(rdn, c) := draw rand_of c in
  let '(q, s) := encode_query c query_kind (loop_packet c conf rdn) in
  let c := with_sv c (with_aes (cl_sv c) s) in
  (c, Emit (Send (parIP (cl_sv c)) (parPort (cl_sv c)) q)).

(** [n] turns. *)
Fixpoint loop_send (n : nat) c (conf : loopconf) : client D * list effect :=
  match n with
  | O => (c, [])
  | S n =>
      let '(c, x) := loop_turn c conf in
      let '(c, xs) := loop_send n c conf in (c, x :: xs)
  end.
End Daemon.

(** ** What the packet says *)

(** A packet as the stores that made it, the first one first; two fields next to
    each other do not meet. *)
Definition stores (sts : list (nat * list Z)) (p : list Z) : list Z :=
  fold_left (fun p st => store p (fst st) (snd st)) sts p.
Definition fits (n : nat) (st : nat * list Z) : Prop := (fst st + length (snd st) <= n)%nat.
Definition apart (o n : nat) (st : nat * list Z) : Prop :=
  (o + n <= fst st \/ fst st + length (snd st) <= o)%nat.

Lemma load_stores (sts : list (nat * list Z)) : forall p o n,
  Forall (fits (length p)) sts -> Forall (apart o n) sts ->
  load (stores sts p) o n = load p o n /\ length (stores sts p) = length p.
Proof.
  induction sts as [|[off bs] sts IH]; intros p o n F A; [done|].
  apply list.Forall_cons in F as [Hl F]. apply list.Forall_cons in A as [Hd A].
  unfold stores. cbn [fold_left fst snd]. fold (stores sts (store p off bs)).
  assert (L : length (store p off bs) = length p) by (by apply length_store).
  destruct (IH (store p off bs) o n) as [-> ->]; [by rewrite L|done|].
  split; [by apply load_store_other|done].
Qed.

Lemma length_stores sts : forall p, Forall (fits (length p)) sts -> length (stores sts p) = length p.
Proof.
  induction sts as [|[off bs] sts IH]; intros p F; [done|]. apply list.Forall_cons in F as [Hl F].
  assert (L : length (store p off bs) = length p) by (by apply length_store).
  unfold stores. cbn [fold_left fst snd]. fold (stores sts (store p off bs)). rewrite IH; by rewrite L.
Qed.

(** A field that no later store meets holds what was stored. *)
Lemma load_stored pre off bs post p n : n = length bs ->
  Forall (fits (length p)) (pre ++ (off, bs) :: post) -> Forall (apart off n) post ->
  load (stores (pre ++ (off, bs) :: post) p) off n = bs.
Proof.
  intros -> F A. apply Forall_app in F as [F1 F]. apply list.Forall_cons in F as [Hl F2].
  unfold stores. rewrite fold_left_app. cbn [fold_left fst snd]. fold (stores pre p).
  assert (L1 : length (stores pre p) = length p) by (by apply length_stores).
  fold (stores post (store (stores pre p) off bs)).
  assert (L : length (store (stores pre p) off bs) = length p)
    by (rewrite length_store; [done|by rewrite L1]).
  rewrite (proj1 (load_stores post _ off (length bs) ltac:(by rewrite L) A)).
  apply load_store_same. by rewrite L1.
Qed.

(** The places of the stores, on which that depends. *)
Definition shape (st : nat * list Z) : nat * nat := (fst st, length (snd st)).
Definition all_apart (o n : nat) (sh : list (nat * nat)) : bool :=
  forallb (fun '(o', n') => (o + n <=? o')%nat || (o' + n' <=? o)%nat) sh.
Definition later_apart (i : nat) (sh : list (nat * nat)) : bool :=
  match sh !! i with Some (o, n) => all_apart o n (drop (S i) sh) | None => false end.

Lemma shape_apart o n sts sh : map shape sts = sh -> all_apart o n sh = true -> Forall (apart o n) sts.
Proof.
  intros <- H. apply List.Forall_forall. intros st Hi. unfold all_apart in H. rewrite forallb_forall in H.
  specialize (H (shape st) (in_map _ _ _ Hi)). unfold shape in H. unfold apart.
  apply orb_true_iff in H. rewrite !Nat.leb_le in H. exact H.
Qed.

Lemma load_nth sts i off bs p : Forall (fits (length p)) sts -> sts !! i = Some (off, bs) ->
  later_apart i (map shape sts) = true -> load (stores sts p) off (length bs) = bs.
Proof.
  intros F Hi Ha. unfold later_apart in Ha. rewrite list_lookup_fmap, Hi in Ha. cbn [fmap option_fmap option_map] in Ha.
  rewrite <- (take_drop_middle _ _ _ Hi) in F |- *. apply load_stored; [done|done|].
  apply (shape_apart _ _ _ (drop (S i) (map shape sts))); [by rewrite <- skipn_map|exact Ha].
Qed.

Lemma length_wristr_field s p off : (off + 16 <= length p)%nat -> length (wristr s (load p off 16)) = 16%nat.
Proof.
  intros Hl. assert (L : length (load p off 16) = 16%nat) by (unfold load; rewrite length_take, length_drop; lia).
  rewrite (proj1 (proj2 (wristr_spec s (load p off 16) ltac:(lia)))). exact L.
Qed.

Section Properties.
Context {D : Type} `{KV D}.
Context (rand_of : Z -> Z).
Implicit Types c : client D.
Implicit Types e : env D.

(** The ten stores of the packet, with what [wristr] makes of the strings. *)
Definition loop_stores c (conf : loopconf) (rdn : Z) (w1 w2 w3 : list Z) : list (nat * list Z) :=
  [(o_mode, [lc_mode conf]); (o_num1, mem32 (nint32_of (getn (lc_num conf) 0)));
   (o_num2, mem32 (nint32_of (getn (lc_num conf) 1))); (o_num3, mem32 (nint32_of (getn (lc_num conf) 2)));
   (o_num4, mem32 (nint32_of (getn (lc_num conf) 3))); (o_str1, w1); (o_str2, w2); (o_password, w3);
   (o_userid, mem32 (nint32_of (c_userid c))); (o_unique, le32 rdn)].

Lemma loop_offsets :
  sizeof_netQuery = 124%nat /\ o_mode = 36%nat /\ o_num1 = 92%nat /\ o_num2 = 96%nat /\ o_num3 = 100%nat /\
  o_num4 = 104%nat /\ o_str1 = 56%nat /\ o_str2 = 72%nat /\ o_password = 20%nat /\ o_userid = 4%nat /\ o_unique = 8%nat.
Proof. by vm_compute. Qed.

Lemma loop_packet_stores c conf rdn : exists w1 w2 w3,
  (length w1 = 16 /\ length w2 = 16 /\ length w3 = 16)%nat /\
  c_str (take 16 w1) = c_str (take 16 (lc_str1 conf)) /\ c_str (take 16 w2) = c_str (take 16 (lc_str2 conf)) /\
  c_str (take 16 w3) = c_str (take 16 (c_password c)) /\
  loop_packet c conf rdn = stores (loop_stores c conf rdn w1 w2 w3) (bzero sizeof_netQuery) /\
  Forall (fits sizeof_netQuery) (loop_stores c conf rdn w1 w2 w3).
Proof.
  destruct loop_offsets as (Z0 & Z1 & Z2 & Z3 & Z4 & Z5 & Z6 & Z7 & Z8 & Z9 & Z10).
  unfold loop_packet. cbv zeta.
  set (p5 := set_n32 (set_n32 (set_n32 (set_n32 (set8 (bzero sizeof_netQuery) o_mode (lc_mode conf)) o_num1 _)
    o_num2 _) o_num3 _) o_num4 _).
  assert (L5 : length p5 = sizeof_netQuery).
  { change p5 with (stores (take 5 (loop_stores c conf rdn [] [] [])) (bzero sizeof_netQuery)).
    rewrite length_stores; unfold bzero; rewrite length_replicate; [done|]. unfold loop_stores, fits. cbn [take].
    repeat (apply list.Forall_cons; split; [cbn [fst snd length];
      try change (length (mem32 _)) with 4%nat; lia|]). constructor. }
  set (w1 := wristr (lc_str1 conf) (load p5 o_str1 16)).
  set (p6 := set_wristr p5 o_str1 (lc_str1 conf)).
  assert (W1 : length w1 = 16%nat) by (apply length_wristr_field; lia).
  assert (L6 : length p6 = sizeof_netQuery) by (unfold p6, set_wristr; fold w1; rewrite length_store; lia).
  set (w2 := wristr (lc_str2 conf) (load p6 o_str2 16)).
  set (p7 := set_wristr p6 o_str2 (lc_str2 conf)).
  assert (W2 : length w2 = 16%nat) by (apply length_wristr_field; lia).
  assert (L7 : length p7 = sizeof_netQuery) by (unfold p7, set_wristr; fold w2; rewrite length_store; lia).
  set (w3 := wristr (c_password c) (load p7 o_password 16)).
  assert (W3 : length w3 = 16%nat) by (apply length_wristr_field; lia).
  exists w1, w2, w3. split; [done|].
  split; [apply wristr_loop_take|]. split; [apply wristr_loop_take|]. split; [apply wristr_loop_take|].
  split; [reflexivity|].
  unfold loop_stores, fits. repeat (apply list.Forall_cons; split; [cbn [fst snd length]; rewrite ?W1, ?W2, ?W3;
    try change (length (mem32 _)) with 4%nat; try change (length (le32 _)) with 4%nat; lia|]). constructor.
Qed.

Lemma loop_packet_fields c conf rdn :
  let p := loop_packet c conf rdn in
  length p = sizeof_netQuery /\ load p o_mode 1 = [lc_mode conf] /\ load p o_crypt 1 = [0] /\
  load p o_userid 4 = mem32 (nint32_of (c_userid c)) /\ load p o_unique 4 = le32 rdn /\
  c_str (load p o_password 16) = c_str (take 16 (c_password c)) /\
  c_str (load p o_str1 16) = c_str (take 16 (lc_str1 conf)) /\
  c_str (load p o_str2 16) = c_str (take 16 (lc_str2 conf)).
Proof.
  destruct (loop_packet_stores c conf rdn) as (w1 & w2 & w3 & (L1 & L2 & L3) & E1 & E2 & E3 & E & F).
  cbv zeta. rewrite E. rewrite take_ge in E1, E2, E3 by lia. rewrite <- E1, <- E2, <- E3.
  assert (B : length (bzero sizeof_netQuery) = sizeof_netQuery) by apply length_replicate.
  assert (S : map shape (loop_stores c conf rdn w1 w2 w3) =
    [(36, 1); (92, 4); (96, 4); (100, 4); (104, 4); (56, 16); (72, 16); (20, 16); (4, 4); (8, 4)]%nat).
  { unfold loop_stores, shape. cbn [map fst snd]. rewrite L1, L2, L3. reflexivity. }
  assert (G : forall i off bs, loop_stores c conf rdn w1 w2 w3 !! i = Some (off, bs) ->
    later_apart i (map shape (loop_stores c conf rdn w1 w2 w3)) = true ->
    load (stores (loop_stores c conf rdn w1 w2 w3) (bzero sizeof_netQuery)) off (length bs) = bs).
  { intros i off bs Hi Ha. apply (load_nth _ i); [by rewrite B|done..]. }
  rewrite S in G. split; [rewrite length_stores; by rewrite B|].
  split; [exact (G 0%nat _ _ eq_refl eq_refl)|]. split.
  { rewrite (proj1 (load_stores _ _ o_crypt 1 ltac:(by rewrite B)
      (shape_apart o_crypt 1 _ _ S eq_refl))). by vm_compute. }
  split; [exact (G 8%nat _ _ eq_refl eq_refl)|]. split; [exact (G 9%nat _ _ eq_refl eq_refl)|].
  pose proof (G 7%nat _ _ eq_refl eq_refl) as G3. pose proof (G 5%nat _ _ eq_refl eq_refl) as G1.
  pose proof (G 6%nat _ _ eq_refl eq_refl) as G2. rewrite L1 in G1. rewrite L2 in G2. rewrite L3 in G3.
  by rewrite G1, G2, G3.
Qed.

(** The server's side. *)
Lemma connect_only_logs e sv from port p :
  get8 p o_mode = _CONNECT -> get8 p o_crypt = 0 -> get_i32 p o_unique <> 0 ->
  let '(auth, sv', evs) := authenticate e (with_num sv (s32 (num sv + 1))) (mk_request from port p false (j_key e) []) in
  run e sv from port p = (Ret false, sv', evs) /\
  Forall (fun ev => ev = fail sv' from port (get_i32 p o_unique)) evs /\
  (auth <> None -> evs = [] /\ uniqueExist (sv_db sv') (get_n32 p o_userid) (get_i32 p o_unique) = true).
Proof.
  intros Gm Gc Gu. set (q := mk_request from port p false (j_key e) []).
  assert (Q : q_mode q = _CONNECT) by exact Gm.
  assert (R : run e sv from port p =
    let '(auth, sv', evs) := authenticate e (with_num sv (s32 (num sv + 1))) q in
    match auth with
    | None => (Ret false, sv', evs)
    | Some q' => let '(o, sv'', evs') := dispatch e sv' q' in (o, sv'', evs ++ evs')
    end).
  { unfold run, decrypt_request. rewrite Gc. change (0 =? c_t) with false. cbv iota beta zeta. fold q. rewrite Q.
    change (_CONNECT =? _GET_PUBLIC_KEY) with false. change (_CONNECT =? _REGISTER) with false.
    change (_CONNECT =? _GETSERVERINFO) with false. cbv iota.
    assert (PR : parent_request e (with_num sv (s32 (num sv + 1))) q = (None, with_num sv (s32 (num sv + 1)), [])).
    { unfold parent_request. rewrite Q. change (_CONNECT =? _P2PCONNECT) with false.
      change (_CONNECT =? _P2PCONNECT_C) with false. change (_CONNECT =? _GOLAST) with false. by destruct (_ && _). }
    rewrite PR. by destruct (authenticate _ _ q) as [[[q'|] ?] ?]. }
  rewrite R. pose proof (authenticate_spec e (with_num sv (s32 (num sv + 1))) q) as A.
  destruct (authenticate e _ q) as [[[q'|] sv'] evs]; destruct A as (_ & Fv & A); [|done].
  destruct A as (-> & _ & Eq & A).
  assert (Q' : q_mode q' = _CONNECT) by (rewrite Eq; exact Gm).
  assert (DP : dispatch e sv' q' = (Ret false, sv', [])) by (unfold dispatch; by rewrite Q').
  rewrite DP. split; [done|]. split; [done|]. intros _. split; [done|]. by apply A.
Qed.

(** The values [randnum] draws from a state on. *)
Fixpoint numbers (n : nat) (st : Z) : list Z :=
  match n with
  | O => []
  | S n => let '(rdn, st) := randnum rand_of st in rdn :: numbers n st
  end.

(** A packet the loop sends, and what a server of this program makes of it. *)
Definition login_packet c (p : list Z) (rdn : Z) : Prop :=
  length p = sizeof_netQuery /\ get8 p o_mode = _CONNECT /\ get_n32 p o_userid = c_userid c /\
  get_i32 p o_unique = rdn /\ c_str (load p o_password 16) = c_str (take 16 (c_password c)) /\
  forall e sv from port,
    let '(auth, sv', evs) := authenticate e (with_num sv (s32 (num sv + 1))) (mk_request from port p false (j_key e) []) in
    run e sv from port p = (Ret false, sv', evs) /\
    Forall (fun ev => ev = fail sv' from port rdn) evs /\
    (auth <> None -> evs = [] /\ uniqueExist (sv_db sv') (c_userid c) rdn = true).

(** What a turn leaves as it was. *)
Definition same_client c c' : Prop :=
  iscrypt c' = iscrypt c /\ parIP (cl_sv c') = parIP (cl_sv c) /\ parPort (cl_sv c') = parPort (cl_sv c) /\
  c_userid c' = c_userid c /\ c_password c' = c_password c.

Lemma loop_turn_ok c conf : iscrypt c = false -> - 2 ^ 31 <= c_userid c < 2 ^ 31 ->
  (forall s, 0 <= rand_of s <= 2 ^ 31 - 1) -> lc_mode conf = _CONNECT ->
  let '(c', sent) := loop_turn rand_of c conf in
  let '(rdn, st) := randnum rand_of (seed c) in
  same_client c c' /\ seed c' = st /\ rdn <> 0 /\ exists p, sent = to_parent c p /\ login_packet c p rdn.
Proof.
  intros Hc Hu Hr Hm. pose proof (randnum_nonzero rand_of (seed c) Hr) as Rn. unfold loop_turn, draw.
  destruct (randnum rand_of (seed c)) as [rdn st]. cbn [fst] in Rn. set (c1 := with_seed c st).
  unfold encode_query. change (iscrypt c1) with (iscrypt c). rewrite Hc.
  destruct (loop_packet_fields c1 conf rdn) as (L & Em & Ec & Eu & En & Ep & _).
  set (p := loop_packet c1 conf rdn) in *.
  assert (Hlen : (56 <= length p)%nat) by (rewrite L; apply Nat.leb_le; reflexivity).
  destruct loop_offsets as (_ & M & _ & _ & _ & _ & _ & _ & P & U & N).
  assert (G8 : get8 p o_mode = _CONNECT).
  { rewrite get8_load in Em by lia. transitivity (lc_mode conf); [exact (f_equal (hd 0) Em)|exact Hm]. }
  assert (Gc : get8 p o_crypt = 0).
  { rewrite get8_load in Ec by (change o_crypt with 0%nat; lia). exact (f_equal (hd 0) Ec). }
  assert (Gn : get_i32 p o_unique = rdn).
  { unfold get_i32. rewrite En, of_le32_le, s32_u32, s32_id; lia. }
  assert (Gu : get_n32 p o_userid = c_userid c).
  { unfold get_n32. rewrite Eu, nint32_at_mem by apply s32_range. rewrite nint32_val_of. change (c_userid c1) with (c_userid c).
    rewrite s32_id; lia. }
  clearbody p. split; [done|]. split; [done|]. split; [lia|]. exists p. split; [done|]. unfold login_packet.
  do 4 (split; [done|]). split; [exact Ep|].
  intros e sv from port. rewrite <- Gu, <- Gn. apply connect_only_logs; [done|done|lia].
Qed.

Lemma login_packet_same c c' p rdn : same_client c c' -> login_packet c' p rdn -> login_packet c p rdn.
Proof. intros (_ & _ & _ & E1 & E2). unfold login_packet. by rewrite E1, E2. Qed.

(** C39.  What the client sends every four seconds, while encryption is off: each of the
    first [n] turns sends its parent one packet with the mode of [loopsendconf], the
    client's id and password, and a number, which are the next [n] values of [randnum] in
    order, none of them 0.  To a server of this program a [_CONNECT] packet, from
    wherever it comes, is a login and nothing else: the number is logged, a wrong
    password is answered with [_FAIL], and no other event follows. *)
Theorem heartbeat n : forall c conf, iscrypt c = false -> - 2 ^ 31 <= c_userid c < 2 ^ 31 ->
  (forall s, 0 <= rand_of s <= 2 ^ 31 - 1) -> lc_mode conf = _CONNECT ->
  Forall2 (fun sent rdn => rdn <> 0 /\ exists p, sent = to_parent c p /\ login_packet c p rdn)
    (snd (loop_send rand_of n c conf)) (numbers n (seed c)).
Proof.
  induction n as [|n IH]; intros c conf Hc Hu Hr Hm; [constructor|]. cbn [loop_send numbers].
  pose proof (loop_turn_ok c conf Hc Hu Hr Hm) as T. destruct (loop_turn rand_of c conf) as [c1 x].
  destruct (randnum rand_of (seed c)) as [rdn st]. destruct T as (S & Es & Nz & p & -> & Lp).
  pose proof S as (S1 & S2 & S3 & S4 & S5). specialize (IH c1 conf ltac:(by rewrite S1) ltac:(by rewrite S4) Hr Hm).
  destruct (loop_send rand_of n c1 conf) as [c2 xs]. cbn [snd] in *. rewrite Es in IH.
  constructor; [split; [done|by exists p]|]. eapply Forall2_impl; [|exact IH]. cbv beta.
  intros y r (Nr & p' & -> & Lp'). split; [done|]. exists p'. split; [unfold to_parent; by rewrite S2, S3|].
  by apply (login_packet_same _ c1).
Qed.
End Properties.

(** Two turns of a client whose random numbers count up. *)
Definition counting (s : Z) : Z := s mod 2 ^ 31.
Lemma counting_ok s : 0 <= counting s <= 2 ^ 31 - 1.
Proof. unfold counting. pose proof (Z.mod_pos_bound s (2 ^ 31) ltac:(lia)). lia. Qed.

Lemma heartbeat_witness :
  numbers counting 2 (seed (w_client false)) = [seed (w_client false) + 1; seed (w_client false) + 2] /\
  Forall2 (fun sent rdn => rdn <> 0 /\ exists p, sent = to_parent (w_client false) p /\ login_packet (w_client false) p rdn)
    (snd (loop_send counting 2 (w_client false) (Loopsend_new loopsendconf0))) (numbers counting 2 (seed (w_client false))).
Proof.
  split; [vm_compute; reflexivity|]. apply (heartbeat counting 2 (w_client false) (Loopsend_new loopsendconf0));
    [reflexivity|vm_compute; split; [discriminate|reflexivity]|exact counting_ok|reflexivity].
Defined.
