(* ===== verification/Plus.v ===== *)
(** * Plus: the scripts a server runs for _PLUS requests (core/ysconnection.hpp)

    [plus] takes a Lua state from the pool, gives it the request as global variables
    and the functions of [funcreg], runs the script, and takes the answer out of its
    globals.  A script that ends is a tree of calls; what it computes between two calls
    is its own.  The states of the pool have Lua's libraries and the whole API of
    main.cpp too (part of it is in LuaApi.v): a call of any of that is [Foreign], and
    may do anything.  A state goes back to the pool with its globals, which the next
    script finds.  The process may die in a call: [None]. *)

From stdpp Require Import gmap relations.
From S2P Require Import Prelude.
From S2P Require Import NInt.
From S2P Require Import Client.
From S2P Require Import Hash.
From S2P Require Import Func.
From S2P Require Import Text.
From S2P Require Import Packet.
From S2P Require Import YsDB.
From S2P Require Import Crypt.
From S2P Require Import Connection.
From S2P Require Import LuaApi.

#[local] Open Scope Z_scope.

(** The objects scripts have pointers to. *)
Inductive object := TheServer | TheClient.
Inductive pvalue := PV (v : lua_value) | PPtr (o : object) | PUserdata.

Definition parg (args : list pvalue) (i : nat) : pvalue := nth (i - 1) args (PV LNil).
Definition isstring (p : pvalue) : bool := match p with PV v => lua_isstring v | _ => false end.
Definition isinteger (p : pvalue) : bool := match p with PV v => lua_isinteger v | _ => false end.
Definition isptr (p : pvalue) : bool := match p with PV _ => false | _ => true end.
Definition tostring (p : pvalue) : list Z := match p with PV v => lua_tostring v | _ => [] end.
Definition tointeger (p : pvalue) : Z := match p with PV v => lua_tointeger v | _ => 0 end.
Definition pint (z : Z) : pvalue := PV (LInt z).
Definition pstr (s : list Z) : pvalue := PV (LStr s).
Definition pbool (b : bool) : pvalue := PV (LBool b).

(** What lies outside: the memory of the process, [inet_addr], the network, the clock,
    uninitialised locals; [objects]: the object at an address. *)
Record world (D : Type) := mk_world {
  memory : Z -> option Z;
  inet_addr : list Z -> Z;
  p2pconnect : Z -> Z -> bool;
  sendto : Z -> Z -> list Z -> bool;
  received : option (Z * Z * list Z);
  nowtime : list Z;
  objects : Z -> option object;
  j_bufs : list Z;
  j_out : list Z
}.
Arguments memory {D}.
Arguments inet_addr {D}.
Arguments p2pconnect {D}.
Arguments sendto {D}.
Arguments received {D}.
Arguments nowtime {D}.
Arguments objects {D}.
Arguments j_bufs {D}.
Arguments j_out {D}.

Section Plus.
Context {D : Type} `{KV D}.
Context (w : world D).
Implicit Types db : ysdb D.

(** [inttoip]: the address itself is dereferenced. *)
Definition inttoip (ip_num : Z) : option (list Z) :=
  let inm := s32 ip_num in
  match memory w inm, memory w (inm + 1), memory w (inm + 2), memory w (inm + 3) with
  | Some s1, Some s2, Some s3, Some s4 =>
      Some (sprintf_d s1 ++ [46] ++ sprintf_d s2 ++ [46] ++ sprintf_d s3 ++ [46] ++ sprintf_d s4)
  | _, _, _, _ => None
  end.

(** ** funcreg *)

Inductive pfun :=
| F_succeed | F_fail | F_connect | F_send | F_recv | F_trylogin | F_changePwd | F_changeAcl
| F_readSrc | F_writeSrc | F_delSrc.

Definition called : Type := option (list pvalue * ysdb D * list event).
Definition back (vals : list pvalue) db : called := Some (vals, db, []).

(** [succeed], [fail], [connect] and [send]: an address, a port, a pointer. *)
Definition with_address (args : list pvalue) (body : object -> server D) db (k : Z -> Z -> server D -> called) : called :=
  if negb (isstring (parg args 1)) then back [] db
  else
    let ip := inet_addr w (tostring (parg args 1)) in
    if negb (isinteger (parg args 2)) then back [] db
    else
      let port := s16 (tointeger (parg args 2)) in
      match parg args 3 with
      | PV _ => back [] db
      | PUserdata => None
      | PPtr self => k ip port (body self)
      end.

Definition opt_field (b : bool) (f : list Z -> list Z) (q : list Z) : list Z := if b then f q else q.
Definition plus_query (self : server D) (args : list pvalue) : list Z :=
  let q := bzero sizeof_netQuery in
  let q := set8 q o_mode _PLUS in
  let q := set_n32 q o_userid (myuserid self) in
  let q := set_wristr q o_password (mypassword self) in
  let q := opt_field (isstring (parg args 4)) (fun q => set_wristr q o_str1 (tostring (parg args 4))) q in
  let q := opt_field (isstring (parg args 5)) (fun q => set_wristr q o_str2 (tostring (parg args 5))) q in
  let num i off q := opt_field (isinteger (parg args i)) (fun q => set_n32 q off (tointeger (parg args i))) q in
  num 9%nat o_num4 (num 8%nat o_num3 (num 7%nat o_num2 (num 6%nat o_num1 q))).

(** [recv] takes its object as a number; [bufs] is filled three times. *)
Definition recv_values (from port : Z) (buf : list Z) : option (list pvalue) :=
  match inttoip from with
  | None => None
  | Some ip =>
      let bufs := take 16 (j_bufs w) ++ [0] in
      let pwd := wristr (load buf o_password 16) bufs in
      let s1 := wristr (load buf o_str1 16) pwd in
      let s2 := wristr (load buf o_str2 16) s1 in
      Some [pstr ip; pint port; pint (get_n32 buf o_userid); pstr (c_str pwd); pstr (c_str s1); pstr (c_str s2);
            pint (get_n32 buf o_num1); pint (get_n32 buf o_num2); pint (get_n32 buf o_num3); pint (get_n32 buf o_num4)]
  end.
Definition do_recv (args : list pvalue) db : called :=
  if negb (isinteger (parg args 1)) then back [] db
  else
    match objects w (tointeger (parg args 1)) with
    | None => None
    | Some _ =>
        match received w with
        | Some (from, port, data) =>
            let data := take sizeof_netQuery data in
            match recv_values from port (data ++ drop (length data) (bzero sizeof_netQuery)) with
            | None => None
            | Some vals => back vals db
            end
        | None => back [pbool false] db
        end
    end.

Definition do_readSrc (args : list pvalue) db : called :=
  if negb (isstring (parg args 1)) then back [] db
  else
    let name := tostring (parg args 1) in
    let result :=
      if isinteger (parg args 2) then snd (readSrc_user db name (s32 (tointeger (parg args 2))) [] (j_out w))
      else snd (readSrc db name []) in
    back [pstr (c_str result)] db.

Definition do_writeSrc (args : list pvalue) db : called :=
  if negb (isstring (parg args 1)) then back [] db
  else if negb (isstring (parg args 2)) then back [] db
  else
    let name := tostring (parg args 1) in
    let '(ok, db) :=
      if isinteger (parg args 3) then
        writeSrc_user db name (s32 (tointeger (parg args 3))) (tostring (parg args 2)) (j_out w)
      else writeSrc db name (tostring (parg args 2)) in
    back [pbool ok] db.

Definition do_delSrc (args : list pvalue) db : called :=
  if negb (isstring (parg args 1)) then back [] db
  else
    let name := tostring (parg args 1) in
    let '(m, db) :=
      if isinteger (parg args 2) then delSrc_user db name (s32 (tointeger (parg args 2))) (j_out w)
      else delSrc db name in
    back [pbool m] db.

(** [trylogin], [changePwd], [changeAcl]: a user and a text. *)
Definition with_user (args : list pvalue) db (k : Z -> list Z -> bool * ysdb D) : called :=
  if negb (isinteger (parg args 1)) then back [] db
  else if negb (isstring (parg args 2)) then back [] db
  else
    let '(ok, db) := k (s32 (tointeger (parg args 1))) (tostring (parg args 2)) in
    back [pbool ok] db.

(** [body]: the members of the objects. *)
Definition call (f : pfun) (args : list pvalue) (body : object -> server D) db : called :=
  match f with
  | F_succeed => with_address args body db (fun ip port self => Some ([], db, [succeed self ip port 0]))
  | F_fail => with_address args body db (fun ip port self => Some ([], db, [fail self ip port 0]))
  | F_connect => with_address args body db (fun ip port _ => Some ([pbool (p2pconnect w ip port)], db, [P2P ip port]))
  | F_send => with_address args body db (fun ip port self =>
      let q := plus_query self args in Some ([pbool (sendto w ip port q)], db, [Send ip port q]))
  | F_recv => do_recv args db
  | F_trylogin => with_user args db (fun uid pwd =>
      let '(ok, _, db) := login db (nowtime w) uid pwd [] in (ok, db))
  | F_changePwd => with_user args db (changePwd db)
  | F_changeAcl => with_user args db (changeAcl db)
  | F_readSrc => do_readSrc args db
  | F_writeSrc => do_writeSrc args db
  | F_delSrc => do_delSrc args db
  end.

(** ** Scripts *)

Definition globals : Type := list Z -> pvalue.

(** [Done]: the script has ended, by itself or by an error; its globals.  [Foreign]: a
    function of the state that is not one of [funcreg]. *)
Inductive script :=
| Done (g : globals)
| Call (f : pfun) (args : list pvalue) (k : list pvalue -> script)
| Foreign (act : (object -> server D) -> ysdb D ->
                 option (list pvalue * (object -> server D) * ysdb D * list event))
    (k : list pvalue -> script).

Fixpoint run_script (s : script) (body : object -> server D) db
    : option (globals * (object -> server D) * ysdb D * list event) :=
  match s with
  | Done g => Some (g, body, db, [])
  | Call f args k =>
      match call f args body db with
      | None => None
      | Some (vals, db, evs) =>
          match run_script (k vals) body db with
          | None => None
          | Some (g, body, db, evs') => Some (g, body, db, evs ++ evs')
          end
      end
  | Foreign act k =>
      match act body db with
      | None => None
      | Some (vals, body, db, evs) =>
          match run_script (k vals) body db with
          | None => None
          | Some (g, body, db, evs') => Some (g, body, db, evs ++ evs')
          end
      end
  end.

(** ** plus *)

(** [lua_setglobal] *)
Definition setglobal (name : list Z) (v : pvalue) (g : globals) : globals :=
  fun n => if decide (n = name) then v else g n.

(** [for(i=0;(i<16 && ostr[i]!=0);i++) result->str1[i]=ostr[i];] *)
Definition copy_text (ostr : list Z) (off : nat) (result : list Z) : list Z :=
  let s := c_str (take 16 ostr) in copy_bytes (length s) result off s.

Definition take_num (g : globals) (name : list Z) (off : nat) (result : list Z) : list Z :=
  if isinteger (g name) then set_n32 result off (tointeger (g name)) else result.
Definition take_str (g : globals) (name : list Z) (off : nat) (result : list Z) : list Z :=
  if isstring (g name) then copy_text (tostring (g name)) off result else result.
Definition plus_result (g : globals) (result : list Z) : list Z :=
  let result := take_num g (lit "NUM1") o_num1 result in
  let result := take_num g (lit "NUM2") o_num2 result in
  let result := take_num g (lit "NUM3") o_num3 result in
  let result := take_num g (lit "NUM4") o_num4 result in
  let result := take_str g (lit "STR1") o_str1 result in
  take_str g (lit "STR2") o_str2 result.

(** The globals a script starts with, on top of those the state had. *)
Definition plus_start (old : globals) (self : object) (ipbuf : list Z) (fport : Z) (data u : list Z) : globals :=
  let buffer := take 16 (j_bufs w) ++ [0] in
  let g := setglobal (lit "FROM") (pstr ipbuf) old in
  let g := setglobal (lit "FROM_PORT") (pint fport) g in
  let g := setglobal (lit "RUNNINGSERVER") (PPtr self) g in
  let g := setglobal (lit "USERID") (pint (get_n32 data o_userid)) g in
  let buffer := setn (wristr (load data o_function 16) buffer) 16 0 in
  let g := setglobal (lit "FUNCTION_NAME") (pstr (c_str buffer)) g in
  setglobal (lit "USERINFO") (pstr (c_str u)) g.

(** [main]: the file [script] as a function of the globals it starts with. *)
Definition plus (main : globals -> script) (old : globals) (self : object) (from fport : Z)
    (data u result : list Z) (body : object -> server D) db
    : option ((object -> server D) * ysdb D * list Z * list event) :=
  match inttoip from with
  | None => None
  | Some ipbuf =>
      match run_script (main (plus_start old self ipbuf fport data u)) body db with
      | None => None
      | Some (g, body, db, evs) => Some (body, db, plus_result g result, evs)
      end
  end.
End Plus.

Section Properties.
Context {D : Type} `{KV D}.
Context (w : world D).
Implicit Types db : ysdb D.

(** ** What a script can do *)

(** A send goes to an address the script gave; [p2pconnect] sends its own packets. *)
Definition is_send (ev : event) : Prop := match ev with Send _ _ _ | P2P _ _ => True | _ => False end.

Definition within db (r : option (list pvalue * ysdb D * list event)) : Prop :=
  match r with Some (_, db', evs) => rtc ysdb_op db db' /\ Forall is_send evs | None => True end.

Lemma within_back vals db db' : db = db' \/ ysdb_op db db' -> within db (back vals db').
Proof. intros [->|S]; (split; [|constructor]); [apply rtc_refl|by apply rtc_once]. Qed.

Lemma with_address_within args body db k :
  (forall ip port self, within db (k ip port self)) -> within db (with_address w args body db k).
Proof.
  intros Hk. unfold with_address. destruct (isstring _); [|by apply within_back; left].
  destruct (isinteger _); [|by apply within_back; left].
  destruct (parg args 3) as [v|o|]; [by apply within_back; left|apply Hk|done].
Qed.

Lemma with_user_within args db k : (forall uid pwd, snd (k uid pwd) = db \/ ysdb_op db (snd (k uid pwd))) ->
  within db (with_user args db k).
Proof.
  intros Hk. unfold with_user. destruct (isinteger _); [|by apply within_back; left].
  destruct (isstring _); [|by apply within_back; left]. specialize (Hk (s32 (tointeger (parg args 1))) (tostring (parg args 2))).
  destruct (k _ _) as [ok db']. apply within_back. destruct Hk as [<-|S]; [by left|by right].
Qed.

Lemma call_within f args body db : within db (call w f args body db).
Proof.
  destruct f; cbn [call].
  - apply with_address_within. intros. split; [apply rtc_refl|by repeat constructor].
  - apply with_address_within. intros. split; [apply rtc_refl|by repeat constructor].
  - apply with_address_within. intros. split; [apply rtc_refl|by repeat constructor].
  - apply with_address_within. intros. split; [apply rtc_refl|by repeat constructor].
  - unfold do_recv. destruct (isinteger _); [|by apply within_back; left].
    destruct (objects w _); [|done]. destruct (received w) as [[[from port] data]|]; [|by apply within_back; left].
    cbv zeta. destruct (recv_values _ _ _ _); [by apply within_back; left|done].
  - apply with_user_within. intros uid pwd. right.
    pose proof (step_login db (nowtime w) uid pwd []) as S. by destruct (login _ _ _ _ _) as [[ok v] db'].
  - apply with_user_within. intros. right. apply step_changePwd.
  - apply with_user_within. intros. right. apply step_changeAcl.
  - unfold do_readSrc. destruct (isstring _); by apply within_back; left.
  - unfold do_writeSrc. destruct (isstring (parg args 1)); [|by apply within_back; left].
    destruct (isstring (parg args 2)); [|by apply within_back; left]. cbv zeta. cbn [negb]. destruct (isinteger _).
    + pose proof (step_writeSrc_user db (tostring (parg args 1)) (s32 (tointeger (parg args 3)))
        (tostring (parg args 2)) (j_out w)) as S.
      destruct (writeSrc_user _ _ _ _ _) as [ok db']. apply within_back. by right.
    + pose proof (step_writeSrc db (tostring (parg args 1)) (tostring (parg args 2))) as S.
      destruct (writeSrc _ _ _) as [ok db']. apply within_back. by right.
  - unfold do_delSrc. destruct (isstring (parg args 1)); [|by apply within_back; left]. cbv zeta. cbn [negb].
    destruct (isinteger _).
    + pose proof (step_delSrc_user db (tostring (parg args 1)) (s32 (tointeger (parg args 2))) (j_out w)) as S.
      destruct (delSrc_user _ _ _ _) as [ok db']. apply within_back. by right.
    + pose proof (step_delSrc db (tostring (parg args 1))) as S.
      destruct (delSrc _ _) as [ok db']. apply within_back. by right.
Qed.

(** A script that calls the functions of [funcreg] only, whatever they answer. *)
Fixpoint funcreg_only (s : @script D) : Prop :=
  match s with
  | Done _ => True
  | Call _ _ k => forall vals, funcreg_only (k vals)
  | Foreign _ _ => False
  end.

Lemma script_within s : funcreg_only s -> forall body db g body' db' evs,
  run_script w s body db = Some (g, body', db', evs) ->
  rtc ysdb_op db db' /\ Forall is_send evs /\ body' = body.
Proof.
  induction s as [g0|f args k IH|act k IH]; intros Fs body db g body' db' evs E; cbn [run_script] in E; [| |done].
  - injection E as -> -> -> <-. split; [apply rtc_refl|]. split; [constructor|done].
  - pose proof (call_within f args body db) as C.
    destruct (call w f args body db) as [[[vals db1] evs1]|]; [|done].
    destruct (run_script w (k vals) body db1) as [[[[g2 body2] db2] evs2]|] eqn:R; [|done]. injection E as -> -> -> <-.
    destruct C as [C1 C2]. destruct (IH _ (Fs vals) _ _ _ _ _ _ R) as (R1 & R2 & R3).
    split; [by transitivity db1|]. split; [by apply Forall_app|done].
Qed.

(** ** The answer *)

Definition outside_fields (k : nat) : Prop := (k < 56 \/ 88 <= k < 92 \/ 108 <= k)%nat.

(** An update of a field [off], [n] keeps the rest. *)
Definition keeps (off n : nat) (p p' : list Z) : Prop :=
  length p' = length p /\ forall k, (k < off \/ off + n <= k)%nat -> getn p' k = getn p k.

Lemma keeps_n32 p off v : (off + 4 <= length p)%nat -> keeps off 4 p (set_n32 p off v).
Proof.
  intros Hl. split; [by apply length_set_n32|]. intros k Hk.
  destruct (Nat.lt_ge_cases k (length p)) as [Hk'|Hk'].
  - by apply (get8_store_other p off (mem32 (nint32_of v)) k).
  - unfold getn. rewrite !nth_overflow; [done|done|by rewrite length_set_n32].
Qed.

Lemma keeps_take_num g name p off : (off + 4 <= length p)%nat -> keeps off 4 p (take_num g name off p).
Proof. intros. unfold take_num. destruct (isinteger _); [by apply keeps_n32|done]. Qed.

Lemma keeps_take_str g name p off : (off + 16 <= length p)%nat -> keeps off 16 p (take_str g name off p).
Proof.
  intros Hl. unfold take_str. destruct (isstring _); [|done]. unfold copy_text. cbv zeta.
  set (s := c_str (take 16 (tostring (g name)))).
  assert (Ls : (length s <= 16)%nat).
  { unfold s. etransitivity; [apply c_str_length|]. rewrite length_take. lia. }
  destruct (copy_bytes_spec (length s) s p off ltac:(lia)) as (L & O & _).
  split; [done|]. intros k Hk. apply O. lia.
Qed.

Lemma load_keeps off n p p' o m : keeps off n p p' -> (o + m <= off \/ off + n <= o)%nat ->
  (o + m <= length p)%nat -> load p' o m = load p o m.
Proof.
  intros [L K] Ho Hl. unfold load. apply list_eq. intros i.
  destruct (Nat.lt_ge_cases i m) as [Hi|Hi]; [|by rewrite !lookup_take_ge].
  rewrite !lookup_take_lt, !lookup_drop by done. specialize (K (o + i)%nat ltac:(lia)).
  unfold getn in K. rewrite !nth_lookup in K.
  destruct (lookup_lt_is_Some_2 p (o + i)) as [x Ex]; [lia|].
  destruct (lookup_lt_is_Some_2 p' (o + i)) as [y Ey]; [lia|]. rewrite Ex, Ey in *. cbn in K. by subst.
Qed.

Lemma get_n32_keeps off n p p' o : keeps off n p p' -> (o + 4 <= off \/ off + n <= o)%nat ->
  (o + 4 <= length p)%nat -> get_n32 p' o = get_n32 p o.
Proof. intros. unfold get_n32. by rewrite (load_keeps off n p p' o 4). Qed.

Lemma keeps_trans off n off' n' p p' p'' k : keeps off n p p' -> keeps off' n' p' p'' ->
  (k < off \/ off + n <= k)%nat -> (k < off' \/ off' + n' <= k)%nat -> getn p'' k = getn p k.
Proof. intros [_ K] [_ K'] Hk Hk'. rewrite K' by done. by apply K. Qed.

(** What the script left in one of its numbers. *)
Definition number_of (g : globals) (name : list Z) : Z :=
  if isinteger (g name) then s32 (tointeger (g name)) else 0.

Lemma take_num_value g name p off : (off + 4 <= length p)%nat -> get_n32 p off = 0 ->
  get_n32 (take_num g name off p) off = number_of g name.
Proof.
  intros Hl Hz. unfold take_num, number_of. destruct (isinteger _); [|done].
  unfold get_n32, set_n32. pose proof (load_store_same p off (mem32 (nint32_of (tointeger (g name))))) as E.
  change (length (mem32 _)) with 4%nat in E. rewrite E by done.
  rewrite nint32_at_mem by apply s32_range. apply nint32_val_of.
Qed.

(** Strings are cut at their end and at sixteen bytes. *)
Definition string_of (g : globals) (name : list Z) : list Z :=
  if isstring (g name) then c_str (take 16 (tostring (g name))) else [].

Lemma c_str_padded l n : c_str (c_str l ++ replicate n 0) = c_str l.
Proof.
  induction l as [|x l IH]; [by destruct n|]. cbn [c_str]. destruct (Z.eqb_spec x 0) as [->|Hx]; [by destruct n|].
  cbn [app c_str]. destruct (Z.eqb_spec x 0); [done|]. by rewrite IH.
Qed.

Lemma take_str_value g name p off : (off + 16 <= length p)%nat -> load p off 16 = replicate 16 0 ->
  c_str (load (take_str g name off p) off 16) = string_of g name.
Proof.
  intros Hl Hz. unfold take_str, string_of. destruct (isstring _); [|by rewrite Hz].
  unfold copy_text. cbv zeta. set (s := c_str (take 16 (tostring (g name)))).
  assert (Ls : (length s <= 16)%nat).
  { unfold s. etransitivity; [apply c_str_length|]. rewrite length_take. lia. }
  destruct (copy_bytes_spec (length s) s p off ltac:(lia)) as (L & O & I).
  assert (E : load (copy_bytes (length s) p off s) off 16 = s ++ replicate (16 - length s) 0).
  { apply (nth_ext _ _ 0 0).
    - unfold load. rewrite length_take, length_drop, L, length_app, length_replicate. lia.
    - intros i Hi. unfold load in Hi. rewrite length_take, length_drop, L in Hi.
      assert (N : forall q : list Z, nth i (load q off 16) 0 = getn q (off + i)).
      { intros q. unfold load, getn. rewrite !nth_lookup, lookup_take_lt, lookup_drop by lia. done. }
      rewrite N. destruct (Nat.lt_ge_cases i (length s)).
      + rewrite I by done. by rewrite app_nth1.
      + rewrite O by lia. rewrite app_nth2 by lia. rewrite <- N, Hz.
        rewrite !nth_lookup. rewrite !lookup_replicate_2 by lia. done. }
  rewrite E. unfold s. apply c_str_padded.
Qed.

Lemma plus_offsets : sizeof_netQuery = 124%nat /\ o_str1 = 56%nat /\ o_str2 = 72%nat /\
  o_num1 = 92%nat /\ o_num2 = 96%nat /\ o_num3 = 100%nat /\ o_num4 = 104%nat.
Proof. by vm_compute. Qed.

(** The answer holds the script's four numbers and two strings and is zero elsewhere. *)
Lemma plus_result_spec g : let res := plus_result g (bzero sizeof_netQuery) in
  length res = sizeof_netQuery /\ (forall k, outside_fields k -> getn res k = 0) /\
  get_n32 res o_num1 = number_of g (lit "NUM1") /\ get_n32 res o_num2 = number_of g (lit "NUM2") /\
  get_n32 res o_num3 = number_of g (lit "NUM3") /\ get_n32 res o_num4 = number_of g (lit "NUM4") /\
  c_str (load res o_str1 16) = string_of g (lit "STR1") /\ c_str (load res o_str2 16) = string_of g (lit "STR2").
Proof.
  destruct plus_offsets as (Z0 & S1 & S2 & N1 & N2 & N3 & N4). unfold plus_result. cbv zeta.
  rewrite S1, S2, N1, N2, N3, N4. set (p0 := bzero sizeof_netQuery).
  assert (L0 : length p0 = 124%nat) by (unfold p0, bzero; by rewrite length_replicate).
  assert (G0 : forall k, getn p0 k = 0).
  { intros k. unfold p0, bzero. destruct (Nat.lt_ge_cases k sizeof_netQuery); [by apply getn_replicate|].
    unfold getn. apply nth_overflow. by rewrite length_replicate. }
  assert (V0 : forall o, (92 <= o <= 104)%nat -> get_n32 p0 o = 0).
  { intros o Ho. unfold get_n32, load, p0, bzero. rewrite drop_replicate, take_replicate, Nat.min_l by lia. reflexivity. }
  set (p1 := take_num g (lit "NUM1") 92 p0). assert (K1 : keeps 92 4 p0 p1) by (apply keeps_take_num; lia).
  assert (L1 : length p1 = 124%nat) by (rewrite (proj1 K1); done).
  set (p2 := take_num g (lit "NUM2") 96 p1). assert (K2 : keeps 96 4 p1 p2) by (apply keeps_take_num; lia).
  assert (L2 : length p2 = 124%nat) by (rewrite (proj1 K2); done).
  set (p3 := take_num g (lit "NUM3") 100 p2). assert (K3 : keeps 100 4 p2 p3) by (apply keeps_take_num; lia).
  assert (L3 : length p3 = 124%nat) by (rewrite (proj1 K3); done).
  set (p4 := take_num g (lit "NUM4") 104 p3). assert (K4 : keeps 104 4 p3 p4) by (apply keeps_take_num; lia).
  assert (L4 : length p4 = 124%nat) by (rewrite (proj1 K4); done).
  set (p5 := take_str g (lit "STR1") 56 p4). assert (K5 : keeps 56 16 p4 p5) by (apply keeps_take_str; lia).
  assert (L5 : length p5 = 124%nat) by (rewrite (proj1 K5); done).
  set (p6 := take_str g (lit "STR2") 72 p5). assert (K6 : keeps 72 16 p5 p6) by (apply keeps_take_str; lia).
  assert (L6 : length p6 = 124%nat) by (rewrite (proj1 K6); done).
  assert (Z4 : forall o, (o + 16 <= 92)%nat -> load p4 o 16 = replicate 16 0).
  { intros o Ho. rewrite (load_keeps _ _ _ _ o 16 K4), (load_keeps _ _ _ _ o 16 K3), (load_keeps _ _ _ _ o 16 K2),
      (load_keeps _ _ _ _ o 16 K1) by lia.
    unfold load, p0, bzero. rewrite drop_replicate, take_replicate, Nat.min_l by lia. done. }
  split; [by rewrite Z0|]. split_and!.
  - intros k Hk. unfold outside_fields in Hk.
    rewrite (proj2 K6), (proj2 K5), (proj2 K4), (proj2 K3), (proj2 K2), (proj2 K1) by lia. apply G0.
  - rewrite (get_n32_keeps _ _ _ _ 92 K6), (get_n32_keeps _ _ _ _ 92 K5), (get_n32_keeps _ _ _ _ 92 K4),
      (get_n32_keeps _ _ _ _ 92 K3), (get_n32_keeps _ _ _ _ 92 K2) by lia.
    apply take_num_value; [lia|apply V0; lia].
  - rewrite (get_n32_keeps _ _ _ _ 96 K6), (get_n32_keeps _ _ _ _ 96 K5), (get_n32_keeps _ _ _ _ 96 K4),
      (get_n32_keeps _ _ _ _ 96 K3) by lia.
    apply take_num_value; [lia|]. rewrite (get_n32_keeps _ _ _ _ 96 K1) by lia. apply V0. lia.
  - rewrite (get_n32_keeps _ _ _ _ 100 K6), (get_n32_keeps _ _ _ _ 100 K5), (get_n32_keeps _ _ _ _ 100 K4) by lia.
    apply take_num_value; [lia|].
    rewrite (get_n32_keeps _ _ _ _ 100 K2), (get_n32_keeps _ _ _ _ 100 K1) by lia. apply V0. lia.
  - rewrite (get_n32_keeps _ _ _ _ 104 K6), (get_n32_keeps _ _ _ _ 104 K5) by lia.
    apply take_num_value; [lia|].
    rewrite (get_n32_keeps _ _ _ _ 104 K3), (get_n32_keeps _ _ _ _ 104 K2), (get_n32_keeps _ _ _ _ 104 K1) by lia.
    apply V0. lia.
  - rewrite (load_keeps _ _ _ _ 56 16 K6) by lia. apply take_str_value; [lia|apply Z4; lia].
  - apply take_str_value; [lia|]. rewrite (load_keeps _ _ _ _ 72 16 K5) by lia. apply Z4. lia.
Qed.
End Properties.

Lemma setglobal_same name v g : setglobal name v g name = v.
Proof. unfold setglobal. by rewrite decide_True. Qed.
Lemma setglobal_other name v g n : n <> name -> setglobal name v g n = g n.
Proof. intros. unfold setglobal. by rewrite decide_False. Qed.


(** A script that tries to change a password and answers with a number and a text. *)
Definition w_world : world gdb :=
  mk_world gdb (fun a => Some (a mod 256)) (fun _ => 9) (fun _ _ => true) (fun _ _ _ => true) None (lit "0")
    (fun _ => None) (bzero 16) (bzero 17).
Definition w_body (o : object) : server gdb := w_server empty_db.
Definition w_main (start : globals) : @script gdb :=
  Call F_changePwd [start (lit "USERID"); pstr (replicate 16 65)] (fun vals =>
  Call F_succeed [start (lit "FROM"); pint 80; PPtr TheServer] (fun _ =>
  Done (setglobal (lit "NUM1") (pint 4294967303) (setglobal (lit "STR1") (pstr (lit "hello")) start)))).
(** The state was used before, by a script that set [NUM2]. *)
Definition w_old : globals := setglobal (lit "NUM2") (pint 5) (fun _ => PV LNil).


Section Contract.
Context {D : Type} `{KV D}.

(** [recv] wants a number where every other function wants the pointer it is given:
    with the pointer it does nothing, with a number it needs one that is an address. *)
Lemma recv_wants_a_number (w : world D) args body db :
  (isptr (parg args 1) = true -> call w F_recv args body db = Some ([], db, [])) /\
  (isinteger (parg args 1) = true -> objects w (tointeger (parg args 1)) = None ->
   call w F_recv args body db = None).
Proof.
  cbn [call]. unfold do_recv, back. split.
  - by destruct (parg args 1).
  - intros -> ->. done.
Qed.
End Contract.
