(* ===== verification/Adler32.v ===== *)
(** * Adler32: core/zlib/adler32.c

    [W] is the width of [unsigned long], 32 or 64 on the targets; every sum is
    reduced to it, so that the choice of [NMAX] is proved to leave nothing out.
    [nodiv] chooses between the two versions of the [MOD] macros. *)

From S2P Require Import Prelude.

Definition BASE : Z := 65521.
Definition NMAX : nat := Z.to_nat 5552.

(** ** The MOD macros *)

Definition CHOP (a : Z) : Z :=
  let tmp := Z.shiftr a 16 in
  let a := Z.land a 0xffff in
  a + (Z.shiftl tmp 4 - tmp).

Definition MOD28_nodiv (a : Z) : Z :=
  let a := CHOP a in if BASE <=? a then a - BASE else a.
Definition MOD_nodiv (a : Z) : Z := MOD28_nodiv (CHOP a).
Definition MOD63_nodiv (a : Z) : Z :=
  let tmp := Z.shiftr a 32 in
  let a := Z.land a 0xffffffff in
  let a := a + (Z.shiftl tmp 8 - Z.shiftl tmp 5 + tmp) in
  let tmp := Z.shiftr a 16 in
  let a := Z.land a 0xffff in
  let a := a + (Z.shiftl tmp 4 - tmp) in
  let tmp := Z.shiftr a 16 in
  let a := Z.land a 0xffff in
  let a := a + (Z.shiftl tmp 4 - tmp) in
  if BASE <=? a then a - BASE else a.

Definition MOD (nodiv : bool) (a : Z) : Z := if nodiv then MOD_nodiv a else a mod BASE.
Definition MOD28 (nodiv : bool) (a : Z) : Z := if nodiv then MOD28_nodiv a else a mod BASE.
Definition MOD63 (nodiv : bool) (a : Z) : Z := if nodiv then MOD63_nodiv a else a mod BASE.

Section Width.
Context (W : Z) (nodiv : bool).

Definition uL (z : Z) : Z := z mod 2 ^ W.

(** [DO1]: [adler += (buf)[i]; sum2 += adler;] *)
Definition DO1 (s : Z * Z) (b : Z) : Z * Z :=
  let adler := uL (fst s + b) in (adler, uL (snd s + adler)).

(** [DO16(buf)], and [while(len--)] on what is left. *)
Definition DO16 (s : Z * Z) (buf : list Z) : Z * Z := fold_left DO1 (take 16 buf) s.
Definition each_byte (s : Z * Z) (buf : list Z) : Z * Z := fold_left DO1 buf s.

(** [n] turns of 16 bytes. *)
Definition sixteens (n : nat) (s : Z * Z) (buf : list Z) : (Z * Z) * list Z :=
  for_ 0 n (fun _ '(s, buf) => (DO16 s buf, drop 16 buf)) (s, buf).

Definition mod_both (s : Z * Z) : Z * Z := (MOD nodiv (fst s), MOD nodiv (snd s)).

(** [while (len >= NMAX)], then the remaining bytes. *)
Fixpoint nmax_blocks (turns : nat) (s : Z * Z) (buf : list Z) : (Z * Z) * list Z :=
  match turns with
  | O => (s, buf)
  | S turns =>
      let '(s, buf) := sixteens (NMAX / 16) s buf in
      nmax_blocks turns (mod_both s) buf
  end.

Definition remaining (s : Z * Z) (buf : list Z) : Z * Z :=
  match buf with
  | [] => s
  | _ => let '(s, buf) := sixteens (length buf / 16) s buf in mod_both (each_byte s buf)
  end.

Definition recombine (s : Z * Z) : Z := Z.lor (fst s) (uL (Z.shiftl (snd s) 16)).

Definition adler32_z (adler : Z) (buf : option (list Z)) : Z :=
  let sum2 := Z.land (Z.shiftr adler 16) 0xffff in
  let adler := Z.land adler 0xffff in
  match buf with
  | None => 1
  | Some [b] =>
      let adler := uL (adler + b) in
      let adler := if BASE <=? adler then adler - BASE else adler in
      let sum2 := uL (sum2 + adler) in
      let sum2 := if BASE <=? sum2 then sum2 - BASE else sum2 in
      recombine (adler, sum2)
  | Some buf =>
      if (length buf <? 16)%nat then
        let s := each_byte (adler, sum2) buf in
        let adler := if BASE <=? fst s then fst s - BASE else fst s in
        recombine (adler, MOD28 nodiv (snd s))
      else
        let '(s, buf) := nmax_blocks (length buf / NMAX) (adler, sum2) buf in
        recombine (remaining s buf)
  end.

Definition adler32 := adler32_z.

Definition adler32_combine_ (adler1 adler2 len2 : Z) : Z :=
  if len2 <? 0 then 0xffffffff
  else
    let rem := MOD63 nodiv len2 in
    let sum1 := Z.land adler1 0xffff in
    let sum2 := uL (rem * sum1) in
    let sum2 := MOD nodiv sum2 in
    let sum1 := uL (sum1 + (Z.land adler2 0xffff + BASE - 1)) in
    let sum2 := uL (sum2 + (Z.land (Z.shiftr adler1 16) 0xffff
                            + Z.land (Z.shiftr adler2 16) 0xffff + BASE - rem)) in
    let sum1 := if BASE <=? sum1 then sum1 - BASE else sum1 in
    let sum1 := if BASE <=? sum1 then sum1 - BASE else sum1 in
    let sum2 := if 2 * BASE <=? sum2 then sum2 - 2 * BASE else sum2 in
    let sum2 := if BASE <=? sum2 then sum2 - BASE else sum2 in
    recombine (sum1, sum2).

(** ** The reference: both sums kept modulo [BASE] at every byte *)

Definition adler_step (s : Z * Z) (b : Z) : Z * Z :=
  let a := (fst s + b) mod BASE in (a, (snd s + a) mod BASE).
Definition adler_ref (s : Z * Z) (buf : list Z) : Z * Z := fold_left adler_step buf s.
Definition pack (s : Z * Z) : Z := fst s + 2 ^ 16 * snd s.

Definition sums_ok (s : Z * Z) : Prop := 0 <= fst s < BASE /\ 0 <= snd s < BASE.

Context (HW : 32 <= W).

Lemma uL_id z : 0 <= z < 2 ^ 32 -> uL z = z.
Proof using HW.
  intros. apply Z.mod_small. pose proof (Z.pow_le_mono_r 2 32 W). lia.
Qed.

Ltac numbers := unfold BASE in *; change (2 ^ 32) with 4294967296 in *; change (2 ^ 16) with 65536 in *.

Lemma land_16 a : Z.land a 0xffff = a mod 65536.
Proof. change 0xffff with (2 ^ 16 - 1). by rewrite land_ones_mod. Qed.
Lemma shiftr_16 a : Z.shiftr a 16 = a / 65536.
Proof. by rewrite Z.shiftr_div_pow2. Qed.

Lemma CHOP_val a : CHOP a = a mod 65536 + 15 * (a / 65536).
Proof. unfold CHOP. rewrite land_16, shiftr_16, Z.shiftl_mul_pow2 by lia. lia. Qed.

Lemma MOD28_spec a : 0 <= a < 2 ^ 28 -> MOD28 nodiv a = a mod BASE.
Proof.
  intros Ha. unfold MOD28. destruct nodiv; [|done]. unfold MOD28_nodiv. cbv zeta. rewrite CHOP_val.
  change (2 ^ 28) with 268435456 in Ha. unfold BASE.
  set (x := a mod 65536 + 15 * (a / 65536)).
  assert (Hx : 0 <= x < 131042) by (unfold x; Z.div_mod_to_equations; lia).
  assert (E : exists k, a = x + 65521 * k) by (exists (a / 65536); unfold x; Z.div_mod_to_equations; lia).
  clearbody x. destruct E as [k ->]. rewrite (Z.mul_comm 65521), Z.mod_add by lia.
  destruct (Z.leb_spec 65521 x); Z.div_mod_to_equations; lia.
Qed.

Lemma MOD_spec a : 0 <= a < 2 ^ 32 -> MOD nodiv a = a mod BASE.
Proof.
  intros Ha. unfold MOD. pose proof (MOD28_spec (CHOP a)) as M. unfold MOD28 in M.
  destruct nodiv; [|done]. unfold MOD_nodiv. rewrite CHOP_val in *. numbers.
  rewrite M.
  - assert (E : a mod 65536 + 15 * (a / 65536) = a + (- (a / 65536)) * 65521)
      by (Z.div_mod_to_equations; lia).
    rewrite E. by apply Z.mod_add.
  - change (2 ^ 28) with 268435456. Z.div_mod_to_equations; lia.
Qed.

Lemma MOD63_spec a : 0 <= a < 2 ^ 63 -> MOD63 nodiv a = a mod BASE.
Proof.
  intros Ha. unfold MOD63. destruct nodiv; [|done]. unfold MOD63_nodiv. cbv zeta.
  change 0xffffffff with (2 ^ 32 - 1). rewrite land_ones_mod, (Z.shiftr_div_pow2 a) by lia.
  rewrite !land_16, !shiftr_16, !Z.shiftl_mul_pow2 by lia. numbers.
  change (2 ^ 63) with 9223372036854775808 in Ha.
  change (2 ^ 8) with 256; change (2 ^ 5) with 32; change (2 ^ 4) with 16.
  set (x := a mod 4294967296 + (a / 4294967296 * 256 - a / 4294967296 * 32 + a / 4294967296)).
  assert (Hx : 0 <= x < 500000000000) by (unfold x; Z.div_mod_to_equations; lia).
  assert (E : a = x + (a / 4294967296 * 65551) * 65521) by (unfold x; Z.div_mod_to_equations; lia).
  rewrite E, Z.mod_add by lia. clear E. clearbody x.
  set (y := x mod 65536 + (x / 65536 * 16 - x / 65536)).
  assert (Hy : 0 <= y < 120000000) by (unfold y; Z.div_mod_to_equations; lia).
  assert (E : x = y + (x / 65536) * 65521) by (unfold y; Z.div_mod_to_equations; lia).
  rewrite E at 1. rewrite Z.mod_add by lia. clear E. clearbody y.
  set (z := y mod 65536 + (y / 65536 * 16 - y / 65536)).
  assert (Hz : 0 <= z < 131042) by (unfold z; Z.div_mod_to_equations; lia).
  assert (E : y = z + (y / 65536) * 65521) by (unfold z; Z.div_mod_to_equations; lia).
  rewrite E at 1. rewrite Z.mod_add by lia.
  destruct (Z.leb_spec 65521 z); Z.div_mod_to_equations; lia.
Qed.

(** ** The sums between two reductions *)

Definition within (k : Z) (s : Z * Z) : Prop :=
  0 <= fst s <= BASE - 1 + 255 * k /\
  0 <= snd s /\ 2 * snd s <= 2 * (k + 1) * (BASE - 1) + 255 * (k * (k + 1)).
Definition congruent (s r : Z * Z) : Prop := fst s mod BASE = fst r /\ snd s mod BASE = snd r.

Lemma DO1_spec k s r b :
  within k s -> congruent s r -> byte_ok b -> 0 <= k -> k + 1 <= 5552 ->
  within (k + 1) (DO1 s b) /\ congruent (DO1 s b) (adler_step r b).
Proof using HW.
  intros [[A1 A2] [S1 S2]] [C1 C2] Hb Hk Hn. unfold byte_ok in Hb.
  assert (K : 255 * (k * (k + 1)) + 255 * 2 * (k + 1) = 255 * ((k + 1) * (k + 1 + 1))) by ring.
  assert (B : (k + 1) * (k + 1 + 1) <= 5552 * 5553) by nia.
  unfold DO1, adler_step. cbn [fst snd].
  assert (Ea : uL (fst s + b) = fst s + b) by (apply uL_id; numbers; lia).
  rewrite Ea. assert (Es : uL (snd s + (fst s + b)) = snd s + (fst s + b)) by (apply uL_id; numbers; lia).
  rewrite Es. split; unfold within, congruent; cbn [fst snd].
  - numbers. lia.
  - rewrite <- C1, <- C2. unfold BASE. rewrite Z.add_mod_idemp_l by lia.
    split; [done|]. symmetry. by rewrite Z.add_mod_idemp_l, Z.add_mod_idemp_r by lia.
Qed.

Lemma each_byte_spec buf : forall k s r,
  bytes_ok buf -> 0 <= k -> k + Z.of_nat (length buf) <= 5552 -> within k s -> congruent s r ->
  within (k + Z.of_nat (length buf)) (each_byte s buf) /\ congruent (each_byte s buf) (adler_ref r buf).
Proof using HW.
  induction buf as [|b buf IH]; intros k s r Hb Hk Hn Hw Hc; cbn [length] in *.
  - simpl. rewrite Z.add_0_r. auto.
  - apply Forall_cons_iff in Hb as [Hb1 Hb].
    destruct (DO1_spec k s r b Hw Hc Hb1 Hk) as [W1 C1]; [lia|].
    cbn [each_byte adler_ref fold_left]. rewrite Nat2Z.inj_succ in *.
    destruct (IH (k + 1) (DO1 s b) (adler_step r b) Hb) as [W2 C2]; try done; [lia|lia|].
    split; [|exact C2]. by replace (k + Z.succ (Z.of_nat (length buf)))
      with (k + 1 + Z.of_nat (length buf)) by lia.
Qed.

Lemma sums_within s : sums_ok s -> within 0 s /\ congruent s s.
Proof.
  intros [H1 H2]. unfold within, congruent. split; [lia|]. split; by apply Z.mod_small.
Qed.

Lemma adler_ref_ok buf : forall s, sums_ok s -> sums_ok (adler_ref s buf).
Proof.
  induction buf as [|b buf IH]; intros s Hs; [done|]. apply IH. unfold adler_step, sums_ok. cbn [fst snd].
  split; apply Z.mod_pos_bound; unfold BASE; lia.
Qed.

Lemma adler_ref_app s a b : adler_ref s (a ++ b) = adler_ref (adler_ref s a) b.
Proof. apply fold_left_app. Qed.

(** At most [NMAX] bytes and one reduction. *)
Lemma mod_both_spec s buf :
  sums_ok s -> bytes_ok buf -> Z.of_nat (length buf) <= 5552 ->
  mod_both (each_byte s buf) = adler_ref s buf.
Proof using HW.
  intros Hs Hb Hn. destruct (sums_within s Hs) as [Hw Hc].
  destruct (each_byte_spec buf 0 s s Hb) as [[A S] [C1 C2]]; try done.
  assert (K : Z.of_nat (length buf) * (Z.of_nat (length buf) + 1) <= 5552 * 5553) by nia.
  unfold mod_both. rewrite !MOD_spec; [|numbers; lia..].
  rewrite C1, C2. by destruct (adler_ref s buf).
Qed.

Lemma each_byte_app s a b : each_byte s (a ++ b) = each_byte (each_byte s a) b.
Proof. apply fold_left_app. Qed.

Lemma sixteens_spec n : forall s buf, (16 * n <= length buf)%nat ->
  sixteens n s buf = (each_byte s (take (16 * n) buf), drop (16 * n) buf).
Proof.
  induction n as [|n IH]; intros s buf Hl; [done|]. unfold sixteens in *.
  rewrite for_last, IH by lia. unfold DO16. fold (each_byte (each_byte s (take (16 * n) buf)) (take 16 (drop (16 * n) buf))).
  rewrite <- each_byte_app, take_take_drop, drop_drop.
  by replace (16 * n + 16)%nat with (16 * S n)%nat by lia.
Qed.

Lemma NMAX_val : Z.of_nat NMAX = 5552.
Proof. reflexivity. Qed.
Lemma NMAX_16 : (16 * (NMAX / 16))%nat = NMAX.
Proof. reflexivity. Qed.

Lemma nmax_blocks_spec t : forall s buf,
  sums_ok s -> bytes_ok buf -> (NMAX * t <= length buf)%nat ->
  nmax_blocks t s buf = (adler_ref s (take (NMAX * t) buf), drop (NMAX * t) buf).
Proof using HW.
  induction t as [|t IH]; intros s buf Hs Hb Hl.
  - by rewrite Nat.mul_0_r, take_0, drop_0.
  - cbn [nmax_blocks]. pose proof NMAX_val.
    rewrite sixteens_spec; rewrite NMAX_16; [|lia].
    rewrite mod_both_spec; [|done|by apply Forall_take|rewrite length_take; lia].
    rewrite IH; [|by apply adler_ref_ok|by apply Forall_drop|rewrite length_drop; lia].
    rewrite <- adler_ref_app, take_take_drop, drop_drop.
    by replace (NMAX + NMAX * t)%nat with (NMAX * S t)%nat by lia.
Qed.

Lemma remaining_spec s buf :
  sums_ok s -> bytes_ok buf -> Z.of_nat (length buf) < 5552 -> remaining s buf = adler_ref s buf.
Proof using HW.
  intros Hs Hb Hl. unfold remaining. destruct buf as [|b buf']; [done|].
  set (buf := b :: buf') in *. rewrite sixteens_spec by apply Nat.Div0.mul_div_le.
  rewrite <- each_byte_app, take_drop. apply mod_both_spec; [done|done|lia].
Qed.

Lemma recombine_pack s : sums_ok s -> recombine s = pack s.
Proof using HW.
  intros [H1 H2]. unfold recombine, pack. rewrite uL_id.
  - rewrite Z.lor_comm, lor_shiftl_add; [lia|lia|numbers; lia].
  - rewrite Z.shiftl_mul_pow2 by lia. numbers. lia.
Qed.

(** The checksum of a state, and the state a checksum stands for. *)
Definition split_sums (adler : Z) : Z * Z := (Z.land adler 0xffff, Z.land (Z.shiftr adler 16) 0xffff).

Lemma split_pack s : sums_ok s -> split_sums (pack s) = s.
Proof.
  intros [H1 H2]. unfold split_sums, pack. rewrite !land_16, shiftr_16. destruct s as [a b].
  cbn [fst snd] in *. numbers. f_equal; Z.div_mod_to_equations; lia.
Qed.

Lemma adler32_z_spec s buf : sums_ok s -> bytes_ok buf ->
  adler32_z (pack s) (Some buf) = pack (adler_ref s buf).
Proof using HW.
  intros Hs Hb. pose proof (split_pack s Hs) as Sp. unfold split_sums in Sp.
  assert (Sp1 : Z.land (pack s) 0xffff = fst s) by by apply (f_equal fst) in Sp.
  assert (Sp2 : Z.land (Z.shiftr (pack s) 16) 0xffff = snd s) by by apply (f_equal snd) in Sp.
  unfold adler32_z. rewrite Sp1, Sp2. cbv zeta.
  destruct (sums_within s Hs) as [Hw Hc].
  assert (G : (if (length buf <? 16)%nat then
      recombine (if BASE <=? fst (each_byte (fst s, snd s) buf) then fst (each_byte (fst s, snd s) buf) - BASE
                 else fst (each_byte (fst s, snd s) buf), MOD28 nodiv (snd (each_byte (fst s, snd s) buf)))
    else let '(s0, buf0) := nmax_blocks (length buf / NMAX) (fst s, snd s) buf in
         recombine (remaining s0 buf0)) = pack (adler_ref s buf)).
  { replace (fst s, snd s) with s by (by destruct s).
    destruct (Nat.ltb_spec (length buf) 16) as [L|L].
    - destruct (each_byte_spec buf 0 s s Hb) as [[A S] [C1 C2]]; try done; [lia|].
      rewrite <- recombine_pack by (by apply adler_ref_ok). f_equal.
      rewrite (surjective_pairing (adler_ref s buf)), <- C1, <- C2. f_equal.
      + destruct (Z.leb_spec BASE (fst (each_byte s buf))); numbers.
        * rewrite (Z.mod_eq _ 65521) by lia.
          replace (fst (each_byte s buf) / 65521) with 1; [lia|].
          apply Z.div_unique with (r := fst (each_byte s buf) - 65521); lia.
        * symmetry. apply Z.mod_small. lia.
      + apply MOD28_spec. change (2 ^ 28) with 268435456.
        assert (Z.of_nat (length buf) * (Z.of_nat (length buf) + 1) <= 15 * 16) by nia. numbers. lia.
    - pose proof NMAX_val. rewrite nmax_blocks_spec; [|done|done|apply Nat.Div0.mul_div_le].
      rewrite remaining_spec; [|by apply adler_ref_ok|by apply Forall_drop|].
      + rewrite <- adler_ref_app, take_drop. apply recombine_pack. by apply adler_ref_ok.
      + rewrite length_drop. pose proof (Nat.div_mod_eq (length buf) NMAX).
        pose proof (Nat.mod_upper_bound (length buf) NMAX). lia. }
  destruct buf as [|b [|b' buf]]; [exact G| |exact G]. clear G.
  apply Forall_cons_iff in Hb as [Hb _]. destruct Hs as [H1 H2]. unfold byte_ok in Hb.
  rewrite !uL_id by (numbers; try lia; destruct (65521 <=? fst s + b); lia).
  rewrite <- recombine_pack by (by apply (adler_ref_ok [b])). f_equal.
  unfold adler_ref, adler_step. cbn [fold_left]. unfold BASE in *.
  assert (M : forall x, 0 <= x < 2 * 65521 -> (if 65521 <=? x then x - 65521 else x) = x mod 65521).
  { intros x Hx. destruct (Z.leb_spec 65521 x); [|symmetry; apply Z.mod_small; lia].
    rewrite (Z.mod_eq x) by lia. replace (x / 65521) with 1; [lia|].
    apply Z.div_unique with (r := x - 65521); lia. }
  rewrite (M (fst s + b)) by lia. pose proof (Z.mod_pos_bound (fst s + b) 65521 ltac:(lia)).
  cbn [fst snd]. rewrite uL_id by (change (2 ^ 32) with 4294967296; lia).
  by rewrite (M (snd s + (fst s + b) mod 65521)) by lia.
Qed.

#[local] Existing Instances eqm_setoid Zplus_eqm Zminus_eqm Zmult_eqm.

Lemma eqm_mod n a b : eqm n a b -> a mod n = b mod n.
Proof. done. Qed.

Lemma eqm_plus k n a b : a = b + k * n -> eqm n a b.
Proof. intros ->. unfold eqm. apply Z_mod_plus_full. Qed.

(** Starting from other sums moves the result linearly. *)
Lemma adler_ref_shift buf : forall s,
  adler_ref s buf =
    if decide (buf = []) then s
    else ((fst s - 1 + fst (adler_ref (1, 0) buf)) mod BASE,
          (snd s + Z.of_nat (length buf) * (fst s - 1) + snd (adler_ref (1, 0) buf)) mod BASE).
Proof.
  induction buf as [|b buf IH] using rev_ind; intros s; [done|].
  destruct (decide (buf ++ [b] = [])) as [E|_]; [by destruct buf|].
  rewrite !adler_ref_app, length_app. cbn [length]. rewrite (IH s), (IH (1, 0)).
  unfold adler_ref, adler_step. cbn [fold_left fst snd].
  assert (Bp : BASE <> 0) by (unfold BASE; lia).
  destruct (decide (buf = [])) as [->|_]; cbn [length fold_left fst snd].
  - f_equal; apply eqm_mod; repeat setoid_rewrite (Zmod_eqm BASE); apply f_equal2; lia.
  - set (x := fst (fold_left adler_step buf (1, 0))).
    set (y := snd (fold_left adler_step buf (1, 0))).
    f_equal; apply eqm_mod; repeat setoid_rewrite (Zmod_eqm BASE); apply f_equal2; lia.
Qed.

Lemma adler_ref_shift_mod buf s : sums_ok s ->
  adler_ref s buf = ((fst s - 1 + fst (adler_ref (1, 0) buf)) mod BASE,
                     (snd s + Z.of_nat (length buf) * (fst s - 1) + snd (adler_ref (1, 0) buf)) mod BASE).
Proof.
  intros [H1 H2]. rewrite adler_ref_shift. destruct (decide (buf = [])) as [->|]; [|done].
  destruct s as [a b]. cbn [adler_ref fold_left fst snd length] in *.
  f_equal; symmetry; rewrite Z.mod_small; lia.
Qed.

Lemma sub_twice x : 0 <= x < 3 * BASE ->
  (let x := if BASE <=? x then x - BASE else x in if BASE <=? x then x - BASE else x) = x mod BASE.
Proof.
  intros Hx. unfold BASE in *. cbv zeta. destruct (Z.leb_spec 65521 x);
    [destruct (Z.leb_spec 65521 (x - 65521))|destruct (Z.leb_spec 65521 x)]; Z.div_mod_to_equations; lia.
Qed.

Lemma sub_thrice x : 0 <= x < 4 * BASE ->
  (let x := if 2 * BASE <=? x then x - 2 * BASE else x in if BASE <=? x then x - BASE else x) = x mod BASE.
Proof.
  intros Hx. unfold BASE in *. cbv zeta. destruct (Z.leb_spec (2 * 65521) x);
    [destruct (Z.leb_spec 65521 (x - 2 * 65521))|destruct (Z.leb_spec 65521 x)];
    Z.div_mod_to_equations; lia.
Qed.

Lemma adler32_combine_val a b :
  bytes_ok b -> Z.of_nat (length b) < 2 ^ 63 ->
  let s := adler_ref (1, 0) a in let t := adler_ref (1, 0) b in
  adler32_combine_ (pack s) (pack t) (Z.of_nat (length b)) = pack (adler_ref (1, 0) (a ++ b)).
Proof using HW.
  intros Hb Hl s t. assert (O1 : sums_ok (1, 0)) by (unfold sums_ok, BASE; cbn; lia).
  pose proof (adler_ref_ok a _ O1) as Hs. pose proof (adler_ref_ok b _ O1) as Ht.
  fold s in Hs. fold t in Ht.
  pose proof (split_pack s Hs) as Ss. pose proof (split_pack t Ht) as St.
  pose proof (f_equal fst Ss) as Ss1. pose proof (f_equal snd Ss) as Ss2.
  pose proof (f_equal fst St) as St1. pose proof (f_equal snd St) as St2.
  unfold split_sums in *. cbn [fst snd] in Ss1, Ss2, St1, St2.
  unfold adler32_combine_. rewrite Ss1, Ss2, St1, St2. cbv zeta.
  destruct (Z.ltb_spec (Z.of_nat (length b)) 0); [lia|].
  rewrite MOD63_spec by lia. set (len := Z.of_nat (length b)) in *.
  pose proof (Z.mod_pos_bound len BASE ltac:(unfold BASE; lia)) as Hr.
  destruct Hs as [Hs1 Hs2]. destruct Ht as [Ht1 Ht2].
  assert (Hp : 0 <= len mod BASE * fst s < 2 ^ 32).
  { numbers. pose proof (Z.mul_le_mono_nonneg (len mod 65521) 65520 (fst s) 65520). lia. }
  rewrite (uL_id (len mod BASE * fst s)) by done. rewrite MOD_spec by done.
  rewrite Z.mul_mod_idemp_l by (unfold BASE; lia).
  pose proof (Z.mod_pos_bound (len * fst s) BASE ltac:(unfold BASE; lia)) as Hm.
  rewrite !uL_id by (numbers; lia).
  rewrite <- recombine_pack by (apply adler_ref_ok; done). f_equal.
  rewrite adler_ref_app. fold s. rewrite (adler_ref_shift_mod b s) by done. fold t len.
  pose proof (sub_twice (fst s + (fst t + BASE - 1))) as E1.
  pose proof (sub_thrice ((len * fst s) mod BASE + (snd s + snd t + BASE - len mod BASE))) as E2.
  cbv zeta in E1, E2. rewrite E1, E2 by (unfold BASE in *; lia). f_equal; apply eqm_mod.
  - apply (eqm_plus 1). lia.
  - repeat setoid_rewrite (Zmod_eqm BASE). apply (eqm_plus 1). lia.
Qed.
End Width.

(** C17. [adler32] is the Adler-32 checksum, both sums kept modulo 65521 at every
    byte, although the code reduces them only every 5552 bytes and in 32 bits:
    with a sum as wide as [unsigned long] (at least 32 bits) nothing is lost,
    with either version of the MOD macros, and a buffer fed in two pieces gives
    the checksum of the whole. *)
Theorem adler32_correct (W : Z) (nodiv : bool) (HW : 32 <= W) (a b : list Z)
    (Ha : bytes_ok a) (Hb : bytes_ok b) :
  adler32 W nodiv 1 (Some a) = pack (adler_ref (1, 0) a) /\
  adler32 W nodiv (adler32 W nodiv 1 (Some a)) (Some b) = adler32 W nodiv 1 (Some (a ++ b)).
Proof.
  assert (O1 : sums_ok (1, 0)) by (unfold sums_ok, BASE; cbn; lia).
  unfold adler32. change 1 with (pack (1, 0)) at 1 3 4.
  rewrite !adler32_z_spec; try done; [|by apply Forall_app|by apply adler_ref_ok].
  by rewrite adler_ref_app.
Qed.

Lemma adler32_correct_witness :
  let text := [87; 105; 107; 105; 112; 101; 100; 105; 97] in
  bytes_ok text /\ adler32 32 true 1 (Some text) = 0x11E60398.
Proof.
  assert (B : bytes_ok [87; 105; 107; 105; 112; 101; 100; 105; 97])
    by (repeat constructor; unfold byte_ok; lia).
  split; [exact B|].
  rewrite (proj1 (adler32_correct 32 true ltac:(lia) [87; 105; 107; 105; 112; 101; 100; 105; 97] [] B
                    (Forall_nil_2 _))).
  reflexivity.
Defined.

(** [adler32_combine_] puts the checksums of two buffers together into that
    of their concatenation, for any length of the second one that the 64-bit
    offset can hold; a negative length gives the invalid value. *)
Lemma adler32_combine_correct (W : Z) (nodiv : bool) (HW : 32 <= W) (a b : list Z)
    (Ha : bytes_ok a) (Hb : bytes_ok b) (Hl : Z.of_nat (length b) < 2 ^ 63) :
  adler32_combine_ W nodiv (adler32 W nodiv 1 (Some a)) (adler32 W nodiv 1 (Some b)) (Z.of_nat (length b))
    = adler32 W nodiv 1 (Some (a ++ b)) /\
  forall len2, len2 < 0 ->
    adler32_combine_ W nodiv (adler32 W nodiv 1 (Some a)) (adler32 W nodiv 1 (Some b)) len2 = 0xffffffff.
Proof.
  assert (O1 : sums_ok (1, 0)) by (unfold sums_ok, BASE; cbn; lia). split.
  - unfold adler32. change 1 with (pack (1, 0)).
    rewrite !adler32_z_spec; try done; [|by apply Forall_app].
    by apply (adler32_combine_val W nodiv HW a b).
  - intros len2 Hn. unfold adler32_combine_. by destruct (Z.ltb_spec len2 0); [|lia].
Qed.

Lemma adler32_combine_correct_witness :
  let a := [1; 2; 255] in let b := [7; 0; 250; 9] in
  bytes_ok a /\ bytes_ok b /\
  adler32_combine_ 64 false (adler32 64 false 1 (Some a)) (adler32 64 false 1 (Some b)) 4
    = adler32 64 false 1 (Some (a ++ b)).
Proof.
  assert (A : bytes_ok [1; 2; 255]) by (repeat constructor; unfold byte_ok; lia).
  assert (B : bytes_ok [7; 0; 250; 9]) by (repeat constructor; unfold byte_ok; lia).
  split; [exact A|split; [exact B|]].
  exact (proj1 (adler32_combine_correct 64 false ltac:(lia) [1; 2; 255] [7; 0; 250; 9] A B ltac:(done))).
Defined.
