(* ===== verification/Inftrees.v ===== *)
(** * Inftrees: core/zlib/inftrees.c, inftrees.h and inffixed.h

    [inflate_table] builds the decoding tables of a canonical Huffman code.  The
    space behind [*table] is a list of entries; [next] and the positions in it are
    offsets from the start of the table being built.  [fixedtables] and
    [makefixed] of inflate.c run it on the lengths of the fixed code. *)

From S2P Require Import Prelude.

(** [typedef struct { unsigned char op, bits; unsigned short val; } code] *)
Record code := mk_code { c_op : Z; c_bits : Z; c_val : Z }.

#[export] Instance code_eq_dec : EqDecision code.
Proof. solve_decision. Defined.

Definition codes_of : list (Z * Z * Z) -> list code := map (fun '(o, b, v) => mk_code o b v).

Inductive codetype := CODES | LENS | DISTS.

#[export] Instance codetype_eq_dec : EqDecision codetype.
Proof. solve_decision. Defined.

Definition MAXBITS : nat := 15.
Definition ENOUGH_LENS : Z := 852.
Definition ENOUGH_DISTS : Z := 592.
Definition ENOUGH : Z := ENOUGH_LENS + ENOUGH_DISTS.

Definition lbase : list Z := [
  3; 4; 5; 6; 7; 8; 9; 10; 11; 13; 15; 17; 19; 23; 27; 31;
  35; 43; 51; 59; 67; 83; 99; 115; 131; 163; 195; 227; 258; 0; 0].
Definition lext : list Z := [
  16; 16; 16; 16; 16; 16; 16; 16; 17; 17; 17; 17; 18; 18; 18; 18;
  19; 19; 19; 19; 20; 20; 20; 20; 21; 21; 21; 21; 16; 77; 202].
Definition dbase : list Z := [
  1; 2; 3; 4; 5; 7; 9; 13; 17; 25; 33; 49; 65; 97; 129; 193;
  257; 385; 513; 769; 1025; 1537; 2049; 3073; 4097; 6145;
  8193; 12289; 16385; 24577; 0; 0].
Definition dext : list Z := [
  16; 16; 16; 16; 17; 17; 18; 18; 19; 19; 20; 20; 21; 21; 22; 22;
  23; 23; 24; 24; 25; 25; 26; 26; 27; 27;
  28; 28; 29; 29; 64; 64].

(** ** Counting and sorting the lengths *)

(** [for(len..) count[len]=0; for(sym..) count[lens[sym]]++;] *)
Definition count_lengths (lens : list Z) (codes : nat) : list Z :=
  for_ 0 codes (fun sym count =>
    let len := Z.to_nat (getn lens sym) in setn count len (u16 (getn count len + 1)))
    (replicate (S MAXBITS) 0).

(** [for (max = n; max >= 1; max--) if (count[max] != 0) break;] *)
Fixpoint longest (count : list Z) (n : nat) : nat :=
  match n with
  | O => O
  | S n' => if getn count n =? 0 then longest count n' else n
  end.

(** [for (min = lo; min < max; min++) if (count[min] != 0) break;] with [n] values
    of [min] left. *)
Fixpoint shortest (count : list Z) (lo n : nat) : nat :=
  match n with
  | O => lo
  | S n => if getn count lo =? 0 then shortest count (S lo) n else lo
  end.

(** The loop that computes [left]; [None] where it returns -1. *)
Fixpoint space_left (count : list Z) (len n : nat) (left_ : Z) : option Z :=
  match n with
  | O => Some left_
  | S n =>
      let left_ := Z.shiftl left_ 1 - getn count len in
      if left_ <? 0 then None else space_left count (S len) n left_
  end.

Definition offsets_of (count : list Z) : list Z :=
  for_ 1 (MAXBITS - 1) (fun len offs => setn offs (len + 1) (u16 (getn offs len + getn count len)))
    (setn (replicate (S MAXBITS) 0) 1 0).

(** [work[offs[lens[sym]]++] = sym] for the symbols that occur. *)
Definition sort_symbols (lens : list Z) (codes : nat) (offs work : list Z) : list Z * list Z :=
  for_ 0 codes (fun sym '(offs, work) =>
    let len := Z.to_nat (getn lens sym) in
    if getn lens sym =? 0 then (offs, work)
    else (setn offs len (u16 (getn offs len + 1)),
          setn work (Z.to_nat (getn offs len)) (u16 (Z.of_nat sym)))) (offs, work).

(** ** Filling the tables *)

(** [do { fill -= incr; next[pos + fill] = here; } while (fill != 0);]; [None]: it has
    not ended after [fuel] turns. *)
Fixpoint fill_entries (fuel : nat) (incr fill pos : Z) (here : code) (table : list code) : option (list code) :=
  match fuel with
  | O => None
  | S fuel =>
      let fill := u32 (fill - incr) in
      let table := <[Z.to_nat (pos + fill) := here]> table in
      if fill =? 0 then Some table else fill_entries fuel incr fill pos here table
  end.

(** [while (huff & incr) incr >>= 1;] *)
Fixpoint first_zero (n : nat) (huff incr : Z) : Z :=
  match n with
  | O => incr
  | S n => if Z.land huff incr =? 0 then incr else first_zero n huff (Z.shiftr incr 1)
  end.

(** "backwards increment the len-bit code huff" *)
Definition next_huff (huff len : Z) : Z :=
  let incr := first_zero (Z.to_nat len) huff (u32 (Z.shiftl 1 (len - 1))) in
  if negb (incr =? 0) then u32 (Z.land huff (incr - 1) + incr) else 0.

(** [while (curr + drop < max) { left -= count[curr+drop]; if (left <= 0) break;
    curr++; left <<= 1; }] *)
Fixpoint subtable_bits (n : nat) (count : list Z) (drop max curr left_ : Z) : Z :=
  match n with
  | O => curr
  | S n =>
      if curr + drop <? max then
        let left_ := left_ - get count (curr + drop) in
        if left_ <=? 0 then curr else subtable_bits n count drop max (curr + 1) (Z.shiftl left_ 1)
      else curr
  end.

(** The locals of the main loop. *)
Record fill_state := mk_fill {
  f_huff : Z; f_sym : nat; f_len : Z; f_next : Z; f_curr : Z; f_drop : Z; f_low : Z; f_used : Z;
  f_count : list Z; f_table : list code
}.

(** How the main loop ends: [break], or [return 1]. *)
Inductive fill_result := Filled (s : fill_state) | NoRoom (table : list code) | OutOfFuel.

Section Fill.
Context (type : codetype) (lens work : list Z) (root max : Z).

Definition enough (used : Z) : bool :=
  negb ((bool_decide (type = LENS) && (ENOUGH_LENS <? used)) ||
        (bool_decide (type = DISTS) && (ENOUGH_DISTS <? used))).

(** [base], [extra] and [match]; the dummy tables of CODES are [work]. *)
Definition code_tables : list Z * list Z * Z :=
  match type with
  | CODES => (work, work, 20)
  | LENS => (lbase, lext, 257)
  | DISTS => (dbase, dext, 0)
  end.

Definition mask : Z := u32 (Z.shiftl 1 root) - 1.

Definition make_entry (w len drop : Z) : code :=
  let '(base, extra, match_) := code_tables in
  let bits := u8 (len - drop) in
  if w + 1 <? match_ then mk_code 0 bits w
  else if match_ <=? w then mk_code (u8 (get extra (w - match_))) bits (get base (w - match_))
  else mk_code (32 + 64) bits 0.

(** Replicating the entry of the current symbol; [min] of the code is [1 << curr]. *)
Definition put_entry (s : fill_state) : option (list code) :=
  let here := make_entry (getn work (f_sym s)) (f_len s) (f_drop s) in
  let incr := u32 (Z.shiftl 1 (f_len s - f_drop s)) in
  let fill := u32 (Z.shiftl 1 (f_curr s)) in
  fill_entries (Z.to_nat fill) incr fill (f_next s + Z.shiftr (f_huff s) (f_drop s)) here (f_table s).

(** "create new sub-table if needed"; the second component is false on [return 1]. *)
Definition new_subtable (s : fill_state) : fill_state * bool :=
  if (root <? f_len s) && negb (Z.land (f_huff s) mask =? f_low s) then
    let drop := if f_drop s =? 0 then root else f_drop s in
    let next := f_next s + u32 (Z.shiftl 1 (f_curr s)) in
    let curr := f_len s - drop in
    let curr := subtable_bits (Z.to_nat max) (f_count s) drop max curr (Z.shiftl 1 curr) in
    let used := u32 (f_used s + u32 (Z.shiftl 1 curr)) in
    if negb (enough used) then
      (mk_fill (f_huff s) (f_sym s) (f_len s) next curr drop (f_low s) used (f_count s) (f_table s), false)
    else
      let low := Z.land (f_huff s) mask in
      let table := <[Z.to_nat low := mk_code (u8 curr) (u8 root) (u16 next)]> (f_table s) in
      (mk_fill (f_huff s) (f_sym s) (f_len s) next curr drop low used (f_count s) table, true)
  else (s, true).

(** One turn of [for (;;)] after the entries of the symbol are in the [table]: [inl] is
    the state the loop is left with. *)
Definition fill_turn (s : fill_state) (table : list code) : fill_state + (fill_state * bool) :=
  let huff := next_huff (f_huff s) (f_len s) in
  let sym := S (f_sym s) in
  let left_ := u16 (get (f_count s) (f_len s) - 1) in
  let count := setn (f_count s) (Z.to_nat (f_len s)) left_ in
  if left_ =? 0 then
    if f_len s =? max then
      inl (mk_fill huff sym (f_len s) (f_next s) (f_curr s) (f_drop s) (f_low s) (f_used s) count table)
    else
      let len := getn lens (Z.to_nat (getn work sym)) in
      inr (new_subtable (mk_fill huff sym len (f_next s) (f_curr s) (f_drop s) (f_low s) (f_used s) count table))
  else
    inr (new_subtable (mk_fill huff sym (f_len s) (f_next s) (f_curr s) (f_drop s) (f_low s) (f_used s) count table)).

Fixpoint fill_loop (fuel : nat) (s : fill_state) : fill_result :=
  match fuel with
  | O => OutOfFuel
  | S fuel =>
      match put_entry s with
      | None => OutOfFuel
      | Some table =>
          match fill_turn s table with
          | inl s => Filled s
          | inr (s, true) => fill_loop fuel s
          | inr (s, false) => NoRoom (f_table s)
          end
      end
  end.

(** The entry of an incomplete code that is left. *)
Definition fill_rest (s : fill_state) : list code :=
  if negb (f_huff s =? 0) then
    <[Z.to_nat (f_next s + f_huff s) := mk_code 64 (u8 (f_len s - f_drop s)) 0]> (f_table s)
  else f_table s.
End Fill.

(** What a call leaves: the returned value, the table space, by how much [*table]
    moved, [*bits] and [work]. *)
Record table_result := mk_table {
  ret : Z; r_table : list code; r_used : Z; r_bits : Z; r_work : list Z
}.

Definition invalid_code : code := mk_code 64 1 0.

Definition inflate_table (type : codetype) (lens : list Z) (codes : nat) (table : list code)
    (bits : Z) (work : list Z) : option table_result :=
  let count := count_lengths lens codes in
  let max := Z.of_nat (longest count MAXBITS) in
  let root := if max <? bits then max else bits in
  if max =? 0 then
    Some (mk_table 0 (<[1%nat := invalid_code]> (<[0%nat := invalid_code]> table)) 2 1 work)
  else
    let min := Z.of_nat (shortest count 1 (Z.to_nat max - 1)) in
    let root := if root <? min then min else root in
    match space_left count 1 MAXBITS 1 with
    | None => Some (mk_table (-1) table 0 bits work)
    | Some left_ =>
        if (0 <? left_) && (bool_decide (type = CODES) || negb (max =? 1)) then
          Some (mk_table (-1) table 0 bits work)
        else
          let '(_, work) := sort_symbols lens codes (offsets_of count) work in
          let used0 := u32 (Z.shiftl 1 root) in
          if negb (enough type used0) then Some (mk_table 1 table 0 bits work)
          else
            let s := mk_fill 0 0 min 0 root 0 (2 ^ 32 - 1) used0 count table in
            match fill_loop type lens work root max codes s with
            | OutOfFuel => None
            | NoRoom table => Some (mk_table 1 table 0 bits work)
            | Filled s => Some (mk_table 0 (fill_rest s) (f_used s) root work)
            end
    end.

(** ** inffixed.h *)

Definition lenfix : list code := codes_of [
  (96, 7, 0); (0, 8, 80); (0, 8, 16); (20, 8, 115); (18, 7, 31); (0, 8, 112); (0, 8, 48);
  (0, 9, 192); (16, 7, 10); (0, 8, 96); (0, 8, 32); (0, 9, 160); (0, 8, 0); (0, 8, 128);
  (0, 8, 64); (0, 9, 224); (16, 7, 6); (0, 8, 88); (0, 8, 24); (0, 9, 144); (19, 7, 59);
  (0, 8, 120); (0, 8, 56); (0, 9, 208); (17, 7, 17); (0, 8, 104); (0, 8, 40); (0, 9, 176);
  (0, 8, 8); (0, 8, 136); (0, 8, 72); (0, 9, 240); (16, 7, 4); (0, 8, 84); (0, 8, 20);
  (21, 8, 227); (19, 7, 43); (0, 8, 116); (0, 8, 52); (0, 9, 200); (17, 7, 13); (0, 8, 100);
  (0, 8, 36); (0, 9, 168); (0, 8, 4); (0, 8, 132); (0, 8, 68); (0, 9, 232); (16, 7, 8);
  (0, 8, 92); (0, 8, 28); (0, 9, 152); (20, 7, 83); (0, 8, 124); (0, 8, 60); (0, 9, 216);
  (18, 7, 23); (0, 8, 108); (0, 8, 44); (0, 9, 184); (0, 8, 12); (0, 8, 140); (0, 8, 76);
  (0, 9, 248); (16, 7, 3); (0, 8, 82); (0, 8, 18); (21, 8, 163); (19, 7, 35); (0, 8, 114);
  (0, 8, 50); (0, 9, 196); (17, 7, 11); (0, 8, 98); (0, 8, 34); (0, 9, 164); (0, 8, 2);
  (0, 8, 130); (0, 8, 66); (0, 9, 228); (16, 7, 7); (0, 8, 90); (0, 8, 26); (0, 9, 148);
  (20, 7, 67); (0, 8, 122); (0, 8, 58); (0, 9, 212); (18, 7, 19); (0, 8, 106); (0, 8, 42);
  (0, 9, 180); (0, 8, 10); (0, 8, 138); (0, 8, 74); (0, 9, 244); (16, 7, 5); (0, 8, 86);
  (0, 8, 22); (64, 8, 0); (19, 7, 51); (0, 8, 118); (0, 8, 54); (0, 9, 204); (17, 7, 15);
  (0, 8, 102); (0, 8, 38); (0, 9, 172); (0, 8, 6); (0, 8, 134); (0, 8, 70); (0, 9, 236);
  (16, 7, 9); (0, 8, 94); (0, 8, 30); (0, 9, 156); (20, 7, 99); (0, 8, 126); (0, 8, 62);
  (0, 9, 220); (18, 7, 27); (0, 8, 110); (0, 8, 46); (0, 9, 188); (0, 8, 14); (0, 8, 142);
  (0, 8, 78); (0, 9, 252); (96, 7, 0); (0, 8, 81); (0, 8, 17); (21, 8, 131); (18, 7, 31);
  (0, 8, 113); (0, 8, 49); (0, 9, 194); (16, 7, 10); (0, 8, 97); (0, 8, 33); (0, 9, 162);
  (0, 8, 1); (0, 8, 129); (0, 8, 65); (0, 9, 226); (16, 7, 6); (0, 8, 89); (0, 8, 25);
  (0, 9, 146); (19, 7, 59); (0, 8, 121); (0, 8, 57); (0, 9, 210); (17, 7, 17); (0, 8, 105);
  (0, 8, 41); (0, 9, 178); (0, 8, 9); (0, 8, 137); (0, 8, 73); (0, 9, 242); (16, 7, 4);
  (0, 8, 85); (0, 8, 21); (16, 8, 258); (19, 7, 43); (0, 8, 117); (0, 8, 53); (0, 9, 202);
  (17, 7, 13); (0, 8, 101); (0, 8, 37); (0, 9, 170); (0, 8, 5); (0, 8, 133); (0, 8, 69);
  (0, 9, 234); (16, 7, 8); (0, 8, 93); (0, 8, 29); (0, 9, 154); (20, 7, 83); (0, 8, 125);
  (0, 8, 61); (0, 9, 218); (18, 7, 23); (0, 8, 109); (0, 8, 45); (0, 9, 186); (0, 8, 13);
  (0, 8, 141); (0, 8, 77); (0, 9, 250); (16, 7, 3); (0, 8, 83); (0, 8, 19); (21, 8, 195);
  (19, 7, 35); (0, 8, 115); (0, 8, 51); (0, 9, 198); (17, 7, 11); (0, 8, 99); (0, 8, 35);
  (0, 9, 166); (0, 8, 3); (0, 8, 131); (0, 8, 67); (0, 9, 230); (16, 7, 7); (0, 8, 91);
  (0, 8, 27); (0, 9, 150); (20, 7, 67); (0, 8, 123); (0, 8, 59); (0, 9, 214); (18, 7, 19);
  (0, 8, 107); (0, 8, 43); (0, 9, 182); (0, 8, 11); (0, 8, 139); (0, 8, 75); (0, 9, 246);
  (16, 7, 5); (0, 8, 87); (0, 8, 23); (64, 8, 0); (19, 7, 51); (0, 8, 119); (0, 8, 55);
  (0, 9, 206); (17, 7, 15); (0, 8, 103); (0, 8, 39); (0, 9, 174); (0, 8, 7); (0, 8, 135);
  (0, 8, 71); (0, 9, 238); (16, 7, 9); (0, 8, 95); (0, 8, 31); (0, 9, 158); (20, 7, 99);
  (0, 8, 127); (0, 8, 63); (0, 9, 222); (18, 7, 27); (0, 8, 111); (0, 8, 47); (0, 9, 190);
  (0, 8, 15); (0, 8, 143); (0, 8, 79); (0, 9, 254); (96, 7, 0); (0, 8, 80); (0, 8, 16);
  (20, 8, 115); (18, 7, 31); (0, 8, 112); (0, 8, 48); (0, 9, 193); (16, 7, 10); (0, 8, 96);
  (0, 8, 32); (0, 9, 161); (0, 8, 0); (0, 8, 128); (0, 8, 64); (0, 9, 225); (16, 7, 6);
  (0, 8, 88); (0, 8, 24); (0, 9, 145); (19, 7, 59); (0, 8, 120); (0, 8, 56); (0, 9, 209);
  (17, 7, 17); (0, 8, 104); (0, 8, 40); (0, 9, 177); (0, 8, 8); (0, 8, 136); (0, 8, 72);
  (0, 9, 241); (16, 7, 4); (0, 8, 84); (0, 8, 20); (21, 8, 227); (19, 7, 43); (0, 8, 116);
  (0, 8, 52); (0, 9, 201); (17, 7, 13); (0, 8, 100); (0, 8, 36); (0, 9, 169); (0, 8, 4);
  (0, 8, 132); (0, 8, 68); (0, 9, 233); (16, 7, 8); (0, 8, 92); (0, 8, 28); (0, 9, 153);
  (20, 7, 83); (0, 8, 124); (0, 8, 60); (0, 9, 217); (18, 7, 23); (0, 8, 108); (0, 8, 44);
  (0, 9, 185); (0, 8, 12); (0, 8, 140); (0, 8, 76); (0, 9, 249); (16, 7, 3); (0, 8, 82);
  (0, 8, 18); (21, 8, 163); (19, 7, 35); (0, 8, 114); (0, 8, 50); (0, 9, 197); (17, 7, 11);
  (0, 8, 98); (0, 8, 34); (0, 9, 165); (0, 8, 2); (0, 8, 130); (0, 8, 66); (0, 9, 229);
  (16, 7, 7); (0, 8, 90); (0, 8, 26); (0, 9, 149); (20, 7, 67); (0, 8, 122); (0, 8, 58);
  (0, 9, 213); (18, 7, 19); (0, 8, 106); (0, 8, 42); (0, 9, 181); (0, 8, 10); (0, 8, 138);
  (0, 8, 74); (0, 9, 245); (16, 7, 5); (0, 8, 86); (0, 8, 22); (64, 8, 0); (19, 7, 51);
  (0, 8, 118); (0, 8, 54); (0, 9, 205); (17, 7, 15); (0, 8, 102); (0, 8, 38); (0, 9, 173);
  (0, 8, 6); (0, 8, 134); (0, 8, 70); (0, 9, 237); (16, 7, 9); (0, 8, 94); (0, 8, 30);
  (0, 9, 157); (20, 7, 99); (0, 8, 126); (0, 8, 62); (0, 9, 221); (18, 7, 27); (0, 8, 110);
  (0, 8, 46); (0, 9, 189); (0, 8, 14); (0, 8, 142); (0, 8, 78); (0, 9, 253); (96, 7, 0);
  (0, 8, 81); (0, 8, 17); (21, 8, 131); (18, 7, 31); (0, 8, 113); (0, 8, 49); (0, 9, 195);
  (16, 7, 10); (0, 8, 97); (0, 8, 33); (0, 9, 163); (0, 8, 1); (0, 8, 129); (0, 8, 65);
  (0, 9, 227); (16, 7, 6); (0, 8, 89); (0, 8, 25); (0, 9, 147); (19, 7, 59); (0, 8, 121);
  (0, 8, 57); (0, 9, 211); (17, 7, 17); (0, 8, 105); (0, 8, 41); (0, 9, 179); (0, 8, 9);
  (0, 8, 137); (0, 8, 73); (0, 9, 243); (16, 7, 4); (0, 8, 85); (0, 8, 21); (16, 8, 258);
  (19, 7, 43); (0, 8, 117); (0, 8, 53); (0, 9, 203); (17, 7, 13); (0, 8, 101); (0, 8, 37);
  (0, 9, 171); (0, 8, 5); (0, 8, 133); (0, 8, 69); (0, 9, 235); (16, 7, 8); (0, 8, 93);
  (0, 8, 29); (0, 9, 155); (20, 7, 83); (0, 8, 125); (0, 8, 61); (0, 9, 219); (18, 7, 23);
  (0, 8, 109); (0, 8, 45); (0, 9, 187); (0, 8, 13); (0, 8, 141); (0, 8, 77); (0, 9, 251);
  (16, 7, 3); (0, 8, 83); (0, 8, 19); (21, 8, 195); (19, 7, 35); (0, 8, 115); (0, 8, 51);
  (0, 9, 199); (17, 7, 11); (0, 8, 99); (0, 8, 35); (0, 9, 167); (0, 8, 3); (0, 8, 131);
  (0, 8, 67); (0, 9, 231); (16, 7, 7); (0, 8, 91); (0, 8, 27); (0, 9, 151); (20, 7, 67);
  (0, 8, 123); (0, 8, 59); (0, 9, 215); (18, 7, 19); (0, 8, 107); (0, 8, 43); (0, 9, 183);
  (0, 8, 11); (0, 8, 139); (0, 8, 75); (0, 9, 247); (16, 7, 5); (0, 8, 87); (0, 8, 23);
  (64, 8, 0); (19, 7, 51); (0, 8, 119); (0, 8, 55); (0, 9, 207); (17, 7, 15); (0, 8, 103);
  (0, 8, 39); (0, 9, 175); (0, 8, 7); (0, 8, 135); (0, 8, 71); (0, 9, 239); (16, 7, 9);
  (0, 8, 95); (0, 8, 31); (0, 9, 159); (20, 7, 99); (0, 8, 127); (0, 8, 63); (0, 9, 223);
  (18, 7, 27); (0, 8, 111); (0, 8, 47); (0, 9, 191); (0, 8, 15); (0, 8, 143); (0, 8, 79);
  (0, 9, 255)].

Definition distfix : list code := codes_of [
  (16, 5, 1); (23, 5, 257); (19, 5, 17); (27, 5, 4097); (17, 5, 5); (25, 5, 1025); (21, 5, 65);
  (29, 5, 16385); (16, 5, 3); (24, 5, 513); (20, 5, 33); (28, 5, 8193); (18, 5, 9); (26, 5, 2049);
  (22, 5, 129); (64, 5, 0); (16, 5, 2); (23, 5, 385); (19, 5, 25); (27, 5, 6145); (17, 5, 7);
  (25, 5, 1537); (21, 5, 97); (29, 5, 24577); (16, 5, 4); (24, 5, 769); (20, 5, 49); (28, 5, 12289);
  (18, 5, 13); (26, 5, 3073); (22, 5, 193); (64, 5, 0)].

(** ** The fixed code: fixedtables and makefixed of inflate.c *)

(** [while (sym < hi) lens[sym++] = v;] from [sym = lo]. *)
Definition set_lens (lo hi : nat) (v : Z) (lens : list Z) : list Z :=
  for_ lo (hi - lo) (fun sym lens => setn lens sym v) lens.

Definition fixed_lens (lens : list Z) : list Z :=
  set_lens 280 288 8 (set_lens 256 280 7 (set_lens 144 256 9 (set_lens 0 144 8 lens))).

(** The tables built on first use: [fixed[544]] holds both. *)
Definition build_fixed (lens work : list Z) : option (list code * list code) :=
  let lens := fixed_lens lens in
  match inflate_table LENS lens 288 (replicate 544 (mk_code 0 0 0)) 9 work with
  | Some r1 =>
      let rest := skipn (Z.to_nat (r_used r1)) (r_table r1) in
      match inflate_table DISTS (set_lens 0 32 5 lens) 32 rest 5 (r_work r1) with
      | Some r2 => Some (r_table r1, r_table r2)
      | None => None
      end
  | None => None
  end.

(** What [makefixed] prints of them: [op] is 64 for the two symbols that are not
    part of the code. *)
Definition makefixed (t : list code * list code) : list code * list code :=
  (imap (fun low c => if (Z.land (Z.of_nat low) 127 =? 99) then mk_code 64 (c_bits c) (c_val c) else c)
     (take 512 (fst t)), take 32 (snd t)).


(** ** What the counting and the sorting compute *)

(** The symbols below [k] of code length [l], in order, and how many symbols are
    shorter. *)
Definition of_length (lens : list Z) (k l : nat) : list nat :=
  List.filter (fun sym => getn lens sym =? Z.of_nat l) (seq 0 k).
Definition total (lens : list Z) (k l : nat) : nat := length (of_length lens k l).
Fixpoint shorter (lens : list Z) (k l : nat) : nat :=
  match l with
  | O | 1%nat => O
  | S l' => (shorter lens k l' + total lens k l')%nat
  end.

(** "This routine assumes, but does not check, that all of the entries in lens[]
    are in the range 0..MAXBITS." *)
Definition lens_ok (lens : list Z) (codes : nat) : Prop :=
  forall sym, (sym < codes)%nat -> 0 <= getn lens sym <= Z.of_nat MAXBITS.

Lemma of_length_S lens k l :
  of_length lens (S k) l = of_length lens k l ++ (if getn lens k =? Z.of_nat l then [k] else []).
Proof. unfold of_length. rewrite seq_S, filter_app. done. Qed.

Lemma total_le lens k l : (total lens k l <= k)%nat.
Proof. unfold total, of_length. rewrite <- (length_seq k 0) at 2. apply filter_length_le. Qed.

Lemma shorter_SS lens k l : (1 <= l)%nat -> shorter lens k (S l) = (shorter lens k l + total lens k l)%nat.
Proof. destruct l; [lia|]. done. Qed.

Lemma longest_spec count n :
  let m := longest count n in
  (m <= n)%nat /\ (m <> 0%nat -> getn count m <> 0) /\
  (forall l, (m < l <= n)%nat -> getn count l = 0).
Proof.
  induction n as [|n (H1 & H2 & H3)]; cbn [longest]; [split; [done|split; [done|lia]]|].
  destruct (Z.eqb_spec (getn count (S n)) 0) as [E|N].
  - split; [lia|]. split; [done|]. intros l Hl. destruct (Nat.eq_dec l (S n)) as [->|]; [done|]. apply H3. lia.
  - split; [lia|]. split; [done|lia].
Qed.

Lemma shortest_spec count n : forall lo,
  let m := shortest count lo n in
  (lo <= m <= lo + n)%nat /\ (forall l, (lo <= l < m)%nat -> getn count l = 0) /\
  ((m < lo + n)%nat -> getn count m <> 0).
Proof.
  induction n as [|n IH]; intros lo; cbn [shortest]; [repeat split; lia|].
  destruct (Z.eqb_spec (getn count lo) 0) as [E|N]; [|repeat split; lia || done].
  destruct (IH (S lo)) as (H1 & H2 & H3). split; [lia|]. split; [|intros; apply H3; lia].
  intros l Hl. destruct (Nat.eq_dec l lo) as [->|]; [done|]. apply H2. lia.
Qed.

Section Sorting.
Context (lens : list Z) (codes : nat).
Hypothesis Hlens : lens_ok lens codes.
Hypothesis Hcodes : Z.of_nat codes < 65536.

Lemma count_lengths_spec :
  length (count_lengths lens codes) = S MAXBITS /\
  forall l, (l <= MAXBITS)%nat -> getn (count_lengths lens codes) l = Z.of_nat (total lens codes l).
Proof using Hlens Hcodes.
  unfold count_lengths.
  apply (for_ind (fun k count => length count = S MAXBITS /\
    forall l, (l <= MAXBITS)%nat -> getn count l = Z.of_nat (total lens k l))).
  - split; [apply length_replicate|]. intros l Hl. by rewrite getn_replicate by lia.
  - intros k count Hk [Hc Hg]. split; [by rewrite length_setn|]. intros l Hl.
    pose proof (Hlens k ltac:(lia)) as Hr. unfold MAXBITS in *.
    rewrite getn_setn by lia. unfold total. rewrite of_length_S, length_app. fold (total lens k l).
    destruct (Nat.eqb_spec l (Z.to_nat (getn lens k))) as [El|Nl].
    + rewrite <- El, Hg by done. pose proof (total_le lens k l).
      destruct (Z.eqb_spec (getn lens k) (Z.of_nat l)); [|lia]. cbn [length].
      rewrite u16_id; change (2 ^ 16) with 65536; lia.
    + destruct (Z.eqb_spec (getn lens k) (Z.of_nat l)); [lia|]. rewrite Hg by done. cbn [length]. lia.
Qed.

Lemma shorter_le k l : (shorter lens k l <= k)%nat.
Proof.
  assert (E : forall k, shorter lens (S k) l =
     (shorter lens k l + (if decide (1 <= getn lens k < Z.of_nat l)%Z then 1 else 0))%nat).
  { intros k'. induction l as [|l IH]; [case_decide; cbn [shorter]; lia|].
    destruct l as [|l]; [clear IH; case_decide; cbn [shorter]; lia|].
    rewrite !(shorter_SS _ _ (S l)) by lia. rewrite IH. unfold total. rewrite of_length_S, length_app.
    destruct (Z.eqb_spec (getn lens k') (Z.of_nat (S l))); cbn [length];
      repeat case_decide; lia. }
  induction k as [|k IH]; [|rewrite E; case_decide; lia].
  clear E. induction l as [|[|l] IH]; [done|done|]. rewrite shorter_SS by lia.
  change (total lens 0 (S l)) with 0%nat. lia.
Qed.

Lemma offsets_spec :
  length (offsets_of (count_lengths lens codes)) = S MAXBITS /\
  forall l, (1 <= l <= MAXBITS)%nat ->
    getn (offsets_of (count_lengths lens codes)) l = Z.of_nat (shorter lens codes l).
Proof using Hlens Hcodes.
  destruct count_lengths_spec as [_ Hc]. unfold offsets_of.
  pose proof (for_ind (fun k offs => length offs = S MAXBITS /\
    forall l, (1 <= l <= k)%nat -> getn offs l = Z.of_nat (shorter lens codes l))
    1 (MAXBITS - 1) (fun len offs => setn offs (len + 1)
       (u16 (getn offs len + getn (count_lengths lens codes) len)))
    (setn (replicate (S MAXBITS) 0) 1 0)) as F.
  cbv beta in F. apply F; clear F.
  - split; [done|]. intros l Hl. by replace l with 1%nat by lia.
  - unfold MAXBITS in *. intros k offs Hk [Hl Hg]. split; [by rewrite length_setn|]. intros l Hl'.
    rewrite getn_setn by lia. destruct (Nat.eqb_spec l (k + 1)) as [->|Hn]; [|apply Hg; lia].
    rewrite Hg, Hc by lia. rewrite Nat.add_1_r, shorter_SS by lia.
    pose proof (shorter_le codes (S k)) as Ht. rewrite shorter_SS in Ht by lia.
    rewrite u16_id; change (2 ^ 16) with 65536; lia.
Qed.

Lemma total_mono k k' l : (k <= k')%nat -> (total lens k l <= total lens k' l)%nat.
Proof.
  induction 1 as [|k' Hk IH]; [done|]. unfold total in *. rewrite of_length_S, length_app. lia.
Qed.

Lemma total_next k l : (k < codes)%nat -> getn lens k = Z.of_nat l -> (total lens k l < total lens codes l)%nat.
Proof.
  intros Hk E. pose proof (total_mono (S k) codes l Hk) as H. unfold total in H at 1.
  rewrite of_length_S, length_app, E, Z.eqb_refl in H. cbn [length] in H. unfold total in *. lia.
Qed.

Lemma shorter_step k l l' : (1 <= l < l')%nat -> (shorter lens k l + total lens k l <= shorter lens k l')%nat.
Proof.
  intros [H1 H2]. induction H2 as [|l' H2 IH]; [by rewrite shorter_SS|].
  rewrite (shorter_SS _ _ l') by lia. lia.
Qed.

(** The places of two lengths do not meet. *)
Lemma places_apart l l' i i' :
  (1 <= l)%nat -> (1 <= l')%nat -> l <> l' ->
  (i < total lens codes l)%nat -> (i' < total lens codes l')%nat ->
  (shorter lens codes l + i)%nat <> (shorter lens codes l' + i')%nat.
Proof.
  intros H1 H1' Hn Hi Hi'. destruct (Nat.lt_ge_cases l l').
  - pose proof (shorter_step codes l l'). lia.
  - pose proof (shorter_step codes l' l). lia.
Qed.

(** [work] holds the symbols of each length in order, after the shorter ones. *)
Definition sorted_work (work : list Z) : Prop :=
  forall l i, (1 <= l <= MAXBITS)%nat -> (i < total lens codes l)%nat ->
    getn work (shorter lens codes l + i) = Z.of_nat (nth i (of_length lens codes l) 0%nat).

Lemma sort_symbols_spec work :
  (codes <= length work)%nat ->
  let work' := snd (sort_symbols lens codes (offsets_of (count_lengths lens codes)) work) in
  length work' = length work /\ sorted_work work'.
Proof using Hlens Hcodes.
  intros Hw. destruct offsets_spec as [Ho Hoff]. unfold sort_symbols. cbv zeta.
  pose proof (for_ind (fun k '(offs, w) => length offs = S MAXBITS /\ length w = length work /\
    (forall l, (1 <= l <= MAXBITS)%nat ->
       getn offs l = Z.of_nat (shorter lens codes l + total lens k l)) /\
    (forall l i, (1 <= l <= MAXBITS)%nat -> (i < total lens k l)%nat ->
       getn w (shorter lens codes l + i) = Z.of_nat (nth i (of_length lens k l) 0%nat)))
    0 codes) as F. rewrite Nat.add_0_l in F.
  match goal with |- context [for_ 0 codes ?b ?s] => specialize (F b s) end.
  destruct (for_ _ _ _ _) as [offs w]. destruct F as (_ & H2 & _ & H4); [| |done].
  - split; [done|]. split; [done|]. split; [|by intros l i _ ?%Nat.nlt_0_r].
    intros l Hl. rewrite Hoff by done. f_equal. unfold total, of_length. cbn [seq List.filter length]. lia.
  - clear offs w. intros k [offs w] Hk (H1 & H2 & H3 & H4). pose proof (Hlens k ltac:(lia)) as Hr.
    destruct (Z.eqb_spec (getn lens k) 0) as [E0|N0].
    { split; [done|]. split; [done|]. unfold total in *.
      split; intros l; [intros Hl|intros i Hl Hi]; rewrite of_length_S in *;
        destruct (Z.eqb_spec (getn lens k) (Z.of_nat l)); try lia; rewrite app_nil_r in *; auto. }
    set (m := Z.to_nat (getn lens k)) in *. assert (Em : getn lens k = Z.of_nat m) by lia.
    assert (Hm : (1 <= m <= MAXBITS)%nat) by lia. pose proof (total_next k m ltac:(lia) Em) as Hn.
    pose proof (shorter_step codes m (S m) ltac:(lia)) as Hs. pose proof (shorter_le codes (S m)) as Hle.
    pose proof (H3 m Hm) as Em3.
    split; [by rewrite length_setn|]. split; [by rewrite length_setn|]. split.
    + intros l Hl. rewrite getn_setn by lia. unfold total. rewrite of_length_S, length_app.
      fold (total lens k l). rewrite Em. destruct (Nat.eqb_spec l m) as [->|Nl].
      * rewrite Z.eqb_refl, Em3. cbn [length]. rewrite u16_id; [lia|]. change (2 ^ 16) with 65536. lia.
      * destruct (Z.eqb_spec (Z.of_nat m) (Z.of_nat l)); [lia|]. cbn [length]. rewrite H3 by done. lia.
    + intros l i Hl Hi. rewrite Em3, Nat2Z.id. rewrite getn_setn by lia.
      unfold total in Hi. rewrite of_length_S, length_app, Em in Hi. fold (total lens k l) in Hi.
      rewrite of_length_S, Em. destruct (Z.eqb_spec (Z.of_nat m) (Z.of_nat l)) as [E|N].
      * assert (l = m) as -> by lia. cbn [length] in Hi.
        destruct (Nat.eqb_spec (shorter lens codes m + i) (shorter lens codes m + total lens k m)) as [Ei|Ni].
        -- assert (i = total lens k m) as -> by lia. unfold total. rewrite app_nth2, Nat.sub_diag by lia.
           cbn [nth]. apply u16_id. change (2 ^ 16) with 65536. lia.
        -- rewrite app_nth1 by (unfold total in *; lia). apply H4; [done|lia].
      * rewrite app_nil_r in *. cbn [length] in Hi.
        pose proof (total_mono k codes l ltac:(lia)).
        pose proof (places_apart l m i (total lens k m)).
        destruct (Nat.eqb_spec (shorter lens codes l + i) (shorter lens codes m + total lens k m)); [lia|].
        apply H4; [done|lia].
Qed.

(** *** The main loop ends *)

Section Loop.
Context (type : codetype) (work : list Z) (root : Z) (max : nat).
Hypothesis Hwork : sorted_work work.
Hypothesis Hmax : (1 <= max <= MAXBITS)%nat.
Hypothesis Hlast : forall l, (max < l <= MAXBITS)%nat -> total lens codes l = 0%nat.

(** The loop stands at the [i]-th symbol of length [l]. *)
Definition at_symbol (s : fill_state) (l i : nat) : Prop :=
  (1 <= l <= max)%nat /\ f_len s = Z.of_nat l /\ (i < total lens codes l)%nat /\
  f_sym s = (shorter lens codes l + i)%nat /\ length (f_count s) = S MAXBITS /\
  getn (f_count s) l = Z.of_nat (total lens codes l - i) /\
  forall j, (l < j <= MAXBITS)%nat -> getn (f_count s) j = Z.of_nat (total lens codes j).

Lemma new_subtable_frame s :
  let s' := fst (new_subtable type root (Z.of_nat max) s) in
  f_len s' = f_len s /\ f_sym s' = f_sym s /\ f_count s' = f_count s /\ f_huff s' = f_huff s.
Proof. unfold new_subtable. destruct (_ && _); [|done]. by destruct (negb _). Qed.

Lemma at_symbol_subtable s l i :
  at_symbol s l i -> at_symbol (fst (new_subtable type root (Z.of_nat max) s)) l i.
Proof. destruct (new_subtable_frame s) as (E1 & E2 & E3 & _). unfold at_symbol. by rewrite E1, E2, E3. Qed.

(** The next length that occurs. *)
Lemma next_length l : (1 <= l)%nat -> (l < max)%nat -> total lens codes max <> 0%nat ->
  exists l', (l < l' <= max)%nat /\ (0 < total lens codes l')%nat /\
    shorter lens codes l' = shorter lens codes (S l).
Proof.
  intros H1 H2 Hm. remember (max - S l)%nat as n eqn:En. revert l H1 H2 En.
  induction n as [|n IH]; intros l H1 H2 En.
  - assert (max = S l) as -> by lia. exists (S l). split; [lia|]. split; [lia|done].
  - destruct (Nat.eq_dec (total lens codes (S l)) 0%nat) as [E|N].
    + destruct (IH (S l)) as (l' & H3 & H4 & H5); [lia..|]. exists l'. split; [lia|]. split; [done|].
      rewrite H5, (shorter_SS _ _ (S l)) by lia. lia.
    + exists (S l). split; [lia|]. split; [lia|done].
Qed.

Lemma of_length_nth l i : (i < total lens codes l)%nat ->
  getn lens (nth i (of_length lens codes l) 0%nat) = Z.of_nat l.
Proof.
  intros Hi. assert (Hin : In (nth i (of_length lens codes l) 0%nat) (of_length lens codes l)) by by apply nth_In.
  unfold of_length in Hin. apply filter_In in Hin as [_ E]. by apply Z.eqb_eq in E.
Qed.

(** What a turn leaves alone. *)
Definition carries (s : fill_state) (table : list code) (s' : fill_state) : Prop :=
  f_huff s' = next_huff (f_huff s) (f_len s) /\ f_sym s' = S (f_sym s) /\ f_table s' = table /\
  f_next s' = f_next s /\ f_curr s' = f_curr s /\ f_drop s' = f_drop s /\ f_low s' = f_low s /\ f_used s' = f_used s.

Lemma fill_turn_symbol s table l i : total lens codes max <> 0%nat -> at_symbol s l i ->
  match fill_turn type lens work root (Z.of_nat max) s table with
  | inl s' => l = max /\ S i = total lens codes l /\ f_len s' = Z.of_nat l /\ carries s table s'
  | inr r => exists s' l' i', r = new_subtable type root (Z.of_nat max) s' /\ at_symbol s' l' i' /\ carries s table s'
  end.
Proof using Hwork Hmax Hlast Hcodes.
  intros Hm (Hl & El & Hi & Es & Hc & Ec & Ej). pose proof (total_le lens codes l) as Ht.
  unfold fill_turn. rewrite El, get_of_nat, Nat2Z.id, Ec.
  rewrite u16_id by (change (2 ^ 16) with 65536; lia).
  unfold MAXBITS in *.
  destruct (Z.eqb_spec (Z.of_nat (total lens codes l - i) - 1) 0) as [E|N].
  - destruct (Z.eqb_spec (Z.of_nat l) (Z.of_nat max)) as [Em|Nm];
      [split; [lia|]; split; [lia|]; split; [done|]; unfold carries; by rewrite El|].
    destruct (next_length l) as (l' & H1 & H2 & H3); [lia..|].
    assert (Es' : S (f_sym s) = (shorter lens codes l' + 0)%nat).
    { rewrite Es, H3, shorter_SS by lia. lia. }
    eexists _, l', 0%nat. split; [done|]. split; [|unfold carries; by rewrite El].
    unfold at_symbol, MAXBITS. cbn [f_len f_sym f_count].
    rewrite Es', (Hwork l' 0%nat) by (unfold MAXBITS; lia). rewrite Nat2Z.id, of_length_nth by done.
    split; [lia|]. split; [done|]. split; [done|]. split; [done|].
    split; [by rewrite length_setn|]. split; [|intros j Hj]; rewrite getn_setn by lia.
    + destruct (Nat.eqb_spec l' l); [lia|]. rewrite Ej by lia. lia.
    + destruct (Nat.eqb_spec j l); [lia|]. apply Ej. lia.
  - eexists _, l, (S i). split; [done|]. split; [|unfold carries; by rewrite El].
    unfold at_symbol, MAXBITS. cbn [f_len f_sym f_count].
    split; [lia|]. split; [done|]. split; [lia|]. split; [lia|].
    split; [by rewrite length_setn|]. split; [|intros j Hj]; rewrite getn_setn by lia.
    + rewrite Nat.eqb_refl. lia.
    + destruct (Nat.eqb_spec j l); [lia|]. apply Ej. lia.
Qed.

End Loop.
End Sorting.

(** ** Over-subscribed and incomplete codes *)

(** The share of the 2^15 code words of 15 bits the symbols below [k] take. *)
Fixpoint kraft (lens : list Z) (k : nat) : Z :=
  match k with
  | O => 0
  | S k => kraft lens k + (if getn lens k =? 0 then 0 else 2 ^ (Z.of_nat MAXBITS - getn lens k))
  end.

Fixpoint weighted (f : nat -> Z) (len n : nat) : Z :=
  match n with
  | O => 0
  | S n => f len * 2 ^ Z.of_nat n + weighted f (S len) n
  end.

Lemma weighted_add f g n : forall len, weighted (fun l => f l + g l) len n = weighted f len n + weighted g len n.
Proof. induction n as [|n IH]; intros len; cbn [weighted]; [done|]. rewrite IH. lia. Qed.

Lemma weighted_nonneg f n : forall len,
  (forall l, (len <= l < len + n)%nat -> 0 <= f l) -> 0 <= weighted f len n.
Proof.
  induction n as [|n IH]; intros len Hf; cbn [weighted]; [lia|].
  pose proof (Hf len ltac:(lia)). pose proof (IH (S len)). assert (0 <= weighted f (S len) n).
  { apply IH. intros. apply Hf. lia. }
  pose proof (Z.pow_pos_nonneg 2 (Z.of_nat n)). nia.
Qed.

Lemma weighted_ext f g n : forall len,
  (forall l, (len <= l < len + n)%nat -> f l = g l) -> weighted f len n = weighted g len n.
Proof.
  induction n as [|n IH]; intros len Hf; cbn [weighted]; [done|].
  rewrite (Hf len) by lia. f_equal. apply IH. intros. apply Hf. lia.
Qed.

Lemma weighted_point m n : forall len, (len <= m < len + n)%nat ->
  weighted (fun l => if (l =? m)%nat then 1 else 0) len n = 2 ^ Z.of_nat (len + n - 1 - m).
Proof.
  assert (Z0 : forall n len, (m < len)%nat -> weighted (fun l => if (l =? m)%nat then 1 else 0) len n = 0).
  { clear n. induction n as [|n IH]; intros len Hl; cbn [weighted]; [done|].
    destruct (Nat.eqb_spec len m); [lia|]. rewrite IH by lia. lia. }
  induction n as [|n IH]; intros len Hl; [lia|]. cbn [weighted].
  destruct (Nat.eqb_spec len m) as [->|N].
  - rewrite Z0 by lia. replace (m + S n - 1 - m)%nat with n by lia. lia.
  - rewrite IH by lia. replace (S len + n - 1 - m)%nat with (len + S n - 1 - m)%nat by lia. lia.
Qed.

Lemma kraft_total lens codes : lens_ok lens codes ->
  forall k, (k <= codes)%nat -> kraft lens k = weighted (fun l => Z.of_nat (total lens k l)) 1 MAXBITS.
Proof.
  intros Hl. induction k as [|k IH]; intros Hk; [done|]. pose proof (Hl k ltac:(lia)) as Hr.
  cbn [kraft]. rewrite IH by lia.
  set (m := Z.to_nat (getn lens k)). assert (Em : getn lens k = Z.of_nat m) by lia.
  assert (E : forall l, (1 <= l < 1 + MAXBITS)%nat ->
    Z.of_nat (total lens (S k) l) = Z.of_nat (total lens k l) + (if (l =? m)%nat then 1 else 0)).
  { intros l Hl'. unfold total. rewrite of_length_S, length_app, Em.
    destruct (Z.eqb_spec (Z.of_nat m) (Z.of_nat l)), (Nat.eqb_spec l m); cbn [length]; lia. }
  rewrite (weighted_ext _ _ _ _ E), weighted_add. f_equal. rewrite Em.
  destruct (Z.eqb_spec (Z.of_nat m) 0) as [E0|N0].
  - rewrite (weighted_ext _ (fun _ => 0)); [done|]. intros l Hl'. destruct (Nat.eqb_spec l m); lia.
  - rewrite weighted_point by lia. f_equal. lia.
Qed.

Lemma space_left_spec count n : forall len left_,
  0 <= left_ -> (forall l, (len <= l < len + n)%nat -> 0 <= getn count l) ->
  space_left count len n left_ =
    let v := left_ * 2 ^ Z.of_nat n - weighted (getn count) len n in
    if v <? 0 then None else Some v.
Proof.
  induction n as [|n IH]; intros len left_ Hl Hc; cbn [space_left weighted].
  - cbv zeta. rewrite Z.mul_1_r, Z.sub_0_r. by destruct (Z.ltb_spec left_ 0); [lia|].
  - rewrite Z.shiftl_mul_pow2 by lia. change (2 ^ 1) with 2. cbv zeta.
    pose proof (Z.pow_pos_nonneg 2 (Z.of_nat n) ltac:(lia) ltac:(lia)) as Hp.
    rewrite Nat2Z.inj_succ, Z.pow_succ_r by lia.
    destruct (Z.ltb_spec (left_ * 2 - getn count len) 0) as [L|G].
    + assert (0 <= weighted (getn count) (S len) n) by (apply weighted_nonneg; intros; apply Hc; lia).
      destruct (Z.ltb_spec (left_ * (2 * 2 ^ Z.of_nat n) -
         (getn count len * 2 ^ Z.of_nat n + weighted (getn count) (S len) n)) 0); [done|nia].
    + rewrite IH by (try lia; intros; apply Hc; lia). cbv zeta.
      replace (left_ * (2 * 2 ^ Z.of_nat n) - (getn count len * 2 ^ Z.of_nat n + weighted (getn count) (S len) n))
        with ((left_ * 2 - getn count len) * 2 ^ Z.of_nat n - weighted (getn count) (S len) n) by lia. done.
Qed.

Lemma counts_kraft lens codes : lens_ok lens codes -> Z.of_nat codes < 65536 ->
  weighted (getn (count_lengths lens codes)) 1 MAXBITS = kraft lens codes.
Proof.
  intros Hl Hc. rewrite (kraft_total lens codes Hl codes) by done. apply weighted_ext.
  intros l Hl'. apply count_lengths_spec; [done|done|lia].
Qed.

Lemma total_occurs lens codes l : (0 < total lens codes l)%nat <->
  exists sym, (sym < codes)%nat /\ getn lens sym = Z.of_nat l.
Proof.
  unfold total. split.
  - intros H. destruct (of_length lens codes l) as [|sym ?] eqn:E; [cbn in H; lia|].
    assert (Hin : In sym (of_length lens codes l)) by (rewrite E; by left).
    apply filter_In in Hin as [H1 H2]. apply in_seq in H1. apply Z.eqb_eq in H2.
    exists sym. split; [lia|done].
  - intros (sym & H1 & H2). assert (Hin : In sym (of_length lens codes l)).
    { apply filter_In. split; [apply in_seq; lia|]. by apply Z.eqb_eq. }
    destruct (of_length lens codes l); [done|]. cbn. lia.
Qed.

Lemma shorter_zero lens codes l :
  (forall j, (1 <= j < l)%nat -> total lens codes j = 0%nat) -> shorter lens codes l = 0%nat.
Proof.
  induction l as [|[|l] IH]; intros Hz; [done|done|]. rewrite shorter_SS by lia.
  rewrite IH, (Hz (S l)) by (try lia; intros; apply Hz; lia). done.
Qed.

(** The longest length that occurs, and the first symbol of the shortest one. *)
Lemma lengths_bounds lens codes : lens_ok lens codes -> Z.of_nat codes < 65536 ->
  let count := count_lengths lens codes in
  let max := longest count MAXBITS in
  let min := shortest count 1 (max - 1) in
  (max <= MAXBITS)%nat /\
  (forall l, (max < l <= MAXBITS)%nat -> total lens codes l = 0%nat) /\
  (max = 0%nat <-> forall sym, (sym < codes)%nat -> getn lens sym = 0) /\
  (max <> 0%nat -> total lens codes max <> 0%nat /\ (1 <= min <= max)%nat /\
     (0 < total lens codes min)%nat /\ shorter lens codes min = 0%nat).
Proof.
  intros Hl Hc count max min. destruct (count_lengths_spec lens codes Hl Hc) as [_ Hcount].
  destruct (longest_spec count MAXBITS) as (M1 & M2 & M3). fold max in M1, M2, M3.
  assert (T : forall l, (max < l <= MAXBITS)%nat -> total lens codes l = 0%nat).
  { intros l Hll. pose proof (M3 l Hll) as E. unfold count in E. rewrite Hcount in E by lia. lia. }
  assert (Hm : max <> 0%nat -> total lens codes max <> 0%nat).
  { intros N. pose proof (M2 N) as E. unfold count in E. rewrite Hcount in E by lia. lia. }
  split; [done|]. split; [done|]. split.
  - split.
    + intros E0 sym Hs. pose proof (Hl sym Hs) as Hr. destruct (Z.eq_dec (getn lens sym) 0) as [|N]; [done|].
      assert (X : (0 < total lens codes (Z.to_nat (getn lens sym)))%nat).
      { apply total_occurs. exists sym. split; [done|lia]. }
      rewrite T in X; lia.
    + intros Hz. destruct (Nat.eq_dec max 0%nat) as [|N]; [done|]. pose proof (Hm N) as X.
      assert (P : (0 < total lens codes max)%nat) by lia.
      apply total_occurs in P as (sym & Hs & E). rewrite Hz in E by done. lia.
  - intros N. pose proof (Hm N) as X. split; [done|].
    destruct (shortest_spec count (max - 1) 1) as (S1 & S2 & S3). fold min in S1, S2, S3.
    assert (Z0 : forall j, (1 <= j < min)%nat -> total lens codes j = 0%nat).
    { intros j Hj. pose proof (S2 j Hj) as E. unfold count in E. rewrite Hcount in E by lia. lia. }
    split; [lia|]. split; [|by apply shorter_zero].
    destruct (Nat.eq_dec min max) as [->|]; [lia|].
    pose proof (S3 ltac:(lia)) as E. unfold count in E. rewrite Hcount in E by lia. lia.
Qed.

Lemma list_cells (l : list Z) n : length l = n -> l = map (getn l) (seq 0 n).
Proof.
  intros <-. apply list_eq. intros i. unfold getn. rewrite list_lookup_fmap.
  destruct (Nat.lt_ge_cases i (length l)) as [L|G].
  - rewrite lookup_seq_lt by done. cbn. rewrite nth_lookup.
    destruct (lookup_lt_is_Some_2 l i L) as [x ->]. done.
  - rewrite lookup_seq_ge by done. by apply lookup_ge_None_2.
Qed.

(** The tables of inffixed.h are those [inflate_table] builds for the fixed
    code, as [makefixed] prints them: whatever [lens] and [work] of the inflate
    state hold, [BUILDFIXED] and the generated file give the same decoder. *)
Lemma fixed_tables_generated (lens work : list Z)
    (Hl : length lens = 320%nat) (Hw : length work = 288%nat) :
  exists t, build_fixed lens work = Some t /\ makefixed t = (lenfix, distfix).
Proof.
  rewrite (list_cells lens 320 Hl), (list_cells work 288 Hw). clear Hl Hw.
  eexists. split; [vm_compute; reflexivity|]. vm_compute. reflexivity.
Qed.

Lemma fixed_tables_generated_witness :
  exists t, build_fixed (replicate 320 7) (replicate 288 9) = Some t /\ makefixed t = (lenfix, distfix).
Proof. exact (fixed_tables_generated (replicate 320 7) (replicate 288 9) eq_refl eq_refl). Defined.
