(* ===== verification/InfTable.v ===== *)
(** * InfTable: what the tables of inflate_table hold (core/zlib/inftrees.c)

    The main loop of [inflate_table] takes the symbols in the order of their codes.  A
    code word of [l] bits takes [2 ^ (15 - l)] places of the [2 ^ 15] that words of 15
    bits have; [pos] is the first place of a symbol's.  The bits of a word come with
    the first one lowest, so that the variable [huff] is the place with its bits
    reversed.  The invariant of the loop: every word whose place lies before the
    current one is found in the tables. *)

From S2P Require Import Prelude.
From S2P Require Import Inftrees.
#[local] Open Scope Z_scope.

(** ** Reversing bits *)

(** The [n] low bits of [x] in the other order. *)
Fixpoint rv (n : nat) (x : Z) : Z :=
  match n with
  | O => 0
  | S n => rv n (x / 2) + (x mod 2) * 2 ^ Z.of_nat n
  end.

Lemma pow2_S n : 2 ^ Z.of_nat (S n) = 2 * 2 ^ Z.of_nat n.
Proof. rewrite Nat2Z.inj_succ, Z.pow_succ_r by lia. done. Qed.

Lemma pow2_pos n : 0 < 2 ^ Z.of_nat n.
Proof. apply Z.pow_pos_nonneg; lia. Qed.

Lemma rv_bounds n : forall x, 0 <= rv n x < 2 ^ Z.of_nat n.
Proof.
  induction n as [|n IH]; intros x; [cbn; lia|]. cbn [rv]. rewrite pow2_S.
  pose proof (IH (x / 2)). pose proof (Z.mod_pos_bound x 2). nia.
Qed.

Lemma mod2_div x n : (x mod 2 ^ Z.of_nat (S n)) / 2 = (x / 2) mod 2 ^ Z.of_nat n.
Proof.
  rewrite pow2_S, Z.rem_mul_r by (pose proof (pow2_pos n); lia).
  rewrite Z.mul_comm, Z.div_add by lia.
  rewrite (Z.div_small (x mod 2)); [lia|apply Z.mod_pos_bound; lia].
Qed.

Lemma mod2_mod x n : (x mod 2 ^ Z.of_nat (S n)) mod 2 = x mod 2.
Proof.
  rewrite pow2_S, Z.rem_mul_r by (pose proof (pow2_pos n); lia).
  rewrite Z.mul_comm, Z_mod_plus_full, Z.mod_mod by lia. done.
Qed.

(** Only the low bits matter. *)
Lemma rv_mod n : forall x, rv n (x mod 2 ^ Z.of_nat n) = rv n x.
Proof. induction n as [|n IH]; intros x; [done|]. cbn [rv]. by rewrite mod2_div, mod2_mod, IH. Qed.

Lemma rv_shift n d : forall x, rv (n + d) (x * 2 ^ Z.of_nat d) = rv n x.
Proof.
  induction d as [|d IH]; intros x; [by rewrite Nat.add_0_r, Z.mul_1_r|].
  rewrite Nat.add_succ_r. cbn [rv]. rewrite pow2_S.
  replace (x * (2 * 2 ^ Z.of_nat d)) with (x * 2 ^ Z.of_nat d * 2) by ring.
  rewrite Z.div_mul, Z.mod_mul, IH by lia. lia.
Qed.

(** The low bits of the reverse are the high bits. *)
Lemma rv_low m d : forall x, rv (m + d) x mod 2 ^ Z.of_nat m = rv m (x / 2 ^ Z.of_nat d).
Proof.
  induction d as [|d IH]; intros x.
  - rewrite Nat.add_0_r, Z.div_1_r. apply Z.mod_small, rv_bounds.
  - rewrite Nat.add_succ_r. cbn [rv]. rewrite Nat2Z.inj_add, Z.pow_add_r by lia.
    replace (rv (m + d) (x / 2) + x mod 2 * (2 ^ Z.of_nat m * 2 ^ Z.of_nat d))
      with (rv (m + d) (x / 2) + (x mod 2 * 2 ^ Z.of_nat d) * 2 ^ Z.of_nat m) by ring.
    rewrite Z_mod_plus_full, IH, Z.div_div by (pose proof (pow2_pos d); lia). by rewrite pow2_S.
Qed.

(** The highest bit comes out lowest. *)
Lemma rv_top n : forall x, rv (S n) x = 2 * rv n x + (x / 2 ^ Z.of_nat n) mod 2.
Proof.
  induction n as [|n IH]; intros x; [cbn; rewrite Z.div_1_r; lia|].
  cbn [rv]. change (rv n (x / 2 / 2) + (x / 2) mod 2 * 2 ^ Z.of_nat n) with (rv (S n) (x / 2)).
  rewrite IH. cbn [rv]. rewrite pow2_S, Z.div_div by (pose proof (pow2_pos n); lia). ring.
Qed.

Lemma rv_rv n : forall x, rv n (rv n x) = x mod 2 ^ Z.of_nat n.
Proof.
  induction n as [|n IH]; intros x; [cbn; by rewrite Z.mod_1_r|].
  rewrite (rv_top n x). cbn [rv]. set (b := (x / 2 ^ Z.of_nat n) mod 2).
  assert (Hb : 0 <= b < 2) by (apply Z.mod_pos_bound; lia).
  replace ((2 * rv n x + b) / 2) with (rv n x) by (apply (Z.div_unique _ _ _ b); lia).
  replace ((2 * rv n x + b) mod 2) with b by (apply (Z.mod_unique _ _ (rv n x)); lia).
  rewrite IH, pow2_S, (Z.mul_comm 2), Z.rem_mul_r by (pose proof (pow2_pos n); lia). fold b. ring.
Qed.

(** The high bits of the reverse are the low bits. *)
Lemma rv_div m d : forall x, rv (m + d) x / 2 ^ Z.of_nat d = rv m x.
Proof.
  induction d as [|d IH]; intros x; [by rewrite Nat.add_0_r, Z.div_1_r|].
  rewrite Nat.add_succ_r, rv_top, pow2_S, <- Z.div_div by (pose proof (pow2_pos d); lia).
  set (b := (_ / _) mod 2). assert (Hb : 0 <= b < 2) by (apply Z.mod_pos_bound; lia).
  replace ((2 * rv (m + d) x + b) / 2) with (rv (m + d) x) by (apply (Z.div_unique _ _ _ b); lia).
  apply IH.
Qed.

Lemma rv_inj n x y : 0 <= x < 2 ^ Z.of_nat n -> 0 <= y < 2 ^ Z.of_nat n -> rv n x = rv n y -> x = y.
Proof.
  intros Hx Hy E. apply (f_equal (rv n)) in E. rewrite !rv_rv in E.
  by rewrite !Z.mod_small in E.
Qed.

(** ** huff *)

Lemma land_low_bit huff n : 0 <= n -> Z.land huff (2 ^ n) = if Z.testbit huff n then 2 ^ n else 0.
Proof.
  intros Hn. apply Z.bits_inj'. intros i Hi. rewrite Z.land_spec, Z.pow2_bits_eqb by done.
  destruct (Z.eqb_spec n i) as [<-|N]; destruct (Z.testbit huff n) eqn:B;
    rewrite ?andb_true_r, ?andb_false_r, ?Z.bits_0, ?Z.pow2_bits_eqb by done; rewrite ?B; try done.
  - by rewrite Z.eqb_refl.
  - symmetry. by apply Z.eqb_neq.
Qed.

Lemma next_huff_1 l : (1 <= l <= 15)%nat -> u32 (Z.shiftl 1 (Z.of_nat l - 1)) = 2 ^ Z.of_nat (l - 1).
Proof.
  intros Hl. rewrite Z.shiftl_1_l. replace (Z.of_nat l - 1) with (Z.of_nat (l - 1)) by lia. apply u32_id.
  assert (2 ^ Z.of_nat (l - 1) <= 2 ^ 14) by (apply Z.pow_le_mono_r; lia).
  pose proof (pow2_pos (l - 1)). change (2 ^ 14) with 16384 in *. change (2 ^ 32) with 4294967296. lia.
Qed.

(** The backwards increment, on the lower [l] bits of a wider [huff]. *)
Definition bump (l : nat) (huff : Z) : Z :=
  let incr := match l with O => 0 | S l' => first_zero l huff (2 ^ Z.of_nat l') end in
  if negb (incr =? 0) then u32 (Z.land huff (incr - 1) + incr) else 0.

Lemma bump_spec l : forall huff x, (l <= 15)%nat -> 0 <= huff -> huff mod 2 ^ Z.of_nat l = rv l x ->
  bump l huff = rv l (x + 1).
Proof.
  induction l as [|l IH]; intros huff x Hl Hh E; [done|].
  assert (L : huff mod 2 ^ Z.of_nat l = rv l (x / 2)).
  { apply (f_equal (fun v => v mod 2 ^ Z.of_nat l)) in E. cbn [rv] in E.
    rewrite Z_mod_plus_full in E. rewrite (Z.mod_small (rv l _)) in E by apply rv_bounds.
    rewrite <- E, pow2_S, Z.mul_comm, Z.rem_mul_r by (pose proof (pow2_pos l); lia).
    rewrite Z.mul_comm, Z_mod_plus_full, Z.mod_mod by (pose proof (pow2_pos l); lia). done. }
  assert (B : Z.testbit huff (Z.of_nat l) = negb (x mod 2 =? 0)).
  { rewrite <- (Z.mod_pow2_bits_low huff (Z.of_nat (S l))) by lia. rewrite E. cbn [rv].
    rewrite Z.testbit_eqb by lia. rewrite Z.div_add by (pose proof (pow2_pos l); lia).
    rewrite (Z.div_small (rv l _)), Z.add_0_l by apply rv_bounds.
    destruct (Z.mod_pos_bound x 2) as [M1 M2]; [lia|].
    assert (D : x mod 2 = 0 \/ x mod 2 = 1) by lia. by destruct D as [-> | ->]. }
  unfold bump. cbn [first_zero]. rewrite land_low_bit, B by lia. cbn [rv].
  pose proof (pow2_pos l) as Pl. pose proof (rv_bounds l (x / 2)) as Rl.
  assert (Pb : 2 ^ Z.of_nat l <= 2 ^ 14) by (apply Z.pow_le_mono_r; lia). change (2 ^ 14) with 16384 in Pb.
  destruct (Z.eqb_spec (x mod 2) 0) as [E0|E0]; cbn [negb].
  - rewrite Z.eqb_refl. destruct (Z.eqb_spec (2 ^ Z.of_nat l) 0); [lia|]. cbn [negb].
    replace (2 ^ Z.of_nat l - 1) with (Z.ones (Z.of_nat l)) by (rewrite Z.ones_equiv; lia).
    rewrite Z.land_ones, L by lia. replace ((x + 1) / 2) with (x / 2) by (Z.div_mod_to_equations; lia).
    replace ((x + 1) mod 2) with 1 by (Z.div_mod_to_equations; lia).
    rewrite u32_id by (change (2 ^ 32) with 4294967296; lia). lia.
  - destruct (Z.eqb_spec (2 ^ Z.of_nat l) 0); [lia|].
    replace ((x + 1) / 2) with (x / 2 + 1) by (Z.div_mod_to_equations; lia).
    replace ((x + 1) mod 2) with 0 by (Z.div_mod_to_equations; lia). rewrite Z.mul_0_l, Z.add_0_r.
    rewrite <- (IH huff (x / 2) ltac:(lia) Hh L). unfold bump. destruct l as [|l].
    + done.
    + rewrite Z.shiftr_div_pow2, pow2_S by lia. change (2 ^ 1) with 2. rewrite Z.mul_comm, Z.div_mul by lia. done.
Qed.

Lemma next_huff_spec l huff x : (1 <= l <= 15)%nat -> huff = rv l x -> next_huff huff (Z.of_nat l) = rv l (x + 1).
Proof.
  intros Hl ->. rewrite <- (bump_spec l (rv l x) x); [|lia|apply rv_bounds|apply Z.mod_small, rv_bounds].
  unfold next_huff, bump. rewrite Nat2Z.id, next_huff_1 by done. destruct l as [|l]; [lia|].
  by rewrite Nat.sub_succ, Nat.sub_0_r.
Qed.

(** ** Places *)

(** The place of a word whose low 15 bits are [h]. *)
Definition place (h : Z) : Z := rv 15 h.

Lemma place_bounds h : 0 <= place h < 2 ^ 15.
Proof. apply (rv_bounds 15). Qed.

(** The first [m] bits of the word. *)
Lemma place_div h m : (m <= 15)%nat -> place h / 2 ^ Z.of_nat (15 - m) = rv m h.
Proof. intros Hm. unfold place. replace 15%nat with (m + (15 - m))%nat at 1 by lia. apply rv_div. Qed.

Lemma low_bits h m : (m <= 15)%nat -> h mod 2 ^ Z.of_nat m = rv m (place h / 2 ^ Z.of_nat (15 - m)).
Proof. intros Hm. by rewrite place_div, rv_rv. Qed.

Lemma low_place p m : (m <= 15)%nat -> rv 15 p mod 2 ^ Z.of_nat m = rv m (p / 2 ^ Z.of_nat (15 - m)).
Proof. intros Hm. replace 15%nat with (m + (15 - m))%nat at 1 by lia. apply rv_low. Qed.

(** Two words have the same first [m] bits when their places have. *)
Lemma same_low h p m : (m <= 15)%nat -> 0 <= p < 2 ^ 15 ->
  h mod 2 ^ Z.of_nat m = rv 15 p mod 2 ^ Z.of_nat m <-> place h / 2 ^ Z.of_nat (15 - m) = p / 2 ^ Z.of_nat (15 - m).
Proof.
  intros Hm Hp. rewrite low_bits, low_place by done. pose proof (place_bounds h) as Hh.
  assert (B : forall q, 0 <= q < 2 ^ 15 -> 0 <= q / 2 ^ Z.of_nat (15 - m) < 2 ^ Z.of_nat m).
  { intros q Hq. pose proof (pow2_pos (15 - m)). split; [apply Z.div_pos; lia|].
    apply Z.div_lt_upper_bound; [lia|]. rewrite <- Z.pow_add_r by lia.
    replace (Z.of_nat (15 - m) + Z.of_nat m) with 15 by lia. lia. }
  split; [|by intros ->]. apply rv_inj; by apply B.
Qed.

Section Places.
Context (lens : list Z) (codes : nat).
Hypothesis Hlens : lens_ok lens codes.

Abbreviation T l := (total lens codes l) (only parsing).

(** What a symbol of [l] bits takes, and where those of [l] bits begin. *)
Definition share (l : nat) : Z := 2 ^ Z.of_nat (15 - l).
Fixpoint first_pos (l : nat) : Z :=
  match l with
  | O => 0
  | S l' => first_pos l' + match l' with O => 0 | _ => Z.of_nat (T l') * share l' end
  end.
Definition pos (l i : nat) : Z := first_pos l + Z.of_nat i * share l.

Lemma share_pos l : 0 < share l.
Proof. apply pow2_pos. Qed.

Lemma share_mul l m : (l <= m <= 15)%nat -> share l = 2 ^ Z.of_nat (m - l) * share m.
Proof. intros H. unfold share. rewrite <- Z.pow_add_r by lia. f_equal. lia. Qed.

Lemma first_pos_S l : (1 <= l)%nat -> first_pos (S l) = first_pos l + Z.of_nat (T l) * share l.
Proof. destruct l; [lia|done]. Qed.

Lemma first_pos_mono l l' : (l <= l')%nat -> first_pos l <= first_pos l'.
Proof.
  induction 1 as [|l' H IH]; [lia|]. etransitivity; [exact IH|]. cbn [first_pos].
  destruct l' as [|l']; [lia|]. pose proof (share_pos (S l')). nia.
Qed.

Lemma first_pos_kraft : first_pos 16 = kraft lens codes.
Proof using Hlens.
  rewrite (kraft_total lens codes Hlens codes) by done.
  assert (G : forall n l, (l + n = 16)%nat -> (1 <= l)%nat ->
    first_pos l + weighted (fun l => Z.of_nat (T l)) l n = first_pos 16).
  { induction n as [|n IH]; intros l Hl H1; cbn [weighted].
    - replace l with 16%nat by lia. lia.
    - rewrite <- (IH (S l)) by lia. rewrite first_pos_S by done. unfold share.
      replace (15 - l)%nat with n by lia. lia. }
  rewrite <- (G 15%nat 1%nat) by lia. done.
Qed.

Lemma pos_S l i : pos l (S i) = pos l i + share l.
Proof. unfold pos. lia. Qed.

Lemma pos_bound l i : (1 <= l <= 15)%nat -> (i <= T l)%nat -> 0 <= pos l i <= kraft lens codes.
Proof using Hlens.
  intros Hl Hi. rewrite <- first_pos_kraft. pose proof (first_pos_mono 0 l ltac:(lia)) as H0. cbn [first_pos] in H0.
  pose proof (first_pos_mono (S l) 16 ltac:(lia)) as H1. rewrite first_pos_S in H1 by lia.
  pose proof (share_pos l). unfold pos. nia.
Qed.

(** Places of [l] bits are multiples of [share l]. *)
Lemma first_pos_aligned l m : (l <= m <= 15)%nat -> (share m | first_pos l).
Proof.
  intros H. induction l as [|l IH]; [apply Z.divide_0_r|]. cbn [first_pos]. apply Z.divide_add_r; [apply IH; lia|].
  destruct l as [|l]; [apply Z.divide_0_r|]. apply Z.divide_mul_r. rewrite (share_mul (S l) m) by lia.
  apply Z.divide_factor_r.
Qed.

Lemma pos_aligned l i m : (l <= m <= 15)%nat -> (share m | pos l i).
Proof.
  intros H. apply Z.divide_add_r; [by apply first_pos_aligned|]. apply Z.divide_mul_r.
  rewrite (share_mul l m) by lia. apply Z.divide_factor_r.
Qed.

(** The places of the word are those of the [i]-th symbol of [l] bits. *)
Definition covers (l i : nat) (h : Z) : Prop := pos l i <= place h < pos l i + share l.

(** Which is so when the word begins with the symbol's code. *)
Lemma covers_code l i h : (1 <= l <= 15)%nat -> (i < T l)%nat -> kraft lens codes <= 2 ^ 15 ->
  h mod 2 ^ Z.of_nat l = rv 15 (pos l i) <-> covers l i h.
Proof using Hlens.
  intros Hl Hi Hk. pose proof (pos_bound l (S i) Hl ltac:(lia)) as B. rewrite pos_S in B.
  pose proof (pos_bound l i Hl ltac:(lia)). pose proof (share_pos l) as Sp.
  destruct (pos_aligned l i l ltac:(lia)) as [x Ex].
  assert (E : rv 15 (pos l i) mod 2 ^ Z.of_nat l = rv 15 (pos l i)).
  { apply Z.mod_small. rewrite Ex. unfold share. replace 15%nat with (l + (15 - l))%nat at 1 3 by lia.
    rewrite rv_shift. apply rv_bounds. }
  rewrite <- E at 1. rewrite same_low by lia. fold (share l). unfold covers.
  rewrite Ex, Z.div_mul by lia. split; intros Hc.
  - pose proof (Z.mul_div_le (place h) (share l) ltac:(lia)).
    pose proof (Z.mul_succ_div_gt (place h) (share l) ltac:(lia)). rewrite Hc in *. lia.
  - symmetry. apply (Z.div_unique _ _ _ (place h - x * share l)); lia.
Qed.

(** Two symbols have no place in common. *)
Lemma covers_unique l i l' i' h : (1 <= l <= 15)%nat -> (1 <= l' <= 15)%nat -> (i < T l)%nat -> (i' < T l')%nat ->
  covers l i h -> covers l' i' h -> l = l' /\ i = i'.
Proof.
  assert (A : forall l i l' i', (1 <= l)%nat -> (l < l')%nat -> (i < T l)%nat -> covers l i h -> covers l' i' h -> False).
  { clear. intros l i l' i' H1 Hl Hi [_ C] [C' _]. pose proof (first_pos_mono (S l) l' ltac:(lia)) as M.
    rewrite first_pos_S in M by done. pose proof (share_pos l). pose proof (share_pos l'). unfold pos in *. nia. }
  intros Hl Hl' Hi Hi' C C'. destruct (Nat.lt_trichotomy l l') as [L|[->|L]].
  - exfalso. by eapply (A l i l' i'); [lia|..].
  - split; [done|]. destruct C, C'. unfold pos in *. pose proof (share_pos l'). nia.
  - exfalso. by eapply (A l' i' l i); [lia|..].
Qed.
End Places.

(** ** Entries *)

Definition ent (t : list code) (j : Z) : code := nth (Z.to_nat j) t (mk_code 0 0 0).

Lemma ent_insert t a b v : 0 <= a -> 0 <= b ->
  ent (<[Z.to_nat b := v]> t) a = if (a =? b) && (a <? Z.of_nat (length t)) then v else ent t a.
Proof.
  intros Ha Hb. unfold ent. rewrite !nth_lookup. destruct (Z.eqb_spec a b) as [->|N]; cbn [andb].
  - destruct (Z.ltb_spec b (Z.of_nat (length t))).
    + rewrite list_lookup_insert_eq by lia. done.
    + by rewrite list_insert_ge by lia.
  - rewrite list_lookup_insert_ne by lia. done.
Qed.

(** [m] entries, [incr] apart. *)
Lemma fill_entries_spec here m : forall fuel incr pos t, (1 <= m <= fuel)%nat -> 0 < incr -> 0 <= pos ->
  Z.of_nat m * incr < 2 ^ 32 ->
  exists t', fill_entries fuel incr (Z.of_nat m * incr) pos here t = Some t' /\ length t' = length t /\
    forall a, 0 <= a -> ent t' a =
      if (pos <=? a) && (a <? pos + Z.of_nat m * incr) && ((a - pos) mod incr =? 0) && (a <? Z.of_nat (length t))
      then here else ent t a.
Proof.
  induction m as [|m IH]; intros fuel incr pos t Hm Hi Hp Hb; [lia|]. destruct fuel as [|fuel]; [lia|].
  cbn [fill_entries]. replace (Z.of_nat (S m) * incr - incr) with (Z.of_nat m * incr) by lia.
  rewrite u32_id by lia. set (t1 := <[_ := _]> t). assert (L1 : length t1 = length t) by apply length_insert.
  assert (E1 : forall a, 0 <= a -> ent t1 a =
    if (a =? pos + Z.of_nat m * incr) && (a <? Z.of_nat (length t)) then here else ent t a).
  { intros a Ha. apply ent_insert; lia. }
  assert (Last : forall a, 0 <= a ->
    (pos <=? a) && (a <? pos + Z.of_nat (S m) * incr) && ((a - pos) mod incr =? 0)
    = (a =? pos + Z.of_nat m * incr) || ((pos <=? a) && (a <? pos + Z.of_nat m * incr) && ((a - pos) mod incr =? 0))).
  { intros a Ha. destruct (Z.eqb_spec a (pos + Z.of_nat m * incr)) as [E|N]; cbn [orb].
    - replace (a - pos) with (Z.of_nat m * incr) by lia. rewrite Z.mod_mul, Z.eqb_refl, andb_true_r by lia.
      destruct (Z.leb_spec pos a), (Z.ltb_spec a (pos + Z.of_nat (S m) * incr)); lia || done.
    - destruct (Z.eqb_spec ((a - pos) mod incr) 0) as [E0|]; [|by rewrite !andb_false_r]. rewrite !andb_true_r.
      apply Z.mod_divide in E0 as [q Eq]; [|lia].
      destruct (Z.leb_spec pos a); cbn [andb]; [|done].
      rewrite Nat2Z.inj_succ, Z.mul_succ_l. assert (Nq : q <> Z.of_nat m) by (intros ->; lia).
      destruct (Z.ltb_spec a (pos + (Z.of_nat m * incr + incr))), (Z.ltb_spec a (pos + Z.of_nat m * incr)); try done;
        exfalso; [|lia]. assert (q < Z.of_nat m + 1 /\ Z.of_nat m <= q) as []; [split; nia|lia]. }
  destruct (Z.eqb_spec (Z.of_nat m * incr) 0) as [E0|N0].
  - assert (m = 0%nat) as -> by nia. exists t1. split; [done|]. split; [done|]. intros a Ha. rewrite E1, Last by done.
    cbn [Z.of_nat] in *. rewrite Z.mul_0_l, Z.add_0_r.
    destruct (Z.eqb_spec a pos) as [->|N]; cbn [orb andb]; [done|].
    destruct (Z.leb_spec pos a), (Z.ltb_spec a pos); cbn [andb]; try lia; done.
  - destruct (IH fuel incr pos t1) as (t' & E' & L' & H'); [lia|done|done|lia|].
    exists t'. split; [done|]. split; [lia|]. intros a Ha. rewrite H', Last, L1, E1 by done.
    destruct (_ && (_ mod _ =? 0)) eqn:B; rewrite ?orb_true_r, ?orb_false_r; cbn [andb].
    + destruct (a <? Z.of_nat (length t)); [done|]. by rewrite andb_false_r.
    + done.
Qed.

(** Which of them a word [k] looks at. *)
Lemma spread_index b g k e c : (e <= c)%nat -> 0 <= g < 2 ^ Z.of_nat e ->
  (b + g <=? b + k mod 2 ^ Z.of_nat c) && (b + k mod 2 ^ Z.of_nat c <? b + g + 2 ^ Z.of_nat c) &&
    ((b + k mod 2 ^ Z.of_nat c - (b + g)) mod 2 ^ Z.of_nat e =? 0) = (k mod 2 ^ Z.of_nat e =? g).
Proof.
  intros Hec Hg. pose proof (pow2_pos e). pose proof (pow2_pos c).
  assert (D : (2 ^ Z.of_nat e | 2 ^ Z.of_nat c))
    by (replace c with (c - e + e)%nat by lia; rewrite Nat2Z.inj_add, Z.pow_add_r by lia; apply Z.divide_factor_r).
  rewrite (Znumtheory.Zmod_div_mod (2 ^ Z.of_nat e) (2 ^ Z.of_nat c) k) by done.
  pose proof (Z.mod_pos_bound k (2 ^ Z.of_nat c) ltac:(lia)) as Hm. set (m := k mod _) in *.
  replace (b + m - (b + g)) with (m - g) by lia.
  destruct (Z.eqb_spec (m mod 2 ^ Z.of_nat e) g) as [E|N].
  - pose proof (Z.mod_le m (2 ^ Z.of_nat e) ltac:(lia) ltac:(lia)).
    assert ((m - g) mod 2 ^ Z.of_nat e = 0) as ->.
    { rewrite Zminus_mod, E, (Z.mod_small g), Z.sub_diag by lia. apply Z.mod_0_l. lia. }
    destruct (Z.leb_spec (b + g) (b + m)), (Z.ltb_spec (b + m) (b + g + 2 ^ Z.of_nat c)); [done|lia..].
  - destruct (Z.eqb_spec ((m - g) mod 2 ^ Z.of_nat e) 0) as [E0|]; [|by rewrite !andb_false_r].
    exfalso. apply N. apply Z.mod_divide in E0 as [q Eq]; [|lia].
    symmetry. apply (Z.mod_unique _ _ q); lia.
Qed.

(** The same for powers of two, as the loop calls it. *)
Lemma fill_entries_pow here a b pos t : (a <= b <= 15)%nat -> 0 <= pos ->
  exists t', fill_entries (Z.to_nat (2 ^ Z.of_nat b)) (2 ^ Z.of_nat a) (2 ^ Z.of_nat b) pos here t = Some t' /\
    length t' = length t /\
    forall j, 0 <= j -> ent t' j =
      if (pos <=? j) && (j <? pos + 2 ^ Z.of_nat b) && ((j - pos) mod 2 ^ Z.of_nat a =? 0) && (j <? Z.of_nat (length t))
      then here else ent t j.
Proof.
  intros Hab Hp. assert (E : 2 ^ Z.of_nat b = 2 ^ Z.of_nat (b - a) * 2 ^ Z.of_nat a)
    by (rewrite <- Z.pow_add_r by lia; f_equal; lia).
  pose proof (pow2_pos (b - a)). pose proof (pow2_pos a).
  assert (B : 2 ^ Z.of_nat b <= 2 ^ 15) by (apply Z.pow_le_mono_r; lia). change (2 ^ 15) with 32768 in B.
  destruct (fill_entries_spec here (Z.to_nat (2 ^ Z.of_nat (b - a))) (Z.to_nat (2 ^ Z.of_nat b)) (2 ^ Z.of_nat a) pos t)
    as (t' & E' & L' & H'); [nia|lia|lia|change (2 ^ 32) with 4294967296; nia|].
  rewrite Z2Nat.id, <- E in E', H' by lia. by exists t'.
Qed.

Lemma shl_pow n : (n <= 15)%nat -> u32 (Z.shiftl 1 (Z.of_nat n)) = 2 ^ Z.of_nat n.
Proof.
  intros Hn. rewrite Z.shiftl_1_l. apply u32_id. pose proof (pow2_pos n).
  assert (2 ^ Z.of_nat n <= 2 ^ 15) by (apply Z.pow_le_mono_r; lia).
  change (2 ^ 15) with 32768 in *. change (2 ^ 32) with 4294967296. lia.
Qed.

(** ** The loop *)

Section Loop.
Context (type : codetype) (lens work : list Z) (codes root max : nat).
Hypothesis Hlens : lens_ok lens codes.
Hypothesis Hcodes : Z.of_nat codes < 65536.
Hypothesis Hkraft : kraft lens codes <= 2 ^ 15.
Hypothesis Hwork : sorted_work lens codes work.
Hypothesis Hroot : (1 <= root <= max)%nat.
Hypothesis Hmax : (max <= 15)%nat.
Hypothesis Hlast : forall l, (max < l <= MAXBITS)%nat -> total lens codes l = 0%nat.
Hypothesis Hlong : total lens codes max <> 0%nat.

Abbreviation T l := (total lens codes l) (only parsing).
Abbreviation P := (pos lens codes) (only parsing).
Abbreviation zroot := (Z.of_nat root) (only parsing).
Abbreviation entry_at l i drop :=
  (make_entry type work (getn work (shorter lens codes l + i)) (Z.of_nat l) drop) (only parsing).

(** The word [h] is found: in the root table, or behind an entry of it in a table of
    [cu] bits at [nx], which is one of those that are finished, or the one being
    filled. *)
Inductive found (s : fill_state) (h : Z) : Prop :=
  | found_root l i : (1 <= l <= root)%nat -> (i < T l)%nat -> covers lens codes l i h ->
      ent (f_table s) (h mod 2 ^ zroot) = entry_at l i 0 -> found s h
  | found_sub l i cu nx : (root < l <= root + cu)%nat -> (root + cu <= 15)%nat -> (i < T l)%nat ->
      covers lens codes l i h -> 2 ^ zroot <= nx ->
      (nx + 2 ^ Z.of_nat cu <= f_next s \/
       nx = f_next s /\ Z.of_nat cu = f_curr s /\ f_drop s = zroot /\ h mod 2 ^ zroot = f_low s) ->
      ent (f_table s) (h mod 2 ^ zroot) = mk_code (Z.of_nat cu) zroot nx ->
      ent (f_table s) (nx + (h / 2 ^ zroot) mod 2 ^ Z.of_nat cu) = entry_at l i zroot -> found s h.

(** The table being filled at a symbol of [l] bits whose place is [p]. *)
Inductive filling (s : fill_state) (l : nat) (p : Z) : Prop :=
  | in_root : (l <= root)%nat -> f_drop s = 0 -> f_next s = 0 -> f_curr s = zroot -> f_low s = 2 ^ 32 - 1 ->
      filling s l p
  | in_sub cu : (root < l <= root + cu)%nat -> (root + cu <= max)%nat -> f_drop s = zroot -> f_curr s = Z.of_nat cu ->
      2 ^ zroot <= f_next s -> f_low s = rv 15 p mod 2 ^ zroot ->
      (forall l', (root + cu < l' <= 15)%nat -> T l' <> 0%nat ->
         (p / share root + 1) * share root <= first_pos lens codes l') ->
      (f_used s <= Z.of_nat (length (f_table s)) < 65536 ->
         ent (f_table s) (f_low s) = mk_code (Z.of_nat cu) zroot (f_next s)) ->
      filling s l p.

(** The state before the entries of the [i]-th symbol of [l] bits are put. *)
Record inv (N : nat) (s : fill_state) (l i : nat) : Prop := {
  inv_at : at_symbol lens codes max s l i;
  inv_huff : f_huff s = rv 15 (P l i);
  inv_table : length (f_table s) = N;
  inv_used : f_used s = f_next s + 2 ^ f_curr s;
  inv_bound : 0 <= f_used s <= 2 ^ 15 * (1 + Z.of_nat (f_sym s));
  inv_filling : filling s l (P l i);
  inv_found : f_used s <= Z.of_nat N < 65536 -> forall h, 0 <= h -> place h < P l i -> found s h
}.

Lemma rv_0 n : rv n 0 = 0.
Proof. by induction n as [|n IH]; cbn [rv]; [|rewrite Z.div_0_l, IH by done]. Qed.

#[local] Opaque rv.

(** *** Words and the symbols they begin with *)

Lemma huff_code l i : (1 <= l <= 15)%nat -> rv 15 (P l i) = rv l (P l i / share l).
Proof using.
  clear. intros Hl. destruct (pos_aligned lens codes l i l ltac:(lia)) as [x ->]. pose proof (share_pos l).
  rewrite Z.div_mul by lia. unfold share. replace 15%nat with (l + (15 - l))%nat at 1 by lia. apply rv_shift.
Qed.

Lemma huff_bound l i : (1 <= l <= 15)%nat -> 0 <= rv 15 (P l i) < 2 ^ Z.of_nat l.
Proof using. intros Hl. rewrite huff_code by done. apply rv_bounds. Qed.

Lemma split_word h huff l : (root <= l)%nat -> 0 <= huff < 2 ^ Z.of_nat l ->
  h mod 2 ^ Z.of_nat l = huff <->
  h mod 2 ^ zroot = huff mod 2 ^ zroot /\ (h / 2 ^ zroot) mod 2 ^ Z.of_nat (l - root) = huff / 2 ^ zroot.
Proof using.
  clear. intros Hl Hh. pose proof (pow2_pos root). pose proof (pow2_pos (l - root)).
  assert (E : 2 ^ Z.of_nat l = 2 ^ zroot * 2 ^ Z.of_nat (l - root)) by (rewrite <- Z.pow_add_r by lia; f_equal; lia).
  rewrite E, Z.rem_mul_r by lia.
  pose proof (Z.mod_pos_bound h (2 ^ zroot) ltac:(lia)) as M1. set (a := h mod 2 ^ zroot) in *.
  set (b := (h / 2 ^ zroot) mod _). split.
  - intros <-. rewrite Z.mul_comm, Z_mod_plus_full, Z.div_add, Z.mod_small, Z.div_small by lia. lia.
  - intros [-> ->]. rewrite (Z.div_mod huff (2 ^ zroot)) at 3 by lia. lia.
Qed.

(** The words the [i]-th symbol of [l] bits is written for. *)
Lemma covers_eqb l i h : (1 <= l <= 15)%nat -> (i < T l)%nat ->
  (h mod 2 ^ Z.of_nat l =? rv 15 (P l i)) = true <-> covers lens codes l i h.
Proof using Hlens Hkraft. clear -Hlens Hkraft. intros Hl Hi. rewrite Z.eqb_eq. by apply covers_code. Qed.

Lemma not_covered l i h : (1 <= l <= 15)%nat -> (i < T l)%nat -> place h < P l i ->
  (h mod 2 ^ Z.of_nat l =? rv 15 (P l i)) = false.
Proof using Hlens Hkraft.
  clear -Hlens Hkraft. intros Hl Hi Hp. apply not_true_iff_false. intros [C _]%covers_eqb; [|done..]. lia.
Qed.

Lemma covers_or h l i : place h < P l i + share l -> place h < P l i \/ covers lens codes l i h.
Proof using. clear. intros H. unfold covers. lia. Qed.

(** *** The entries of a symbol *)

Definition with_table (s : fill_state) (t : list code) : fill_state :=
  mk_fill (f_huff s) (f_sym s) (f_len s) (f_next s) (f_curr s) (f_drop s) (f_low s) (f_used s) (f_count s) t.

(** What [put_entry] leaves in the table. *)
Lemma put_entry_spec s l i e c : at_symbol lens codes max s l i -> (e <= c <= 15)%nat ->
  f_len s - f_drop s = Z.of_nat e -> f_curr s = Z.of_nat c -> 0 <= f_next s -> 0 <= f_drop s ->
  0 <= f_huff s / 2 ^ f_drop s < 2 ^ Z.of_nat e ->
  exists t, put_entry type work s = Some t /\ length t = length (f_table s) /\
    (forall j, 0 <= j < f_next s -> ent t j = ent (f_table s) j) /\
    (forall j, f_next s + 2 ^ Z.of_nat c <= Z.of_nat (length (f_table s)) ->
       ent t (f_next s + j mod 2 ^ Z.of_nat c) =
         if j mod 2 ^ Z.of_nat e =? f_huff s / 2 ^ f_drop s then entry_at l i (f_drop s)
         else ent (f_table s) (f_next s + j mod 2 ^ Z.of_nat c)).
Proof using.
  clear. intros (_ & El & _ & Es & _) Hec Ee Ec Hn Hd Hg. unfold put_entry. rewrite Ee, Ec, !shl_pow, Z.shiftr_div_pow2 by lia.
  rewrite Es, El. destruct (fill_entries_pow (entry_at l i (f_drop s)) e c (f_next s + f_huff s / 2 ^ f_drop s) (f_table s))
    as (t & E & L & H); [lia|lia|]. exists t. split; [done|]. split; [done|]. split.
  - intros j Hj. rewrite H by lia. destruct (Z.leb_spec (f_next s + f_huff s / 2 ^ f_drop s) j); [lia|done].
  - intros j Hr. pose proof (pow2_pos c). pose proof (Z.mod_pos_bound j (2 ^ Z.of_nat c) ltac:(lia)).
    rewrite H, spread_index by lia. destruct (Z.ltb_spec (f_next s + j mod 2 ^ Z.of_nat c) (Z.of_nat (length (f_table s)))); [|lia].
    by rewrite andb_true_r.
Qed.

Lemma put_root N s l i : inv N s l i -> (l <= root)%nat -> f_drop s = 0 -> f_next s = 0 -> f_curr s = zroot ->
  exists t, put_entry type work s = Some t /\ length t = N /\
    (f_used s <= Z.of_nat N < 65536 -> forall h, 0 <= h -> place h < P l i + share l -> found (with_table s t) h).
Proof using Hlens Hkraft Hroot Hmax.
  clear -Hlens Hkraft Hroot Hmax. intros I Hlr Hd Hn Hc. pose proof (inv_at _ _ _ _ I) as A. destruct A as (Hl & El & Hi & A').
  destruct (put_entry_spec s l i l root) as (t & E & L & Low & H); try (lia || done);
    [rewrite Hd, (inv_huff _ _ _ _ I), Z.pow_0_r, Z.div_1_r; apply huff_bound; lia|].
  exists t. split; [done|]. split; [by rewrite L, (inv_table _ _ _ _ I)|].
  intros Hu h Hh Hp. rewrite Hn, Hd, (inv_huff _ _ _ _ I), Z.pow_0_r, Z.div_1_r in H.
  pose proof (inv_used _ _ _ _ I) as U. rewrite Hn, Hc in U. rewrite (inv_table _ _ _ _ I) in H.
  specialize (fun j => H j ltac:(lia)). destruct (covers_or _ _ _ Hp) as [Hp'|C].
  - pose proof (inv_found _ _ _ _ I Hu h Hh Hp') as F. pose proof (not_covered l i h ltac:(lia) Hi Hp') as NC.
    specialize (H h). rewrite NC, Z.add_0_l in H.
    destruct F as [l0 i0 H1 H2 H3 H4|l0 i0 cu nx _ _ _ H1 H2 [H3|[H3 _]]]; [|exfalso..].
    + apply (found_root _ _ l0 i0); [done..|]. by rewrite <- H4, <- H.
    + pose proof (pow2_pos cu). pose proof (pow2_pos root). lia.
    + pose proof (pow2_pos root). lia.
  - apply (found_root _ _ l i); [lia|done|done|]. specialize (H h).
    rewrite (proj2 (covers_eqb l i h ltac:(lia) Hi) C), Z.add_0_l in H. done.
Qed.

Lemma put_sub N s l i cu : inv N s l i -> (root < l <= root + cu)%nat -> (root + cu <= max)%nat ->
  f_drop s = zroot -> f_curr s = Z.of_nat cu -> 2 ^ zroot <= f_next s -> f_low s = rv 15 (P l i) mod 2 ^ zroot ->
  (f_used s <= Z.of_nat (length (f_table s)) < 65536 ->
     ent (f_table s) (f_low s) = mk_code (Z.of_nat cu) zroot (f_next s)) ->
  exists t, put_entry type work s = Some t /\ length t = N /\
    (f_used s <= Z.of_nat N < 65536 ->
       ent t (f_low s) = mk_code (Z.of_nat cu) zroot (f_next s) /\
       forall h, 0 <= h -> place h < P l i + share l -> found (with_table s t) h).
Proof using Hlens Hkraft Hroot Hmax.
  clear -Hlens Hkraft Hroot Hmax. intros I Hl1 Hl2 Hd Hc Hn Hlow Hent.
  pose proof (inv_at _ _ _ _ I) as (Hl & El & Hi & _). pose proof (inv_huff _ _ _ _ I) as Eh.
  pose proof (huff_bound l i ltac:(lia)) as Hb. pose proof (pow2_pos root) as P2.
  assert (Hg : 0 <= rv 15 (P l i) / 2 ^ zroot < 2 ^ Z.of_nat (l - root)).
  { split; [apply Z.div_pos; lia|]. apply Z.div_lt_upper_bound; [lia|]. rewrite <- Z.pow_add_r by lia.
    replace (zroot + Z.of_nat (l - root)) with (Z.of_nat l) by lia. lia. }
  destruct (put_entry_spec s l i (l - root) cu) as (t & E & L & Low & H); try lia;
    [apply (inv_at _ _ _ _ I)|by rewrite Hd, Eh|].
  exists t. split; [done|]. split; [by rewrite L, (inv_table _ _ _ _ I)|]. intros Hu.
  pose proof (inv_used _ _ _ _ I) as U. rewrite Hc in U. rewrite (inv_table _ _ _ _ I) in H, Hent.
  specialize (fun j => H j ltac:(lia)). rewrite Hd, Eh in H.
  assert (R : forall h, ent t (h mod 2 ^ zroot) = ent (f_table s) (h mod 2 ^ zroot)).
  { intros h. apply Low. pose proof (Z.mod_pos_bound h (2 ^ zroot)). lia. }
  assert (EL : ent t (f_low s) = mk_code (Z.of_nat cu) zroot (f_next s)).
  { rewrite <- Hent, Hlow by done. apply R. }
  split; [done|]. intros h Hh Hp. destruct (covers_or _ _ _ Hp) as [Hp'|C].
  - destruct (inv_found _ _ _ _ I Hu h Hh Hp') as [l0 i0 H1 H2 H3 H4|l0 i0 cu0 nx H1 H2 H3 H4 H5 H6 H7 H8].
    + apply (found_root _ _ l0 i0); [done..|]. by rewrite <- H4, <- R.
    + apply (found_sub _ _ l0 i0 cu0 nx); try done; [by rewrite <- H7, <- R|]. rewrite <- H8.
      destruct H6 as [H6|(-> & Ec & _ & H6)].
      * apply Low. pose proof (pow2_pos cu0). pose proof (Z.mod_pos_bound (h / 2 ^ zroot) (2 ^ Z.of_nat cu0)). lia.
      * assert (cu0 = cu) as -> by lia. specialize (H (h / 2 ^ zroot)).
        destruct (Z.eqb_spec ((h / 2 ^ zroot) mod 2 ^ Z.of_nat (l - root)) (rv 15 (P l i) / 2 ^ zroot)) as [Eq|]; [|done].
        exfalso. pose proof (not_covered l i h ltac:(lia) Hi Hp') as NC. apply Z.eqb_neq in NC. apply NC.
        apply split_word; [lia|done|]. split; [congruence|done].
  - apply covers_eqb in C as C'; [|lia|done]. apply Z.eqb_eq, split_word in C' as [C1 C2]; [|lia|done].
    apply (found_sub _ _ l i cu (f_next s)); try done; [lia| |by rewrite C1, <- Hlow|].
    + right. repeat (split; [done|]). by rewrite C1.
    + specialize (H (h / 2 ^ zroot)). rewrite C2, Z.eqb_refl in H. done.
Qed.

(** *** The size of a table behind the root *)

(** [B]: the place of the codes that are left; [fin]: the end of the slot. *)
Lemma subtable_bits_spec count fin n : forall c left_ B, (root < c <= max)%nat -> (max - c <= n)%nat ->
  left_ * share c = fin - B -> B + getn count c * share c = first_pos lens codes (S c) ->
  (forall j, (c < j <= MAXBITS)%nat -> getn count j = Z.of_nat (T j)) ->
  exists cu, subtable_bits n count zroot (Z.of_nat max) (Z.of_nat (c - root)) left_ = Z.of_nat cu /\
    (c <= root + cu <= max)%nat /\
    forall l, (root + cu < l <= 15)%nat -> T l <> 0%nat -> fin <= first_pos lens codes l.
Proof using Hlast Hmax.
  clear -Hlast Hmax. unfold MAXBITS in *.
  assert (Stop : forall c fin : nat -> Z, (root < max)%nat -> exists cu, Z.of_nat (max - root) = Z.of_nat cu /\
    (max <= root + cu <= max)%nat /\ forall l, (root + cu < l <= 15)%nat -> T l <> 0%nat -> fin l <= c l).
  { intros c f Hr. exists (max - root)%nat. split; [done|]. split; [lia|]. intros l Hl N. exfalso. apply N, Hlast. lia. }
  induction n as [|n IH]; intros c left_ B Hc Hn HL HB Hj; cbn [subtable_bits].
  - replace c with max by lia. apply (Stop _ (fun _ => fin)). lia.
  - replace (Z.of_nat (c - root) + zroot) with (Z.of_nat c) by lia. rewrite get_of_nat.
    destruct (Z.ltb_spec (Z.of_nat c) (Z.of_nat max)).
    2: { replace c with max by lia. apply (Stop _ (fun _ => fin)). lia. }
    pose proof (share_pos c). destruct (Z.leb_spec (left_ - getn count c) 0) as [L|L].
    + exists (c - root)%nat. split; [done|]. split; [lia|]. intros l Hl _.
      pose proof (first_pos_mono lens codes (S c) l ltac:(lia)). nia.
    + replace (Z.of_nat (c - root) + 1) with (Z.of_nat (S c - root)) by lia.
      pose proof (share_mul c (S c) ltac:(lia)) as SM. replace (S c - c)%nat with 1%nat in SM by lia.
      destruct (IH (S c) (Z.shiftl (left_ - getn count c) 1) (first_pos lens codes (S c))) as (cu & E & B1 & B2); [lia|lia|..].
      * rewrite Z.shiftl_mul_pow2 by lia. change (2 ^ Z.of_nat 1) with 2 in SM. change (2 ^ 1) with 2. nia.
      * rewrite Hj by lia. rewrite (first_pos_S _ _ (S c)) by lia. done.
      * intros j Hj'. apply Hj. lia.
      * exists cu. split; [done|]. split; [lia|done].
Qed.

(** *** From one symbol to the next *)

Lemma next_place s l i l' i' : (1 <= l)%nat -> (i < T l)%nat -> at_symbol lens codes max s l' i' ->
  f_sym s = S (shorter lens codes l + i) -> (l <= l')%nat /\ P l' i' = P l i + share l.
Proof using.
  clear. intros Hl Hi (Hl' & _ & Hi' & Es & _) E. rewrite Es in E.
  pose proof (shorter_step lens codes codes l l') as S1. pose proof (shorter_step lens codes codes l' l) as S2.
  destruct (Nat.lt_trichotomy l l') as [L|[<-|L]]; [|split; [done|unfold pos; nia]|exfalso; lia].
  split; [lia|]. assert (i' = 0 /\ S i = T l /\ shorter lens codes l' = shorter lens codes (S l))%nat as (-> & Ei & Eq).
  { rewrite shorter_SS by lia. lia. }
  assert (F : first_pos lens codes l' = first_pos lens codes (S l)).
  { clear -L Eq Hl. induction L as [|l' L IH]; [done|]. rewrite first_pos_S by lia. rewrite shorter_SS in Eq by lia.
    pose proof (shorter_step lens codes codes l l' ltac:(lia)). rewrite (shorter_SS _ _ l) in Eq by lia.
    rewrite IH by (rewrite shorter_SS by lia; lia). assert (T l' = 0)%nat as -> by lia. lia. }
  unfold pos. rewrite F, first_pos_S by done. rewrite <- Ei. lia.
Qed.

Lemma found_carries s t s' h : carries s t s' -> found (with_table s t) h -> found s' h.
Proof using.
  clear. destruct s', s. unfold carries. cbn. intros (_ & _ & -> & -> & -> & -> & -> & _) F.
  destruct F; [eapply found_root|eapply found_sub]; eauto.
Qed.

Lemma filling_carries s t s' l p : carries s t s' -> filling (with_table s t) l p -> filling s' l p.
Proof using.
  clear. destruct s', s. unfold carries. cbn. intros (_ & _ & -> & -> & -> & -> & -> & ->) F.
  destruct F; [eapply in_root|eapply in_sub]; eauto.
Qed.

Lemma put_inv N s l i : inv N s l i ->
  exists t, put_entry type work s = Some t /\ length t = N /\ filling (with_table s t) l (P l i) /\
    (f_used s <= Z.of_nat N < 65536 -> forall h, 0 <= h -> place h < P l i + share l -> found (with_table s t) h).
Proof using Hlens Hkraft Hroot Hmax.
  clear -Hlens Hkraft Hroot Hmax. intros I. pose proof (inv_table _ _ _ _ I) as L.
  destruct (inv_filling _ _ _ _ I) as [H1 H2 H3 H4 H5|cu H1 H2 H3 H4 H5 H6 H7 H8].
  - destruct (put_root N s l i I) as (t & E & Lt & F); [done..|]. exists t. split; [done|]. split; [done|].
    split; [by apply in_root|done].
  - destruct (put_sub N s l i cu I) as (t & E & Lt & F); [done..|]. exists t. split; [done|]. split; [done|].
    split; [|by apply F]. apply (in_sub _ _ _ cu); try done. cbn [f_used f_table with_table]. rewrite Lt. apply F.
Qed.

(** The low bits tell the slots of the root table apart. *)
Lemma slot_low h l i : (1 <= l <= 15)%nat -> (i < T l)%nat ->
  h mod 2 ^ zroot = rv 15 (P l i) mod 2 ^ zroot <-> place h / share root = P l i / share root.
Proof using Hlens Hkraft Hroot Hmax.
  clear -Hlens Hkraft Hroot Hmax. intros Hl Hi. pose proof (pos_bound lens codes Hlens l (S i) Hl ltac:(lia)) as B.
  pose proof (pos_bound lens codes Hlens l i Hl ltac:(lia)). rewrite pos_S in B. pose proof (share_pos l).
  apply same_low; lia.
Qed.

Lemma land_mask x : Z.land x (mask zroot) = x mod 2 ^ zroot.
Proof using Hroot Hmax.
  clear -Hroot Hmax. unfold mask. rewrite shl_pow by lia. rewrite <- Z.land_ones, Z.ones_equiv by lia. done.
Qed.

(** The next symbol is in the table that is being filled. *)
Lemma same_table s l i l' i' : filling s l (P l i) -> (1 <= l <= l')%nat -> (l' <= 15)%nat -> (i < T l)%nat -> (i' < T l')%nat ->
  P l' i' = P l i + share l ->
  (zroot <? Z.of_nat l') && negb (rv 15 (P l' i') mod 2 ^ zroot =? f_low s) = false -> filling s l' (P l' i').
Proof using Hlens Hkraft Hroot Hmax.
  clear -Hlens Hkraft Hroot Hmax. intros F Hl Hl' Hi Hi' Hp Hc.
  destruct F as [H1 H2 H3 H4 H5|cu H1 H2 H3 H4 H5 H6 H7 H8].
  - destruct (Z.ltb_spec zroot (Z.of_nat l')) as [Hr|]; [|apply in_root; lia || done].
    cbn [andb] in Hc. apply negb_false_iff, Z.eqb_eq in Hc. exfalso. rewrite H5 in Hc.
    pose proof (pow2_pos root). pose proof (Z.mod_pos_bound (rv 15 (P l' i')) (2 ^ zroot)).
    assert (2 ^ zroot <= 2 ^ 15) by (apply Z.pow_le_mono_r; lia).
    change (2 ^ 32) with 4294967296 in *. change (2 ^ 15) with 32768 in *. lia.
  - destruct (Z.ltb_spec zroot (Z.of_nat l')); [|lia]. cbn [andb] in Hc. apply negb_false_iff, Z.eqb_eq in Hc.
    rewrite H6 in Hc. apply slot_low in Hc as Hs; [|lia|done].
    pose proof (pos_bound lens codes Hlens l' (S i') ltac:(lia) ltac:(lia)) as B.
    pose proof (pos_bound lens codes Hlens l' i' ltac:(lia) ltac:(lia)) as B'. rewrite pos_S in B. pose proof (share_pos l').
    unfold place in Hs. rewrite rv_rv, (Z.mod_small (P l' i')) in Hs by (change (Z.of_nat 15) with 15; lia).
    assert (Hb : (l' <= root + cu)%nat).
    { destruct (Nat.le_gt_cases l' (root + cu)) as [|Hgt]; [done|exfalso].
      pose proof (H7 l' ltac:(lia) ltac:(lia)) as X. rewrite <- Hs in X.
      pose proof (Z.mul_succ_div_gt (P l' i') (share root) (share_pos root)).
      assert (first_pos lens codes l' <= P l' i') by (unfold pos; nia). lia. }
    apply (in_sub _ _ _ cu); try done; [lia|by rewrite H6|by rewrite Hs].
Qed.

(** It is the first one of another slot. *)
Lemma other_slot s l i l' i' : filling s l (P l i) -> (1 <= l <= l')%nat -> (root < l' <= 15)%nat -> (i < T l)%nat -> (i' < T l')%nat ->
  P l' i' = P l i + share l -> rv 15 (P l' i') mod 2 ^ zroot <> f_low s -> exists q, P l' i' = q * share root.
Proof using Hlens Hkraft Hroot Hmax.
  clear -Hlens Hkraft Hroot Hmax. intros F Hl Hl' Hi Hi' Hp Hc. pose proof (share_pos root) as Sr. pose proof (share_pos l) as Sl.
  destruct F as [H1 _ _ _ _|cu H1 _ _ _ _ H6 _ _].
  - destruct (pos_aligned lens codes l i root ltac:(lia)) as [q Eq].
    rewrite (share_mul l root) in Hp by lia. exists (q + 2 ^ Z.of_nat (root - l)). lia.
  - pose proof (pos_bound lens codes Hlens l' (S i') ltac:(lia) ltac:(lia)) as B.
    pose proof (pos_bound lens codes Hlens l i ltac:(lia) ltac:(lia)) as B'. rewrite pos_S in B. pose proof (share_pos l').
    rewrite H6 in Hc. assert (Hs : P l' i' / share root <> P l i / share root).
    { intros Hs. apply Hc. apply slot_low; [lia|done|]. unfold place.
      rewrite rv_rv, (Z.mod_small (P l' i')) by (change (Z.of_nat 15) with 15; lia). done. }
    destruct (pos_aligned lens codes l i l ltac:(lia)) as [x Ex].
    assert (Er : share root = 2 ^ Z.of_nat (l - root) * share l) by (apply share_mul; lia).
    pose proof (Z.div_mod (P l i) (share root) ltac:(lia)) as DM.
    pose proof (Z.mod_pos_bound (P l i) (share root) ltac:(lia)) as MB.
    exists (P l i / share root + 1). rewrite Hp in *. set (d := P l i / share root) in *. set (m := P l i mod share root) in *.
    destruct (Z.lt_trichotomy (m + share l) (share root)) as [L|[L|L]]; [|lia|].
    + exfalso. apply Hs. symmetry. apply (Z.div_unique _ _ _ (m + share l)); lia.
    + exfalso. pose proof (pow2_pos (l - root)). rewrite Er in *. set (k := 2 ^ Z.of_nat (l - root)) in *.
      clearbody d m k. assert (m = (x - d * k) * share l) as -> by lia.
      assert (x - d * k < k) by nia. nia.
Qed.

(** What the entry of a new table leaves of the words that were found. *)
Lemma found_new_entry s l i h v huff sym len next' curr' used' count :
  (root < l <= 15)%nat -> (i < T l)%nat -> (exists q, P l i = q * share root) ->
  f_next s + 2 ^ f_curr s <= next' -> 0 <= f_curr s -> place h < P l i -> found s h ->
  found (mk_fill huff sym len next' curr' zroot (rv 15 (P l i) mod 2 ^ zroot) used' count
           (<[Z.to_nat (rv 15 (P l i) mod 2 ^ zroot) := v]> (f_table s))) h.
Proof using Hlens Hkraft Hroot Hmax.
  clear -Hlens Hkraft Hroot Hmax. intros Hl Hi [q Eq] Hn Hc Hp F. pose proof (share_pos root) as Sr.
  pose proof (pow2_pos root) as P2. set (low := rv 15 (P l i) mod 2 ^ zroot).
  assert (Hlow : 0 <= low < 2 ^ zroot) by (apply Z.mod_pos_bound; lia).
  assert (Out : h mod 2 ^ zroot <> low).
  { intros E%slot_low; [|lia|done]. rewrite Eq, Z.div_mul in E by lia.
    pose proof (Z.mul_div_le (place h) (share root) Sr). nia. }
  assert (E : forall j, 0 <= j -> j <> low -> ent (<[Z.to_nat low := v]> (f_table s)) j = ent (f_table s) j).
  { intros j Hj N. rewrite ent_insert by lia. by destruct (Z.eqb_spec j low). }
  pose proof (Z.mod_pos_bound h (2 ^ zroot) ltac:(lia)) as Hm.
  destruct F as [l0 i0 H1 H2 H3 H4|l0 i0 cu nx H1 H2 H3 H4 H5 H6 H7 H8].
  - apply (found_root _ _ l0 i0); try done. cbn [f_table]. rewrite E by lia. done.
  - pose proof (pow2_pos cu). pose proof (Z.mod_pos_bound (h / 2 ^ zroot) (2 ^ Z.of_nat cu) ltac:(lia)).
    apply (found_sub _ _ l0 i0 cu nx); try done; cbn [f_table f_next].
    + left. pose proof (Z.pow_nonneg 2 (f_curr s)). destruct H6 as [H6|(-> & -> & _)]; lia.
    + rewrite E by lia. done.
    + rewrite E by lia. done.
Qed.

Lemma new_table N s l i l' i' : at_symbol lens codes max s l' i' -> f_huff s = rv 15 (P l' i') ->
  length (f_table s) = N -> f_used s = f_next s + 2 ^ f_curr s -> 0 <= f_used s <= 2 ^ 15 * Z.of_nat (f_sym s) ->
  filling s l (P l i) -> (1 <= l <= l')%nat -> (i < T l)%nat -> P l' i' = P l i + share l ->
  (f_used s <= Z.of_nat N < 65536 -> forall h, 0 <= h -> place h < P l' i' -> found s h) ->
  (zroot <? Z.of_nat l') && negb (rv 15 (P l' i') mod 2 ^ zroot =? f_low s) = true ->
  snd (new_subtable type zroot (Z.of_nat max) s) = true ->
  inv N (fst (new_subtable type zroot (Z.of_nat max) s)) l' i'.
Proof using Hlens Hkraft Hroot Hmax Hcodes Hlast.
  clear Hlong Hwork. intros A Eh EN Eu Bu F Hl Hi Hp Hf Hc. pose proof A as (Hl' & El & Hi' & Es & Lc & Ec & Ej).
  unfold new_subtable. rewrite El, Eh, land_mask, Hc. apply andb_prop in Hc as [Hr%Z.ltb_lt Hne].
  apply negb_true_iff, Z.eqb_neq in Hne.
  destruct (other_slot s l i l' i' F Hl ltac:(lia) Hi Hi' Hp Hne) as [q Eq].
  assert (Ed : (if f_drop s =? 0 then zroot else f_drop s) = zroot /\ 0 <= f_curr s <= 15 /\ 2 ^ zroot <= f_used s).
  { pose proof (pow2_pos root). destruct F as [_ -> H2 H3 _|cu H1 H1' -> H2 H3 _ _ _].
    - rewrite Z.eqb_refl, Eu, H2, H3. lia.
    - rewrite Eu, H2. pose proof (pow2_pos cu). destruct (Z.eqb_spec zroot 0); lia. }
  destruct Ed as (-> & Cb & Rb). replace (Z.of_nat l' - zroot) with (Z.of_nat (l' - root)) by lia. rewrite Nat2Z.id.
  destruct (subtable_bits_spec (f_count s) (P l' i' + share root) max l' (Z.shiftl 1 (Z.of_nat (l' - root))) (P l' i'))
    as (cu & -> & Hcu & Hend); [lia|lia| | |done|].
  { rewrite Z.shiftl_1_l, (share_mul root l') by lia. lia. }
  { rewrite Ec, first_pos_S by lia. unfold pos. rewrite Nat2Z.inj_sub by lia. lia. }
  assert (Shl : u32 (Z.shiftl 1 (f_curr s)) = 2 ^ f_curr s).
  { rewrite <- (Z2Nat.id (f_curr s)) by lia. apply shl_pow. lia. }
  rewrite Shl, shl_pow, <- Eu by lia. pose proof (shorter_le lens codes codes (S l')) as Sy. rewrite shorter_SS in Sy by lia.
  pose proof (pow2_pos cu) as P2. assert (P15 : 2 ^ Z.of_nat cu <= 2 ^ 15) by (apply Z.pow_le_mono_r; lia).
  change (2 ^ 15) with 32768 in *.
  assert (U : u32 (f_used s + 2 ^ Z.of_nat cu) = f_used s + 2 ^ Z.of_nat cu)
    by (apply u32_id; change (2 ^ 32) with 4294967296; lia).
  rewrite U. destruct (negb (enough _ _)) eqn:En; [done|]. intros _. cbn [fst].
  rewrite !u8_id by (unfold byte_ok; lia).
  constructor; cbn [f_huff f_table f_used f_next f_curr f_sym]; try done.
  - by rewrite length_insert.
  - change (2 ^ 15) with 32768. lia.
  - apply (in_sub _ _ _ cu); try done; cbn [f_used f_table f_low f_next]; [lia|lia| |].
    + intros l0 H1 H2. rewrite Eq, Z.div_mul by (pose proof (share_pos root); lia).
      specialize (Hend l0 H1 H2). rewrite Eq in Hend. lia.
    + rewrite length_insert, EN. intros Hu. pose proof (pow2_pos root).
      pose proof (Z.mod_pos_bound (rv 15 (P l' i')) (2 ^ zroot) ltac:(lia)).
      rewrite ent_insert, EN, Z.eqb_refl by lia. rewrite u16_id by (change (2 ^ 16) with 65536; lia).
      destruct (Z.ltb_spec (rv 15 (P l' i') mod 2 ^ zroot) (Z.of_nat N)); [done|lia].
  - intros Hu h Hh Hph. apply found_new_entry; try done; [lia|by exists q|lia|lia|]. apply Hf; [lia|done..].
Qed.

(** *** The loop *)

(** What the loop leaves when the space is enough. *)
Definition filled (N : nat) (s : fill_state) : Prop :=
  length (f_table s) = N /\ f_huff s = rv 15 (kraft lens codes) /\ f_len s = Z.of_nat max /\
  ((max <= root)%nat -> f_next s = 0 /\ f_drop s = 0) /\ 0 <= f_used s /\
  (f_used s <= Z.of_nat N < 65536 -> forall h, 0 <= h -> place h < kraft lens codes -> found s h).

Lemma turn_inv N s l i t : inv N s l i -> put_entry type work s = Some t ->
  match fill_turn type lens work zroot (Z.of_nat max) s t with
  | inl s' => filled N s'
  | inr (s', ok) => ok = true -> (exists l' i', inv N s' l' i') /\ f_sym s' = S (f_sym s)
  end.
Proof using Hlens Hkraft Hroot Hmax Hcodes Hlast Hwork Hlong.
  intros I Ep. destruct (put_inv N s l i I) as (t' & Et & Lt & Fi & Fo). rewrite Ep in Et. injection Et as <-.
  pose proof (inv_at _ _ _ _ I) as A. pose proof A as (Hl & El & Hi & Es & _).
  pose proof (fill_turn_symbol lens codes Hcodes type work zroot max Hwork ltac:(unfold MAXBITS; lia) Hlast s t l i Hlong A) as FT.
  assert (Nx : next_huff (f_huff s) (f_len s) = rv 15 (P l (S i))).
  { rewrite pos_S, El. rewrite (inv_huff _ _ _ _ I), huff_code by lia.
    rewrite (next_huff_spec l _ (P l i / share l)) by (lia || done).
    destruct (pos_aligned lens codes l i l ltac:(lia)) as [x Ex]. pose proof (share_pos l).
    rewrite Ex, Z.div_mul by lia. replace (x * share l + share l) with ((x + 1) * share l) by ring.
    unfold share. symmetry. replace 15%nat with (l + (15 - l))%nat at 1 by lia. apply rv_shift. }
  pose proof (inv_used _ _ _ _ I) as U. pose proof (inv_bound _ _ _ _ I) as B.
  destruct (fill_turn _ _ _ _ _ _ _) as [s'|r].
  - destruct FT as (-> & Ei & El' & C). pose proof C as (C1 & C2 & C3 & C4 & C5 & C6 & C7 & C8).
    assert (K : P max (S i) = kraft lens codes).
    { rewrite <- first_pos_kraft by done. unfold pos. rewrite Ei, <- first_pos_S by lia.
      assert (G : forall n, (S max + n <= 16)%nat -> first_pos lens codes (S max + n) = first_pos lens codes (S max)).
      { induction n as [|n IH]; intros Hn; [f_equal; lia|]. rewrite <- IH by lia. rewrite Nat.add_succ_r, first_pos_S by lia.
        rewrite Hlast by (unfold MAXBITS; lia). lia. }
      rewrite <- (G (15 - max)%nat) by lia. f_equal. lia. }
    split; [by rewrite C3|]. split; [by rewrite C1, Nx, K|]. split; [done|]. split; [|split; [lia|]].
    + intros Hr. destruct (inv_filling _ _ _ _ I) as [_ H1 H2 _ _|cu H1 H2]; [by rewrite C4, C6|lia].
    + intros Hu h Hh Hp. rewrite C8 in Hu. apply (found_carries s t); [done|]. apply Fo; [done|done|].
      rewrite <- pos_S, K. done.
  - destruct FT as (s0 & l' & i' & -> & A' & C). pose proof C as (C1 & C2 & C3 & C4 & C5 & C6 & C7 & C8).
    destruct (next_place s0 l i l' i') as [Hll Hp]; [lia|done|done|congruence|].
    pose proof A' as (Hl' & El' & Hi' & _). rewrite pos_S, <- Hp in Nx.
    assert (Fi' : filling s0 l (P l i)) by (by apply (filling_carries s t)).
    assert (Fo' : f_used s0 <= Z.of_nat N < 65536 -> forall h, 0 <= h -> place h < P l' i' -> found s0 h).
    { intros Hu h Hh Hph. apply (found_carries s t); [done|]. rewrite C8 in Hu. apply Fo; [done..|lia]. }
    pose proof (new_subtable_frame type zroot max s0) as (_ & Fs & _).
    destruct (new_subtable type zroot (Z.of_nat max) s0) as [s' ok] eqn:En. intros ->. cbn [fst] in Fs.
    split; [|congruence]. exists l', i'.
    destruct ((zroot <? Z.of_nat l') && negb (rv 15 (P l' i') mod 2 ^ zroot =? f_low s0)) eqn:Hc.
    + pose proof (new_table N s0 l i l' i' A' ltac:(congruence) ltac:(congruence) ltac:(congruence)) as X.
      rewrite En in X. apply X; try done; [|lia]. rewrite C8, C2. lia.
    + pose proof En as En'. unfold new_subtable in En'. rewrite El', C1, Nx, land_mask, Hc in En'. injection En' as <-.
      constructor; try done; [congruence..|rewrite C8, C2; lia|]. apply (same_table s0 l i l' i'); try done; lia.
Qed.

Lemma loop_inv N fuel : forall s l i, inv N s l i -> (codes <= fuel + f_sym s)%nat ->
  match fill_loop type lens work zroot (Z.of_nat max) fuel s with
  | OutOfFuel => False
  | NoRoom _ => True
  | Filled s' => filled N s'
  end.
Proof using Hlens Hkraft Hroot Hmax Hcodes Hlast Hwork Hlong.
  induction fuel as [|fuel IH]; intros s l i I Hf; cbn [fill_loop].
  - pose proof (inv_at _ _ _ _ I) as (Hl & _ & Hi & Es & _). pose proof (shorter_le lens codes codes (S l)) as Hle.
    rewrite shorter_SS in Hle by lia. lia.
  - destruct (put_inv N s l i I) as (t & Et & _). rewrite Et. pose proof (turn_inv N s l i t I Et) as T.
    destruct (fill_turn _ _ _ _ _ _ _) as [s'|[s' []]]; [done| |done].
    destruct (T eq_refl) as [(l' & i' & I') Es]. apply (IH s' l' i' I'). lia.
Qed.

(** *** What the tables hold *)

(** The word [h], which begins with the code of the [i]-th symbol of [l] bits, leads to
    the entry of that symbol: in the root table, or in a table behind it. *)
Definition leads (table : list code) (l i : nat) (h : Z) : Prop :=
  ((1 <= l <= root)%nat /\ ent table (h mod 2 ^ zroot) = entry_at l i 0) \/
  exists cu nx, (root < l <= root + cu)%nat /\ (root + cu <= 15)%nat /\ 2 ^ zroot <= nx /\
    ent table (h mod 2 ^ zroot) = mk_code (Z.of_nat cu) zroot nx /\
    ent table (nx + (h / 2 ^ zroot) mod 2 ^ Z.of_nat cu) = entry_at l i zroot.

Lemma found_leads s l i h : (1 <= l <= 15)%nat -> (i < T l)%nat -> covers lens codes l i h -> found s h ->
  leads (f_table s) l i h.
Proof using Hroot Hmax.
  clear -Hroot Hmax. intros Hl Hi C [l0 i0 H1 H2 H3 H4|l0 i0 cu nx H1 H2 H3 H4 H5 H6 H7 H8].
  - destruct (covers_unique lens codes l0 i0 l i h) as [-> ->]; try done; [lia|]. by left.
  - destruct (covers_unique lens codes l0 i0 l i h) as [-> ->]; try done; [lia|]. right. by exists cu, nx.
Qed.

(** The entry for the words that are left is put beside those of the others. *)
Lemma rest_leads N s l i h : filled N s -> kraft lens codes = 2 ^ 15 \/ kraft lens codes < 2 ^ 15 /\ max = 1%nat ->
  f_used s <= Z.of_nat N < 65536 -> (1 <= l <= 15)%nat -> (i < T l)%nat -> 0 <= h -> covers lens codes l i h ->
  leads (fill_rest s) l i h.
Proof using Hlens Hkraft Hroot Hmax Hlast.
  clear -Hlens Hkraft Hroot Hmax Hlast. intros (L & Eh & El & Hn & _ & F) K Hu Hl Hi Hh C.
  pose proof (pos_bound lens codes Hlens l (S i) Hl ltac:(lia)) as B. rewrite pos_S in B.
  assert (Fo : found s h) by (apply F; [done|done|destruct C; lia]).
  unfold fill_rest. rewrite Eh. destruct K as [-> | [K M]].
  - by apply found_leads.
  - assert (T l <> 0%nat) as Tl by lia. assert (l = 1%nat) as ->.
    { destruct (Nat.eq_dec l 1%nat) as [|N1]; [done|]. exfalso. apply Tl, Hlast. unfold MAXBITS. lia. }
    pose proof (share_pos 1%nat) as S1. assert (S2 : 2 * share 1%nat = 2 ^ 15) by done. unfold pos in B. cbn [first_pos] in B.
    assert (i = 0%nat) as -> by nia. assert (R1 : root = 1%nat) by lia. destruct Hn as [-> _]; [lia|].
    assert (G : h mod 2 ^ zroot = 0).
    { rewrite R1. rewrite (proj2 (covers_code lens codes Hlens 1%nat 0%nat h Hl Hi Hkraft) C).
      unfold pos. cbn [first_pos]. by rewrite Z.mul_0_l, rv_0. }
    destruct (found_leads s 1%nat 0%nat h Hl Hi C Fo) as [[_ E]|(cu & nx & X & _)]; [|lia].
    left. split; [lia|]. destruct (negb _) eqn:Hz; [|done]. rewrite <- E, G.
    pose proof (rv_bounds 15 (kraft lens codes)). apply negb_true_iff, Z.eqb_neq in Hz.
    rewrite ent_insert by lia. destruct (Z.eqb_spec 0 (0 + rv 15 (kraft lens codes))); [lia|done].
Qed.

(** The state the loop starts with. *)
Lemma inv_start min table : (1 <= min <= root)%nat -> (0 < T min)%nat -> shorter lens codes min = 0%nat ->
  inv (length table) (mk_fill 0 0 (Z.of_nat min) 0 zroot 0 (2 ^ 32 - 1) (2 ^ zroot) (count_lengths lens codes) table) min 0.
Proof using Hlens Hcodes Hroot Hmax.
  clear -Hlens Hcodes Hroot Hmax. intros Hm Hp Hs.
  destruct (count_lengths_spec lens codes Hlens Hcodes) as [Hlen Hcount].
  assert (P0 : P min 0 = 0).
  { unfold pos. rewrite Z.mul_0_l, Z.add_0_r. clear -Hs Hm. induction min as [|m IH]; [done|].
    destruct m as [|m]; [done|]. rewrite shorter_SS in Hs by lia. rewrite first_pos_S, IH by lia.
    assert (T (S m) = 0)%nat as -> by lia. lia. }
  pose proof (pow2_pos root). assert (2 ^ zroot <= 2 ^ 15) by (apply Z.pow_le_mono_r; lia).
  constructor; cbn [f_huff f_table f_used f_next f_curr f_sym]; rewrite ?P0; try done.
  - unfold at_symbol. cbn [f_len f_sym f_count]. split; [lia|]. split; [done|]. split; [done|]. split; [lia|].
    split; [done|]. split; [rewrite Hcount by (unfold MAXBITS; lia); lia|]. intros j Hj. apply Hcount. lia.
  - cbn. lia.
  - apply in_root; done || lia.
  - intros _ h Hh Hp0. pose proof (place_bounds h). lia.
Qed.
End Loop.

(** ** The result *)

(** [root]: the requested bits, forced to be within the code lengths. *)
Definition clamp (min max bits : Z) : Z :=
  let root := if max <? bits then max else bits in if root <? min then min else root.

Lemma clamp_bounds min max bits : min <= max -> min <= clamp min max bits <= max.
Proof. intros H. unfold clamp. cbv zeta. destruct (Z.ltb_spec max bits); case_match; lia. Qed.

Lemma length_fill_rest s : length (fill_rest s) = length (f_table s).
Proof. unfold fill_rest. destruct (negb _); [apply length_insert|done]. Qed.

Section Result.
Context (type : codetype) (lens : list Z) (codes : nat) (table : list code) (bits : Z) (work : list Z).
Hypothesis Hlens : lens_ok lens codes.
Hypothesis Hcodes : Z.of_nat codes < 65536.
Hypothesis Hwork : (codes <= length work)%nat.

Abbreviation max := (longest (count_lengths lens codes) MAXBITS) (only parsing).
Abbreviation min := (shortest (count_lengths lens codes) 1 (max - 1)) (only parsing).
Abbreviation root := (clamp (Z.of_nat min) (Z.of_nat max) bits) (only parsing).

(** What a table made for these lengths holds. *)
Definition complete_table (r : table_result) : Prop :=
  r_bits r = root /\ length (r_table r) = length table /\
  (r_used r <= Z.of_nat (length table) < 65536 ->
     forall l i h, (1 <= l <= 15)%nat -> (i < total lens codes l)%nat -> 0 <= h -> covers lens codes l i h ->
     leads type lens (r_work r) codes (Z.to_nat root) (r_table r) l i h).

(** The table is made. *)
Lemma inflate_table_filled : max <> 0%nat -> kraft lens codes <= 2 ^ 15 ->
  kraft lens codes = 2 ^ 15 \/ type <> CODES /\ max = 1%nat ->
  exists r, inflate_table type lens codes table bits work = Some r /\ sorted_work lens codes (r_work r) /\
    (ret r = 1 /\ r_bits r = bits \/ ret r = 0 /\ complete_table r).
Proof using Hlens Hcodes Hwork.
  intros Nz Hk Hc. destruct (lengths_bounds lens codes Hlens Hcodes) as (M1 & HT & _ & Hm).
  destruct (sort_symbols_spec lens codes Hlens Hcodes work Hwork) as [_ Sw].
  destruct (Hm Nz) as (Hx & Hmin & Hp & Hs). clear Hm.
  assert (K : space_left (count_lengths lens codes) 1 MAXBITS 1 = Some (2 ^ 15 - kraft lens codes)).
  { rewrite space_left_spec; [|lia|intros; rewrite (proj2 (count_lengths_spec lens codes Hlens Hcodes)); lia].
    rewrite counts_kraft by done. cbv zeta. change (1 * 2 ^ Z.of_nat MAXBITS) with (2 ^ 15).
    destruct (Z.ltb_spec (2 ^ 15 - kraft lens codes) 0); [lia|done]. }
  unfold inflate_table, complete_table. rewrite K. replace (Z.to_nat (Z.of_nat max) - 1)%nat with (max - 1)%nat by lia.
  destruct (Z.eqb_spec (Z.of_nat max) 0); [lia|].
  assert (Gd : (0 <? 2 ^ 15 - kraft lens codes) && (bool_decide (type = CODES) || negb (Z.of_nat max =? 1)) = false).
  { destruct Hc as [E|[Ht E]]; [rewrite E, Z.sub_diag; done|]. rewrite E, bool_decide_eq_false_2, andb_false_r by done. done. }
  rewrite Gd. clear Gd K. destruct (sort_symbols _ _ _ work) as [offs work']. cbn [snd] in Sw. cbv zeta.
  fold (clamp (Z.of_nat min) (Z.of_nat max) bits).
  pose proof (clamp_bounds (Z.of_nat min) (Z.of_nat max) bits ltac:(lia)) as Hr.
  set (rt := Z.to_nat root). assert (Er : root = Z.of_nat rt) by lia. rewrite Er.
  assert (M15 : (max <= 15)%nat) by exact M1. rewrite shl_pow by lia.
  destruct (negb (enough _ _)); [eexists; split; [done|]; split; [done|by left]|].
  pose proof (loop_inv type lens work' codes rt max Hlens Hcodes Hk Sw ltac:(lia) M15 HT Hx (length table) codes _ min 0
                (inv_start type lens work' codes rt max Hlens Hcodes ltac:(lia) M15 min table ltac:(lia) Hp Hs)
                ltac:(cbn [f_sym]; lia)) as F.
  destruct (fill_loop _ _ _ _ _ _ _) as [s'|tb|]; [|eexists; split; [done|]; split; [done|by left]|done].
  eexists. split; [done|]. split; [done|]. right. split; [done|]. split; [done|]. cbn [r_table r_used r_work].
  split; [rewrite length_fill_rest; apply F|]. intros Hu l i h Hl Hi Hh C.
  apply (rest_leads type lens work' codes rt max Hlens Hk ltac:(lia) M15 HT (length table)); try done.
  destruct Hc as [|[_ Hc]]; [by left|]. destruct (Z.eq_dec (kraft lens codes) (2 ^ 15)); [by left|right]. split; [lia|done].
Qed.

Lemma inflate_table_result :
  exists r, inflate_table type lens codes table bits work = Some r /\
  if (max =? 0)%nat then
    r = mk_table 0 (<[1%nat := invalid_code]> (<[0%nat := invalid_code]> table)) 2 1 work
  else if (2 ^ 15 <? kraft lens codes) ||
          ((kraft lens codes <? 2 ^ 15) && (bool_decide (type = CODES) || negb (max =? 1)%nat)) then
    r = mk_table (-1) table 0 bits work
  else sorted_work lens codes (r_work r) /\
       (ret r = 1 /\ r_bits r = bits \/ ret r = 0 /\ complete_table r).
Proof using Hlens Hcodes Hwork.
  destruct (lengths_bounds lens codes Hlens Hcodes) as (M1 & _ & _ & _).
  assert (K : space_left (count_lengths lens codes) 1 MAXBITS 1 =
    if 2 ^ 15 - kraft lens codes <? 0 then None else Some (2 ^ 15 - kraft lens codes)).
  { rewrite space_left_spec; [|lia|intros; rewrite (proj2 (count_lengths_spec lens codes Hlens Hcodes)); lia].
    rewrite counts_kraft by done. done. }
  destruct (Nat.eqb_spec max 0) as [E0|N0].
  { unfold inflate_table. rewrite E0. cbn [Z.of_nat]. rewrite Z.eqb_refl. by eexists. }
  destruct (Z.ltb_spec (2 ^ 15) (kraft lens codes)) as [O|O]; cbn [orb].
  { unfold inflate_table. rewrite K. destruct (Z.eqb_spec (Z.of_nat max) 0); [lia|].
    destruct (Z.ltb_spec (2 ^ 15 - kraft lens codes) 0); [|lia]. by eexists. }
  destruct (_ && (_ || _)) eqn:G.
  - unfold inflate_table. rewrite K. destruct (Z.eqb_spec (Z.of_nat max) 0); [lia|].
    destruct (Z.ltb_spec (2 ^ 15 - kraft lens codes) 0); [lia|].
    replace (0 <? 2 ^ 15 - kraft lens codes) with (kraft lens codes <? 2 ^ 15)
      by (destruct (Z.ltb_spec (kraft lens codes) (2 ^ 15)), (Z.ltb_spec 0 (2 ^ 15 - kraft lens codes)); lia).
    replace (Z.of_nat max =? 1) with (max =? 1)%nat
      by (destruct (Nat.eqb_spec max 1), (Z.eqb_spec (Z.of_nat max) 1); lia).
    rewrite G. by eexists.
  - apply inflate_table_filled; [done|done|]. destruct (Z.ltb_spec (kraft lens codes) (2 ^ 15)) as [L|L]; [|left; lia].
    right. cbn [andb] in G. apply orb_false_iff in G as [G1 G2]. case_bool_decide; [done|].
    apply negb_false_iff, Nat.eqb_eq in G2. done.
Qed.
End Result.
