(* ===== verification/Trees.v ===== *)
(** * Trees: core/zlib/trees.c, trees.h, and the parts of deflate.h it uses

    The output of deflate: the bit buffer, the static trees and the generation of
    canonical codes, and the emission of blocks.  The Huffman trees themselves are
    built in TreeBuild.v, and blocks with their own codes are in TreeSend.v.  [pending_buf] is the list of the bytes put out so far,
    so that [pending] is its length. *)

From S2P Require Import Prelude.
From S2P Require Import Inftrees.

(** ** Constants (deflate.h, zutil.h) *)

Definition MIN_MATCH : Z := 3.
Definition MAX_MATCH : Z := 258.
Definition LENGTH_CODES : nat := 29.
Definition LITERALS : nat := 256.
Definition L_CODES : nat := LITERALS + 1 + LENGTH_CODES.
Definition D_CODES : nat := 30.
Definition BL_CODES : nat := 19.
Definition HEAP_SIZE : nat := 2 * L_CODES + 1.
Definition MAX_BITS : nat := 15.
Definition Buf_size : Z := 16.
Definition END_BLOCK : nat := 256.
Definition STORED_BLOCK : Z := 0.
Definition STATIC_TREES : Z := 1.
Definition DYN_TREES : Z := 2.

(** [ct_data]: [fc] is the union of [Freq] and [Code], [dl] that of [Dad] and
    [Len]. *)
Record ct_data := mk_ct { fc : Z; dl : Z }.
Abbreviation Freq := fc (only parsing).
Abbreviation Code := fc (only parsing).
Abbreviation Dad := dl (only parsing).
Abbreviation Len := dl (only parsing).

#[export] Instance ct_data_eq_dec : EqDecision ct_data.
Proof. solve_decision. Defined.

Definition ct_of : list (Z * Z) -> list ct_data := map (fun '(c, l) => mk_ct c l).
Definition ct (tree : list ct_data) (n : nat) : ct_data := nth n tree (mk_ct 0 0).
Definition set_fc (tree : list ct_data) (n : nat) (v : Z) : list ct_data :=
  <[n := mk_ct v (dl (ct tree n))]> tree.
Definition set_dl (tree : list ct_data) (n : nat) (v : Z) : list ct_data :=
  <[n := mk_ct (fc (ct tree n)) v]> tree.

(** ** trees.h *)

Definition static_ltree : list ct_data := ct_of [
  (12, 8); (140, 8); (76, 8); (204, 8); (44, 8); (172, 8); (108, 8); (236, 8);
  (28, 8); (156, 8); (92, 8); (220, 8); (60, 8); (188, 8); (124, 8); (252, 8);
  (2, 8); (130, 8); (66, 8); (194, 8); (34, 8); (162, 8); (98, 8); (226, 8);
  (18, 8); (146, 8); (82, 8); (210, 8); (50, 8); (178, 8); (114, 8); (242, 8);
  (10, 8); (138, 8); (74, 8); (202, 8); (42, 8); (170, 8); (106, 8); (234, 8);
  (26, 8); (154, 8); (90, 8); (218, 8); (58, 8); (186, 8); (122, 8); (250, 8);
  (6, 8); (134, 8); (70, 8); (198, 8); (38, 8); (166, 8); (102, 8); (230, 8);
  (22, 8); (150, 8); (86, 8); (214, 8); (54, 8); (182, 8); (118, 8); (246, 8);
  (14, 8); (142, 8); (78, 8); (206, 8); (46, 8); (174, 8); (110, 8); (238, 8);
  (30, 8); (158, 8); (94, 8); (222, 8); (62, 8); (190, 8); (126, 8); (254, 8);
  (1, 8); (129, 8); (65, 8); (193, 8); (33, 8); (161, 8); (97, 8); (225, 8);
  (17, 8); (145, 8); (81, 8); (209, 8); (49, 8); (177, 8); (113, 8); (241, 8);
  (9, 8); (137, 8); (73, 8); (201, 8); (41, 8); (169, 8); (105, 8); (233, 8);
  (25, 8); (153, 8); (89, 8); (217, 8); (57, 8); (185, 8); (121, 8); (249, 8);
  (5, 8); (133, 8); (69, 8); (197, 8); (37, 8); (165, 8); (101, 8); (229, 8);
  (21, 8); (149, 8); (85, 8); (213, 8); (53, 8); (181, 8); (117, 8); (245, 8);
  (13, 8); (141, 8); (77, 8); (205, 8); (45, 8); (173, 8); (109, 8); (237, 8);
  (29, 8); (157, 8); (93, 8); (221, 8); (61, 8); (189, 8); (125, 8); (253, 8);
  (19, 9); (275, 9); (147, 9); (403, 9); (83, 9); (339, 9); (211, 9); (467, 9);
  (51, 9); (307, 9); (179, 9); (435, 9); (115, 9); (371, 9); (243, 9); (499, 9);
  (11, 9); (267, 9); (139, 9); (395, 9); (75, 9); (331, 9); (203, 9); (459, 9);
  (43, 9); (299, 9); (171, 9); (427, 9); (107, 9); (363, 9); (235, 9); (491, 9);
  (27, 9); (283, 9); (155, 9); (411, 9); (91, 9); (347, 9); (219, 9); (475, 9);
  (59, 9); (315, 9); (187, 9); (443, 9); (123, 9); (379, 9); (251, 9); (507, 9);
  (7, 9); (263, 9); (135, 9); (391, 9); (71, 9); (327, 9); (199, 9); (455, 9);
  (39, 9); (295, 9); (167, 9); (423, 9); (103, 9); (359, 9); (231, 9); (487, 9);
  (23, 9); (279, 9); (151, 9); (407, 9); (87, 9); (343, 9); (215, 9); (471, 9);
  (55, 9); (311, 9); (183, 9); (439, 9); (119, 9); (375, 9); (247, 9); (503, 9);
  (15, 9); (271, 9); (143, 9); (399, 9); (79, 9); (335, 9); (207, 9); (463, 9);
  (47, 9); (303, 9); (175, 9); (431, 9); (111, 9); (367, 9); (239, 9); (495, 9);
  (31, 9); (287, 9); (159, 9); (415, 9); (95, 9); (351, 9); (223, 9); (479, 9);
  (63, 9); (319, 9); (191, 9); (447, 9); (127, 9); (383, 9); (255, 9); (511, 9);
  (0, 7); (64, 7); (32, 7); (96, 7); (16, 7); (80, 7); (48, 7); (112, 7);
  (8, 7); (72, 7); (40, 7); (104, 7); (24, 7); (88, 7); (56, 7); (120, 7);
  (4, 7); (68, 7); (36, 7); (100, 7); (20, 7); (84, 7); (52, 7); (116, 7);
  (3, 8); (131, 8); (67, 8); (195, 8); (35, 8); (163, 8); (99, 8); (227, 8)].

Definition static_dtree : list ct_data := ct_of [
  (0, 5); (16, 5); (8, 5); (24, 5); (4, 5); (20, 5); (12, 5); (28, 5);
  (2, 5); (18, 5); (10, 5); (26, 5); (6, 5); (22, 5); (14, 5); (30, 5);
  (1, 5); (17, 5); (9, 5); (25, 5); (5, 5); (21, 5); (13, 5); (29, 5);
  (3, 5); (19, 5); (11, 5); (27, 5); (7, 5); (23, 5)].

Definition _dist_code : list Z := [
  0; 1; 2; 3; 4; 4; 5; 5; 6; 6; 6; 6; 7; 7; 7; 7; 8; 8; 8; 8;
  8; 8; 8; 8; 9; 9; 9; 9; 9; 9; 9; 9; 10; 10; 10; 10; 10; 10; 10; 10;
  10; 10; 10; 10; 10; 10; 10; 10; 11; 11; 11; 11; 11; 11; 11; 11; 11; 11; 11; 11;
  11; 11; 11; 11; 12; 12; 12; 12; 12; 12; 12; 12; 12; 12; 12; 12; 12; 12; 12; 12;
  12; 12; 12; 12; 12; 12; 12; 12; 12; 12; 12; 12; 12; 12; 12; 12; 13; 13; 13; 13;
  13; 13; 13; 13; 13; 13; 13; 13; 13; 13; 13; 13; 13; 13; 13; 13; 13; 13; 13; 13;
  13; 13; 13; 13; 13; 13; 13; 13; 14; 14; 14; 14; 14; 14; 14; 14; 14; 14; 14; 14;
  14; 14; 14; 14; 14; 14; 14; 14; 14; 14; 14; 14; 14; 14; 14; 14; 14; 14; 14; 14;
  14; 14; 14; 14; 14; 14; 14; 14; 14; 14; 14; 14; 14; 14; 14; 14; 14; 14; 14; 14;
  14; 14; 14; 14; 14; 14; 14; 14; 14; 14; 14; 14; 15; 15; 15; 15; 15; 15; 15; 15;
  15; 15; 15; 15; 15; 15; 15; 15; 15; 15; 15; 15; 15; 15; 15; 15; 15; 15; 15; 15;
  15; 15; 15; 15; 15; 15; 15; 15; 15; 15; 15; 15; 15; 15; 15; 15; 15; 15; 15; 15;
  15; 15; 15; 15; 15; 15; 15; 15; 15; 15; 15; 15; 15; 15; 15; 15; 0; 0; 16; 17;
  18; 18; 19; 19; 20; 20; 20; 20; 21; 21; 21; 21; 22; 22; 22; 22; 22; 22; 22; 22;
  23; 23; 23; 23; 23; 23; 23; 23; 24; 24; 24; 24; 24; 24; 24; 24; 24; 24; 24; 24;
  24; 24; 24; 24; 25; 25; 25; 25; 25; 25; 25; 25; 25; 25; 25; 25; 25; 25; 25; 25;
  26; 26; 26; 26; 26; 26; 26; 26; 26; 26; 26; 26; 26; 26; 26; 26; 26; 26; 26; 26;
  26; 26; 26; 26; 26; 26; 26; 26; 26; 26; 26; 26; 27; 27; 27; 27; 27; 27; 27; 27;
  27; 27; 27; 27; 27; 27; 27; 27; 27; 27; 27; 27; 27; 27; 27; 27; 27; 27; 27; 27;
  27; 27; 27; 27; 28; 28; 28; 28; 28; 28; 28; 28; 28; 28; 28; 28; 28; 28; 28; 28;
  28; 28; 28; 28; 28; 28; 28; 28; 28; 28; 28; 28; 28; 28; 28; 28; 28; 28; 28; 28;
  28; 28; 28; 28; 28; 28; 28; 28; 28; 28; 28; 28; 28; 28; 28; 28; 28; 28; 28; 28;
  28; 28; 28; 28; 28; 28; 28; 28; 29; 29; 29; 29; 29; 29; 29; 29; 29; 29; 29; 29;
  29; 29; 29; 29; 29; 29; 29; 29; 29; 29; 29; 29; 29; 29; 29; 29; 29; 29; 29; 29;
  29; 29; 29; 29; 29; 29; 29; 29; 29; 29; 29; 29; 29; 29; 29; 29; 29; 29; 29; 29;
  29; 29; 29; 29; 29; 29; 29; 29; 29; 29; 29; 29].

Definition _length_code : list Z := [
  0; 1; 2; 3; 4; 5; 6; 7; 8; 8; 9; 9; 10; 10; 11; 11; 12; 12; 12; 12;
  13; 13; 13; 13; 14; 14; 14; 14; 15; 15; 15; 15; 16; 16; 16; 16; 16; 16; 16; 16;
  17; 17; 17; 17; 17; 17; 17; 17; 18; 18; 18; 18; 18; 18; 18; 18; 19; 19; 19; 19;
  19; 19; 19; 19; 20; 20; 20; 20; 20; 20; 20; 20; 20; 20; 20; 20; 20; 20; 20; 20;
  21; 21; 21; 21; 21; 21; 21; 21; 21; 21; 21; 21; 21; 21; 21; 21; 22; 22; 22; 22;
  22; 22; 22; 22; 22; 22; 22; 22; 22; 22; 22; 22; 23; 23; 23; 23; 23; 23; 23; 23;
  23; 23; 23; 23; 23; 23; 23; 23; 24; 24; 24; 24; 24; 24; 24; 24; 24; 24; 24; 24;
  24; 24; 24; 24; 24; 24; 24; 24; 24; 24; 24; 24; 24; 24; 24; 24; 24; 24; 24; 24;
  25; 25; 25; 25; 25; 25; 25; 25; 25; 25; 25; 25; 25; 25; 25; 25; 25; 25; 25; 25;
  25; 25; 25; 25; 25; 25; 25; 25; 25; 25; 25; 25; 26; 26; 26; 26; 26; 26; 26; 26;
  26; 26; 26; 26; 26; 26; 26; 26; 26; 26; 26; 26; 26; 26; 26; 26; 26; 26; 26; 26;
  26; 26; 26; 26; 27; 27; 27; 27; 27; 27; 27; 27; 27; 27; 27; 27; 27; 27; 27; 27;
  27; 27; 27; 27; 27; 27; 27; 27; 27; 27; 27; 27; 27; 27; 27; 28].

Definition base_length : list Z := [
  0; 1; 2; 3; 4; 5; 6; 7; 8; 10; 12; 14; 16; 20; 24; 28; 32; 40; 48; 56;
  64; 80; 96; 112; 128; 160; 192; 224; 0].

Definition base_dist : list Z := [
  0; 1; 2; 3; 4; 6; 8; 12; 16; 24; 32; 48; 64; 96; 128; 192; 256; 384; 512; 768;
  1024; 1536; 2048; 3072; 4096; 6144; 8192; 12288; 16384; 24576].

Definition extra_lbits : list Z :=
  [0;0;0;0;0;0;0;0;1;1;1;1;2;2;2;2;3;3;3;3;4;4;4;4;5;5;5;5;0].
Definition extra_dbits : list Z :=
  [0;0;0;0;1;1;2;2;3;3;4;4;5;5;6;6;7;7;8;8;9;9;10;10;11;11;12;12;13;13].
Definition extra_blbits : list Z := [0;0;0;0;0;0;0;0;0;0;0;0;0;0;0;0;2;3;7].
Definition bl_order : list nat := [16;17;18;0;8;7;9;6;10;5;11;4;12;3;13;2;14;1;15]%nat.

(** [d_code(dist)] *)
Definition d_code (dist : Z) : Z :=
  if dist <? 256 then get _dist_code dist else get _dist_code (256 + Z.shiftr dist 7).

(** ** The bit buffer *)

Record bitbuf := mk_bitbuf { pending : list Z; bi_buf : Z; bi_valid : Z }.

Definition put_byte (b : bitbuf) (c : Z) : bitbuf :=
  mk_bitbuf (pending b ++ [u8 c]) (bi_buf b) (bi_valid b).
Definition put_short (b : bitbuf) (w : Z) : bitbuf :=
  put_byte (put_byte b (Z.land w 0xff)) (Z.shiftr (u16 w) 8).

Definition send_bits (b : bitbuf) (value length : Z) : bitbuf :=
  if Buf_size - length <? bi_valid b then
    let buf := u16 (Z.lor (bi_buf b) (Z.shiftl (u16 value) (bi_valid b))) in
    let b' := put_short (mk_bitbuf (pending b) buf (bi_valid b)) buf in
    mk_bitbuf (pending b') (u16 (Z.shiftr (u16 value) (Buf_size - bi_valid b)))
      (bi_valid b + (length - Buf_size))
  else
    mk_bitbuf (pending b) (u16 (Z.lor (bi_buf b) (Z.shiftl (u16 value) (bi_valid b))))
      (bi_valid b + length).

(** [send_code(s, c, tree)] *)
Definition send_code (b : bitbuf) (c : nat) (tree : list ct_data) : bitbuf :=
  send_bits b (Code (ct tree c)) (Len (ct tree c)).

(** "Flush the bit buffer, keeping at most 7 bits in it." *)
Definition bi_flush (b : bitbuf) : bitbuf :=
  if bi_valid b =? 16 then
    let b := put_short b (bi_buf b) in mk_bitbuf (pending b) 0 0
  else if 8 <=? bi_valid b then
    let b := put_byte b (bi_buf b) in mk_bitbuf (pending b) (Z.shiftr (bi_buf b) 8) (bi_valid b - 8)
  else b.

(** "Flush the bit buffer and align the output on a byte boundary" *)
Definition bi_windup (b : bitbuf) : bitbuf :=
  let b :=
    if 8 <? bi_valid b then put_short b (bi_buf b)
    else if 0 <? bi_valid b then put_byte b (bi_buf b)
    else b in
  mk_bitbuf (pending b) 0 0.

(** ** Canonical codes *)

(** [do { res |= code & 1; code >>= 1, res <<= 1; } while (--len > 0);] *)
Fixpoint bi_reverse_loop (n : nat) (code res : Z) : Z :=
  let res := Z.lor res (Z.land code 1) in
  let code := Z.shiftr code 1 in
  let res := u32 (Z.shiftl res 1) in
  match n with
  | O | 1%nat => res
  | S n => bi_reverse_loop n code res
  end.
Definition bi_reverse (code : Z) (len : nat) : Z := Z.shiftr (bi_reverse_loop len code 0) 1.

(** The first loop of [gen_codes]: [next_code] from [bl_count]. *)
Definition first_codes (bl_count : list Z) : list Z :=
  snd (for_ 1 MAX_BITS (fun bits '(code, next_code) =>
    let code := u32 (Z.shiftl (u32 (code + getn bl_count (bits - 1))) 1) in
    (code, setn next_code bits (u16 code))) (0, replicate (S MAX_BITS) 0)).

(** [n] ranges over [0 .. max_code]; [max_code] may be -1. *)
Definition gen_codes (tree : list ct_data) (max_code : Z) (bl_count : list Z) : list ct_data :=
  snd (for_ 0 (Z.to_nat (max_code + 1)) (fun n '(next_code, tree) =>
    let len := Z.to_nat (Len (ct tree n)) in
    if (len =? 0)%nat then (next_code, tree)
    else (setn next_code len (u16 (getn next_code len + 1)),
          set_fc tree n (u16 (bi_reverse (getn next_code len) len))))
    (first_codes bl_count, tree)).

(** ** The static trees *)

Definition static_tables : Type :=
  list ct_data * list ct_data * list Z * list Z * list Z * list Z.

(** [for (n = 0; n < (1 << extra); n++) a[k++] = code;] *)
Definition set_run (times : Z) (k : nat) (code : nat) (a : list Z) : nat * list Z :=
  for_ 0 (Z.to_nat times) (fun _ '(k, a) => (S k, setn a k (u8 (Z.of_nat code)))) (k, a).

(** The mapping of lengths: [base_length], [_length_code]. *)
Definition init_lengths : list Z * list Z :=
  let '(length, base, codes) :=
    for_ 0 (LENGTH_CODES - 1) (fun code '(length, base, codes) =>
      let base := setn base code (Z.of_nat length) in
      let '(length, codes) := set_run (Z.shiftl 1 (getn extra_lbits code)) length code codes in
      (length, base, codes)) (0%nat, replicate LENGTH_CODES 0, replicate 256 0) in
  (base, setn codes (length - 1) (u8 (Z.of_nat (LENGTH_CODES - 1)))).

(** The mapping of distances: [base_dist], [_dist_code]. *)
Definition init_dists : list Z * list Z :=
  let '(dist, base, codes) :=
    for_ 0 16 (fun code '(dist, base, codes) =>
      let base := setn base code (Z.of_nat dist) in
      let '(dist, codes) := set_run (Z.shiftl 1 (getn extra_dbits code)) dist code codes in
      (dist, base, codes)) (0%nat, replicate D_CODES 0, replicate 512 0) in
  let dist := Z.to_nat (Z.shiftr (Z.of_nat dist) 7) in
  let '(dist, base, codes) :=
    for_ 16 (D_CODES - 16) (fun code '(dist, base, codes) =>
      let base := setn base code (Z.shiftl (Z.of_nat dist) 7) in
      let '(k, codes) := set_run (Z.shiftl 1 (getn extra_dbits code - 7)) (256 + dist) code codes in
      ((k - 256)%nat, base, codes)) (dist, base, codes) in
  (base, codes).

(** [while (n <= hi) static_ltree[n++].Len = len, bl_count[len]++;] from [n = lo]. *)
Definition set_len_run (lo hi : nat) (len : nat) (s : list ct_data * list Z) : list ct_data * list Z :=
  for_ lo (S hi - lo) (fun n '(tree, bl_count) =>
    (set_dl tree n (Z.of_nat len), setn bl_count len (u16 (getn bl_count len + 1)))) s.

Definition init_ltree : list ct_data :=
  let s := (replicate (L_CODES + 2) (mk_ct 0 0), replicate (S MAX_BITS) 0) in
  let s := set_len_run 0 143 8 s in
  let s := set_len_run 144 255 9 s in
  let s := set_len_run 256 279 7 s in
  let '(tree, bl_count) := set_len_run 280 287 8 s in
  gen_codes tree (Z.of_nat (L_CODES + 1)) bl_count.

Definition init_dtree : list ct_data :=
  for_ 0 D_CODES (fun n tree =>
    set_fc (set_dl tree n 5) n (u16 (bi_reverse (Z.of_nat n) 5))) (replicate D_CODES (mk_ct 0 0)).

Definition tr_static_init : static_tables :=
  let '(base_length, _length_code) := init_lengths in
  let '(base_dist, _dist_code) := init_dists in
  (init_ltree, init_dtree, _dist_code, _length_code, base_length, base_dist).

(** ** Emitting blocks *)

(** One symbol of the buffers: a literal, or a match of length [lc + MIN_MATCH]. *)
Definition send_symbol (ltree dtree : list ct_data) (b : bitbuf) (dist lc : Z) : bitbuf :=
  if dist =? 0 then send_code b (Z.to_nat lc) ltree
  else
    let code := get _length_code lc in
    let b := send_code b (Z.to_nat code + LITERALS + 1) ltree in
    let extra := get extra_lbits code in
    let b := if negb (extra =? 0) then send_bits b (lc - get base_length code) extra else b in
    let dist := dist - 1 in
    let code := d_code dist in
    let b := send_code b (Z.to_nat code) dtree in
    let extra := get extra_dbits code in
    if negb (extra =? 0) then send_bits b (dist - get base_dist code) extra else b.

Definition compress_block (ltree dtree : list ct_data) (d_buf l_buf : list Z) (last_lit : nat)
    (b : bitbuf) : bitbuf :=
  let b := for_ 0 last_lit (fun lx b => send_symbol ltree dtree b (getn d_buf lx) (getn l_buf lx)) b in
  send_code b END_BLOCK ltree.

(** [last] is 0 or 1. *)
Definition _tr_stored_block (b : bitbuf) (buf : list Z) (last : Z) : bitbuf :=
  let stored_len := Z.of_nat (length buf) in
  let b := send_bits b (Z.shiftl STORED_BLOCK 1 + last) 3 in
  let b := bi_windup b in
  let b := put_short b (u16 stored_len) in
  let b := put_short b (u16 (Z.lnot stored_len)) in
  mk_bitbuf (pending b ++ buf) (bi_buf b) (bi_valid b).

Definition _tr_flush_bits : bitbuf -> bitbuf := bi_flush.

Definition _tr_align (b : bitbuf) : bitbuf :=
  let b := send_bits b (Z.shiftl STATIC_TREES 1) 3 in
  bi_flush (send_code b END_BLOCK static_ltree).

(** ** The static trees are generated *)

(** The tables of trees.h are those [tr_static_init] computes: the lengths of
    the fixed code, the canonical codes [gen_codes] assigns to them with their
    bits reversed, and the mappings of match lengths and distances. *)
Lemma tr_static_init_tables :
  tr_static_init = (static_ltree, static_dtree, _dist_code, _length_code, base_length, base_dist).
Proof. vm_compute. reflexivity. Qed.

(** ** The bit buffer writes a stream of bits *)

(** The [n] low bits of [v], the lowest first. *)
Definition bits_of (v : Z) (n : nat) : list bool := map (fun i => Z.testbit v (Z.of_nat i)) (seq 0 n).
Definition byte_bits (l : list Z) : list bool := concat (map (fun c => bits_of c 8) l).

(** The bits sent so far: the bytes put out, then those that wait. *)
Definition stream (b : bitbuf) : list bool :=
  byte_bits (pending b) ++ bits_of (bi_buf b) (Z.to_nat (bi_valid b)).

Definition bitbuf_ok (b : bitbuf) : Prop :=
  bytes_ok (pending b) /\ 0 <= bi_valid b <= 16 /\ 0 <= bi_buf b < 2 ^ bi_valid b.

Lemma length_bits_of v n : length (bits_of v n) = n.
Proof. unfold bits_of. by rewrite length_map, length_seq. Qed.

Lemma bits_of_ext v w n :
  (forall i, 0 <= i < Z.of_nat n -> Z.testbit v i = Z.testbit w i) -> bits_of v n = bits_of w n.
Proof. intros E. apply map_ext_in. intros i Hi. apply in_seq in Hi. apply E. lia. Qed.

Lemma bits_of_app v n m : bits_of v (n + m) = bits_of v n ++ bits_of (Z.shiftr v (Z.of_nat n)) m.
Proof.
  unfold bits_of. rewrite seq_app, map_app. f_equal. simpl.
  assert (E : seq n m = Nat.add n <$> seq 0 m) by (rewrite fmap_add_seq; f_equal; lia).
  rewrite E. change (Nat.add n <$> seq 0 m) with (map (Nat.add n) (seq 0 m)).
  rewrite map_map. apply map_ext. intros i. rewrite Z.shiftr_spec by lia. f_equal. lia.
Qed.

Lemma bits_of_u16 v n : (n <= 16)%nat -> bits_of (u16 v) n = bits_of v n.
Proof. intros. apply bits_of_ext. intros. unfold u16. rewrite Z.mod_pow2_bits_low; lia || done. Qed.

Lemma bits_of_u8 v n : (n <= 8)%nat -> bits_of (u8 v) n = bits_of v n.
Proof. intros. apply bits_of_ext. intros. unfold u8. rewrite Z.mod_pow2_bits_low; lia || done. Qed.

Lemma bits_of_0 n : bits_of 0 n = replicate n false.
Proof.
  unfold bits_of. rewrite <- (length_seq n 0) at 2. induction (seq 0 n); cbn; [done|].
  by rewrite Z.bits_0, IHl.
Qed.

Lemma byte_bits_app a b : byte_bits (a ++ b) = byte_bits a ++ byte_bits b.
Proof. unfold byte_bits. by rewrite map_app, concat_app. Qed.

Lemma byte_bits_short w : byte_bits [u8 (Z.land w 0xff); u8 (Z.shiftr (u16 w) 8)] = bits_of w 16.
Proof.
  unfold byte_bits. cbn [map concat]. rewrite app_nil_r, !bits_of_u8 by done.
  change 16%nat with (8 + 8)%nat. rewrite (bits_of_app w 8 8). f_equal; apply bits_of_ext; intros i Hi.
  - change 0xff with (2 ^ 8 - 1). rewrite land_ones_mod, Z.mod_pow2_bits_low by lia. done.
  - rewrite !Z.shiftr_spec by lia. unfold u16. rewrite Z.mod_pow2_bits_low by lia. done.
Qed.

Lemma put_short_stream b w :
  pending (put_short b w) = pending b ++ [u8 (Z.land w 0xff); u8 (Z.shiftr (u16 w) 8)].
Proof. cbn. by rewrite <- app_assoc. Qed.

(** The waiting bits with [n] more of [v] above them. *)
Lemma bits_of_lor x k v n : 0 <= x < 2 ^ Z.of_nat k ->
  bits_of (Z.lor x (Z.shiftl v (Z.of_nat k))) (k + n) = bits_of x k ++ bits_of v n.
Proof.
  intros Hx. rewrite bits_of_app. f_equal; apply bits_of_ext; intros i Hi.
  - rewrite Z.lor_spec, Z.shiftl_spec_low by lia. apply orb_false_r.
  - rewrite Z.shiftr_spec, Z.lor_spec, Z.shiftl_spec, (testbit_high x (Z.of_nat k)) by lia.
    simpl. f_equal. lia.
Qed.

Lemma lor_shiftl_bound x k v n :
  0 <= x < 2 ^ k -> 0 <= v < 2 ^ n -> 0 <= k -> 0 <= n ->
  0 <= Z.lor x (Z.shiftl v k) < 2 ^ (k + n).
Proof.
  intros Hx Hv Hk Hn. rewrite Z.lor_comm, lor_shiftl_add by done.
  rewrite Z.pow_add_r by lia. nia.
Qed.

Lemma send_bits_stream b v n : bitbuf_ok b -> 0 <= n <= 16 -> 0 <= v < 2 ^ n ->
  bitbuf_ok (send_bits b v n) /\ stream (send_bits b v n) = stream b ++ bits_of v (Z.to_nat n).
Proof.
  destruct b as [p x k]. intros (Hp & Hk & Hx) Hn Hv. cbn [pending bi_buf bi_valid] in *.
  pose proof (Z.pow_le_mono_r 2 n 16 ltac:(lia) ltac:(lia)) as L16.
  pose proof (lor_shiftl_bound x k v n Hx Hv ltac:(lia) ltac:(lia)) as Bw.
  pose proof (bits_of_lor x (Z.to_nat k) v (Z.to_nat n)) as Ew. rewrite Z2Nat.id in Ew by lia.
  specialize (Ew Hx). unfold send_bits, stream, bitbuf_ok, Buf_size. cbn [pending bi_buf bi_valid].
  rewrite (u16_id v) by lia. set (w := Z.lor x (Z.shiftl v k)) in *.
  destruct (Z.ltb_spec (16 - n) k).
  - cbn [pending bi_buf bi_valid]. rewrite put_short_stream. cbn [pending].
    assert (Es : Z.shiftr v (16 - k) = Z.shiftr w 16).
    { apply Z.bits_inj'. intros i Hi. unfold w. rewrite !Z.shiftr_spec, Z.lor_spec, Z.shiftl_spec by lia.
      rewrite (testbit_high x k) by lia. simpl. f_equal. lia. }
    rewrite Es. rewrite (u16_id (Z.shiftr w 16)).
    2:{ rewrite Z.shiftr_div_pow2 by lia. split; [apply Z.div_pos; lia|].
        apply Z.div_lt_upper_bound; [lia|]. rewrite <- Z.pow_add_r by lia.
        pose proof (Z.pow_le_mono_r 2 (k + n) 32 ltac:(lia) ltac:(lia)). change (16 + 16) with 32. lia. }
    split.
    + split; [|split; [lia|]].
      * apply Forall_app. split; [done|]. repeat constructor; auto with bytes; apply u8_range.
      * rewrite Z.shiftr_div_pow2 by lia. split; [apply Z.div_pos; lia|].
        apply Z.div_lt_upper_bound; [lia|]. rewrite <- Z.pow_add_r by lia.
        replace (16 + (k + (n - 16))) with (k + n) by lia. lia.
    + rewrite byte_bits_app. unfold u16 at 1 2. rewrite byte_bits_short.
      fold (u16 w). rewrite bits_of_u16 by done. rewrite <- !app_assoc. f_equal. rewrite <- Ew.
      replace (Z.to_nat k + Z.to_nat n)%nat with (16 + Z.to_nat (k + (n - 16)))%nat by lia.
      by rewrite bits_of_app.
  - rewrite (u16_id w).
    2:{ pose proof (Z.pow_le_mono_r 2 (k + n) 16 ltac:(lia) ltac:(lia)). lia. }
    cbn [pending bi_buf bi_valid]. split; [split; [done|split; [lia|done]]|].
    rewrite <- app_assoc. f_equal. rewrite <- Ew. f_equal. lia.
Qed.

Lemma bi_flush_stream b : bitbuf_ok b ->
  bitbuf_ok (bi_flush b) /\ stream (bi_flush b) = stream b /\ bi_valid (bi_flush b) < 8.
Proof.
  destruct b as [p x k]. intros (Hp & Hk & Hx). cbn [pending bi_buf bi_valid] in *.
  unfold bi_flush, stream, bitbuf_ok. cbn [pending bi_buf bi_valid].
  destruct (Z.eqb_spec k 16) as [->|Hk16]; [|destruct (Z.leb_spec 8 k)].
  - cbn [bi_buf bi_valid pending]. rewrite put_short_stream. cbn [pending]. split; [|split; [|lia]].
    + split; [|lia]. apply Forall_app. split; [done|]. repeat constructor; apply u8_range.
    + by rewrite byte_bits_app, byte_bits_short, app_nil_r.
  - cbn [bi_buf bi_valid pending put_byte]. split; [|split; [|lia]].
    + split; [|split; [lia|]].
      * apply Forall_app. split; [done|]. repeat constructor; apply u8_range.
      * rewrite Z.shiftr_div_pow2 by lia. split; [apply Z.div_pos; lia|].
        apply Z.div_lt_upper_bound; [lia|]. rewrite <- Z.pow_add_r by lia.
        replace (8 + (k - 8)) with k by lia. lia.
    + rewrite byte_bits_app, <- app_assoc. f_equal. unfold byte_bits. cbn [map concat].
      rewrite app_nil_r, bits_of_u8 by done.
      replace (Z.to_nat k) with (8 + Z.to_nat (k - 8))%nat by lia. by rewrite bits_of_app.
  - cbn [bi_buf bi_valid pending]. done || (split; [done|split; [done|lia]]).
Qed.

(** [n] waiting bits, then zeros. *)
Lemma bits_of_small x k n : 0 <= x < 2 ^ Z.of_nat k ->
  bits_of x (k + n) = bits_of x k ++ replicate n false.
Proof.
  intros Hx. rewrite bits_of_app. f_equal. rewrite <- bits_of_0. f_equal.
  rewrite Z.shiftr_div_pow2 by lia. apply Z.div_small. lia.
Qed.

Lemma bi_windup_stream b : bitbuf_ok b ->
  bitbuf_ok (bi_windup b) /\ bi_valid (bi_windup b) = 0 /\
  stream (bi_windup b) = stream b ++ replicate (Z.to_nat (- bi_valid b mod 8)) false.
Proof.
  destruct b as [p x k]. intros (Hp & Hk & Hx). cbn [pending bi_buf bi_valid] in *.
  unfold bi_windup, stream, bitbuf_ok. cbn [pending bi_buf bi_valid].
  pose proof (bits_of_small x (Z.to_nat k)) as Es. rewrite Z2Nat.id in Es by lia.
  destruct (Z.ltb_spec 8 k); [|destruct (Z.ltb_spec 0 k)].
  - rewrite put_short_stream. cbn [pending]. split; [|split; [done|]].
    + split; [|lia]. apply Forall_app. split; [done|]. repeat constructor; apply u8_range.
    + rewrite byte_bits_app, byte_bits_short, app_nil_r, <- app_assoc. f_equal. rewrite <- Es by done.
      f_equal. rewrite <- (Z.mod_add _ 2), Z.mod_small by lia. lia.
  - cbn [put_byte pending]. split; [|split; [done|]].
    + split; [|lia]. apply Forall_app. split; [done|]. repeat constructor; apply u8_range.
    + rewrite byte_bits_app, app_nil_r, <- app_assoc. f_equal. unfold byte_bits. cbn [map concat].
      rewrite app_nil_r, bits_of_u8, <- Es by done.
      f_equal. rewrite <- (Z.mod_add _ 1), Z.mod_small by lia. lia.
  - replace k with 0 by lia. cbn [pending]. split; [split; [done|lia]|]. split; [done|].
    cbn. by rewrite !app_nil_r.
Qed.

(** ** Blocks *)

Lemma put_short_aligned b w : bitbuf_ok b -> bi_valid b = 0 ->
  bitbuf_ok (put_short b w) /\ bi_valid (put_short b w) = 0 /\
  stream (put_short b w) = stream b ++ bits_of w 16.
Proof.
  destruct b as [p x k]. intros (Hp & _ & Hx) Hk. cbn [pending bi_buf bi_valid] in *. subst k.
  unfold stream, bitbuf_ok. rewrite put_short_stream. cbn [put_short put_byte bi_buf bi_valid pending].
  split; [|split; [done|]].
  - split; [|done]. apply Forall_app. split; [done|]. repeat constructor; apply u8_range.
  - by rewrite byte_bits_app, byte_bits_short, !app_nil_r.
Qed.

(** A stored block, from a buffer with any number of waiting bits: the three
    bits of the header, zeros to the next byte boundary, the length, its
    complement, and the bytes as they are; flushing the buffer changes nothing of
    what has been sent and leaves fewer than eight bits waiting. *)
Lemma stored_block_stream b buf last
    (Hb : bitbuf_ok b) (Hl : last = 0 \/ last = 1) (Hbuf : bytes_ok buf) :
  let b' := _tr_stored_block b buf last in
  let pad := Z.to_nat (- (bi_valid b + 3) mod 8) in
  let len := Z.of_nat (length buf) in
  bitbuf_ok b' /\ bi_valid b' = 0 /\
  stream b' = stream b ++ bits_of last 3 ++ replicate pad false ++
              bits_of len 16 ++ bits_of (Z.lnot len) 16 ++ byte_bits buf /\
  stream (_tr_flush_bits b) = stream b /\ bi_valid (_tr_flush_bits b) < 8.
Proof.
  cbn zeta. pose proof (bi_flush_stream b Hb) as (_ & F1 & F2).
  unfold _tr_stored_block, STORED_BLOCK. change (Z.shiftl 0 1 + last) with last.
  destruct (send_bits_stream b last 3 Hb ltac:(lia) ltac:(lia)) as [O1 S1].
  destruct (bi_windup_stream _ O1) as (O2 & V2 & S2).
  assert (P : - bi_valid (send_bits b last 3) mod 8 = - (bi_valid b + 3) mod 8).
  { unfold send_bits, Buf_size. destruct (_ <? _); cbn [bi_valid]; [|done].
    replace (- (bi_valid b + (3 - 16))) with (- (bi_valid b + 3) + 2 * 8) by lia. apply Z.mod_add. lia. }
  rewrite P in S2. revert O2 V2 S2. generalize (bi_windup (send_bits b last 3)). intros b2 O2 V2 S2.
  set (len := Z.of_nat (length buf)).
  destruct (put_short_aligned b2 (u16 len) O2 V2) as (O3 & V3 & S3).
  revert O3 V3 S3. generalize (put_short b2 (u16 len)). intros b3 O3 V3 S3.
  destruct (put_short_aligned b3 (u16 (Z.lnot len)) O3 V3) as (O4 & V4 & S4).
  revert O4 V4 S4. generalize (put_short b3 (u16 (Z.lnot len))). intros [p4 x4 k4] (Hp4 & Hk4 & Hx4) V4 S4.
  cbn [pending bi_buf bi_valid] in *. subst k4. split; [|split; [done|split; [|done]]].
  - split; [by apply Forall_app|done].
  - unfold stream at 1. cbn [pending bi_buf bi_valid].
    assert (E4 : byte_bits p4 = stream (mk_bitbuf p4 x4 0)) by (unfold stream; cbn; by rewrite app_nil_r).
    change (bits_of x4 (Z.to_nat 0)) with (@nil bool).
    rewrite byte_bits_app, app_nil_r, E4, S4, S3, S2, S1, !bits_of_u16, <- !app_assoc by done. done.
Qed.

Lemma stored_block_stream_witness :
  pending (_tr_stored_block (mk_bitbuf [] 5 3) [65; 66] 1) = [13; 2; 0; 253; 255; 65; 66] /\
  stream (_tr_stored_block (mk_bitbuf [] 5 3) [65; 66] 1) =
  [true; false; true] ++ bits_of 1 3 ++ replicate 2 false ++ bits_of 2 16 ++ bits_of (-3) 16 ++ byte_bits [65; 66].
Proof.
  split; [vm_compute; reflexivity|].
  assert (O : bitbuf_ok (mk_bitbuf [] 5 3)) by (split; [constructor|cbn; lia]).
  assert (B : bytes_ok [65; 66]) by (repeat constructor; unfold byte_ok; lia).
  destruct (stored_block_stream (mk_bitbuf [] 5 3) [65; 66] 1 O (or_intror eq_refl) B)
    as (_ & _ & H & _). exact H.
Defined.

(** ** Decoding a block of the fixed code

    The reference decoder reads a stream of bits with the tables of inffixed.h:
    an operation of 0 is a literal, bit 4 a base with [op & 15] extra bits, bit 5
    the end of the block. *)

Fixpoint bits_val (bs : list bool) : Z :=
  match bs with
  | [] => 0
  | b :: bs => Z.b2z b + 2 * bits_val bs
  end.
Definition peek (n : nat) (bs : list bool) : Z := bits_val (take n bs).
Definition entry (t : list Inftrees.code) (i : Z) : Inftrees.code :=
  nth (Z.to_nat i) t (Inftrees.mk_code 64 0 0).

Inductive symbol := Literal (c : Z) | Match (dist len : Z) | EndOfBlock.

(** A base value and its extra bits. *)
Definition read_extra (here : Inftrees.code) (bs : list bool) : Z * list bool :=
  let e := Z.to_nat (Z.land (Inftrees.c_op here) 15) in
  (Inftrees.c_val here + peek e bs, drop e bs).

Definition read_symbol (bs : list bool) : option (symbol * list bool) :=
  let here := entry Inftrees.lenfix (peek 9 bs) in
  let bs := drop (Z.to_nat (Inftrees.c_bits here)) bs in
  if Inftrees.c_op here =? 0 then Some (Literal (Inftrees.c_val here), bs)
  else if Z.testbit (Inftrees.c_op here) 4 then
    let '(len, bs) := read_extra here bs in
    let here := entry Inftrees.distfix (peek 5 bs) in
    let bs := drop (Z.to_nat (Inftrees.c_bits here)) bs in
    if Z.testbit (Inftrees.c_op here) 4 then
      let '(dist, bs) := read_extra here bs in Some (Match dist len, bs)
    else None
  else if Z.testbit (Inftrees.c_op here) 5 then Some (EndOfBlock, bs)
  else None.

Fixpoint read_block (fuel : nat) (bs : list bool) : option (list symbol * list bool) :=
  match fuel with
  | O => None
  | S fuel =>
      match read_symbol bs with
      | None => None
      | Some (EndOfBlock, bs) => Some ([], bs)
      | Some (s, bs) =>
          match read_block fuel bs with
          | Some (l, bs) => Some (s :: l, bs)
          | None => None
          end
      end
  end.

(** What the buffers of [compress_block] stand for. *)
Definition symbol_of (dist lc : Z) : symbol :=
  if dist =? 0 then Literal lc else Match dist (lc + MIN_MATCH).
Definition symbol_ok (dist lc : Z) : Prop := 0 <= lc < 256 /\ 0 <= dist <= 32768.

Lemma bits_val_bounds bs : 0 <= bits_val bs < 2 ^ Z.of_nat (length bs).
Proof.
  induction bs as [|b bs IH]; cbn [bits_val length]; [done|].
  rewrite Nat2Z.inj_succ, Z.pow_succ_r by lia. destruct b; cbn [Z.b2z]; lia.
Qed.

Lemma bits_val_app a b : bits_val (a ++ b) = bits_val a + 2 ^ Z.of_nat (length a) * bits_val b.
Proof.
  induction a as [|x a IH]; cbn [bits_val length app]; [change (2 ^ Z.of_nat 0) with 1; lia|].
  rewrite Nat2Z.inj_succ, Z.pow_succ_r, IH by lia. lia.
Qed.

Lemma bits_val_of n : forall v, 0 <= v < 2 ^ Z.of_nat n -> bits_val (bits_of v n) = v.
Proof.
  induction n as [|n IH]; intros v Hv; [cbn in *; lia|].
  change (S n) with (1 + n)%nat. rewrite bits_of_app. rewrite Nat2Z.inj_succ, Z.pow_succ_r in Hv by lia.
  cbn [bits_of seq map app bits_val].
  change (map (fun i => Z.testbit (Z.shiftr v (Z.of_nat 1)) (Z.of_nat i)) (seq 0 n))
    with (bits_of (Z.shiftr v 1) n).
  change (Z.of_nat 1) with 1. assert (E : Z.shiftr v 1 = v / 2) by (rewrite Z.shiftr_div_pow2 by lia; done).
  rewrite E, IH by (split; [apply Z.div_pos; lia|apply Z.div_lt_upper_bound; lia]).
  change (Z.of_nat 0) with 0. rewrite (Z.bit0_mod v). pose proof (Z.div_mod v 2). lia.
Qed.

(** Reading a field that has been sent. *)
Lemma peek_bits_of v n rest : 0 <= v < 2 ^ Z.of_nat n -> peek n (bits_of v n ++ rest) = v.
Proof. intros. unfold peek. rewrite take_app_length' by (symmetry; apply length_bits_of). by apply bits_val_of. Qed.

Lemma drop_bits_of v n rest : drop n (bits_of v n ++ rest) = rest.
Proof. apply drop_app_length'. symmetry. apply length_bits_of. Qed.

(** Looking [m] bits ahead of a code of [n] bits: the code below anything. *)
Lemma peek_code v n m rest : 0 <= v < 2 ^ Z.of_nat n -> (n <= m)%nat ->
  exists y, 0 <= y < 2 ^ Z.of_nat (m - n) /\ peek m (bits_of v n ++ rest) = v + 2 ^ Z.of_nat n * y.
Proof.
  intros Hv Hm. exists (bits_val (take (m - n) rest)). split.
  - pose proof (bits_val_bounds (take (m - n) rest)). rewrite length_take in *.
    pose proof (Z.pow_le_mono_r 2 (Z.of_nat (Nat.min (m - n) (length rest))) (Z.of_nat (m - n))). lia.
  - unfold peek. rewrite take_app_ge, length_bits_of by (rewrite length_bits_of; lia).
    by rewrite bits_val_app, bits_val_of, length_bits_of.
Qed.

(** The code of symbol [c] of [tree] is [Len] bits that lead [table] to [here]. *)
Definition leads_to (m : nat) (tree : list ct_data) (table : list Inftrees.code) (c : Z) (here : Inftrees.code) : bool :=
  let e := ct tree (Z.to_nat c) in
  let n := Z.to_nat (Len e) in
  (0 <=? Code e) && (Code e <? 2 ^ Len e) && (0 <? Len e) && (Len e <=? Z.of_nat m) && (Len e =? Inftrees.c_bits here) &&
  all_below (Nat.pow 2 (m - n)) (fun y => bool_decide (entry table (Code e + 2 ^ Len e * y) = here)).

Lemma leads_to_spec m tree table c here rest : leads_to m tree table c here = true ->
  let e := ct tree (Z.to_nat c) in
  0 <= Len e <= Z.of_nat m /\ 0 <= Code e < 2 ^ Len e /\ Len e = Inftrees.c_bits here /\
  entry table (peek m (bits_of (Code e) (Z.to_nat (Len e)) ++ rest)) = here.
Proof.
  unfold leads_to. cbv zeta. set (e := ct tree (Z.to_nat c)). rewrite !andb_true_iff.
  intros [[[[[H1 H2] H3] H4] H5] A]. repeat split; try lia.
  destruct (peek_code (Code e) (Z.to_nat (Len e)) m rest) as (y & Hy & ->); rewrite ?Z2Nat.id by lia; [lia..|].
  assert (Hy' : 0 <= y < Z.of_nat (2 ^ (m - Z.to_nat (Len e)))) by by rewrite Nat2Z.inj_pow.
  apply (all_below_spec _ _ A y), bool_decide_eq_true in Hy'. done.
Qed.

(** Every code of the fixed trees leads the tables of inffixed.h to its symbol. *)
Definition literal_here (c : Z) : Inftrees.code := Inftrees.mk_code 0 (Len (ct static_ltree (Z.to_nat c))) c.
Definition length_here (k : Z) : Inftrees.code :=
  Inftrees.mk_code (16 + get extra_lbits k) (Len (ct static_ltree (Z.to_nat (257 + k))))
    (if k =? 28 then 258 else get base_length k + MIN_MATCH).
Definition dist_here (k : Z) : Inftrees.code :=
  Inftrees.mk_code (16 + get extra_dbits k) 5 (get base_dist k + 1).

Lemma literal_codes c : 0 <= c < 256 -> leads_to 9 static_ltree Inftrees.lenfix c (literal_here c) = true.
Proof. apply (all_below_spec 256 (fun c => leads_to 9 static_ltree Inftrees.lenfix c (literal_here c))). vm_compute. reflexivity. Qed.

Lemma end_code : leads_to 9 static_ltree Inftrees.lenfix 256 (Inftrees.mk_code 96 7 0) = true.
Proof. vm_compute. reflexivity. Qed.

Lemma length_codes k : 0 <= k < 29 -> leads_to 9 static_ltree Inftrees.lenfix (257 + k) (length_here k) = true.
Proof. apply (all_below_spec 29 (fun k => leads_to 9 static_ltree Inftrees.lenfix (257 + k) (length_here k))). vm_compute. reflexivity. Qed.

Lemma dist_codes k : 0 <= k < 30 -> leads_to 5 static_dtree Inftrees.distfix k (dist_here k) = true.
Proof. apply (all_below_spec 30 (fun k => leads_to 5 static_dtree Inftrees.distfix k (dist_here k))). vm_compute. reflexivity. Qed.

(** A code with its extra bits covers the value: the base plus what is sent. *)
Definition length_split (lc : Z) : bool :=
  let k := get _length_code lc in
  let e := get extra_lbits k in
  (0 <=? k) && (k <? 29) && (0 <=? e) && (e <=? 5) &&
  if e =? 0 then Inftrees.c_val (length_here k) =? lc + MIN_MATCH
  else (Inftrees.c_val (length_here k) =? get base_length k + MIN_MATCH) &&
       (0 <=? lc - get base_length k) && (lc - get base_length k <? 2 ^ e).
Definition dist_split (d : Z) : bool :=
  let k := d_code d in
  let e := get extra_dbits k in
  (0 <=? k) && (k <? 30) && (0 <=? e) && (e <=? 13) &&
  if e =? 0 then get base_dist k =? d
  else (0 <=? d - get base_dist k) && (d - get base_dist k <? 2 ^ e).

Lemma length_split_all lc : 0 <= lc < 256 -> length_split lc = true.
Proof. apply (all_below_spec 256). vm_compute. reflexivity. Qed.

(** From 256 on the code depends on the distance divided by 128. *)
Definition far_split (h : Z) : bool :=
  let k := get _dist_code (256 + h) in
  let e := get extra_dbits k in
  (h <? 2) ||
  ((0 <=? k) && (k <? 30) && (7 <=? e) && (e <=? 13) &&
   (get base_dist k <=? 128 * h) && (128 * h + 128 <=? get base_dist k + 2 ^ e)).

Lemma dist_split_all d : 0 <= d < 32768 -> dist_split d = true.
Proof.
  intros Hd. destruct (Z.lt_ge_cases d 256) as [N|F].
  { apply (all_below_spec 256 dist_split); [vm_compute; reflexivity|lia]. }
  assert (Hh : 0 <= d / 128 < 256) by (split; [apply Z.div_pos|apply Z.div_lt_upper_bound]; lia).
  pose proof (all_below_spec 256 far_split ltac:(vm_compute; reflexivity) _ Hh) as S.
  unfold far_split, dist_split, d_code in *. destruct (Z.ltb_spec d 256); [lia|]. cbv zeta in *.
  rewrite Z.shiftr_div_pow2 by lia. change (2 ^ 7) with 128.
  pose proof (Z.div_mod d 128 ltac:(lia)). pose proof (Z.mod_pos_bound d 128 ltac:(lia)).
  assert (2 <= d / 128) by (apply Z.div_le_lower_bound; lia).
  destruct (Z.ltb_spec (d / 128) 2); [lia|]. cbn [orb] in S. rewrite !andb_true_iff in S.
  destruct (Z.eqb_spec (get extra_dbits (get _dist_code (256 + d / 128))) 0); [lia|].
  rewrite !andb_true_iff. lia.
Qed.

(** The bits of a code, and of a field that is left out when it is empty. *)
Definition code_bits (tree : list ct_data) (c : nat) : list bool :=
  bits_of (Code (ct tree c)) (Z.to_nat (Len (ct tree c))).
Definition symbol_bits (dist lc : Z) : list bool :=
  if dist =? 0 then code_bits static_ltree (Z.to_nat lc)
  else
    let k := get _length_code lc in
    let j := d_code (dist - 1) in
    code_bits static_ltree (Z.to_nat k + LITERALS + 1) ++
    bits_of (lc - get base_length k) (Z.to_nat (get extra_lbits k)) ++
    code_bits static_dtree (Z.to_nat j) ++
    bits_of (dist - 1 - get base_dist j) (Z.to_nat (get extra_dbits j)).

Lemma send_code_stream m b tree table c here : bitbuf_ok b -> (m <= 16)%nat ->
  leads_to m tree table c here = true ->
  bitbuf_ok (send_code b (Z.to_nat c) tree) /\
  stream (send_code b (Z.to_nat c) tree) = stream b ++ code_bits tree (Z.to_nat c).
Proof.
  intros Hb Hm Hc. destruct (leads_to_spec _ _ _ _ _ [] Hc) as (H1 & H2 & _).
  apply send_bits_stream; [done|lia|done].
Qed.

(** [if (extra != 0) send_bits(s, v, extra)] *)
Lemma send_extra_stream b v e : bitbuf_ok b -> 0 <= e <= 13 -> (e <> 0 -> 0 <= v < 2 ^ e) ->
  let b' := if negb (e =? 0) then send_bits b v e else b in
  bitbuf_ok b' /\ stream b' = stream b ++ bits_of v (Z.to_nat e).
Proof.
  intros Hb He Hv. cbn zeta. destruct (Z.eqb_spec e 0) as [->|Hn]; cbn [negb].
  - change (bits_of v (Z.to_nat 0)) with (@nil bool). by rewrite app_nil_r.
  - apply send_bits_stream; [done|lia|auto].
Qed.

Lemma length_symbol k : 0 <= k -> (Z.to_nat k + LITERALS + 1)%nat = Z.to_nat (257 + k).
Proof. unfold LITERALS. lia. Qed.

Lemma length_split_spec lc : 0 <= lc < 256 ->
  let k := get _length_code lc in
  let e := get extra_lbits k in
  0 <= k < 29 /\ 0 <= e <= 5 /\ (e <> 0 -> 0 <= lc - get base_length k < 2 ^ e) /\
  Inftrees.c_val (length_here k) + (if e =? 0 then 0 else lc - get base_length k) = lc + MIN_MATCH.
Proof.
  intros H. apply length_split_all in H. unfold length_split in H. cbv zeta in *.
  revert H. destruct (get extra_lbits _ =? 0) eqn:E; rewrite !andb_true_iff; intros H;
    repeat split; intros; lia.
Qed.

Lemma dist_split_spec d : 0 <= d < 32768 ->
  let k := d_code d in
  let e := get extra_dbits k in
  0 <= k < 30 /\ 0 <= e <= 13 /\ (e <> 0 -> 0 <= d - get base_dist k < 2 ^ e) /\
  get base_dist k + (if e =? 0 then 0 else d - get base_dist k) = d.
Proof.
  intros H. apply dist_split_all in H. unfold dist_split in H. cbv zeta in *.
  revert H. destruct (get extra_dbits _ =? 0) eqn:E; rewrite !andb_true_iff; intros H;
    repeat split; intros; lia.
Qed.

Lemma send_symbol_stream b dist lc : bitbuf_ok b -> symbol_ok dist lc ->
  let b' := send_symbol static_ltree static_dtree b dist lc in
  bitbuf_ok b' /\ stream b' = stream b ++ symbol_bits dist lc.
Proof.
  intros Hb [Hlc Hd]. unfold send_symbol, symbol_bits. cbv zeta.
  destruct (Z.eqb_spec dist 0) as [->|Hn].
  { eapply send_code_stream; [done| |by apply literal_codes]. lia. }
  destruct (length_split_spec lc Hlc) as (Hk & He & Hx & _).
  destruct (dist_split_spec (dist - 1) ltac:(lia)) as (Hj & Hf & Hy & _). cbv zeta in *.
  rewrite length_symbol by lia.
  destruct (send_code_stream 9 b _ _ _ _ Hb ltac:(lia) (length_codes _ Hk)) as [O1 S1].
  destruct (send_extra_stream _ (lc - get base_length (get _length_code lc)) (get extra_lbits (get _length_code lc)) O1 ltac:(lia) Hx) as [O2 S2].
  destruct (send_code_stream 5 _ _ _ _ _ O2 ltac:(lia) (dist_codes _ Hj)) as [O3 S3].
  destruct (send_extra_stream _ (dist - 1 - get base_dist (d_code (dist - 1))) (get extra_dbits (d_code (dist - 1))) O3 ltac:(lia) Hy) as [O4 S4].
  split; [exact O4|]. rewrite S4, S3, S2, S1, <- !app_assoc. done.
Qed.

(** Reading a code back. *)
Lemma read_code m tree table c here rest : leads_to m tree table c here = true ->
  entry table (peek m (code_bits tree (Z.to_nat c) ++ rest)) = here /\
  drop (Z.to_nat (Inftrees.c_bits here)) (code_bits tree (Z.to_nat c) ++ rest) = rest.
Proof.
  intros Hc. destruct (leads_to_spec _ _ _ _ _ rest Hc) as (H1 & H2 & H3 & H4).
  split; [exact H4|]. rewrite <- H3. apply drop_bits_of.
Qed.

Lemma read_extra_bits here e v rest :
  Z.land (Inftrees.c_op here) 15 = e -> 0 <= e -> (e <> 0 -> 0 <= v < 2 ^ e) ->
  read_extra here (bits_of v (Z.to_nat e) ++ rest) =
  (Inftrees.c_val here + (if e =? 0 then 0 else v), rest).
Proof.
  intros <- He Hv. unfold read_extra. rewrite drop_bits_of. do 2 f_equal.
  destruct (Z.eqb_spec (Z.land (Inftrees.c_op here) 15) 0) as [->|Hn]; [done|].
  rewrite peek_bits_of; rewrite ?Z2Nat.id by done; auto.
Qed.

Lemma op_extra e : 0 <= e <= 13 -> Z.land (16 + e) 15 = e /\ Z.testbit (16 + e) 4 = true /\ (16 + e =? 0) = false.
Proof.
  intros He. assert (E : e = 0 \/ e = 1 \/ e = 2 \/ e = 3 \/ e = 4 \/ e = 5 \/ e = 6 \/ e = 7 \/ e = 8 \/
    e = 9 \/ e = 10 \/ e = 11 \/ e = 12 \/ e = 13) by lia.
  repeat destruct E as [->|E]; try (subst e); done.
Qed.

Lemma read_symbol_sent dist lc rest : symbol_ok dist lc ->
  read_symbol (symbol_bits dist lc ++ rest) = Some (symbol_of dist lc, rest).
Proof.
  intros [Hlc Hd]. unfold read_symbol, symbol_bits, symbol_of. cbv zeta.
  destruct (Z.eqb_spec dist 0) as [->|Hn].
  { destruct (read_code _ _ _ _ _ rest (literal_codes lc Hlc)) as [-> ->]. done. }
  destruct (length_split_spec lc Hlc) as (Hk & He & Hx & Ex).
  destruct (dist_split_spec (dist - 1) ltac:(lia)) as (Hj & Hf & Hy & Ey). cbv zeta in *.
  rewrite length_symbol, <- !app_assoc by lia.
  destruct (op_extra (get extra_lbits (get _length_code lc)) ltac:(lia)) as (O1 & O2 & O3).
  destruct (op_extra (get extra_dbits (d_code (dist - 1))) ltac:(lia)) as (P1 & P2 & _).
  match goal with |- context [peek 9 (_ ++ ?r)] =>
    destruct (read_code _ _ _ _ _ r (length_codes _ Hk)) as [-> ->] end.
  change (Inftrees.c_op (length_here _)) with (16 + get extra_lbits (get _length_code lc)).
  rewrite O2, O3. rewrite (read_extra_bits _ (get extra_lbits (get _length_code lc))) by (done || lia).
  match goal with |- context [peek 5 (_ ++ ?r)] =>
    destruct (read_code _ _ _ _ _ r (dist_codes _ Hj)) as [-> ->] end.
  change (Inftrees.c_op (dist_here _)) with (16 + get extra_dbits (d_code (dist - 1))).
  rewrite P2, (read_extra_bits _ (get extra_dbits (d_code (dist - 1)))) by (done || lia).
  rewrite Ex. do 3 f_equal. change (Inftrees.c_val (dist_here _)) with (get base_dist (d_code (dist - 1)) + 1).
  lia.
Qed.

Lemma read_end rest : read_symbol (code_bits static_ltree END_BLOCK ++ rest) = Some (EndOfBlock, rest).
Proof.
  unfold read_symbol. destruct (read_code _ _ _ _ _ rest end_code) as [E1 E2].
  change (Z.to_nat 256) with END_BLOCK in *. by rewrite E1, E2.
Qed.

(** The symbols of the buffers from [lx] on. *)
Definition symbols (d_buf l_buf : list Z) (lx n : nat) : list symbol :=
  map (fun lx => symbol_of (getn d_buf lx) (getn l_buf lx)) (seq lx n).

Lemma symbol_not_end dist lc : symbol_of dist lc <> EndOfBlock.
Proof. unfold symbol_of. by destruct (_ =? 0). Qed.

Lemma compress_stream d_buf l_buf n : forall lx b, bitbuf_ok b ->
  (forall i, (lx <= i < lx + n)%nat -> symbol_ok (getn d_buf i) (getn l_buf i)) ->
  let b' := for_ lx n (fun lx b => send_symbol static_ltree static_dtree b (getn d_buf lx) (getn l_buf lx)) b in
  exists bs, bitbuf_ok b' /\ stream b' = stream b ++ bs /\
    forall rest, read_block (S n) (bs ++ code_bits static_ltree END_BLOCK ++ rest) =
                 Some (symbols d_buf l_buf lx n, rest).
Proof.
  induction n as [|n IH]; intros lx b Hb Hs; cbv zeta.
  { exists []. split; [done|]. split; [by rewrite app_nil_r|]. intros rest.
    cbn [read_block app]. by rewrite read_end. }
  rewrite for_S. destruct (send_symbol_stream b _ _ Hb (Hs lx ltac:(lia))) as [O1 S1].
  destruct (IH (S lx) _ O1 ltac:(intros; apply Hs; lia)) as (bs & O2 & S2 & R2).
  exists (symbol_bits (getn d_buf lx) (getn l_buf lx) ++ bs). split; [exact O2|]. split.
  { by rewrite S2, S1, app_assoc. }
  intros rest. rewrite <- app_assoc. cbn [read_block]. cbn [read_block] in R2.
  rewrite read_symbol_sent by (apply Hs; lia). unfold symbols in *. cbn [seq map].
  destruct (symbol_of (getn d_buf lx) (getn l_buf lx)) eqn:E; [by rewrite R2..|].
  by apply symbol_not_end in E.
Qed.

(** A block of the fixed code round-trips through inflate's tables: from any
    bit buffer, what [compress_block] sends for literals and for matches of
    lengths 3 to 258 and distances 1 to 32768 is read back, symbol by symbol,
    with the tables of inffixed.h, up to the end of the block and no further. *)
Lemma fixed_block_roundtrip d_buf l_buf last_lit b
    (Hb : bitbuf_ok b)
    (Hs : forall i, (i < last_lit)%nat -> symbol_ok (getn d_buf i) (getn l_buf i)) :
  let b' := compress_block static_ltree static_dtree d_buf l_buf last_lit b in
  bitbuf_ok b' /\
  exists bs, stream b' = stream b ++ bs /\
    forall rest, read_block (S last_lit) (bs ++ rest) = Some (symbols d_buf l_buf 0 last_lit, rest).
Proof.
  cbv zeta. unfold compress_block.
  destruct (compress_stream d_buf l_buf last_lit 0 b Hb ltac:(intros; apply Hs; lia)) as (bs & O1 & S1 & R1).
  cbv zeta in *. change END_BLOCK with (Z.to_nat 256).
  destruct (send_code_stream 9 _ _ _ _ _ O1 ltac:(lia) end_code) as [O2 S2].
  split; [exact O2|]. exists (bs ++ code_bits static_ltree END_BLOCK). split.
  - by rewrite S2, S1, <- app_assoc.
  - intros rest. by rewrite <- app_assoc, R1.
Qed.

Lemma fixed_block_roundtrip_witness :
  exists bs,
    stream (compress_block static_ltree static_dtree [0; 1; 32768] [97; 255; 0] 3 (mk_bitbuf [] 0 0)) = bs /\
    read_block 4 (bs ++ [true; true]) =
    Some ([Literal 97; Match 1 258; Match 32768 3], [true; true]).
Proof.
  assert (O : bitbuf_ok (mk_bitbuf [] 0 0)) by (split; [constructor|cbn; lia]).
  assert (S : forall i, (i < 3)%nat -> symbol_ok (getn [0; 1; 32768] i) (getn [97; 255; 0] i)).
  { intros [|[|[|i]]] Hi; [..|lia]; unfold symbol_ok; cbn; lia. }
  destruct (fixed_block_roundtrip _ _ 3 _ O S) as (_ & bs & E & R).
  exists bs. split; [exact E|]. rewrite R. vm_compute. reflexivity.
Defined.
