(* ===== verification/TreeBuild.v ===== *)
(** * TreeBuild: the rest of core/zlib/trees.c

    Huffman trees from frequencies ([build_tree]), their transmission
    ([send_all_trees]), the choice of the kind of a block ([_tr_flush_block]) and
    the tally of symbols.  A node of a tree is its index; [heap], [depth],
    [bl_count] and the two lengths are the fields of [deflate_state] that all trees
    share. *)

From stdpp Require Import sets list.
From S2P Require Import Prelude.
From S2P Require Import Inftrees.
From S2P Require Import InfTable.
From S2P Require Import Trees.

#[local] Open Scope Z_scope.

Definition MAX_BL_BITS : nat := 7.
Definition REP_3_6 : nat := 16.
Definition REPZ_3_10 : nat := 17.
Definition REPZ_11_138 : nat := 18.

Record static_tree_desc := mk_stat {
  static_tree : option (list ct_data);
  extra_bits : list Z;
  extra_base : nat;
  elems : nat;
  max_length : nat
}.
Definition static_l_desc : static_tree_desc := mk_stat (Some static_ltree) extra_lbits (LITERALS + 1) L_CODES MAX_BITS.
Definition static_d_desc : static_tree_desc := mk_stat (Some static_dtree) extra_dbits 0 D_CODES MAX_BITS.
Definition static_bl_desc : static_tree_desc := mk_stat None extra_blbits 0 BL_CODES MAX_BL_BITS.

(** ** The heap *)

Abbreviation nodes := (list nat) (only parsing).
Definition at_ (heap : nodes) (i : nat) : nat := nth i heap 0%nat.
Definition SMALLEST : nat := 1.

Definition smaller (tree : list ct_data) (depth : list Z) (n m : nat) : bool :=
  (Freq (ct tree n) <? Freq (ct tree m)) ||
  ((Freq (ct tree n) =? Freq (ct tree m)) && (getn depth n <=? getn depth m)).

(** The loop of [pqdownheap]; [j] at least doubles in a turn, so [heap_len] turns are
    enough. *)
Fixpoint down_loop (fuel : nat) (tree : list ct_data) (depth : list Z) (heap_len v : nat)
    (heap : nodes) (k j : nat) : nodes * nat :=
  match fuel with
  | O => (heap, k)
  | S fuel =>
      if (j <=? heap_len)%nat then
        let j := if (j <? heap_len)%nat && smaller tree depth (at_ heap (j + 1)) (at_ heap j) then (j + 1)%nat else j in
        if smaller tree depth v (at_ heap j) then (heap, k)
        else down_loop fuel tree depth heap_len v (<[k := at_ heap j]> heap) j (2 * j)
      else (heap, k)
  end.
Definition pqdownheap (tree : list ct_data) (depth : list Z) (heap_len : nat) (heap : nodes) (k : nat) : nodes :=
  let v := at_ heap k in
  let '(heap, k) := down_loop heap_len tree depth heap_len v heap k (2 * k) in
  <[k := v]> heap.

(** The fields of [deflate_state] all trees share. *)
Record work := mk_work {
  heap : nodes;
  heap_len : nat;
  heap_max : nat;
  depth : list Z;
  bl_count : list Z;
  opt_len : Z;
  static_len : Z
}.
Definition with_heap (w : work) (h : nodes) (l m : nat) : work :=
  mk_work h l m (depth w) (bl_count w) (opt_len w) (static_len w).
Definition with_lens (w : work) (o s : Z) : work :=
  mk_work (heap w) (heap_len w) (heap_max w) (depth w) (bl_count w) o s.
Definition with_counts (w : work) (c : list Z) : work :=
  mk_work (heap w) (heap_len w) (heap_max w) (depth w) c (opt_len w) (static_len w).

(** [pqremove] *)
Definition pqremove (tree : list ct_data) (w : work) : nat * work :=
  let top := at_ (heap w) SMALLEST in
  let h := <[SMALLEST := at_ (heap w) (heap_len w)]> (heap w) in
  let len := (heap_len w - 1)%nat in
  (top, with_heap w (pqdownheap tree (depth w) len h SMALLEST) len (heap_max w)).

(** ** gen_bitlen *)

Definition xbits_of (st : static_tree_desc) (n : nat) : Z :=
  if (extra_base st <=? n)%nat then getn (extra_bits st) (n - extra_base st) else 0.

(** One node of the first pass; the last component is [overflow]. *)
Definition bitlen_node (st : static_tree_desc) (max_code : Z) (n : nat) (s : list ct_data * work * Z)
    : list ct_data * work * Z :=
  let '(tree, w, overflow) := s in
  let bits := Len (ct tree (Z.to_nat (Dad (ct tree n)))) + 1 in
  let '(bits, overflow) :=
    if Z.of_nat (max_length st) <? bits then (Z.of_nat (max_length st), overflow + 1) else (bits, overflow) in
  let tree := set_dl tree n (u16 bits) in
  if max_code <? Z.of_nat n then (tree, w, overflow)
  else
    let w := with_counts w (setn (bl_count w) (Z.to_nat bits) (u16 (getn (bl_count w) (Z.to_nat bits) + 1))) in
    let xbits := xbits_of st n in
    let f := Freq (ct tree n) in
    let o := u64 (opt_len w + f * u32 (bits + xbits)) in
    let sl := match static_tree st with
              | Some stree => u64 (static_len w + f * u32 (Len (ct stree n) + xbits))
              | None => static_len w
              end in
    (tree, with_lens w o sl, overflow).

(** [while (s->bl_count[bits] == 0) bits--;] *)
Fixpoint nonzero_below (counts : list Z) (bits : nat) : nat :=
  match bits with
  | O => O
  | S b => if getn counts bits =? 0 then nonzero_below counts b else bits
  end.

(** The [do] loop: one more turn while [overflow > 0]. *)
Fixpoint repair (fuel : nat) (max_length : nat) (counts : list Z) (overflow : Z) : list Z :=
  match fuel with
  | O => counts
  | S fuel =>
      let bits := nonzero_below counts (max_length - 1) in
      let counts := setn counts bits (u16 (getn counts bits - 1)) in
      let counts := setn counts (bits + 1) (u16 (getn counts (bits + 1) + 2)) in
      let counts := setn counts max_length (u16 (getn counts max_length - 1)) in
      let overflow := overflow - 2 in
      if 0 <? overflow then repair fuel max_length counts overflow else counts
  end.

(** [while (n != 0)]: from [heap[h-1]] downwards. *)
Fixpoint relen (hp : nodes) (max_code : Z) (bits : nat) (h : nat) (n : Z) (s : list ct_data * Z)
    : nat * (list ct_data * Z) :=
  if n =? 0 then (h, s)
  else
    match h with
    | O => (h, s)
    | S h =>
        let m := at_ hp h in
        if max_code <? Z.of_nat m then relen hp max_code bits h n s
        else
          let '(tree, o) := s in
          let s :=
            if negb (Len (ct tree m) =? Z.of_nat bits) then
              (set_dl tree m (Z.of_nat bits), u64 (o + u64 (Z.of_nat bits - Len (ct tree m)) * Freq (ct tree m)))
            else (tree, o) in
          relen hp max_code bits h (n - 1) s
    end.

Definition relen_all (hp : nodes) (max_code : Z) (max_length : nat) (counts : list Z) (s : list ct_data * Z)
    : list ct_data * Z :=
  snd (for_down max_length (fun bits '(h, s) => relen hp max_code bits h (getn counts bits) s) (HEAP_SIZE, s)).

Definition gen_bitlen (st : static_tree_desc) (tree : list ct_data) (max_code : Z) (w : work)
    : list ct_data * work :=
  let w := with_counts w (replicate (S MAX_BITS) 0) in
  let tree := set_dl tree (at_ (heap w) (heap_max w)) 0 in
  let '(tree, w, overflow) :=
    for_ (heap_max w + 1) (HEAP_SIZE - (heap_max w + 1))
      (fun h '(tree, w, overflow) => bitlen_node st max_code (at_ (heap w) h) (tree, w, overflow)) (tree, w, 0) in
  if overflow =? 0 then (tree, w)
  else
    let w := with_counts w (repair (Z.to_nat overflow) (max_length st) (bl_count w) overflow) in
    let '(tree, o) := relen_all (heap w) max_code (max_length st) (bl_count w) (tree, opt_len w) in
    (tree, with_lens w o (static_len w)).

(** ** build_tree *)

(** The initial heap: the symbols that occur; the others get length 0. *)
Definition collect (elems : nat) (tree : list ct_data) (w : work) : list ct_data * work * Z :=
  for_ 0 elems (fun n '(tree, w, max_code) =>
    if negb (Freq (ct tree n) =? 0) then
      (tree,
       mk_work (<[S (heap_len w) := n]> (heap w)) (S (heap_len w)) (heap_max w) (setn (depth w) n 0) (bl_count w)
         (opt_len w) (static_len w),
       Z.of_nat n)
    else (set_dl tree n 0, w, max_code))
    (tree, with_heap w (heap w) 0 HEAP_SIZE, -1).

(** [while (s->heap_len < 2)]: at most two turns. *)
Fixpoint force_two (turns : nat) (st : static_tree_desc) (s : list ct_data * work * Z) : list ct_data * work * Z :=
  match turns with
  | O => s
  | S turns =>
      let '(tree, w, max_code) := s in
      if (heap_len w <? 2)%nat then
        let '(node, max_code) := if max_code <? 2 then (Z.to_nat (max_code + 1), max_code + 1) else (0%nat, max_code) in
        let tree := set_fc tree node 1 in
        let sl := match static_tree st with
                  | Some stree => u64 (static_len w - Len (ct stree node))
                  | None => static_len w
                  end in
        let w := mk_work (<[S (heap_len w) := node]> (heap w)) (S (heap_len w)) (heap_max w)
                   (setn (depth w) node 0) (bl_count w) (u64 (opt_len w - 1)) sl in
        force_two turns st (tree, w, max_code)
      else s
  end.

(** [for (n = s->heap_len/2; n >= 1; n--) pqdownheap(s, tree, n);] *)
Definition heapify (tree : list ct_data) (w : work) : work :=
  with_heap w (for_down (heap_len w / 2) (fun n h => pqdownheap tree (depth w) (heap_len w) h n) (heap w))
    (heap_len w) (heap_max w).

(** One turn of the [do] loop, with the new node. *)
Definition combine (node : nat) (tree : list ct_data) (w : work) : list ct_data * work :=
  let '(n, w) := pqremove tree w in
  let m := at_ (heap w) SMALLEST in
  let h := <[(heap_max w - 2)%nat := m]> (<[(heap_max w - 1)%nat := n]> (heap w)) in
  let hmax := (heap_max w - 2)%nat in
  let tree := set_fc tree node (u16 (Freq (ct tree n) + Freq (ct tree m))) in
  let d := if getn (depth w) m <=? getn (depth w) n then getn (depth w) n else getn (depth w) m in
  let depth := setn (depth w) node (u8 (d + 1)) in
  let tree := set_dl (set_dl tree m (u16 (Z.of_nat node))) n (u16 (Z.of_nat node)) in
  let h := <[SMALLEST := node]> h in
  (tree, mk_work (pqdownheap tree depth (heap_len w) h SMALLEST) (heap_len w) hmax depth (bl_count w)
           (opt_len w) (static_len w)).

(** A turn takes two nodes and gives one, so [heap_len] turns are enough. *)
Fixpoint combine_loop (fuel : nat) (node : nat) (s : list ct_data * work) : list ct_data * work :=
  match fuel with
  | O => s
  | S fuel =>
      let '(tree, w) := combine node (fst s) (snd s) in
      if (2 <=? heap_len w)%nat then combine_loop fuel (S node) (tree, w) else (tree, w)
  end.

Definition build_tree (st : static_tree_desc) (tree : list ct_data) (w : work) : list ct_data * Z * work :=
  let '(tree, w, max_code) := force_two 2 st (collect (elems st) tree w) in
  let w := heapify tree w in
  let '(tree, w) := combine_loop (heap_len w) (elems st) (tree, w) in
  let w := with_heap w (<[(heap_max w - 1)%nat := at_ (heap w) SMALLEST]> (heap w)) (heap_len w) (heap_max w - 1) in
  let '(tree, w) := gen_bitlen st tree max_code w in
  (gen_codes tree max_code (bl_count w), max_code, w).

(** ** The heap keeps its nodes *)

(** The nodes in the heap, and what is behind them in the array. *)
Definition active (len : nat) (hp : nodes) : nodes := take len (drop 1 hp).

Lemma at_lookup hp i : (i < length hp)%nat -> hp !! i = Some (at_ hp i).
Proof. intros H. unfold at_. rewrite nth_lookup. by destruct (lookup_lt_is_Some_2 hp i H) as [x ->]. Qed.

Lemma active_split len hp : (len < length hp)%nat ->
  hp = take 1 hp ++ active len hp ++ drop (S len) hp.
Proof.
  intros H. unfold active. rewrite <- (take_drop 1 hp) at 1. f_equal.
  rewrite <- (take_drop len (drop 1 hp)) at 1. f_equal. rewrite drop_drop. f_equal.
Qed.

(** Two arrays that agree outside the heap and have the same elements. *)
Definition same_heap (len : nat) (hp hp' : nodes) : Prop :=
  hp' ≡ₚ hp /\ take 1 hp' = take 1 hp /\ drop (S len) hp' = drop (S len) hp.

Lemma same_heap_refl len hp : same_heap len hp hp.
Proof. by split_and!. Qed.
Lemma same_heap_trans len a b c : same_heap len a b -> same_heap len b c -> same_heap len a c.
Proof.
  intros (P1 & T1 & D1) (P2 & T2 & D2). split_and!; [by rewrite P2, P1|by rewrite T2, T1|by rewrite D2, D1].
Qed.

Lemma same_heap_length len hp hp' : same_heap len hp hp' -> length hp' = length hp.
Proof. intros (P & _). by apply Permutation_length. Qed.

Lemma same_heap_active len hp hp' : same_heap len hp hp' -> (len < length hp)%nat -> active len hp' ≡ₚ active len hp.
Proof.
  intros S Hl. pose proof (same_heap_length _ _ _ S) as L. destruct S as (P & T & D).
  rewrite (active_split len hp) in P by done. rewrite (active_split len hp') in P by lia.
  rewrite T, D in P. apply Permutation_app_inv_l in P. by apply Permutation_app_inv_r in P.
Qed.

Lemma same_heap_swap len hp i j x y : (1 <= i <= len)%nat -> (1 <= j <= len)%nat ->
  hp !! i = Some x -> hp !! j = Some y -> same_heap len hp (<[j := x]> (<[i := y]> hp)).
Proof.
  intros Hi Hj Ex Ey. split; [by apply Permutation_insert_swap|].
  rewrite !take_insert_ge, !drop_insert_lt by lia. done.
Qed.

Lemma down_loop_same fuel tree depth len v : forall hp k j,
  (1 <= k <= len)%nat -> (k < j)%nat -> (len < length hp)%nat ->
  let '(hp', k') := down_loop fuel tree depth len v hp k j in
  same_heap len (<[k := v]> hp) (<[k' := v]> hp').
Proof.
  induction fuel as [|fuel IH]; intros hp k j Hk Hj Hl; cbn [down_loop]; [apply same_heap_refl|].
  destruct (Nat.leb_spec j len) as [Hjl|]; [|apply same_heap_refl]. cbv zeta.
  set (j' := if (j <? len)%nat && _ then (j + 1)%nat else j).
  assert (B : (k < j' <= len)%nat).
  { unfold j'. destruct (Nat.ltb_spec j len); cbn [andb]; [destruct (smaller _ _ _ _)|]; lia. }
  destruct (smaller tree depth v (at_ hp j')); [apply same_heap_refl|].
  specialize (IH (<[k := at_ hp j']> hp) j' (2 * j')%nat ltac:(lia) ltac:(lia) ltac:(by rewrite length_insert)).
  destruct (down_loop fuel tree depth len v _ j' (2 * j')) as [hp' k'].
  eapply same_heap_trans; [|exact IH].
  rewrite <- (list_insert_insert_eq hp k (at_ hp j') v).
  apply (same_heap_swap len (<[k := v]> hp) k j'); [lia|lia|apply list_lookup_insert_eq; lia|].
  rewrite list_lookup_insert_ne by lia. apply at_lookup. lia.
Qed.

Lemma pqdownheap_same tree depth len hp k : (1 <= k <= len)%nat -> (len < length hp)%nat ->
  same_heap len hp (pqdownheap tree depth len hp k).
Proof.
  intros Hk Hl. unfold pqdownheap. pose proof (down_loop_same len tree depth len (at_ hp k) hp k (2 * k)) as D.
  destruct (down_loop _ _ _ _ _ _ _ _) as [hp' k'].
  rewrite list_insert_id in D by (apply at_lookup; lia). apply D; lia.
Qed.

(** More turns than [heap_len] change nothing: the loop has come to its end. *)
Lemma down_loop_fuel fuel tree depth len v : forall hp k j extra,
  (len < j + fuel)%nat -> (1 <= j)%nat ->
  down_loop (fuel + extra) tree depth len v hp k j = down_loop fuel tree depth len v hp k j.
Proof.
  induction fuel as [|fuel IH]; intros hp k j extra Hj Hp.
  - destruct extra as [|extra]; [done|]. cbn [Nat.add down_loop]. by rewrite (proj2 (Nat.leb_gt _ _)) by lia.
  - cbn [Nat.add down_loop]. destruct (j <=? len)%nat; [|done]. cbv zeta.
    set (j' := if (j <? len)%nat && _ then (j + 1)%nat else j).
    assert (j <= j')%nat by (unfold j'; destruct (_ && _); lia).
    destruct (smaller tree depth v (at_ hp j')); [done|]. apply IH; lia.
Qed.

Lemma pqdownheap_ends tree depth len hp k extra : (1 <= k)%nat ->
  down_loop (len + extra) tree depth len (at_ hp k) hp k (2 * k) = down_loop len tree depth len (at_ hp k) hp k (2 * k).
Proof. intros. apply down_loop_fuel; lia. Qed.

Lemma heapify_same tree w : (1 <= heap_len w < length (heap w))%nat ->
  same_heap (heap_len w) (heap w) (heap (heapify tree w)) /\
  heap_len (heapify tree w) = heap_len w /\ heap_max (heapify tree w) = heap_max w.
Proof.
  intros Hl. split; [|done]. unfold heapify, with_heap. cbn [heap].
  assert (G : forall n hp, (n <= heap_len w)%nat -> same_heap (heap_len w) (heap w) hp ->
    same_heap (heap_len w) (heap w) (for_down n (fun n h => pqdownheap tree (depth w) (heap_len w) h n) hp)).
  { induction n as [|n IH]; intros hp Hn S; [done|]. cbn [for_down]. apply IH; [lia|].
    eapply same_heap_trans; [exact S|]. apply pqdownheap_same; [lia|].
    rewrite (same_heap_length _ _ _ S). lia. }
  apply G; [|apply same_heap_refl]. apply Nat.Div0.div_le_upper_bound. lia.
Qed.

Lemma active_head l hp : (S l < length hp)%nat -> active (S l) hp = at_ hp 1 :: take l (drop 2 hp).
Proof.
  intros H. unfold active. rewrite (drop_S hp (at_ hp 1) 1) by (apply at_lookup; lia). done.
Qed.

Lemma active_last l hp : (S l < length hp)%nat -> active (S l) hp = active l hp ++ [at_ hp (S l)].
Proof.
  intros H. unfold active. rewrite (take_S_r _ l (at_ hp (S l))); [done|].
  rewrite lookup_drop. apply at_lookup. lia.
Qed.

Lemma active_insert_head l hp x : (S l < length hp)%nat -> active (S l) (<[1%nat := x]> hp) = x :: take l (drop 2 hp).
Proof.
  intros H. rewrite active_head by (by rewrite length_insert). rewrite drop_insert_lt by lia. f_equal.
  unfold at_. rewrite nth_lookup, list_lookup_insert_eq by lia. done.
Qed.

Lemma active_insert_above l hp i x : (l < i)%nat -> active l (<[i := x]> hp) = active l hp.
Proof.
  intros H. unfold active. rewrite drop_insert_ge, take_insert_ge by lia. done.
Qed.

(** ** The pairs *)

(** [(n, m, d)]: [n] and [m] were taken from the heap and [d] put in; the last pair
    comes first.  In the array [m] is before [n]. *)
Abbreviation pair := (nat * nat * nat)%type (only parsing).
Definition flat (ms : list pair) : nodes := concat (map (fun '(n, m, _) => [m; n]) ms).

Inductive merged (leaves : nodes) : list pair -> nodes -> Prop :=
| merged_none act : act ≡ₚ leaves -> merged leaves [] act
| merged_pair ms act n m d rest act' :
    merged leaves ms act -> act ≡ₚ n :: m :: rest -> act' ≡ₚ d :: rest ->
    Forall (fun x => (x < d)%nat) (act ++ flat ms) -> merged leaves ((n, m, d) :: ms) act'.

Lemma merged_perm leaves ms act act' : merged leaves ms act -> act' ≡ₚ act -> merged leaves ms act'.
Proof.
  intros Hm P. destruct Hm as [act H|ms act n m d rest act0 Hm P1 P2 F].
  - constructor. by rewrite P.
  - econstructor; [exact Hm|exact P1| |exact F]. by rewrite P.
Qed.

Lemma merged_NoDup leaves ms act : NoDup leaves -> merged leaves ms act -> NoDup (act ++ flat ms).
Proof.
  intros Hn Hm. induction Hm as [act P|ms act n m d rest act' Hm IH P1 P2 F].
  - cbn. rewrite app_nil_r. by rewrite P.
  - assert (N : NoDup (n :: m :: rest ++ flat ms)).
    { change (NoDup ((n :: m :: rest) ++ flat ms)). by rewrite <- P1. }
    assert (Fd : Forall (fun x => (x < d)%nat) (n :: m :: rest ++ flat ms)).
    { change (n :: m :: rest ++ flat ms) with ((n :: m :: rest) ++ flat ms). by rewrite <- P1. }
    rewrite P2. cbn [flat map concat app]. apply list.NoDup_cons. split.
    + rewrite elem_of_app, !elem_of_cons. intros X. rewrite !list.Forall_cons, Forall_app in Fd.
      rewrite !list.Forall_forall in Fd. destruct Fd as (? & ? & F1 & F2).
      destruct X as [X|[X|[X|X]]]; [apply F1 in X|..|apply F2 in X]; lia.
    + assert (Q : rest ++ m :: n :: flat ms ≡ₚ n :: m :: rest ++ flat ms).
      { rewrite <- Permutation_middle, <- Permutation_middle. by rewrite perm_swap. }
      by rewrite Q.
Qed.

Lemma merged_length leaves ms act : merged leaves ms act -> (length act + length ms = length leaves)%nat.
Proof.
  induction 1 as [act P|ms act n m d rest act' Hm IH P1 P2 F]; [rewrite P; cbn; lia|].
  apply Permutation_length in P1, P2. cbn in *. lia.
Qed.

(** The fathers are in the tree. *)
Definition linked (tree : list ct_data) (ms : list pair) : Prop :=
  Forall (fun '(n, m, d) => Dad (ct tree n) = Z.of_nat d /\ Dad (ct tree m) = Z.of_nat d) ms.

Lemma ct_set_dl tree n v k : (n < length tree)%nat ->
  ct (set_dl tree n v) k = if (k =? n)%nat then mk_ct (fc (ct tree n)) v else ct tree k.
Proof.
  intros Hn. unfold set_dl. destruct (Nat.eqb_spec k n) as [->|Hk].
  - unfold ct at 1. by rewrite nth_lookup, list_lookup_insert_eq.
  - unfold ct at 1 3. by rewrite !nth_lookup, list_lookup_insert_ne by done.
Qed.

Lemma ct_set_fc tree n v k : (n < length tree)%nat ->
  ct (set_fc tree n v) k = if (k =? n)%nat then mk_ct v (dl (ct tree n)) else ct tree k.
Proof.
  intros Hn. unfold set_fc. destruct (Nat.eqb_spec k n) as [->|Hk].
  - unfold ct at 1. by rewrite nth_lookup, list_lookup_insert_eq.
  - unfold ct at 1 3. by rewrite !nth_lookup, list_lookup_insert_ne by done.
Qed.

Lemma length_set_dl tree n v : length (set_dl tree n v) = length tree.
Proof. apply length_insert. Qed.
Lemma length_set_fc tree n v : length (set_fc tree n v) = length tree.
Proof. apply length_insert. Qed.

(** Lengths are not touched by frequencies. *)
Lemma dl_set_fc tree n v k : (n < length tree)%nat -> dl (ct (set_fc tree n v) k) = dl (ct tree k).
Proof. intros. rewrite ct_set_fc by done. destruct (Nat.eqb_spec k n) as [->|]; done. Qed.
Lemma fc_set_dl tree n v k : (n < length tree)%nat -> fc (ct (set_dl tree n v) k) = fc (ct tree k).
Proof. intros. rewrite ct_set_dl by done. destruct (Nat.eqb_spec k n) as [->|]; done. Qed.
Lemma dl_set_dl tree n v k : (n < length tree)%nat ->
  dl (ct (set_dl tree n v) k) = if (k =? n)%nat then v else dl (ct tree k).
Proof. intros. rewrite ct_set_dl by done. by destruct (k =? n)%nat. Qed.

Lemma linked_ext tree tree' ms : (forall k, k ∈ flat ms -> dl (ct tree' k) = dl (ct tree k)) ->
  linked tree ms -> linked tree' ms.
Proof.
  intros H L. unfold linked in *. induction ms as [|[[n m] d] ms IH]; [constructor|].
  apply list.Forall_cons in L as [[L1 L2] L]. apply list.Forall_cons. cbn [flat map concat app] in H.
  split; [split; rewrite H; [done|set_solver|done|set_solver]|].
  apply IH; [|done]. intros k Hk. apply H. set_solver.
Qed.

(** ** The loop that combines *)

Section Combine.
Context (base : nat) (leaves : nodes).

Record build_inv (ms : list pair) (tree : list ct_data) (w : work) (node : nat) : Prop := {
  bi_heap : length (heap w) = HEAP_SIZE;
  bi_merged : merged leaves ms (active (heap_len w) (heap w));
  bi_len : (1 <= heap_len w /\ heap_len w + length ms = length leaves)%nat;
  bi_max : (heap_max w + 2 * length ms = HEAP_SIZE)%nat;
  bi_sorted : drop (heap_max w) (heap w) = flat ms;
  bi_node : node = (base + length ms)%nat;
  bi_below : Forall (fun x => (x < node)%nat) (active (heap_len w) (heap w) ++ flat ms);
  bi_linked : linked tree ms;
  bi_fathers : Forall (fun '(_, _, d) => (base <= d)%nat) ms;
  bi_range : Forall (fun x => x ∈ leaves \/ (base <= x)%nat) (active (heap_len w) (heap w) ++ flat ms)
}.

Context (Hleaves : (length leaves <= L_CODES)%nat) (Hdup : NoDup leaves).

(** What [pqremove] takes and leaves. *)
Lemma pqremove_spec tree w len : heap_len w = S (S len) -> (S (S len) < length (heap w))%nat ->
  let '(n, w') := pqremove tree w in
  heap_len w' = S len /\ heap_max w' = heap_max w /\ length (heap w') = length (heap w) /\
  active (S (S len)) (heap w) ≡ₚ n :: active (S len) (heap w') /\
  drop (S (S (S len))) (heap w') = drop (S (S (S len))) (heap w) /\
  depth w' = depth w /\ bl_count w' = bl_count w /\ opt_len w' = opt_len w /\ static_len w' = static_len w.
Proof.
  intros El Hl. unfold pqremove. rewrite El. cbn [Nat.sub heap_len heap_max heap depth bl_count opt_len static_len with_heap].
  set (h0 := <[SMALLEST := at_ (heap w) (S (S len))]> (heap w)).
  assert (L0 : length h0 = length (heap w)) by apply length_insert.
  pose proof (pqdownheap_same tree (depth w) (S len) h0 SMALLEST ltac:(unfold SMALLEST; lia) ltac:(lia)) as SH.
  pose proof (same_heap_length _ _ _ SH) as L. pose proof (same_heap_active _ _ _ SH ltac:(lia)) as A.
  split; [done|]. split; [done|]. split; [lia|]. split; [|split; [|done]].
  - rewrite A. unfold h0, SMALLEST. rewrite active_insert_head by lia.
    rewrite (active_last (S len)), active_head by lia. cbn [app].
    rewrite <- Permutation_cons_append. done.
  - destruct SH as (_ & _ & D). apply (f_equal (drop 1)) in D. rewrite !drop_drop in D.
    replace (S (S len) + 1)%nat with (S (S (S len))) in D by lia. rewrite D. unfold h0, SMALLEST.
    apply drop_insert_lt. lia.
Qed.

Lemma combine_inv ms tree w node : build_inv ms tree w node -> (2 <= heap_len w)%nat -> (node < length tree)%nat ->
  Z.of_nat node < 65536 ->
  let '(tree', w') := combine node tree w in
  exists n m, build_inv ((n, m, node) :: ms) tree' w' (S node) /\ heap_len w' = (heap_len w - 1)%nat /\
    n ∈ active (heap_len w) (heap w) /\ m ∈ active (heap_len w) (heap w) /\
    length tree' = length tree /\ bl_count w' = bl_count w /\
    (forall k, k <> n -> k <> m -> dl (ct tree' k) = dl (ct tree k)).
Proof.
  intros I H2 Hnode H16. destruct I as [Ih Im [Il1 Il2] Ix Is In Ib Ik If Ir].
  destruct (heap_len w) as [|[|len]] eqn:El; [lia|lia|]. clear H2 Il1.
  assert (HS : HEAP_SIZE = 573%nat) by done. assert (LC : L_CODES = 286%nat) by done.
  unfold combine. pose proof (pqremove_spec tree w len El ltac:(lia)) as R.
  destruct (pqremove tree w) as [n w1]. destruct R as (R1 & R2 & R3 & R4 & R5 & R6 & R7 & _).
  cbv zeta. rewrite R1, R2. set (m := at_ (heap w1) SMALLEST).
  set (h := <[(heap_max w - 2)%nat := m]> (<[(heap_max w - 1)%nat := n]> (heap w1))).
  assert (Lh : length h = HEAP_SIZE) by (unfold h; rewrite !length_insert; lia).
  set (dp := setn (depth w1) node _). set (t1 := set_fc tree node _).
  set (tl := take len (drop 2 (heap w1))).
  assert (A1 : active (S len) (heap w1) = m :: tl) by (apply active_head; lia).
  assert (P : active (S (S len)) (heap w) ≡ₚ n :: m :: tl) by (by rewrite R4, A1).
  set (hn := <[SMALLEST := node]> h). assert (Lhn : length hn = HEAP_SIZE) by (unfold hn; by rewrite length_insert).
  set (tree' := set_dl (set_dl t1 m (u16 (Z.of_nat node))) n (u16 (Z.of_nat node))).
  pose proof (pqdownheap_same tree' dp (S len) hn SMALLEST ltac:(unfold SMALLEST; lia) ltac:(lia)) as SH.
  set (hf := pqdownheap tree' dp (S len) hn SMALLEST).
  assert (Lf : length hf = HEAP_SIZE) by (unfold hf; rewrite (same_heap_length _ _ _ SH); done).
  assert (Af : active (S len) hf ≡ₚ node :: tl).
  { unfold hf. rewrite (same_heap_active _ _ _ SH) by lia. unfold hn, SMALLEST.
    rewrite active_insert_head by lia. unfold h, tl.
    rewrite !drop_insert_ge, !take_insert_ge by lia. done. }
  assert (Df : drop (heap_max w - 2) hf = m :: n :: flat ms).
  { destruct SH as (_ & _ & D). apply (f_equal (drop (heap_max w - 2 - S (S len)))) in D. rewrite !drop_drop in D.
    replace (S (S len) + (heap_max w - 2 - S (S len)))%nat with (heap_max w - 2)%nat in D by lia.
    unfold hf. rewrite D. unfold hn, SMALLEST. rewrite drop_insert_lt by lia. unfold h.
    rewrite (drop_S _ m) by (apply list_lookup_insert_eq; rewrite length_insert; lia). f_equal.
    rewrite drop_insert_lt by lia. replace (S (heap_max w - 2)) with (heap_max w - 1)%nat by lia.
    rewrite (drop_S _ n) by (apply list_lookup_insert_eq; lia). f_equal.
    rewrite drop_insert_lt by lia. replace (S (heap_max w - 1)) with (heap_max w) by lia.
    apply (f_equal (drop (heap_max w - S (S (S len))))) in R5. rewrite !drop_drop in R5.
    replace (S (S (S len)) + (heap_max w - S (S (S len))))%nat with (heap_max w) in R5 by lia. by rewrite R5. }
  pose proof (merged_NoDup _ _ _ Hdup Im) as N. rewrite P in N.
  assert (Bd : Forall (fun x => (x < node)%nat) (n :: m :: tl ++ flat ms)).
  { change (n :: m :: tl ++ flat ms) with ((n :: m :: tl) ++ flat ms). by rewrite <- P. }
  change ((n :: m :: tl) ++ flat ms) with (n :: m :: tl ++ flat ms) in N.
  apply list.NoDup_cons in N as [Nn N]. apply list.NoDup_cons in N as [Nm N].
  assert (Hnm : n <> m) by (intros ->; apply Nn; by left).
  apply list.Forall_cons in Bd as [Bn Bd]. apply list.Forall_cons in Bd as [Bm Bd].
  assert (Rd : Forall (fun x => x ∈ leaves \/ (base <= x)%nat) (n :: m :: tl ++ flat ms)).
  { change (n :: m :: tl ++ flat ms) with ((n :: m :: tl) ++ flat ms). by rewrite <- P. }
  apply list.Forall_cons in Rd as [Rn Rd]. apply list.Forall_cons in Rd as [Rm Rd]. apply Forall_app in Rd as [Rd1 Rd2].
  assert (Lt : length t1 = length tree) by apply length_set_fc.
  assert (U : u16 (Z.of_nat node) = Z.of_nat node) by (apply Z.mod_small; lia).
  assert (T : forall k, dl (ct tree' k) = if (k =? n)%nat then Z.of_nat node else if (k =? m)%nat then Z.of_nat node else dl (ct tree k)).
  { intros k. unfold tree'. rewrite U, !dl_set_dl by (rewrite ?length_set_dl, Lt; lia).
    destruct (k =? n)%nat; [done|]. destruct (k =? m)%nat; [done|]. unfold t1. by apply dl_set_fc. }
  exists n, m. split; [|split; [cbn; lia|]].
  - constructor; cbn [heap heap_len heap_max].
    + done.
    + econstructor; [exact Im|exact P|exact Af|exact Ib].
    + cbn [length]. lia.
    + cbn [length]. lia.
    + rewrite Df. done.
    + cbn [length]. lia.
    + rewrite Af. cbn [app flat map concat]. rewrite !list.Forall_cons, Forall_app. 
      cbn [app flat map concat] in *. apply Forall_app in Bd as [B1 B2].
      split; [lia|]. split; [eapply List.Forall_impl; [|exact B1]; cbn; lia|].
      rewrite !list.Forall_cons. split; [lia|]. split; [lia|]. eapply List.Forall_impl; [|exact B2]. cbn. lia.
    + apply list.Forall_cons. split.
      * rewrite !T, Nat.eqb_refl. rewrite Nat.eqb_refl. destruct (Nat.eqb_spec m n); done.
      * apply (linked_ext tree); [|done]. intros k Hk. rewrite T.
        destruct (Nat.eqb_spec k n) as [->|]; [exfalso; apply Nn; set_solver|].
        destruct (Nat.eqb_spec k m) as [->|]; [exfalso; apply Nm; set_solver|done].
    + apply list.Forall_cons. split; [lia|done].
    + rewrite Af. cbn [app flat map concat]. rewrite list.Forall_cons, Forall_app, !list.Forall_cons.
      split; [right; lia|]. done.
  - split; [rewrite P; set_solver|]. split; [rewrite P; set_solver|].
    split; [unfold tree'; rewrite !length_set_dl; done|]. split; [done|].
    intros k K1 K2. rewrite T. rewrite !(proj2 (Nat.eqb_neq _ _)) by done. done.
Qed.

(** The loop ends with one node, the root. *)
Lemma combine_loop_inv fuel : forall ms tree w node,
  build_inv ms tree w node -> (2 <= heap_len w <= S fuel)%nat -> (base + length leaves <= length tree)%nat ->
  Z.of_nat (length tree) < 65536 -> Forall (fun x => (x < base)%nat) leaves ->
  let '(tree', w') := combine_loop fuel node (tree, w) in
  exists ms', build_inv ms' tree' w' (base + length ms') /\ heap_len w' = 1%nat /\
    length tree' = length tree /\
    (forall k, (k < base)%nat -> k ∉ leaves -> dl (ct tree' k) = dl (ct tree k)).
Proof.
  induction fuel as [|fuel IH]; intros ms tree w node I Hl Ht H16 Hb; [lia|]. cbn [combine_loop fst snd].
  pose proof (bi_len _ _ _ _ I) as [_ Il]. pose proof (bi_node _ _ _ _ I) as In.
  pose proof (bi_range _ _ _ _ I) as Ir.
  pose proof (combine_inv ms tree w node I ltac:(lia) ltac:(lia) ltac:(lia)) as C.
  destruct (combine node tree w) as [t1 w1]. destruct C as (n & m & I1 & E1 & An & Am & L1 & _ & D1).
  assert (K : forall k, (k < base)%nat -> k ∉ leaves -> dl (ct t1 k) = dl (ct tree k)).
  { intros k Hk Hn. rewrite list.Forall_forall in Ir.
    apply D1; intros ->; [destruct (Ir n)|destruct (Ir m)]; rewrite ?elem_of_app; auto; lia. }
  destruct (Nat.leb_spec 2 (heap_len w1)).
  - specialize (IH _ t1 w1 (S node) I1 ltac:(lia) ltac:(lia) ltac:(by rewrite L1) Hb).
    destruct (combine_loop fuel (S node) (t1, w1)) as [t2 w2]. destruct IH as (ms' & I2 & E2 & L2 & D2).
    exists ms'. split; [done|]. split; [done|]. split; [lia|]. intros k Hk Hn. rewrite D2, K by done. done.
  - exists ((n, m, node) :: ms). split; [|split; [lia|done]].
    cbn [length]. replace (base + S (length ms))%nat with (S node) by lia. exact I1.
Qed.
End Combine.

(** ** Sums over nodes *)

Definition zsum (f : nat -> Z) (l : nodes) : Z := foldr (fun x s => f x + s) 0 l.
Definition ind (b : bool) : Z := if b then 1 else 0.

#[export] Instance zsum_perm f : Proper (Permutation ==> eq) (zsum f).
Proof. intros l l' P. unfold zsum. induction P; cbn [foldr] in *; lia. Qed.

Lemma zsum_cons f x l : zsum f (x :: l) = f x + zsum f l.
Proof. done. Qed.

Lemma zsum_app f l l' : zsum f (l ++ l') = zsum f l + zsum f l'.
Proof. induction l as [|x l IH]; [done|]. cbn [app]. rewrite !zsum_cons, IH. lia. Qed.

Lemma zsum_ext f g l : (forall x, x ∈ l -> f x = g x) -> zsum f l = zsum g l.
Proof.
  induction l as [|x l IH]; intros H; [done|]. rewrite !zsum_cons, (H x) by set_solver. f_equal. apply IH. set_solver.
Qed.

Lemma zsum_bounds f lo hi l : (forall x, x ∈ l -> lo <= f x <= hi) ->
  lo * Z.of_nat (length l) <= zsum f l <= hi * Z.of_nat (length l).
Proof.
  induction l as [|x l IH]; intros H; [cbn; lia|]. rewrite zsum_cons. cbn [length].
  pose proof (H x ltac:(set_solver)). pose proof (IH ltac:(set_solver)). lia.
Qed.

Lemma zsum_nonneg f l : (forall x, 0 <= f x) -> 0 <= zsum f l.
Proof. intros H. induction l as [|x l IH]; [done|]. rewrite zsum_cons. specialize (H x). lia. Qed.

Lemma zsum_0 l : zsum (fun _ => 0) l = 0.
Proof. induction l as [|x l IH]; [done|]. by rewrite zsum_cons, IH. Qed.

(** Only one element counts. *)
Lemma zsum_pick f k l : NoDup l -> k ∈ l -> zsum (fun b => if (b =? k)%nat then f b else 0) l = f k.
Proof.
  induction l as [|b l IH]; intros N I; [set_solver|]. apply list.NoDup_cons in N as [Nb N]. rewrite zsum_cons.
  destruct (Nat.eqb_spec b k) as [->|Hb].
  - rewrite (zsum_ext _ (fun _ => 0)); [rewrite zsum_0; lia|]. intros x Hx. destruct (Nat.eqb_spec x k) as [->|]; done.
  - apply elem_of_cons in I as [I|I]; [done|]. by rewrite IH.
Qed.

Lemma zsum_add f g l : zsum (fun x => f x + g x) l = zsum f l + zsum g l.
Proof. induction l as [|x l IH]; [done|]. rewrite !zsum_cons, IH. lia. Qed.

Lemma ind_bounds b : 0 <= ind b <= 1.
Proof. destruct b; cbn; lia. Qed.

(** ** The first pass of gen_bitlen *)

Definition new_bits (M b : Z) : Z := if M <? b + 1 then M else b + 1.
Definition overflows (M b : Z) : Z := ind (M <? b + 1).

Lemma bitlen_node_spec st mc n tree w ov :
  let M := Z.of_nat (max_length st) in
  let b := Len (ct tree (Z.to_nat (Dad (ct tree n)))) in
  0 <= b <= M -> M <= 15 ->
  exists w', bitlen_node st mc n (tree, w, ov) = (set_dl tree n (new_bits M b), w', ov + overflows M b) /\
    heap w' = heap w /\ heap_len w' = heap_len w /\ heap_max w' = heap_max w /\ depth w' = depth w /\
    bl_count w' = (if mc <? Z.of_nat n then bl_count w
                   else setn (bl_count w) (Z.to_nat (new_bits M b)) (u16 (getn (bl_count w) (Z.to_nat (new_bits M b)) + 1))).
Proof.
  cbv zeta. intros Hb HM. unfold bitlen_node, new_bits, overflows, ind.
  set (M := Z.of_nat (max_length st)) in *. set (b := dl (ct tree _)) in *.
  destruct (Z.ltb_spec M (b + 1)).
  - rewrite (u16_id M) by lia. destruct (mc <? Z.of_nat n); eexists; split; try reflexivity; done.
  - rewrite (u16_id (b + 1)) by lia.
    destruct (mc <? Z.of_nat n); eexists; (split; [rewrite Z.add_0_r; reflexivity|done]).
Qed.

Section Lengths.
Context (st : static_tree_desc) (mc : Z) (leaves : nodes).
Let M : Z := Z.of_nat (max_length st).
Context (HM : 1 <= M <= 15) (Hdup : NoDup leaves) (Hfew : Z.of_nat (length leaves) <= 286).

Definition lenw (tree : list ct_data) (x : nat) : Z := Len (ct tree x).
Definition at_len (tree : list ct_data) (b : Z) (x : nat) : Z := ind (lenw tree x =? b).
Definition is_leaf (x : nat) : bool := Z.of_nat x <=? mc.
Definition leaf_at (tree : list ct_data) (b : Z) (x : nat) : Z := ind (is_leaf x && (lenw tree x =? b)).

(** [act]: the nodes whose lengths are known and whose sons, if they have any, are
    still to come; [2 * q] nodes were too deep. *)
Record len_inv (ms : list pair) (act : nodes) (tree : list ct_data) (counts : list Z) (q : Z) : Prop := {
  li_merged : merged leaves ms act;
  li_linked : linked tree ms;
  li_bounds : Forall (fun x => 0 <= lenw tree x <= M) act;
  li_positive : Forall (fun x => is_leaf x = true -> 1 <= lenw tree x) act;
  li_sum : zsum (fun x => 2 ^ (M - lenw tree x)) act = 2 ^ M + q;
  li_over : 0 <= q;
  li_deep : q + ind (0 <? q) <= zsum (at_len tree M) act;
  li_length : length counts = S MAX_BITS;
  li_counts : forall b, 0 <= b <= 15 -> getn counts (Z.to_nat b) = zsum (leaf_at tree b) act;
  li_tree : Forall (fun x => (x < length tree)%nat) (act ++ flat ms)
}.

(** Setting the length of a node that is not looked at changes nothing. *)
Lemma lenw_set tree n v x : (n < length tree)%nat -> lenw (set_dl tree n v) x = if (x =? n)%nat then v else lenw tree x.
Proof. apply dl_set_dl. Qed.

Lemma count_step tree counts b n (rest : nodes) bits : (n < length tree)%nat -> n ∉ rest ->
  0 <= bits <= 15 -> 0 <= b <= 15 -> length counts = S MAX_BITS -> Z.of_nat (length rest) <= 286 ->
  (forall c, 0 <= c <= 15 -> getn counts (Z.to_nat c) = zsum (leaf_at tree c) rest) ->
  getn (if mc <? Z.of_nat n then counts else setn counts (Z.to_nat bits) (u16 (getn counts (Z.to_nat bits) + 1))) (Z.to_nat b)
    = zsum (leaf_at (set_dl tree n bits) b) (n :: rest).
Proof.
  intros Hn Hr Hb Hc Hl Hf Hcount. rewrite zsum_cons.
  rewrite (zsum_ext (leaf_at (set_dl tree n bits) b) (leaf_at tree b) rest).
  2: { intros x Hx. unfold leaf_at. rewrite lenw_set by done. destruct (Nat.eqb_spec x n) as [->|]; [done|done]. }
  unfold leaf_at at 1. rewrite lenw_set, Nat.eqb_refl by done. unfold is_leaf.
  rewrite Z.leb_antisym. destruct (mc <? Z.of_nat n); cbn [negb andb ind]; [by rewrite Hcount|].
  rewrite getn_setn by (rewrite Hl; unfold MAX_BITS; lia).
  destruct (Nat.eqb_spec (Z.to_nat b) (Z.to_nat bits)) as [E|E].
  - replace bits with b by lia. rewrite Hcount, Z.eqb_refl by done. cbn [ind].
    assert (0 <= zsum (leaf_at tree b) rest <= 1 * Z.of_nat (length rest)).
    { rewrite <- (Z.mul_0_l (Z.of_nat (length rest))) at 1. apply zsum_bounds. intros x _. apply ind_bounds. }
    rewrite u16_id by lia. lia.
  - rewrite (proj2 (Z.eqb_neq bits b)) by lia. cbn [ind]. by rewrite Hcount.
Qed.

(** One node of the pass: its count and its length. *)
Lemma new_bits_bounds b : 0 <= b <= M -> 1 <= new_bits M b <= M.
Proof. intros. unfold new_bits. destruct (Z.ltb_spec M (b + 1)); lia. Qed.

(** The share of a father is that of his sons, but for the clipped ones. *)
Lemma new_bits_share b : 0 <= b <= M ->
  2 * 2 ^ (M - new_bits M b) = 2 ^ (M - b) + overflows M b.
Proof.
  intros Hb. unfold new_bits, overflows. destruct (Z.ltb_spec M (b + 1)); cbn [ind].
  - replace (M - M) with 0 by lia. replace (M - b) with 0 by lia. done.
  - replace (M - b) with (Z.succ (M - (b + 1))) by lia. rewrite Z.pow_succ_r by lia. lia.
Qed.

Lemma pair_step ms n m d act tree w ov q :
  len_inv ((n, m, d) :: ms) act tree (bl_count w) q -> is_leaf d = false ->
  exists act' tree' w' q',
    bitlen_node st mc n (bitlen_node st mc m (tree, w, ov)) = (tree', w', ov + 2 * (q' - q)) /\
    len_inv ms act' tree' (bl_count w') q' /\ heap w' = heap w /\ heap_max w' = heap_max w /\
    length tree' = length tree /\ (forall k, k <> n -> k <> m -> lenw tree' k = lenw tree k).
Proof.
  intros [Lm Lk Lb Lp Ls Lo Ld Ll Lc Lt] Hd.
  inversion Lm as [|? act0 ? ? ? rest ? Hm P1 P2 F]; subst. clear Lm.
  pose proof (merged_NoDup _ _ _ Hdup Hm) as N. pose proof (merged_length _ _ _ Hm) as Hlen.
  rewrite P1 in N, F. apply (merged_perm _ _ _ (n :: m :: rest)) in Hm; [|done]. rewrite P1 in Hlen. cbn [length app] in Hlen, N, F.
  apply list.NoDup_cons in N as [Nn N]. apply list.NoDup_cons in N as [Nm N].
  apply list.Forall_cons in F as [Fn F]. apply list.Forall_cons in F as [Fm F]. apply Forall_app in F as [Fr Ff].
  apply list.Forall_cons in Lk as [[Kn Km] Lk].
  rewrite P2 in Lb, Lp, Lt. cbn [app flat map concat] in Lt.
  apply list.Forall_cons in Lb as [Bd Br]. apply list.Forall_cons in Lp as [_ Pr].
  apply list.Forall_cons in Lt as [Td Tr]. apply Forall_app in Tr as [Tr Tf].
  apply list.Forall_cons in Tf as [Tm Tf]. apply list.Forall_cons in Tf as [Tn Tf].
  rewrite P2 in Ls, Ld. rewrite zsum_cons in Ls, Ld.
  set (b := lenw tree d) in *. pose proof (new_bits_bounds b Bd) as NB. pose proof (new_bits_share b Bd) as NS.
  set (nb := new_bits M b) in *.
  assert (Hnm : n <> m) by (intros ->; apply Nn; by left).
  assert (R1 : forall x, x ∈ rest -> x <> n /\ x <> m /\ x <> d).
  { intros x Hx. rewrite list.Forall_forall in Fr. specialize (Fr x Hx). cbn in Fr.
    split_and!; [intros ->; apply Nn; set_solver|intros ->; apply Nm; set_solver|lia]. }
  destruct (bitlen_node_spec st mc m tree w ov) as (w1 & E1 & H1 & _ & X1 & _ & C1);
    [rewrite Km, Nat2Z.id; exact Bd|lia|]. rewrite Km, Nat2Z.id in E1, C1.
  change (dl (ct tree d)) with b in E1, C1. fold M in E1, C1. fold nb in E1, C1.
  set (t1 := set_dl tree m nb) in *.
  assert (T1 : length t1 = length tree) by apply length_set_dl.
  assert (Dn : dl (ct t1 n) = Z.of_nat d).
  { unfold t1. rewrite dl_set_dl by done. by rewrite (proj2 (Nat.eqb_neq n m)). }
  assert (Ed : dl (ct t1 d) = b).
  { unfold t1. rewrite dl_set_dl by done. rewrite (proj2 (Nat.eqb_neq d m)) by lia. done. }
  destruct (bitlen_node_spec st mc n t1 w1 (ov + overflows M b)) as (w2 & E2 & H2 & _ & X2 & _ & C2);
    [rewrite Dn, Nat2Z.id, Ed; exact Bd|lia|]. rewrite Dn, Nat2Z.id, Ed in E2, C2. fold M in E2, C2. fold nb in E2, C2.
  set (t2 := set_dl t1 n nb) in *.
  assert (T2 : length t2 = length tree) by (unfold t2; by rewrite length_set_dl).
  assert (V : forall x, lenw t2 x = if (x =? n)%nat then nb else if (x =? m)%nat then nb else lenw tree x).
  { intros x. unfold t2, t1. rewrite lenw_set by (rewrite length_set_dl; done). by rewrite lenw_set. }
  assert (Vr : forall x, x ∈ rest -> lenw t2 x = lenw tree x).
  { intros x Hx. destruct (R1 x Hx) as (A & B & _). rewrite V, !(proj2 (Nat.eqb_neq _ _)) by done. done. }
  assert (Vn : lenw t2 n = nb) by (rewrite V, Nat.eqb_refl; done).
  assert (Vm : lenw t2 m = nb) by (rewrite V, Nat.eqb_refl; by destruct (m =? n)%nat).
  exists (n :: m :: rest), t2, w2, (q + overflows M b).
  split; [rewrite E1, E2; f_equal; lia|]. split; [|split_and!; [congruence|congruence|done|]].
  2: { intros k K1 K2. by rewrite V, !(proj2 (Nat.eqb_neq _ _)). }
  pose proof (ind_bounds (M <? b + 1)) as OB.
  constructor; cbn [app].
  - exact Hm.
  - apply (linked_ext tree); [|done]. intros k Hk. change (lenw t2 k = lenw tree k).
    rewrite V, !(proj2 (Nat.eqb_neq _ _)); [done|intros ->; apply Nm; set_solver|intros ->; apply Nn; set_solver].
  - rewrite !list.Forall_cons, Vn, Vm. split; [lia|]. split; [lia|].
    rewrite list.Forall_forall in Br |- *. intros x Hx. rewrite Vr by done. by apply Br.
  - rewrite !list.Forall_cons, Vn, Vm. split; [lia|]. split; [lia|].
    rewrite list.Forall_forall in Pr |- *. intros x Hx. rewrite Vr by done. by apply Pr.
  - rewrite !zsum_cons, Vn, Vm. rewrite (zsum_ext _ (fun x => 2 ^ (M - lenw tree x)) rest); [lia|].
    intros x Hx. by rewrite Vr.
  - unfold overflows. lia.
  - rewrite !zsum_cons. rewrite (zsum_ext (at_len t2 M) (at_len tree M) rest).
    2: { intros x Hx. unfold at_len. by rewrite Vr. }
    unfold at_len at 1 2. rewrite Vn, Vm. unfold at_len at 1 in Ld. fold b in Ld.
    unfold overflows, nb, new_bits. destruct (Z.ltb_spec M (b + 1)).
    + rewrite Z.eqb_refl. replace (b =? M) with true in Ld by lia. cbn [ind] in *.
      pose proof (zsum_nonneg (at_len tree M) rest ltac:(intros; apply ind_bounds)).
      pose proof (ind_bounds (0 <? q + 1)). destruct (Z.ltb_spec 0 q); cbn [ind] in *; lia.
    + rewrite (proj2 (Z.eqb_neq b M)) in Ld by lia. cbn [ind] in *. rewrite Z.add_0_r in *.
      pose proof (ind_bounds (b + 1 =? M)). lia.
  - rewrite C2. destruct (mc <? Z.of_nat n); [|rewrite length_setn]; rewrite C1; destruct (mc <? Z.of_nat m);
      rewrite ?length_setn; done.
  - intros c Hc. rewrite C2. cbv zeta.
    assert (Lc1 : forall c, 0 <= c <= 15 -> getn (bl_count w) (Z.to_nat c) = zsum (leaf_at tree c) rest).
    { intros e He. rewrite Lc, P2, zsum_cons by done. unfold leaf_at at 1. rewrite Hd. done. }
    assert (Lw1 : length (bl_count w1) = S MAX_BITS).
    { rewrite C1. destruct (mc <? Z.of_nat m); rewrite ?length_setn; done. }
    apply (count_step t1 (bl_count w1) c n (m :: rest) nb); [lia|set_solver|lia|done|done|cbn [length]; lia|].
    intros e He. rewrite C1. apply count_step; [lia|set_solver|lia|done|done|lia|done].
  - rewrite T2. rewrite !list.Forall_cons, Forall_app. done.
Qed.

Lemma first_pass ms : forall act tree w ov q lo,
  len_inv ms act tree (bl_count w) q -> Forall (fun '(_, _, d) => is_leaf d = false) ms ->
  drop lo (heap w) = flat ms ->
  let '(tree', w', ov') :=
    for_ lo (length (flat ms)) (fun h '(tree, w, overflow) => bitlen_node st mc (at_ (heap w) h) (tree, w, overflow))
      (tree, w, ov) in
  exists act' q', len_inv [] act' tree' (bl_count w') q' /\ heap w' = heap w /\ heap_max w' = heap_max w /\
    ov' = ov + 2 * (q' - q) /\ length tree' = length tree /\
    (forall k, k ∉ flat ms -> lenw tree' k = lenw tree k).
Proof.
  induction ms as [|[[n m] d] ms IH]; intros act tree w ov q lo I F D.
  { cbn. exists act, q. split_and!; [done|done|done|lia|done|done]. }
  apply list.Forall_cons in F as [Fd F]. change (flat ((n, m, d) :: ms)) with (m :: n :: flat ms) in *.
  assert (Am : at_ (heap w) lo = m).
  { unfold at_. rewrite nth_lookup, <- (Nat.add_0_r lo), <- lookup_drop, D. done. }
  assert (An : at_ (heap w) (S lo) = n).
  { unfold at_. rewrite nth_lookup. replace (S lo) with (lo + 1)%nat by lia. by rewrite <- lookup_drop, D. }
  destruct (pair_step ms n m d act tree w ov q I Fd) as (act1 & t1 & w1 & q1 & E & I1 & H1 & X1 & L1 & K1).
  cbn [length]. rewrite !for_S, Am.
  destruct (bitlen_node st mc m (tree, w, ov)) as [[t0 w0] ov0] eqn:E0.
  assert (H0 : heap w0 = heap w).
  { clear - E0. unfold bitlen_node in E0. destruct (_ <? _) in E0; destruct (_ <? _) in E0; by inversion E0. }
  rewrite H0, An, E. specialize (IH act1 t1 w1 (ov + 2 * (q1 - q)) q1 (S (S lo)) I1 F).
  rewrite H1 in IH. specialize (IH ltac:(apply (f_equal (drop 2)) in D; rewrite drop_drop in D;
    replace (lo + 2)%nat with (S (S lo)) in D by lia; done)).
  destruct (for_ _ _ _ _) as [[t' w'] ov']. destruct IH as (act' & q' & I' & H' & X' & V' & L' & K').
  exists act', q'. split_and!; [done|congruence|congruence|lia|lia|].
  intros k Hk. rewrite K', K1; [done|set_solver..].
Qed.

Lemma first_pass_start ms root tree w : merged leaves ms [root] -> linked tree ms ->
  Forall (fun x => (x < length tree)%nat) (root :: flat ms) -> root ∉ flat ms -> is_leaf root = false ->
  bl_count w = replicate (S MAX_BITS) 0 ->
  len_inv ms [root] (set_dl tree root 0) (bl_count w) 0.
Proof.
  intros Hm Hk Ht Hr Hn Hc. pose proof Ht as Ht'. apply list.Forall_cons in Ht as [Tr _].
  assert (V : lenw (set_dl tree root 0) root = 0) by (rewrite lenw_set by done; by rewrite Nat.eqb_refl).
  constructor; cbn [zsum foldr app].
  - done.
  - apply (linked_ext tree); [|done]. intros k Hx. rewrite dl_set_dl by done.
    rewrite (proj2 (Nat.eqb_neq _ _)); [done|congruence].
  - rewrite list.Forall_singleton, V. lia.
  - rewrite list.Forall_singleton, Hn. done.
  - rewrite V. rewrite Z.sub_0_r. lia.
  - done.
  - unfold at_len. rewrite V. rewrite (proj2 (Z.eqb_neq 0 M)) by lia. done.
  - by rewrite Hc, length_replicate.
  - intros b Hb. unfold leaf_at. rewrite Hn. cbn [andb ind]. rewrite Hc, getn_replicate; [done|unfold MAX_BITS; lia].
  - by rewrite length_set_dl.
Qed.

(** ** The repair of the lengths *)

(** Sums over the lengths 1 to [M]: of [counts] weighed with [g]. *)
Definition lengths : nodes := seq 1 (max_length st).
Definition weigh (g : Z -> Z) (counts : list Z) : Z := zsum (fun b => getn counts b * g (Z.of_nat b)) lengths.
Definition symbols_in (counts : list Z) : Z := weigh (fun _ => 1) counts.
Definition share (counts : list Z) : Z := weigh (fun b => 2 ^ (M - b)) counts.

Record counts_ok (counts : list Z) (q : Z) : Prop := {
  co_length : length counts = S MAX_BITS;
  co_rest : forall b, (b < 1 \/ max_length st < b)%nat -> getn counts b = 0;
  co_nonneg : forall b, (1 <= b <= max_length st)%nat -> 0 <= getn counts b;
  co_symbols : symbols_in counts = Z.of_nat (length leaves);
  co_share : share counts = 2 ^ M + q;
  co_deep : q + ind (0 <? q) <= getn counts (max_length st)
}.

Lemma lengths_in b : b ∈ lengths <-> (1 <= b <= max_length st)%nat.
Proof. unfold lengths. rewrite elem_of_seq. lia. Qed.

Lemma weigh_setn g counts k v : (1 <= k <= max_length st)%nat -> (k < length counts)%nat ->
  weigh g (setn counts k v) = weigh g counts + (v - getn counts k) * g (Z.of_nat k).
Proof.
  intros Hk Hl. unfold weigh.
  rewrite <- (zsum_pick (fun b => (v - getn counts b) * g (Z.of_nat b)) k lengths (NoDup_seq _ _)) by by apply lengths_in.
  rewrite <- zsum_add. apply zsum_ext. intros b _. rewrite getn_setn by done. destruct (Nat.eqb_spec b k) as [->|]; lia.
Qed.

(** A sum over nodes, taken length by length. *)
Lemma weigh_lens (g : Z -> Z) tree (act : nodes) : Forall (fun x => 1 <= lenw tree x <= M) act ->
  zsum (fun x => g (lenw tree x)) act =
  zsum (fun b => zsum (at_len tree (Z.of_nat b)) act * g (Z.of_nat b)) lengths.
Proof.
  induction act as [|x act IH]; intros F.
  { cbn. clear. induction lengths as [|b l IH]; [done|]. rewrite zsum_cons, <- IH. lia. }
  apply list.Forall_cons in F as [Hx F]. rewrite zsum_cons, IH by done.
  rewrite (zsum_ext (fun b => zsum (at_len tree (Z.of_nat b)) (x :: act) * g (Z.of_nat b))
    (fun b => at_len tree (Z.of_nat b) x * g (Z.of_nat b) + zsum (at_len tree (Z.of_nat b)) act * g (Z.of_nat b))).
  2: { intros b _. rewrite zsum_cons. lia. }
  rewrite zsum_add. f_equal. unfold at_len. set (k := Z.to_nat (lenw tree x)).
  assert (Ek : lenw tree x = Z.of_nat k) by lia. clearbody k.
  assert (Hk : k ∈ lengths) by (apply lengths_in; lia).
  rewrite Ek, <- (zsum_pick (fun b => g (Z.of_nat b)) k lengths (NoDup_seq _ _) Hk). apply zsum_ext. intros b _.
  destruct (Nat.eqb_spec b k) as [->|]; [rewrite Z.eqb_refl|rewrite (proj2 (Z.eqb_neq _ _)) by lia]; cbn [ind]; lia.
Qed.

(** What the first pass leaves. *)
Lemma first_pass_counts act tree counts q : len_inv [] act tree counts q -> Forall (fun x => is_leaf x = true) leaves ->
  counts_ok counts q.
Proof.
  intros [Lm _ Lb Lp Ls Lo Ld Ll Lc _] Hl. inversion Lm as [? P|]; subst.
  assert (B : Forall (fun x => 1 <= lenw tree x <= M) act).
  { rewrite <- P in Hl. rewrite list.Forall_forall in *. intros x Hx. specialize (Lb x Hx). specialize (Lp x Hx (Hl x Hx)). cbn in *. lia. }
  assert (C : forall b, b ∈ lengths -> getn counts b = zsum (at_len tree (Z.of_nat b)) act).
  { intros b Hb. apply lengths_in in Hb. rewrite <- (Nat2Z.id b), Lc by lia. rewrite Nat2Z.id. apply zsum_ext. intros x Hx.
    unfold leaf_at. rewrite <- P, list.Forall_forall in Hl. by rewrite (Hl x Hx). }
  assert (W : forall g, weigh g counts = zsum (fun x => g (lenw tree x)) act).
  { intros g. rewrite weigh_lens by done. unfold weigh. apply zsum_ext. intros b Hb. by rewrite C. }
  constructor; [done|..].
  - intros b Hb. destruct (Nat.lt_ge_cases b 16).
    + rewrite <- (Nat2Z.id b), Lc by lia. rewrite (zsum_ext _ (fun _ => 0)).
      { apply zsum_0. }
      intros x Hx. rewrite list.Forall_forall in B. specialize (B x Hx). cbn in B. unfold leaf_at.
      rewrite (proj2 (Z.eqb_neq _ _)) by lia. by rewrite andb_false_r.
    + unfold getn. apply nth_overflow. rewrite Ll. unfold MAX_BITS. lia.
  - intros b Hb. rewrite C by by apply lengths_in. apply zsum_nonneg. intros. apply ind_bounds.
  - unfold symbols_in. rewrite W. rewrite <- P. clear. induction act as [|x act IH]; [done|].
    rewrite zsum_cons. cbn [length]. lia.
  - unfold share. by rewrite W.
  - rewrite C by (apply lengths_in; lia). done.
Qed.

Lemma nonzero_below_spec counts bits : let k := nonzero_below counts bits in
  (k <= bits)%nat /\ (k <> 0%nat -> getn counts k <> 0) /\ (forall b, (k < b <= bits)%nat -> getn counts b = 0).
Proof.
  cbv zeta. induction bits as [|bits IH]; cbn [nonzero_below]; [split_and!; lia|].
  destruct (Z.eqb_spec (getn counts (S bits)) 0) as [E|E]; [|split_and!; [lia|done|lia]].
  destruct IH as (A & B & C). split_and!; [lia|done|]. intros b Hb.
  destruct (decide (b = S bits)) as [->|]; [done|apply C; lia].
Qed.

(** One count is at most all of them. *)
Lemma count_le counts q b : counts_ok counts q -> (1 <= b <= max_length st)%nat ->
  0 <= getn counts b <= Z.of_nat (length leaves).
Proof.
  intros [_ _ Cn Cs _ _] Hb. split; [by apply Cn|]. rewrite <- Cs. unfold symbols_in, weigh.
  assert (Hin : b ∈ lengths) by by apply lengths_in.
  assert (Hn : forall x, x ∈ lengths -> 0 <= getn counts x) by (intros x Hx; apply Cn; by apply lengths_in).
  revert Hin Hn. generalize lengths as l. induction l as [|x l IH]; intros Hin Hn; [set_solver|].
  rewrite zsum_cons. assert (0 <= zsum (fun b => getn counts b * 1) l).
  { clear IH Hin. induction l as [|y l IHl]; [done|]. rewrite zsum_cons.
    pose proof (Hn y ltac:(set_solver)). specialize (IHl ltac:(set_solver)). lia. }
  pose proof (Hn x ltac:(set_solver)). apply elem_of_cons in Hin as [->|Hin]; [lia|].
  specialize (IH Hin ltac:(set_solver)). lia.
Qed.

Context (Hroom : Z.of_nat (length leaves) <= 2 ^ M).

(** While there are items too deep, a shorter length is in use. *)
Lemma shorter_in_use counts q : counts_ok counts q -> 0 < q ->
  let k := nonzero_below counts (max_length st - 1) in
  (1 <= k < max_length st)%nat /\ 1 <= getn counts k.
Proof.
  intros C Hq. destruct (nonzero_below_spec counts (max_length st - 1)) as (A & B & Z0).
  set (k := nonzero_below _ _) in *. cbv zeta.
  destruct (decide (k = 0%nat)) as [E|E].
  - exfalso. pose proof (co_share _ _ C) as S1. pose proof (co_symbols _ _ C) as S2.
    assert (W : share counts = symbols_in counts).
    { unfold share, symbols_in, weigh. apply zsum_ext. intros b Hb. apply lengths_in in Hb.
      destruct (decide (b = max_length st)) as [->|].
      - fold M. by rewrite Z.sub_diag.
      - rewrite (Z0 b) by lia. lia. }
    lia.
  - pose proof (co_nonneg _ _ C k ltac:(lia)). specialize (B E). lia.
Qed.

Lemma repair_step counts q : counts_ok counts q -> 0 < q ->
  let bits := nonzero_below counts (max_length st - 1) in
  let c := setn counts bits (u16 (getn counts bits - 1)) in
  let c := setn c (bits + 1) (u16 (getn c (bits + 1) + 2)) in
  let c := setn c (max_length st) (u16 (getn c (max_length st) - 1)) in
  counts_ok c (q - 1).
Proof.
  intros C Hq. destruct (shorter_in_use counts q C Hq) as [Hk Hc].
  pose proof (count_le counts q) as B. specialize (B). set (k := nonzero_below counts (max_length st - 1)) in *. cbv zeta.
  pose proof C as [Cl Cr Cn Cs Ch Cd]. replace (0 <? q) with true in Cd by lia. cbn [ind] in Cd.
  pose proof (B k C ltac:(lia)) as Bk. pose proof (B (k + 1)%nat C ltac:(lia)) as Bk1.
  pose proof (B (max_length st) C ltac:(lia)) as BM. clear B.
  assert (L16 : S MAX_BITS = 16%nat) by done.
  set (c1 := setn counts k (u16 (getn counts k - 1))).
  assert (L1 : length c1 = 16%nat) by (unfold c1; rewrite length_setn; lia).
  assert (G1 : forall b, getn c1 b = if (b =? k)%nat then getn counts k - 1 else getn counts b).
  { intros b. unfold c1. rewrite getn_setn, u16_id by lia. done. }
  set (c2 := setn c1 (k + 1) (u16 (getn c1 (k + 1) + 2))).
  assert (L2 : length c2 = 16%nat) by (unfold c2; rewrite length_setn; lia).
  assert (E1 : getn c1 (k + 1) = getn counts (k + 1)) by (rewrite G1, (proj2 (Nat.eqb_neq _ _)); lia || done).
  assert (G2 : forall b, getn c2 b = if (b =? k + 1)%nat then getn counts (k + 1) + 2 else getn c1 b).
  { intros b. unfold c2. rewrite getn_setn, E1, u16_id by lia. done. }
  assert (E2 : getn c2 (max_length st) = getn counts (max_length st) + (if (max_length st =? k + 1)%nat then 2 else 0)).
  { rewrite G2, G1. destruct (Nat.eqb_spec (max_length st) (k + 1)) as [E|]; [rewrite E; lia|].
    rewrite (proj2 (Nat.eqb_neq _ _)) by lia. lia. }
  set (v := getn c2 (max_length st) - 1).
  assert (V : u16 v = v).
  { unfold v. apply u16_id. rewrite E2. destruct (_ =? _)%nat; lia. }
  rewrite V.
  assert (W : forall g, weigh g (setn c2 (max_length st) v) =
    weigh g counts - g (Z.of_nat k) + 2 * g (Z.of_nat (k + 1)) - g M).
  { intros g. assert (W1 : weigh g c1 = weigh g counts + (getn counts k - 1 - getn counts k) * g (Z.of_nat k)).
    { unfold c1. by rewrite weigh_setn, u16_id by lia. }
    assert (W2 : weigh g c2 = weigh g c1 + (getn c1 (k + 1) + 2 - getn c1 (k + 1)) * g (Z.of_nat (k + 1))).
    { unfold c2. rewrite weigh_setn, u16_id by lia. done. }
    rewrite weigh_setn, W2, W1 by lia. unfold v, M. lia. }
  constructor.
  - rewrite length_setn. lia.
  - intros b Hb. rewrite getn_setn, (proj2 (Nat.eqb_neq _ _)), G2, (proj2 (Nat.eqb_neq _ _)), G1, (proj2 (Nat.eqb_neq _ _)) by lia.
    by apply Cr.
  - intros b Hb. rewrite getn_setn by lia. destruct (Nat.eqb_spec b (max_length st)).
    + unfold v. rewrite E2. destruct (_ =? _)%nat; lia.
    + rewrite G2, G1. pose proof (Cn b Hb). repeat destruct (_ =? _)%nat; lia.
  - unfold symbols_in in *. rewrite W, Cs. lia.
  - unfold share in *. rewrite W, Ch, Z.sub_diag. change (2 ^ 0) with 1.
    assert (2 ^ (M - Z.of_nat k) = 2 * 2 ^ (M - Z.of_nat (k + 1))).
    { rewrite <- Z.pow_succ_r by lia. f_equal. lia. }
    lia.
  - rewrite getn_setn, Nat.eqb_refl by lia. unfold v. rewrite E2.
    pose proof (ind_bounds (0 <? q - 1)). destruct (_ =? _)%nat; lia.
Qed.

(** The loop ends with a complete code; [q] turns are made. *)
Lemma repair_ok fuel : forall counts q, counts_ok counts q -> 0 < q <= Z.of_nat fuel ->
  counts_ok (repair fuel (max_length st) counts (2 * q)) 0.
Proof.
  induction fuel as [|fuel IH]; intros counts q C Hq; [lia|]. cbn [repair].
  pose proof (repair_step counts q C ltac:(lia)) as S. cbv zeta in S |- *.
  replace (2 * q - 2) with (2 * (q - 1)) by lia.
  destruct (Z.ltb_spec 0 (2 * (q - 1))).
  - apply IH; [exact S|lia].
  - replace (q - 1) with 0 in S by lia. exact S.
Qed.

(** ** The lengths are dealt out again *)

Definition leaves_of (l : nodes) : nodes := List.filter is_leaf l.

Lemma leaves_of_app a b : leaves_of (a ++ b) = leaves_of a ++ leaves_of b.
Proof. apply List.filter_app. Qed.

Lemma leaves_of_in x l : x ∈ leaves_of l -> x ∈ l.
Proof. unfold leaves_of. rewrite !list_elem_of_In, List.filter_In. tauto. Qed.

Lemma at_snoc lo hp (l : nodes) x : take (S (length l)) (drop lo hp) = l ++ [x] -> at_ hp (lo + length l) = x.
Proof.
  intros H. assert (E : take (S (length l)) (drop lo hp) !! length l = Some x).
  { rewrite H. by rewrite lookup_app_r, Nat.sub_diag by lia. }
  rewrite lookup_take_lt, lookup_drop in E by lia. unfold at_. by rewrite nth_lookup, E.
Qed.

Lemma take_prefix lo hp (a b : nodes) : take (length (a ++ b)) (drop lo hp) = a ++ b -> take (length a) (drop lo hp) = a.
Proof.
  intros H. apply (f_equal (take (length a))) in H. rewrite take_app_length, take_take, length_app in H.
  by replace (Nat.min (length a) (length a + length b)) with (length a) in H by lia.
Qed.

(** [relen] gives the length [bits] to the last [n] leaves of the nodes from [lo] on. *)
Lemma relen_spec hp bits lo : forall l n tree o, take (length l) (drop lo hp) = l ->
  Forall (fun x => (x < length tree)%nat) l -> 0 <= n <= Z.of_nat (length (leaves_of l)) ->
  exists l1 l2 tree' o', l = l1 ++ l2 /\ relen hp mc bits (lo + length l) n (tree, o) = ((lo + length l1)%nat, (tree', o')) /\
    Z.of_nat (length (leaves_of l2)) = n /\ length tree' = length tree /\
    forall x, lenw tree' x = if bool_decide (x ∈ leaves_of l2) then Z.of_nat bits else lenw tree x.
Proof.
  induction l as [|x l IH] using rev_ind; intros n tree o D F Hn.
  { assert (n = 0) as -> by (cbn in Hn; lia). exists [], [], tree, o.
    rewrite Nat.add_0_r. split; [done|]. split; [by destruct lo|done]. }
  pose proof (take_prefix _ _ _ _ D) as D'. rewrite length_app, (Nat.add_comm (length l)) in *. cbn [length Nat.add] in *.
  pose proof (at_snoc _ _ _ _ D) as A.
  apply Forall_app in F as [F Fx]. apply list.Forall_cons in Fx as [Fx _].
  destruct (decide (n = 0)) as [->|N0].
  { exists (l ++ [x]), [], tree, o. rewrite app_nil_r, length_app, Nat.add_1_r, Nat.add_succ_r. done. }
  rewrite Nat.add_succ_r. cbn [relen]. rewrite (proj2 (Z.eqb_neq n 0)), A by done.
  rewrite leaves_of_app, length_app in Hn.
  destruct (mc <? Z.of_nat x) eqn:Ex.
  - assert (Lx : leaves_of [x] = []) by (unfold leaves_of, is_leaf; cbn [List.filter]; by rewrite Z.leb_antisym, Ex).
    rewrite Lx in Hn. cbn in Hn.
    destruct (IH n tree o D' F ltac:(lia)) as (l1 & l2 & t & o' & E1 & E2 & E3 & E4 & E5).
    exists l1, (l2 ++ [x]), t, o'. rewrite leaves_of_app, Lx, app_nil_r. by rewrite E1, app_assoc at 1.
  - assert (Lx : leaves_of [x] = [x]) by (unfold leaves_of, is_leaf; cbn [List.filter]; by rewrite Z.leb_antisym, Ex).
    rewrite Lx in Hn. cbn [length] in Hn.
    set (t1 := if negb (Len (ct tree x) =? Z.of_nat bits) then set_dl tree x (Z.of_nat bits) else tree).
    assert (V1 : forall y, lenw t1 y = if (y =? x)%nat then Z.of_nat bits else lenw tree y).
    { intros y. unfold t1. destruct (Z.eqb_spec (dl (ct tree x)) (Z.of_nat bits)) as [E|E]; cbn [negb].
      - destruct (Nat.eqb_spec y x) as [->|]; done.
      - apply lenw_set. exact Fx. }
    assert (L1 : length t1 = length tree) by (unfold t1; destruct (negb _); rewrite ?length_set_dl; done).
    set (s1 := if negb _ then _ else _).
    assert (S1 : exists o1, s1 = (t1, o1)) by (unfold s1, t1; destruct (negb _); by eexists).
    destruct S1 as [o1 ->].
    destruct (IH (n - 1) t1 o1 D' ltac:(by rewrite L1) ltac:(lia)) as (l1 & l2 & t & o' & E1 & E2 & E3 & E4 & E5).
    exists l1, (l2 ++ [x]), t, o'. rewrite leaves_of_app, Lx, length_app. cbn [length].
    split; [by rewrite E1, app_assoc at 1|]. split; [done|]. split; [lia|]. split; [lia|].
    intros y. rewrite E5, V1. destruct (Nat.eqb_spec y x) as [->|Hy].
    + rewrite (bool_decide_eq_true_2 (x ∈ leaves_of l2 ++ [x])) by set_solver. by destruct (bool_decide _).
    + rewrite (bool_decide_ext (y ∈ leaves_of l2 ++ [x]) (y ∈ leaves_of l2)) by set_solver. done.
Qed.

Lemma relen_loop hp counts lo k : forall l tree o, take (length l) (drop lo hp) = l -> NoDup l ->
  Forall (fun x => (x < length tree)%nat) l -> (forall b, (1 <= b <= k)%nat -> 0 <= getn counts b) ->
  Z.of_nat (length (leaves_of l)) = zsum (getn counts) (seq 1 k) ->
  let '(_, (tree', _)) :=
    for_down k (fun bits '(h, s) => relen hp mc bits h (getn counts bits) s) ((lo + length l)%nat, (tree, o)) in
  length tree' = length tree /\ (forall x, x ∉ leaves_of l -> lenw tree' x = lenw tree x) /\
  Forall (fun x => 1 <= lenw tree' x <= Z.of_nat k) (leaves_of l) /\
  forall g, zsum (fun x => g (lenw tree' x)) (leaves_of l) = zsum (fun b => getn counts b * g (Z.of_nat b)) (seq 1 k).
Proof.
  induction k as [|k IH]; intros l tree o D N F Hc Hs.
  { cbn in *. assert (leaves_of l = []) as -> by (apply length_zero_iff_nil; lia). done. }
  rewrite seq_S, zsum_app in Hs. change (1 + k)%nat with (S k) in Hs. cbn [for_down].
  assert (S0 : forall k, (forall b, (1 <= b <= k)%nat -> 0 <= getn counts b) -> 0 <= zsum (getn counts) (seq 1 k)).
  { clear. induction k as [|k IH]; intros H; [done|]. rewrite seq_S, zsum_app. cbn. pose proof (H (S k)).
    specialize (IH ltac:(intros; apply H; lia)). lia. }
  specialize (S0 k ltac:(intros; apply Hc; lia)). cbn [zsum foldr] in Hs. pose proof (Hc (S k) ltac:(lia)).
  destruct (relen_spec hp (S k) lo l (getn counts (S k)) tree o D F ltac:(lia))
    as (l1 & l2 & t & o' & E1 & E2 & E3 & E4 & E5).
  rewrite E2. rewrite E1, leaves_of_app, length_app in Hs. rewrite E1 in D, N, F.
  apply list.NoDup_app in N as (N1 & N12 & N2). apply Forall_app in F as [F1 _].
  apply take_prefix in D.
  specialize (IH l1 t o' D N1 ltac:(by rewrite E4) ltac:(intros; apply Hc; lia) ltac:(lia)).
  destruct (for_down _ _ _) as [? [tree' ?]]. destruct IH as (I1 & I2 & I3 & I4).
  assert (V2 : forall x, x ∈ leaves_of l2 -> lenw tree' x = Z.of_nat (S k)).
  { intros x Hx. rewrite I2, E5, bool_decide_eq_true_2; [done|done|].
    intros X. apply leaves_of_in in X, Hx. by apply (N12 x). }
  rewrite E1, leaves_of_app. split_and!; [lia| | |].
  - intros x Hx. rewrite I2, E5, bool_decide_eq_false_2 by set_solver. done.
  - apply Forall_app. split; [eapply List.Forall_impl; [|exact I3]; cbn; lia|].
    apply list.Forall_forall. intros x Hx. rewrite V2 by done. lia.
  - intros g. rewrite seq_S, !zsum_app, I4. change (1 + k)%nat with (S k). f_equal.
    rewrite (zsum_ext _ (fun _ => g (Z.of_nat (S k)))) by (intros x Hx; by rewrite V2).
    rewrite zsum_cons, <- E3. change (zsum _ []) with 0. rewrite Z.add_0_r. generalize (leaves_of l2). clear.
    induction l as [|x l IH]; [done|]. rewrite zsum_cons, IH. cbn [length]. lia.
Qed.

Lemma leaves_of_perm l l' : l ≡ₚ l' -> leaves_of l ≡ₚ leaves_of l'.
Proof.
  unfold leaves_of. induction 1 as [|x l l' P IH|x y l|a b c P1 IH1 P2 IH2]; cbn [List.filter]; [done|..].
  - destruct (is_leaf x); by rewrite ?IH.
  - destruct (is_leaf x), (is_leaf y); done || constructor.
  - by rewrite IH1.
Qed.

Lemma merged_leaves ms act : Forall (fun x => is_leaf x = true) leaves ->
  Forall (fun '(_, _, d) => is_leaf d = false) ms -> merged leaves ms act -> leaves_of (act ++ flat ms) ≡ₚ leaves.
Proof.
  intros Hl Hf Hm. induction Hm as [act P|ms act n m d rest act' Hm IH P1 P2 F].
  - cbn. rewrite app_nil_r. rewrite (leaves_of_perm _ _ P). unfold leaves_of. rewrite List.forallb_filter_id; [done|].
    apply List.forallb_forall. intros x Hx. rewrite List.Forall_forall in Hl. auto.
  - apply list.Forall_cons in Hf as [Fd Hf]. rewrite <- (IH Hf).
    rewrite (leaves_of_perm _ ((d :: rest) ++ flat ((n, m, d) :: ms))) by by rewrite P2.
    rewrite (leaves_of_perm (act ++ flat ms) ((n :: m :: rest) ++ flat ms)) by by rewrite P1.
    change (flat ((n, m, d) :: ms)) with (m :: n :: flat ms). cbn [app].
    unfold leaves_of at 1. cbn [List.filter]. rewrite Fd. apply leaves_of_perm.
    rewrite <- Permutation_middle, <- Permutation_middle. by rewrite perm_swap.
Qed.

(** The code is complete: the lengths fill the code space. *)
Definition complete (tree : list ct_data) : Prop :=
  Forall (fun x => 1 <= lenw tree x <= M) leaves /\ zsum (fun x => 2 ^ (M - lenw tree x)) leaves = 2 ^ M.

Definition counted (tree : list ct_data) (counts : list Z) : Prop :=
  length counts = S MAX_BITS /\ forall b, getn counts b = zsum (at_len tree (Z.of_nat b)) leaves.

Lemma no_length tree b : Forall (fun x => 1 <= lenw tree x <= M) leaves -> b < 1 \/ M < b ->
  zsum (at_len tree b) leaves = 0.
Proof.
  intros F Hb. rewrite (zsum_ext _ (fun _ => 0)).
  - apply zsum_0.
  - intros x Hx. rewrite list.Forall_forall in F. specialize (F x Hx). cbn in F. unfold at_len.
    by rewrite (proj2 (Z.eqb_neq _ _)) by lia.
Qed.

(** The counts that stand for the lengths of the leaves. *)
Lemma counted_by tree counts q : counts_ok counts q -> Forall (fun x => 1 <= lenw tree x <= M) leaves ->
  (forall b, (1 <= b <= max_length st)%nat -> getn counts b = zsum (at_len tree (Z.of_nat b)) leaves) -> counted tree counts.
Proof.
  intros C F H. split; [apply (co_length _ _ C)|]. intros b. destruct (decide (1 <= b <= max_length st)%nat); [by apply H|].
  rewrite (co_rest _ _ C), no_length; [done|done|lia..].
Qed.

Lemma gen_bitlen_ok ms root tree w : merged leaves ms [root] -> linked tree ms ->
  Forall (fun x => (x < length tree)%nat) (root :: flat ms) ->
  Forall (fun x => is_leaf x = true) leaves -> Forall (fun '(_, _, d) => is_leaf d = false) ms -> is_leaf root = false ->
  drop (heap_max w) (heap w) = root :: flat ms -> (heap_max w + S (length (flat ms)) = HEAP_SIZE)%nat ->
  let '(tree', w') := gen_bitlen st tree mc w in
  length tree' = length tree /\ complete tree' /\ counted tree' (bl_count w') /\ (forall x, x ∉ root :: flat ms -> lenw tree' x = lenw tree x).
Proof.
  intros Hm Hk Ht Hl Hf Hr D E.
  pose proof (merged_NoDup _ _ _ Hdup Hm) as N. cbn [app] in N. pose proof N as Nr. apply list.NoDup_cons in Nr as [Nr Nf].
  pose proof (merged_leaves _ _ Hl Hf Hm) as P. cbn [app] in P.
  unfold leaves_of in P. cbn [List.filter] in P. rewrite Hr in P. fold (leaves_of (flat ms)) in P.
  unfold gen_bitlen. cbv zeta. set (w0 := with_counts w _).
  assert (A : at_ (heap w0) (heap_max w0) = root).
  { unfold at_. cbn [heap heap_max w0 with_counts]. rewrite nth_lookup, <- (Nat.add_0_r (heap_max w)), <- lookup_drop, D. done. }
  rewrite A.
  pose proof (first_pass_start ms root tree w0 Hm Hk Ht Nr Hr ltac:(done)) as I0.
  replace (HEAP_SIZE - (heap_max w0 + 1))%nat with (length (flat ms)) by (unfold w0; cbn [heap_max with_counts]; lia).
  assert (D1 : drop (heap_max w0 + 1) (heap w0) = flat ms).
  { unfold w0. cbn [heap_max heap with_counts]. by rewrite <- drop_drop, D. }
  pose proof (first_pass ms [root] _ w0 0 0 (heap_max w0 + 1) I0 Hf D1) as F.
  destruct (for_ _ _ _ _) as [[t1 w1] ov]. destruct F as (act & q & I1 & H1 & X1 & Ov & L1 & K1).
  rewrite length_set_dl in L1. apply list.Forall_cons in Ht as [Tr Tf].
  assert (K1' : forall x, x ∉ root :: flat ms -> lenw t1 x = lenw tree x).
  { intros x Hx. rewrite K1, lenw_set by (done || set_solver). rewrite (proj2 (Nat.eqb_neq _ _)); [done|set_solver]. }
  pose proof (first_pass_counts _ _ _ _ I1 Hl) as C. pose proof (li_over _ _ _ _ _ I1) as Hq.
  destruct (Z.eqb_spec ov 0) as [Z0|N0].
  - assert (q = 0) as -> by lia. pose proof I1 as [Lm _ Lb Lp Ls _ _ _ Lc _]. inversion Lm as [? Q|]; subst.
    assert (B : Forall (fun x => 1 <= lenw t1 x <= M) leaves).
    { rewrite list.Forall_forall in *. intros x Hx. specialize (Hl x Hx). rewrite <- Q in Hx.
      specialize (Lb x Hx). specialize (Lp x Hx Hl). cbn in Lb, Lp. lia. }
    split; [done|]. split; [split; [done|rewrite <- Q; lia]|]. split; [|exact K1'].
    apply (counted_by _ _ 0 C B). intros b Hb. rewrite <- (Nat2Z.id b), Lc, Q by lia. rewrite Nat2Z.id. apply zsum_ext.
    intros x Hx. unfold leaf_at. rewrite list.Forall_forall in Hl. by rewrite (Hl x Hx).
  - pose proof (repair_ok (Z.to_nat ov) _ q C ltac:(lia)) as C2. pose proof C2 as [Cl _ Cn Cs Ch _]. replace (2 * q) with ov in * by lia.
    cbn [heap bl_count opt_len with_counts]. set (counts := repair _ _ _ _) in *. unfold relen_all.
    assert (Hd : take (length (flat ms)) (drop (heap_max w + 1) (heap w1)) = flat ms).
    { rewrite H1. unfold w0. cbn [heap with_counts]. rewrite <- drop_drop, D. cbn [drop]. by rewrite take_ge. }
    pose proof (relen_loop (heap w1) counts (heap_max w + 1) (max_length st) (flat ms) t1 (opt_len w1) Hd Nf
      ltac:(by rewrite L1) Cn) as R.
    replace (heap_max w + 1 + length (flat ms))%nat with HEAP_SIZE in R by lia.
    assert (Hs : Z.of_nat (length (leaves_of (flat ms))) = zsum (getn counts) (seq 1 (max_length st))).
    { rewrite P, <- Cs. unfold symbols_in, weigh, lengths. apply zsum_ext. intros. lia. }
    specialize (R Hs). destruct (for_down _ _ _) as [h [t2 o2]]. destruct R as (R1 & R2 & R3 & R4).
    cbn [snd]. rewrite P in R3. split; [lia|]. split; [|split].
    + split; [exact R3|]. rewrite <- P. rewrite (R4 (fun b => 2 ^ (M - b))). unfold share, weigh, lengths in Ch. lia.
    + cbn [bl_count with_lens with_counts]. apply (counted_by _ _ 0 C2 R3). intros b Hb. rewrite <- P.
      specialize (R4 (fun c => ind (c =? Z.of_nat b))). unfold at_len. rewrite R4.
      rewrite <- (zsum_pick (getn counts) b (seq 1 (max_length st)) (NoDup_seq _ _)) by (apply elem_of_seq; lia).
      apply zsum_ext. intros x _. destruct (Nat.eqb_spec x b) as [->|];
        [rewrite Z.eqb_refl|rewrite (proj2 (Z.eqb_neq _ _)) by lia]; cbn [ind]; lia.
    + intros x Hx. rewrite R2, K1'; [done|done|]. intros X. apply leaves_of_in in X. set_solver.
Qed.
End Lengths.

(** ** The first heap *)

Lemma active_snoc l hp x : (S l < length hp)%nat -> active (S l) (<[S l := x]> hp) = active l hp ++ [x].
Proof.
  intros H. rewrite active_last by (by rewrite length_insert). rewrite active_insert_above by lia. do 2 f_equal.
  unfold at_. by rewrite nth_lookup, list_lookup_insert_eq.
Qed.

(** The nodes of the first heap after [n] symbols; [tree0] has the frequencies. *)
Record start_ok (n : nat) (tree0 : list ct_data) (leaves : nodes) (tree : list ct_data) (w : work) (mc : Z) : Prop := {
  so_heap : length (heap w) = HEAP_SIZE;
  so_active : active (heap_len w) (heap w) = leaves;
  so_len : heap_len w = length leaves;
  so_max : heap_max w = HEAP_SIZE;
  so_dup : NoDup leaves;
  so_range : Forall (fun x => (x < n)%nat /\ Z.of_nat x <= mc) leaves;
  so_code : mc = -1 \/ exists x, x ∈ leaves /\ mc = Z.of_nat x;
  so_zero : forall x, (x < n)%nat -> x ∉ leaves -> Len (ct tree x) = 0;
  so_occur : forall x, (x < n)%nat -> Freq (ct tree0 x) <> 0 -> x ∈ leaves;
  so_tree : length tree = length tree0
}.

Lemma start_next n tree0 leaves tree w mc : start_ok n tree0 leaves tree w mc -> (n < L_CODES)%nat -> (n < length tree)%nat ->
  let w' := mk_work (<[S (heap_len w) := n]> (heap w)) (S (heap_len w)) (heap_max w) (setn (depth w) n 0) (bl_count w)
    (opt_len w) (static_len w) in
  start_ok (S n) tree0 (leaves ++ [n]) tree w' (Z.of_nat n).
Proof.
  intros [Sh Sa Sl Sm Sd Sr Sc Sz So St] Hn Ht. cbv zeta.
  assert (HS : (HEAP_SIZE = 573)%nat) by done. assert (LC : (L_CODES = 286)%nat) by done.
  assert (Ll : (length leaves <= n)%nat).
  { rewrite <- (length_seq n 0). apply NoDup_incl_length; [by apply NoDup_ListNoDup|]. intros x Hx.
    rewrite List.Forall_forall in Sr. apply in_seq. destruct (Sr x Hx). lia. }
  constructor; cbn [heap heap_len heap_max].
  - by rewrite length_insert.
  - rewrite active_snoc by lia. by rewrite Sa.
  - rewrite length_app. cbn. lia.
  - done.
  - apply list.NoDup_app. split; [done|]. split; [|apply NoDup_singleton]. intros x Hx.
    rewrite list.Forall_forall in Sr. destruct (Sr x Hx). rewrite list_elem_of_singleton. lia.
  - apply Forall_app. split; [eapply List.Forall_impl; [|exact Sr]; cbn; lia|]. apply list.Forall_singleton. lia.
  - right. exists n. split; [set_solver|done].
  - intros x Hx. rewrite elem_of_app, list_elem_of_singleton. intros X. apply Sz; [|naive_solver].
    destruct (decide (x = n)); [naive_solver|lia].
  - intros x Hx Hf. rewrite elem_of_app, list_elem_of_singleton. destruct (decide (x = n)); [auto|]. left. apply So; [lia|done].
  - done.
Qed.

Lemma start_skip n tree0 leaves tree w mc : start_ok n tree0 leaves tree w mc -> (n < length tree)%nat ->
  Freq (ct tree0 n) = 0 -> start_ok (S n) tree0 leaves (set_dl tree n 0) w mc.
Proof.
  intros [Sh Sa Sl Sm Sd Sr Sc Sz So St] Ht F. constructor; try done.
  - eapply List.Forall_impl; [|exact Sr]. cbn. lia.
  - intros x Hx Hn. rewrite dl_set_dl by done. destruct (Nat.eqb_spec x n); [done|]. apply Sz; [lia|done].
  - intros x Hx Hf. apply So; [|done]. destruct (decide (x = n)) as [->|]; [done|lia].
  - by rewrite length_set_dl.
Qed.

Lemma collect_ok elems tree0 w : length (heap w) = HEAP_SIZE -> (elems <= L_CODES)%nat -> (elems <= length tree0)%nat ->
  let '(tree, w', mc) := collect elems tree0 w in exists leaves, start_ok elems tree0 leaves tree w' mc.
Proof.
  intros Hh He Ht. unfold collect.
  pose proof (for_ind (fun n '(tree, w', mc) => (exists leaves, start_ok n tree0 leaves tree w' mc) /\
    (forall x, fc (ct tree x) = fc (ct tree0 x))) 0 elems (fun n '(tree, w, max_code) =>
    if negb (Freq (ct tree n) =? 0) then
      (tree, mk_work (<[S (heap_len w) := n]> (heap w)) (S (heap_len w)) (heap_max w) (setn (depth w) n 0) (bl_count w)
         (opt_len w) (static_len w), Z.of_nat n)
    else (set_dl tree n 0, w, max_code)) (tree0, with_heap w (heap w) 0 HEAP_SIZE, -1)) as G.
  cbn [Nat.add] in G. destruct (for_ _ _ _ _) as [[tr wr] mr]. apply G; clear G tr wr mr.
  - split; [|done]. exists []. constructor; try done; [constructor|by left|lia|lia].
  - intros n [[tree w'] mc] Hn [[leaves S] F]. pose proof (so_tree _ _ _ _ _ _ S) as L. rewrite F.
    destruct (Z.eqb_spec (fc (ct tree0 n)) 0) as [E|E]; cbn [negb].
    + split; [exists leaves; apply start_skip; [done|lia|done]|]. intros x. rewrite fc_set_dl by lia. done.
    + split; [|done]. exists (leaves ++ [n]). eapply start_next; [exact S|lia|lia].
Qed.

(** The loop that forces two codes. *)
Lemma force_step n tree0 leaves tree w mc tree' w' node mc' : start_ok n tree0 leaves tree w mc ->
  (heap_len w < 2)%nat -> (3 <= n)%nat ->
  (if mc <? 2 then (Z.to_nat (mc + 1), mc + 1) else (0%nat, mc)) = (node, mc') ->
  length tree' = length tree -> (forall x, dl (ct tree' x) = dl (ct tree x)) ->
  heap w' = <[S (heap_len w) := node]> (heap w) -> heap_len w' = S (heap_len w) -> heap_max w' = heap_max w ->
  start_ok n tree0 (leaves ++ [node]) tree' w' mc'.
Proof.
  intros [Sh Sa Sl Sm Sd Sr Sc Sz So St] H2 Hn E L D H1 H3 H4. assert (HS : (HEAP_SIZE = 573)%nat) by done.
  rewrite list.Forall_forall in Sr.
  assert (B : node ∉ leaves /\ (node < n)%nat /\ Z.of_nat node <= mc' /\ mc <= mc' /\ (mc' = mc \/ mc' = Z.of_nat node) /\ mc' <> -1).
  { assert (Hm : -1 <= mc) by (destruct Sc as [->|(x & _ & ->)]; lia).
    destruct (Z.ltb_spec mc 2); injection E as <- <-.
    - split_and!; [|lia..]. intros X. apply Sr in X. lia.
    - split_and!; [|lia..]. intros X. destruct Sc as [->|(x & Hx & ->)]; [lia|].
      destruct leaves as [|y [|z l]]; [set_solver| |cbn in Sl; lia].
      apply list_elem_of_singleton in X, Hx. subst. lia. }
  destruct B as (B1 & B2 & B3 & B4 & B5 & B6). constructor.
  - by rewrite H1, length_insert.
  - rewrite H1, H3, active_snoc by lia. by rewrite Sa.
  - rewrite H3, length_app. cbn. lia.
  - by rewrite H4.
  - apply list.NoDup_app. split; [done|]. split; [|apply NoDup_singleton].
    intros x Hx. rewrite list_elem_of_singleton. by intros ->.
  - apply Forall_app. split; [|by apply list.Forall_singleton]. apply list.Forall_forall. intros x Hx. specialize (Sr x Hx). lia.
  - right. destruct B5 as [Bm|Bm]; rewrite Bm; [|exists node; split; [set_solver|done]].
    destruct Sc as [->|(x & Hx & ->)]; [lia|]. exists x. split; [set_solver|done].
  - intros x Hx Hl. rewrite D. apply Sz; [done|set_solver].
  - intros x Hx Hf. apply elem_of_app. left. by apply So.
  - by rewrite L.
Qed.

Lemma dl_set_fc_any tree n v k : dl (ct (set_fc tree n v) k) = dl (ct tree k).
Proof.
  destruct (Nat.lt_ge_cases n (length tree)) as [H|H]; [by apply dl_set_fc|].
  unfold set_fc. by rewrite list_insert_ge by lia.
Qed.

Lemma force_two_ok st turns : forall tree0 leaves tree w mc, start_ok (elems st) tree0 leaves tree w mc ->
  (3 <= elems st)%nat -> (2 <= heap_len w + turns)%nat ->
  let '(tree', w', mc') := force_two turns st (tree, w, mc) in
  exists leaves', start_ok (elems st) tree0 leaves' tree' w' mc' /\ (2 <= length leaves')%nat.
Proof.
  induction turns as [|turns IH]; intros tree0 leaves tree w mc S H3 H2; cbn [force_two].
  { exists leaves. split; [done|]. rewrite <- (so_len _ _ _ _ _ _ S). lia. }
  destruct (Nat.ltb_spec (heap_len w) 2) as [Hl|Hl].
  - destruct (if mc <? 2 then _ else _) as [node mc'] eqn:E. apply (IH tree0 (leaves ++ [node])); [|done|cbn [heap_len]; lia].
    eapply force_step; [exact S|exact Hl|exact H3|exact E|apply length_set_fc|intros; apply dl_set_fc_any|done..].
  - exists leaves. split; [done|]. rewrite <- (so_len _ _ _ _ _ _ S). lia.
Qed.

(** ** Codes do not touch lengths *)

Lemma gen_codes_dl tree mc counts k : dl (ct (gen_codes tree mc counts) k) = dl (ct tree k).
Proof.
  unfold gen_codes. apply (for_inv (fun s => dl (ct (snd s) k) = dl (ct tree k))); [done|].
  intros i [next t] _ H. cbn [snd] in *. destruct (_ =? 0)%nat; cbn [snd]; [done|]. by rewrite dl_set_fc_any.
Qed.

(** ** The code space as a sum over the symbols that have a code *)

Lemma kraft_zsum lens k : Inftrees.kraft lens k =
  zsum (fun x => if getn lens x =? 0 then 0 else 2 ^ (15 - getn lens x)) (seq 0 k).
Proof.
  induction k as [|k IH]; [done|]. rewrite seq_S, zsum_app. cbn [Inftrees.kraft].
  rewrite IH, zsum_cons. change (zsum _ []) with 0. rewrite Z.add_0_r. done.
Qed.

(** A sum over all symbols is one over those that count. *)
Lemma zsum_leaves f k (leaves : nodes) : NoDup leaves -> (forall x, x ∈ leaves -> (x < k)%nat) ->
  (forall x, (x < k)%nat -> x ∉ leaves -> f x = 0) -> zsum f (seq 0 k) = zsum f leaves.
Proof.
  intros N I O.
  assert (Sub : leaves ⊆+ seq 0 k).
  { apply NoDup_submseteq; [done|]. intros x Hx. apply elem_of_seq. specialize (I x Hx). lia. }
  apply submseteq_Permutation in Sub as [rest P]. rewrite P, zsum_app.
  assert (Hn : NoDup (leaves ++ rest)) by (rewrite <- P; apply NoDup_seq).
  apply list.NoDup_app in Hn as (_ & Hd & _).
  rewrite (zsum_ext _ (fun _ => 0) rest); [rewrite zsum_0; lia|].
  intros x Hx. apply O; [|intros X; by apply (Hd x)].
  assert (Hk : x ∈ seq 0 k) by (rewrite P; set_solver). apply elem_of_seq in Hk. lia.
Qed.

Lemma kraft_leaves lens k (leaves : nodes) : NoDup leaves -> (forall x, x ∈ leaves -> (x < k)%nat /\ getn lens x <> 0) ->
  (forall x, (x < k)%nat -> x ∉ leaves -> getn lens x = 0) ->
  Inftrees.kraft lens k = zsum (fun x => 2 ^ (15 - getn lens x)) leaves.
Proof.
  intros N I O. rewrite kraft_zsum, (zsum_leaves _ _ leaves).
  - apply zsum_ext. intros x Hx. destruct (I x Hx) as [_ Hn]. by rewrite (proj2 (Z.eqb_neq _ _)).
  - done.
  - intros x Hx. by apply I.
  - intros x Hx Hn. by rewrite O.
Qed.

(** ** build_tree *)

(** From the first heap to the root: the pairs in [drop (heap_max w)] and their
    fathers. *)
Lemma combine_all base leaves tree w : (2 <= length leaves <= L_CODES)%nat -> NoDup leaves ->
  length (heap w) = HEAP_SIZE -> heap_len w = length leaves -> heap_max w = HEAP_SIZE ->
  active (heap_len w) (heap w) ≡ₚ leaves -> Forall (fun x => (x < base)%nat) leaves ->
  (base + length leaves <= length tree)%nat -> Z.of_nat (length tree) < 65536 ->
  let '(tree', w') := combine_loop (heap_len w) base (tree, w) in
  let h := <[(heap_max w' - 1)%nat := at_ (heap w') SMALLEST]> (heap w') in
  exists ms root, merged leaves ms [root] /\ linked tree' ms /\ root ∉ leaves /\
    Forall (fun x => x ∈ leaves \/ (base <= x)%nat) (root :: flat ms) /\
    Forall (fun '(_, _, d) => (base <= d)%nat) ms /\ (base <= root)%nat /\
    Forall (fun x => (x < length tree')%nat) (root :: flat ms) /\
    drop (heap_max w' - 1) h = root :: flat ms /\ (heap_max w' - 1 + S (length (flat ms)) = HEAP_SIZE)%nat /\
    length tree' = length tree /\ (forall k, (k < base)%nat -> k ∉ leaves -> dl (ct tree' k) = dl (ct tree k)).
Proof.
  intros Hl Hd Hh El Em P Hb Ht H16. assert (HS : (HEAP_SIZE = 573)%nat) by done. assert (LC : (L_CODES = 286)%nat) by done.
  rewrite El in P |- *.
  assert (I : build_inv base leaves [] tree w base).
  { constructor; cbn [length flat map concat]; rewrite ?app_nil_r, ?El; try done; try lia.
    - by constructor.
    - rewrite drop_ge by lia. done.
    - by rewrite P.
    - constructor.
    - rewrite P. apply list.Forall_forall. by left. }
  pose proof (combine_loop_inv base leaves ltac:(lia) Hd (length leaves) [] tree w base I ltac:(lia) Ht H16 Hb) as C.
  destruct (combine_loop _ _ _) as [tree' w']. destruct C as (ms & [Ih Im [_ Il2] Ix Is In Ib Ik If Ir] & E1 & L & K).
  rewrite E1 in *. rewrite active_head in Im, Ib, Ir by lia. cbn [take app] in *.
  set (root := at_ (heap w') 1) in *. cbv zeta.
  assert (Lf : (length (flat ms) = 2 * length ms)%nat).
  { clear. induction ms as [|[[n m] d] ms IH]; [done|]. change (flat ((n, m, d) :: ms)) with (m :: n :: flat ms). cbn [length]. lia. }
  assert (Hr : (base <= root)%nat).
  { clear - Im If Hl Il2. inversion Im as [|? ? ? ? ? rest ? _ _ Q _]; subst; [cbn in Il2; lia|].
    apply list.Forall_cons in If as [If _]. apply Permutation_length_1_inv in Q. injection Q as -> ->. done. }
  assert (Ir' : Forall (fun x => x ∈ leaves \/ (base <= x)%nat) (root :: flat ms)) by exact Ir.
  exists ms, root. split_and!; try done.
  - rewrite list.Forall_forall in Hb. intros X. apply Hb in X. lia.
  - rewrite L. eapply List.Forall_impl; [|exact Ib]. cbn. lia.
  - rewrite (drop_S _ root) by (apply list_lookup_insert_eq; lia). f_equal.
    rewrite drop_insert_lt by lia. replace (S (heap_max w' - 1)) with (heap_max w') by lia. done.
  - lia.
Qed.

Lemma heap_limits : (HEAP_SIZE = 573)%nat /\ (L_CODES = 286)%nat.
Proof. done. Qed.

(** The lengths [build_tree] gives, for any description whose code has room for all
    symbols. *)
Lemma build_tree_lengths st tree w : (3 <= elems st <= L_CODES)%nat -> 1 <= Z.of_nat (max_length st) <= 15 ->
  Z.of_nat (elems st) <= 2 ^ Z.of_nat (max_length st) -> (2 * elems st <= length tree)%nat ->
  Z.of_nat (length tree) < 65536 -> length (heap w) = HEAP_SIZE ->
  let '(tree', mc, w') := build_tree st tree w in
  exists leaves, NoDup leaves /\ Forall (fun x => (x < elems st)%nat /\ Z.of_nat x <= mc) leaves /\
    complete st leaves tree' /\ length tree' = length tree /\
    (forall x, (x < elems st)%nat -> x ∉ leaves -> Len (ct tree' x) = 0) /\
    (forall x, (x < elems st)%nat -> Freq (ct tree x) <> 0 -> x ∈ leaves) /\ 1 <= mc < Z.of_nat (elems st) /\
    exists t counts, tree' = gen_codes t mc counts /\ counted leaves t counts /\ length t = length tree.
Proof.
  intros He HM Hroom Ht H16 Hh. destruct heap_limits as [HS LC]. unfold build_tree.
  pose proof (collect_ok (elems st) tree w Hh ltac:(lia) ltac:(lia)) as C.
  destruct (collect (elems st) tree w) as [[t1 w1] mc1]. destruct C as [l1 C].
  pose proof (force_two_ok st 2 tree l1 t1 w1 mc1 C ltac:(lia) ltac:(lia)) as F.
  destruct (force_two 2 st (t1, w1, mc1)) as [[t2 w2] mc]. destruct F as (leaves & [Sh Sa Sl Sm Sd Sr Sc Sz So St] & L2).
  assert (Hmc : 1 <= mc < Z.of_nat (elems st)).
  { rewrite list.Forall_forall in Sr. destruct leaves as [|a [|b l]]; [cbn in L2; lia..|].
    apply list.NoDup_cons in Sd as [Na _]. pose proof (Sr a ltac:(set_solver)). pose proof (Sr b ltac:(set_solver)).
    assert (a <> b) by set_solver. destruct Sc as [->|(x & Hx & ->)]; [lia|]. apply Sr in Hx. lia. }
  assert (Ll : (length leaves <= elems st)%nat).
  { rewrite <- (length_seq (elems st) 0). apply NoDup_incl_length; [by apply NoDup_ListNoDup|]. intros x Hx.
    rewrite List.Forall_forall in Sr. apply in_seq. destruct (Sr x Hx). lia. }
  destruct (heapify_same t2 w2 ltac:(lia)) as (HS1 & HS2 & HS3). set (w3 := heapify t2 w2) in *.
  pose proof (combine_all (elems st) leaves t2 w3 ltac:(lia) Sd ltac:(by rewrite (same_heap_length _ _ _ HS1))
    ltac:(lia) ltac:(lia)) as K.
  rewrite HS2 in K. specialize (K ltac:(rewrite (same_heap_active _ _ _ HS1) by lia; by rewrite Sa)).
  specialize (K ltac:(eapply List.Forall_impl; [|exact Sr]; cbn; tauto) ltac:(lia) ltac:(by rewrite St)).
  rewrite HS2. destruct (combine_loop _ _ _) as [t4 w4]. cbv zeta in K.
  destruct K as (ms & root & Km & Kl & Kr & Kx & Kf & Kb & Kt & Kd & Ke & L4 & K4).
  set (w5 := with_heap w4 _ _ _).
  assert (Lf : forall x, (elems st <= x)%nat -> is_leaf mc x = false) by (intros; unfold is_leaf; lia).
  pose proof (gen_bitlen_ok st mc leaves HM Sd ltac:(lia) ltac:(lia) ms root t4 w5 Km Kl Kt) as G.
  specialize (G ltac:(eapply List.Forall_impl; [|exact Sr]; cbn; unfold is_leaf; lia)).
  specialize (G ltac:(eapply List.Forall_impl; [|exact Kf]; intros [[n m] d]; apply Lf) (Lf _ Kb) Kd Ke).
  destruct (gen_bitlen st t4 mc w5) as [t6 w6]. destruct G as (L6 & G1 & G3 & G2).
  exists leaves. split; [done|]. split; [done|].
  assert (V : forall x, lenw (gen_codes t6 mc (bl_count w6)) x = lenw t6 x) by (intros; apply gen_codes_dl).
  split; [|split].
  - destruct G1 as [G11 G12]. split.
    + eapply List.Forall_impl; [|exact G11]. cbn. intros x. by rewrite V.
    + rewrite <- G12. apply zsum_ext. intros x _. by rewrite V.
  - unfold gen_codes. apply (for_inv (fun s => length (snd s) = length tree)); [cbn [snd]; lia|].
    intros i [nx t] _ H. cbn [snd] in *. destruct (_ =? 0)%nat; cbn [snd]; [done|]. by rewrite length_set_fc.
  - split; [|split; [exact So|split; [exact Hmc|exists t6, (bl_count w6); split; [done|split; [exact G3|lia]]]]].
    intros x Hx Hn. change (lenw (gen_codes t6 mc (bl_count w6)) x = 0).
    rewrite V, G2; [change (dl (ct t4 x) = 0); rewrite K4 by done; by apply Sz|].
    intros X. rewrite list.Forall_forall in Kx. destruct (Kx x X); [done|lia].
Qed.

(** The array of the heap keeps its size, whatever the tree. *)
Lemma pqdownheap_length tree dp len hp k : length (pqdownheap tree dp len hp k) = length hp.
Proof.
  unfold pqdownheap. assert (G : forall fuel v hp k j, length (fst (down_loop fuel tree dp len v hp k j)) = length hp).
  { induction fuel as [|fuel IH]; intros v h i j; cbn [down_loop]; [done|]. destruct (j <=? len)%nat; [|done]. cbv zeta.
    destruct (smaller _ _ v _); [done|]. rewrite IH. apply length_insert. }
  specialize (G len (at_ hp k) hp k (2 * k)%nat). destruct (down_loop _ _ _ _ _ _ _ _). by rewrite length_insert.
Qed.

Lemma combine_heap_length node tree w : length (heap (snd (combine node tree w))) = length (heap w).
Proof.
  unfold combine, pqremove. cbn [snd heap with_heap]. by rewrite pqdownheap_length, !length_insert, pqdownheap_length, length_insert.
Qed.

Lemma gen_bitlen_heap st tree mc w : heap (snd (gen_bitlen st tree mc w)) = heap w.
Proof.
  unfold gen_bitlen. cbv zeta.
  pose proof (for_inv (fun s : list ct_data * work * Z => heap (snd (fst s)) = heap w)
    (heap_max (with_counts w (replicate (S MAX_BITS) 0)) + 1)
    (HEAP_SIZE - (heap_max (with_counts w (replicate (S MAX_BITS) 0)) + 1))
    (fun h '(tree, w, overflow) => bitlen_node st mc (at_ (heap w) h) (tree, w, overflow))
    (set_dl tree (at_ (heap (with_counts w (replicate (S MAX_BITS) 0))) (heap_max (with_counts w (replicate (S MAX_BITS) 0)))) 0,
     with_counts w (replicate (S MAX_BITS) 0), 0)) as G.
  destruct (for_ _ _ _ _) as [[t w1] ov]. cbn [fst snd] in G. rewrite <- G; [|done|].
  - destruct (ov =? 0); [done|]. by destruct (relen_all _ _ _ _ _).
  - clear. intros i [[t w1] ov] _ H. cbn [fst snd] in *. unfold bitlen_node. destruct (_ <? _); by destruct (_ <? _).
Qed.

Lemma build_tree_heap_length st tree w : length (heap (snd (build_tree st tree w))) = length (heap w).
Proof.
  unfold build_tree.
  assert (C : length (heap (snd (fst (collect (elems st) tree w)))) = length (heap w)).
  { unfold collect. apply (for_inv (fun s => length (heap (snd (fst s))) = length (heap w))); [done|].
    intros i [[t w1] mc] _ H. cbn [fst snd] in *. destruct (negb _); cbn [fst snd heap]; [by rewrite length_insert|done]. }
  assert (F : forall n s, length (heap (snd (fst (force_two n st s)))) = length (heap (snd (fst s)))).
  { induction n as [|n IH]; intros [[t w1] mc]; cbn [force_two]; [done|]. destruct (heap_len w1 <? 2)%nat; [|done].
    destruct (if mc <? 2 then _ else _) as [node mc']. rewrite IH. cbn [fst snd heap]. apply length_insert. }
  specialize (F 2%nat (collect (elems st) tree w)). destruct (force_two _ _ _) as [[t1 w1] mc]. cbn [fst snd] in F.
  assert (H : length (heap (heapify t1 w1)) = length (heap w1)).
  { unfold heapify. cbn [heap with_heap]. apply (for_down_inv (fun h => length h = length (heap w1))); [done|].
    intros i h E. by rewrite pqdownheap_length. }
  assert (L : forall fuel node s, length (heap (snd (combine_loop fuel node s))) = length (heap (snd s))).
  { induction fuel as [|fuel IH]; intros node [t w2]; cbn [combine_loop fst snd]; [done|].
    pose proof (combine_heap_length node t w2) as E. destruct (combine node t w2) as [t3 w3]. cbn [snd] in E.
    destruct (2 <=? heap_len w3)%nat; [rewrite IH|]; exact E. }
  specialize (L (heap_len (heapify t1 w1)) (elems st) (t1, heapify t1 w1)). destruct (combine_loop _ _ _) as [t2 w2]. cbn [fst snd] in L.
  set (w3 := with_heap w2 _ _ _). pose proof (gen_bitlen_heap st t2 mc w3) as G. destruct (gen_bitlen st t2 mc w3) as [t4 w4].
  cbn [snd] in *. rewrite G. unfold w3. cbn [heap with_heap]. rewrite length_insert. congruence.
Qed.

(** The code lengths of a tree, as inflate gets them. *)
Definition tree_lens (tree : list ct_data) : list Z := map dl tree.

Lemma getn_tree_lens tree n : getn (tree_lens tree) n = Len (ct tree n).
Proof. unfold getn, tree_lens, ct. exact (map_nth dl tree (mk_ct 0 0) n). Qed.

Lemma complete_kraft st leaves tree k : 1 <= Z.of_nat (max_length st) <= 15 -> NoDup leaves ->
  complete st leaves tree -> (forall x, x ∈ leaves -> (x < k)%nat) ->
  (forall x, (x < k)%nat -> x ∉ leaves -> Len (ct tree x) = 0) ->
  Inftrees.kraft (tree_lens tree) k = 2 ^ 15.
Proof.
  intros HM N [C1 C2] I O. rewrite list.Forall_forall in C1.
  rewrite (kraft_leaves _ _ leaves N).
  - set (M := Z.of_nat (max_length st)) in *.
    rewrite (zsum_ext _ (fun x => 2 ^ (15 - M) * 2 ^ (M - lenw tree x))).
    2: { intros x Hx. rewrite getn_tree_lens. specialize (C1 x Hx). cbn in C1. unfold lenw in *.
         rewrite <- Z.pow_add_r by lia. f_equal. lia. }
    assert (G : forall c f l, zsum (fun x => c * f x) l = c * zsum f l).
    { clear. intros c f l. induction l as [|x l IH]; [cbn; lia|]. rewrite !zsum_cons, IH. lia. }
    rewrite G, C2, <- Z.pow_add_r by lia. f_equal. lia.
  - intros x Hx. split; [by apply I|]. rewrite getn_tree_lens. specialize (C1 x Hx). cbn in C1. unfold lenw in C1. lia.
  - intros x Hx Hn. rewrite getn_tree_lens. by apply O.
Qed.

(** The trees deflate builds: of the literals and lengths, of the distances, of the
    lengths of codes. *)
Definition deflate_desc (st : static_tree_desc) : Prop :=
  st = static_l_desc \/ st = static_d_desc \/ st = static_bl_desc.

(** C11. [build_tree] makes a complete code that inflate takes.  For any frequencies
    (none, one symbol, frequencies whose sums wrap around, trees too deep for the
    15 or 7 bits) every symbol that occurs has a length between 1 and the longest
    allowed, symbols above [max_code] have none, and the lengths fill the code space
    exactly: [inflate_table], given them up to [max_code] or further, neither finds
    them over-subscribed nor incomplete and sorts the symbols. *)
Theorem build_tree_complete st tree w
    (Hst : deflate_desc st) (Ht : length tree = (2 * elems st + 1)%nat) (Hh : length (heap w) = HEAP_SIZE) :
  let '(tree', max_code, _) := build_tree st tree w in
  let lens := tree_lens tree' in
  1 <= max_code < Z.of_nat (elems st) /\ length tree' = length tree /\
  (forall n, (n < elems st)%nat ->
     0 <= getn lens n <= Z.of_nat (max_length st) /\ (max_code < Z.of_nat n -> getn lens n = 0) /\
     (Freq (ct tree n) <> 0 -> 1 <= getn lens n)) /\
  forall codes, max_code < Z.of_nat codes <= Z.of_nat (elems st) ->
    Inftrees.kraft lens codes = 2 ^ 15 /\
    forall type table bits work', (codes <= length work')%nat ->
      exists r, Inftrees.inflate_table type lens codes table bits work' = Some r /\
        Inftrees.sorted_work lens codes (Inftrees.r_work r) /\
        (Inftrees.ret r = 0 \/ Inftrees.ret r = 1 /\ Inftrees.r_bits r = bits).
Proof.
  assert (B : (3 <= elems st <= L_CODES)%nat /\ 1 <= Z.of_nat (max_length st) <= 15 /\
    Z.of_nat (elems st) <= 2 ^ Z.of_nat (max_length st) /\ Z.of_nat (2 * elems st + 1) < 65536).
  { destruct Hst as [Es|[Es|Es]]; rewrite Es; vm_compute; repeat split; try discriminate; try lia. }
  destruct B as (B1 & B2 & B3 & B4).
  pose proof (build_tree_lengths st tree w B1 B2 B3 ltac:(lia) ltac:(lia) Hh) as L.
  destruct (build_tree st tree w) as [[tree' mc] w']. destruct L as (leaves & N & R & C & Lt & O & Oc & Hmc & _).
  cbv zeta. rewrite list.Forall_forall in R. pose proof (proj1 C) as C1. rewrite list.Forall_forall in C1.
  assert (Ln : forall n, (n < elems st)%nat -> 0 <= getn (tree_lens tree') n <= Z.of_nat (max_length st)).
  { intros n Hn. rewrite getn_tree_lens. destruct (decide (n ∈ leaves)) as [Hi|Hi].
    - specialize (C1 n Hi). cbn in C1. unfold lenw in C1. lia.
    - rewrite O by done. lia. }
  split; [exact Hmc|]. split; [exact Lt|]. split.
  - intros n Hn. split; [by apply Ln|]. rewrite getn_tree_lens. split; intros H.
    + apply O; [done|]. intros X. apply R in X. lia.
    + specialize (C1 n (Oc n Hn H)). cbn in C1. unfold lenw in C1. lia.
  - intros codes Hc.
    assert (K : Inftrees.kraft (tree_lens tree') codes = 2 ^ 15).
    { apply (complete_kraft st leaves); [done|done|done| |].
      - intros x Hx. apply R in Hx. lia.
      - intros x Hx. apply O. lia. }
    split; [exact K|]. intros type table bits work' Hw.
    assert (Lo : Inftrees.lens_ok (tree_lens tree') codes).
    { intros n Hn. pose proof (Ln n ltac:(lia)). change (Z.of_nat Inftrees.MAXBITS) with 15. lia. }
    destruct (InfTable.inflate_table_result type (tree_lens tree') codes table bits work' Lo ltac:(lia) Hw) as (r & E & Hr).
    exists r. split; [exact E|]. destruct (Inftrees.longest _ _ =? 0)%nat eqn:E0.
    + exfalso. apply Nat.eqb_eq in E0.
      destruct (Inftrees.lengths_bounds _ _ Lo ltac:(lia)) as (_ & _ & Z0 & _).
      pose proof (proj1 Z0 E0) as All. clear - All K.
      assert (X : forall k, (k <= codes)%nat -> Inftrees.kraft (tree_lens tree') k = 0).
      { induction k as [|k IH]; intros Hk; [done|]. cbn [Inftrees.kraft]. rewrite IH, All by lia. done. }
      rewrite X in K by lia. discriminate K.
    + rewrite K, Z.ltb_irrefl in Hr. cbn [orb andb] in Hr. destruct Hr as [Hr1 Hr2]. split; [done|].
      destruct Hr2 as [Hr2|[Hr2 _]]; [by right|by left].
Qed.

(** Fibonacci numbers as frequencies of the lengths of codes: the tree is deeper than
    7, the lengths are repaired. *)
Definition deep_bl_tree : list ct_data :=
  map (fun f => mk_ct f 0) [1; 1; 2; 3; 5; 8; 13; 21; 34; 55; 89; 144; 233; 377; 610; 987; 1597; 2584; 4181]
  ++ replicate 20 (mk_ct 0 0).
Definition empty_work : work := mk_work (replicate 573 0%nat) 0 573 (replicate 573 0) (replicate 16 0) 0 0.

Lemma build_tree_complete_witness :
  exists tree' max_code w', build_tree static_bl_desc deep_bl_tree empty_work = (tree', max_code, w') /\
    1 <= max_code < 19 /\ Inftrees.kraft (tree_lens tree') 19 = 2 ^ 15 /\
    getn (tree_lens tree') 0 = 7 /\ getn (tree_lens tree') 18 = 1.
Proof.
  pose proof (build_tree_complete static_bl_desc deep_bl_tree empty_work ltac:(by right; right) eq_refl eq_refl) as B.
  destruct (build_tree static_bl_desc deep_bl_tree empty_work) as [[tree' mc] w'] eqn:E.
  destruct B as (B1 & _ & _ & B2). exists tree', mc, w'. split; [done|]. split; [exact B1|].
  change (elems static_bl_desc) with 19%nat in *. split; [exact (proj1 (B2 19%nat ltac:(lia)))|].
  assert (X : map (getn (tree_lens (fst (fst (build_tree static_bl_desc deep_bl_tree empty_work))))) [0; 18]%nat = [7; 1]).
  { vm_compute. reflexivity. }
  rewrite E in X. cbn [fst map] in X. injection X as X1 X2. split; assumption.
Defined.
