(* ===== verification/Canon.v ===== *)
(** * Canon: the codes of trees.c against the canonical codes of RFC 1951

    The reference decoder of a canonical Huffman code knows only the code lengths:
    among the codes of a length, in the order of the symbols, values go up by one
    from the first code of that length (RFC 1951, 3.2.2).  [gen_codes] gives every
    symbol its code in that order, with the bits reversed, so that the decoder reads
    back what [send_code] sends. *)

From stdpp Require Import sets list.
From S2P Require Import Prelude.
From S2P Require Import Inftrees.
From S2P Require Import Trees.
From S2P Require Import TreeBuild.

#[local] Open Scope Z_scope.

(** ** The reference decoder *)

(** The first code of length [l], for the lengths of [k] symbols. *)
Fixpoint first_code (lens : list Z) (k l : nat) : Z :=
  match l with
  | O => 0
  | S l' => 2 * (first_code lens k l' + match l' with O => 0 | _ => Z.of_nat (total lens k l') end)
  end.

(** [code]: the bits read so far, the first one the highest; [l]: the length of the
    code with the next bit. *)
Fixpoint decode_sym (fuel : nat) (lens : list Z) (k l : nat) (code : Z) (bs : list bool) : option (nat * list bool) :=
  match fuel, bs with
  | S fuel, b :: bs =>
      let code := 2 * code + Z.b2z b in
      let r := code - first_code lens k l in
      if r <? Z.of_nat (total lens k l) then
        if r <? 0 then None else option_map (fun c => (c, bs)) (nth_error (of_length lens k l) (Z.to_nat r))
      else decode_sym fuel lens k (S l) code bs
  | _, _ => None
  end.
Definition decode (lens : list Z) (k : nat) (bs : list bool) : option (nat * list bool) :=
  decode_sym 15 lens k 1 0 bs.

(** ** Reversing bits *)

Lemma bits_of_S v n : bits_of v (S n) = Z.odd v :: bits_of (v / 2) n.
Proof.
  change (S n) with (1 + n)%nat. rewrite bits_of_app. change (Z.of_nat 1) with 1.
  rewrite Z.shiftr_div_pow2 by lia. change (2 ^ 1) with 2. cbn [bits_of seq map app]. by rewrite Z.bit0_odd.
Qed.

Lemma bi_reverse_loop_spec n : forall code res, (1 <= n <= 16)%nat -> 0 <= code -> 0 <= res ->
  res * 2 ^ Z.of_nat n + 2 ^ Z.of_nat n <= 2 ^ 31 ->
  bi_reverse_loop n code (2 * res) = 2 * (res * 2 ^ Z.of_nat n + bits_val (rev (bits_of code n))).
Proof.
  induction n as [|n IH]; intros code res Hn Hc Hr Hb; [lia|].
  assert (E : Z.lor (2 * res) (Z.land code 1) = 2 * res + Z.b2z (Z.odd code)).
  { change 1 with (Z.ones 1). rewrite Z.land_ones by lia. change (2 ^ 1) with 2. rewrite Zmod_odd.
    assert (E0 : 2 * res = Z.shiftl res 1) by (rewrite Z.shiftl_mul_pow2 by lia; lia). rewrite E0 at 1.
    rewrite lor_shiftl_add by (change (2 ^ 1) with 2; destruct (Z.odd code); lia). change (2 ^ 1) with 2.
    destruct (Z.odd code); cbn [Z.b2z]; lia. }
  rewrite Nat2Z.inj_succ, Z.pow_succ_r in * by lia.
  pose proof (Z.pow_pos_nonneg 2 (Z.of_nat n) ltac:(lia) ltac:(lia)) as Hp.
  assert (Sh : u32 (Z.shiftl (2 * res + Z.b2z (Z.odd code)) 1) = 2 * (2 * res + Z.b2z (Z.odd code))).
  { rewrite Z.shiftl_mul_pow2 by lia. change (2 ^ 1) with 2. unfold u32. rewrite Z.mod_small; [lia|].
    change (2 ^ 32) with (2 * 2 ^ 31). destruct (Z.odd code); cbn [Z.b2z]; nia. }
  rewrite bits_of_S. cbn [rev]. rewrite bits_val_app, length_rev, length_bits_of. cbn [bits_val].
  cbn [bi_reverse_loop]. rewrite E, Sh. destruct n as [|n].
  - cbn [bits_of seq map rev bits_val]. change (Z.of_nat 0) with 0. change (2 ^ 0) with 1. lia.
  - rewrite Z.shiftr_div_pow2 by lia. change (2 ^ 1) with 2. rewrite IH; [|lia|apply Z.div_pos; lia|destruct (Z.odd code); cbn [Z.b2z]; lia|].
    + set (p := 2 ^ Z.of_nat (S n)) in *. lia.
    + set (p := 2 ^ Z.of_nat (S n)) in *. destruct (Z.odd code); cbn [Z.b2z]; nia.
Qed.

Lemma bi_reverse_spec code n : (1 <= n <= 15)%nat -> 0 <= code ->
  bi_reverse code n = bits_val (rev (bits_of code n)) /\ 0 <= bi_reverse code n < 2 ^ Z.of_nat n.
Proof.
  intros Hn Hc. assert (E : bi_reverse code n = bits_val (rev (bits_of code n))).
  { unfold bi_reverse. change 0 with (2 * 0) at 1. rewrite bi_reverse_loop_spec; [|lia|lia|lia|].
    - rewrite Z.mul_0_l, Z.add_0_l, Z.shiftr_div_pow2 by lia. change (2 ^ 1) with 2.
      rewrite Z.mul_comm, Z.div_mul by lia. done.
    - pose proof (Z.pow_le_mono_r 2 (Z.of_nat n) 15 ltac:(lia) ltac:(lia)). lia. }
  split; [done|]. rewrite E. pose proof (bits_val_bounds (rev (bits_of code n))) as B.
  by rewrite length_rev, length_bits_of in B.
Qed.

Lemma bits_of_val bs : bits_of (bits_val bs) (length bs) = bs.
Proof.
  induction bs as [|b bs IH]; [done|]. cbn [bits_val length]. rewrite bits_of_S. f_equal.
  - rewrite Z.odd_add, Z.odd_mul. cbn. rewrite xorb_false_r. by destruct b.
  - assert (E : (Z.b2z b + 2 * bits_val bs) / 2 = bits_val bs); [|by rewrite E].
    symmetry. apply (Z.div_unique _ 2 _ (Z.b2z b)); destruct b; cbn [Z.b2z]; lia.
Qed.

(** Sent lowest bit first, a reversed code comes highest bit first. *)
Lemma reversed_bits code n : (1 <= n <= 15)%nat -> 0 <= code -> bits_of (bi_reverse code n) n = rev (bits_of code n).
Proof.
  intros Hn Hc. rewrite (proj1 (bi_reverse_spec code n Hn Hc)).
  pose proof (bits_of_val (rev (bits_of code n))) as B. by rewrite length_rev, length_bits_of in B.
Qed.

(** ** First codes *)

Section FirstCodes.
Context (lens : list Z) (k : nat).
Context (Hlens : lens_ok lens k) (Hkraft : kraft lens k <= 2 ^ 15).

(** The code words of length [l] end where their share of the code space does. *)
Lemma first_code_share n : forall l, (l + n = 15)%nat ->
  2 ^ Z.of_nat n * (first_code lens k l + match l with O => 0 | _ => Z.of_nat (total lens k l) end)
    + weighted (fun l => Z.of_nat (total lens k l)) (S l) n = kraft lens k.
Proof.
  intros l Hl. revert n Hl. induction l as [|l IH]; intros n Hn.
  - replace n with 15%nat by lia. cbn [first_code]. rewrite (kraft_total lens k Hlens k) by done.
    unfold MAXBITS. lia.
  - specialize (IH (S n) ltac:(lia)). cbn [weighted] in IH. cbn [first_code].
    rewrite Nat2Z.inj_succ, Z.pow_succ_r in IH by lia. rewrite <- IH. set (x := match l with O => 0 | _ => _ end). nia.
Qed.

Lemma first_code_bounds l : (1 <= l <= 15)%nat ->
  0 <= first_code lens k l /\ first_code lens k l + Z.of_nat (total lens k l) <= 2 ^ Z.of_nat l.
Proof.
  intros Hl. split.
  - clear Hkraft Hlens. assert (G : forall l, 0 <= first_code lens k l); [|apply G].
    induction l0 as [|l0 IH]; cbn [first_code]; [lia|]. destruct l0; lia.
  - pose proof (first_code_share (15 - l) l ltac:(lia)) as E. destruct l as [|l]; [lia|].
    pose proof (weighted_nonneg (fun l => Z.of_nat (total lens k l)) (15 - S l) (S (S l)) ltac:(intros; apply Nat2Z.is_nonneg)).
    assert (P : 2 ^ 15 = 2 ^ Z.of_nat (15 - S l) * 2 ^ Z.of_nat (S l)) by (rewrite <- Z.pow_add_r by lia; f_equal; lia).
    pose proof (Z.pow_pos_nonneg 2 (Z.of_nat (15 - S l)) ltac:(lia) ltac:(lia)). nia.
Qed.

(** From one length to a longer one. *)
Lemma first_code_grows l d : (1 <= l)%nat -> (1 <= d)%nat ->
  2 ^ Z.of_nat d * (first_code lens k l + Z.of_nat (total lens k l)) <= first_code lens k (l + d).
Proof.
  intros Hl Hd. induction d as [|d IH]; [lia|]. rewrite Nat.add_succ_r. cbn [first_code].
  rewrite Nat2Z.inj_succ, Z.pow_succ_r by lia. destruct l as [|l]; [lia|]. cbn [Nat.add]. destruct d as [|d].
  - rewrite Nat.add_0_r. change (2 ^ Z.of_nat 0) with 1. cbn [first_code]. destruct l; lia.
  - specialize (IH ltac:(lia)). cbn [Nat.add] in IH. rewrite Nat.add_succ_r in *. set (a := first_code lens k (S (S (l + d)))) in *. lia.
Qed.

(** The code of a symbol: its place among those of its length. *)
Definition code_of (c : nat) : Z :=
  let l := Z.to_nat (getn lens c) in first_code lens k l + Z.of_nat (total lens c l).

Lemma total_grows c d l : (c <= d)%nat -> (total lens c l <= total lens d l)%nat.
Proof.
  intros H. induction H as [|d H IH]; [done|]. unfold total in *. rewrite of_length_S, length_app. lia.
Qed.

Lemma total_own c l : getn lens c = Z.of_nat l -> total lens (S c) l = S (total lens c l).
Proof.
  intros E. unfold total. rewrite of_length_S, length_app, E, Z.eqb_refl. cbn. lia.
Qed.

Lemma code_of_bounds c : (c < k)%nat -> getn lens c <> 0 -> 0 <= code_of c < 2 ^ getn lens c.
Proof.
  intros Hc Hn. pose proof (Hlens c Hc) as Hr. change (Z.of_nat MAXBITS) with 15 in Hr. unfold code_of.
  set (l := Z.to_nat (getn lens c)). assert (El : getn lens c = Z.of_nat l) by lia. clearbody l.
  destruct (first_code_bounds l ltac:(lia)) as [B1 B2].
  pose proof (total_own c l El). pose proof (total_grows (S c) k l ltac:(lia)). rewrite El. lia.
Qed.

Lemma of_length_rank c l : (c < k)%nat -> getn lens c = Z.of_nat l -> nth_error (of_length lens k l) (total lens c l) = Some c.
Proof.
  intros Hc El. assert (G : forall m, (S c <= m)%nat -> nth_error (of_length lens m l) (total lens c l) = Some c); [|by apply G].
  induction 1 as [|m Hm IH]; rewrite of_length_S.
  - rewrite El, Z.eqb_refl, nth_error_app2 by done. unfold total. by rewrite Nat.sub_diag.
  - rewrite nth_error_app1; [done|]. apply nth_error_Some. by rewrite IH.
Qed.

Lemma bits_of_snoc v n : bits_of v (S n) = bits_of v n ++ [Z.testbit v (Z.of_nat n)].
Proof. unfold bits_of. by rewrite seq_S, map_app. Qed.

Lemma decode_sym_finds c l0 rest : (c < k)%nat -> getn lens c = Z.of_nat l0 -> (1 <= l0)%nat ->
  forall n l fuel, (l + n = S l0)%nat -> (1 <= l)%nat -> (1 <= n <= fuel)%nat ->
  decode_sym fuel lens k l (code_of c / 2 ^ Z.of_nat n) (rev (bits_of (code_of c) n) ++ rest) = Some (c, rest).
Proof.
  intros Hc El H0. pose proof (Hlens c Hc) as Hr. change (Z.of_nat MAXBITS) with 15 in Hr.
  destruct (code_of_bounds c Hc ltac:(lia)) as [V0 V1].
  induction n as [|n IH]; intros l fuel Hl Hl1 Hf; [lia|]. destruct fuel as [|fuel]; [lia|].
  rewrite bits_of_snoc, rev_app_distr. cbn [rev app decode_sym].
  assert (E : 2 * (code_of c / 2 ^ Z.of_nat (S n)) + Z.b2z (Z.testbit (code_of c) (Z.of_nat n)) = code_of c / 2 ^ Z.of_nat n).
  { assert (P : 2 ^ Z.of_nat (S n) = 2 ^ Z.of_nat n * 2) by (rewrite Nat2Z.inj_succ, Z.pow_succ_r by lia; lia).
    rewrite P, <- Z.div_div, Z.testbit_spec' by lia.
    pose proof (Z.div_mod (code_of c / 2 ^ Z.of_nat n) 2 ltac:(lia)). lia. }
  rewrite E. destruct n as [|n].
  - change (2 ^ Z.of_nat 0) with 1. rewrite Z.div_1_r. replace l with l0 by lia.
    assert (Er : code_of c - first_code lens k l0 = Z.of_nat (total lens c l0)).
    { unfold code_of. rewrite El, Nat2Z.id. lia. }
    rewrite Er. pose proof (total_own c l0 El). pose proof (total_grows (S c) k l0 ltac:(lia)).
    destruct (Z.ltb_spec (Z.of_nat (total lens c l0)) (Z.of_nat (total lens k l0))); [|lia].
    destruct (Z.ltb_spec (Z.of_nat (total lens c l0)) 0); [lia|]. rewrite Nat2Z.id, of_length_rank by done. done.
  - assert (F : first_code lens k l + Z.of_nat (total lens k l) <= code_of c / 2 ^ Z.of_nat (S n)).
    { apply Z.div_le_lower_bound; [lia|]. etransitivity; [apply (first_code_grows l (S n)); lia|].
      unfold code_of. rewrite El, Nat2Z.id. replace (l + S n)%nat with l0 by lia. lia. }
    destruct (Z.ltb_spec (code_of c / 2 ^ Z.of_nat (S n) - first_code lens k l) (Z.of_nat (total lens k l))); [lia|].
    apply IH; lia.
Qed.

(** The reference decoder finds the symbol and reads its code, no bit more. *)
Lemma decode_finds c rest : (c < k)%nat -> getn lens c <> 0 ->
  decode lens k (rev (bits_of (code_of c) (Z.to_nat (getn lens c))) ++ rest) = Some (c, rest).
Proof.
  intros Hc Hn. pose proof (Hlens c Hc) as Hr. change (Z.of_nat MAXBITS) with 15 in Hr.
  destruct (code_of_bounds c Hc Hn) as [V0 V1]. unfold decode.
  rewrite <- (Z.div_small (code_of c) (2 ^ Z.of_nat (Z.to_nat (getn lens c)))) by (rewrite Z2Nat.id by lia; lia).
  apply (decode_sym_finds c (Z.to_nat (getn lens c))); lia.
Qed.
End FirstCodes.

(** ** gen_codes *)

(** Every symbol below [k] that has a length has its canonical code, reversed. *)
Definition canonical (tree : list ct_data) (k : nat) : Prop :=
  forall c, (c < k)%nat -> Len (ct tree c) <> 0 ->
    Code (ct tree c) = bi_reverse (code_of (tree_lens tree) k c) (Z.to_nat (Len (ct tree c))).

Lemma first_codes_spec lens k counts : lens_ok lens k -> kraft lens k <= 2 ^ 15 ->
  length counts = S MAX_BITS -> getn counts 0 = 0 ->
  (forall l, (1 <= l <= 15)%nat -> getn counts l = Z.of_nat (total lens k l)) ->
  forall l, (1 <= l <= 15)%nat -> getn (first_codes counts) l = first_code lens k l.
Proof.
  intros Hl Hk Hn H0 Hc. unfold first_codes.
  pose proof (for_ind (fun n '(code, next) => code = first_code lens k (n - 1) /\ length next = 16%nat /\
    forall l, (1 <= l < n)%nat -> getn next l = first_code lens k l) 1 MAX_BITS
    (fun bits '(code, next_code) =>
      let code := u32 (Z.shiftl (u32 (code + getn counts (bits - 1))) 1) in
      (code, setn next_code bits (u16 code))) (0, replicate (S MAX_BITS) 0)) as G.
  destruct (for_ _ _ _ _) as [code next]. cbn [snd]. destruct G as (_ & _ & G).
  - split; [done|]. split; [by rewrite length_replicate|lia].
  - clear code next. intros n [code next] Hr (E & L & F). unfold MAX_BITS in Hr. cbv zeta.
    assert (C : u32 (Z.shiftl (u32 (code + getn counts (n - 1))) 1) = first_code lens k n /\ first_code lens k n < 65536).
    { destruct (first_code_bounds lens k Hl Hk n ltac:(lia)) as [B1 B2].
      pose proof (Z.pow_le_mono_r 2 (Z.of_nat n) 15 ltac:(lia) ltac:(lia)) as P. change (2 ^ 15) with 32768 in P.
      split; [|lia]. destruct n as [|n]; [lia|]. cbn [Nat.sub] in *. rewrite Nat.sub_0_r in *. subst code.
      assert (X : first_code lens k n + getn counts n = first_code lens k n + match n with O => 0 | _ => Z.of_nat (total lens k n) end).
      { destruct n; [by rewrite H0|]. rewrite Hc by lia. done. }
      rewrite X. cbn [first_code] in *. set (y := first_code lens k n + _) in *. rewrite Z.shiftl_mul_pow2 by lia.
      change (2 ^ 1) with 2. unfold u32. rewrite (Z.mod_small y) by lia. rewrite Z.mod_small by lia. lia. }
    destruct C as [C1 C2]. rewrite C1. cbn [Nat.sub]. rewrite Nat.sub_0_r. split; [done|]. split; [by rewrite length_setn|].
    intros l Hlr. rewrite getn_setn by lia. destruct (Nat.eqb_spec l n) as [->|]; [|apply F; lia].
    apply u16_id. destruct (first_code_bounds lens k Hl Hk n ltac:(lia)). lia.
  - intros l Hlr. apply G. unfold MAX_BITS. lia.
Qed.

Lemma tree_lens_set_fc tree n v : tree_lens (set_fc tree n v) = tree_lens tree.
Proof.
  destruct (Nat.lt_ge_cases n (length tree)) as [H|H].
  - apply (nth_ext _ _ 0 0); [unfold tree_lens; by rewrite !length_map, length_set_fc|].
    intros i _. pose proof (getn_tree_lens (set_fc tree n v) i) as E1. pose proof (getn_tree_lens tree i) as E2.
    unfold getn in E1, E2. rewrite E1, E2. by apply dl_set_fc.
  - unfold set_fc. by rewrite list_insert_ge by lia.
Qed.

Lemma tree_lens_gen_codes tree mc counts : tree_lens (gen_codes tree mc counts) = tree_lens tree.
Proof.
  unfold gen_codes. apply (for_inv (fun s => tree_lens (snd s) = tree_lens tree)); [done|].
  intros i [next t] _ H. cbn [snd] in *. destruct (_ =? 0)%nat; cbn [snd]; [done|]. by rewrite tree_lens_set_fc.
Qed.

Lemma gen_codes_canonical tree mc counts : let lens := tree_lens tree in let k := Z.to_nat (mc + 1) in
  lens_ok lens k -> kraft lens k <= 2 ^ 15 -> (k <= length tree)%nat ->
  length counts = S MAX_BITS -> getn counts 0 = 0 ->
  (forall l, (1 <= l <= 15)%nat -> getn counts l = Z.of_nat (total lens k l)) ->
  canonical (gen_codes tree mc counts) k.
Proof.
  cbv zeta. set (lens := tree_lens tree). set (k := Z.to_nat (mc + 1)). intros Hl Hk Ht Hn H0 Hc.
  unfold canonical. rewrite tree_lens_gen_codes. fold lens. unfold gen_codes. fold k.
  pose proof (first_codes_spec lens k counts Hl Hk Hn H0 Hc) as F.
  pose proof (for_ind (fun n '(next, t) => tree_lens t = lens /\ length next = 16%nat /\ length t = length tree /\
    (forall l, (1 <= l <= 15)%nat -> getn next l = first_code lens k l + Z.of_nat (total lens n l)) /\
    (forall c, (c < n)%nat -> Len (ct t c) <> 0 -> Code (ct t c) = bi_reverse (code_of lens k c) (Z.to_nat (Len (ct t c)))))
    0 k (fun n '(next_code, tree) =>
    let len := Z.to_nat (Len (ct tree n)) in
    if (len =? 0)%nat then (next_code, tree)
    else (setn next_code len (u16 (getn next_code len + 1)),
          set_fc tree n (u16 (bi_reverse (getn next_code len) len)))) (first_codes counts, tree)) as G.
  cbn [Nat.add] in G. destruct (for_ 0 k _ _) as [next t]. cbn [snd]. destruct G as (_ & _ & _ & _ & G); [| |exact G].
  - split; [done|]. split.
    { unfold first_codes. apply (for_inv (fun s => length (snd s) = 16%nat)); [done|].
      intros i [c x] _ E. cbn [snd] in *. by rewrite length_setn. }
    split; [done|]. split; [|lia]. intros l Hr. rewrite F by done. unfold total, of_length. cbn. lia.
  - clear next t. intros n [next t] Hr (E1 & E2 & E3 & E4 & E5). cbn zeta.
    assert (En : Len (ct t n) = getn lens n) by (by rewrite <- E1, getn_tree_lens).
    pose proof (Hl n ltac:(lia)) as Hn15. change (Z.of_nat MAXBITS) with 15 in Hn15. rewrite En.
    destruct (Nat.eqb_spec (Z.to_nat (getn lens n)) 0) as [Z0|N0].
    + split; [done|]. split; [done|]. split; [done|]. split.
      * intros l Hlr. rewrite E4 by done. unfold total at 2. rewrite of_length_S, length_app.
        rewrite (proj2 (Z.eqb_neq (getn lens n) (Z.of_nat l))) by lia. cbn [length]. unfold total. lia.
      * intros c Hcn Hne. destruct (decide (c = n)) as [->|]; [lia|]. apply E5; [lia|done].
    + set (len := Z.to_nat (getn lens n)) in *. assert (El : getn lens n = Z.of_nat len) by lia.
      assert (Cn : code_of lens k n = getn next len) by (rewrite E4 by lia; done).
      pose proof (code_of_bounds lens k Hl Hk n ltac:(lia) ltac:(lia)) as B. rewrite El in B.
      pose proof (Z.pow_le_mono_r 2 (Z.of_nat len) 15 ltac:(lia) ltac:(lia)) as P. change (2 ^ 15) with 32768 in P.
      split; [by rewrite tree_lens_set_fc|]. split; [by rewrite length_setn|]. split; [by rewrite length_set_fc|]. split.
      * intros l Hlr. rewrite getn_setn by lia. unfold total. rewrite of_length_S, length_app. fold (total lens n l).
        destruct (Nat.eqb_spec l len) as [->|Hne].
        -- rewrite El, Z.eqb_refl, u16_id by lia. rewrite E4 by lia. cbn [length]. lia.
        -- rewrite (proj2 (Z.eqb_neq (getn lens n) (Z.of_nat l))) by lia. rewrite E4 by lia. cbn [length]. lia.
      * intros c Hcn Hne. rewrite ct_set_fc in * by lia. destruct (Nat.eqb_spec c n) as [->|]; cbn [fc dl] in *; [|apply E5; [lia|done]].
        rewrite En. fold len. rewrite <- Cn. apply u16_id.
        destruct (bi_reverse_spec (code_of lens k n) len ltac:(lia) ltac:(lia)) as [_ R]. lia.
Qed.

(** ** Trees whose codes can be read back *)

(** [lens]: the lengths of the [k] symbols, as the decoder has them. *)
Record sendable (tree : list ct_data) (lens : list Z) (k : nat) : Prop := {
  se_lens : lens_ok lens k;
  se_kraft : kraft lens k <= 2 ^ 15;
  se_codes : forall c, (c < k)%nat -> Len (ct tree c) <> 0 ->
    getn lens c = Len (ct tree c) /\ Code (ct tree c) = bi_reverse (code_of lens k c) (Z.to_nat (Len (ct tree c)))
}.

(** What is sent, and that the stream stays well formed. *)
Definition sends (b b' : bitbuf) (bs : list bool) : Prop := bitbuf_ok b' /\ stream b' = stream b ++ bs.

Lemma sends_trans b1 b2 b3 x y : sends b1 b2 x -> sends b2 b3 y -> sends b1 b3 (x ++ y).
Proof. intros [_ E1] [O E2]. split; [done|]. by rewrite E2, E1, app_assoc. Qed.

Lemma sends_bits b v n : bitbuf_ok b -> 0 <= n <= 16 -> 0 <= v < 2 ^ n -> sends b (send_bits b v n) (bits_of v (Z.to_nat n)).
Proof. intros. by apply send_bits_stream. Qed.

Lemma send_code_canonical tree lens k c b : sendable tree lens k -> (c < k)%nat -> Len (ct tree c) <> 0 -> bitbuf_ok b ->
  exists bs, sends b (send_code b c tree) bs /\ forall rest, decode lens k (bs ++ rest) = Some (c, rest).
Proof.
  intros [Sl Sk Sc] Hc Hn Hb. destruct (Sc c Hc Hn) as [El Ec]. unfold send_code.
  pose proof (Sl c Hc) as R. change (Z.of_nat MAXBITS) with 15 in R.
  destruct (code_of_bounds _ _ Sl Sk c Hc ltac:(lia)) as [B1 B2].
  destruct (bi_reverse_spec (code_of lens k c) (Z.to_nat (Len (ct tree c))) ltac:(lia) B1) as [_ V].
  rewrite Z2Nat.id in V by lia. rewrite <- Ec in V.
  eexists. split; [apply sends_bits; [done|lia|exact V]|]. intros rest.
  rewrite Ec, reversed_bits by lia. rewrite <- El. apply decode_finds; [done|done|done|lia].
Qed.

(** The decoder looks at the lengths of the [k] symbols only. *)
Lemma of_length_ext lens lens' k l : (forall c, (c < k)%nat -> getn lens c = getn lens' c) ->
  of_length lens k l = of_length lens' k l.
Proof.
  induction k as [|k IH]; intros H; [done|]. rewrite !of_length_S, H by lia. f_equal. apply IH. intros. apply H. lia.
Qed.

Lemma first_code_ext lens lens' k l : (forall c, (c < k)%nat -> getn lens c = getn lens' c) ->
  first_code lens k l = first_code lens' k l.
Proof.
  intros H. induction l as [|l IH]; [done|]. cbn [first_code]. unfold total. by rewrite IH, (of_length_ext lens lens' k l H).
Qed.

Lemma kraft_ext lens lens' k : (forall c, (c < k)%nat -> getn lens c = getn lens' c) -> kraft lens k = kraft lens' k.
Proof.
  induction k as [|k IH]; intros H; [done|]. cbn [kraft]. rewrite H, IH by (lia || (intros; apply H; lia)). done.
Qed.

Lemma code_of_ext lens lens' k c : (forall c, (c < k)%nat -> getn lens c = getn lens' c) -> (c < k)%nat ->
  code_of lens k c = code_of lens' k c.
Proof.
  intros H Hc. unfold code_of. rewrite H by done. f_equal; [by apply first_code_ext|].
  unfold total. rewrite (of_length_ext lens lens'); [done|]. intros. apply H. lia.
Qed.

(** Symbols without a code above [k] make no difference. *)
Lemma of_length_more lens k n l : (1 <= l)%nat -> (k <= n)%nat -> (forall c, (k <= c < n)%nat -> getn lens c = 0) ->
  of_length lens n l = of_length lens k l.
Proof.
  intros Hl Hn H. induction Hn as [|n Hn IH]; [done|]. rewrite of_length_S, H, IH by (lia || (intros; apply H; lia)).
  rewrite (proj2 (Z.eqb_neq _ _)) by lia. by rewrite app_nil_r.
Qed.

Lemma code_of_more lens k n c : (k <= n)%nat -> (forall c, (k <= c < n)%nat -> getn lens c = 0) ->
  code_of lens n c = code_of lens k c.
Proof.
  intros Hn H. unfold code_of. f_equal. generalize (Z.to_nat (getn lens c)). induction n0 as [|l IH]; [done|].
  cbn [first_code]. rewrite IH. destruct l; [done|]. unfold total. rewrite (of_length_more lens k n); [done|lia|done|done].
Qed.

(** ** The static trees *)

Definition fixed_lens : list Z := replicate 144 8 ++ replicate 112 9 ++ replicate 24 7 ++ replicate 8 8.
Definition fixed_dists : list Z := replicate 32 5.

Definition lens_okb (lens : list Z) (k : nat) : bool := all_below k (fun c => (0 <=? get lens c) && (get lens c <=? 15)).

Lemma lens_okb_ok lens k : lens_okb lens k = true -> lens_ok lens k.
Proof.
  intros H c Hc. unfold lens_okb in H. pose proof (all_below_spec _ _ H (Z.of_nat c) ltac:(lia)) as B. cbn beta in B.
  rewrite get_of_nat in B. change (Z.of_nat MAXBITS) with 15. lia.
Qed.

Lemma static_dtree_sendable : sendable static_dtree fixed_dists 32.
Proof.
  split; [apply lens_okb_ok; reflexivity|vm_compute; discriminate|].
  assert (B : forallb (fun c => (Len (ct static_dtree c) =? 0) ||
    ((getn fixed_dists c =? Len (ct static_dtree c)) &&
     (Code (ct static_dtree c) =? bi_reverse (code_of fixed_dists 32 c) (Z.to_nat (Len (ct static_dtree c)))))) (seq 0 32) = true)
    by (vm_compute; reflexivity).
  intros c Hc Hn. rewrite List.forallb_forall in B. specialize (B c ltac:(apply in_seq; lia)). lia.
Qed.

Lemma static_ltree_gen : exists tree counts, static_ltree = gen_codes tree 287 counts /\ length tree = 288%nat /\
  tree_lens tree = fixed_lens /\ counts = [0; 0; 0; 0; 0; 0; 0; 24; 152; 112; 0; 0; 0; 0; 0; 0].
Proof.
  exists (map (fun l => mk_ct 0 l) fixed_lens), [0; 0; 0; 0; 0; 0; 0; 24; 152; 112; 0; 0; 0; 0; 0; 0].
  split; [vm_compute; reflexivity|]. split; [done|]. split; [|done]. unfold tree_lens. rewrite map_map. apply map_id.
Qed.

Lemma static_ltree_sendable : sendable static_ltree fixed_lens 288.
Proof.
  destruct static_ltree_gen as (tree & counts & E & L & El & Ec).
  assert (Lo : lens_ok fixed_lens 288) by (apply lens_okb_ok; vm_compute; reflexivity).
  assert (K : kraft fixed_lens 288 = 2 ^ 15) by (vm_compute; reflexivity).
  split; [exact Lo|lia|]. intros c Hc Hn.
  pose proof (gen_codes_canonical tree 287 counts) as G. cbv zeta in G. rewrite El in G. change (Z.to_nat (287 + 1)) with 288%nat in G.
  specialize (G Lo ltac:(lia) ltac:(lia) ltac:(by rewrite Ec) ltac:(by rewrite Ec)).
  assert (C : forall l, (1 <= l <= 15)%nat -> getn counts l = Z.of_nat (total fixed_lens 288 l)).
  { assert (B : forallb (fun l => getn counts l =? Z.of_nat (total fixed_lens 288 l)) (seq 1 15) = true)
      by (rewrite Ec; vm_compute; reflexivity).
    intros l Hl. rewrite List.forallb_forall in B. specialize (B l ltac:(apply in_seq; lia)). lia. }
  specialize (G C c Hc). rewrite <- E in G. specialize (G Hn).
  assert (T : tree_lens static_ltree = fixed_lens) by (by rewrite E, tree_lens_gen_codes).
  rewrite T in G. split; [by rewrite <- T, getn_tree_lens|exact G].
Qed.

(** ** Built trees *)

Lemma total_zsum lens k l : Z.of_nat (total lens k l) = zsum (fun c => ind (getn lens c =? Z.of_nat l)) (seq 0 k).
Proof.
  induction k as [|k IH]; [done|]. unfold total. rewrite of_length_S, seq_S, zsum_app, length_app, <- IH. unfold total.
  cbn [Nat.add]. rewrite zsum_cons. change (zsum _ []) with 0. destruct (_ =? _); cbn [length ind]; lia.
Qed.

(** The tree [build_tree] gives can be sent with the lengths of its first [k] symbols;
    symbols that occur have a code. *)
Lemma build_tree_sendable st tree w : deflate_desc st -> length tree = (2 * elems st + 1)%nat -> length (heap w) = HEAP_SIZE ->
  let '(tree', mc, _) := build_tree st tree w in
  length tree' = length tree /\ 1 <= mc < Z.of_nat (elems st) /\
  (forall c, (c < elems st)%nat -> 0 <= Len (ct tree' c) <= Z.of_nat (max_length st) /\
     (Freq (ct tree c) <> 0 -> Z.of_nat c <= mc /\ Len (ct tree' c) <> 0) /\ (mc < Z.of_nat c -> Len (ct tree' c) = 0)) /\
  forall lens k, mc < Z.of_nat k <= Z.of_nat (elems st) -> (forall c, (c < k)%nat -> getn lens c = Len (ct tree' c)) ->
    sendable tree' lens k.
Proof.
  intros Hst Ht Hh.
  assert (B : (3 <= elems st <= L_CODES)%nat /\ 1 <= Z.of_nat (max_length st) <= 15 /\
    Z.of_nat (elems st) <= 2 ^ Z.of_nat (max_length st) /\ Z.of_nat (2 * elems st + 1) < 65536).
  { destruct Hst as [Es|[Es|Es]]; rewrite Es; vm_compute; repeat split; try discriminate; try lia. }
  destruct B as (B1 & B2 & B3 & B4).
  pose proof (build_tree_lengths st tree w B1 B2 B3 ltac:(lia) ltac:(lia) Hh) as L.
  destruct (build_tree st tree w) as [[tree' mc] w'].
  destruct L as (leaves & N & R & C & Lt & O & Oc & Hmc & t & counts & Et & [Cl Ct] & Ltt).
  rewrite list.Forall_forall in R. pose proof (proj1 C) as C1. rewrite list.Forall_forall in C1.
  assert (Ln : forall c, (c < elems st)%nat -> 0 <= Len (ct tree' c) <= Z.of_nat (max_length st)).
  { intros c Hc. destruct (decide (c ∈ leaves)) as [Hi|Hi].
    - specialize (C1 c Hi). cbn in C1. unfold lenw in C1. lia.
    - rewrite O by done. lia. }
  assert (Z0 : forall c, (c < elems st)%nat -> mc < Z.of_nat c -> Len (ct tree' c) = 0).
  { intros c Hc H. apply O; [done|]. intros X. apply R in X. lia. }
  split; [done|]. split; [done|]. split.
  - intros c Hc. split; [by apply Ln|]. split; [|by apply Z0]. intros H. pose proof (Oc c Hc H) as Hi.
    pose proof (R c Hi). specialize (C1 c Hi). cbn in C1. unfold lenw in C1. lia.
  - intros lens k Hk El.
    assert (Lo : lens_ok lens k).
    { intros c Hc. rewrite El by done. change (Z.of_nat MAXBITS) with 15. pose proof (Ln c ltac:(lia)). lia. }
    assert (Et' : forall c, getn (tree_lens t) c = Len (ct tree' c)).
    { intros c. rewrite getn_tree_lens, Et. symmetry. apply gen_codes_dl. }
    set (k0 := Z.to_nat (mc + 1)).
    assert (E0 : forall c, (c < k)%nat -> getn (tree_lens t) c = getn lens c) by (intros c Hc; rewrite Et', El by done; done).
    assert (Lo0 : lens_ok (tree_lens t) k0) by (intros c Hc; rewrite E0 by lia; apply Lo; lia).
    assert (K : forall k, mc < Z.of_nat k <= Z.of_nat (elems st) -> kraft (tree_lens t) k = 2 ^ 15).
    { intros j Hj. rewrite (kraft_ext _ (tree_lens tree')) by (intros; by rewrite Et', getn_tree_lens).
      apply (complete_kraft st leaves); [done|done|done| |].
      - intros x Hx. apply R in Hx. lia.
      - intros x Hx. apply O. lia. }
    assert (Tot : forall l, (1 <= l <= 15)%nat -> getn counts l = Z.of_nat (total (tree_lens t) k0 l)).
    { intros l Hl. rewrite Ct, total_zsum. symmetry. rewrite (zsum_leaves _ _ leaves N).
      - apply zsum_ext. intros x _. unfold at_len, lenw. by rewrite getn_tree_lens.
      - intros x Hx. apply R in Hx. lia.
      - intros x Hx Hn. rewrite Et', O by (done || lia). rewrite (proj2 (Z.eqb_neq _ _)) by lia. done. }
    pose proof (gen_codes_canonical t mc counts Lo0 ltac:(rewrite K; lia) ltac:(lia) Cl) as G.
    assert (C0 : getn counts 0 = 0).
    { rewrite Ct. rewrite (zsum_ext _ (fun _ => 0)); [apply zsum_0|]. intros x Hx. specialize (C1 x Hx). cbn in C1.
      unfold lenw in C1. rewrite Et, gen_codes_dl in C1. unfold at_len, lenw. rewrite (proj2 (Z.eqb_neq _ _)) by lia. done. }
    specialize (G C0 Tot). rewrite <- Et in G.
    split; [exact Lo|rewrite <- (kraft_ext _ _ _ E0), K; [lia|done]|].
    intros c Hc Hn. split; [by apply El|]. rewrite (G c) by (done || (destruct (Z.lt_ge_cases mc (Z.of_nat c)); [exfalso; apply Hn, Z0; lia|lia])).
    f_equal. assert (Tl : tree_lens tree' = tree_lens t) by (by rewrite Et, tree_lens_gen_codes). rewrite Tl.
    rewrite <- (code_of_ext _ _ _ _ E0 Hc). symmetry. apply code_of_more; [lia|].
    intros x Hx. rewrite Et'. apply Z0; lia.
Qed.
