(* ===== verification/Lookup.v ===== *)
(** * Lookup: decoding a symbol with the tables of inflate_table (core/zlib/inflate.c)

    [inflate] takes the next symbol of a stream from the bits in [hold]: the lowest
    [lenbits] of them are the place of an entry, and an entry that is a link leads to
    a second table.  The tables that [inflate_table] makes decode the codes that
    [gen_codes] gives out. *)

From S2P Require Import Prelude.
From S2P Require Import Inftrees.
From S2P Require Import Trees.
From S2P Require Import TreeBuild.
From S2P Require Import Canon.
From S2P Require Import InfTable.
#[local] Open Scope Z_scope.

(** [#define BITS(n) ((unsigned)hold & ((1U << (n)) - 1))] *)
Definition BITS (hold n : Z) : Z := Z.land hold (u32 (Z.shiftl 1 n) - 1).

(** How many bits the symbol takes, and the [op] and the [val] of its entry; [hold] has
    all the bits of the code. *)
Definition lookup (lencode : list code) (lenbits hold : Z) : Z * (Z * Z) :=
  let here := ent lencode (BITS hold lenbits) in
  if negb (c_op here =? 0) && (Z.land (c_op here) 240 =? 0) then
    let last := here in
    let here := ent lencode (c_val last + Z.shiftr (BITS hold (c_bits last + c_op last)) (c_bits last)) in
    (c_bits last + c_bits here, (c_op here, c_val here))
  else (c_bits here, (c_op here, c_val here)).

(** What the entry of a symbol says (inftrees.h: 0, a literal; 16 and the number of extra
    bits, a base; 96, the end of the block). *)
Definition decoded (type : codetype) (c : nat) : Z * Z :=
  match type with
  | CODES => (0, Z.of_nat c)
  | LENS => if (c <? 256)%nat then (0, Z.of_nat c) else if (c =? 256)%nat then (96, 0)
            else (getn lext (c - 257), getn lbase (c - 257))
  | DISTS => (getn dext c, getn dbase c)
  end.

(** The symbols a table may be made for. *)
Definition symbols (type : codetype) : nat := match type with CODES => 19 | LENS => 288 | DISTS => 32 end.

(** ** Bits *)

Lemma BITS_mod hold n : (n <= 15)%nat -> BITS hold (Z.of_nat n) = hold mod 2 ^ Z.of_nat n.
Proof. intros Hn. unfold BITS. rewrite shl_pow by done. rewrite <- Z.land_ones, Z.ones_equiv by lia. done. Qed.

Lemma rv_bits n : forall x, rv n x = bits_val (rev (bits_of x n)).
Proof.
  induction n as [|n IH]; intros x; [done|]. rewrite bits_of_S. cbn [rv rev].
  rewrite bits_val_app, length_rev, length_bits_of, IH. cbn [bits_val]. rewrite Zmod_odd.
  destruct (Z.odd x); cbn [Z.b2z]; lia.
Qed.

Lemma first_pos_code lens k l : (1 <= l <= 15)%nat -> first_pos lens k l = first_code lens k l * share l.
Proof.
  induction l as [|l IH]; intros Hl; [lia|]. destruct l as [|l]; [done|].
  rewrite first_pos_S, IH by lia. cbn [first_code]. rewrite (share_mul (S l) (S (S l))) by lia.
  replace (S (S l) - S l)%nat with 1%nat by lia. change (2 ^ Z.of_nat 1) with 2.
  set (x := match l with O => 0 | _ => _ end). lia.
Qed.

(** A word that begins with a symbol's code takes places of that symbol. *)
Lemma code_covers lens k c l h : lens_ok lens k -> kraft lens k <= 2 ^ 15 -> (c < k)%nat -> getn lens c = Z.of_nat l ->
  (1 <= l <= 15)%nat -> h mod 2 ^ Z.of_nat l = bi_reverse (code_of lens k c) l ->
  covers lens k l (total lens c l) h /\ (total lens c l < total lens k l)%nat.
Proof.
  intros Hl Hk Hc El Hr E. pose proof (total_next lens k c l Hc El) as Ht. split; [|done].
  apply covers_code; [done..|]. rewrite E, huff_code by done.
  pose proof (code_of_bounds lens k Hl Hk c Hc ltac:(lia)) as B.
  rewrite (proj1 (bi_reverse_spec (code_of lens k c) l Hr ltac:(lia))), <- rv_bits. f_equal. unfold code_of, pos.
  rewrite El, Nat2Z.id, first_pos_code, <- Z.mul_add_distr_r, Z.div_mul by (done || (pose proof (share_pos l); lia)). done.
Qed.

(** ** Entries *)

Lemma entry_decoded type work c l d : (c < symbols type)%nat ->
  c_op (make_entry type work (Z.of_nat c) l d) = fst (decoded type c) /\
  c_val (make_entry type work (Z.of_nat c) l d) = snd (decoded type c) /\
  c_bits (make_entry type work (Z.of_nat c) l d) = u8 (l - d).
Proof.
  intros Hc. unfold make_entry, decoded, code_tables. destruct type; cbn [symbols] in Hc.
  - destruct (Z.ltb_spec (Z.of_nat c + 1) 20); [done|lia].
  - destruct (Z.ltb_spec (Z.of_nat c + 1) 257), (Nat.ltb_spec c 256); try lia; [done|].
    destruct (Z.leb_spec 257 (Z.of_nat c)), (Nat.eqb_spec c 256); try lia; [|done].
    replace (Z.of_nat c - 257) with (Z.of_nat (c - 257)) by lia. cbn [c_op c_val c_bits fst snd]. rewrite !get_of_nat.
    split; [|done]. apply u8_id. assert (Hs : (c - 257 < 31)%nat) by lia. revert Hs. generalize (c - 257)%nat as s.
    intros s Hs. do 31 (destruct s as [|s]; [by vm_compute|]). lia.
  - destruct (Z.ltb_spec (Z.of_nat c + 1) 0); [lia|]. destruct (Z.leb_spec 0 (Z.of_nat c)); [|lia].
    cbn [c_op c_val c_bits fst snd]. rewrite Z.sub_0_r, !get_of_nat. split; [|done]. apply u8_id.
    do 32 (destruct c as [|c]; [by vm_compute|]). lia.
Qed.

(** No entry of a symbol is a link. *)
Lemma decoded_no_link type c : (c < symbols type)%nat ->
  negb (fst (decoded type c) =? 0) && (Z.land (fst (decoded type c)) 240 =? 0) = false.
Proof.
  intros Hc. unfold decoded. destruct type; cbn [symbols] in Hc; [done| |].
  - destruct (Nat.ltb_spec c 256); [done|]. destruct (Nat.eqb_spec c 256); [done|]. cbn [fst].
    assert (Hs : (c - 257 < 31)%nat) by lia. revert Hs. generalize (c - 257)%nat as s.
    intros s Hs. do 31 (destruct s as [|s]; [by vm_compute|]). lia.
  - cbn [fst]. do 32 (destruct c as [|c]; [by vm_compute|]). lia.
Qed.

(** ** The lookup *)

(** A word that leads to an entry is looked up. *)
Lemma lookup_leads type lens work codes root table l i h c : (1 <= root <= 15)%nat -> (l <= 15)%nat -> (c < symbols type)%nat ->
  getn work (shorter lens codes l + i) = Z.of_nat c -> leads type lens work codes root table l i h ->
  lookup table (Z.of_nat root) h = (Z.of_nat l, decoded type c).
Proof.
  intros Hr Hl Hc Ew H. unfold lookup. rewrite BITS_mod by lia. pose proof (decoded_no_link type c Hc) as D.
  destruct H as [[Hlr E]|(cu & nx & H1 & H2 & H3 & E1 & E2)].
  - rewrite E, Ew. destruct (entry_decoded type work c (Z.of_nat l) 0 Hc) as (-> & -> & ->). rewrite D.
    rewrite Z.sub_0_r, u8_id by (unfold byte_ok; lia). by destruct (decoded type c).
  - rewrite E1. cbn [c_op c_bits c_val].
    assert (G : negb (Z.of_nat cu =? 0) && (Z.land (Z.of_nat cu) 240 =? 0) = true).
    { assert (Hcu : (1 <= cu <= 15)%nat) by lia. clear - Hcu. do 16 (destruct cu as [|cu]; [done || lia|]). lia. }
    rewrite G. replace (Z.of_nat root + Z.of_nat cu) with (Z.of_nat (root + cu)) by lia.
    rewrite BITS_mod, Z.shiftr_div_pow2 by lia.
    assert (X : (h mod 2 ^ Z.of_nat (root + cu)) / 2 ^ Z.of_nat root = (h / 2 ^ Z.of_nat root) mod 2 ^ Z.of_nat cu).
    { rewrite Nat2Z.inj_add, Z.pow_add_r by lia. pose proof (pow2_pos root). pose proof (pow2_pos cu).
      rewrite Z.rem_mul_r by lia. rewrite Z.mul_comm, Z.div_add, Z.div_small by (lia || (apply Z.mod_pos_bound; lia)). lia. }
    rewrite X, E2, Ew. destruct (entry_decoded type work c (Z.of_nat l) (Z.of_nat root) Hc) as (-> & -> & ->).
    rewrite u8_id by (unfold byte_ok; lia). destruct (decoded type c). f_equal. lia.
Qed.

(** The table space that is counted is within the bounds of inftrees.h. *)
Lemma fill_loop_enough type lens work root max fuel : forall s s',
  enough type (f_used s) = true -> fill_loop type lens work root max fuel s = Filled s' -> enough type (f_used s') = true.
Proof.
  assert (Sub : forall s s', enough type (f_used s) = true -> new_subtable type root max s = (s', true) ->
    enough type (f_used s') = true).
  { intros s s' Hs E. unfold new_subtable in E. destruct (_ && negb _); [|by injection E as <-].
    cbv zeta in E. destruct (enough type (u32 _)) eqn:G; cbn [negb] in E; [by injection E as <-|done]. }
  induction fuel as [|fuel IH]; intros s s' Hs E; [done|]. cbn [fill_loop] in E. destruct (put_entry _ _ s) as [t|]; [|done].
  destruct (fill_turn _ _ _ _ _ s t) as [s0|[s0 []]] eqn:Et; [injection E as <-| |done];
    unfold fill_turn in Et; repeat (destruct (_ =? _) in Et); try done; try (by injection Et as <-).
  all: injection Et as Et; apply (IH s0); [|done]; revert Et; apply Sub; done.
Qed.

Lemma inflate_table_enough type lens codes table bits work r :
  inflate_table type lens codes table bits work = Some r -> ret r = 0 -> enough type (r_used r) = true.
Proof.
  unfold inflate_table. destruct (_ =? 0); [by intros [= <-] _; destruct type|]. destruct (space_left _ _ _ _); [|by intros [= <-]].
  destruct (_ && _); [by intros [= <-]|]. destruct (sort_symbols _ _ _ _) as [offs w].
  destruct (negb (enough _ _)) eqn:N; [by intros [= <-]|]. apply negb_false_iff in N.
  destruct (fill_loop _ _ _ _ _ _ _) as [s'|tb|] eqn:F; [|by intros [= <-]|done].
  intros [= <-] _. revert F. by apply fill_loop_enough.
Qed.

Lemma longest_one lens codes : lens_ok lens codes -> Z.of_nat codes < 65536 ->
  let max := longest (count_lengths lens codes) MAXBITS in
  (forall sym, (sym < codes)%nat -> getn lens sym <= Z.of_nat max) /\
  (max <> 0%nat -> (exists sym, (sym < codes)%nat /\ 1 < getn lens sym) <-> max <> 1%nat).
Proof.
  intros Hl Hc max. destruct (lengths_bounds lens codes Hl Hc) as (M1 & T & _ & Hm). fold max in M1, T, Hm.
  assert (Up : forall sym, (sym < codes)%nat -> getn lens sym <= Z.of_nat max).
  { intros sym Hs. pose proof (Hl sym Hs). destruct (Z.le_gt_cases (getn lens sym) (Z.of_nat max)); [done|].
    pose proof (T (Z.to_nat (getn lens sym)) ltac:(lia)) as E.
    assert (X : (0 < total lens codes (Z.to_nat (getn lens sym)))%nat)
      by (apply total_occurs; exists sym; split; [done|lia]). lia. }
  split; [done|]. intros N0. destruct (Hm N0) as (Hx & _). split.
  - intros (s' & H1 & H2). pose proof (Up s' H1). lia.
  - intros Hne. assert (X : (0 < total lens codes max)%nat) by lia.
    apply total_occurs in X as (s' & H1 & H2). exists s'. split; [done|lia].
Qed.

Lemma shortest_down lens codes sym : lens_ok lens codes -> Z.of_nat codes < 65536 ->
  (sym < codes)%nat -> getn lens sym <> 0 ->
  let max := longest (count_lengths lens codes) MAXBITS in
  Z.of_nat (shortest (count_lengths lens codes) 1 (max - 1)) <= getn lens sym.
Proof.
  intros Hl Hc Hs Hn max. destruct (lengths_bounds lens codes Hl Hc) as (M1 & T & Z0 & Hm). fold max in M1, T, Z0, Hm.
  assert (N0 : max <> 0%nat) by (intros E; by apply Hn, (proj1 Z0 E)). destruct (Hm N0) as (_ & Hmin & _ & Hsh).
  set (min := shortest _ 1 (max - 1)) in *. pose proof (Hl sym Hs).
  destruct (Z.le_gt_cases (Z.of_nat min) (getn lens sym)); [done|].
  assert (X : (0 < total lens codes (Z.to_nat (getn lens sym)))%nat)
    by (apply total_occurs; exists sym; split; [done|lia]).
  pose proof (shorter_step lens codes codes (Z.to_nat (getn lens sym)) min). lia.
Qed.

(** A finished table decodes the code of every symbol. *)
Lemma complete_decodes type lens codes table bits r : lens_ok lens codes -> (codes <= symbols type)%nat ->
  kraft lens codes <= 2 ^ 15 -> longest (count_lengths lens codes) MAXBITS <> 0%nat ->
  sorted_work lens codes (r_work r) -> complete_table type lens codes table bits r ->
  r_used r <= Z.of_nat (length table) < 65536 ->
  forall c l h, (c < codes)%nat -> getn lens c = Z.of_nat l -> (1 <= l)%nat -> 0 <= h ->
    h mod 2 ^ Z.of_nat l = bi_reverse (code_of lens codes c) l ->
    lookup (r_table r) (r_bits r) h = (Z.of_nat l, decoded type c).
Proof.
  intros Hl Hc Hk Nz Sw (Eb & _ & F) Hu c l h Hcc El Hl1 Hh E.
  assert (Hc' : Z.of_nat codes < 65536) by (destruct type; cbn [symbols] in Hc; lia).
  destruct (lengths_bounds lens codes Hl Hc') as (M1 & _ & _ & Hm). destruct (Hm Nz) as (_ & Hmin & _).
  pose proof (Hl c Hcc) as Hr. rewrite El in Hr. change (Z.of_nat MAXBITS) with 15 in Hr.
  destruct (code_covers lens codes c l h Hl Hk Hcc El ltac:(lia) E) as [C Ht].
  pose proof (F Hu l (total lens c l) h ltac:(lia) Ht Hh C) as L. rewrite Eb.
  set (min := Z.of_nat (shortest _ _ _)) in *. set (max := longest _ MAXBITS) in *.
  pose proof (clamp_bounds min (Z.of_nat max) bits ltac:(unfold min; lia)) as B.
  assert (M15 : (max <= 15)%nat) by exact M1.
  rewrite <- (Z2Nat.id (clamp min (Z.of_nat max) bits)) by lia.
  eapply (lookup_leads type lens (r_work r) codes _ _ l (total lens c l)); [lia|lia|lia| |exact L].
  rewrite (Sw l _ ltac:(unfold MAXBITS; lia) Ht). f_equal. apply nth_error_nth. by apply of_length_rank.
Qed.

(** ** Properties *)


