(* ===== verification/BlockReader.v ===== *)
(** * BlockReader: the reference decoder of blocks (RFC 1951)

    A reader takes a value off the front of a stream of bits.  The readers follow
    the format and know nothing of how deflate makes its output: codes are decoded
    canonically (Canon.v), lengths and distances with inflate's tables of bases. *)

From S2P Require Import Prelude.
From S2P Require Import Inftrees.
From S2P Require Import Trees.
From S2P Require Import TreeBuild.
From S2P Require Import Canon.

#[local] Open Scope Z_scope.

(** ** Readers *)

Definition reader (A : Type) : Type := list bool -> option (A * list bool).
Definition ret_r {A} (a : A) : reader A := fun bs => Some (a, bs).
Definition fail_r {A} : reader A := fun _ => None.
Definition bind_r {A B} (p : reader A) (f : A -> reader B) : reader B :=
  fun bs => match p bs with Some (a, bs) => f a bs | None => None end.

Declare Scope reader_scope.
Notation "x <- p ;; q" := (bind_r p (fun x => q)) (at level 100, p at next level, right associativity) : reader_scope.
#[local] Open Scope reader_scope.

(** [n] bits, the lowest first. *)
Definition bits_r (n : nat) : reader Z :=
  fun bs => if (n <=? length bs)%nat then Some (bits_val (take n bs), drop n bs) else None.

(** ** Symbols *)

Definition based_r (base ext : list Z) (i : nat) : reader Z :=
  e <- bits_r (Z.to_nat (Z.land (getn ext i) 15)) ;; ret_r (getn base i + e).

(** The lengths of the codes of literals and lengths, and of distances. *)
Record code_lens := mk_lens { cl_lits : list Z; cl_nlits : nat; cl_dists : list Z; cl_ndists : nat }.

Definition symbol_r (c : code_lens) : reader symbol :=
  sym <- decode (cl_lits c) (cl_nlits c) ;;
  if (sym <? 256)%nat then ret_r (Literal (Z.of_nat sym))
  else if (sym =? 256)%nat then ret_r EndOfBlock
  else if (286 <=? sym)%nat then fail_r
  else
    len <- based_r lbase lext (sym - 257) ;;
    d <- decode (cl_dists c) (cl_ndists c) ;;
    if (30 <=? d)%nat then fail_r
    else dist <- based_r dbase dext d ;; ret_r (Match dist len).

Fixpoint symbols_r (fuel : nat) (c : code_lens) : reader (list symbol) :=
  match fuel with
  | O => fail_r
  | S fuel =>
      s <- symbol_r c ;;
      match s with
      | EndOfBlock => ret_r []
      | _ => l <- symbols_r fuel c ;; ret_r (s :: l)
      end
  end.

(** ** The header of a block with its own codes *)

(** The code lengths of the code lengths, in the order of [bl_order]. *)
Fixpoint cl_lens_r (n i : nat) (cl : list Z) : reader (list Z) :=
  match n with
  | O => ret_r cl
  | S n => v <- bits_r 3 ;; cl_lens_r n (S i) (setn cl (nth i bl_order 0%nat) v)
  end.

(** [want] lengths in all; [acc]: those read so far. *)
Fixpoint lens_r (fuel want : nat) (cl : list Z) (acc : list Z) : reader (list Z) :=
  if (length acc =? want)%nat then ret_r acc
  else
    match fuel with
    | O => fail_r
    | S fuel =>
        let rep (n : Z) (v : Z) : reader (list Z) :=
          let acc := acc ++ replicate (Z.to_nat n) v in
          if (want <? length acc)%nat then fail_r else lens_r fuel want cl acc in
        sym <- decode cl 19 ;;
        if (sym <? 16)%nat then rep 1 (Z.of_nat sym)
        else if (sym =? 16)%nat then
          match rev acc with
          | [] => fail_r
          | v :: _ => n <- bits_r 2 ;; rep (3 + n) v
          end
        else if (sym =? 17)%nat then n <- bits_r 3 ;; rep (3 + n) 0
        else n <- bits_r 7 ;; rep (11 + n) 0
    end.

Definition header_r : reader code_lens :=
  hlit <- bits_r 5 ;; hdist <- bits_r 5 ;; hclen <- bits_r 4 ;;
  cl <- cl_lens_r (Z.to_nat hclen + 4) 0 (replicate 19 0) ;;
  let nl := (Z.to_nat hlit + 257)%nat in
  let nd := (Z.to_nat hdist + 1)%nat in
  l <- lens_r (nl + nd) (nl + nd) cl [] ;;
  ret_r (mk_lens (take nl l) nl (drop nl l) nd).

(** ** Blocks *)

Inductive content := Bytes (l : list Z) | Symbols (l : list symbol).

Fixpoint bytes_r (n : nat) : reader (list Z) :=
  match n with
  | O => ret_r []
  | S n => c <- bits_r 8 ;; l <- bytes_r n ;; ret_r (c :: l)
  end.

Definition fixed_codes : code_lens := mk_lens fixed_lens 288 fixed_dists 32.

(** [pos]: the position of the block in the stream, as stored blocks are aligned;
    [fuel]: a bound on the symbols.  The result is the mark of the last block and
    what the block holds. *)
Definition block_r (pos : Z) (fuel : nat) : reader (bool * content) :=
  last <- bits_r 1 ;; type <- bits_r 2 ;;
  let last := last =? 1 in
  if type =? STORED_BLOCK then
    _ <- bits_r (Z.to_nat (- (pos + 3) mod 8)) ;; len <- bits_r 16 ;; nlen <- bits_r 16 ;;
    if nlen =? u16 (Z.lnot len) then l <- bytes_r (Z.to_nat len) ;; ret_r (last, Bytes l) else fail_r
  else if type =? STATIC_TREES then l <- symbols_r fuel fixed_codes ;; ret_r (last, Symbols l)
  else if type =? DYN_TREES then c <- header_r ;; l <- symbols_r fuel c ;; ret_r (last, Symbols l)
  else fail_r.

(** ** What readers read *)

(** [bs] is a complete representation of [a]: it is read, and nothing after it. *)
Definition reads {A} (p : reader A) (bs : list bool) (a : A) : Prop := forall rest, p (bs ++ rest) = Some (a, rest).

Lemma reads_ret {A} (a : A) : reads (ret_r a) [] a.
Proof. done. Qed.

Lemma reads_bind {A B} (p : reader A) (f : A -> reader B) x y a b :
  reads p x a -> reads (f a) y b -> reads (a <- p ;; f a) (x ++ y) b.
Proof. intros P Q rest. unfold bind_r. rewrite <- app_assoc, P. apply Q. Qed.

(** The last step of a reader. *)
Lemma reads_map {A B} (p : reader A) (f : A -> B) x a : reads p x a -> reads (v <- p ;; ret_r (f v)) x (f a).
Proof. intros P. rewrite <- (app_nil_r x). exact (reads_bind _ _ _ _ _ _ P (reads_ret (f a))). Qed.

Lemma reads_bits v n : 0 <= v < 2 ^ Z.of_nat n -> reads (bits_r n) (bits_of v n) v.
Proof.
  intros Hv rest. unfold bits_r. rewrite length_app, length_bits_of.
  destruct (Nat.leb_spec n (n + length rest)); [|lia]. rewrite drop_bits_of. pose proof (peek_bits_of v n rest Hv) as P. unfold peek in P. by rewrite P.
Qed.

(** Any bits are read as some value. *)
Lemma reads_any bs : reads (bits_r (length bs)) bs (bits_val bs).
Proof. rewrite <- (bits_of_val bs) at 2. apply reads_bits, bits_val_bounds. Qed.

Lemma reads_bytes l : bytes_ok l -> reads (bytes_r (length l)) (byte_bits l) l.
Proof.
  induction l as [|c l IH]; intros B; [apply reads_ret|]. apply Forall_cons_iff in B as [Bc B]. cbn [length bytes_r].
  change (byte_bits (c :: l)) with (bits_of c 8 ++ byte_bits l). apply (reads_bind _ _ _ _ c); [by apply reads_bits|].
  by apply (reads_map _ (cons c)), IH.
Qed.
