(* ===== verification/TreeSend.v ===== *)
(** * TreeSend: blocks with their own codes, and the entry points of trees.c

    The tally of symbols, the transmission of the trees by run lengths, the choice
    between stored, fixed and dynamic blocks.  The buffers of symbols are arrays of
    their own: in the program they lie in [pending_buf], behind what is put out, and
    a flag keeps track of whether that made no difference. *)

From S2P Require Import Prelude.
From S2P Require Import Inftrees.
From S2P Require Import Trees.
From S2P Require Import TreeBuild.
From S2P Require Import Canon.
From S2P Require Import BlockReader.

#[local] Open Scope Z_scope.

Definition Z_FIXED : Z := 4.
Definition Z_BINARY : Z := 0.
Definition Z_TEXT : Z := 1.
Definition Z_UNKNOWN : Z := 2.

(** The part of [deflate_state] trees.c works on; [l_max], [d_max] and [bl_max] are
    the [max_code] of the three tree descriptors.  [intact] is not in the program: it
    says that no symbol was overwritten before it was read (see [put_symbols]). *)
Record tstate := mk_ts {
  dyn_ltree : list ct_data;
  dyn_dtree : list ct_data;
  bl_tree : list ct_data;
  l_max : Z;
  d_max : Z;
  bl_max : Z;
  wk : work;
  l_buf : list Z;
  d_buf : list Z;
  last_lit : nat;
  lit_bufsize : nat;
  matches : Z;
  out : bitbuf;
  level : Z;
  strategy : Z;
  data_type : Z;
  intact : bool
}.
Definition with_trees (s : tstate) (l d b : list ct_data) : tstate :=
  mk_ts l d b (l_max s) (d_max s) (bl_max s) (wk s) (l_buf s) (d_buf s) (last_lit s) (lit_bufsize s) (matches s) (out s)
    (level s) (strategy s) (data_type s) (intact s).
Definition with_codes (s : tstate) (l d b : Z) (w : work) : tstate :=
  mk_ts (dyn_ltree s) (dyn_dtree s) (bl_tree s) l d b w (l_buf s) (d_buf s) (last_lit s) (lit_bufsize s) (matches s) (out s)
    (level s) (strategy s) (data_type s) (intact s).
Definition with_out (s : tstate) (b : bitbuf) : tstate :=
  mk_ts (dyn_ltree s) (dyn_dtree s) (bl_tree s) (l_max s) (d_max s) (bl_max s) (wk s) (l_buf s) (d_buf s) (last_lit s)
    (lit_bufsize s) (matches s) b (level s) (strategy s) (data_type s) (intact s).
Definition with_type (s : tstate) (t : Z) : tstate :=
  mk_ts (dyn_ltree s) (dyn_dtree s) (bl_tree s) (l_max s) (d_max s) (bl_max s) (wk s) (l_buf s) (d_buf s) (last_lit s)
    (lit_bufsize s) (matches s) (out s) (level s) (strategy s) t (intact s).
Definition with_buffers (s : tstate) (l d : list Z) (n : nat) (m : Z) : tstate :=
  mk_ts (dyn_ltree s) (dyn_dtree s) (bl_tree s) (l_max s) (d_max s) (bl_max s) (wk s) l d n
    (lit_bufsize s) m (out s) (level s) (strategy s) (data_type s) (intact s).

Definition with_intact (s : tstate) (i : bool) : tstate :=
  mk_ts (dyn_ltree s) (dyn_dtree s) (bl_tree s) (l_max s) (d_max s) (bl_max s) (wk s) (l_buf s) (d_buf s) (last_lit s)
    (lit_bufsize s) (matches s) (out s) (level s) (strategy s) (data_type s) i.

(** ** Tally *)

Definition clear_freqs (n : nat) (tree : list ct_data) : list ct_data := for_ 0 n (fun n tree => set_fc tree n 0) tree.

Definition init_block (s : tstate) : tstate :=
  let s := with_trees s (set_fc (clear_freqs L_CODES (dyn_ltree s)) END_BLOCK 1) (clear_freqs D_CODES (dyn_dtree s))
             (clear_freqs BL_CODES (bl_tree s)) in
  let s := with_codes s (l_max s) (d_max s) (bl_max s) (with_lens (wk s) 0 0) in
  with_buffers s (l_buf s) (d_buf s) 0 0.

Definition _tr_init (s : tstate) : tstate := init_block (with_out s (mk_bitbuf (pending (out s)) 0 0)).

(** [tree[n].Freq++] *)
Definition count (tree : list ct_data) (n : nat) : list ct_data := set_fc tree n (u16 (Freq (ct tree n) + 1)).

Definition _tr_tally (s : tstate) (dist lc : Z) : tstate * bool :=
  let d := setn (d_buf s) (last_lit s) (u16 dist) in
  let l := setn (l_buf s) (last_lit s) (u8 lc) in
  let n := S (last_lit s) in
  let s :=
    if dist =? 0 then
      with_buffers (with_trees s (count (dyn_ltree s) (Z.to_nat lc)) (dyn_dtree s) (bl_tree s)) l d n (matches s)
    else
      let dist := dist - 1 in
      with_buffers
        (with_trees s (count (dyn_ltree s) (Z.to_nat (get _length_code lc) + LITERALS + 1))
           (count (dyn_dtree s) (Z.to_nat (d_code dist))) (bl_tree s)) l d n (u32 (matches s + 1)) in
  (s, (last_lit s =? lit_bufsize s - 1)%nat).

(** The inline versions; [matches] is not counted there. *)
Definition _tr_tally_lit (s : tstate) (c : Z) : tstate * bool :=
  let cc := u8 c in
  let s :=
    with_buffers (with_trees s (count (dyn_ltree s) (Z.to_nat cc)) (dyn_dtree s) (bl_tree s))
      (setn (l_buf s) (last_lit s) cc) (setn (d_buf s) (last_lit s) 0) (S (last_lit s)) (matches s) in
  (s, (last_lit s =? lit_bufsize s - 1)%nat).
Definition _tr_tally_dist (s : tstate) (distance length : Z) : tstate * bool :=
  let len := u8 length in
  let dist := u16 distance in
  let l := setn (l_buf s) (last_lit s) len in
  let d := setn (d_buf s) (last_lit s) dist in
  let dist := u16 (dist - 1) in
  let s :=
    with_buffers
      (with_trees s (count (dyn_ltree s) (Z.to_nat (get _length_code len) + LITERALS + 1))
         (count (dyn_dtree s) (Z.to_nat (d_code dist))) (bl_tree s)) l d (S (last_lit s)) (matches s) in
  (s, (last_lit s =? lit_bufsize s - 1)%nat).

(** [detect_data_type] *)
Definition detect_data_type (ltree : list ct_data) : Z :=
  let used n := negb (Freq (ct ltree n) =? 0) in
  if existsb (fun n => Z.testbit 0xf3ffc07f (Z.of_nat n) && used n) (seq 0 32) then Z_BINARY
  else if used 9%nat || used 10%nat || used 13%nat then Z_TEXT
  else if existsb used (seq 32 (LITERALS - 32)) then Z_TEXT
  else Z_BINARY.

(** ** The trees by run lengths *)

(** [max_count] and [min_count] of the next run. *)
Definition run_limits (same : bool) (nextlen : Z) : Z * Z :=
  if nextlen =? 0 then (138, 3) else if same then (6, 3) else (7, 4).

(** The loop [scan_tree] and [send_tree] have in common; they differ in what they do
    at the end of a run: [flush prevlen curlen count min_count]. *)
Section Runs.
Context {T : Type} (flush : Z -> Z -> Z -> Z -> T -> T).

Definition run_turn (tree : list ct_data) (n : nat) (st : Z * Z * Z * Z * Z * T) : Z * Z * Z * Z * Z * T :=
  let '(prevlen, nextlen, count, max_count, min_count, s) := st in
  let curlen := nextlen in
  let nextlen := Len (ct tree (n + 1)) in
  let count := count + 1 in
  if (count <? max_count) && (curlen =? nextlen) then (prevlen, nextlen, count, max_count, min_count, s)
  else
    let s := flush prevlen curlen count min_count s in
    let '(max_count, min_count) := run_limits (curlen =? nextlen) nextlen in
    (curlen, nextlen, 0, max_count, min_count, s).

Definition run_loop (tree : list ct_data) (max_code : Z) (s : T) : T :=
  let nextlen := Len (ct tree 0) in
  let '(max_count, min_count) := run_limits false nextlen in
  snd (for_ 0 (Z.to_nat (max_code + 1)) (run_turn tree) (-1, nextlen, 0, max_count, min_count, s)).
End Runs.

(** [tree[n].Freq += k] *)
Definition count_by (tree : list ct_data) (n : nat) (k : Z) : list ct_data := set_fc tree n (u16 (Freq (ct tree n) + k)).

Definition scan_flush (prevlen curlen count min_count : Z) (bl : list ct_data) : list ct_data :=
  if count <? min_count then count_by bl (Z.to_nat curlen) count
  else if negb (curlen =? 0) then
    let bl := if negb (curlen =? prevlen) then count_by bl (Z.to_nat curlen) 1 else bl in
    count_by bl REP_3_6 1
  else if count <=? 10 then count_by bl REPZ_3_10 1
  else count_by bl REPZ_11_138 1.

Definition scan_tree (tree : list ct_data) (max_code : Z) (bl : list ct_data) : list ct_data * list ct_data :=
  let tree' := set_dl tree (Z.to_nat (max_code + 1)) 0xffff in
  (tree', run_loop scan_flush tree' max_code bl).

Definition send_flush (bl : list ct_data) (prevlen curlen count min_count : Z) (b : bitbuf) : bitbuf :=
  if count <? min_count then for_ 0 (Z.to_nat count) (fun _ b => send_code b (Z.to_nat curlen) bl) b
  else if negb (curlen =? 0) then
    let '(b, count) :=
      if negb (curlen =? prevlen) then (send_code b (Z.to_nat curlen) bl, count - 1) else (b, count) in
    send_bits (send_code b REP_3_6 bl) (count - 3) 2
  else if count <=? 10 then send_bits (send_code b REPZ_3_10 bl) (count - 3) 3
  else send_bits (send_code b REPZ_11_138 bl) (count - 11) 7.

Definition send_tree (bl tree : list ct_data) (max_code : Z) (b : bitbuf) : bitbuf :=
  run_loop (send_flush bl) tree max_code b.

(** [for (max_blindex = BL_CODES-1; max_blindex >= 3; max_blindex--)] *)
Fixpoint last_blindex (bl : list ct_data) (max_blindex : nat) : nat :=
  match max_blindex with
  | O => O
  | S i =>
      if (3 <=? max_blindex)%nat then
        if negb (Len (ct bl (nth max_blindex bl_order 0%nat)) =? 0) then max_blindex else last_blindex bl i
      else max_blindex
  end.

Definition build_bl_tree (s : tstate) : tstate * nat :=
  let '(l, bl) := scan_tree (dyn_ltree s) (l_max s) (bl_tree s) in
  let '(d, bl) := scan_tree (dyn_dtree s) (d_max s) bl in
  let '(bl, bmax, w) := build_tree static_bl_desc bl (wk s) in
  let max_blindex := last_blindex bl (BL_CODES - 1) in
  let w := with_lens w (u64 (opt_len w + (3 * (Z.of_nat max_blindex + 1) + 5 + 5 + 4))) (static_len w) in
  (with_codes (with_trees s l d bl) (l_max s) (d_max s) bmax w, max_blindex).

Definition send_all_trees (s : tstate) (lcodes dcodes blcodes : Z) : tstate :=
  let b := send_bits (out s) (lcodes - 257) 5 in
  let b := send_bits b (dcodes - 1) 5 in
  let b := send_bits b (blcodes - 4) 4 in
  let b := for_ 0 (Z.to_nat blcodes) (fun rank b => send_bits b (Len (ct (bl_tree s) (nth rank bl_order 0%nat))) 3) b in
  let b := send_tree (bl_tree s) (dyn_ltree s) (lcodes - 1) b in
  with_out s (send_tree (bl_tree s) (dyn_dtree s) (dcodes - 1) b).

(** ** The choice *)

Definition build_trees (s : tstate) : tstate * nat :=
  let s := if data_type s =? Z_UNKNOWN then with_type s (detect_data_type (dyn_ltree s)) else s in
  let '(l, lm, w) := build_tree static_l_desc (dyn_ltree s) (wk s) in
  let '(d, dm, w) := build_tree static_d_desc (dyn_dtree s) w in
  build_bl_tree (with_codes (with_trees s l d (bl_tree s)) lm dm (bl_max s) w).

(** [buf] is [None] for a null pointer. *)
(** [compress_block].  In the program [d_buf] and [l_buf] lie in [pending_buf], from byte
    [lit_bufsize] and from byte [3 * lit_bufsize] on: distance [lx] is read intact as long
    as the output ends at or below byte [lit_bufsize + 2 * lx], and its length then too.
    [intact] keeps track of that, and of the end of [pending_buf]. *)
Definition read_in_time (ltree dtree : list ct_data) (s : tstate) (b : bitbuf) : bool :=
  snd (for_ 0 (last_lit s) (fun lx '(b, ok) =>
         (send_symbol ltree dtree b (getn (d_buf s) lx) (getn (l_buf s) lx),
          ok && (length (pending b) <=? lit_bufsize s + 2 * lx)%nat)) (b, true)).
Definition put_symbols (s : tstate) (ltree dtree : list ct_data) (b : bitbuf) : tstate :=
  with_intact (with_out s (compress_block ltree dtree (d_buf s) (l_buf s) (last_lit s) b))
    (intact s && read_in_time ltree dtree s b).
Definition check_fits (s : tstate) : tstate :=
  with_intact s (intact s && (length (pending (out s)) <=? 4 * lit_bufsize s)%nat).

Definition _tr_flush_block (s : tstate) (buf : option (list Z)) (stored_len last : Z) : tstate :=
  let '(s, max_blindex, opt_lenb, static_lenb) :=
    if 0 <? level s then
      let '(s, max_blindex) := build_trees s in
      let opt_lenb := Z.shiftr (u64 (opt_len (wk s) + 3 + 7)) 3 in
      let static_lenb := Z.shiftr (u64 (static_len (wk s) + 3 + 7)) 3 in
      (s, max_blindex, if static_lenb <=? opt_lenb then static_lenb else opt_lenb, static_lenb)
    else (s, 0%nat, u64 (stored_len + 5), u64 (stored_len + 5)) in
  let coded :=
    if (strategy s =? Z_FIXED) || (static_lenb =? opt_lenb) then
      let b := send_bits (out s) (Z.shiftl STATIC_TREES 1 + last) 3 in
      put_symbols s static_ltree static_dtree b
    else
      let s := with_out s (send_bits (out s) (Z.shiftl DYN_TREES 1 + last) 3) in
      let s := send_all_trees s (l_max s + 1) (d_max s + 1) (Z.of_nat max_blindex + 1) in
      put_symbols s (dyn_ltree s) (dyn_dtree s) (out s) in
  let s :=
    match buf with
    | Some buf => if u64 (stored_len + 4) <=? opt_lenb then with_out s (_tr_stored_block (out s) buf last) else coded
    | None => coded
    end in
  let s := init_block s in
  check_fits (if negb (last =? 0) then with_out s (bi_windup (out s)) else s).

(** ** Coded symbols *)

(** The symbols a pair of the buffers needs have codes. *)
Definition coded (ltree dtree : list ct_data) (c : code_lens) (dist lc : Z) : Prop :=
  if dist =? 0 then (Z.to_nat lc < cl_nlits c)%nat /\ Len (ct ltree (Z.to_nat lc)) <> 0
  else
    let k := (Z.to_nat (get _length_code lc) + LITERALS + 1)%nat in
    let d := Z.to_nat (d_code (dist - 1)) in
    (k < cl_nlits c)%nat /\ Len (ct ltree k) <> 0 /\ (d < cl_ndists c)%nat /\ Len (ct dtree d) <> 0.

Lemma length_bases k : 0 <= k < 29 -> getn lbase (Z.to_nat k) = Inftrees.c_val (length_here k) /\
  Z.land (getn lext (Z.to_nat k)) 15 = get extra_lbits k.
Proof.
  intros Hk. pose proof (all_below_spec 29 (fun k => (getn lbase (Z.to_nat k) =? Inftrees.c_val (length_here k)) &&
    (Z.land (getn lext (Z.to_nat k)) 15 =? get extra_lbits k)) ltac:(vm_compute; reflexivity) k Hk) as B. cbn beta in B. lia.
Qed.

Lemma dist_bases k : 0 <= k < 30 -> getn dbase (Z.to_nat k) = get base_dist k + 1 /\
  Z.land (getn dext (Z.to_nat k)) 15 = get extra_dbits k.
Proof.
  intros Hk. pose proof (all_below_spec 30 (fun k => (getn dbase (Z.to_nat k) =? get base_dist k + 1) &&
    (Z.land (getn dext (Z.to_nat k)) 15 =? get extra_dbits k)) ltac:(vm_compute; reflexivity) k Hk) as B. cbn beta in B. lia.
Qed.

(** A base and the extra bits that follow a code. *)
Lemma reads_based base ext i e v b : bitbuf_ok b -> Z.land (getn ext i) 15 = e -> 0 <= e <= 13 -> (e <> 0 -> 0 <= v < 2 ^ e) ->
  exists bs, sends b (if negb (e =? 0) then send_bits b v e else b) bs /\
    reads (based_r base ext i) bs (getn base i + (if e =? 0 then 0 else v)).
Proof.
  intros Hb He Hr Hv. exists (bits_of v (Z.to_nat e)). split.
  - by apply send_extra_stream.
  - unfold based_r. rewrite He. apply (reads_map _ (fun x => getn base i + x)).
    destruct (Z.eqb_spec e 0) as [E|E]; [rewrite E; apply (reads_bits 0 0); lia|].
    apply reads_bits. rewrite Z2Nat.id by lia. auto.
Qed.

(** The decoder of a code, as a reader. *)
Lemma reads_code tree lens k c b : sendable tree lens k -> (c < k)%nat -> Len (ct tree c) <> 0 -> bitbuf_ok b ->
  exists bs, sends b (send_code b c tree) bs /\ reads (decode lens k) bs c.
Proof. apply send_code_canonical. Qed.

Section Coded.
Context (ltree dtree : list ct_data) (c : code_lens).
Context (Hl : sendable ltree (cl_lits c) (cl_nlits c)) (Hd : sendable dtree (cl_dists c) (cl_ndists c)).

Lemma send_match_reads b dist lc : bitbuf_ok b -> symbol_ok dist lc -> dist <> 0 -> coded ltree dtree c dist lc ->
  exists bs, sends b (send_symbol ltree dtree b dist lc) bs /\ reads (symbol_r c) bs (Match dist (lc + MIN_MATCH)).
Proof.
  intros Hb [Hlc Hds] Hn Hc. unfold coded in Hc. rewrite (proj2 (Z.eqb_neq dist 0)) in Hc by done.
  destruct Hc as (C1 & C2 & C3 & C4).
  destruct (length_split_spec lc Hlc) as (Hk & He & Hx & Ex).
  destruct (dist_split_spec (dist - 1) ltac:(lia)) as (Hj & Hf & Hy & Ey). cbv zeta in *.
  unfold send_symbol. rewrite (proj2 (Z.eqb_neq dist 0)) by done. cbv zeta.
  set (k := get _length_code lc) in *. set (j := d_code (dist - 1)) in *.
  destruct (length_bases k Hk) as [L1 L2]. destruct (dist_bases j Hj) as [D1 D2].
  destruct (reads_code _ _ _ _ b Hl C1 C2 Hb) as (x1 & S1 & R1).
  destruct (reads_based lbase lext (Z.to_nat k) _ (lc - get base_length k) _ (proj1 S1) L2 ltac:(lia) Hx) as (x2 & S2 & R2).
  destruct (reads_code _ _ _ _ _ Hd C3 C4 (proj1 S2)) as (x3 & S3 & R3).
  destruct (reads_based dbase dext (Z.to_nat j) _ (dist - 1 - get base_dist j) _ (proj1 S3) D2 ltac:(lia) Hy) as (x4 & S4 & R4).
  exists (x1 ++ x2 ++ x3 ++ x4). split.
  - rewrite !app_assoc. eapply sends_trans; [|exact S4]. eapply sends_trans; [|exact S3]. eapply sends_trans; [exact S1|exact S2].
  - unfold symbol_r. eapply reads_bind; [exact R1|]. unfold LITERALS.
    rewrite (proj2 (Nat.ltb_ge _ _)), (proj2 (Nat.eqb_neq _ _)), (proj2 (Nat.leb_gt _ _)) by lia.
    replace (Z.to_nat k + 256 + 1 - 257)%nat with (Z.to_nat k) by lia.
    eapply reads_bind; [exact R2|]. eapply reads_bind; [exact R3|].
    rewrite (proj2 (Nat.leb_gt _ _)) by lia.
    replace (Match dist (lc + MIN_MATCH)) with
      (Match (getn dbase (Z.to_nat j) + (if get extra_dbits j =? 0 then 0 else dist - 1 - get base_dist j))
             (getn lbase (Z.to_nat k) + (if get extra_lbits k =? 0 then 0 else lc - get base_length k))).
    + apply (reads_map _ (fun d => Match d _)). exact R4.
    + f_equal; [rewrite D1; lia|rewrite L1; lia].
Qed.

Lemma send_symbol_reads b dist lc : bitbuf_ok b -> symbol_ok dist lc -> coded ltree dtree c dist lc ->
  exists bs, sends b (send_symbol ltree dtree b dist lc) bs /\ reads (symbol_r c) bs (symbol_of dist lc).
Proof.
  intros Hb Hs Hc. unfold symbol_of. destruct (Z.eqb_spec dist 0) as [E|E].
  - subst dist. unfold coded in Hc. cbn in Hc. destruct Hc as [C1 C2]. destruct Hs as [Hlc _].
    destruct (reads_code _ _ _ _ b Hl C1 C2 Hb) as (x1 & S1 & R1). exists x1. split; [exact S1|].
    rewrite <- (app_nil_r x1). unfold symbol_r. eapply reads_bind; [exact R1|].
    rewrite (proj2 (Nat.ltb_lt _ _)), Z2Nat.id by lia. apply reads_ret.
  - by apply send_match_reads.
Qed.

Lemma compress_block_reads d l n b : bitbuf_ok b ->
  (forall i, (i < n)%nat -> symbol_ok (getn d i) (getn l i) /\ coded ltree dtree c (getn d i) (getn l i)) ->
  (END_BLOCK < cl_nlits c)%nat -> Len (ct ltree END_BLOCK) <> 0 ->
  exists bs, sends b (compress_block ltree dtree d l n b) bs /\ reads (symbols_r (S n) c) bs (symbols d l 0 n).
Proof.
  intros Hb Hs He1 He2. unfold compress_block.
  assert (G : forall n lx b, bitbuf_ok b ->
    (forall i, (lx <= i < lx + n)%nat -> symbol_ok (getn d i) (getn l i) /\ coded ltree dtree c (getn d i) (getn l i)) ->
    exists bs, sends b (send_code (for_ lx n (fun lx b => send_symbol ltree dtree b (getn d lx) (getn l lx)) b) END_BLOCK ltree) bs /\
      reads (symbols_r (S n) c) bs (symbols d l lx n)).
  { clear b Hb Hs n. induction n as [|n IH]; intros lx b Hb Hs.
    - destruct (reads_code _ _ _ _ b Hl He1 He2 Hb) as (x & Sx & R). exists x. split; [exact Sx|].
      rewrite <- (app_nil_r x). cbn [symbols_r]. apply (reads_bind _ _ _ _ EndOfBlock); [|apply reads_ret].
      rewrite <- (app_nil_r x). unfold symbol_r. eapply reads_bind; [exact R|]. apply reads_ret.
    - rewrite for_S. destruct (Hs lx ltac:(lia)) as [H1 H2].
      destruct (send_symbol_reads b _ _ Hb H1 H2) as (x & Sx & R).
      destruct (IH (S lx) _ (proj1 Sx) ltac:(intros; apply Hs; lia)) as (y & Sy & R').
      exists (x ++ y). split; [eapply sends_trans; [exact Sx|exact Sy]|].
      change (symbols d l lx (S n)) with (symbol_of (getn d lx) (getn l lx) :: symbols d l (S lx) n).
      change (symbols_r (S (S n)) c) with (bind_r (symbol_r c) (fun s =>
        match s with EndOfBlock => ret_r [] | _ => bind_r (symbols_r (S n) c) (fun l => ret_r (s :: l)) end)).
      eapply reads_bind; [exact R|]. pose proof (symbol_not_end (getn d lx) (getn l lx)) as Ne.
      destruct (symbol_of (getn d lx) (getn l lx)) as [v|v w|]; [..|done];
        (apply (reads_map _ (cons _)); exact R'). }
  apply (G n 0%nat b Hb). intros i Hi. apply Hs. lia.
Qed.
End Coded.

(** ** Runs *)

Record run := mk_run { r_prev : Z; r_cur : Z; r_count : Z; r_min : Z }.

(** The runs of the lengths [0 .. max_code], as both loops see them. *)
Definition runs (tree : list ct_data) (max_code : Z) : list run :=
  run_loop (fun p c n m l => l ++ [mk_run p c n m]) tree max_code [].
Definition flush_all {T} (flush : Z -> Z -> Z -> Z -> T -> T) (rs : list run) (s : T) : T :=
  fold_left (fun s r => flush (r_prev r) (r_cur r) (r_count r) (r_min r) s) rs s.

Lemma for_rel {T U} (R : T -> U -> Prop) (f : nat -> T -> T) (g : nat -> U -> U) n : forall lo s t,
  (forall i s t, R s t -> R (f i s) (g i t)) -> R s t -> R (for_ lo n f s) (for_ lo n g t).
Proof. induction n as [|n IH]; intros lo s t H R0; [done|]. rewrite !for_S. apply IH; auto. Qed.

Lemma run_loop_runs {T} (flush : Z -> Z -> Z -> Z -> T -> T) tree max_code s :
  run_loop flush tree max_code s = flush_all flush (runs tree max_code) s.
Proof.
  unfold runs, run_loop. destruct (run_limits false (Len (ct tree 0))) as [mx mn].
  pose proof (for_rel (fun (x : Z * Z * Z * Z * Z * T) (y : Z * Z * Z * Z * Z * list run) =>
    fst x = fst y /\ snd x = flush_all flush (snd y) s)
    (run_turn flush tree) (run_turn (fun p c n m l => l ++ [mk_run p c n m]) tree) (Z.to_nat (max_code + 1)) 0
    (-1, Len (ct tree 0), 0, mx, mn, s) (-1, Len (ct tree 0), 0, mx, mn, [])) as G.
  apply G; [|done]. clear. intros i [[[[[a b] c] d] e] x] [[[[[a' b'] c'] d'] e'] y] [E F]. cbn [fst snd] in *.
  injection E as -> -> -> -> ->. unfold run_turn. destruct (_ && _); [done|].
  destruct (run_limits _ _). cbn [fst snd]. split; [done|]. unfold flush_all in *. rewrite fold_left_app. cbn. by rewrite <- F.
Qed.

Definition run_ok (r : run) : Prop :=
  0 <= r_cur r <= 15 /\ 1 <= r_count r /\
  r_min r = snd (run_limits (r_prev r =? r_cur r) (r_cur r)) /\
  r_count r <= fst (run_limits (r_prev r =? r_cur r) (r_cur r)).

(** The runs in order: the lengths they stand for and the last of them. *)
Inductive run_seq : list run -> list Z -> Z -> Prop :=
| seq_none : run_seq [] [] (-1)
| seq_run rs lens prev r :
    run_seq rs lens prev -> run_ok r -> r_prev r = prev ->
    run_seq (rs ++ [r]) (lens ++ replicate (Z.to_nat (r_count r)) (r_cur r)) (r_cur r).

Definition lens_upto (tree : list ct_data) (n : nat) : list Z := map (fun c => Len (ct tree c)) (seq 0 n).

Lemma lens_upto_S tree n : lens_upto tree (S n) = lens_upto tree n ++ [Len (ct tree n)].
Proof. unfold lens_upto. by rewrite seq_S, map_app. Qed.

(** The runs of a tree with a guard stand for its lengths. *)
Lemma runs_lens tree max_code : let k := Z.to_nat (max_code + 1) in
  (1 <= k)%nat -> (forall c, (c < k)%nat -> 0 <= Len (ct tree c) <= 15) -> 15 < Len (ct tree k) ->
  exists prev, run_seq (runs tree max_code) (lens_upto tree k) prev.
Proof.
  cbv zeta. set (k := Z.to_nat (max_code + 1)). intros Hk Hl Hg. unfold runs, run_loop. fold k.
  destruct (run_limits false (Len (ct tree 0))) as [mx0 mn0] eqn:E0.
  pose proof (for_ind (fun n '(prev, next, count, mx, mn, rs) =>
    next = Len (ct tree n) /\ (mx, mn) = run_limits (prev =? next) next /\ 0 <= count /\ count + 1 <= mx /\
    (0 < count -> (0 < n)%nat /\ Len (ct tree (n - 1)) = next) /\
    exists lens, run_seq rs lens prev /\ lens ++ replicate (Z.to_nat count) next = lens_upto tree n)
    0 k (run_turn (fun p c n m l => l ++ [mk_run p c n m]) tree) (-1, Len (ct tree 0), 0, mx0, mn0, [])) as G.
  cbn [Nat.add] in G. destruct (for_ _ _ _ _) as [[[[[prev next] count] mx] mn] rs]. cbn [snd].
  destruct G as (E1 & _ & C1 & _ & C2 & lens & R & E2).
  - pose proof (Hl 0%nat ltac:(lia)). split; [done|]. rewrite (proj2 (Z.eqb_neq _ _)) by lia. split; [done|].
    split; [lia|]. split; [|split; [lia|exists []; split; [constructor|done]]].
    unfold run_limits in E0. destruct (Len (ct tree 0) =? 0); injection E0 as <- <-; lia.
  - clear prev next count mx mn rs. intros n [[[[[prev next] count] mx] mn] rs] Hn (E1 & E2 & C1 & C2 & C3 & lens & R & E3).
    unfold run_turn. rewrite Nat.add_1_r. pose proof (Hl n ltac:(lia)) as Hr. rewrite <- E1 in Hr.
    destruct ((count + 1 <? mx) && (next =? Len (ct tree (S n)))) eqn:Eb.
    { apply andb_true_iff in Eb as [Eb En]. apply Z.eqb_eq in En. split; [done|]. rewrite <- En. split; [exact E2|]. split; [lia|]. split; [lia|].
         split; [cbn [Nat.sub]; rewrite Nat.sub_0_r; intros; split; [lia|by rewrite <- E1]|].
         exists lens. split; [done|]. rewrite lens_upto_S, <- E3, <- E1, <- app_assoc. f_equal.
         replace (Z.to_nat (count + 1)) with (Z.to_nat count + 1)%nat by lia. by rewrite replicate_add. }
    destruct (run_limits (next =? Len (ct tree (S n))) (Len (ct tree (S n)))) as [mx' mn'] eqn:E4.
    split; [done|]. split; [done|]. split; [lia|]. split.
    { unfold run_limits in E4. destruct (Len (ct tree (S n)) =? 0), (next =? Len (ct tree (S n))); injection E4 as <- <-; lia. }
    split; [lia|]. exists (lens_upto tree (S n)). split; [|by rewrite app_nil_r].
    assert (Ex : lens_upto tree (S n) = lens ++ replicate (Z.to_nat (count + 1)) next).
    { rewrite lens_upto_S, <- E3, <- E1, <- app_assoc. f_equal.
      replace (Z.to_nat (count + 1)) with (Z.to_nat count + 1)%nat by lia. by rewrite replicate_add. }
    rewrite Ex. apply (seq_run rs lens prev (mk_run prev next (count + 1) mn)); [done| |done].
    unfold run_ok. cbn [r_cur r_count r_prev r_min]. rewrite <- E2. cbn [fst snd]. split_and!; [lia..|done|lia].
  - exists prev. destruct (Z.eq_dec count 0) as [Z0|N0].
    + subst count. cbn in E2. rewrite app_nil_r in E2. by rewrite <- E2.
    + destruct (C2 ltac:(lia)) as [_ C3]. pose proof (Hl (k - 1)%nat ltac:(lia)). lia.
Qed.

(** ** Tokens

    What is sent of a run: codes of lengths with their extra bits. *)

Record token := mk_tok { t_sym : nat; t_val : Z; t_bits : nat }.

Definition tokens (r : run) : list token :=
  let plain := mk_tok (Z.to_nat (r_cur r)) 0 0 in
  if r_count r <? r_min r then replicate (Z.to_nat (r_count r)) plain
  else if negb (r_cur r =? 0) then
    if negb (r_cur r =? r_prev r) then [plain; mk_tok REP_3_6 (r_count r - 1 - 3) 2]
    else [mk_tok REP_3_6 (r_count r - 3) 2]
  else if r_count r <=? 10 then [mk_tok REPZ_3_10 (r_count r - 3) 3]
  else [mk_tok REPZ_11_138 (r_count r - 11) 7].

Definition send_token (bl : list ct_data) (b : bitbuf) (t : token) : bitbuf :=
  let b := send_code b (t_sym t) bl in
  if (t_bits t =? 0)%nat then b else send_bits b (t_val t) (Z.of_nat (t_bits t)).

Lemma for_const {T} (f : T -> T) n : forall lo s, for_ lo n (fun _ => f) s = fold_left (fun s _ => f s) (replicate n tt) s.
Proof. induction n as [|n IH]; intros lo s; [done|]. rewrite for_S. apply IH. Qed.

Lemma send_flush_tokens bl r b :
  send_flush bl (r_prev r) (r_cur r) (r_count r) (r_min r) b = fold_left (send_token bl) (tokens r) b.
Proof.
  unfold send_flush, tokens. destruct (_ <? _).
  - rewrite for_const. generalize (Z.to_nat (r_count r)). intros n. revert b. induction n as [|n IH]; intros b; [done|]. apply IH.
  - destruct (negb (r_cur r =? 0)); [destruct (negb (_ =? _)); done|]. by destruct (_ <=? _).
Qed.

Definition all_tokens (rs : list run) : list token := concat (map tokens rs).

Lemma send_tree_tokens bl tree max_code b :
  send_tree bl tree max_code b = fold_left (send_token bl) (all_tokens (runs tree max_code)) b.
Proof.
  unfold send_tree. rewrite run_loop_runs. unfold flush_all, all_tokens. generalize (runs tree max_code). intros rs.
  revert b. induction rs as [|r rs IH]; intros b; [done|]. cbn [fold_left map concat].
  by rewrite fold_left_app, <- send_flush_tokens, IH.
Qed.

(** What a token adds to the lengths [acc]. *)
Definition tok_step (acc : list Z) (t : token) : list Z :=
  acc ++
  (if (t_sym t <? 16)%nat then [Z.of_nat (t_sym t)]
   else if (t_sym t =? 16)%nat then replicate (Z.to_nat (3 + t_val t)) (nth 0 (rev acc) 0)
   else if (t_sym t =? 17)%nat then replicate (Z.to_nat (3 + t_val t)) 0
   else replicate (Z.to_nat (11 + t_val t)) 0).

Definition tok_ok (acc : list Z) (t : token) : Prop :=
  if (t_sym t <? 16)%nat then t_bits t = 0%nat
  else
    (t_sym t < 19)%nat /\ t_bits t = nth (t_sym t - 16) [2; 3; 7]%nat 0%nat /\ 0 <= t_val t < 2 ^ Z.of_nat (t_bits t) /\
    (t_sym t = 16%nat -> acc <> []).

Fixpoint toks_ok (acc : list Z) (toks : list token) : Prop :=
  match toks with
  | [] => True
  | t :: toks => tok_ok acc t /\ toks_ok (tok_step acc t) toks
  end.

Lemma toks_ok_app toks : forall acc toks',
  toks_ok acc (toks ++ toks') <-> toks_ok acc toks /\ toks_ok (fold_left tok_step toks acc) toks'.
Proof. induction toks as [|t toks IH]; intros acc toks'; cbn; [tauto|]. rewrite IH. tauto. Qed.

Lemma tok_step_length acc t : tok_ok acc t -> (length acc < length (tok_step acc t))%nat.
Proof.
  intros H. unfold tok_step. rewrite length_app. unfold tok_ok in H.
  destruct (t_sym t <? 16)%nat; [cbn; lia|]. destruct H as (_ & _ & H & _).
  destruct (t_sym t =? 16)%nat; [rewrite length_replicate; lia|]. destruct (t_sym t =? 17)%nat; rewrite length_replicate; lia.
Qed.

Lemma toks_length toks : forall acc, toks_ok acc toks -> (length acc + length toks <= length (fold_left tok_step toks acc))%nat.
Proof.
  induction toks as [|t toks IH]; intros acc H; [cbn; lia|]. destruct H as [H1 H2]. cbn [fold_left length].
  specialize (IH _ H2). pose proof (tok_step_length _ _ H1). lia.
Qed.

(** The tokens of a run stand for it. *)
Lemma tokens_run r acc : run_ok r -> (r_cur r = r_prev r -> exists l, acc = l ++ [r_prev r]) ->
  toks_ok acc (tokens r) /\ fold_left tok_step (tokens r) acc = acc ++ replicate (Z.to_nat (r_count r)) (r_cur r).
Proof.
  destruct r as [prev cur count mn]. unfold run_ok, tokens, run_limits. cbn [r_prev r_cur r_count r_min].
  intros (Hc & H1 & Hm & Hx) Hp.
  assert (P : (Z.to_nat cur <? 16)%nat = true) by (apply Nat.ltb_lt; lia).
  destruct (Z.ltb_spec count mn) as [L|G].
  - assert (S1 : forall n acc, toks_ok acc (replicate n (mk_tok (Z.to_nat cur) 0 0)) /\
      fold_left tok_step (replicate n (mk_tok (Z.to_nat cur) 0 0)) acc = acc ++ replicate n cur).
    { clear - P Hc. induction n as [|n IH]; intros acc; cbn [replicate toks_ok fold_left]; [by rewrite app_nil_r|].
      destruct (IH (tok_step acc (mk_tok (Z.to_nat cur) 0 0))) as [I1 I2]. unfold tok_ok. cbn [t_sym t_bits]. rewrite P.
      split; [done|]. rewrite I2. unfold tok_step. cbn [t_sym]. rewrite P, Z2Nat.id, <- app_assoc by lia. done. }
    apply S1.
  - destruct (Z.eqb_spec cur 0) as [E0|N0]; cbn [negb].
    + cbn [fst snd] in Hm, Hx. subst cur mn. destruct (Z.leb_spec count 10).
      * unfold toks_ok, tok_ok, REPZ_3_10. cbn. change (Z.pow_pos 2 3) with 8.
        split; [split; [|done]; split_and!; lia || done|].
        unfold tok_step. cbn [t_sym t_val Nat.ltb Nat.leb Nat.eqb]. do 2 f_equal. lia.
      * unfold toks_ok, tok_ok, REPZ_11_138. cbn. change (Z.pow_pos 2 7) with 128.
        split; [split; [|done]; split_and!; lia || done|].
        unfold tok_step. cbn [t_sym t_val Nat.ltb Nat.leb Nat.eqb]. do 2 f_equal. lia.
    + rewrite (Z.eqb_sym cur prev). destruct (Z.eqb_spec prev cur) as [Ep|Np]; cbn [negb fst snd] in *.
      * destruct (Hp (eq_sym Ep)) as [l El]. subst cur mn acc.
        unfold toks_ok, tok_ok, REP_3_6. cbn. change (Z.pow_pos 2 2) with 4.
        split; [split; [|done]; split_and!; try lia; try done; intros _ X; by destruct l|].
        unfold tok_step. cbn [t_sym t_val Nat.ltb Nat.leb Nat.eqb]. rewrite rev_app_distr. cbn [rev app nth].
        do 2 f_equal. lia.
      * subst mn. cbn [toks_ok fold_left]. unfold tok_ok, tok_step. cbn [t_sym t_val t_bits]. rewrite P, Z2Nat.id by lia.
        unfold REP_3_6. cbn [Nat.ltb Nat.leb Nat.eqb Nat.sub nth]. rewrite rev_app_distr. cbn [rev app nth].
        split; [split_and!; try done; try lia; intros _ X; by destruct acc|].
        rewrite <- app_assoc. f_equal. replace (Z.to_nat count) with (S (Z.to_nat (3 + (count - 1 - 3)))) by lia. done.
Qed.

Lemma run_seq_last rs lens prev : run_seq rs lens prev -> prev = -1 /\ lens = [] \/ exists l, lens = l ++ [prev].
Proof.
  destruct 1 as [|rs lens prev r H Hr Ep]; [by left|]. right. destruct Hr as (_ & H1 & _).
  replace (Z.to_nat (r_count r)) with (Z.to_nat (r_count r - 1) + 1)%nat by lia.
  rewrite replicate_add. exists (lens ++ replicate (Z.to_nat (r_count r - 1)) (r_cur r)). by rewrite <- app_assoc.
Qed.

Lemma run_seq_tokens rs lens prev acc : run_seq rs lens prev ->
  toks_ok acc (all_tokens rs) /\ fold_left tok_step (all_tokens rs) acc = acc ++ lens.
Proof.
  induction 1 as [|rs lens prev r H [IH1 IH2] Hr Ep]; [cbn; by rewrite app_nil_r|].
  unfold all_tokens in *. rewrite map_app, concat_app. cbn [map concat]. rewrite app_nil_r, fold_left_app, toks_ok_app, IH2.
  destruct (tokens_run r (acc ++ lens) Hr) as [T1 T2].
  - intros Ec. destruct (run_seq_last _ _ _ H) as [[E _]|[l ->]].
    + destruct Hr as (Hc & _). lia.
    + exists (acc ++ l). rewrite Ep. by rewrite <- app_assoc.
  - split; [done|]. by rewrite T2, <- app_assoc.
Qed.

(** ** Reading the tokens *)

Lemma lens_r_token bl cl b acc t fuel want : sendable bl cl 19 -> bitbuf_ok b -> tok_ok acc t -> Len (ct bl (t_sym t)) <> 0 ->
  (length (tok_step acc t) <= want)%nat ->
  exists bs, sends b (send_token bl b t) bs /\
    forall rest, lens_r (S fuel) want cl acc (bs ++ rest) = lens_r fuel want cl (tok_step acc t) rest.
Proof.
  intros Hs Hb Ht Hn Hw. pose proof (tok_step_length _ _ Ht) as Hl.
  assert (H19 : (t_sym t < 19)%nat).
  { unfold tok_ok in Ht. destruct (Nat.ltb_spec (t_sym t) 16); [lia|tauto]. }
  destruct (reads_code bl cl 19 (t_sym t) b Hs H19 Hn Hb) as (x & Sx & R). unfold send_token, tok_ok, tok_step in *.
  destruct (Nat.ltb_spec (t_sym t) 16) as [L|G].
  - rewrite Ht. cbn [Nat.eqb]. exists x. split; [exact Sx|]. intros rest. cbn [lens_r].
    rewrite (proj2 (Nat.eqb_neq _ _)) by lia. unfold bind_r at 1. rewrite R, (proj2 (Nat.ltb_lt _ _)) by lia.
    change (Z.to_nat 1) with 1%nat. cbn [replicate]. rewrite (proj2 (Nat.ltb_ge _ _)) by lia. done.
  - destruct Ht as (_ & Eb & Hv & Ha).
    assert (Hb16 : (t_bits t <= 16)%nat) by (rewrite Eb; destruct (t_sym t - 16)%nat as [|[|[|[|]]]]; cbn; lia).
    assert (Hb0 : t_bits t <> 0%nat) by (rewrite Eb; destruct (t_sym t - 16)%nat as [|[|[|]]] eqn:E; cbn; lia).
    rewrite (proj2 (Nat.eqb_neq _ _)) by done.
    pose proof (sends_bits _ (t_val t) (Z.of_nat (t_bits t)) (proj1 Sx) ltac:(lia) Hv) as Sy.
    rewrite Nat2Z.id in Sy. exists (x ++ bits_of (t_val t) (t_bits t)). split; [exact (sends_trans _ _ _ _ _ Sx Sy)|].
    intros rest. cbn [lens_r]. rewrite (proj2 (Nat.eqb_neq (length acc) want)) by lia. unfold bind_r at 1.
    rewrite <- app_assoc, R, (proj2 (Nat.ltb_ge _ _)) by lia. pose proof (reads_bits _ _ Hv rest) as Rb.
    destruct (Nat.eqb_spec (t_sym t) 16) as [E16|N16].
    + destruct (rev acc) as [|v l] eqn:Er.
      { exfalso. apply Ha; [done|]. by rewrite <- (rev_involutive acc), Er. }
      rewrite E16 in Eb. cbn in Eb. rewrite Eb in *. unfold bind_r. rewrite Rb. cbn [nth] in *.
      rewrite (proj2 (Nat.ltb_ge _ _)) by lia. done.
    + destruct (Nat.eqb_spec (t_sym t) 17) as [E17|N17].
      * rewrite E17 in Eb. cbn in Eb. rewrite Eb in *. unfold bind_r. rewrite Rb.
        rewrite (proj2 (Nat.ltb_ge _ _)) by lia. done.
      * assert (E18 : t_sym t = 18%nat) by lia. rewrite E18 in Eb. cbn in Eb. rewrite Eb in *. unfold bind_r. rewrite Rb.
        rewrite (proj2 (Nat.ltb_ge _ _)) by lia. done.
Qed.

Lemma lens_r_tokens bl cl want : sendable bl cl 19 -> forall toks b acc fuel, bitbuf_ok b -> toks_ok acc toks ->
  Forall (fun t => Len (ct bl (t_sym t)) <> 0) toks -> (length (fold_left tok_step toks acc) <= want)%nat ->
  exists bs, sends b (fold_left (send_token bl) toks b) bs /\
    forall rest, lens_r (length toks + fuel) want cl acc (bs ++ rest) = lens_r fuel want cl (fold_left tok_step toks acc) rest.
Proof.
  intros Hs. induction toks as [|t toks IH]; intros b acc fuel Hb Ht Hc Hw.
  { exists []. split; [|done]. split; [done|]. by rewrite app_nil_r. }
  destruct Ht as [Ht1 Ht2]. apply Forall_cons_iff in Hc as [Hc1 Hc2]. cbn [fold_left length Nat.add] in *.
  pose proof (toks_length _ _ Ht2) as L.
  destruct (lens_r_token bl cl b acc t (length toks + fuel) want Hs Hb Ht1 Hc1 ltac:(lia)) as (x & Sx & Rx).
  destruct (IH (send_token bl b t) (tok_step acc t) fuel (proj1 Sx) Ht2 Hc2 Hw) as (y & Sy & Ry).
  exists (x ++ y). split; [exact (sends_trans _ _ _ _ _ Sx Sy)|]. intros rest. rewrite <- app_assoc, Rx. apply Ry.
Qed.

(** ** Scanning counts what is sent *)

Lemma count_by_spec bl n k B : (n < length bl)%nat -> 0 <= k -> 0 <= Freq (ct bl n) <= B -> B + k < 65536 ->
  length (count_by bl n k) = length bl /\
  (forall c, Freq (ct (count_by bl n k) c) = if (c =? n)%nat then Freq (ct bl n) + k else Freq (ct bl c)).
Proof.
  intros Hn Hk HB Hs. unfold count_by. split; [apply length_set_fc|]. intros c. rewrite ct_set_fc by done.
  destruct (Nat.eqb_spec c n) as [->|]; [|done]. cbn [fc]. apply u16_id. lia.
Qed.

(** [bl'] has the frequencies of [bl] and up to [k] more, at least one more for [used]. *)
Definition grows (bl bl' : list ct_data) (k : Z) (used : list nat) : Prop :=
  length bl' = length bl /\ (forall c, Freq (ct bl c) <= Freq (ct bl' c) <= Freq (ct bl c) + k) /\
  Forall (fun c => Freq (ct bl c) < Freq (ct bl' c)) used.

Lemma scan_flush_grows r bl B : run_ok r -> (19 <= length bl)%nat -> (forall c, (c < 19)%nat -> 0 <= Freq (ct bl c) <= B) ->
  B + r_count r < 65536 ->
  grows bl (scan_flush (r_prev r) (r_cur r) (r_count r) (r_min r) bl) (r_count r) (map t_sym (tokens r)).
Proof.
  intros (Hc & H1 & Hm & _) Hl HB Hs. unfold scan_flush, tokens, grows.
  assert (H3 : 3 <= r_min r) by (rewrite Hm; unfold run_limits; destruct (_ =? 0), (_ =? _); cbn; lia).
  assert (One : forall n, (n < 19)%nat -> length (count_by bl n 1) = length bl /\
    forall c, Freq (ct (count_by bl n 1) c) = if (c =? n)%nat then Freq (ct bl n) + 1 else Freq (ct bl c)).
  { intros n Hn. apply (count_by_spec bl n 1 B); [lia|lia|by apply HB|lia]. }
  assert (Once : forall n, (n < 19)%nat -> grows bl (count_by bl n 1) (r_count r) [n]).
  { intros n Hn. destruct (One n Hn) as [E1 E2]. split; [done|]. split.
    - intros c. rewrite E2. destruct (Nat.eqb_spec c n) as [->|]; lia.
    - constructor; [|constructor]. rewrite E2, Nat.eqb_refl. lia. }
  destruct (Z.ltb_spec (r_count r) (r_min r)) as [L|G].
  - destruct (count_by_spec bl (Z.to_nat (r_cur r)) (r_count r) B ltac:(lia) ltac:(lia) ltac:(apply HB; lia) Hs) as [E1 E2].
    split; [done|]. split.
    + intros c. rewrite E2. destruct (Nat.eqb_spec c (Z.to_nat (r_cur r))) as [->|]; lia.
    + apply List.Forall_map, Forall_replicate. cbn [t_sym]. rewrite E2, Nat.eqb_refl. lia.
  - destruct (negb (r_cur r =? 0)); [destruct (negb (r_cur r =? r_prev r))|destruct (r_count r <=? 10)].
    2: by apply (Once REP_3_6), Nat.ltb_lt.
    2: by apply (Once REPZ_3_10), Nat.ltb_lt.
    2: by apply (Once REPZ_11_138), Nat.ltb_lt.
    destruct (One (Z.to_nat (r_cur r)) ltac:(lia)) as [E1 E2]. set (bl1 := count_by bl (Z.to_nat (r_cur r)) 1) in *.
    assert (HB1 : 0 <= Freq (ct bl1 REP_3_6) <= B + 1).
    { pose proof (HB REP_3_6 ltac:(unfold REP_3_6; lia)). pose proof (HB (Z.to_nat (r_cur r)) ltac:(lia)). rewrite E2.
      destruct (REP_3_6 =? _)%nat; lia. }
    destruct (count_by_spec bl1 REP_3_6 1 (B + 1) ltac:(unfold REP_3_6; lia) ltac:(lia) HB1 ltac:(lia)) as [E3 E4].
    split; [lia|]. split.
    + intros c. rewrite E4, !E2.
      destruct (Nat.eqb_spec c REP_3_6) as [->|]; [destruct (REP_3_6 =? _)%nat eqn:E; [apply Nat.eqb_eq in E; rewrite <- E|]; lia|].
      destruct (Nat.eqb_spec c (Z.to_nat (r_cur r))) as [->|]; lia.
    + cbn [map t_sym]. repeat constructor.
      * rewrite E4, !E2, Nat.eqb_refl. destruct (Nat.eqb_spec (Z.to_nat (r_cur r)) REP_3_6) as [E|]; [unfold REP_3_6 in E|]; lia.
      * rewrite E4, E2, Nat.eqb_refl. destruct (Nat.eqb_spec REP_3_6 (Z.to_nat (r_cur r))) as [E|]; [unfold REP_3_6 in E|]; lia.
Qed.

Definition total_count (rs : list run) : Z := fold_right (fun r s => r_count r + s) 0 rs.

Lemma scan_grows rs : forall bl B, Forall run_ok rs -> (19 <= length bl)%nat -> (forall c, (c < 19)%nat -> 0 <= Freq (ct bl c) <= B) ->
  B + total_count rs < 65536 ->
  grows bl (flush_all scan_flush rs bl) (total_count rs) (map t_sym (all_tokens rs)).
Proof.
  induction rs as [|r rs IH]; intros bl B Hr Hl HB Hs.
  { cbn. split; [done|]. split; [intros; lia|constructor]. }
  apply Forall_cons_iff in Hr as [Hr1 Hr2]. cbn [total_count fold_right] in *. fold (total_count rs) in *.
  assert (T0 : 0 <= total_count rs).
  { clear - Hr2. induction Hr2 as [|r rs (_ & H & _) _ IH]; cbn; [lia|]. fold (total_count rs). lia. }
  destruct (scan_flush_grows r bl B Hr1 Hl HB ltac:(lia)) as (L1 & G1 & U1).
  change (flush_all scan_flush (r :: rs) bl) with (flush_all scan_flush rs (scan_flush (r_prev r) (r_cur r) (r_count r) (r_min r) bl)).
  set (bl1 := scan_flush _ _ _ _ bl) in *.
  destruct (IH bl1 (B + r_count r) Hr2 ltac:(lia)) as (L2 & G2 & U2).
  { intros c Hc. pose proof (HB c Hc). pose proof (G1 c). lia. }
  { lia. }
  split; [lia|]. split.
  - intros c. pose proof (G1 c). pose proof (G2 c). lia.
  - unfold all_tokens. cbn [map concat]. rewrite map_app. apply Forall_app. split.
    + eapply List.Forall_impl; [|exact U1]. cbn. intros c Hc. pose proof (G2 c). lia.
    + eapply List.Forall_impl; [|exact U2]. cbn. intros c Hc. pose proof (G1 c). lia.
Qed.

Lemma run_seq_total rs lens prev : run_seq rs lens prev -> Forall run_ok rs /\ total_count rs = Z.of_nat (length lens).
Proof.
  induction 1 as [|rs lens prev r H [IH1 IH2] Hr Ep]; [done|]. split; [apply Forall_app; auto|].
  rewrite length_app, length_replicate. unfold total_count in *. rewrite fold_right_app. cbn [fold_right].
  assert (G : forall a, fold_right (fun r s => r_count r + s) a rs = fold_right (fun r s => r_count r + s) 0 rs + a).
  { clear. induction rs as [|x rs IH]; intros a; cbn [fold_right]; [lia|]. rewrite IH. lia. }
  rewrite G. destruct Hr as (_ & H1 & _). lia.
Qed.

(** A length other than 0 is sent as itself at least once. *)
Lemma run_seq_plain rs lens prev v : run_seq rs lens prev -> In v lens -> v <> 0 -> In (Z.to_nat v) (map t_sym (all_tokens rs)).
Proof.
  intros H. revert v. induction H as [|rs lens prev r H IH Hr Ep]; intros v Hv Hn; [done|].
  unfold all_tokens in *. rewrite map_app, concat_app, map_app. cbn [map concat]. rewrite app_nil_r. apply in_or_app.
  apply in_app_or in Hv as [Hv|Hv]; [left; by apply IH|].
  assert (E : v = r_cur r).
  { clear - Hv. induction (Z.to_nat (r_count r)) as [|n IHn]; cbn in Hv; [done|]. destruct Hv as [Hv|Hv]; [done|by apply IHn]. }
  subst v. destruct Hr as (Hc & H1 & _). unfold tokens.
  destruct (_ <? _).
  - right. destruct (Z.to_nat (r_count r)) eqn:En; [lia|]. by left.
  - rewrite (proj2 (Z.eqb_neq _ _)) by done. cbn [negb]. destruct (Z.eqb_spec (r_cur r) (r_prev r)) as [Ec|]; cbn [negb]; [|right; by left].
    left. destruct (run_seq_last _ _ _ H) as [[E _]|[l ->]]; [lia|]. apply IH; [|done]. apply in_or_app. right. left. congruence.
Qed.

(** ** The header *)

Lemma sendable_ext t t' lens k : (forall c, (c < k)%nat -> ct t' c = ct t c) -> sendable t lens k -> sendable t' lens k.
Proof. intros E [Sl Sk Sc]. split; [done|done|]. intros c Hc. rewrite E by done. by apply Sc. Qed.

Lemma bl_order_inj : forall i j, (i < 19)%nat -> (j < 19)%nat -> nth i bl_order 0%nat = nth j bl_order 0%nat -> i = j.
Proof.
  intros i j Hi Hj E. pose proof (NoDup_nth bl_order 0%nat) as N. apply N; [|done..].
  apply NoDup_ListNoDup, (bool_decide_unpack (NoDup bl_order)). vm_compute. done.
Qed.

Lemma bl_order_range j : (j < 19)%nat -> (nth j bl_order 0 < 19)%nat.
Proof.
  intros Hj. assert (B : forallb (fun i => (nth i bl_order 0 <? 19)%nat) (seq 0 19) = true) by (vm_compute; reflexivity).
  rewrite List.forallb_forall in B. apply Nat.ltb_lt, B, in_seq. lia.
Qed.

Lemma bl_order_onto c : (c < 19)%nat -> exists j, (j < 19)%nat /\ nth j bl_order 0%nat = c /\ (1 <= c <= 15 -> 4 <= j)%nat.
Proof.
  intros Hc. assert (B : forallb (fun c => existsb (fun j => (nth j bl_order 0 =? c)%nat && (((c <? 1) || (15 <? c) || (4 <=? j))%nat)) (seq 0 19)) (seq 0 19) = true)
    by (vm_compute; reflexivity).
  rewrite List.forallb_forall in B. specialize (B c ltac:(apply in_seq; lia)). apply List.existsb_exists in B as (j & Hj & E).
  apply in_seq in Hj. rewrite andb_true_iff, !orb_true_iff, Nat.eqb_eq, !Nat.ltb_lt, Nat.leb_le in E.
  exists j. split; [lia|]. split; [tauto|]. lia.
Qed.

(** Sending the lengths of the code lengths, and reading them. *)
Lemma cl_lens_reads bl n : forall i cl b, bitbuf_ok b -> (forall c, (c < 19)%nat -> 0 <= Len (ct bl c) <= 7) -> (i + n <= 19)%nat ->
  exists bs, sends b (for_ i n (fun rank b => send_bits b (Len (ct bl (nth rank bl_order 0%nat))) 3) b) bs /\
    reads (cl_lens_r n i cl) bs
      (for_ i n (fun rank cl => setn cl (nth rank bl_order 0%nat) (Len (ct bl (nth rank bl_order 0%nat)))) cl).
Proof.
  induction n as [|n IH]; intros i cl b Hb H7 Hi.
  { exists []. split; [|apply reads_ret]. split; [done|]. by rewrite app_nil_r. }
  rewrite !for_S. set (v := Len (ct bl (nth i bl_order 0%nat))).
  assert (Hv : 0 <= v <= 7).
  { apply H7, bl_order_range. lia. }
  pose proof (sends_bits b v 3 Hb ltac:(lia) ltac:(change (2 ^ 3) with 8; lia)) as S1.
  destruct (IH (S i) (setn cl (nth i bl_order 0%nat) v) _ (proj1 S1) H7 ltac:(lia)) as (y & S2 & R2).
  exists (bits_of v 3 ++ y). split; [exact (sends_trans _ _ _ _ _ S1 S2)|]. cbn [cl_lens_r].
  apply (reads_bind _ _ _ _ v); [apply reads_bits; change (2 ^ Z.of_nat 3) with 8; lia|exact R2].
Qed.

Lemma last_blindex_spec bl m : (m <= 18)%nat -> let r := last_blindex bl m in
  (r <= m)%nat /\ (forall j, (r < j <= m)%nat -> Len (ct bl (nth j bl_order 0%nat)) = 0).
Proof.
  induction m as [|m IH]; intros Hm; cbv zeta; cbn [last_blindex]; [split; [done|lia]|].
  destruct (3 <=? S m)%nat; [|split; [done|lia]].
  destruct (Z.eqb_spec (Len (ct bl (nth (S m) bl_order 0%nat))) 0) as [E|E]; cbn [negb]; [|split; [done|lia]].
  destruct (IH ltac:(lia)) as [A B]. split; [lia|]. intros j Hj. destruct (Nat.eq_dec j (S m)) as [->|]; [done|apply B; lia].
Qed.

(** The lengths read are those of the tree: the ones left out are 0. *)
Lemma cl_list bl m : (m < 19)%nat -> (forall j, (m < j < 19)%nat -> Len (ct bl (nth j bl_order 0%nat)) = 0) ->
  forall c, (c < 19)%nat ->
  getn (for_ 0 (S m) (fun rank cl => setn cl (nth rank bl_order 0%nat) (Len (ct bl (nth rank bl_order 0%nat)))) (replicate 19 0)) c
    = Len (ct bl c).
Proof.
  intros Hm Hz c Hc.
  pose proof (for_ind (fun n cl => length cl = 19%nat /\ forall j, (j < 19)%nat ->
    getn cl (nth j bl_order 0%nat) = if (j <? n)%nat then Len (ct bl (nth j bl_order 0%nat)) else 0) 0 (S m)
    (fun rank cl => setn cl (nth rank bl_order 0%nat) (Len (ct bl (nth rank bl_order 0%nat)))) (replicate 19 0)) as G.
  pose proof bl_order_range as O.
  destruct G as [_ G].
  - split; [done|]. intros j Hj. cbn [Nat.ltb]. rewrite getn_replicate by (by apply O). done.
  - intros i cl Hi [L F]. split; [by rewrite length_setn|]. intros j Hj. rewrite getn_setn by (rewrite L; apply O; lia).
    destruct (Nat.eqb_spec (nth j bl_order 0%nat) (nth i bl_order 0%nat)) as [E|E].
    + apply bl_order_inj in E; [|lia..]. subst j. by rewrite (proj2 (Nat.ltb_lt _ _)) by lia.
    + rewrite F by done. assert (j <> i) by (intros ->; done).
      destruct (Nat.ltb_spec j i), (Nat.ltb_spec j (S i)); try lia; done.
  - destruct (bl_order_onto c Hc) as (j & Hj & E & _). specialize (G j Hj). rewrite E in G. rewrite G.
    destruct (Nat.ltb_spec j (0 + S m)); [done|]. rewrite <- E. symmetry. apply Hz. lia.
Qed.

Lemma length_lens_upto tree n : length (lens_upto tree n) = n.
Proof. unfold lens_upto. by rewrite length_map, length_seq. Qed.

Lemma getn_lens_upto tree n c : (c < n)%nat -> getn (lens_upto tree n) c = Len (ct tree c).
Proof.
  intros Hc. unfold getn, lens_upto. rewrite (nth_indep _ 0 (Len (ct tree n))) by (by rewrite length_map, length_seq).
  rewrite (map_nth (fun c => Len (ct tree c)) (seq 0 n) n), seq_nth by done. done.
Qed.

(** All lengths have been read. *)
Lemma lens_r_done fuel want cl acc rest : length acc = want -> lens_r fuel want cl acc rest = Some (acc, rest).
Proof. intros E. destruct fuel; cbn [lens_r]; rewrite E, Nat.eqb_refl; done. Qed.

(** The two trees, one after the other. *)
Lemma send_trees_read bl cl lt dt nl nd p1 p2 b : sendable bl cl 19 -> bitbuf_ok b ->
  run_seq (runs lt (Z.of_nat nl - 1)) (lens_upto lt nl) p1 -> run_seq (runs dt (Z.of_nat nd - 1)) (lens_upto dt nd) p2 ->
  Forall (fun t => Len (ct bl (t_sym t)) <> 0) (all_tokens (runs lt (Z.of_nat nl - 1)) ++ all_tokens (runs dt (Z.of_nat nd - 1))) ->
  exists bs, sends b (send_tree bl dt (Z.of_nat nd - 1) (send_tree bl lt (Z.of_nat nl - 1) b)) bs /\
    reads (lens_r (nl + nd) (nl + nd) cl []) bs (lens_upto lt nl ++ lens_upto dt nd).
Proof.
  intros Hs Hb R1 R2 Hc. rewrite !send_tree_tokens, <- fold_left_app.
  destruct (run_seq_tokens _ _ _ [] R1) as [T1 F1]. destruct (run_seq_tokens _ _ _ (lens_upto lt nl) R2) as [T2 F2].
  set (t1 := all_tokens (runs lt _)) in *. set (t2 := all_tokens (runs dt _)) in *. cbn [app] in F1.
  assert (T : toks_ok [] (t1 ++ t2)) by (apply toks_ok_app; by rewrite F1).
  assert (F : fold_left tok_step (t1 ++ t2) [] = lens_upto lt nl ++ lens_upto dt nd) by (by rewrite fold_left_app, F1).
  assert (L : length (lens_upto lt nl ++ lens_upto dt nd) = (nl + nd)%nat) by (by rewrite length_app, !length_lens_upto).
  pose proof (toks_length _ _ T) as Lt. rewrite F, L in Lt. cbn [length Nat.add] in Lt.
  destruct (lens_r_tokens bl cl (nl + nd) Hs (t1 ++ t2) b [] (nl + nd - length (t1 ++ t2)) Hb T Hc ltac:(rewrite F, L; lia))
    as (bs & S1 & R). exists bs. split; [exact S1|]. intros rest. specialize (R rest). rewrite F in R.
  replace (length (t1 ++ t2) + (nl + nd - length (t1 ++ t2)))%nat with (nl + nd)%nat in R by lia.
  rewrite R. by apply lens_r_done.
Qed.

Lemma send_all_trees_reads s nl nd m p1 p2 : let bl := bl_tree s in
  (257 <= nl <= 286)%nat -> (1 <= nd <= 30)%nat -> (3 <= m < 19)%nat -> bitbuf_ok (out s) ->
  (forall c, (c < 19)%nat -> 0 <= Len (ct bl c) <= 7) ->
  (forall j, (m < j < 19)%nat -> Len (ct bl (nth j bl_order 0%nat)) = 0) ->
  (forall cl, (forall c, (c < 19)%nat -> getn cl c = Len (ct bl c)) -> sendable bl cl 19) ->
  run_seq (runs (dyn_ltree s) (Z.of_nat nl - 1)) (lens_upto (dyn_ltree s) nl) p1 ->
  run_seq (runs (dyn_dtree s) (Z.of_nat nd - 1)) (lens_upto (dyn_dtree s) nd) p2 ->
  Forall (fun t => Len (ct bl (t_sym t)) <> 0)
    (all_tokens (runs (dyn_ltree s) (Z.of_nat nl - 1)) ++ all_tokens (runs (dyn_dtree s) (Z.of_nat nd - 1))) ->
  exists bs, sends (out s) (out (send_all_trees s (Z.of_nat nl) (Z.of_nat nd) (Z.of_nat m + 1))) bs /\
    reads header_r bs (mk_lens (lens_upto (dyn_ltree s) nl) nl (lens_upto (dyn_dtree s) nd) nd).
Proof.
  cbv zeta. intros Hnl Hnd Hm Hb H7 Hz Hs R1 R2 Hc. unfold send_all_trees. cbn [out with_out].
  pose proof (sends_bits (out s) (Z.of_nat nl - 257) 5 Hb ltac:(lia) ltac:(change (2 ^ 5) with 32; lia)) as S1.
  pose proof (sends_bits _ (Z.of_nat nd - 1) 5 (proj1 S1) ltac:(lia) ltac:(change (2 ^ 5) with 32; lia)) as S2.
  pose proof (sends_bits _ (Z.of_nat m + 1 - 4) 4 (proj1 S2) ltac:(lia) ltac:(change (2 ^ 4) with 16; lia)) as S3.
  replace (Z.to_nat (Z.of_nat m + 1)) with (S m) by lia.
  destruct (cl_lens_reads (bl_tree s) (S m) 0 (replicate 19 0) _ (proj1 S3) H7 ltac:(lia)) as (x4 & S4 & Q4).
  pose proof (cl_list (bl_tree s) m ltac:(lia) Hz) as Hcl. set (cl := for_ 0 (S m) _ (replicate 19 0)) in *.
  destruct (send_trees_read (bl_tree s) cl (dyn_ltree s) (dyn_dtree s) nl nd p1 p2 _ (Hs cl Hcl) (proj1 S4) R1 R2 Hc) as (x5 & S5 & Q5).
  eexists. split.
  - eapply sends_trans; [exact S1|]. eapply sends_trans; [exact S2|]. eapply sends_trans; [exact S3|].
    eapply sends_trans; [exact S4|exact S5].
  - unfold header_r. apply (reads_bind _ _ _ _ (Z.of_nat nl - 257)); [apply reads_bits; change (2 ^ Z.of_nat (Z.to_nat 5)) with 32; lia|].
    apply (reads_bind _ _ _ _ (Z.of_nat nd - 1)); [apply reads_bits; change (2 ^ Z.of_nat (Z.to_nat 5)) with 32; lia|].
    apply (reads_bind _ _ _ _ (Z.of_nat m + 1 - 4)); [apply reads_bits; change (2 ^ Z.of_nat (Z.to_nat 4)) with 16; lia|].
    replace (Z.to_nat (Z.of_nat m + 1 - 4) + 4)%nat with (S m) by lia.
    apply (reads_bind _ _ _ _ cl); [exact Q4|]. cbv zeta.
    replace (Z.to_nat (Z.of_nat nl - 257) + 257)%nat with nl by lia. replace (Z.to_nat (Z.of_nat nd - 1) + 1)%nat with nd by lia.
    pose proof (reads_map _ (fun l => mk_lens (take nl l) nl (drop nl l) nd) _ _ Q5) as Q6. cbn beta in Q6.
    rewrite take_app_length', drop_app_length' in Q6 by (symmetry; apply length_lens_upto). exact Q6.
Qed.

(** ** What the tally keeps *)

(** The symbols a pair of the buffers needs have been counted. *)
Definition tallied (ltree dtree : list ct_data) (dist lc : Z) : Prop :=
  if dist =? 0 then Freq (ct ltree (Z.to_nat lc)) <> 0
  else Freq (ct ltree (Z.to_nat (get _length_code lc) + LITERALS + 1)) <> 0 /\ Freq (ct dtree (Z.to_nat (d_code (dist - 1)))) <> 0.

Record sizes_ok (s : tstate) : Prop := {
  sz_l : length (dyn_ltree s) = (2 * L_CODES + 1)%nat;
  sz_d : length (dyn_dtree s) = (2 * D_CODES + 1)%nat;
  sz_bl : length (bl_tree s) = (2 * BL_CODES + 1)%nat;
  sz_heap : length (heap (wk s)) = HEAP_SIZE;
  sz_lbuf : length (l_buf s) = lit_bufsize s;
  sz_dbuf : length (d_buf s) = lit_bufsize s
}.

Record tally_ok (s : tstate) : Prop := {
  to_sizes : sizes_ok s;
  to_lit : forall c, (c < L_CODES)%nat -> 0 <= Freq (ct (dyn_ltree s) c) <= Z.of_nat (last_lit s) + 1;
  to_dist : forall c, (c < D_CODES)%nat -> 0 <= Freq (ct (dyn_dtree s) c) <= Z.of_nat (last_lit s);
  to_bl : forall c, (c < BL_CODES)%nat -> Freq (ct (bl_tree s) c) = 0;
  to_end : Freq (ct (dyn_ltree s) END_BLOCK) <> 0;
  to_syms : forall i, (i < last_lit s)%nat ->
    symbol_ok (getn (d_buf s) i) (getn (l_buf s) i) /\ tallied (dyn_ltree s) (dyn_dtree s) (getn (d_buf s) i) (getn (l_buf s) i)
}.

Lemma clear_freqs_spec n tree : (n <= length tree)%nat -> length (clear_freqs n tree) = length tree /\
  forall c, Freq (ct (clear_freqs n tree) c) = if (c <? n)%nat then 0 else Freq (ct tree c).
Proof.
  intros Hn. unfold clear_freqs. pose proof (for_ind (fun n t => length t = length tree /\
    forall c, Freq (ct t c) = if (c <? n)%nat then 0 else Freq (ct tree c)) 0 n (fun n tree => set_fc tree n 0) tree) as G.
  apply G; [done|]. clear G. intros i t Hi [L F]. split; [by rewrite length_set_fc|]. intros c.
  rewrite ct_set_fc by lia. destruct (Nat.eqb_spec c i) as [->|Hc].
  - cbn [fc]. by rewrite (proj2 (Nat.ltb_lt _ _)) by lia.
  - rewrite F. destruct (Nat.ltb_spec c i), (Nat.ltb_spec c (S i)); try lia; done.
Qed.

Lemma init_block_ok s : sizes_ok s -> tally_ok (init_block s) /\ last_lit (init_block s) = 0%nat /\
  out (init_block s) = out s /\ lit_bufsize (init_block s) = lit_bufsize s.
Proof.
  intros [Zl Zd Zb Zh Z1 Z2]. assert (LC : (L_CODES = 286 /\ D_CODES = 30 /\ BL_CODES = 19 /\ END_BLOCK = 256)%nat) by done.
  destruct (clear_freqs_spec L_CODES (dyn_ltree s) ltac:(lia)) as [L1 F1].
  destruct (clear_freqs_spec D_CODES (dyn_dtree s) ltac:(lia)) as [L2 F2].
  destruct (clear_freqs_spec BL_CODES (bl_tree s) ltac:(lia)) as [L3 F3].
  split; [|done]. unfold init_block.
  constructor; cbn [dyn_ltree dyn_dtree bl_tree wk last_lit l_buf d_buf lit_bufsize with_trees with_codes with_buffers].
  - constructor; cbn [dyn_ltree dyn_dtree bl_tree wk l_buf d_buf lit_bufsize heap with_lens with_trees with_codes with_buffers];
      rewrite ?length_set_fc; congruence.
  - intros c Hc. rewrite ct_set_fc by lia. destruct (Nat.eqb_spec c END_BLOCK); cbn [fc]; [lia|].
    rewrite F1, (proj2 (Nat.ltb_lt _ _)) by done. lia.
  - intros c Hc. rewrite F2, (proj2 (Nat.ltb_lt _ _)) by done. lia.
  - intros c Hc. by rewrite F3, (proj2 (Nat.ltb_lt _ _)).
  - rewrite ct_set_fc, Nat.eqb_refl by lia. done.
  - lia.
Qed.

Lemma count_spec tree n B : (n < length tree)%nat -> 0 <= Freq (ct tree n) <= B -> B + 1 < 65536 ->
  length (count tree n) = length tree /\
  forall c, Freq (ct (count tree n) c) = if (c =? n)%nat then Freq (ct tree n) + 1 else Freq (ct tree c).
Proof. intros Hn HB Hs. apply (count_by_spec tree n 1 B); lia. Qed.

(** More counts keep what has been tallied. *)
Lemma tallied_mono l d l' d' dist lc : tallied l d dist lc ->
  (forall c, Freq (ct l c) <> 0 -> Freq (ct l' c) <> 0) -> (forall c, Freq (ct d c) <> 0 -> Freq (ct d' c) <> 0) ->
  tallied l' d' dist lc.
Proof. unfold tallied. intros H Hl Hd. destruct (dist =? 0); [auto|]. destruct H. auto. Qed.

(** The symbols in the buffers. *)
Definition buffered (s : tstate) : list symbol := symbols (d_buf s) (l_buf s) 0 (last_lit s).

Lemma symbols_snoc d l n : symbols d l 0 (S n) = symbols d l 0 n ++ [symbol_of (getn d n) (getn l n)].
Proof. unfold symbols. by rewrite seq_S, map_app. Qed.

Lemma symbols_ext d l d' l' n : (forall i, (i < n)%nat -> getn d' i = getn d i /\ getn l' i = getn l i) ->
  symbols d' l' 0 n = symbols d l 0 n.
Proof. intros H. unfold symbols. apply map_ext_in. intros i Hi. apply in_seq in Hi. destruct (H i ltac:(lia)) as [-> ->]. done. Qed.

(** The trees after a tally: what was tallied still is, and the new pair too. *)
Lemma tally_trees s dist lc : tally_ok s -> symbol_ok dist lc -> Z.of_nat (last_lit s) + 2 < 65536 ->
  let l := if dist =? 0 then count (dyn_ltree s) (Z.to_nat lc)
           else count (dyn_ltree s) (Z.to_nat (get _length_code lc) + LITERALS + 1) in
  let d := if dist =? 0 then dyn_dtree s else count (dyn_dtree s) (Z.to_nat (d_code (dist - 1))) in
  length l = length (dyn_ltree s) /\ length d = length (dyn_dtree s) /\
  (forall c, (c < L_CODES)%nat -> 0 <= Freq (ct l c) <= Z.of_nat (S (last_lit s)) + 1) /\
  (forall c, (c < D_CODES)%nat -> 0 <= Freq (ct d c) <= Z.of_nat (S (last_lit s))) /\
  (forall c, Freq (ct (dyn_ltree s) c) <> 0 -> Freq (ct l c) <> 0) /\
  (forall c, Freq (ct (dyn_dtree s) c) <> 0 -> Freq (ct d c) <> 0) /\ tallied l d dist lc.
Proof.
  intros [Zs Tl Td _ _ _] [Hlc Hd] H16. cbv zeta. destruct Zs as [Zl Zd _ _ _ _].
  assert (LC : (L_CODES = 286 /\ D_CODES = 30 /\ LITERALS = 256)%nat) by done. unfold tallied.
  destruct (Z.eqb_spec dist 0) as [E|E].
  - pose proof (Tl (Z.to_nat lc) ltac:(lia)) as B.
    destruct (count_spec (dyn_ltree s) (Z.to_nat lc) (Z.of_nat (last_lit s) + 1) ltac:(lia) ltac:(lia) ltac:(lia)) as [L F].
    split_and!; [done|done| | | |done|].
    + intros c Hc. rewrite F. pose proof (Tl c Hc). destruct (Nat.eqb_spec c (Z.to_nat lc)); lia.
    + intros c Hc. pose proof (Td c Hc). lia.
    + intros c Hc. rewrite F. destruct (Nat.eqb_spec c (Z.to_nat lc)); lia.
    + rewrite F, Nat.eqb_refl. lia.
  - destruct (length_split_spec lc Hlc) as (Hk & _). destruct (dist_split_spec (dist - 1) ltac:(lia)) as (Hj & _). cbv zeta in *.
    set (k := (Z.to_nat (get _length_code lc) + LITERALS + 1)%nat). set (j := Z.to_nat (d_code (dist - 1))).
    pose proof (Tl k ltac:(lia)) as B1. pose proof (Td j ltac:(lia)) as B2.
    destruct (count_spec (dyn_ltree s) k (Z.of_nat (last_lit s) + 1) ltac:(lia) ltac:(lia) ltac:(lia)) as [L1 F1].
    destruct (count_spec (dyn_dtree s) j (Z.of_nat (last_lit s)) ltac:(lia) ltac:(lia) ltac:(lia)) as [L2 F2].
    split_and!; [done|done| | | | | |].
    + intros c Hc. rewrite F1. pose proof (Tl c Hc). destruct (Nat.eqb_spec c k); lia.
    + intros c Hc. rewrite F2. pose proof (Td c Hc). destruct (Nat.eqb_spec c j); lia.
    + intros c Hc. rewrite F1. destruct (Nat.eqb_spec c k); lia.
    + intros c Hc. rewrite F2. destruct (Nat.eqb_spec c j); lia.
    + rewrite F1, Nat.eqb_refl. lia.
    + rewrite F2, Nat.eqb_refl. lia.
Qed.

Lemma tr_tally_shape s dist lc :
  let s' := fst (_tr_tally s dist lc) in
  dyn_ltree s' = (if dist =? 0 then count (dyn_ltree s) (Z.to_nat lc)
                  else count (dyn_ltree s) (Z.to_nat (get _length_code lc) + LITERALS + 1)) /\
  dyn_dtree s' = (if dist =? 0 then dyn_dtree s else count (dyn_dtree s) (Z.to_nat (d_code (dist - 1)))) /\
  bl_tree s' = bl_tree s /\ wk s' = wk s /\ d_buf s' = setn (d_buf s) (last_lit s) (u16 dist) /\
  l_buf s' = setn (l_buf s) (last_lit s) (u8 lc) /\ last_lit s' = S (last_lit s) /\ lit_bufsize s' = lit_bufsize s /\
  out s' = out s /\ level s' = level s /\ strategy s' = strategy s.
Proof. unfold _tr_tally. cbn [fst]. destruct (dist =? 0); done. Qed.

Lemma tr_tally_ok s dist lc : tally_ok s -> symbol_ok dist lc -> (last_lit s < lit_bufsize s)%nat ->
  Z.of_nat (lit_bufsize s) <= 32768 ->
  let s' := fst (_tr_tally s dist lc) in
  tally_ok s' /\ last_lit s' = S (last_lit s) /\ lit_bufsize s' = lit_bufsize s /\ out s' = out s /\
  buffered s' = buffered s ++ [symbol_of dist lc].
Proof.
  intros T Hs Hl Hb. cbv zeta.
  destruct (tr_tally_shape s dist lc) as (E1 & E2 & E3 & E4 & E5 & E6 & E7 & E8 & E9 & _).
  destruct (tally_trees s dist lc T Hs ltac:(lia)) as (L1 & L2 & B1 & B2 & M1 & M2 & N). cbv zeta in *.
  set (s' := fst (_tr_tally s dist lc)) in *. rewrite <- E1 in L1, B1, M1, N. rewrite <- E2 in L2, B2, M2, N.
  destruct T as [[Zl Zd Zb Zh Z1 Z2] Tl Td Tb Te Ts]. pose proof Hs as [Hlc Hd].
  assert (Gd : forall i, getn (d_buf s') i = if (i =? last_lit s)%nat then dist else getn (d_buf s) i).
  { intros i. rewrite E5, getn_setn, u16_id by lia. done. }
  assert (Gl : forall i, getn (l_buf s') i = if (i =? last_lit s)%nat then lc else getn (l_buf s) i).
  { intros i. rewrite E6, getn_setn by lia. unfold u8. rewrite (Z.mod_small lc) by (change (2 ^ 8) with 256; lia). done. }
  split; [|split; [done|split; [done|split; [done|]]]].
  - constructor.
    + constructor; rewrite ?E3, ?E4, ?E5, ?E6, ?E8, ?length_setn; congruence.
    + intros c Hc. rewrite E7. by apply B1.
    + intros c Hc. rewrite E7. by apply B2.
    + intros c Hc. rewrite E3. by apply Tb.
    + by apply M1.
    + intros i Hi. rewrite Gd, Gl. destruct (Nat.eqb_spec i (last_lit s)) as [->|Hn]; [done|].
      destruct (Ts i ltac:(lia)) as [A B]. split; [done|]. by eapply tallied_mono.
  - unfold buffered. rewrite E7, symbols_snoc, Gd, Gl, Nat.eqb_refl. f_equal. apply symbols_ext.
    intros i Hi. rewrite Gd, Gl, (proj2 (Nat.eqb_neq _ _)) by lia. done.
Qed.

(** The inline versions do the same, but for the count of matches. *)
Lemma tr_tally_lit_same s c : 0 <= c < 256 -> _tr_tally_lit s c = _tr_tally s 0 c.
Proof. intros Hc. unfold _tr_tally_lit, _tr_tally, u8. rewrite (Z.mod_small c) by (change (2 ^ 8) with 256; lia). reflexivity. Qed.

Lemma tr_tally_dist_same s dist lc : 0 <= lc < 256 -> 1 <= dist <= 32768 ->
  _tr_tally_dist s dist lc =
  (with_buffers (fst (_tr_tally s dist lc)) (l_buf (fst (_tr_tally s dist lc))) (d_buf (fst (_tr_tally s dist lc)))
     (last_lit (fst (_tr_tally s dist lc))) (matches s), snd (_tr_tally s dist lc)).
Proof.
  intros Hc Hd. unfold _tr_tally_dist, _tr_tally. rewrite (proj2 (Z.eqb_neq dist 0)) by lia.
  unfold u8. rewrite (Z.mod_small lc) by (change (2 ^ 8) with 256; lia).
  assert (E : u16 (u16 dist - 1) = dist - 1) by (rewrite (u16_id dist), u16_id by lia; done). rewrite E. done.
Qed.

(** ** The trees of a block *)

Lemma scan_tree_ok tree mc k bl B : Z.of_nat k = mc + 1 -> (1 <= k < length tree)%nat ->
  (forall c, (c < k)%nat -> 0 <= Len (ct tree c) <= 15) -> (19 <= length bl)%nat ->
  (forall c, (c < 19)%nat -> 0 <= Freq (ct bl c) <= B) -> B + Z.of_nat k < 65536 ->
  let '(tree', bl') := scan_tree tree mc bl in
  length tree' = length tree /\ (forall c, c <> k -> ct tree' c = ct tree c) /\
  (exists prev, run_seq (runs tree' mc) (lens_upto tree' k) prev) /\
  grows bl bl' (Z.of_nat k) (map t_sym (all_tokens (runs tree' mc))).
Proof.
  intros Ek Hk Hl Hbl HB Hs. unfold scan_tree. replace (Z.to_nat (mc + 1)) with k by lia.
  set (tree' := set_dl tree k 0xffff).
  assert (E : forall c, c <> k -> ct tree' c = ct tree c).
  { intros c Hc. unfold tree'. rewrite ct_set_dl by lia. by rewrite (proj2 (Nat.eqb_neq _ _)). }
  split; [apply length_set_dl|]. split; [exact E|].
  pose proof (runs_lens tree' mc) as R. cbv zeta in R. replace (Z.to_nat (mc + 1)) with k in R by lia.
  destruct R as [prev R]; [lia| | |].
  { intros c Hc. rewrite E by lia. by apply Hl. }
  { unfold tree'. rewrite dl_set_dl, Nat.eqb_refl by lia. lia. }
  split; [by exists prev|]. rewrite run_loop_runs. destruct (run_seq_total _ _ _ R) as [O T].
  rewrite length_lens_upto in T. rewrite <- T. apply (scan_grows _ bl B); [done|done|done|lia].
Qed.

(** The trees of a block, ready to be sent and to be used. *)
Record trees_ready (s : tstate) (nl nd m : nat) : Prop := {
  tr_l : l_max s + 1 = Z.of_nat nl /\ (257 <= nl <= 286)%nat;
  tr_d : d_max s + 1 = Z.of_nat nd /\ (1 <= nd <= 30)%nat;
  tr_m : (3 <= m < 19)%nat;
  tr_bl : forall c, (c < 19)%nat -> 0 <= Len (ct (bl_tree s) c) <= 7;
  tr_zero : forall j, (m < j < 19)%nat -> Len (ct (bl_tree s) (nth j bl_order 0%nat)) = 0;
  tr_send : forall cl, (forall c, (c < 19)%nat -> getn cl c = Len (ct (bl_tree s) c)) -> sendable (bl_tree s) cl 19;
  tr_lruns : exists p, run_seq (runs (dyn_ltree s) (l_max s)) (lens_upto (dyn_ltree s) nl) p;
  tr_druns : exists p, run_seq (runs (dyn_dtree s) (d_max s)) (lens_upto (dyn_dtree s) nd) p;
  tr_toks : Forall (fun t => Len (ct (bl_tree s) (t_sym t)) <> 0)
    (all_tokens (runs (dyn_ltree s) (l_max s)) ++ all_tokens (runs (dyn_dtree s) (d_max s)));
  tr_lits : sendable (dyn_ltree s) (lens_upto (dyn_ltree s) nl) nl;
  tr_dists : sendable (dyn_dtree s) (lens_upto (dyn_dtree s) nd) nd
}.

Lemma build_bl_tree_ok s nl nd : sizes_ok s -> l_max s + 1 = Z.of_nat nl -> (257 <= nl <= 286)%nat ->
  d_max s + 1 = Z.of_nat nd -> (1 <= nd <= 30)%nat ->
  (forall c, (c < 286)%nat -> 0 <= Len (ct (dyn_ltree s) c) <= 15) -> (forall c, (c < 30)%nat -> 0 <= Len (ct (dyn_dtree s) c) <= 15) ->
  Len (ct (dyn_ltree s) END_BLOCK) <> 0 -> (forall c, (c < BL_CODES)%nat -> Freq (ct (bl_tree s) c) = 0) ->
  sendable (dyn_ltree s) (lens_upto (dyn_ltree s) nl) nl -> sendable (dyn_dtree s) (lens_upto (dyn_dtree s) nd) nd ->
  let '(s', m) := build_bl_tree s in
  trees_ready s' nl nd m /\ sizes_ok s' /\
  (forall c, c <> nl -> ct (dyn_ltree s') c = ct (dyn_ltree s) c) /\ (forall c, c <> nd -> ct (dyn_dtree s') c = ct (dyn_dtree s) c) /\
  d_buf s' = d_buf s /\ l_buf s' = l_buf s /\ last_lit s' = last_lit s /\ lit_bufsize s' = lit_bufsize s /\ out s' = out s /\
  level s' = level s /\ strategy s' = strategy s.
Proof.
  intros [Zl Zd Zb Zh Z1 Z2] El Hnl Ed Hnd Hl Hd He Hb Sl Sd. unfold build_bl_tree.
  assert (LC : (L_CODES = 286 /\ D_CODES = 30 /\ BL_CODES = 19 /\ END_BLOCK = 256)%nat) by done.
  pose proof (scan_tree_ok (dyn_ltree s) (l_max s) nl (bl_tree s) 0 ltac:(lia) ltac:(lia) ltac:(intros; apply Hl; lia) ltac:(lia)
    ltac:(intros c Hc; rewrite Hb by lia; lia) ltac:(lia)) as A.
  destruct (scan_tree (dyn_ltree s) (l_max s) (bl_tree s)) as [lt bl1]. destruct A as (La & Ea & [p1 Ra] & (Ga1 & Ga2 & Ga3)).
  pose proof (scan_tree_ok (dyn_dtree s) (d_max s) nd bl1 (Z.of_nat nl) ltac:(lia) ltac:(lia) ltac:(intros; apply Hd; lia) ltac:(lia)
    ltac:(intros c Hc; pose proof (Ga2 c) as G; rewrite Hb in G by lia; lia) ltac:(lia)) as A.
  destruct (scan_tree (dyn_dtree s) (d_max s) bl1) as [dt bl2]. destruct A as (Lb & Eb & [p2 Rb] & (Gb1 & Gb2 & Gb3)).
  pose proof (build_tree_sendable static_bl_desc bl2 (wk s) ltac:(by right; right) ltac:(change (elems static_bl_desc) with 19%nat; lia) Zh) as T.
  pose proof (build_tree_heap_length static_bl_desc bl2 (wk s)) as Hh.
  destruct (build_tree static_bl_desc bl2 (wk s)) as [[bl bmax] w]. destruct T as (T1 & T2 & T3 & T4).
  change (elems static_bl_desc) with 19%nat in *. change (max_length static_bl_desc) with 7%nat in *. cbn [snd] in Hh.
  set (m := last_blindex bl (BL_CODES - 1)).
  assert (U : Forall (fun t => (t_sym t < 19)%nat -> Len (ct bl (t_sym t)) <> 0) (all_tokens (runs lt (l_max s)) ++ all_tokens (runs dt (d_max s)))).
  { apply Forall_app. rewrite List.Forall_map in Ga3, Gb3. split.
    - eapply List.Forall_impl; [|exact Ga3]. cbn. intros t Ht H19. apply (T3 _ H19).
      pose proof (Gb2 (t_sym t)). rewrite Hb in Ht by lia. lia.
    - eapply List.Forall_impl; [|exact Gb3]. cbn. intros t Ht H19. apply (T3 _ H19).
      pose proof (Ga2 (t_sym t)) as G. rewrite Hb in G by lia. lia. }
  assert (V : Forall (fun t => (t_sym t < 19)%nat) (all_tokens (runs lt (l_max s)) ++ all_tokens (runs dt (d_max s)))).
  { assert (V0 : forall toks acc, toks_ok acc toks -> Forall (fun t => (t_sym t < 19)%nat) toks).
    { clear. induction toks as [|t toks IH]; intros acc H; [constructor|]. destruct H as [H1 H2]. constructor; [|by eapply IH].
      unfold tok_ok in H1. destruct (Nat.ltb_spec (t_sym t) 16); [lia|tauto]. }
    apply Forall_app. split; eapply V0; eapply run_seq_tokens; [exact Ra|exact Rb]. Unshelve. all: exact []. }
  assert (W : Forall (fun t => Len (ct bl (t_sym t)) <> 0) (all_tokens (runs lt (l_max s)) ++ all_tokens (runs dt (d_max s)))).
  { rewrite List.Forall_forall in *. intros t Ht. by apply U, V. }
  destruct (last_blindex_spec bl 18 ltac:(lia)) as [M1 M2]. change (last_blindex bl 18) with m in M1, M2.
  assert (M3 : (3 <= m)%nat).
  { assert (Hin : In (Z.to_nat (Len (ct lt END_BLOCK))) (map t_sym (all_tokens (runs lt (l_max s))))).
    { apply (run_seq_plain _ _ _ _ Ra); [|rewrite Ea by lia; done]. unfold lens_upto. apply in_map_iff.
      exists END_BLOCK. split; [done|]. apply in_seq. lia. }
    apply in_map_iff in Hin as (t & Et & Ht). apply Forall_app in W as [W _]. rewrite List.Forall_forall in W. specialize (W t Ht).
    rewrite Et in W. rewrite Ea in W by lia. pose proof (Hl END_BLOCK ltac:(lia)) as He15.
    destruct (bl_order_onto (Z.to_nat (Len (ct (dyn_ltree s) END_BLOCK))) ltac:(lia)) as (j & Hj & Ej & H4).
    destruct (Nat.le_gt_cases 4 m); [lia|]. exfalso. apply W. rewrite <- Ej. apply M2. specialize (H4 ltac:(lia)). lia. }
  split; [|split; [|split; [exact Ea|split; [exact Eb|done]]]].
  - constructor; cbn [l_max d_max bl_tree dyn_ltree dyn_dtree with_codes with_trees].
    + done.
    + done.
    + lia.
    + intros c Hc. destruct (T3 c Hc) as [B _]. exact B.
    + intros j Hj. apply M2. lia.
    + intros cl Hcl. apply T4; [lia|exact Hcl].
    + by exists p1.
    + by exists p2.
    + exact W.
    + apply (sendable_ext (dyn_ltree s)); [intros c Hc; apply Ea; lia|].
      assert (E : lens_upto lt nl = lens_upto (dyn_ltree s) nl).
      { unfold lens_upto. apply map_ext_in. intros c Hc. apply in_seq in Hc. by rewrite Ea by lia. }
      by rewrite E.
    + apply (sendable_ext (dyn_dtree s)); [intros c Hc; apply Eb; lia|].
      assert (E : lens_upto dt nd = lens_upto (dyn_dtree s) nd).
      { unfold lens_upto. apply map_ext_in. intros c Hc. apply in_seq in Hc. by rewrite Eb by lia. }
      by rewrite E.
  - constructor; cbn [dyn_ltree dyn_dtree bl_tree wk l_buf d_buf lit_bufsize heap with_lens with_trees with_codes]; try congruence.
Qed.

Lemma build_trees_ok s : tally_ok s ->
  let '(s', m) := build_trees s in
  exists nl nd, trees_ready s' nl nd m /\ sizes_ok s' /\
    (let c := mk_lens (lens_upto (dyn_ltree s') nl) nl (lens_upto (dyn_dtree s') nd) nd in
     (END_BLOCK < nl)%nat /\ Len (ct (dyn_ltree s') END_BLOCK) <> 0 /\
     forall dist lc, symbol_ok dist lc -> tallied (dyn_ltree s) (dyn_dtree s) dist lc -> coded (dyn_ltree s') (dyn_dtree s') c dist lc) /\
    d_buf s' = d_buf s /\ l_buf s' = l_buf s /\ last_lit s' = last_lit s /\ lit_bufsize s' = lit_bufsize s /\ out s' = out s /\
    level s' = level s /\ strategy s' = strategy s.
Proof.
  intros [[Zl Zd Zb Zh Z1 Z2] Tl Td Tb Te Ts]. unfold build_trees.
  assert (LC : (L_CODES = 286 /\ D_CODES = 30 /\ BL_CODES = 19 /\ END_BLOCK = 256 /\ LITERALS = 256)%nat) by done.
  set (s1 := if data_type s =? Z_UNKNOWN then _ else s).
  assert (E1 : dyn_ltree s1 = dyn_ltree s /\ dyn_dtree s1 = dyn_dtree s /\ bl_tree s1 = bl_tree s /\ wk s1 = wk s /\
    l_buf s1 = l_buf s /\ d_buf s1 = d_buf s /\ last_lit s1 = last_lit s /\ lit_bufsize s1 = lit_bufsize s /\ out s1 = out s /\
    level s1 = level s /\ strategy s1 = strategy s) by (unfold s1; by destruct (_ =? _)).
  destruct E1 as (El & Ed & Eb & Ew & Elb & Edb & Ell & Els & Eo & Ev & Es). clearbody s1. rewrite El, Ed, Eb, Ew.
  pose proof (build_tree_sendable static_l_desc (dyn_ltree s) (wk s) ltac:(by left) Zl Zh) as T1.
  pose proof (build_tree_heap_length static_l_desc (dyn_ltree s) (wk s)) as H1.
  destruct (build_tree static_l_desc _ _) as [[l lm] w1]. destruct T1 as (A1 & A2 & A3 & A4). cbn [snd] in H1.
  pose proof (build_tree_sendable static_d_desc (dyn_dtree s) w1 ltac:(by right; left) Zd ltac:(congruence)) as T2.
  pose proof (build_tree_heap_length static_d_desc (dyn_dtree s) w1) as H2.
  destruct (build_tree static_d_desc _ _) as [[d dm] w2]. destruct T2 as (B1 & B2 & B3 & B4). cbn [snd] in H2.
  change (elems static_l_desc) with 286%nat in *. change (elems static_d_desc) with 30%nat in *.
  change (Z.of_nat (max_length static_l_desc)) with 15 in *. change (Z.of_nat (max_length static_d_desc)) with 15 in *.
  destruct (A3 END_BLOCK ltac:(lia)) as (_ & C1 & _). destruct (C1 Te) as [C2 C3].
  set (nl := Z.to_nat (lm + 1)). set (nd := Z.to_nat (dm + 1)).
  set (s2 := with_codes (with_trees s1 l d (bl_tree s)) lm dm (bl_max s1) w2).
  assert (Z3 : sizes_ok s2).
  { unfold s2. constructor; cbn [dyn_ltree dyn_dtree bl_tree wk l_buf d_buf lit_bufsize with_trees with_codes]; congruence. }
  pose proof (build_bl_tree_ok s2 nl nd Z3) as K. unfold s2 in K at 1 2 3 4 5 6 7 8 9 10.
  cbn [l_max d_max dyn_ltree dyn_dtree bl_tree with_trees with_codes] in K.
  specialize (K ltac:(lia) ltac:(lia) ltac:(lia) ltac:(lia) (fun c Hc => proj1 (A3 c Hc)) (fun c Hc => proj1 (B3 c Hc)) C3 Tb).
  specialize (K (A4 (lens_upto l nl) nl ltac:(lia) ltac:(intros; by apply getn_lens_upto))
                (B4 (lens_upto d nd) nd ltac:(lia) ltac:(intros; by apply getn_lens_upto))).
  destruct (build_bl_tree s2) as [s' m]. destruct K as (K1 & K2 & K3 & K4 & K5 & K6 & K7 & K8 & K9 & K10 & K11).
  change (dyn_ltree s2) with l in K3. change (dyn_dtree s2) with d in K4.
  exists nl, nd. split; [exact K1|]. split; [exact K2|]. split.
  - cbv zeta. split; [lia|]. split; [rewrite K3 by lia; exact C3|]. intros dist lc [Hlc Hds]. unfold tallied, coded.
    cbn [cl_nlits cl_ndists]. destruct (Z.eqb_spec dist 0) as [E|E].
    + intros F. destruct (A3 (Z.to_nat lc) ltac:(lia)) as (_ & G & _). destruct (G F) as [G1 G2].
      split; [lia|]. rewrite K3 by lia. exact G2.
    + destruct (length_split_spec lc Hlc) as (Hk & _). destruct (dist_split_spec (dist - 1) ltac:(lia)) as (Hj & _). cbv zeta in *.
      intros [F1 F2]. destruct (A3 (Z.to_nat (get _length_code lc) + LITERALS + 1)%nat ltac:(lia)) as (_ & G & _). destruct (G F1) as [G1 G2].
      destruct (B3 (Z.to_nat (d_code (dist - 1))) ltac:(lia)) as (_ & G' & _). destruct (G' F2) as [G3 G4].
      split; [lia|]. split; [rewrite K3 by lia; exact G2|]. split; [lia|]. rewrite K4 by lia. exact G4.
  - unfold s2 in *. cbn [d_buf l_buf last_lit lit_bufsize out level strategy with_trees with_codes] in *. split_and!; congruence.
Qed.

(** ** Blocks *)

(** The header of a block: the mark of the last one, and the kind. *)
Lemma header_bits last type : last = 0 \/ last = 1 -> 0 <= type <= 2 ->
  exists x y, bits_of (Z.shiftl type 1 + last) 3 = x ++ y /\ reads (bits_r 1) x last /\ reads (bits_r 2) y type.
Proof.
  intros Hl Ht. exists (bits_of last 1), (bits_of type 2).
  assert (E : type = 0 \/ type = 1 \/ type = 2) by lia.
  split; [|split; [apply reads_bits|apply reads_bits]].
  - destruct Hl as [El|El], E as [Et|[Et|Et]]; subst last type; reflexivity.
  - change (2 ^ Z.of_nat 1) with 2. lia.
  - change (2 ^ Z.of_nat 2) with 4. lia.
Qed.

Lemma fixed_block_reads d l n b last pos : bitbuf_ok b -> last = 0 \/ last = 1 ->
  (forall i, (i < n)%nat -> symbol_ok (getn d i) (getn l i)) ->
  exists bs, sends b (compress_block static_ltree static_dtree d l n (send_bits b (Z.shiftl STATIC_TREES 1 + last) 3)) bs /\
    reads (block_r pos (S n)) bs (last =? 1, Symbols (symbols d l 0 n)).
Proof.
  intros Hb Hl Hs. pose proof (sends_bits b (Z.shiftl STATIC_TREES 1 + last) 3 Hb ltac:(lia)
    ltac:(change (Z.shiftl STATIC_TREES 1) with 2; change (2 ^ 3) with 8; lia)) as S1.
  change (Z.to_nat 3) with 3%nat in S1.
  destruct (header_bits last STATIC_TREES Hl ltac:(unfold STATIC_TREES; lia)) as (x & y & E & Rx & Ry). rewrite E in S1.
  assert (Sc : forall dist lc, symbol_ok dist lc -> coded static_ltree static_dtree fixed_codes dist lc).
  { intros dist lc [Hlc Hd].
    assert (B1 : forallb (fun c => negb (Len (ct static_ltree c) =? 0)) (seq 0 288) = true) by (vm_compute; reflexivity).
    assert (B2 : forallb (fun c => negb (Len (ct static_dtree c) =? 0)) (seq 0 30) = true) by (vm_compute; reflexivity).
    rewrite List.forallb_forall in B1, B2.
    assert (N1 : forall c, (c < 288)%nat -> Len (ct static_ltree c) <> 0)
      by (intros c Hc E0; specialize (B1 c ltac:(apply in_seq; lia)); rewrite E0 in B1; done).
    assert (N2 : forall c, (c < 30)%nat -> Len (ct static_dtree c) <> 0)
      by (intros c Hc E0; specialize (B2 c ltac:(apply in_seq; lia)); rewrite E0 in B2; done).
    unfold coded. cbn [cl_nlits cl_ndists fixed_codes]. destruct (dist =? 0) eqn:Ed; [split; [lia|apply N1; lia]|].
    destruct (length_split_spec lc Hlc) as (Hk & _). destruct (dist_split_spec (dist - 1) ltac:(lia)) as (Hj & _). cbv zeta in *.
    unfold LITERALS. split; [lia|]. split; [apply N1; lia|]. split; [lia|]. apply N2. lia. }
  destruct (compress_block_reads static_ltree static_dtree fixed_codes static_ltree_sendable static_dtree_sendable d l n _ (proj1 S1)
    ltac:(intros i Hi; split; [by apply Hs|by apply Sc, Hs]) ltac:(unfold END_BLOCK; cbn [cl_nlits fixed_codes]; lia)
    ltac:(vm_compute; discriminate)) as (z & S2 & R2).
  exists ((x ++ y) ++ z). split; [exact (sends_trans _ _ _ _ _ S1 S2)|]. rewrite <- app_assoc. unfold block_r.
  apply (reads_bind _ _ _ _ last); [exact Rx|]. apply (reads_bind _ _ _ _ STATIC_TREES); [exact Ry|]. cbv zeta.
  cbn [Z.eqb STATIC_TREES STORED_BLOCK]. apply (reads_map _ (fun l => (last =? 1, Symbols l))). exact R2.
Qed.

Lemma dynamic_block_reads s nl nd m last pos : trees_ready s nl nd m -> bitbuf_ok (out s) -> last = 0 \/ last = 1 ->
  let c := mk_lens (lens_upto (dyn_ltree s) nl) nl (lens_upto (dyn_dtree s) nd) nd in
  (forall i, (i < last_lit s)%nat -> symbol_ok (getn (d_buf s) i) (getn (l_buf s) i) /\
     coded (dyn_ltree s) (dyn_dtree s) c (getn (d_buf s) i) (getn (l_buf s) i)) ->
  (END_BLOCK < nl)%nat -> Len (ct (dyn_ltree s) END_BLOCK) <> 0 ->
  let s1 := with_out s (send_bits (out s) (Z.shiftl DYN_TREES 1 + last) 3) in
  let s2 := send_all_trees s1 (l_max s1 + 1) (d_max s1 + 1) (Z.of_nat m + 1) in
  exists bs, sends (out s) (compress_block (dyn_ltree s2) (dyn_dtree s2) (d_buf s2) (l_buf s2) (last_lit s2) (out s2)) bs /\
    reads (block_r pos (S (last_lit s))) bs (last =? 1, Symbols (buffered s)).
Proof.
  intros [[El Hnl] [Ed Hnd] Hm Hbl Hz Hs [p1 R1] [p2 R2] Ht Sl Sd] Hb Hl c Hc He1 He2 s1 s2.
  pose proof (sends_bits (out s) (Z.shiftl DYN_TREES 1 + last) 3 Hb ltac:(lia)
    ltac:(change (Z.shiftl DYN_TREES 1) with 4; change (2 ^ 3) with 8; lia)) as S1.
  change (Z.to_nat 3) with 3%nat in S1.
  destruct (header_bits last DYN_TREES Hl ltac:(unfold DYN_TREES; lia)) as (x & y & E & Rx & Ry). rewrite E in S1.
  assert (Ml : l_max s = Z.of_nat nl - 1) by lia. assert (Md : d_max s = Z.of_nat nd - 1) by lia.
  rewrite Ml in R1, Ht. rewrite Md in R2, Ht.
  destruct (send_all_trees_reads s1 nl nd m p1 p2 Hnl Hnd Hm (proj1 S1) Hbl Hz Hs R1 R2 Ht) as (z & S2 & Rz).
  assert (E2 : s2 = send_all_trees s1 (Z.of_nat nl) (Z.of_nat nd) (Z.of_nat m + 1)).
  { unfold s2. change (l_max s1) with (l_max s). change (d_max s1) with (d_max s). by rewrite El, Ed. }
  rewrite <- E2 in S2. change (dyn_ltree s2) with (dyn_ltree s). change (dyn_dtree s2) with (dyn_dtree s).
  change (d_buf s2) with (d_buf s). change (l_buf s2) with (l_buf s). change (last_lit s2) with (last_lit s).
  destruct (compress_block_reads (dyn_ltree s) (dyn_dtree s) c Sl Sd (d_buf s) (l_buf s) (last_lit s) (out s2) (proj1 S2) Hc He1 He2)
    as (v & S3 & Rv).
  exists ((x ++ y) ++ z ++ v). split; [exact (sends_trans _ _ _ _ _ S1 (sends_trans _ _ _ _ _ S2 S3))|].
  rewrite <- app_assoc. unfold block_r. apply (reads_bind _ _ _ _ last); [exact Rx|].
  apply (reads_bind _ _ _ _ DYN_TREES); [exact Ry|]. cbv zeta. cbn [Z.eqb DYN_TREES STATIC_TREES STORED_BLOCK Pos.eqb].
  apply (reads_bind _ _ _ _ c); [exact Rz|]. apply (reads_map _ (fun l => (last =? 1, Symbols l))). exact Rv.
Qed.

Lemma length_byte_bits l : length (byte_bits l) = (8 * length l)%nat.
Proof.
  induction l as [|x l IH]; [done|]. change (byte_bits (x :: l)) with (bits_of x 8 ++ byte_bits l).
  rewrite length_app, length_bits_of, IH. cbn [length]. lia.
Qed.

Lemma stored_block_reads b buf last fuel : bitbuf_ok b -> last = 0 \/ last = 1 -> bytes_ok buf -> Z.of_nat (length buf) <= 65535 ->
  exists bs, sends b (_tr_stored_block b buf last) bs /\
    reads (block_r (Z.of_nat (length (stream b))) fuel) bs (last =? 1, Bytes buf).
Proof.
  intros Hb Hl Hbuf Hlen. pose proof (stored_block_stream b buf last Hb Hl Hbuf) as (O & _ & St & _). cbv zeta in *.
  eexists. split; [split; [exact O|exact St]|].
  destruct (header_bits last STORED_BLOCK Hl ltac:(unfold STORED_BLOCK; lia)) as (x & y & E & Rx & Ry).
  change (Z.shiftl STORED_BLOCK 1 + last) with last in E. rewrite E, <- app_assoc. unfold block_r.
  apply (reads_bind _ _ _ _ last); [exact Rx|]. apply (reads_bind _ _ _ _ STORED_BLOCK); [exact Ry|]. cbv zeta.
  rewrite Z.eqb_refl. set (pad := Z.to_nat (- (bi_valid b + 3) mod 8)).
  assert (Ep : Z.to_nat (- (Z.of_nat (length (stream b)) + 3) mod 8) = length (replicate pad false)).
  { rewrite length_replicate. unfold pad. f_equal. unfold stream. rewrite length_app, length_byte_bits, length_bits_of.
    destruct Hb as (_ & Hv & _).
    replace (- (Z.of_nat (8 * length (pending b) + Z.to_nat (bi_valid b)) + 3)) with
      (- (bi_valid b + 3) + (- Z.of_nat (length (pending b))) * 8) by lia. apply Z.mod_add. lia. }
  rewrite Ep. apply (reads_bind _ _ _ _ (bits_val (replicate pad false))); [apply reads_any|].
  apply (reads_bind _ _ _ _ (Z.of_nat (length buf))); [apply reads_bits; change (2 ^ Z.of_nat 16) with 65536; lia|].
  rewrite <- (bits_of_u16 (Z.lnot (Z.of_nat (length buf)))) by done.
  apply (reads_bind _ _ _ _ (u16 (Z.lnot (Z.of_nat (length buf))))); [apply reads_bits; apply Z.mod_pos_bound; lia|].
  rewrite Z.eqb_refl, Nat2Z.id. apply (reads_map _ (fun l => (last =? 1, Bytes l))). by apply reads_bytes.
Qed.

(** The bit buffer has no part in the tally. *)
Lemma with_out_ok s b : tally_ok s -> tally_ok (with_out s b).
Proof. intros [[Y1 Y2 Y3 Y4 Y5 Y6] Y7 Y8 Y9 Y10 Y11]. by constructor. Qed.

Lemma with_intact_ok s b : tally_ok s -> tally_ok (with_intact s b).
Proof. intros [[Y1 Y2 Y3 Y4 Y5 Y6] Y7 Y8 Y9 Y10 Y11]. by constructor. Qed.

(** What is put out before the block is closed. *)
Definition content_of (s : tstate) (buf : option (list Z)) (c : content) : Prop :=
  c = Symbols (buffered s) \/ exists l, buf = Some l /\ c = Bytes l.

(** The coded block, with the fixed codes or its own. *)
Lemma coded_block_reads s s1 m (fixed : bool) last pos : tally_ok s -> bitbuf_ok (out s) -> last = 0 \/ last = 1 ->
  (if fixed then s1 = s \/ build_trees s = (s1, m) else build_trees s = (s1, m)) ->
  let b :=
    if fixed then compress_block static_ltree static_dtree (d_buf s1) (l_buf s1) (last_lit s1)
                    (send_bits (out s1) (Z.shiftl STATIC_TREES 1 + last) 3)
    else
      let s1 := with_out s1 (send_bits (out s1) (Z.shiftl DYN_TREES 1 + last) 3) in
      let s1 := send_all_trees s1 (l_max s1 + 1) (d_max s1 + 1) (Z.of_nat m + 1) in
      compress_block (dyn_ltree s1) (dyn_dtree s1) (d_buf s1) (l_buf s1) (last_lit s1) (out s1) in
  exists bs, sends (out s) b bs /\ reads (block_r pos (S (last_lit s))) bs (last =? 1, Symbols (buffered s)).
Proof.
  intros T Hb Hl Hs. pose proof (build_trees_ok s T) as K. pose proof (to_syms _ T) as Sy.
  assert (F : s1 = s -> exists bs, sends (out s) (compress_block static_ltree static_dtree (d_buf s1) (l_buf s1) (last_lit s1)
      (send_bits (out s1) (Z.shiftl STATIC_TREES 1 + last) 3)) bs /\
      reads (block_r pos (S (last_lit s))) bs (last =? 1, Symbols (buffered s))).
  { intros ->. apply fixed_block_reads; [done|done|]. intros i Hi. by apply Sy. }
  destruct fixed; [destruct Hs as [Hs|Hs]; [by apply F|]|]; rewrite Hs in K;
    destruct K as (nl & nd & Tr & _ & (E1 & E2 & E3) & Ed & El & En & _ & Eo & _ & _); cbv zeta.
  - rewrite Ed, El, En, Eo. apply fixed_block_reads; [done|done|]. intros i Hi. by apply Sy.
  - destruct (dynamic_block_reads s1 nl nd m last pos Tr ltac:(by rewrite Eo) Hl) as (bs & Sb & R).
    + intros i Hi. rewrite Ed, El, En in *. destruct (Sy i Hi) as [A B]. split; [exact A|]. by apply E3.
    + exact E1.
    + exact E2.
    + exists bs. rewrite <- Eo. unfold buffered in *. rewrite Ed, El, En in R. split; [exact Sb|exact R].
Qed.

Lemma tr_flush_block_reads s buf stored_len last : tally_ok s -> bitbuf_ok (out s) -> last = 0 \/ last = 1 ->
  (forall l, buf = Some l -> bytes_ok l /\ Z.of_nat (length l) <= 65535) ->
  let s' := _tr_flush_block s buf stored_len last in
  tally_ok s' /\ bitbuf_ok (out s') /\ last_lit s' = 0%nat /\ lit_bufsize s' = lit_bufsize s /\
  exists bs pad c, stream (out s') = stream (out s) ++ bs ++ replicate pad false /\ (pad < 8)%nat /\
    (last = 0 -> pad = 0%nat) /\ (last = 1 -> bi_valid (out s') = 0) /\
    reads (block_r (Z.of_nat (length (stream (out s)))) (S (last_lit s))) bs (last =? 1, c) /\ content_of s buf c.
Proof.
  intros T Hb Hl Hbuf. cbv zeta. unfold _tr_flush_block.
  set (pos := Z.of_nat (length (stream (out s)))).
  destruct (if 0 <? level s then _ else _) as [[[s1 m] opt_lenb] static_lenb] eqn:E1.
  assert (H1 : (s1 = s /\ static_lenb = opt_lenb) \/ build_trees s = (s1, m)).
  { destruct (0 <? level s).
    - right. destruct (build_trees s) as [s2 m2]. injection E1 as <- <- _ _. done.
    - left. injection E1 as <- _ <- <-. done. }
  clear E1.
  assert (H2 : sizes_ok s1 /\ lit_bufsize s1 = lit_bufsize s /\ out s1 = out s).
  { destruct H1 as [[-> _]|H1]; [split; [apply (to_sizes _ T)|done]|].
    pose proof (build_trees_ok s T) as K. rewrite H1 in K. destruct K as (nl & nd & _ & Z0 & _ & _ & _ & _ & B & O & _). done. }
  destruct H2 as (Z0 & B0 & O0).
  set (coded := if _ || _ then _ else _).
  assert (C1 : exists bs, sends (out s) (out coded) bs /\ reads (block_r pos (S (last_lit s))) bs (last =? 1, Symbols (buffered s))).
  { unfold coded. set (fixed := (strategy s1 =? Z_FIXED) || (static_lenb =? opt_lenb)).
    pose proof (coded_block_reads s s1 m fixed last pos T Hb Hl) as C. destruct fixed eqn:Ef.
    - apply C. destruct H1 as [[H1 _]|H1]; auto.
    - apply C. destruct H1 as [[_ H1]|H1]; [|done]. unfold fixed in Ef. rewrite H1, Z.eqb_refl, orb_true_r in Ef. done. }
  assert (C2 : sizes_ok coded /\ lit_bufsize coded = lit_bufsize s).
  { unfold coded. destruct Z0. destruct (_ || _); (split; [constructor|]); done. }
  set (s2 := match buf with Some _ => _ | None => _ end).
  assert (C3 : (exists bs c, sends (out s) (out s2) bs /\ reads (block_r pos (S (last_lit s))) bs (last =? 1, c) /\ content_of s buf c) /\
    sizes_ok s2 /\ lit_bufsize s2 = lit_bufsize s).
  { unfold s2. destruct C1 as (bs & S1 & R1). destruct C2 as [C2 C3].
    destruct buf as [l|]; [destruct (_ <=? _)|]; [|(split; [exists bs, (Symbols (buffered s)); split; [done|]; split; [done|by left]|done])..].
    destruct (Hbuf l eq_refl) as [Hl1 Hl2]. destruct (stored_block_reads (out s) l last (S (last_lit s)) Hb Hl Hl1 Hl2) as (bs' & S' & R').
    split; [|split; [destruct Z0; by constructor|done]]. exists bs', (Bytes l).
    split; [cbn [out with_out]; rewrite O0; exact S'|]. split; [exact R'|]. right. by exists l. }
  destruct C3 as ((bs & c & S2 & R2 & Cc) & Z2 & B2). clearbody s2. clear coded C1 C2.
  destruct (init_block_ok s2 Z2) as (T3 & N3 & O3 & B3). set (s3 := init_block s2) in *.
  assert (O2 : bitbuf_ok (out s2)) by apply S2.
  destruct Hl as [-> | ->]; cbn [Z.eqb negb Pos.eqb]; unfold check_fits; cbn [out with_intact last_lit lit_bufsize].
  - split; [by apply with_intact_ok|]. split; [by rewrite O3|]. split; [done|]. split; [congruence|].
    exists bs, 0%nat, c. cbn [replicate]. rewrite app_nil_r, O3. split; [apply S2|]. split; [lia|]. done.
  - destruct (bi_windup_stream (out s3) ltac:(by rewrite O3)) as (W1 & W2 & W3).
    split; [by apply with_intact_ok, with_out_ok|].
    split; [exact W1|]. split; [exact N3|].
    split; [cbn [lit_bufsize with_out]; congruence|].
    exists bs. eexists. exists c. cbn [out with_out]. rewrite W3, O3, (proj2 S2), <- app_assoc. split; [done|].
    split; [pose proof (Z.mod_pos_bound (- bi_valid (out s2)) 8 ltac:(lia)); lia|]. split; [done|]. split; [done|]. done.
Qed.

(** ** Streams of blocks *)

Lemma symbols_r_more c n : forall m bs r, (n <= m)%nat -> symbols_r n c bs = Some r -> symbols_r m c bs = Some r.
Proof.
  induction n as [|n IH]; intros m bs r Hm H; [done|]. destruct m as [|m]; [lia|]. cbn [symbols_r] in *. unfold bind_r in *.
  destruct (symbol_r c bs) as [[s bs1]|]; [|done]. destruct s; [..|done];
    (destruct (symbols_r n c bs1) as [[l bs2]|] eqn:E; [|done]; by rewrite (IH m _ _ ltac:(lia) E)).
Qed.

Lemma block_r_more pos n m bs r : (n <= m)%nat -> block_r pos n bs = Some r -> block_r pos m bs = Some r.
Proof.
  intros Hm. unfold block_r, bind_r. destruct (bits_r 1 bs) as [[last b1]|]; [|done]. destruct (bits_r 2 b1) as [[ty b2]|]; [|done].
  destruct (ty =? STORED_BLOCK); [done|]. destruct (ty =? STATIC_TREES).
  - destruct (symbols_r n fixed_codes b2) as [[l b3]|] eqn:E; [|done]. by rewrite (symbols_r_more _ _ m _ _ Hm E).
  - destruct (ty =? DYN_TREES); [|done]. destruct (header_r b2) as [[c b3]|]; [|done].
    destruct (symbols_r n c b3) as [[l b4]|] eqn:E; [|done]. by rewrite (symbols_r_more _ _ m _ _ Hm E).
Qed.

(** Blocks up to the last one; [total] is the length of the stream, which gives the
    position. *)
Fixpoint stream_r (n total fuel : nat) (bs : list bool) : option (list content * list bool) :=
  match n with
  | O => None
  | S n =>
      match block_r (Z.of_nat (total - length bs)) fuel bs with
      | Some ((true, c), bs) => Some ([c], bs)
      | Some ((false, c), bs) =>
          match stream_r n total fuel bs with
          | Some (l, bs) => Some (c :: l, bs)
          | None => None
          end
      | None => None
      end
  end.

(** What deflate gives to trees.c for a block: pairs to tally, and the bytes of the
    window they stand for, if they are still there. *)
Record block_in := mk_block { b_pairs : list (Z * Z); b_bytes : option (list Z); b_len : Z }.

Definition tally_all (s : tstate) (l : list (Z * Z)) : tstate := fold_left (fun s '(d, lc) => fst (_tr_tally s d lc)) l s.
Definition put_block (s : tstate) (b : block_in) (last : Z) : tstate :=
  _tr_flush_block (tally_all s (b_pairs b)) (b_bytes b) (b_len b) last.
Definition put_blocks (s : tstate) (l : list block_in) (b : block_in) : tstate :=
  put_block (fold_left (fun s b => put_block s b 0) l s) b 1.

Definition block_ok (size : nat) (b : block_in) : Prop :=
  Forall (fun '(d, lc) => symbol_ok d lc) (b_pairs b) /\ (length (b_pairs b) < size)%nat /\
  forall l, b_bytes b = Some l -> bytes_ok l /\ Z.of_nat (length l) <= 65535.
Definition holds (b : block_in) (c : content) : Prop :=
  c = Symbols (map (fun '(d, lc) => symbol_of d lc) (b_pairs b)) \/ exists l, b_bytes b = Some l /\ c = Bytes l.

Lemma tally_all_ok l : forall s, tally_ok s -> Forall (fun '(d, lc) => symbol_ok d lc) l ->
  (last_lit s + length l < lit_bufsize s)%nat -> Z.of_nat (lit_bufsize s) <= 32768 ->
  let s' := tally_all s l in
  tally_ok s' /\ last_lit s' = (last_lit s + length l)%nat /\ lit_bufsize s' = lit_bufsize s /\ out s' = out s /\
  buffered s' = buffered s ++ map (fun '(d, lc) => symbol_of d lc) l.
Proof.
  induction l as [|[d lc] l IH]; intros s T F Hl Hb; cbv zeta.
  { cbn. rewrite app_nil_r, Nat.add_0_r. done. }
  apply Forall_cons_iff in F as [F1 F2]. cbn [length map] in *.
  destruct (tr_tally_ok s d lc T F1 ltac:(lia) Hb) as (T1 & N1 & B1 & O1 & S1). cbv zeta in *.
  change (tally_all s ((d, lc) :: l)) with (tally_all (fst (_tr_tally s d lc)) l).
  destruct (IH _ T1 F2 ltac:(lia) ltac:(lia)) as (T2 & N2 & B2 & O2 & S2). cbv zeta in *.
  split; [exact T2|]. split; [lia|]. split; [congruence|]. split; [congruence|]. rewrite S2, S1, <- app_assoc. done.
Qed.

Lemma put_block_reads s b last size : tally_ok s -> last_lit s = 0%nat -> lit_bufsize s = size -> Z.of_nat size <= 32768 ->
  bitbuf_ok (out s) -> last = 0 \/ last = 1 -> block_ok size b ->
  let s' := put_block s b last in
  tally_ok s' /\ last_lit s' = 0%nat /\ lit_bufsize s' = size /\ bitbuf_ok (out s') /\
  exists bs pad c, stream (out s') = stream (out s) ++ bs ++ replicate pad false /\ (last = 0 -> pad = 0%nat) /\
    (last = 1 -> bi_valid (out s') = 0) /\ holds b c /\
    forall fuel rest, (size <= fuel)%nat ->
      block_r (Z.of_nat (length (stream (out s)))) fuel (bs ++ rest) = Some ((last =? 1, c), rest).
Proof.
  intros T N Es Hs Hb Hl (B1 & B2 & B3). cbv zeta. unfold put_block.
  destruct (tally_all_ok (b_pairs b) s T B1 ltac:(lia) ltac:(lia)) as (T1 & N1 & E1 & O1 & S1). cbv zeta in *.
  destruct (tr_flush_block_reads (tally_all s (b_pairs b)) (b_bytes b) (b_len b) last T1 ltac:(by rewrite O1) Hl B3)
    as (T2 & W2 & N2 & E2 & bs & pad & c & S2 & _ & P0 & P1 & R & C). cbv zeta in *.
  split; [exact T2|]. split; [exact N2|]. split; [lia|]. split; [exact W2|].
  exists bs, pad, c. rewrite O1 in S2, R. split; [exact S2|]. split; [exact P0|]. split; [exact P1|]. split.
  - destruct C as [C|C]; [left|by right]. rewrite C, S1. unfold buffered. by rewrite N.
  - intros fuel rest Hf. apply (block_r_more _ (S (last_lit (tally_all s (b_pairs b))))); [lia|]. apply R.
Qed.

Lemma put_blocks_reads size l : forall s b fuel, tally_ok s -> last_lit s = 0%nat -> lit_bufsize s = size -> Z.of_nat size <= 32768 ->
  bitbuf_ok (out s) -> Forall (block_ok size) l -> block_ok size b -> (size <= fuel)%nat ->
  let s' := put_blocks s l b in
  bitbuf_ok (out s') /\ bi_valid (out s') = 0 /\
  exists bs pad cs, stream (out s') = stream (out s) ++ bs ++ replicate pad false /\ Forall2 holds (l ++ [b]) cs /\
    forall rest, stream_r (S (length l)) (length (stream (out s) ++ bs ++ rest)) fuel (bs ++ rest) = Some (cs, rest).
Proof.
  induction l as [|x l IH]; intros s b fuel T N Es Hs Hb Fl Fb Hf; cbv zeta.
  - unfold put_blocks. cbn [fold_left].
    destruct (put_block_reads s b 1 size T N Es Hs Hb ltac:(by right) Fb) as (_ & _ & _ & W & bs & pad & c & S1 & _ & P1 & C & R).
    split; [exact W|]. split; [by apply P1|]. exists bs, pad, [c]. split; [exact S1|]. split; [constructor; [exact C|constructor]|].
    intros rest. cbn [length stream_r]. rewrite length_app, Nat.add_sub, R by done. done.
  - apply Forall_cons_iff in Fl as [Fx Fl].
    destruct (put_block_reads s x 0 size T N Es Hs Hb ltac:(by left) Fx) as (T1 & N1 & E1 & W1 & b1 & pad & c & S1 & P0 & _ & C & R).
    cbv zeta in *. rewrite (P0 eq_refl), app_nil_r in S1.
    destruct (IH (put_block s x 0) b fuel T1 N1 E1 Hs W1 Fl Fb Hf) as (W2 & V2 & bs & pad' & cs & S2 & F2 & R2). cbv zeta in *.
    change (put_blocks s (x :: l) b) with (put_blocks (put_block s x 0) l b).
    split; [exact W2|]. split; [exact V2|]. exists (b1 ++ bs), pad', (c :: cs).
    split; [rewrite S2, S1, <- !app_assoc; done|]. split; [constructor; [exact C|exact F2]|].
    intros rest. cbn [length]. change (stream_r (S (S (length l)))) with (fun total fuel bs =>
      match block_r (Z.of_nat (total - length bs)) fuel bs with
      | Some ((true, c), bs) => Some ([c], bs)
      | Some ((false, c), bs) => match stream_r (S (length l)) total fuel bs with Some (l, bs) => Some (c :: l, bs) | None => None end
      | None => None
      end). cbv beta. rewrite length_app, Nat.add_sub, <- app_assoc, R by done. cbn [Z.eqb].
    specialize (R2 rest). rewrite S1 in R2. rewrite <- (length_app (stream (out s))). rewrite <- app_assoc in R2. rewrite R2. done.
Qed.

(** Deflate's blocks round-trip through a decoder of RFC 1951.  After [_tr_init],
    let any number of blocks be tallied and flushed, with whatever symbols, level and
    strategy, the last one marked as such: what is put out is whole bytes, and the
    reference decoder, which knows only the format, reads from them block after block
    the symbols that were tallied (or the bytes of the window, where a stored block
    was shorter), up to the last block and no further.  This holds whether fixed or
    dynamic codes are chosen, and for dynamic codes includes the building of the
    three trees, their codes, and their transmission by run lengths. *)
Lemma stream_roundtrip s l b
    (Hs : sizes_ok s) (Hb : Z.of_nat (lit_bufsize s) <= 32768) (Hp : bytes_ok (pending (out s)))
    (Hl : Forall (block_ok (lit_bufsize s)) (l ++ [b])) :
  let s' := put_blocks (_tr_init s) l b in
  bytes_ok (pending (out s')) /\ bi_valid (out s') = 0 /\
  exists bs cs pad, byte_bits (pending (out s')) = byte_bits (pending (out s)) ++ bs /\
    stream_r (S (length l)) (8 * length (pending (out s'))) (lit_bufsize s) bs = Some (cs, replicate pad false) /\
    Forall2 holds (l ++ [b]) cs.
Proof.
  cbv zeta. unfold _tr_init. set (s0 := with_out s (mk_bitbuf (pending (out s)) 0 0)).
  assert (Z0 : sizes_ok s0) by (destruct Hs; by constructor).
  destruct (init_block_ok s0 Z0) as (T & N & O & B). apply Forall_app in Hl as [Hl1 Hl2]. apply Forall_cons_iff in Hl2 as [Hl2 _].
  assert (Ob : bitbuf_ok (out (init_block s0))) by (rewrite O; split; [done|cbn; lia]).
  destruct (put_blocks_reads (lit_bufsize s) l (init_block s0) b (lit_bufsize s) T N B Hb Ob Hl1 Hl2 (le_n _))
    as (W & V & bs & pad & cs & S1 & F & R). cbv zeta in *. set (s' := put_blocks _ l b) in *.
  assert (E : forall x, bi_valid x = 0 -> stream x = byte_bits (pending x)).
  { intros x Hx. unfold stream. rewrite Hx. change (bits_of (bi_buf x) (Z.to_nat 0)) with (@nil bool). by rewrite app_nil_r. }
  assert (E0 : stream (out (init_block s0)) = byte_bits (pending (out s))) by (rewrite O, E; done).
  rewrite E0 in S1, R. rewrite (E _ V) in S1. split; [apply W|]. split; [exact V|].
  exists (bs ++ replicate pad false), cs, pad. split; [exact S1|]. split; [|exact F].
  rewrite <- length_byte_bits, S1. apply R.
Qed.

Definition small_state : tstate :=
  mk_ts (replicate 573 (mk_ct 7 7)) (replicate 61 (mk_ct 7 7)) (replicate 39 (mk_ct 7 7)) 0 0 0 empty_work
    (replicate 8 0) (replicate 8 0) 0 8 0 (mk_bitbuf [0x78; 0x9c] 5 3) 6 0 2 true.

Lemma stream_roundtrip_witness :
  let l := [mk_block [(0, 97); (1, 255); (32768, 0)] None 262] in
  let b := mk_block [(0, 65)] (Some [65]) 1 in
  let s' := put_blocks (_tr_init small_state) l b in
  exists bs cs pad, byte_bits (pending (out s')) = byte_bits [0x78; 0x9c] ++ bs /\
    stream_r 2 (8 * length (pending (out s'))) 8 bs = Some (cs, replicate pad false) /\ Forall2 holds (l ++ [b]) cs.
Proof.
  cbv zeta. apply (stream_roundtrip small_state).
  - constructor; reflexivity.
  - cbn. lia.
  - repeat constructor; cbn; lia.
  - constructor; [|constructor; [|constructor]].
    + split; [repeat constructor; cbn; lia|]. split; [cbn; lia|]. discriminate.
    + split; [repeat constructor; cbn; lia|]. split; [cbn; lia|]. intros l E. injection E as <-.
      split; [repeat constructor; cbn; lia|cbn; lia].
Defined.
