(* ===== verification/Lz.v ===== *)
(** * Lz: the window of deflate and the search for matches (core/zlib/deflate.c)

    Reading input into the sliding window, the hash chains, and [longest_match].
    The window holds the end of what was read; the chains lead to earlier strings
    with the same hash, and since that hash decides the third byte of a match, the
    chains must be right for the matches to be. *)

From S2P Require Import Prelude.
From S2P Require Import Crc32.
From S2P Require Import Adler32.
From S2P Require Import Trees.

#[local] Open Scope Z_scope.

(** ** Constants and parameters (deflate.h) *)

Definition MIN_LOOKAHEAD : Z := MAX_MATCH + MIN_MATCH + 1.
Definition WIN_INIT : Z := MAX_MATCH.
Definition NIL : Z := 0.

(** The fields of [deflate_state] that stay as they are set up.  [w_size], [w_mask]
    and their like are computed from the numbers of bits once and for all. *)
Record params := mk_params {
  w_bits : Z;
  hash_bits : Z;
  good_match : Z;
  max_lazy_match : Z;
  nice_match : Z;
  max_chain_length : Z
}.
Definition w_size (p : params) : Z := Z.shiftl 1 (w_bits p).
Definition w_mask (p : params) : Z := w_size p - 1.
Definition hash_size (p : params) : Z := Z.shiftl 1 (hash_bits p).
Definition hash_mask (p : params) : Z := hash_size p - 1.
Definition hash_shift (p : params) : Z := (hash_bits p + MIN_MATCH - 1) / MIN_MATCH.
Definition window_size (p : params) : Z := 2 * w_size p.
Definition MAX_DIST (p : params) : Z := w_size p - MIN_LOOKAHEAD.

(** ** The stream *)

(** [next_in] is what is left of the input, [avail_in] its length; [next_out] is what
    was written. *)
Record z_stream := mk_strm {
  next_in : list Z;
  next_out : list Z;
  avail_out : Z;
  total_in : Z;
  total_out : Z;
  adler : Z
}.
Definition avail_in (strm : z_stream) : Z := Z.of_nat (length (next_in strm)).

(** The checksum of a wrapper: 1 for zlib, 2 for gzip. *)
Definition check_bytes (wrap adler : Z) (buf : list Z) : Z :=
  if wrap =? 1 then adler32 64 false adler (Some buf)
  else if wrap =? 2 then crc32 true true 0 adler (Some buf)
  else adler.

Definition read_buf (wrap : Z) (strm : z_stream) (size : Z) : list Z * z_stream :=
  let len := avail_in strm in
  let len := if size <? len then size else len in
  if len =? 0 then ([], strm)
  else
    let buf := take (Z.to_nat len) (next_in strm) in
    (buf, mk_strm (drop (Z.to_nat len) (next_in strm)) (next_out strm) (avail_out strm) (u64 (total_in strm + len))
            (total_out strm) (check_bytes wrap (adler strm) buf)).

(** ** The window and the hash chains *)

Record lz := mk_lz {
  window : list Z;
  prev : list Z;
  head : list Z;
  ins_h : Z;
  strstart : Z;
  lookahead : Z;
  s_insert : Z;
  block_start : Z;
  high_water : Z;
  match_start : Z;
  match_length : Z;
  prev_match : Z;
  prev_length : Z;
  match_available : bool
}.
Definition with_window (s : lz) (w : list Z) : lz :=
  mk_lz w (prev s) (head s) (ins_h s) (strstart s) (lookahead s) (s_insert s) (block_start s) (high_water s)
    (match_start s) (match_length s) (prev_match s) (prev_length s) (match_available s).
Definition with_hash (s : lz) (p h : list Z) (i : Z) : lz :=
  mk_lz (window s) p h i (strstart s) (lookahead s) (s_insert s) (block_start s) (high_water s)
    (match_start s) (match_length s) (prev_match s) (prev_length s) (match_available s).
Definition with_ins_h (s : lz) (i : Z) : lz := with_hash s (prev s) (head s) i.
Definition with_pos (s : lz) (str look : Z) : lz :=
  mk_lz (window s) (prev s) (head s) (ins_h s) str look (s_insert s) (block_start s) (high_water s)
    (match_start s) (match_length s) (prev_match s) (prev_length s) (match_available s).
Definition with_insert (s : lz) (n : Z) : lz :=
  mk_lz (window s) (prev s) (head s) (ins_h s) (strstart s) (lookahead s) n (block_start s) (high_water s)
    (match_start s) (match_length s) (prev_match s) (prev_length s) (match_available s).
Definition with_block (s : lz) (b : Z) : lz :=
  mk_lz (window s) (prev s) (head s) (ins_h s) (strstart s) (lookahead s) (s_insert s) b (high_water s)
    (match_start s) (match_length s) (prev_match s) (prev_length s) (match_available s).
Definition with_high (s : lz) (h : Z) : lz :=
  mk_lz (window s) (prev s) (head s) (ins_h s) (strstart s) (lookahead s) (s_insert s) (block_start s) h
    (match_start s) (match_length s) (prev_match s) (prev_length s) (match_available s).
Definition with_match (s : lz) (start len : Z) : lz :=
  mk_lz (window s) (prev s) (head s) (ins_h s) (strstart s) (lookahead s) (s_insert s) (block_start s) (high_water s)
    start len (prev_match s) (prev_length s) (match_available s).
Definition with_prev (s : lz) (m len : Z) : lz :=
  mk_lz (window s) (prev s) (head s) (ins_h s) (strstart s) (lookahead s) (s_insert s) (block_start s) (high_water s)
    (match_start s) (match_length s) m len (match_available s).
Definition with_available (s : lz) (b : bool) : lz :=
  mk_lz (window s) (prev s) (head s) (ins_h s) (strstart s) (lookahead s) (s_insert s) (block_start s) (high_water s)
    (match_start s) (match_length s) (prev_match s) (prev_length s) b.

(** Reads the fields of updated states. *)
Ltac lz_fields := cbn [window prev head ins_h strstart lookahead s_insert block_start high_water match_start match_length
  prev_match prev_length match_available with_window with_hash with_ins_h with_pos with_insert with_block with_high with_match
  with_prev with_available].

(** [zmemcpy(dst + off, src, len)] and [zmemzero]. *)
Definition zmemcpy (dst : list Z) (off : Z) (src : list Z) : list Z :=
  take (Z.to_nat off) dst ++ src ++ drop (Z.to_nat off + length src) dst.
Definition zmemzero (dst : list Z) (off len : Z) : list Z := zmemcpy dst off (replicate (Z.to_nat len) 0).
Definition bytes_at (buf : list Z) (off len : Z) : list Z := take (Z.to_nat len) (drop (Z.to_nat off) buf).
Definition set (l : list Z) (i v : Z) : list Z := setn l (Z.to_nat i) v.

Section Params.
Context (p : params).

Definition UPDATE_HASH (h c : Z) : Z := Z.land (Z.lxor (u32 (Z.shiftl h (hash_shift p))) c) (hash_mask p).

(** The common part of [INSERT_STRING] and of the loops that insert. *)
Definition insert_at (s : lz) (str : Z) : lz * Z :=
  let h := UPDATE_HASH (ins_h s) (get (window s) (str + (MIN_MATCH - 1))) in
  let match_head := get (head s) h in
  (with_hash s (set (prev s) (Z.land str (w_mask p)) match_head) (set (head s) h (u16 str)) h, match_head).
Definition INSERT_STRING (s : lz) (str : Z) : lz * Z := insert_at s str.

Definition CLEAR_HASH (s : lz) : lz := with_hash s (prev s) (replicate (Z.to_nat (hash_size p)) NIL) (ins_h s).

Definition slide_entry (m : Z) : Z := if w_size p <=? m then u16 (m - w_size p) else NIL.
Definition slide_hash (s : lz) : lz := with_hash s (map slide_entry (prev s)) (map slide_entry (head s)) (ins_h s).

(** "move the upper half to the lower one" *)
Definition slide (s : lz) (more : Z) : lz :=
  let w := zmemcpy (window s) 0 (bytes_at (window s) (w_size p) (u32 (w_size p - more))) in
  let s := with_window s w in
  let s := with_match s (u32 (match_start s - w_size p)) (match_length s) in
  let s := with_pos s (u32 (strstart s - w_size p)) (lookahead s) in
  let s := with_block s (block_start s - w_size p) in
  slide_hash s.

(** [while (s->insert)], [n] the turns left. *)
Fixpoint insert_loop (n : nat) (s : lz) (str : Z) : lz :=
  match n with
  | O => s
  | S n =>
      let s := fst (insert_at s str) in
      let s := with_insert s (s_insert s - 1) in
      if lookahead s + s_insert s <? MIN_MATCH then s else insert_loop n s (str + 1)
  end.

(** "Initialize the hash value now that we have some input" *)
Definition init_hash (s : lz) : lz :=
  if MIN_MATCH <=? lookahead s + s_insert s then
    let str := strstart s - s_insert s in
    let s := with_ins_h s (UPDATE_HASH (get (window s) str) (get (window s) (str + 1))) in
    insert_loop (Z.to_nat (s_insert s)) s str
  else s.

(** One turn of the loop of [fill_window]; false when it is left by [break]. *)
Definition fill_turn (wrap : Z) (s : lz) (strm : z_stream) : bool * lz * z_stream :=
  let more := u32 (window_size p - lookahead s - strstart s) in
  let '(s, more) :=
    if w_size p + MAX_DIST p <=? strstart s then (slide s more, u32 (more + w_size p)) else (s, more) in
  if avail_in strm =? 0 then (false, s, strm)
  else
    let '(buf, strm) := read_buf wrap strm more in
    let s := with_window s (zmemcpy (window s) (strstart s + lookahead s) buf) in
    let s := with_pos s (strstart s) (u32 (lookahead s + Z.of_nat (length buf))) in
    (true, init_hash s, strm).

Fixpoint fill_loop (fuel : nat) (wrap : Z) (s : lz) (strm : z_stream) : lz * z_stream :=
  match fuel with
  | O => (s, strm)
  | S fuel =>
      let '(go, s, strm) := fill_turn wrap s strm in
      if go && (lookahead s <? MIN_LOOKAHEAD) && negb (avail_in strm =? 0) then fill_loop fuel wrap s strm
      else (s, strm)
  end.

(** The bytes behind the data that the search may look at are made zero. *)
Definition zero_ahead (s : lz) : lz :=
  if high_water s <? window_size p then
    let curr := strstart s + lookahead s in
    if high_water s <? curr then
      let init := window_size p - curr in
      let init := if WIN_INIT <? init then WIN_INIT else init in
      with_high (with_window s (zmemzero (window s) curr init)) (curr + init)
    else if high_water s <? curr + WIN_INIT then
      let init := curr + WIN_INIT - high_water s in
      let init := if window_size p - high_water s <? init then window_size p - high_water s else init in
      with_high (with_window s (zmemzero (window s) (high_water s) init)) (high_water s + init)
    else s
  else s.

(** Two turns are enough: after one the input is used up or the window full. *)
Definition fill_window (wrap : Z) (s : lz) (strm : z_stream) : lz * z_stream :=
  let '(s, strm) := fill_loop 2 wrap s strm in (zero_ahead s, strm).

(** ** [longest_match] *)

(** [*++scan == *++match && ...], [n] times; how many were equal. *)
Fixpoint equal_run (w : list Z) (n : nat) (scan mtch : Z) : Z :=
  match n with
  | O => 0
  | S n => if get w (scan + 1) =? get w (mtch + 1) then 1 + equal_run w n (scan + 1) (mtch + 1) else 0
  end.

(** The loop over eight comparisons at a time; the result is [scan]. *)
Fixpoint scan_loop (w : list Z) (strend : Z) (fuel : nat) (scan mtch : Z) : Z :=
  match fuel with
  | O => scan
  | S fuel =>
      let n := equal_run w 8 scan mtch in
      if n =? 8 then
        let '(scan, mtch) := (scan + 8, mtch + 8) in
        if scan <? strend then scan_loop w strend fuel scan mtch else scan
      else scan + n + 1
  end.

(** The state of the search: [best_len] and [s->match_start]. *)
Definition try_match (w : list Z) (strstart cur_match best_len : Z) : Z :=
  let scan := strstart in
  if negb (get w (cur_match + best_len) =? get w (scan + best_len)) ||
     negb (get w (cur_match + best_len - 1) =? get w (scan + best_len - 1)) ||
     negb (get w cur_match =? get w scan) || negb (get w (cur_match + 1) =? get w (scan + 1))
  then 0
  else
    let strend := strstart + MAX_MATCH in
    MAX_MATCH - (strend - scan_loop w strend 32 (scan + 2) (cur_match + 2)).

Fixpoint chain_loop (s : lz) (limit nice : Z) (chain_length : nat) (cur_match best_len start : Z) : Z * Z :=
  match chain_length with
  | O => (best_len, start)
  | S chain_length =>
      let len := try_match (window s) (strstart s) cur_match best_len in
      let '(best_len, start, stop) :=
        if best_len <? len then (len, cur_match, nice <=? len) else (best_len, start, false) in
      if stop then (best_len, start)
      else
        let cur_match := get (prev s) (Z.land cur_match (w_mask p)) in
        if (limit <? cur_match) && negb (chain_length =? 0)%nat
        then chain_loop s limit nice chain_length cur_match best_len start
        else (best_len, start)
  end.

(** The length found, with [match_start] set. *)
Definition longest_match (s : lz) (cur_match : Z) : Z * lz :=
  let chain_length := max_chain_length p in
  let limit := if MAX_DIST p <? strstart s then strstart s - MAX_DIST p else NIL in
  let chain_length := if good_match p <=? prev_length s then Z.shiftr chain_length 2 else chain_length in
  let nice := if lookahead s <? nice_match p then lookahead s else nice_match p in
  let '(best_len, start) := chain_loop s limit nice (Z.to_nat chain_length) cur_match (prev_length s) (match_start s) in
  (if best_len <=? lookahead s then best_len else lookahead s, with_match s start (match_length s)).
End Params.

(** ** Arrays *)

Lemma get_app_l a b i : 0 <= i < Z.of_nat (length a) -> get (a ++ b) i = get a i.
Proof. intros Hi. apply app_nth1. lia. Qed.

Lemma get_app_r a b i : Z.of_nat (length a) <= i -> get (a ++ b) i = get b (i - Z.of_nat (length a)).
Proof. intros Hi. unfold get. rewrite app_nth2 by lia. f_equal. lia. Qed.

Lemma get_take l n i : 0 <= i < Z.of_nat n -> get (take n l) i = get l i.
Proof.
  intros Hi. unfold get. revert l n Hi. generalize (Z.to_nat i) as k, (Z2Nat.id i) as E. intros k E l n Hi.
  specialize (E (proj1 Hi)). assert (Hk : (k < n)%nat) by lia. clear E Hi i. revert k n Hk.
  induction l as [|x l IH]; intros [|k] [|n] Hk; try lia; cbn; auto. apply IH. lia.
Qed.

Lemma get_drop l n i : 0 <= i -> get (drop n l) i = get l (i + Z.of_nat n).
Proof.
  intros Hi. unfold get. replace (Z.to_nat (i + Z.of_nat n)) with (n + Z.to_nat i)%nat by lia.
  generalize (Z.to_nat i) as k. revert l. induction n as [|n IH]; intros l k; [done|].
  destruct l as [|x l]; [by destruct k|]. cbn. apply IH.
Qed.

Lemma get_out l i : Z.of_nat (length l) <= i -> get l i = 0.
Proof. intros. unfold get. apply nth_overflow. lia. Qed.

Lemma length_zmemcpy dst off src : 0 <= off -> off + Z.of_nat (length src) <= Z.of_nat (length dst) ->
  length (zmemcpy dst off src) = length dst.
Proof. intros. unfold zmemcpy. rewrite !length_app, length_take, length_drop. lia. Qed.

Lemma get_zmemcpy dst off src i : 0 <= off -> off + Z.of_nat (length src) <= Z.of_nat (length dst) -> 0 <= i ->
  get (zmemcpy dst off src) i =
  if (off <=? i) && (i <? off + Z.of_nat (length src)) then get src (i - off) else get dst i.
Proof.
  intros Ho Hl Hi. unfold zmemcpy. assert (Lt : Z.of_nat (length (take (Z.to_nat off) dst)) = off) by (rewrite length_take; lia).
  destruct (Z.leb_spec off i) as [H1|H1]; cbn [andb].
  - rewrite get_app_r, Lt by lia. destruct (Z.ltb_spec i (off + Z.of_nat (length src))).
    + by rewrite get_app_l by lia.
    + rewrite get_app_r, get_drop by lia. f_equal. lia.
  - rewrite get_app_l, get_take by lia. done.
Qed.

Lemma zmemcpy_bytes dst off src : bytes_ok dst -> bytes_ok src -> bytes_ok (zmemcpy dst off src).
Proof. intros. unfold zmemcpy. apply Forall_app. split; [by apply Forall_take|]. apply Forall_app. split; [done|by apply Forall_drop]. Qed.

Lemma zeros_bytes n : bytes_ok (replicate n 0).
Proof. apply Forall_replicate. unfold byte_ok. lia. Qed.

Lemma length_bytes_at buf off len : 0 <= off -> 0 <= len -> off + len <= Z.of_nat (length buf) ->
  Z.of_nat (length (bytes_at buf off len)) = len.
Proof. intros. unfold bytes_at. rewrite length_take, length_drop. lia. Qed.

Lemma get_bytes_at buf off len i : 0 <= off -> 0 <= i < len -> get (bytes_at buf off len) i = get buf (off + i).
Proof. intros. unfold bytes_at. rewrite get_take, get_drop by lia. f_equal. lia. Qed.

Lemma bytes_at_bytes buf off len : bytes_ok buf -> bytes_ok (bytes_at buf off len).
Proof. intros. by apply Forall_take, Forall_drop. Qed.

Lemma length_set l i v : length (set l i v) = length l.
Proof. apply length_setn. Qed.

Lemma get_set l i v j : 0 <= i < Z.of_nat (length l) -> 0 <= j -> get (set l i v) j = if j =? i then v else get l j.
Proof.
  intros Hi Hj. unfold set. rewrite <- (Z2Nat.id j), !get_of_nat, getn_setn by lia.
  destruct (Z.eqb_spec (Z.of_nat (Z.to_nat j)) i), (Nat.eqb_spec (Z.to_nat j) (Z.to_nat i)); lia || done.
Qed.

Lemma get_map (f : Z -> Z) l i : f 0 = 0 -> get (map f l) i = f (get l i).
Proof. intros Hf. unfold get. rewrite <- Hf at 1. apply map_nth. Qed.

Lemma get_zeros n i : get (replicate n 0) i = 0.
Proof.
  unfold get. generalize (Z.to_nat i) as k. induction n as [|n IH]; intros [|k]; cbn; auto.
Qed.

(** ** Parameters *)

Record params_ok (p : params) : Prop := {
  p_w : 9 <= w_bits p <= 15;
  p_h : 8 <= hash_bits p <= 16
}.

Section Invariants.
Context (p : params) (Hp : params_ok p).

Lemma sizes : 512 <= w_size p <= 32768 /\ 256 <= hash_size p <= 65536 /\ MAX_DIST p = w_size p - 262 /\
  w_size p = 2 ^ w_bits p /\ hash_size p = 2 ^ hash_bits p.
Proof.
  destruct Hp as [Hw Hh]. unfold w_size, hash_size, MAX_DIST, MIN_LOOKAHEAD, MAX_MATCH, MIN_MATCH, w_size.
  rewrite !Z.shiftl_1_l.
  assert (2 ^ 9 <= 2 ^ w_bits p <= 2 ^ 15) by (split; apply Z.pow_le_mono_r; lia).
  assert (2 ^ 8 <= 2 ^ hash_bits p <= 2 ^ 16) by (split; apply Z.pow_le_mono_r; lia). lia.
Qed.

Lemma land_w_mask i : Z.land i (w_mask p) = i mod w_size p.
Proof. destruct sizes as (_ & _ & _ & E & _). unfold w_mask. rewrite E. apply land_ones_mod. destruct Hp as [H _]. lia. Qed.

(** ** The hash *)

Lemma hash_shift_ok : 0 <= hash_shift p /\ hash_bits p <= 3 * hash_shift p.
Proof using Hp. destruct Hp as [_ Hh]. unfold hash_shift, MIN_MATCH. split; Z.div_mod_to_equations; lia. Qed.

Lemma update_bit h c i : 0 <= i ->
  Z.testbit (UPDATE_HASH p h c) i = (i <? hash_bits p) && xorb (Z.testbit h (i - hash_shift p)) (Z.testbit c i).
Proof using Hp.
  intros Hi. pose proof (p_h _ Hp) as Hh. destruct sizes as (_ & _ & _ & _ & E).
  unfold UPDATE_HASH, hash_mask. rewrite E, land_ones_mod by lia.
  destruct (Z.ltb_spec i (hash_bits p)); cbn [andb].
  - rewrite Z.mod_pow2_bits_low, Z.lxor_spec by lia. unfold u32. rewrite Z.mod_pow2_bits_low, Z.shiftl_spec by lia. done.
  - rewrite Z.mod_pow2_bits_high by lia. done.
Qed.

Lemma update_range h c : 0 <= UPDATE_HASH p h c < hash_size p.
Proof using Hp.
  destruct sizes as (_ & S2 & _ & _ & E). unfold UPDATE_HASH, hash_mask. rewrite E, land_ones_mod by (pose proof (p_h _ Hp); lia).
  apply Z.mod_pos_bound. lia.
Qed.

(** The hash of three bytes, from any state. *)
Definition hash3 (x a b c : Z) : Z := UPDATE_HASH p (UPDATE_HASH p (UPDATE_HASH p x a) b) c.

Lemma hash3_forgets x y a b c : hash3 x a b c = hash3 y a b c.
Proof using Hp.
  destruct hash_shift_ok as [Hs1 Hs2]. apply Z.bits_inj'. intros i Hi. unfold hash3. rewrite !(update_bit _ c) by lia.
  destruct (Z.ltb_spec i (hash_bits p)); cbn [andb]; [|done]. f_equal.
  destruct (Z.lt_ge_cases (i - hash_shift p) 0) as [N|N]; [by rewrite !Z.testbit_neg_r by done|].
  rewrite !(update_bit _ b) by lia. f_equal. f_equal.
  destruct (Z.lt_ge_cases (i - hash_shift p - hash_shift p) 0) as [M|M]; [by rewrite !Z.testbit_neg_r by done|].
  rewrite !(update_bit _ a) by lia. f_equal. f_equal. by rewrite !Z.testbit_neg_r by lia.
Qed.

(** The first two bytes and the hash decide the third. *)
Lemma hash3_third x y a b c d : byte_ok c -> byte_ok d -> hash3 x a b c = hash3 y a b d -> c = d.
Proof using Hp.
  intros Hc Hd E. rewrite (hash3_forgets x y) in E. apply Z.bits_inj'. intros i Hi.
  destruct (Z.lt_ge_cases i 8) as [L|L].
  - apply (f_equal (fun z => Z.testbit z i)) in E. unfold hash3 in E. cbn beta in E.
    rewrite (update_bit _ c), (update_bit _ d) in E by lia.
    pose proof (p_h _ Hp). rewrite !(proj2 (Z.ltb_lt _ _)) in E by lia. cbn [andb] in E.
    destruct (Z.testbit _ (i - _)), (Z.testbit c i), (Z.testbit d i); done.
  - by rewrite !(testbit_high _ 8) by (done || lia).
Qed.

(** [s->ins_h] is ready for the insertion of the string at [pos]. *)
Definition primed (s : lz) (pos : Z) : Prop :=
  exists x, ins_h s = UPDATE_HASH p (UPDATE_HASH p x (get (window s) pos)) (get (window s) (pos + 1)).
Definition at_hash (w : list Z) (i : Z) : Z := hash3 0 (get w i) (get w (i + 1)) (get w (i + 2)).

(** [UPDATE_HASH] after the first byte. *)
Lemma primed_start s pos : bytes_ok (window s) -> ins_h s = UPDATE_HASH p (get (window s) pos) (get (window s) (pos + 1)) -> primed s pos.
Proof using Hp.
  intros Hb Ei. exists 0. rewrite Ei. f_equal. unfold UPDATE_HASH, u32. rewrite Z.shiftl_0_l. change (0 mod 2 ^ 32) with 0.
  rewrite Z.lxor_0_l. destruct sizes as (_ & S2 & _ & _ & E). unfold hash_mask. rewrite E, land_ones_mod by (pose proof (p_h _ Hp); lia).
  symmetry. apply Z.mod_small. rewrite <- E. pose proof (get_byte (window s) pos Hb) as B. unfold byte_ok in B. lia.
Qed.

(** ** The chains *)

(** [ins]: the strings inserted, all before [pos]; [from]: where chains are followed
    from next.  An entry is empty, or too old to be followed, or leads to a string of
    that hash. *)
Definition fine (ins : Z -> Prop) (from : Z) (s : lz) (b h q : Z) : Prop :=
  q = NIL \/ (0 <= q /\ q + MAX_DIST p < from) \/ (ins q /\ q < b /\ at_hash (window s) q = h).

Record chains (ins : Z -> Prop) (pos from : Z) (s : lz) : Prop := {
  c_head : Z.of_nat (length (head s)) = hash_size p;
  c_prev : Z.of_nat (length (prev s)) = w_size p;
  c_ins q : ins q -> 0 <= q < pos /\ q + 2 < strstart s + lookahead s;
  c_heads h : 0 <= h < hash_size p -> fine ins from s pos h (get (head s) h);
  c_prevs q : ins q -> from <= q + MAX_DIST p ->
    fine ins from s q (at_hash (window s) q) (get (prev s) (q mod w_size p))
}.

Lemma fine_grows ins ins' pos pos' s s' b b' h q : fine ins pos s b h q -> pos <= pos' -> b <= b' ->
  (forall i, ins i -> ins' i) -> (forall i, ins i -> at_hash (window s') i = at_hash (window s) i) ->
  fine ins' pos' s' b' h q.
Proof using.
  intros F Hpos Hb Hi Hw. destruct F as [F|[F|(F1 & F2 & F3)]]; [by left|right; left; lia|right; right].
  split; [auto|]. split; [lia|]. by rewrite Hw.
Qed.

(** Chains do not depend on what is not data. *)
Lemma chains_ext ins pos from s s' : chains ins pos from s -> head s' = head s -> prev s' = prev s ->
  strstart s + lookahead s <= strstart s' + lookahead s' ->
  (forall i, 0 <= i < strstart s + lookahead s -> get (window s') i = get (window s) i) -> chains ins pos from s'.
Proof using.
  intros [Ch Cp Ci Chs Cps] Eh Ep He Hw.
  assert (Ha : forall i, ins i -> at_hash (window s') i = at_hash (window s) i).
  { intros i Hi. destruct (Ci i Hi). unfold at_hash. by rewrite !Hw by lia. }
  constructor; rewrite ?Eh, ?Ep; [done..| | |].
  - intros q Hq. destruct (Ci q Hq). lia.
  - intros h Hh. apply (fine_grows ins ins from from s _ pos); auto; lia.
  - intros q Hq Hr. rewrite (Ha q Hq). apply (fine_grows ins ins from from s _ q); auto; lia.
Qed.

(** They may be followed from later on, and more strings may be left out. *)
Lemma chains_later ins pos pos' from from' s : chains ins pos from s -> pos <= pos' -> from <= from' -> chains ins pos' from' s.
Proof using.
  intros [Ch Cp Ci Chs Cps] Hp' Hf. constructor; [done..| | |].
  - intros q Hq. destruct (Ci q Hq). lia.
  - intros h Hh. apply (fine_grows ins ins from from' s _ pos); auto.
  - intros q Hq Hr. apply (fine_grows ins ins from from' s _ q); auto; [apply Cps; auto; lia|lia].
Qed.

(** No string reaches beyond the data, so the last two need not be counted. *)
Lemma chains_back ins pos pos' from s : chains ins pos from s -> strstart s + lookahead s - 2 <= pos' -> chains ins pos' from s.
Proof using.
  intros [Ch Cp Ci Chs Cps] Hb. constructor; [done..| | |done].
  - intros q Hq. destruct (Ci q Hq). lia.
  - intros h Hh. destruct (Chs h Hh) as [F|[F|(F1 & F2 & F3)]]; [by left|by right; left|right; right].
    destruct (Ci _ F1). split; [done|]. split; [lia|done].
Qed.

Lemma no_chains pos from s : Z.of_nat (length (head s)) = hash_size p -> Z.of_nat (length (prev s)) = w_size p ->
  (forall h, get (head s) h = NIL) -> chains (fun _ => False) pos from s.
Proof using. intros Ch Cp E. constructor; [done..| |]; [intros h _; by left|done]. Qed.

Lemma mod_apart a b n : 0 < n -> 0 < b - a < n -> a mod n <> b mod n.
Proof. intros Hn Hd E. pose proof (Z.div_mod a n ltac:(lia)). pose proof (Z.div_mod b n ltac:(lia)).
  assert (b - a = n * (b / n - a / n)) by lia. destruct (Z.le_gt_cases (b / n - a / n) 0); nia. Qed.

(** The strings of [ins] and that at [pos]. *)
Definition with_string (ins : Z -> Prop) (pos : Z) : Z -> Prop := fun i => ins i \/ i = pos.

Lemma insert_chains ins pos from s : chains ins pos from s -> pos <= from -> primed s pos -> 0 <= pos < 65536 -> pos + 2 < strstart s + lookahead s ->
  let s' := fst (insert_at p s pos) in
  chains (with_string ins pos) (pos + 1) from s' /\ primed s' (pos + 1) /\
  fine ins from s pos (at_hash (window s) pos) (snd (insert_at p s pos)) /\
  s' = with_hash s (prev s') (head s') (ins_h s').
Proof using Hp.
  intros C Hfrom [x Ex] Hpos Hend. destruct sizes as (Sw & Sh & Sm & _ & _).
  unfold insert_at. change (MIN_MATCH - 1) with 2. cbn [fst snd]. set (h := UPDATE_HASH p (ins_h s) (get (window s) (pos + 2))).
  assert (Hh : h = at_hash (window s) pos).
  { unfold h. rewrite Ex. unfold at_hash. change (hash3 x (get (window s) pos) (get (window s) (pos + 1)) (get (window s) (pos + 2)) =
      hash3 0 (get (window s) pos) (get (window s) (pos + 1)) (get (window s) (pos + 2))).
    apply hash3_forgets. }
  assert (Rh : 0 <= h < hash_size p) by apply update_range.
  pose proof (c_heads _ _ _ _ C h Rh) as F. pose proof C as [Ch Cp Ci Chs Cps].
  rewrite land_w_mask by done. pose proof (Z.mod_pos_bound pos (w_size p) ltac:(lia)) as Rm.
  split; [|split; [|split; [|done]]].
  - constructor; lz_fields; rewrite ?length_set; [done..| | |].
    + intros q [Hq| ->]; [destruct (Ci q Hq)|]; lia.
    + intros i Hi. rewrite get_set by lia. destruct (Z.eqb_spec i h) as [->|N].
      * right; right. rewrite u16_id by (change (2 ^ 16) with 65536; lia). split; [by right|]. split; [lia|by rewrite Hh].
      * apply (fine_grows ins _ from _ s _ pos); auto; [lia..|by left].
    + intros q Hq Hr. rewrite get_set by (try apply Z.mod_pos_bound; lia). destruct Hq as [Hq| ->].
      * destruct (Ci q Hq) as [Hq1 Hq2]. rewrite (proj2 (Z.eqb_neq _ _)) by (apply mod_apart; lia).
        apply (fine_grows ins _ from _ s _ q); [apply Cps; [done|lia]|lia|lia|by left|done].
      * rewrite Z.eqb_refl, <- Hh. apply (fine_grows ins _ from _ s _ pos); [done|lia|lia|by left|done].
  - exists (UPDATE_HASH p x (get (window s) pos)). lz_fields. unfold h. rewrite Ex.
    by replace (pos + 1 + 1) with (pos + 2) by lia.
  - by rewrite <- Hh.
Qed.

(** ** The window holds the end of what was read *)

(** [D]: all the input read so far. *)
Record holds (D : list Z) (s : lz) : Prop := {
  h_size : Z.of_nat (length (window s)) = window_size p;
  h_bytes : bytes_ok (window s);
  h_pos : 0 <= strstart s;
  h_look : 0 <= lookahead s;
  h_room : strstart s + lookahead s <= window_size p;
  h_data : strstart s + lookahead s <= Z.of_nat (length D);
  h_same i : 0 <= i < strstart s + lookahead s ->
    get (window s) i = get D (Z.of_nat (length D) - (strstart s + lookahead s) + i);
  h_high : 0 <= high_water s
}.

Definition shifted (ins : Z -> Prop) : Z -> Prop := fun i => 0 <= i /\ ins (i + w_size p).

(** What sliding does to the rest of the state. *)
Record slid (k : Z) (s s' : lz) : Prop := {
  d_strstart : strstart s' = strstart s - k;
  d_block : block_start s' = block_start s - k;
  d_match : u32 (match_start s') = u32 (match_start s - k);
  d_same : match_length s' = match_length s /\ prev_match s' = prev_match s /\ prev_length s' = prev_length s /\
    match_available s' = match_available s
}.

Lemma slide_entry_fine ins pos s s' b h q : fine ins pos s b h q ->
  (forall i, shifted ins i -> at_hash (window s') i = at_hash (window s) (i + w_size p)) ->
  (forall i, ins i -> 0 <= i < 65536 + w_size p) -> pos <= 65536 ->
  fine (shifted ins) (pos - w_size p) s' (b - w_size p) h (slide_entry p q).
Proof using Hp.
  intros F Hw Hi Hpos. destruct sizes as (Sw & Sh & Sm & _ & _). unfold slide_entry. destruct (Z.leb_spec (w_size p) q); [|by left].
  destruct F as [F|[F|(F1 & F2 & F3)]].
  - unfold NIL in F. lia.
  - right; left. rewrite u16_id by (change (2 ^ 16) with 65536; lia). lia.
  - right; right. pose proof (Hi q F1). rewrite u16_id by (change (2 ^ 16) with 65536; lia). unfold shifted at 1.
    replace (q - w_size p + w_size p) with q by lia. split; [split; [lia|done]|]. split; [lia|].
    rewrite Hw; [by replace (q - w_size p + w_size p) with q by lia|]. split; [lia|].
    by replace (q - w_size p + w_size p) with q by lia.
Qed.

Lemma slide_ok D s more : holds D s -> w_size p + MAX_DIST p <= strstart s -> more = window_size p - lookahead s - strstart s ->
  let s' := slide p s more in
  holds D s' /\ slid (w_size p) s s' /\ lookahead s' = lookahead s /\ s_insert s' = s_insert s /\
  (forall i, 0 <= i < strstart s' + lookahead s' -> get (window s') i = get (window s) (i + w_size p)) /\
  head s' = map (slide_entry p) (head s) /\ prev s' = map (slide_entry p) (prev s) /\ ins_h s' = ins_h s.
Proof using Hp.
  intros [Hs Hb Hp0 Hl Hr Hd Hw Hh] Hst ->. cbv zeta. destruct sizes as (Sw & Sh & Sm & _ & _). unfold window_size in *.
  unfold slide, slide_hash. lz_fields.
  assert (Em : u32 (w_size p - (2 * w_size p - lookahead s - strstart s)) = lookahead s + strstart s - w_size p).
  { rewrite u32_id by (change (2 ^ 32) with 4294967296; lia). lia. }
  rewrite Em, (u32_id (strstart s - w_size p)) by (change (2 ^ 32) with 4294967296; lia).
  set (n := lookahead s + strstart s - w_size p).
  assert (Ln : Z.of_nat (length (bytes_at (window s) (w_size p) n)) = n) by (apply length_bytes_at; lia).
  assert (Gw : forall i, 0 <= i < strstart s - w_size p + lookahead s ->
    get (zmemcpy (window s) 0 (bytes_at (window s) (w_size p) n)) i = get (window s) (i + w_size p)).
  { intros i Hi. rewrite get_zmemcpy, Ln by lia. rewrite (proj2 (Z.leb_le _ _)), (proj2 (Z.ltb_lt _ _)) by lia. cbn [andb].
    rewrite get_bytes_at by lia. f_equal. lia. }
  split; [|split; [constructor; try done; apply Z.mod_mod; done|done]].
  constructor; lz_fields; unfold window_size; try lia.
  - rewrite length_zmemcpy; lia.
  - apply zmemcpy_bytes; [done|by apply bytes_at_bytes].
  - intros i Hi. rewrite Gw, Hw by lia. f_equal. lia.
Qed.

Lemma slide_chains D s more ins pos from : holds D s -> w_size p + MAX_DIST p <= strstart s ->
  more = window_size p - lookahead s - strstart s -> chains ins pos from s -> pos <= strstart s -> from <= strstart s ->
  w_size p <= pos -> chains (shifted ins) (pos - w_size p) (from - w_size p) (slide p s more).
Proof using Hp.
  intros H Hst Em [Ch Cp Ci Chs Cps] Hpos Hfrom Hw. destruct sizes as (Sw & Sh & Sm & _ & _).
  destruct (slide_ok D s more H Hst Em) as (H' & Sd & El & Ei & Gw & Eh & Ep & _). cbv zeta in *. set (s' := slide p s more) in *.
  pose proof (d_strstart _ _ _ Sd) as Est. destruct H as [_ _ Hp0 Hl Hr _ _ _]. unfold window_size in Hr.
  assert (Ha : forall i, shifted ins i -> at_hash (window s') i = at_hash (window s) (i + w_size p)).
  { intros i [Hi1 Hi2]. destruct (Ci _ Hi2). unfold at_hash. rewrite !Gw by lia. f_equal; f_equal; lia. }
  assert (Hi : forall i, ins i -> 0 <= i < 65536 + w_size p) by (intros i Hi; destruct (Ci i Hi); lia).
  constructor; rewrite ?Eh, ?Ep, ?length_map; [done..| | |].
  - intros q [Hq1 Hq2]. destruct (Ci _ Hq2). lia.
  - intros h Hh. rewrite get_map by (unfold slide_entry; rewrite (proj2 (Z.leb_gt _ _)) by lia; done).
    apply (slide_entry_fine ins from s); auto. lia.
  - intros q [Hq1 Hq2] Hr'. rewrite get_map by (unfold slide_entry; rewrite (proj2 (Z.leb_gt _ _)) by lia; done).
    rewrite (Ha q) by done. replace q with (q + w_size p - w_size p) at 1 by lia.
    assert (Eq : q mod w_size p = (q + w_size p) mod w_size p) by (rewrite <- (Z.mod_add q 1 (w_size p)) by lia; f_equal; lia).
    rewrite Eq. apply (slide_entry_fine ins from s); auto; [|lia]. apply Cps; [done|lia].
Qed.

Lemma slide_primed D s more pos : holds D s -> w_size p + MAX_DIST p <= strstart s ->
  more = window_size p - lookahead s - strstart s -> primed s pos -> w_size p <= pos -> pos + 1 < strstart s + lookahead s ->
  primed (slide p s more) (pos - w_size p).
Proof using Hp.
  intros H Hst Em [x Ex] Hpos Hp1.
  destruct (slide_ok D s more H Hst Em) as (_ & Sd & El & _ & Gw & _ & _ & Ei). cbv zeta in *. pose proof (d_strstart _ _ _ Sd).
  exists x. rewrite Ei, !Gw, Ex by lia. f_equal; [f_equal|]; f_equal; lia.
Qed.

(** ** Reading input *)

(** The chains reach up to the strings still to be inserted, and when there are three
    bytes to look at there are none. *)
Definition hashed (s : lz) : Prop :=
  exists ins, chains ins (strstart s - s_insert s) (strstart s) s /\
    (MIN_MATCH <= lookahead s -> s_insert s = 0 /\ primed s (strstart s)).
Definition insert_ok (s : lz) : Prop := 0 <= s_insert s <= 2 /\ s_insert s <= strstart s.

(** States that differ in the hash table only. *)
Definition rehashed (s s' : lz) : Prop := s' = with_insert (with_hash s (prev s') (head s') (ins_h s')) (s_insert s').

Lemma insert_loop_ok n : forall s str ins, s_insert s = Z.of_nat n -> (n <= 2)%nat -> str = strstart s - s_insert s -> 0 <= str -> strstart s <= 65536 ->
  chains ins str (strstart s) s -> primed s str -> (0 < n)%nat /\ MIN_MATCH <= lookahead s + s_insert s \/ n = 0%nat ->
  let s' := insert_loop p n s str in
  rehashed s s' /\ 0 <= s_insert s' <= s_insert s /\ hashed s'.
Proof using Hp.
  unfold MIN_MATCH. induction n as [|n IH]; intros s str ins En Hn Es Hs Hm C P Hl; cbv zeta.
  - cbn [insert_loop]. split; [by destruct s|]. split; [lia|]. exists ins. rewrite <- Es. split; [done|].
    intros _. split; [done|]. by replace (strstart s) with str by lia.
  - destruct Hl as [[_ Hl]|]; [|done]. cbn [insert_loop].
    destruct (insert_chains ins str _ s C ltac:(lia) P ltac:(lia) ltac:(lia)) as (C1 & P1 & _ & E1). set (s1 := fst (insert_at p s str)) in *.
    set (s2 := with_insert s1 (s_insert s1 - 1)).
    assert (R : rehashed s s2) by (unfold s2; rewrite E1; done).
    assert (E2 : s_insert s2 = Z.of_nat n) by (unfold s2; rewrite E1; lz_fields; lia).
    assert (E3 : strstart s2 = strstart s /\ lookahead s2 = lookahead s) by (unfold s2; rewrite E1; done).
    assert (C2 : chains (with_string ins str) (str + 1) (strstart s2) s2) by (rewrite (proj1 E3); apply (chains_ext _ _ _ s1); unfold s2; lz_fields; done || lia).
    unfold MIN_MATCH. destruct (Z.ltb_spec (lookahead s2 + s_insert s2) 3) as [L|L].
    + split; [done|]. split; [lia|]. exists (with_string ins str). replace (strstart s2 - s_insert s2) with (str + 1) by lia.
      split; [done|]. unfold MIN_MATCH. lia.
    + destruct (IH s2 (str + 1) (with_string ins str)) as (R' & B' & H'); [done|lia|lia|lia|lia|done|done|lia|].
      cbv zeta in *. set (s' := insert_loop p n s2 (str + 1)) in *. split; [|split; [lia|done]].
      unfold rehashed in *. rewrite R'. rewrite R. done.
Qed.

(** The part of [holds] and [slid] a new hash table leaves alone. *)
Lemma rehashed_holds D s s' : rehashed s s' -> holds D s -> holds D s'.
Proof using. intros E [? ? ? ? ? ? ? ?]. rewrite E. by constructor. Qed.

Lemma init_hash_ok s D : holds D s -> insert_ok s -> strstart s < 65536 ->
  let s' := init_hash p s in
  rehashed s s' /\ insert_ok s' /\
  ((exists ins, chains ins (strstart s - s_insert s) (strstart s) s) -> hashed s').
Proof using Hp.
  intros H [I1 I2] Hst. cbv zeta. unfold init_hash. change MIN_MATCH with 3. destruct (Z.leb_spec 3 (lookahead s + s_insert s)) as [L|L].
  - set (str := strstart s - s_insert s). set (s1 := with_ins_h s _).
    assert (P : primed s1 str) by (apply primed_start; [apply H|done]).
    assert (G : forall ins, chains ins str (strstart s1) s1 ->
      let s' := insert_loop p (Z.to_nat (s_insert s)) s1 str in rehashed s1 s' /\ 0 <= s_insert s' <= s_insert s1 /\ hashed s').
    { intros ins C. destruct (Z.eq_dec (s_insert s) 0) as [Z0|N0].
      - apply (insert_loop_ok (Z.to_nat (s_insert s)) s1 str ins); unfold s1; lz_fields; try done; [lia|lia|lia|lia|right; lia].
      - apply (insert_loop_ok (Z.to_nat (s_insert s)) s1 str ins); unfold s1; lz_fields; try done; unfold MIN_MATCH; lia. }
    assert (F : let s' := insert_loop p (Z.to_nat (s_insert s)) s1 str in rehashed s1 s' /\ 0 <= s_insert s' <= s_insert s1).
    { cbv zeta. clear G P. assert (Hn : s_insert s1 = Z.of_nat (Z.to_nat (s_insert s))) by (unfold s1; lz_fields; lia).
      revert Hn. generalize (Z.to_nat (s_insert s)) as n. intros n. generalize s1, str. clear.
      induction n as [|n IH]; intros s str En; cbn [insert_loop]; [split; [by destruct s|lia]|].
      set (s2 := with_insert _ _). assert (R : rehashed s s2) by done.
      assert (E2 : s_insert s2 = Z.of_nat n) by (unfold s2, insert_at; cbn [fst]; lz_fields; lia).
      destruct (_ <? _); [split; [done|lia]|]. destruct (IH s2 (str + 1) E2) as [R' B']. split; [|lia].
      unfold rehashed in *. rewrite R', R. done. }
    destruct F as [F1 F2]. cbv zeta in *. set (s' := insert_loop _ _ _ _) in *.
    assert (R : rehashed s s') by (unfold rehashed in *; rewrite F1; done).
    split; [done|]. split.
    + assert (Ei : s_insert s1 = s_insert s) by done. assert (Es : strstart s' = strstart s) by (by rewrite R).
      unfold insert_ok. lia.
    + intros [ins C]. apply (G ins). apply (chains_ext _ _ _ s); unfold s1; lz_fields; done || lia.
  - split; [by destruct s|]. split; [done|]. intros [ins C]. exists ins. split; [done|]. unfold MIN_MATCH. lia.
Qed.

(** The checksum of the data is the one the wrapper prescribes. *)
Definition check_ok (wrap adl : Z) (D : list Z) : Prop :=
  (wrap = 1 -> adl = pack (adler_ref (1, 0) D)) /\ (wrap = 2 -> adl = crc_spec 0 D).

(** [taken] was read from the input. *)
Record took (wrap : Z) (taken : list Z) (strm strm' : z_stream) : Prop := {
  k_in : next_in strm = taken ++ next_in strm';
  k_out : next_out strm' = next_out strm /\ avail_out strm' = avail_out strm /\ total_out strm' = total_out strm;
  k_total : total_in strm' = u64 (total_in strm + Z.of_nat (length taken)) \/ taken = [] /\ total_in strm' = total_in strm;
  k_check D : bytes_ok D -> bytes_ok taken -> check_ok wrap (adler strm) D -> check_ok wrap (adler strm') (D ++ taken)
}.

Lemma took_none wrap strm : took wrap [] strm strm.
Proof using. constructor; auto. intros D _ _. by rewrite app_nil_r. Qed.

Lemma check_bytes_ok wrap adl D buf : bytes_ok D -> bytes_ok buf -> check_ok wrap adl D ->
  check_ok wrap (check_bytes wrap adl buf) (D ++ buf).
Proof using.
  intros Hd Hb [C1 C2]. unfold check_bytes. split; intros E; subst wrap; cbn [Z.eqb Pos.eqb].
  - rewrite C1 by done. unfold adler32. rewrite (adler32_z_spec 64 false ltac:(lia)), <- adler_ref_app; [done| |done].
    apply adler_ref_ok. unfold sums_ok, BASE. cbn. lia.
  - rewrite C2 by done. rewrite crc32_spec by (try apply crc_spec_ok; done || (split; cbn; lia)). apply crc_spec_app.
Qed.

Lemma read_buf_ok wrap strm size : 0 <= size ->
  let '(buf, strm') := read_buf wrap strm size in
  took wrap buf strm strm' /\ Z.of_nat (length buf) = Z.min size (avail_in strm).
Proof using.
  intros Hs. unfold read_buf, avail_in. set (n := Z.of_nat (length (next_in strm))).
  assert (E : (if size <? n then size else n) = Z.min size n) by (destruct (Z.ltb_spec size n); lia). rewrite E.
  destruct (Z.eqb_spec (Z.min size n) 0) as [Z0|N0]; [split; [apply took_none|cbn; lia]|].
  set (k := Z.to_nat (Z.min size n)).
  assert (Lk : Z.of_nat (length (take k (next_in strm))) = Z.min size n) by (rewrite length_take; unfold k, n; lia).
  split; [|done]. constructor; cbn [next_in next_out avail_out total_in total_out adler]; [by rewrite take_drop|done|left; by rewrite Lk|].
  intros D Hd Hb C. by apply check_bytes_ok.
Qed.

(** One turn of the loop: what was [D] becomes [D ++ taken]. *)
Record filled (D taken : list Z) (wrap : Z) (s s' : lz) (strm strm' : z_stream) : Prop := {
  f_took : took wrap taken strm strm';
  f_holds : holds (D ++ taken) s';
  f_slid : exists k, (k = 0 \/ k = w_size p /\ MAX_DIST p <= strstart s') /\ slid k s s';
  f_look : lookahead s' = lookahead s + Z.of_nat (length taken);
  f_insert : insert_ok s';
  f_hashed : hashed s -> hashed s';
  f_start : strstart s' < w_size p + MAX_DIST p;
  f_done : next_in strm' = [] \/ MIN_LOOKAHEAD <= lookahead s'
}.

Lemma maybe_slide_ok D s : holds D s -> insert_ok s ->
  let more := u32 (window_size p - lookahead s - strstart s) in
  let '(s', more') := if w_size p + MAX_DIST p <=? strstart s then (slide p s more, u32 (more + w_size p)) else (s, more) in
  holds D s' /\ insert_ok s' /\ (exists k, (k = 0 \/ k = w_size p /\ MAX_DIST p <= strstart s') /\ slid k s s') /\ lookahead s' = lookahead s /\
  strstart s' < w_size p + MAX_DIST p /\ more' = window_size p - lookahead s' - strstart s' /\
  (hashed s -> hashed s') /\ (lookahead s < MIN_LOOKAHEAD -> 0 < more').
Proof using Hp.
  intros H [I1 I2]. cbv zeta. destruct sizes as (Sw & Sh & Sm & _ & _). pose proof H as [_ _ H1 H2 H3 _ _ _]. unfold window_size in *.
  rewrite u32_id by (change (2 ^ 32) with 4294967296; lia). set (more := 2 * w_size p - lookahead s - strstart s).
  unfold MIN_LOOKAHEAD, MAX_MATCH, MIN_MATCH.
  destruct (Z.leb_spec (w_size p + MAX_DIST p) (strstart s)) as [L|L].
  - destruct (slide_ok D s more H L eq_refl) as (H' & Sd & El & Ei & _). cbv zeta in *. pose proof (d_strstart _ _ _ Sd) as Es.
    rewrite u32_id by (change (2 ^ 32) with 4294967296; unfold more; lia).
    split; [done|]. split; [unfold insert_ok; lia|]. split; [exists (w_size p); split; [right; split; [done|lia]|done]|]. split; [done|]. split; [lia|]. split; [lia|].
    split; [|lia]. intros (ins & C & P). exists (shifted ins). rewrite (d_strstart _ _ _ Sd), Ei.
    replace (strstart s - w_size p - s_insert s) with (strstart s - s_insert s - w_size p) by lia. split.
    + apply (slide_chains D); auto; lia.
    + rewrite El. intros Hl. destruct (P Hl) as [P1 P2]. split; [done|]. unfold MIN_MATCH in Hl. apply (slide_primed D); auto; lia.
  - split; [done|]. split; [done|]. split; [exists 0; split; [auto|]|split; [done|split; [done|split; [lia|split; [done|lia]]]]].
    constructor; rewrite ?Z.sub_0_r; done.
Qed.

Lemma fill_turn_ok D wrap s strm : holds D s -> insert_ok s -> bytes_ok (next_in strm) -> lookahead s < MIN_LOOKAHEAD ->
  let '(go, s', strm') := fill_turn p wrap s strm in
  (exists taken, filled D taken wrap s s' strm strm') /\ (go = false -> next_in strm' = []).
Proof using Hp.
  intros H I Hin Hl. pose proof (maybe_slide_ok D s H I) as M. cbv zeta in M. unfold fill_turn. cbv zeta.
  destruct (if w_size p + MAX_DIST p <=? strstart s then _ else _) as [s1 more].
  destruct M as (H1 & I1 & (k & Hk & Sd) & El & Est & Em & Hh & Hm). specialize (Hm Hl). destruct sizes as (Sw & Sh & Sm & _ & _).
  unfold avail_in. destruct (Z.eqb_spec (Z.of_nat (length (next_in strm))) 0) as [E0|N0].
  { assert (En : next_in strm = []) by (destruct (next_in strm); [done|cbn in E0; lia]). split; [|done]. exists [].
    constructor; try done; [apply took_none|by rewrite app_nil_r|by exists k|cbn; lia|by left]. }
  pose proof (read_buf_ok wrap strm more ltac:(lia)) as R. destruct (read_buf wrap strm more) as [buf strm']. destruct R as [T Lb].
  unfold avail_in in Lb. pose proof H1 as [G1 G2 G3 G4 G5 G6 G7 G8]. unfold window_size in *.
  assert (Hb : bytes_ok buf) by (rewrite (k_in _ _ _ _ T) in Hin; by apply Forall_app in Hin as [Hin _]).
  change (lookahead (with_window s1 _)) with (lookahead s1). change (strstart (with_window s1 _)) with (strstart s1).
  rewrite (u32_id (lookahead s1 + _)) by (change (2 ^ 32) with 4294967296; lia).
  set (s2 := with_pos _ _ _).
  assert (H2 : holds (D ++ buf) s2).
  { unfold s2. constructor; lz_fields; try (rewrite ?length_app; unfold window_size; lia).
    - unfold window_size. rewrite length_zmemcpy by lia. done.
    - by apply zmemcpy_bytes.
    - intros i Hi. rewrite get_zmemcpy by lia. rewrite length_app.
      destruct (Z.leb_spec (strstart s1 + lookahead s1) i) as [L|L]; cbn [andb].
      + rewrite (proj2 (Z.ltb_lt _ _)) by lia. rewrite get_app_r by lia. f_equal. lia.
      + rewrite G7, get_app_l by lia. f_equal. lia. }
  assert (I2 : insert_ok s2) by done.
  destruct (init_hash_ok s2 (D ++ buf) H2 I2 ltac:(unfold s2; lz_fields; lia)) as (R3 & I3 & C3). cbv zeta in *.
  set (s3 := init_hash p s2) in *.
  assert (Es : strstart s3 = strstart s1 /\ lookahead s3 = lookahead s1 + Z.of_nat (length buf)) by (rewrite R3; done).
  split; [|done]. exists buf. constructor.
  - done.
  - by apply (rehashed_holds _ s2).
  - exists k. split; [lia|]. destruct Sd. rewrite R3. by constructor.
  - lia.
  - done.
  - intros C. apply C3. destruct (Hh C) as (ins & C1 & _). exists ins. apply (chains_ext _ _ _ s1); unfold s2; lz_fields; [done..|lia|].
    intros i Hi. rewrite get_zmemcpy by lia. by rewrite (proj2 (Z.leb_gt _ _)) by lia.
  - lia.
  - unfold MIN_LOOKAHEAD, MAX_MATCH, MIN_MATCH. destruct (Z.le_gt_cases more (Z.of_nat (length (next_in strm)))) as [L|L].
    + right. lia.
    + left. rewrite (k_in _ _ _ _ T), length_app in Lb. destruct (next_in strm'); [done|]. cbn in Lb, L.
      rewrite (k_in _ _ _ _ T), length_app in L. cbn in L. lia.
Qed.

(** Zeroing touches only what lies behind the data. *)
Lemma zero_ahead_ok D s : holds D s -> strstart s + lookahead s <= window_size p ->
  let s' := zero_ahead p s in
  holds D s' /\ s' = with_high (with_window s (window s')) (high_water s') /\
  forall i, 0 <= i < strstart s + lookahead s -> get (window s') i = get (window s) i.
Proof using Hp.
  intros H Hr. pose proof H as [G1 G2 G3 G4 G5 G6 G7 G8]. destruct sizes as (Sw & _).
  assert (W : forall off n h, strstart s + lookahead s <= off -> 0 <= n -> off + n <= window_size p -> 0 <= h ->
    let s' := with_high (with_window s (zmemzero (window s) off n)) h in
    holds D s' /\ s' = with_high (with_window s (window s')) (high_water s') /\
    forall i, 0 <= i < strstart s + lookahead s -> get (window s') i = get (window s) i).
  { intros off n h Ho Hn Hw Hh. cbv zeta.
    assert (Ln : Z.of_nat (length (replicate (Z.to_nat n) 0)) = n) by (rewrite length_replicate; lia).
    assert (Gi : forall i, 0 <= i < strstart s + lookahead s -> get (zmemzero (window s) off n) i = get (window s) i).
    { intros i Hi. unfold zmemzero. rewrite get_zmemcpy, Ln by lia. by rewrite (proj2 (Z.leb_gt _ _)) by lia. }
    split; [|split; [done|exact Gi]]. constructor; lz_fields; try done.
    - unfold zmemzero. rewrite length_zmemcpy by lia. done.
    - apply zmemcpy_bytes; [done|apply zeros_bytes].
    - intros i Hi. rewrite Gi by done. by apply G7. }
  unfold zero_ahead, WIN_INIT, MAX_MATCH. destruct (Z.ltb_spec (high_water s) (window_size p)); [|by split; [done|split; [by destruct s|]]].
  cbv zeta. destruct (Z.ltb_spec (high_water s) (strstart s + lookahead s)).
  { destruct (Z.ltb_spec 258 (window_size p - (strstart s + lookahead s))); apply W; lia. }
  destruct (Z.ltb_spec (high_water s) (strstart s + lookahead s + 258)); [|by split; [done|split; [by destruct s|]]].
  destruct (Z.ltb_spec (window_size p - high_water s) (strstart s + lookahead s + 258 - high_water s)); apply W; lia.
Qed.

(** [fill_window] reads as the loop of one turn does. *)
Lemma fill_window_ok D wrap s strm : holds D s -> insert_ok s -> bytes_ok (next_in strm) -> lookahead s < MIN_LOOKAHEAD ->
  let '(s', strm') := fill_window p wrap s strm in exists taken, filled D taken wrap s s' strm strm'.
Proof using Hp.
  intros H I Hin Hl. pose proof (fill_turn_ok D wrap s strm H I Hin Hl) as T. unfold fill_window.
  assert (E : forall go s1 strm1, fill_turn p wrap s strm = (go, s1, strm1) -> 
    (next_in strm1 = [] \/ MIN_LOOKAHEAD <= lookahead s1) -> fill_loop p 2 wrap s strm = (s1, strm1)).
  { intros go s1 strm1 E F. change (fill_loop p 2 wrap s strm) with (let '(go, s, strm) := fill_turn p wrap s strm in
      if go && (lookahead s <? MIN_LOOKAHEAD) && negb (avail_in strm =? 0) then fill_loop p 1 wrap s strm else (s, strm)).
    rewrite E. destruct F as [F|F].
    - unfold avail_in. rewrite F. by rewrite andb_false_r.
    - rewrite (proj2 (Z.ltb_ge _ _)) by done. by rewrite andb_false_r. }
  destruct (fill_turn p wrap s strm) as [[go s1] strm1]. destruct T as [[taken [T1 T2 (k & Hk & T3) T4 T5 T6 T7 T8]] _].
  rewrite (E go s1 strm1 eq_refl T8). destruct (zero_ahead_ok _ s1 T2 (h_room _ _ T2)) as (Z1 & Z2 & Z3). cbv zeta in *.
  set (s2 := zero_ahead p s1) in *. assert (Es : strstart s2 = strstart s1 /\ lookahead s2 = lookahead s1 /\ s_insert s2 = s_insert s1)
    by (rewrite Z2; done). destruct Es as (E1 & E2 & E3).
  exists taken. constructor; try done.
  - exists k. split; [lia|]. destruct T3. rewrite Z2. by constructor.
  - congruence.
  - unfold insert_ok in *. lia.
  - intros C. destruct (T6 C) as (ins & C1 & C2). exists ins. rewrite E1, E2, E3. split.
    + apply (chains_ext _ _ _ s1); [done|by rewrite Z2..|lia|done].
    + intros L. destruct (C2 L) as [C3 [x C4]]. split; [done|]. exists x. unfold MIN_MATCH in L.
      pose proof (h_pos _ _ T2). rewrite !Z3 by lia. by rewrite Z2.
  - lia.
  - destruct T8; [by left|right; lia].
Qed.

(** ** Matches *)

Lemma equal_run_spec w n : forall scan mtch, let r := equal_run w n scan mtch in
  0 <= r <= Z.of_nat n /\ forall i, 0 < i <= r -> get w (mtch + i) = get w (scan + i).
Proof using.
  induction n as [|n IH]; intros scan mtch; cbv zeta; cbn [equal_run]; [split; [lia|intros; lia]|].
  destruct (Z.eqb_spec (get w (scan + 1)) (get w (mtch + 1))) as [E|E]; [|split; [lia|intros; lia]].
  destruct (IH (scan + 1) (mtch + 1)) as [R F]. cbv zeta in *. split; [lia|]. intros i Hi.
  destruct (Z.eq_dec i 1) as [->|N]; [done|].
  replace (mtch + i) with (mtch + 1 + (i - 1)) by lia. replace (scan + i) with (scan + 1 + (i - 1)) by lia. apply F. lia.
Qed.

(** The loop stops behind [strend], or at the first bytes that differ. *)
Lemma scan_loop_spec w strend fuel : forall scan mtch, strend = scan + 8 * Z.of_nat fuel -> (0 < fuel)%nat ->
  let r := scan_loop w strend fuel scan mtch in
  scan < r <= strend /\ forall i, 0 < i < r - scan -> get w (mtch + i) = get w (scan + i).
Proof using.
  induction fuel as [|fuel IH]; intros scan mtch Es Hf; [lia|]. cbv zeta. cbn [scan_loop].
  pose proof (equal_run_spec w 8 scan mtch) as [R F]. cbv zeta in *. set (n := equal_run w 8 scan mtch) in *. clearbody n.
  destruct (Z.eqb_spec n 8) as [E|E].
  - destruct (Z.ltb_spec (scan + 8) strend) as [L|L]; [|split; [lia|intros i Hi; apply F; lia]].
    destruct (IH (scan + 8) (mtch + 8) ltac:(lia) ltac:(lia)) as [R' F']. cbv zeta in *. set (r := scan_loop _ _ _ _ _) in *.
    split; [lia|]. intros i Hi. destruct (Z.le_gt_cases i 8); [apply F; lia|].
    replace (mtch + i) with (mtch + 8 + (i - 8)) by lia. replace (scan + i) with (scan + 8 + (i - 8)) by lia. apply F'. lia.
  - split; [lia|]. intros i Hi. apply F. lia.
Qed.

(** A match of [len] bytes at [start] for the string at [strstart]. *)
Definition match_at (s : lz) (start len : Z) : Prop :=
  0 <= start < strstart s /\ strstart s - start <= MAX_DIST p /\ len <= MAX_MATCH /\
  forall i, 0 <= i < len -> get (window s) (start + i) = get (window s) (strstart s + i).

Lemma try_match_ok w str cur best : bytes_ok w -> at_hash w cur = at_hash w str ->
  let len := try_match w str cur best in
  len <= MAX_MATCH /\ forall i, 0 <= i < len -> get w (cur + i) = get w (str + i).
Proof using Hp.
  intros Hb Hh. cbv zeta. unfold try_match. destruct (_ || _ || _ || _) eqn:E; [split; [unfold MAX_MATCH; lia|lia]|].
  rewrite !orb_false_iff, !negb_false_iff, !Z.eqb_eq in E. destruct E as [[[_ _] E0] E1].
  assert (E2 : get w (cur + 2) = get w (str + 2)).
  { unfold at_hash in Hh. rewrite E0, E1 in Hh. apply hash3_third in Hh; [done|by apply get_byte..]. }
  pose proof (scan_loop_spec w (str + MAX_MATCH) 32 (str + 2) (cur + 2) ltac:(unfold MAX_MATCH; lia) ltac:(lia)) as [R F].
  cbv zeta in *. set (r := scan_loop _ _ _ _ _) in *. split; [lia|]. intros i Hi.
  destruct (Z.eq_dec i 0) as [->|N0]; [by rewrite !Z.add_0_r|]. destruct (Z.eq_dec i 1) as [->|N1]; [done|].
  destruct (Z.eq_dec i 2) as [->|N2]; [done|].
  replace (cur + i) with (cur + 2 + (i - 2)) by lia. replace (str + i) with (str + 2 + (i - 2)) by lia. apply F. lia.
Qed.

(** A string on the chain that may be followed. *)
Definition candidate (ins : Z -> Prop) (s : lz) (q : Z) : Prop :=
  ins q /\ 0 <= q < strstart s /\ strstart s <= q + MAX_DIST p /\ at_hash (window s) q = at_hash (window s) (strstart s).

(** [s] before, [s'] after the insertion of the string at [strstart]. *)
Lemma chain_loop_ok ins s s' limit nice n : chains ins (strstart s) (strstart s) s -> bytes_ok (window s) ->
  window s' = window s -> strstart s' = strstart s ->
  (forall i, i <> strstart s mod w_size p -> 0 <= i -> get (prev s') i = get (prev s) i) ->
  limit = (if MAX_DIST p <? strstart s then strstart s - MAX_DIST p else NIL) ->
  forall cur best start, candidate ins s cur ->
  let '(best', start') := chain_loop p s' limit nice n cur best start in
  (best' = best /\ start' = start) \/ (best < best' /\ match_at s' start' best').
Proof using Hp.
  intros C Hb Ew Es Eprev El. destruct sizes as (Sw & _ & Sm & _ & _).
  induction n as [|n IH]; intros cur best start (Q1 & Q2 & Q3 & Q4); cbn [chain_loop]; [by left|].
  rewrite Ew, Es. destruct (try_match_ok (window s) (strstart s) cur best Hb Q4) as [T1 T2]. cbv zeta in *.
  set (len := try_match _ _ _ _) in *. clearbody len.
  set (here := if best <? len then _ else _).
  assert (Hx : let '(b, st, _) := here in (b = best /\ st = start) \/ (best < b /\ match_at s' st b)).
  { unfold here. destruct (Z.ltb_spec best len); [right|by left]. split; [done|]. unfold match_at. rewrite Ew, Es.
    split; [done|]. split; [lia|]. done. }
  destruct here as [[b st] stop]. destruct stop; [done|].
  rewrite land_w_mask by done. set (q := get (prev s') (cur mod w_size p)).
  destruct ((limit <? q) && negb (n =? 0)%nat) eqn:Ego; [|done]. apply andb_true_iff in Ego as [Ego _]. apply Z.ltb_lt in Ego.
  assert (Cq : candidate ins s q).
  { assert (Eq : q = get (prev s) (cur mod w_size p)).
    { apply Eprev; [apply mod_apart; lia|apply Z.mod_pos_bound; lia]. }
    pose proof (c_prevs _ _ _ _ C cur Q1 ltac:(lia)) as F. rewrite <- Eq in F. clearbody q. unfold NIL in *.
    destruct (Z.ltb_spec (MAX_DIST p) (strstart s)); destruct F as [F|[F|(F1 & F2 & F3)]]; unfold NIL in *; try lia;
      (destruct (c_ins _ _ _ _ C q F1); split; [done|split; [lia|split; [lia|congruence]]]). }
  specialize (IH q b st Cq). destruct (chain_loop _ _ _ _ _ _ _ _) as [b' st'].
  destruct IH as [[-> ->]|[L M]]; [done|]. right. split; [|done]. destruct Hx as [[-> ->]|[L' _]]; lia.
Qed.

Lemma longest_match_ok ins s cur : chains ins (strstart s) (strstart s) s -> primed s (strstart s) -> bytes_ok (window s) ->
  0 <= strstart s < 65536 -> MIN_MATCH <= lookahead s ->
  let '(s1, hash_head) := INSERT_STRING p s (strstart s) in
  forall s2, window s2 = window s1 -> prev s2 = prev s1 -> strstart s2 = strstart s1 -> lookahead s2 = lookahead s1 ->
  hash_head = cur -> hash_head <> NIL -> strstart s - hash_head <= MAX_DIST p ->
  let '(len, s3) := longest_match p s2 cur in
  s3 = with_match s2 (match_start s3) (match_length s2) /\ len <= lookahead s /\
  (len <= prev_length s2 \/ match_at s2 (match_start s3) len).
Proof using Hp.
  intros C P Hb Hs Hl. unfold INSERT_STRING. unfold MIN_MATCH in Hl. destruct (insert_chains ins (strstart s) (strstart s) s C ltac:(lia) P Hs ltac:(lia)) as (_ & _ & F & E1). cbv zeta in *.
  assert (Ep : prev (fst (insert_at p s (strstart s))) = set (prev s) (Z.land (strstart s) (w_mask p)) (snd (insert_at p s (strstart s)))) by done.
  destruct (insert_at p s (strstart s)) as [s1 q]. cbn [fst snd] in *. intros s2 Ew Ev Es El <- Hq Hd.
  assert (W1 : window s1 = window s /\ strstart s1 = strstart s /\ lookahead s1 = lookahead s) by (rewrite E1; done).
  destruct W1 as (W1 & W2 & W3). destruct sizes as (Sw & _).
  unfold longest_match. set (limit := if _ <? _ then _ else _). set (nice := if lookahead s2 <? _ then _ else _).
  set (n := Z.to_nat _).
  pose proof (chain_loop_ok ins s s2 limit nice n C Hb ltac:(congruence) ltac:(congruence)) as G.
  assert (Eprev : forall i, i <> strstart s mod w_size p -> 0 <= i -> get (prev s2) i = get (prev s) i).
  { intros i Hi H0. rewrite Ev, Ep, land_w_mask by done. pose proof (c_prev _ _ _ _ C).
    rewrite get_set by (try apply Z.mod_pos_bound; lia || (pose proof (Z.mod_pos_bound (strstart s) (w_size p) ltac:(lia)); lia)).
    by rewrite (proj2 (Z.eqb_neq _ _)). }
  specialize (G Eprev ltac:(unfold limit; by rewrite Es, W2) q (prev_length s2) (match_start s2)).
  assert (Cq : candidate ins s q).
  { destruct F as [F|[F|(F1 & F2 & F3)]]; [done|lia|]. destruct (c_ins _ _ _ _ C q F1). split; [done|]. split; [lia|]. split; [lia|done]. }
  specialize (G Cq). destruct (chain_loop _ _ _ _ _ _ _ _) as [best start]. cbn [match_start with_match].
  split; [done|]. destruct (Z.leb_spec best (lookahead s2)) as [L|L].
  - split; [lia|]. destruct G as [[-> _]|[_ M]]; [by left; lia|right; done].
  - split; [lia|]. destruct G as [[-> _]|[_ (M1 & M2 & M3 & M4)]]; [left; lia|]. right. split; [done|]. split; [done|]. split; [lia|].
    intros i Hi. apply M4. lia.
Qed.

(** ** Inserting on *)

(** [hashed] with the next string to insert at [pos]. *)
Definition ready (s : lz) (pos : Z) : Prop :=
  exists ins, chains ins (pos - s_insert s) pos s /\
    (pos + 2 < strstart s + lookahead s -> s_insert s = 0 /\ primed s pos).

Lemma hashed_ready s : hashed s <-> ready s (strstart s).
Proof using. unfold hashed, ready, MIN_MATCH. split; intros (ins & C & F); exists ins; (split; [done|]); intros L; apply F; lia. Qed.

Lemma ready_ext s s' pos : ready s pos -> window s' = window s -> prev s' = prev s -> head s' = head s -> ins_h s' = ins_h s ->
  s_insert s' = s_insert s -> strstart s' + lookahead s' = strstart s + lookahead s -> ready s' pos.
Proof using.
  intros (ins & C & F) Ew Ep Eh Ei Es El. exists ins. rewrite Es, El. split.
  - apply (chains_ext _ _ _ s); auto; [lia|by rewrite Ew].
  - intros L. destruct (F L) as [F1 [x F2]]. split; [done|]. exists x. by rewrite Ew, Ei.
Qed.

(** Strings may be left out. *)
Lemma ready_jump s s' pos pos' : ready s pos -> pos <= pos' -> window s' = window s -> prev s' = prev s -> head s' = head s ->
  s_insert s' = s_insert s -> strstart s' + lookahead s' = strstart s + lookahead s ->
  (pos' + 2 < strstart s + lookahead s -> primed s' pos') -> ready s' pos'.
Proof using.
  intros (ins & C & F) Hpos Ew Ep Eh Es El Hp'. exists ins. rewrite Es, El. split.
  - apply (chains_ext _ _ _ s); auto; [|lia|by rewrite Ew]. apply (chains_later _ (pos - s_insert s) _ pos); [done|lia|done].
  - intros L. split; [apply F; lia|auto].
Qed.

Lemma ready_insert s pos : ready s pos -> 0 <= pos < 65536 -> pos + 2 < strstart s + lookahead s -> ready (fst (insert_at p s pos)) (pos + 1).
Proof using Hp.
  intros (ins & C & F) Hpos L. destruct (F L) as [E0 P]. rewrite E0, Z.sub_0_r in C.
  destruct (insert_chains ins pos pos s C ltac:(lia) P Hpos L) as (C' & P' & _ & E). cbv zeta in *.
  set (s' := fst (insert_at p s pos)) in *. exists (with_string ins pos). 
  assert (Ei : s_insert s' = 0) by (rewrite E; done). rewrite Ei, Z.sub_0_r. split; [|by split].
  apply (chains_later _ (pos + 1) _ pos); [done|lia|lia].
Qed.

(** The last block function leaves up to two strings for the next call. *)
Lemma hashed_end s n : hashed s -> lookahead s = 0 -> 0 <= n <= 2 -> hashed (with_insert s n).
Proof using.
  intros (ins & C & _) E0 Hn. exists ins. lz_fields. split; [|unfold MIN_MATCH; lia].
  apply (chains_ext _ _ _ s); try done. apply (chains_back _ (strstart s - s_insert s)); [done|lia].
Qed.
End Invariants.
