(* ===== verification/Deflate.v ===== *)
(** * Deflate: the compressors and the interface of core/zlib/deflate.c and compress.c

    The five block functions (stored, fast, slow, run lengths, Huffman only), the
    state machine [deflate] with its headers and trailers, setting up, and [compress].
    A [for (;;)] is a turn and fuel for it; that the fuel is enough is proved in
    Compressors.v and Stored.v.  [pending] is kept as a list: nothing is put into it while
    part of it has been given out.  The gzip header of [deflateSetHeader] is left out: [gzhead] is null. *)

From S2P Require Import Prelude.
From S2P Require Import Crc32.
From S2P Require Import Adler32.
From S2P Require Import Trees.
From S2P Require Import TreeSend.
From S2P Require Import Lz.

#[local] Open Scope Z_scope.

(** ** Constants (zlib.h, deflate.h, deflate.c, zutil.h) *)

Definition Z_NO_FLUSH : Z := 0.
Definition Z_PARTIAL_FLUSH : Z := 1.
Definition Z_SYNC_FLUSH : Z := 2.
Definition Z_FULL_FLUSH : Z := 3.
Definition Z_FINISH : Z := 4.
Definition Z_BLOCK : Z := 5.
Definition Z_OK : Z := 0.
Definition Z_STREAM_END : Z := 1.
Definition Z_STREAM_ERROR : Z := -2.
Definition Z_DATA_ERROR : Z := -3.
Definition Z_BUF_ERROR : Z := -5.
Definition Z_DEFAULT_COMPRESSION : Z := -1.
Definition Z_FILTERED : Z := 1.
Definition Z_HUFFMAN_ONLY : Z := 2.
Definition Z_RLE : Z := 3.
Definition Z_DEFAULT_STRATEGY : Z := 0.
Definition Z_DEFLATED : Z := 8.
Definition INIT_STATE : Z := 42.
Definition GZIP_STATE : Z := 57.
Definition BUSY_STATE : Z := 113.
Definition FINISH_STATE : Z := 666.
Definition PRESET_DICT : Z := 0x20.
Definition OS_CODE : Z := 3.
Definition MAX_WBITS : Z := 15.
Definition MAX_MEM_LEVEL : Z := 9.
Definition DEF_MEM_LEVEL : Z := 8.
Definition TOO_FAR : Z := 4096.
Definition MAX_STORED : Z := 65535.
Definition MIN (a b : Z) : Z := if b <? a then b else a.
Definition RANK (f : Z) : Z := f * 2 - (if 4 <? f then 9 else 0).

Inductive block_state := need_more | block_done | finish_started | finish_done.

(** ** The state *)

(** [conf] the parameters, [win] the window, [ts] what trees.c works on. *)
Record dstate := mk_ds {
  conf : params;
  win : lz;
  ts : tstate;
  strm : z_stream;
  wrap : Z;
  status : Z;
  last_flush : Z
}.
Definition with_win (s : dstate) (w : lz) : dstate := mk_ds (conf s) w (ts s) (strm s) (wrap s) (status s) (last_flush s).
Definition with_ts (s : dstate) (t : tstate) : dstate := mk_ds (conf s) (win s) t (strm s) (wrap s) (status s) (last_flush s).
Definition with_strm (s : dstate) (x : z_stream) : dstate := mk_ds (conf s) (win s) (ts s) x (wrap s) (status s) (last_flush s).
Definition with_status (s : dstate) (x : Z) : dstate := mk_ds (conf s) (win s) (ts s) (strm s) (wrap s) x (last_flush s).
Definition with_last_flush (s : dstate) (x : Z) : dstate := mk_ds (conf s) (win s) (ts s) (strm s) (wrap s) (status s) x.
Definition with_wrap (s : dstate) (x : Z) : dstate := mk_ds (conf s) (win s) (ts s) (strm s) x (status s) (last_flush s).
Definition with_bits (s : dstate) (b : bitbuf) : dstate := with_ts s (with_out (ts s) b).
Definition bits (s : dstate) : bitbuf := out (ts s).
Definition pending_len (s : dstate) : Z := Z.of_nat (length (pending (bits s))).
Definition pending_buf_size (s : dstate) : Z := u64 (Z.of_nat (lit_bufsize (ts s)) * 4).

(** [strm] with bytes written to [next_out]. *)
Definition write_out (x : z_stream) (l : list Z) (n : Z) : z_stream :=
  mk_strm (next_in x) (next_out x ++ l) (avail_out x - n) (total_in x) (u64 (total_out x + n)) (adler x).
Definition with_adler (x : z_stream) (a : Z) : z_stream :=
  mk_strm (next_in x) (next_out x) (avail_out x) (total_in x) (total_out x) a.

Definition putShortMSB (s : dstate) (b : Z) : dstate :=
  with_bits s (put_byte (put_byte (bits s) (Z.shiftr b 8)) (Z.land b 0xff)).

Definition flush_pending (s : dstate) : dstate :=
  let s := with_bits s (_tr_flush_bits (bits s)) in
  let len := pending_len s in
  let len := if avail_out (strm s) <? len then avail_out (strm s) else len in
  if len =? 0 then s
  else
    let p := pending (bits s) in
    let s := with_strm s (write_out (strm s) (take (Z.to_nat len) p) len) in
    with_bits s (mk_bitbuf (drop (Z.to_nat len) p) (bi_buf (bits s)) (bi_valid (bits s))).

(** [FLUSH_BLOCK_ONLY] *)
Definition flush_block_only (s : dstate) (last : Z) : dstate :=
  let w := win s in
  let len := u64 (strstart w - block_start w) in
  let buf := if 0 <=? block_start w then Some (bytes_at (window w) (block_start w) len) else None in
  let s := with_ts s (_tr_flush_block (ts s) buf len last) in
  flush_pending (with_win s (with_block w (strstart w))).

(** ** The loops *)

(** A turn of [for (;;)]: on, out of the loop, or out of the function. *)
Inductive turn := Next (s : dstate) | Break (s : dstate) | Return (s : dstate) (b : block_state).

Fixpoint run_turns (body : dstate -> turn) (fuel : nat) (s : dstate) : option (dstate * option block_state) :=
  match fuel with
  | O => None
  | S fuel =>
      match body s with
      | Next s => run_turns body fuel s
      | Break s => Some (s, None)
      | Return s b => Some (s, Some b)
      end
  end.

(** [if (bflush) FLUSH_BLOCK(s, 0)] *)
Definition flush_if (bflush : bool) (s : dstate) : turn :=
  if bflush then
    let s := flush_block_only s 0 in
    if avail_out (strm s) =? 0 then Return s need_more else Next s
  else Next s.

(** "Make sure that we always have enough lookahead" *)
Definition refill (s : dstate) : dstate :=
  let '(w, x) := fill_window (conf s) (wrap s) (win s) (strm s) in with_strm (with_win s w) x.
Definition get_lookahead (least flush : Z) (s : dstate) : turn :=
  if lookahead (win s) <? least then
    let s := refill s in
    if (lookahead (win s) <? least) && (flush =? Z_NO_FLUSH) then Return s need_more
    else if lookahead (win s) =? 0 then Break s
    else Next s
  else Next s.

(** What follows the loops. *)
Definition end_blocks (insert flush : Z) (s : dstate) : dstate * block_state :=
  let s := with_win s (with_insert (win s) insert) in
  if flush =? Z_FINISH then
    let s := flush_block_only s 1 in
    (s, if avail_out (strm s) =? 0 then finish_started else finish_done)
  else if negb (last_lit (ts s) =? 0)%nat then
    let s := flush_block_only s 0 in
    (s, if avail_out (strm s) =? 0 then need_more else block_done)
  else (s, block_done).

(** Every turn uses up a byte of the input at least. *)
Definition enough_turns (s : dstate) : nat := S (length (next_in (strm s)) + Z.to_nat (lookahead (win s))).

Definition run_blocks (body : dstate -> turn) (tail : dstate -> dstate * block_state) (s : dstate) :
    option (dstate * block_state) :=
  match run_turns body (enough_turns s) s with
  | Some (s, None) => Some (tail s)
  | Some (s, Some b) => Some (s, b)
  | None => None
  end.

(** [INSERT_STRING] if there are three bytes. *)
Definition insert_here (s : dstate) : dstate * Z :=
  if MIN_MATCH <=? lookahead (win s) then
    let '(w, hash_head) := INSERT_STRING (conf s) (win s) (strstart (win s)) in (with_win s w, hash_head)
  else (s, NIL).

(** The literal at [pos]. *)
Definition literal (s : dstate) (pos : Z) : dstate * bool :=
  let '(t, bflush) := _tr_tally_lit (ts s) (get (window (win s)) pos) in (with_ts s t, bflush).
Definition matched (s : dstate) (dist len : Z) : dstate * bool :=
  let '(t, bflush) := _tr_tally_dist (ts s) dist (u32 (len - MIN_MATCH)) in (with_ts s t, bflush).
(** [strstart += n], [lookahead -= n]. *)
Definition advance (s : dstate) (n : Z) : dstate :=
  with_win s (with_pos (win s) (strstart (win s) + n) (lookahead (win s) - n)).

(** ** deflate_fast *)

(** [strstart++] and [INSERT_STRING], [n] times. *)
Definition insert_next (p : params) (n : nat) (w : lz) : lz :=
  for_ 0 n (fun _ w => let w := with_pos w (strstart w + 1) (lookahead w) in fst (INSERT_STRING p w (strstart w))) w.

Definition find_fast (s : dstate) (hash_head : Z) : dstate :=
  let w := win s in
  if negb (hash_head =? NIL) && (u32 (strstart w - hash_head) <=? MAX_DIST (conf s)) then
    let '(len, w) := longest_match (conf s) w hash_head in with_win s (with_match w (match_start w) len)
  else s.

(** Past a match: short ones are inserted in the hash table. *)
Definition skip_match (p : params) (w : lz) : lz :=
  let w := with_pos w (strstart w) (lookahead w - match_length w) in
  if (match_length w <=? max_lazy_match p) && (MIN_MATCH <=? lookahead w) then
    let w := insert_next p (Z.to_nat (match_length w - 1)) w in
    with_match (with_pos w (strstart w + 1) (lookahead w)) (match_start w) 0
  else
    let w := with_match (with_pos w (strstart w + match_length w) (lookahead w)) (match_start w) 0 in
    with_ins_h w (UPDATE_HASH p (get (window w) (strstart w)) (get (window w) (strstart w + 1))).

Definition fast_turn (flush : Z) (s : dstate) : turn :=
  match get_lookahead MIN_LOOKAHEAD flush s with
  | Next s =>
      let '(s, hash_head) := insert_here s in
      let s := find_fast s hash_head in
      let w := win s in
      let '(s, bflush) :=
        if MIN_MATCH <=? match_length w then
          let '(s, bflush) := matched s (u32 (strstart w - match_start w)) (match_length w) in
          (with_win s (skip_match (conf s) w), bflush)
        else
          let '(s, bflush) := literal s (strstart w) in (advance s 1, bflush) in
      flush_if bflush s
  | t => t
  end.

Definition last_two (s : dstate) : Z := if strstart (win s) <? MIN_MATCH - 1 then strstart (win s) else MIN_MATCH - 1.

Definition deflate_fast (s : dstate) (flush : Z) : option (dstate * block_state) :=
  run_blocks (fast_turn flush) (fun s => end_blocks (last_two s) flush s) s.

(** ** deflate_slow *)

Definition find_slow (s : dstate) (hash_head : Z) : dstate :=
  let w := win s in
  let w := with_prev w (match_start w) (match_length w) in
  let w := with_match w (match_start w) (MIN_MATCH - 1) in
  if negb (hash_head =? NIL) && (prev_length w <? max_lazy_match (conf s)) &&
     (u32 (strstart w - hash_head) <=? MAX_DIST (conf s)) then
    let '(len, w) := longest_match (conf s) w hash_head in
    let far := (len =? MIN_MATCH) && (TOO_FAR <? u32 (strstart w - match_start w)) in
    let len := if (len <=? 5) && ((strategy (ts s) =? Z_FILTERED) || far) then MIN_MATCH - 1 else len in
    with_win s (with_match w (match_start w) len)
  else with_win s w.

(** Past the previous match. *)
Definition insert_upto (p : params) (max_insert : Z) (n : nat) (w : lz) : lz :=
  for_ 0 n (fun _ w =>
    let w := with_pos w (strstart w + 1) (lookahead w) in
    if strstart w <=? max_insert then fst (INSERT_STRING p w (strstart w)) else w) w.
Definition skip_prev (p : params) (w : lz) : lz :=
  let max_insert := u32 (strstart w + lookahead w - MIN_MATCH) in
  let n := prev_length w - 2 in
  let w := with_pos w (strstart w) (lookahead w - (prev_length w - 1)) in
  let w := insert_upto p max_insert (Z.to_nat n) w in
  let w := with_prev w (prev_match w) 0 in
  let w := with_match (with_available w false) (match_start w) (MIN_MATCH - 1) in
  with_pos w (strstart w + 1) (lookahead w).

Definition slow_turn (flush : Z) (s : dstate) : turn :=
  match get_lookahead MIN_LOOKAHEAD flush s with
  | Next s =>
      let '(s, hash_head) := insert_here s in
      let s := find_slow s hash_head in
      let w := win s in
      if (MIN_MATCH <=? prev_length w) && (match_length w <=? prev_length w) then
        let '(s, bflush) := matched s (u32 (strstart w - 1 - prev_match w)) (prev_length w) in
        flush_if bflush (with_win s (skip_prev (conf s) w))
      else if match_available w then
        let '(s, bflush) := literal s (strstart w - 1) in
        let s := if bflush then flush_block_only s 0 else s in
        let s := advance s 1 in
        if avail_out (strm s) =? 0 then Return s need_more else Next s
      else Next (advance (with_win s (with_available w true)) 1)
  | t => t
  end.

(** The byte that was held back. *)
Definition last_literal (s : dstate) : dstate :=
  if match_available (win s) then
    let '(s, _) := literal s (strstart (win s) - 1) in with_win s (with_available (win s) false)
  else s.

Definition deflate_slow (s : dstate) (flush : Z) : option (dstate * block_state) :=
  run_blocks (slow_turn flush) (fun s => let s := last_literal s in end_blocks (last_two s) flush s) s.

(** ** deflate_rle *)

(** [prev == *++scan && ...], [n] times; how many were equal. *)
Fixpoint same_run (w : list Z) (b : Z) (n : nat) (scan : Z) : Z :=
  match n with
  | O => 0
  | S n => if b =? get w (scan + 1) then 1 + same_run w b n (scan + 1) else 0
  end.
Fixpoint run_loop_rle (w : list Z) (b strend : Z) (fuel : nat) (scan : Z) : Z :=
  match fuel with
  | O => scan
  | S fuel =>
      let n := same_run w b 8 scan in
      if n =? 8 then let scan := scan + 8 in if scan <? strend then run_loop_rle w b strend fuel scan else scan
      else scan + n + 1
  end.
Definition run_length (w : lz) : Z :=
  if (MIN_MATCH <=? lookahead w) && (0 <? strstart w) then
    let scan := strstart w - 1 in
    let b := get (window w) scan in
    if same_run (window w) b 3 scan =? 3 then
      let strend := strstart w + MAX_MATCH in
      let len := MAX_MATCH - (strend - run_loop_rle (window w) b strend 32 (scan + 3)) in
      if lookahead w <? len then lookahead w else len
    else 0
  else 0.

Definition rle_turn (flush : Z) (s : dstate) : turn :=
  match get_lookahead (MAX_MATCH + 1) flush s with
  | Next s =>
      let len := run_length (win s) in
      let s := with_win s (with_match (win s) (match_start (win s)) len) in
      let '(s, bflush) :=
        if MIN_MATCH <=? len then
          let '(s, bflush) := matched s 1 len in
          let s := advance s len in
          (with_win s (with_match (win s) (match_start (win s)) 0), bflush)
        else let '(s, bflush) := literal s (strstart (win s)) in (advance s 1, bflush) in
      flush_if bflush s
  | t => t
  end.
Definition deflate_rle (s : dstate) (flush : Z) : option (dstate * block_state) :=
  run_blocks (rle_turn flush) (end_blocks 0 flush) s.

(** ** deflate_huff *)

Definition huff_turn (flush : Z) (s : dstate) : turn :=
  match get_lookahead 1 flush s with
  | Next s =>
      let s := with_win s (with_match (win s) (match_start (win s)) 0) in
      let '(s, bflush) := literal s (strstart (win s)) in
      flush_if bflush (advance s 1)
  | t => t
  end.
Definition deflate_huff (s : dstate) (flush : Z) : option (dstate * block_state) :=
  run_blocks (huff_turn flush) (end_blocks 0 flush) s.

(** ** deflate_stored *)

Definition with_matches (s : dstate) (m : Z) : dstate :=
  with_ts s (with_buffers (ts s) (l_buf (ts s)) (d_buf (ts s)) (last_lit (ts s)) m).
Definition count_slide (s : dstate) : dstate := if matches (ts s) <? 2 then with_matches s (matches (ts s) + 1) else s.

(** The header of a stored block of [len] bytes: a dummy block, its lengths replaced. *)
Definition stored_header (b : bitbuf) (len last : Z) : bitbuf :=
  let b := _tr_stored_block b [] last in
  let n := length (pending b) in
  let p := setn (pending b) (n - 4) (u8 len) in
  let p := setn p (n - 3) (u8 (Z.shiftr len 8)) in
  let p := setn p (n - 2) (u8 (Z.lnot len)) in
  let p := setn p (n - 1) (u8 (Z.shiftr (u32 (Z.lnot len)) 8)) in
  mk_bitbuf p (bi_buf b) (bi_valid b).

(** "Copy uncompressed bytes from the window to next_out", then from [next_in]. *)
Definition copy_window (s : dstate) (n : Z) : dstate :=
  if n =? 0 then s
  else
    let w := win s in
    let s := with_strm s (write_out (strm s) (bytes_at (window w) (block_start w) n) n) in
    with_win s (with_block w (block_start w + n)).
Definition copy_input (s : dstate) (n : Z) : dstate :=
  if n =? 0 then s
  else let '(buf, x) := read_buf (wrap s) (strm s) n in with_strm s (write_out x buf n).

(** A turn of the first loop: [None] is the [break]; with the state, [last]. *)
Definition stored_turn (flush min_block : Z) (s : dstate) : option (dstate * bool) :=
  let have := Z.shiftr (bi_valid (bits s) + 42) 3 in
  if avail_out (strm s) <? have then None
  else
    let have := avail_out (strm s) - have in
    let left := u32 (strstart (win s) - block_start (win s)) in
    let all := u32 (left + avail_in (strm s)) in
    let len := if left + avail_in (strm s) <? MAX_STORED then all else MAX_STORED in
    let len := if have <? len then have else len in
    if (len <? min_block) && ((len =? 0) && negb (flush =? Z_FINISH) || (flush =? Z_NO_FLUSH) || negb (len =? all)) then None
    else
      let last := (flush =? Z_FINISH) && (len =? all) in
      let s := flush_pending (with_bits s (stored_header (bits s) len (Z.b2z last))) in
      let n := if len <? left then len else left in
      Some (copy_input (copy_window s n) (len - n), last).

Fixpoint stored_loop (fuel : nat) (flush min_block : Z) (s : dstate) : option (dstate * bool) :=
  match fuel with
  | O => None
  | S fuel =>
      match stored_turn flush min_block s with
      | None => Some (s, false)
      | Some (s, true) => Some (s, true)
      | Some (s, false) => stored_loop fuel flush min_block s
      end
  end.

(** "Update the sliding window with the last s->w_size bytes of the copied data":
    [used] are the bytes of the input that were copied. *)
Definition window_copied (s : dstate) (used : list Z) : dstate :=
  let n := Z.of_nat (length used) in
  let size := w_size (conf s) in
  if n =? 0 then s
  else
    let s :=
      if size <=? n then
        let s := with_matches s 2 in
        with_win s (with_pos (with_window (win s) (zmemcpy (window (win s)) 0 (bytes_at used (n - size) size)))
                      size (lookahead (win s)))
      else
        let s :=
          if window_size (conf s) - strstart (win s) <=? n then
            let w := with_pos (win s) (strstart (win s) - size) (lookahead (win s)) in
            let w := with_window w (zmemcpy (window w) 0 (bytes_at (window w) size (strstart w))) in
            count_slide (with_win s w)
          else s in
        let w := with_window (win s) (zmemcpy (window (win s)) (strstart (win s)) used) in
        with_win s (with_pos w (strstart w + n) (lookahead w)) in
    let w := with_block (win s) (strstart (win s)) in
    with_win s (with_insert w (s_insert w + MIN n (size - s_insert w))).

Definition raise_high (s : dstate) : dstate :=
  if high_water (win s) <? strstart (win s) then with_win s (with_high (win s) (strstart (win s))) else s.

(** "Fill the window with any remaining input." *)
Definition fill_rest (s : dstate) : dstate :=
  let w := win s in
  let have := window_size (conf s) - strstart w - 1 in
  let '(s, have) :=
    if (have <? avail_in (strm s)) && (w_size (conf s) <=? block_start w) then
      let w := with_block w (block_start w - w_size (conf s)) in
      let w := with_pos w (strstart w - w_size (conf s)) (lookahead w) in
      let w := with_window w (zmemcpy (window w) 0 (bytes_at (window w) (w_size (conf s)) (strstart w))) in
      (count_slide (with_win s w), have + w_size (conf s))
    else (s, have) in
  let have := if avail_in (strm s) <? have then avail_in (strm s) else have in
  if have =? 0 then s
  else
    let '(buf, x) := read_buf (wrap s) (strm s) have in
    let w := with_window (win s) (zmemcpy (window (win s)) (strstart (win s)) buf) in
    with_strm (with_win s (with_pos w (strstart w + have) (lookahead w))) x.

(** "Write a stored block to pending instead" *)
Definition stored_pending (flush : Z) (s : dstate) : dstate * bool :=
  let w := win s in
  let have := Z.shiftr (bi_valid (bits s) + 42) 3 in
  let have := MIN (pending_buf_size s - have) MAX_STORED in
  let min_block := MIN have (w_size (conf s)) in
  let left := strstart w - block_start w in
  if (min_block <=? left) ||
     (negb (left =? 0) || (flush =? Z_FINISH)) && negb (flush =? Z_NO_FLUSH) && (avail_in (strm s) =? 0) && (left <=? have)
  then
    let len := MIN left have in
    let last := (flush =? Z_FINISH) && (avail_in (strm s) =? 0) && (len =? left) in
    let s := with_bits s (_tr_stored_block (bits s) (bytes_at (window w) (block_start w) len) (Z.b2z last)) in
    (flush_pending (with_win s (with_block w (block_start w + len))), last)
  else (s, false).

Definition deflate_stored (s : dstate) (flush : Z) : option (dstate * block_state) :=
  let min_block := MIN (pending_buf_size s - 5) (w_size (conf s)) in
  let input := next_in (strm s) in
  let left := Z.to_nat (u32 (strstart (win s) - block_start (win s))) in
  match stored_loop (S (left + length input)) flush min_block s with
  | None => None
  | Some (s, last) =>
      let used := take (length input - length (next_in (strm s))) input in
      let s := raise_high (window_copied s used) in
      Some
        (if last then (s, finish_done)
         else if negb (flush =? Z_NO_FLUSH) && negb (flush =? Z_FINISH) && (avail_in (strm s) =? 0) &&
                 (strstart (win s) =? block_start (win s)) then (s, block_done)
         else
           let '(s, last) := stored_pending flush (raise_high (fill_rest s)) in
           (s, if last then finish_started else need_more))
  end.

(** ** deflate *)

(** [configuration_table]: good, lazy, nice, chain and the function. *)
Inductive compress_func := Stored | Fast | Slow.
Definition configuration_table (level : Z) : Z * Z * Z * Z * compress_func :=
  match level with
  | 0 => (0, 0, 0, 0, Stored)
  | 1 => (4, 4, 8, 4, Fast)
  | 2 => (4, 5, 16, 8, Fast)
  | 3 => (4, 6, 32, 32, Fast)
  | 4 => (4, 4, 16, 16, Slow)
  | 5 => (8, 16, 32, 32, Slow)
  | 6 => (8, 16, 128, 128, Slow)
  | 7 => (8, 32, 128, 256, Slow)
  | 8 => (32, 128, 258, 1024, Slow)
  | _ => (32, 258, 258, 4096, Slow)
  end.
Definition func_of (level : Z) : compress_func := snd (configuration_table level).

Definition compress_some (s : dstate) (flush : Z) : option (dstate * block_state) :=
  if level (ts s) =? 0 then deflate_stored s flush
  else if strategy (ts s) =? Z_HUFFMAN_ONLY then deflate_huff s flush
  else if strategy (ts s) =? Z_RLE then deflate_rle s flush
  else
    match func_of (level (ts s)) with
    | Stored => deflate_stored s flush
    | Fast => deflate_fast s flush
    | Slow => deflate_slow s flush
    end.

Definition zlib_header (s : dstate) : Z :=
  let header := Z.shiftl (Z_DEFLATED + Z.shiftl (w_bits (conf s) - 8) 4) 8 in
  let level_flags :=
    if (Z_HUFFMAN_ONLY <=? strategy (ts s)) || (level (ts s) <? 2) then 0
    else if level (ts s) <? 6 then 1 else if level (ts s) =? 6 then 2 else 3 in
  let header := Z.lor header (Z.shiftl level_flags 6) in
  let header := if negb (strstart (win s) =? 0) then Z.lor header PRESET_DICT else header in
  header + (31 - header mod 31).

Definition put_bytes (s : dstate) (l : list Z) : dstate := with_bits s (fold_left put_byte l (bits s)).

Definition write_zlib_header (s : dstate) : dstate :=
  let preset := negb (strstart (win s) =? 0) in
  let s := putShortMSB s (zlib_header s) in
  let s :=
    if preset then
      putShortMSB (putShortMSB s (u32 (Z.shiftr (adler (strm s)) 16))) (Z.land (adler (strm s)) 0xffff)
    else s in
  flush_pending (with_status (with_strm s (with_adler (strm s) (adler32 64 false 0 None))) BUSY_STATE).

Definition write_gzip_header (s : dstate) : dstate :=
  let s := with_strm s (with_adler (strm s) (crc32 true true 0 0 None)) in
  let xfl :=
    if level (ts s) =? 9 then 2 else if (Z_HUFFMAN_ONLY <=? strategy (ts s)) || (level (ts s) <? 2) then 4 else 0 in
  flush_pending (with_status (put_bytes s [31; 139; 8; 0; 0; 0; 0; 0; xfl; OS_CODE]) BUSY_STATE).

(** The header, if it is due; true when [deflate] returns because it could not all be
    written. *)
Definition write_header (s : dstate) : dstate * bool :=
  let check s := if negb (pending_len s =? 0) then (with_last_flush s (-1), true) else (s, false) in
  if status s =? INIT_STATE then check (write_zlib_header s)
  else if status s =? GZIP_STATE then check (write_gzip_header s)
  else (s, false).

Definition le_bytes4 (x : Z) : list Z :=
  [Z.land x 0xff; Z.land (Z.shiftr x 8) 0xff; Z.land (Z.shiftr x 16) 0xff; Z.land (Z.shiftr x 24) 0xff].

Definition write_trailer (s : dstate) : dstate :=
  let s :=
    if wrap s =? 2 then put_bytes (put_bytes s (le_bytes4 (adler (strm s)))) (le_bytes4 (total_in (strm s)))
    else putShortMSB (putShortMSB s (u32 (Z.shiftr (adler (strm s)) 16))) (Z.land (adler (strm s)) 0xffff) in
  let s := flush_pending s in
  if 0 <? wrap s then with_wrap s (- wrap s) else s.

(** After [block_done]: the empty block that marks the flush. *)
Definition flush_mark (s : dstate) (flush : Z) : dstate :=
  let s :=
    if flush =? Z_PARTIAL_FLUSH then with_bits s (_tr_align (bits s))
    else if negb (flush =? Z_BLOCK) then
      let s := with_bits s (_tr_stored_block (bits s) [] 0) in
      if flush =? Z_FULL_FLUSH then
        let w := CLEAR_HASH (conf s) (win s) in
        with_win s (if lookahead w =? 0 then with_insert (with_block (with_pos w 0 (lookahead w)) 0) 0 else w)
      else s
    else s in
  flush_pending s.

(** The last part of [deflate]. *)
Definition finish (s : dstate) (flush : Z) : dstate * Z :=
  if negb (flush =? Z_FINISH) then (s, Z_OK)
  else if wrap s <=? 0 then (s, Z_STREAM_END)
  else let s := write_trailer s in (s, if negb (pending_len s =? 0) then Z_OK else Z_STREAM_END).

(** [deflate] from "Start a new block" on. *)
Definition deflate_blocks (s : dstate) (flush : Z) : option (dstate * Z) :=
  if negb (avail_in (strm s) =? 0) || negb (lookahead (win s) =? 0) ||
     negb (flush =? Z_NO_FLUSH) && negb (status s =? FINISH_STATE)
  then
    match compress_some s flush with
    | None => None
    | Some (s, bstate) =>
        Some
          match bstate with
          | need_more => (if avail_out (strm s) =? 0 then with_last_flush s (-1) else s, Z_OK)
          | finish_started =>
              let s := with_status s FINISH_STATE in (if avail_out (strm s) =? 0 then with_last_flush s (-1) else s, Z_OK)
          | block_done =>
              let s := flush_mark s flush in
              if avail_out (strm s) =? 0 then (with_last_flush s (-1), Z_OK) else finish s flush
          | finish_done => finish (with_status s FINISH_STATE) flush
          end
    end
  else Some (finish s flush).

(** [None]: a loop's fuel would have run out; it never does. *)
Definition deflate (s : dstate) (flush : Z) : option (dstate * Z) :=
  if (Z_BLOCK <? flush) || (flush <? 0) then Some (s, Z_STREAM_ERROR)
  else if (status s =? FINISH_STATE) && negb (flush =? Z_FINISH) then Some (s, Z_STREAM_ERROR)
  else if avail_out (strm s) =? 0 then Some (s, Z_BUF_ERROR)
  else
    let old_flush := last_flush s in
    let s := with_last_flush s flush in
    let had := negb (pending_len s =? 0) in
    let s := if had then flush_pending s else s in
    if had && (avail_out (strm s) =? 0) then Some (with_last_flush s (-1), Z_OK)
    else if negb had && (avail_in (strm s) =? 0) && (RANK flush <=? RANK old_flush) && negb (flush =? Z_FINISH) then
      Some (s, Z_BUF_ERROR)
    else if (status s =? FINISH_STATE) && negb (avail_in (strm s) =? 0) then Some (s, Z_BUF_ERROR)
    else
      let '(s, stop) := write_header s in
      if stop then Some (s, Z_OK) else deflate_blocks s flush.

(** ** Setting up, and compress *)

Definition lm_init (s : dstate) : dstate :=
  let w := CLEAR_HASH (conf s) (win s) in
  let '(good, lazy, nice, chain, _) := configuration_table (level (ts s)) in
  let p := mk_params (w_bits (conf s)) (hash_bits (conf s)) good lazy nice chain in
  mk_ds p (mk_lz (window w) (prev w) (head w) 0 0 0 0 0 (high_water w) (match_start w) (MIN_MATCH - 1) (prev_match w)
             (MIN_MATCH - 1) false) (ts s) (strm s) (wrap s) (status s) (last_flush s).

Definition deflateResetKeep (s : dstate) : dstate :=
  let x := strm s in
  let wr := if wrap s <? 0 then - wrap s else wrap s in
  let t := with_type (with_out (ts s) (mk_bitbuf [] (bi_buf (bits s)) (bi_valid (bits s)))) Z_UNKNOWN in
  let a := if wr =? 2 then crc32 true true 0 0 None else adler32 64 false 0 None in
  let st := if wr =? 2 then GZIP_STATE else if negb (wr =? 0) then INIT_STATE else BUSY_STATE in
  mk_ds (conf s) (win s) (_tr_init t) (mk_strm (next_in x) (next_out x) (avail_out x) 0 0 a) wr st Z_NO_FLUSH.

Definition deflateReset (s : dstate) : dstate := lm_init (deflateResetKeep s).

Section Memory.
(** What fresh memory holds: [size] bytes, [size] cells of 16 bits, and the rest of a
    [deflate_state] with buffers for [lit_bufsize] symbols. *)
Context (fresh_bytes fresh_cells : Z -> list Z) (fresh_state : Z -> tstate).

Definition with_level (t : tstate) (l st : Z) : tstate :=
  mk_ts (dyn_ltree t) (dyn_dtree t) (bl_tree t) (l_max t) (d_max t) (bl_max t) (wk t) (l_buf t) (d_buf t) (last_lit t)
    (lit_bufsize t) (matches t) (out t) l st (data_type t) true.

(** An error code, or the state; [x] is the stream before the call.  Memory is found. *)
Definition deflateInit2_ (x : z_stream) (level method windowBits memLevel strategy : Z) : dstate + Z :=
  let level := if level =? Z_DEFAULT_COMPRESSION then 6 else level in
  let '(wr, windowBits) :=
    if windowBits <? 0 then (0, - windowBits) else if 15 <? windowBits then (2, windowBits - 16) else (1, windowBits) in
  if (memLevel <? 1) || (MAX_MEM_LEVEL <? memLevel) || negb (method =? Z_DEFLATED) || (windowBits <? 8) || (15 <? windowBits) ||
     (level <? 0) || (9 <? level) || (strategy <? 0) || (Z_FIXED <? strategy) || (windowBits =? 8) && negb (wr =? 1)
  then inr Z_STREAM_ERROR
  else
    let windowBits := if windowBits =? 8 then 9 else windowBits in
    let p := mk_params windowBits (memLevel + 7) 0 0 0 0 in
    let w := mk_lz (fresh_bytes (2 * w_size p)) (fresh_cells (w_size p)) (fresh_cells (hash_size p)) 0 0 0 0 0 0 0 0 0 0 false in
    let t := with_level (fresh_state (Z.shiftl 1 (memLevel + 6))) level strategy in
    inl (deflateReset (mk_ds p w t x wr INIT_STATE 0)).

(** The loop of [compress2]; [room] is [left]. *)
Definition uint_max : Z := 0xffffffff.
Fixpoint compress_loop (fuel : nat) (s : dstate) (room : Z) (source : list Z) : option (dstate * Z) :=
  match fuel with
  | O => None
  | S fuel =>
      let x := strm s in
      let '(x, room) :=
        if avail_out x =? 0 then
          let n := if uint_max <? room then uint_max else room in
          (mk_strm (next_in x) (next_out x) n (total_in x) (total_out x) (adler x), room - n)
        else (x, room) in
      let '(x, source) :=
        if avail_in x =? 0 then
          let n := if uint_max <? Z.of_nat (length source) then uint_max else Z.of_nat (length source) in
          (mk_strm (take (Z.to_nat n) source) (next_out x) (avail_out x) (total_in x) (total_out x) (adler x), drop (Z.to_nat n) source)
        else (x, source) in
      match deflate (with_strm s x) (if negb (Z.of_nat (length source) =? 0) then Z_NO_FLUSH else Z_FINISH) with
      | None => None
      | Some (s, err) => if err =? Z_OK then compress_loop fuel s room source else Some (s, err)
      end
  end.

(** The bytes written to [dest], the result, and the flag [intact]; [None] when the fuel is
    too small. *)
Definition compress2 (fuel : nat) (destLen : Z) (source : list Z) (level : Z) : option (list Z * Z * bool) :=
  match deflateInit2_ (mk_strm [] [] 0 0 0 0) level Z_DEFLATED MAX_WBITS DEF_MEM_LEVEL Z_DEFAULT_STRATEGY with
  | inr err => Some ([], err, true)
  | inl s =>
      match compress_loop fuel s destLen source with
      | None => None
      | Some (s, err) =>
          Some (take (Z.to_nat (total_out (strm s))) (next_out (strm s)), if err =? Z_STREAM_END then Z_OK else err, intact (ts s))
      end
  end.
Definition compress (fuel : nat) (destLen : Z) (source : list Z) : option (list Z * Z * bool) :=
  compress2 fuel destLen source Z_DEFAULT_COMPRESSION.
End Memory.

Definition compressBound (sourceLen : Z) : Z :=
  u64 (sourceLen + Z.shiftr sourceLen 12 + Z.shiftr sourceLen 14 + Z.shiftr sourceLen 25 + 13).
