(* ===== verification/Overlay.v ===== *)
(** * Overlay: the symbols that lie in the output buffer (core/zlib/deflate.c, trees.c)

    [deflateInit2_] lays [d_buf] and [l_buf] into [pending_buf].  The flag [intact] of the
    model says whether output was ever laid over a symbol not yet read.  Here: the flag,
    once false, stays false, so that at the end of a compression it speaks of all of it;
    and blocks for which it becomes false. *)

From S2P Require Import Prelude.
From S2P Require Import Trees.
From S2P Require Import TreeBuild.
From S2P Require Import TreeSend.
From S2P Require Import Lz.
From S2P Require Import Deflate.

#[local] Open Scope Z_scope.

(** ** trees.c *)

Lemma build_trees_intact s : intact (fst (build_trees s)) = intact s.
Proof.
  unfold build_trees. assert (E : intact (if data_type s =? Z_UNKNOWN then with_type s (detect_data_type (dyn_ltree s)) else s) = intact s)
    by (by destruct (_ =? _)). set (s1 := if data_type s =? _ then _ else s) in *. clearbody s1.
  destruct (build_tree static_l_desc _ _) as [[l lm] w]. destruct (build_tree static_d_desc _ _) as [[d dm] w2].
  unfold build_bl_tree. repeat match goal with |- context [let '(_, _) := ?x in _] => destruct x end. exact E.
Qed.

Lemma flush_block_intact s buf n last : intact (_tr_flush_block s buf n last) = true -> intact s = true.
Proof.
  unfold _tr_flush_block. pose proof (build_trees_intact s) as B.
  destruct (if 0 <? level s then _ else _) as [[[s1 m] o] t] eqn:E.
  assert (E1 : intact s1 = intact s).
  { destruct (0 <? level s); [|by injection E as <-]. destruct (build_trees s) as [s2 m2]. by injection E as <-. }
  rewrite <- E1. clear E E1 B. set (coded := if _ || _ then _ else _).
  assert (C : intact coded = true -> intact s1 = true).
  { unfold coded. destruct (_ || _); intros H; apply andb_true_iff in H as [H _]; exact H. }
  clearbody coded. set (s2 := match buf with Some _ => _ | None => coded end).
  assert (C2 : intact s2 = true -> intact s1 = true) by (unfold s2; destruct buf; [by destruct (_ <=? _)|done]).
  clearbody s2. intros H. apply andb_true_iff in H as [H _]. apply C2. revert H. by destruct (negb _).
Qed.

(** ** deflate.c *)

Definition keeps (s s' : dstate) : Prop := intact (ts s') = true -> intact (ts s) = true.

#[export] Instance keeps_preorder : PreOrder keeps.
Proof. split; [intros s H; exact H|]. intros s1 s2 s3 A B H. apply A, B, H. Qed.

(** A step that does not touch the flag. *)
Lemma keeps_same s s' : intact (ts s') = intact (ts s) -> keeps s s'.
Proof. intros E. unfold keeps. by rewrite E. Qed.

Lemma flush_pending_same s : intact (ts (flush_pending s)) = intact (ts s).
Proof. unfold flush_pending. by destruct (_ =? 0). Qed.

Lemma flush_block_only_keeps s last : keeps s (flush_block_only s last).
Proof. unfold keeps, flush_block_only. rewrite flush_pending_same. apply flush_block_intact. Qed.

Definition turn_keeps (s : dstate) (t : turn) : Prop :=
  match t with Next s' | Break s' | Return s' _ => keeps s s' end.

Lemma turn_keeps_trans s1 s2 t : keeps s1 s2 -> turn_keeps s2 t -> turn_keeps s1 t.
Proof. intros A. destruct t; cbn [turn_keeps]; intros B; by etransitivity. Qed.

Lemma flush_if_keeps b s : turn_keeps s (flush_if b s).
Proof.
  unfold flush_if. destruct b; [|by cbn]. pose proof (flush_block_only_keeps s 0) as K. by destruct (_ =? 0).
Qed.

Lemma end_blocks_keeps n flush s : keeps s (fst (end_blocks n flush s)).
Proof.
  unfold end_blocks. set (s1 := with_win s _). change (keeps s) with (keeps s1).
  destruct (flush =? Z_FINISH); [apply flush_block_only_keeps|]. destruct (negb _); [apply flush_block_only_keeps|by cbn].
Qed.

Lemma run_blocks_keeps body tail s s' b : (forall s, turn_keeps s (body s)) -> (forall s, keeps s (fst (tail s))) ->
  run_blocks body tail s = Some (s', b) -> keeps s s'.
Proof.
  intros Hb Ht. unfold run_blocks. generalize (enough_turns s). intros n. revert s.
  assert (R : forall s s1 o, run_turns body n s = Some (s1, o) -> keeps s s1).
  { induction n as [|n IH]; intros s s1 o; cbn [run_turns]; [done|]. pose proof (Hb s) as K. destruct (body s) as [s2|s2|s2 b2].
    - intros E. cbn [turn_keeps] in K. etransitivity; [exact K|]. by apply (IH s2 s1 o).
    - intros E. by injection E as <- <-.
    - intros E. by injection E as <- <-. }
  intros s. destruct (run_turns body n s) as [[s1 [b1|]]|] eqn:E; [..|done]; apply R in E; intros E2; injection E2 as E2.
  - by subst.
  - etransitivity; [exact E|]. pose proof (Ht s1) as K. by rewrite E2 in K.
Qed.

Lemma get_lookahead_same least flush s : match get_lookahead least flush s with
  | Next s' | Break s' | Return s' _ => intact (ts s') = intact (ts s) end.
Proof.
  unfold get_lookahead, refill. destruct (_ <? _); [|done]. destruct (fill_window _ _ _ _) as [w x].
  destruct (_ && _); [done|]. by destruct (_ =? 0).
Qed.

Lemma literal_same s pos : intact (ts (fst (literal s pos))) = intact (ts s).
Proof. done. Qed.

Lemma find_same s h : intact (ts (find_fast s h)) = intact (ts s) /\ intact (ts (find_slow s h)) = intact (ts s).
Proof.
  unfold find_fast, find_slow. split; destruct (_ && _); try done; by destruct (longest_match _ _ _).
Qed.

Lemma insert_here_same s : intact (ts (fst (insert_here s))) = intact (ts s).
Proof. unfold insert_here. destruct (_ <=? _); [|done]. by destruct (INSERT_STRING _ _ _). Qed.

(** The turns of the loops all start alike. *)
Lemma after_lookahead least flush s (next : dstate -> turn) : (forall s, turn_keeps s (next s)) ->
  turn_keeps s (match get_lookahead least flush s with Next s => next s | t => t end).
Proof.
  intros Hn. pose proof (get_lookahead_same least flush s) as G. destruct (get_lookahead least flush s) as [s1|s1|s1 b]; cbn [turn_keeps].
  - apply (turn_keeps_trans _ s1); [by apply keeps_same|apply Hn].
  - by apply keeps_same.
  - by apply keeps_same.
Qed.

Lemma fast_turn_keeps flush s : turn_keeps s (fast_turn flush s).
Proof.
  apply after_lookahead. clear s. intros s. pose proof (insert_here_same s) as I. destruct (insert_here s) as [s1 h]. cbn [fst] in I.
  pose proof (proj1 (find_same s1 h)) as F. set (s2 := find_fast s1 h) in *. clearbody s2. rewrite I in F. cbv zeta.
  destruct (_ <=? _).
  - destruct (matched _ _ _) as [s3 b] eqn:E. apply (turn_keeps_trans _ (with_win s3 (skip_match (conf s3) (win s2)))); [|apply flush_if_keeps].
    apply keeps_same. rewrite <- F. by injection E as <-.
  - destruct (literal _ _) as [s3 b] eqn:E. apply (turn_keeps_trans _ (advance s3 1)); [|apply flush_if_keeps].
    apply keeps_same. rewrite <- F. by injection E as <-.
Qed.

Lemma slow_turn_keeps flush s : turn_keeps s (slow_turn flush s).
Proof.
  apply after_lookahead. clear s. intros s. pose proof (insert_here_same s) as I. destruct (insert_here s) as [s1 h]. cbn [fst] in I.
  pose proof (proj2 (find_same s1 h)) as F. set (s2 := find_slow s1 h) in *. clearbody s2. rewrite I in F. cbv zeta.
  destruct (_ && _); [|destruct (match_available _); [|by apply keeps_same]].
  - destruct (matched _ _ _) as [s3 b] eqn:E. apply (turn_keeps_trans _ (with_win s3 (skip_prev (conf s3) (win s2)))); [|apply flush_if_keeps].
    apply keeps_same. rewrite <- F. by injection E as <-.
  - destruct (literal _ _) as [s3 b] eqn:E. assert (K3 : keeps s s3) by (apply keeps_same; rewrite <- F; by injection E as <-).
    assert (K : keeps s (advance (if b then flush_block_only s3 0 else s3) 1)).
    { etransitivity; [exact K3|]. destruct b; [apply (flush_block_only_keeps s3)|by apply keeps_same]. }
    by destruct (_ =? 0).
Qed.

Lemma rle_turn_keeps flush s : turn_keeps s (rle_turn flush s).
Proof.
  apply after_lookahead. clear s. intros s. cbv zeta. destruct (_ <=? _).
  - destruct (matched _ _ _) as [s3 b] eqn:E. eapply turn_keeps_trans; [|apply flush_if_keeps]. apply keeps_same. by injection E as <-.
  - destruct (literal _ _) as [s3 b] eqn:E. eapply turn_keeps_trans; [|apply flush_if_keeps]. apply keeps_same. by injection E as <-.
Qed.

Lemma huff_turn_keeps flush s : turn_keeps s (huff_turn flush s).
Proof.
  apply after_lookahead. clear s. intros s. cbv zeta.
  destruct (literal _ _) as [s3 b] eqn:E. eapply turn_keeps_trans; [|apply flush_if_keeps]. apply keeps_same. by injection E as <-.
Qed.

(** *** deflate_stored *)

Lemma stored_turn_same flush m s s' l : stored_turn flush m s = Some (s', l) -> intact (ts s') = intact (ts s).
Proof.
  unfold stored_turn. destruct (_ <? _); [done|]. cbv zeta. destruct (_ && _); [done|]. intros E. injection E as <- _.
  unfold copy_input. destruct (_ =? 0).
  - unfold copy_window. destruct (_ =? 0); [by rewrite flush_pending_same|]. cbn [ts with_win with_strm]. by rewrite flush_pending_same.
  - destruct (read_buf _ _ _) as [buf x]. cbn [ts with_strm]. unfold copy_window.
    destruct (_ =? 0); [by rewrite flush_pending_same|]. cbn [ts with_win with_strm]. by rewrite flush_pending_same.
Qed.

Lemma stored_loop_same n flush m : forall s s' l, stored_loop n flush m s = Some (s', l) -> intact (ts s') = intact (ts s).
Proof.
  induction n as [|n IH]; intros s s' l; cbn [stored_loop]; [done|]. destruct (stored_turn flush m s) as [[s1 [|]]|] eqn:E.
  - intros E2. injection E2 as <- _. by apply (stored_turn_same _ _ _ _ _ E).
  - intros E2. rewrite (IH _ _ _ E2). by apply (stored_turn_same _ _ _ _ _ E).
  - intros E2. by injection E2 as <- _.
Qed.

Lemma window_copied_same s used : intact (ts (window_copied s used)) = intact (ts s).
Proof.
  unfold window_copied. destruct (_ =? 0); [done|]. destruct (_ <=? _); [done|]. destruct (_ <=? _); [|done].
  unfold count_slide. by destruct (_ <? _).
Qed.

Lemma fill_rest_same s : intact (ts (fill_rest s)) = intact (ts s).
Proof.
  unfold fill_rest. destruct (_ && _).
  - unfold count_slide. destruct (matches _ <? 2); cbn [ts with_win with_matches with_ts]; destruct (_ =? 0); try done;
      by destruct (read_buf _ _ _).
  - destruct (_ =? 0); [done|]. by destruct (read_buf _ _ _).
Qed.

Lemma raise_high_same s : intact (ts (raise_high s)) = intact (ts s).
Proof. unfold raise_high. by destruct (_ <? _). Qed.

Lemma stored_pending_same flush s : intact (ts (fst (stored_pending flush s))) = intact (ts s).
Proof. unfold stored_pending. cbv zeta. destruct (_ || _); [|done]. cbn [fst]. by rewrite flush_pending_same. Qed.

Lemma deflate_stored_keeps s flush s' b : deflate_stored s flush = Some (s', b) -> keeps s s'.
Proof.
  unfold deflate_stored. cbv zeta. destruct (stored_loop _ _ _ _) as [[s1 last]|] eqn:E; [|done]. apply stored_loop_same in E.
  set (s2 := raise_high _). assert (E2 : intact (ts s2) = intact (ts s)).
  { unfold s2. rewrite raise_high_same. by rewrite window_copied_same. }
  intros H. apply keeps_same. rewrite <- E2. clearbody s2. injection H as H. destruct last; [by injection H as <-|].
  destruct (_ && _); [by injection H as <-|].
  pose proof (stored_pending_same flush (raise_high (fill_rest s2))) as K. destruct (stored_pending _ _) as [s3 l]. injection H as <- _.
  cbn [fst] in K. by rewrite K, raise_high_same, fill_rest_same.
Qed.

(** *** deflate *)

Lemma compress_some_keeps s flush s' b : compress_some s flush = Some (s', b) -> keeps s s'.
Proof.
  unfold compress_some. destruct (_ =? 0); [apply deflate_stored_keeps|].
  destruct (_ =? _); [apply run_blocks_keeps; intros; [apply huff_turn_keeps|apply end_blocks_keeps]|].
  destruct (_ =? _); [apply run_blocks_keeps; intros; [apply rle_turn_keeps|apply end_blocks_keeps]|].
  destruct (func_of _); [apply deflate_stored_keeps|apply run_blocks_keeps; intros; [apply fast_turn_keeps|apply end_blocks_keeps]|].
  apply run_blocks_keeps; [apply slow_turn_keeps|]. intros s1. cbv zeta.
  transitivity (last_literal s1); [|apply end_blocks_keeps]. apply keeps_same. unfold last_literal. by destruct (match_available _).
Qed.

Lemma finish_same s flush : intact (ts (fst (finish s flush))) = intact (ts s).
Proof.
  unfold finish, write_trailer. destruct (negb _); [done|]. destruct (_ <=? 0); [done|]. cbn [fst].
  destruct (_ =? 2); set (s1 := flush_pending _); assert (E : intact (ts s1) = intact (ts s)) by (unfold s1; by rewrite flush_pending_same); by destruct (0 <? wrap s1).
Qed.

Lemma flush_mark_same s flush : intact (ts (flush_mark s flush)) = intact (ts s).
Proof.
  unfold flush_mark. rewrite flush_pending_same. destruct (_ =? _); [done|]. destruct (negb _); [|done]. by destruct (_ =? _).
Qed.

Lemma deflate_blocks_keeps s flush s' r : deflate_blocks s flush = Some (s', r) -> keeps s s'.
Proof.
  unfold deflate_blocks. destruct (_ || _).
  - destruct (compress_some s flush) as [[s1 b]|] eqn:E; [|done]. apply compress_some_keeps in E. intros H. injection H as H.
    transitivity s1; [exact E|]. apply keeps_same. destruct b.
    + injection H as <- _. by destruct (_ =? 0).
    + destruct (_ =? 0); [injection H as <- _; apply flush_mark_same|].
      apply (f_equal fst) in H. cbn [fst] in H. rewrite <- H, finish_same. apply flush_mark_same.
    + injection H as <- _. by destruct (_ =? 0).
    + apply (f_equal fst) in H. cbn [fst] in H. by rewrite <- H, finish_same.
  - intros H. injection H as H. apply keeps_same. apply (f_equal fst) in H. cbn [fst] in H. by rewrite <- H, finish_same.
Qed.

Lemma write_header_same s : intact (ts (fst (write_header s))) = intact (ts s).
Proof.
  assert (C : forall x, intact (ts (fst (if negb (pending_len x =? 0) then (with_last_flush x (-1), true) else (x, false)))) = intact (ts x))
    by (intros x; by destruct (negb _)).
  unfold write_header. destruct (_ =? _); [rewrite C; unfold write_zlib_header; rewrite flush_pending_same; by destruct (negb _)|].
  destruct (_ =? _); [|done]. rewrite C. unfold write_gzip_header. by rewrite flush_pending_same.
Qed.

(** Once symbols were overwritten, the flag says so to the end. *)
Lemma deflate_keeps s flush s' r : deflate s flush = Some (s', r) -> keeps s s'.
Proof.
  unfold deflate. destruct (_ || _); [intros E; injection E as <- _; by apply keeps_same|]. destruct (_ && _); [intros E; injection E as <- _; by apply keeps_same|].
  destruct (_ =? 0); [intros E; injection E as <- _; by apply keeps_same|]. cbv zeta.
  set (s1 := if negb _ then flush_pending _ else _). assert (E1 : intact (ts s1) = intact (ts s)).
  { unfold s1. destruct (negb _); [by rewrite flush_pending_same|done]. }
  clearbody s1. intros H. transitivity s1; [by apply keeps_same|]. revert H. clear E1.
  destruct (_ && _); [intros E; injection E as <- _; by apply keeps_same|]. destruct (_ && _); [intros E; injection E as <- _; by apply keeps_same|].
  destruct (_ && _); [intros E; injection E as <- _; by apply keeps_same|].
  pose proof (write_header_same s1) as W. destruct (write_header s1) as [s2 stop]. cbn [fst] in W. destruct stop.
  - intros E. injection E as <- _. by apply keeps_same.
  - intros E. apply deflate_blocks_keeps in E. transitivity s2; [by apply keeps_same|done].
Qed.

(** ** Symbols that are overwritten *)

(** 127 matches of length 203 at distance 32000 in buffers for 128 symbols, sent with the
    fixed codes: 31 bits each, while a symbol makes room for 16 only. *)
Definition far_matches : tstate :=
  mk_ts (replicate 573 (mk_ct 0 0)) (replicate 61 (mk_ct 0 0)) (replicate 39 (mk_ct 0 0)) 0 0 0 empty_work
    (replicate 128 200) (replicate 128 32000) 127 128 0 (mk_bitbuf [] 0 0) 0 Z_FIXED 2 true.

Lemma far_matches_overwritten : intact (_tr_flush_block far_matches None 25781 0) = false.
Proof. vm_compute. reflexivity. Qed.

(** With 68 of them nothing is overwritten. *)
Lemma fewer_matches_intact :
  intact (_tr_flush_block (with_buffers far_matches (l_buf far_matches) (d_buf far_matches) 68 0) None 13804 0) = true.
Proof. vm_compute. reflexivity. Qed.
