(* ===== verification/Inflated.v ===== *)
(** * Inflated: the reference decoder of whole streams (RFC 1950, 1951, 1952)

    The blocks of BlockReader.v expanded to bytes, and the wrappers of zlib and gzip
    taken off.  The decoder knows the formats only; it refuses distances beyond the
    data or the window, wrong checks and wrong sizes. *)

From S2P Require Import Prelude.
From S2P Require Import Crc32.
From S2P Require Import Adler32.
From S2P Require Import Inftrees.
From S2P Require Import Trees.
From S2P Require Import Canon.
From S2P Require Import BlockReader.
From S2P Require Import TreeSend.
From S2P Require Import Lz.

#[local] Open Scope Z_scope.

(** ** Expanding *)

(** [n] bytes from [d] back, one at a time, so that a copy may overlap itself. *)
Fixpoint copy_match (n : nat) (d : Z) (h : list Z) : list Z :=
  match n with
  | O => h
  | S n => copy_match n d (h ++ [get h (Z.of_nat (length h) - d)])
  end.

(** [h]: what has been expanded before; [limit]: the size of the window. *)
Fixpoint expand (limit : Z) (h : list Z) (l : list symbol) : option (list Z) :=
  match l with
  | [] => Some h
  | Literal c :: l => expand limit (h ++ [c]) l
  | Match d n :: l =>
      if (1 <=? d) && (d <=? Z.of_nat (length h)) && (d <=? limit) then expand limit (copy_match (Z.to_nat n) d h) l else None
  | EndOfBlock :: _ => None
  end.
Definition expand_content (limit : Z) (h : list Z) (c : content) : option (list Z) :=
  match c with
  | Bytes l => Some (h ++ l)
  | Symbols l => expand limit h l
  end.
Fixpoint unpack (limit : Z) (h : list Z) (cs : list content) : option (list Z) :=
  match cs with
  | [] => Some h
  | c :: cs => match expand_content limit h c with Some h => unpack limit h cs | None => None end
  end.

Lemma expand_app limit l1 l2 : forall h,
  expand limit h (l1 ++ l2) = match expand limit h l1 with Some h => expand limit h l2 | None => None end.
Proof.
  induction l1 as [|x l1 IH]; intros h; [done|]. cbn [app expand]. destruct x as [c|d n|]; [apply IH| |done].
  destruct (_ && _); [apply IH|done].
Qed.

Lemma unpack_app limit cs1 cs2 : forall h,
  unpack limit h (cs1 ++ cs2) = match unpack limit h cs1 with Some h => unpack limit h cs2 | None => None end.
Proof.
  induction cs1 as [|x cs1 IH]; intros h; [done|]. cbn [app unpack]. destruct (expand_content _ _ _); [apply IH|done].
Qed.

(** ** Prefixes of the data *)

Definition upto (D : list Z) (q : Z) : list Z := take (Z.to_nat q) D.

Lemma length_upto D q : 0 <= q <= Z.of_nat (length D) -> Z.of_nat (length (upto D q)) = q.
Proof. intros. unfold upto. rewrite length_take. lia. Qed.

Lemma upto_all D : upto D (Z.of_nat (length D)) = D.
Proof. unfold upto. rewrite Nat2Z.id. by apply take_ge. Qed.

Lemma upto_app D x q : q <= Z.of_nat (length D) -> upto (D ++ x) q = upto D q.
Proof. intros. unfold upto. apply take_app_le. lia. Qed.

Lemma upto_snoc D q : 0 <= q < Z.of_nat (length D) -> upto D (q + 1) = upto D q ++ [get D q].
Proof.
  intros Hq. unfold upto, get. replace (Z.to_nat (q + 1)) with (S (Z.to_nat q)) by lia.
  assert (Hk : (Z.to_nat q < length D)%nat) by lia. revert Hk. generalize (Z.to_nat q) as k. clear.
  induction D as [|x D IH]; intros k Hk; cbn in Hk; [lia|]. destruct k as [|k]; [done|]. cbn. f_equal. apply (IH k). lia.
Qed.

(** A match that repeats the data copies it. *)
Lemma copy_match_data D d n : forall p, 1 <= d <= p -> p + Z.of_nat n <= Z.of_nat (length D) ->
  (forall i, 0 <= i < Z.of_nat n -> get D (p - d + i) = get D (p + i)) ->
  copy_match n d (upto D p) = upto D (p + Z.of_nat n).
Proof.
  induction n as [|n IH]; intros p Hd Hn E; cbn [copy_match]; [f_equal; lia|].
  rewrite length_upto by lia. unfold upto at 2. rewrite get_take by lia.
  specialize (E 0 ltac:(lia)) as E0. rewrite !Z.add_0_r in E0. rewrite E0, <- upto_snoc by lia.
  rewrite IH; [f_equal; lia|lia|lia|]. intros i Hi.
  replace (p + 1 - d + i) with (p - d + (i + 1)) by lia. replace (p + 1 + i) with (p + (i + 1)) by lia. apply E. lia.
Qed.

(** ** No more symbols than bits *)

Lemma decode_sym_shorter lens k bs : forall fuel l code c rest,
  decode_sym fuel lens k l code bs = Some (c, rest) -> (length rest < length bs)%nat.
Proof.
  induction bs as [|b bs IH]; intros [|fuel] l code c rest; cbn [decode_sym]; try done.
  destruct (_ <? _).
  - destruct (_ <? 0); [done|]. destruct (nth_error _ _); [|done]. cbn. intros E. injection E as _ <-. lia.
  - intros E. apply IH in E. cbn. lia.
Qed.

Lemma bits_r_shorter n bs v rest : bits_r n bs = Some (v, rest) -> (length rest <= length bs)%nat.
Proof. unfold bits_r. destruct (_ <=? _)%nat; [|done]. intros E. injection E as _ <-. rewrite length_drop. lia. Qed.

Lemma based_r_shorter base ext i bs v rest : based_r base ext i bs = Some (v, rest) -> (length rest <= length bs)%nat.
Proof.
  unfold based_r, bind_r. destruct (bits_r _ bs) as [[e b1]|] eqn:E; [|done]. apply bits_r_shorter in E.
  intros F. injection F as _ <-. lia.
Qed.

Lemma symbol_r_shorter c bs s rest : symbol_r c bs = Some (s, rest) -> (length rest < length bs)%nat.
Proof.
  unfold symbol_r, bind_r. destruct (decode _ _ bs) as [[sym b1]|] eqn:E; [|done]. apply decode_sym_shorter in E.
  destruct (_ <? _)%nat; [intros F; injection F as _ <-; lia|]. destruct (_ =? _)%nat; [intros F; injection F as _ <-; lia|].
  destruct (_ <=? _)%nat; [done|]. destruct (based_r lbase _ _ b1) as [[len b2]|] eqn:E2; [|done]. apply based_r_shorter in E2.
  destruct (decode _ _ b2) as [[d b3]|] eqn:E3; [|done]. apply decode_sym_shorter in E3. destruct (_ <=? _)%nat; [done|].
  destruct (based_r dbase _ _ b3) as [[dist b4]|] eqn:E4; [|done]. apply based_r_shorter in E4. intros F. injection F as _ <-. lia.
Qed.

(** As many turns as there are bits are enough. *)
Lemma symbols_r_enough c n : forall bs l rest, symbols_r n c bs = Some (l, rest) ->
  (length rest < length bs)%nat /\ forall m, (length bs <= m)%nat -> symbols_r m c bs = Some (l, rest).
Proof.
  induction n as [|n IH]; intros bs l rest; [done|]. cbn [symbols_r]. unfold bind_r.
  destruct (symbol_r c bs) as [[s b1]|] eqn:E; [|done]. pose proof (symbol_r_shorter _ _ _ _ E) as L.
  assert (G : forall m, (length bs <= m)%nat -> exists m', m = S m' /\ (length b1 <= m')%nat).
  { intros [|m] Hm; [lia|]. exists m. lia. }
  destruct s as [v|d k|].
  - destruct (symbols_r n c b1) as [[l' b2]|] eqn:E1; [|done]. intros F. injection F as <- <-. destruct (IH _ _ _ E1) as [L1 M1].
    split; [lia|]. intros m Hm. destruct (G m Hm) as (m' & -> & Hm'). cbn [symbols_r]. unfold bind_r. by rewrite E, (M1 m' Hm').
  - destruct (symbols_r n c b1) as [[l' b2]|] eqn:E1; [|done]. intros F. injection F as <- <-. destruct (IH _ _ _ E1) as [L1 M1].
    split; [lia|]. intros m Hm. destruct (G m Hm) as (m' & -> & Hm'). cbn [symbols_r]. unfold bind_r. by rewrite E, (M1 m' Hm').
  - intros F. injection F as <- <-. split; [lia|]. intros m Hm. destruct (G m Hm) as (m' & -> & _). cbn [symbols_r]. unfold bind_r.
    by rewrite E.
Qed.

Lemma bits_r_len n bs v rest : bits_r n bs = Some (v, rest) -> (length rest + n = length bs)%nat.
Proof. unfold bits_r. destruct (Nat.leb_spec n (length bs)); [|done]. intros E. injection E as _ <-. rewrite length_drop. lia. Qed.

Lemma bytes_r_shorter n : forall bs l rest, bytes_r n bs = Some (l, rest) -> (length rest <= length bs)%nat.
Proof.
  induction n as [|n IH]; intros bs l rest; cbn [bytes_r]; [intros F; injection F as _ <-; lia|]. unfold bind_r.
  destruct (bits_r 8 bs) as [[c b1]|] eqn:E; [|done]. apply bits_r_len in E.
  destruct (bytes_r n b1) as [[l' b2]|] eqn:E1; [|done]. apply IH in E1. intros F. injection F as _ <-. lia.
Qed.

Lemma cl_lens_r_shorter n : forall i cl bs l rest, cl_lens_r n i cl bs = Some (l, rest) -> (length rest <= length bs)%nat.
Proof.
  induction n as [|n IH]; intros i cl bs l rest; cbn [cl_lens_r]; [intros F; injection F as _ <-; lia|]. unfold bind_r.
  destruct (bits_r 3 bs) as [[c b1]|] eqn:E; [|done]. apply bits_r_len in E. intros F. apply IH in F. lia.
Qed.

Lemma lens_r_shorter fuel : forall want cl acc bs l rest, lens_r fuel want cl acc bs = Some (l, rest) -> (length rest <= length bs)%nat.
Proof.
  induction fuel as [|fuel IH]; intros want cl acc bs l rest; cbn [lens_r];
    (destruct (_ =? _)%nat; [intros F; injection F as _ <-; lia|]); [done|].
  unfold bind_r. destruct (decode cl 19 bs) as [[sym b1]|] eqn:E; [|done]. apply decode_sym_shorter in E.
  assert (R : forall (n : Z) (v : Z) b, (if (want <? length (acc ++ replicate (Z.to_nat n) v))%nat then fail_r
    else lens_r fuel want cl (acc ++ replicate (Z.to_nat n) v)) b = Some (l, rest) -> (length rest <= length b)%nat).
  { intros n v b. destruct (_ <? _)%nat; [done|]. apply IH. }
  destruct (_ <? _)%nat; [intros F; apply R in F; lia|]. destruct (_ =? 16)%nat.
  - destruct (rev acc); [done|]. destruct (bits_r 2 b1) as [[n b2]|] eqn:E2; [|done]. apply bits_r_len in E2. intros F. apply R in F. lia.
  - destruct (_ =? 17)%nat.
    + destruct (bits_r 3 b1) as [[n b2]|] eqn:E2; [|done]. apply bits_r_len in E2. intros F. apply R in F. lia.
    + destruct (bits_r 7 b1) as [[n b2]|] eqn:E2; [|done]. apply bits_r_len in E2. intros F. apply R in F. lia.
Qed.

Lemma header_r_shorter bs c rest : header_r bs = Some (c, rest) -> (length rest <= length bs)%nat.
Proof.
  unfold header_r, bind_r. destruct (bits_r 5 bs) as [[a b1]|] eqn:E1; [|done]. apply bits_r_len in E1.
  destruct (bits_r 5 b1) as [[b b2]|] eqn:E2; [|done]. apply bits_r_len in E2.
  destruct (bits_r 4 b2) as [[d b3]|] eqn:E3; [|done]. apply bits_r_len in E3.
  destruct (cl_lens_r _ _ _ b3) as [[e b4]|] eqn:E4; [|done]. apply cl_lens_r_shorter in E4.
  destruct (lens_r _ _ _ _ b4) as [[f b5]|] eqn:E5; [|done]. apply lens_r_shorter in E5. intros F. injection F as _ <-. lia.
Qed.

Lemma block_r_enough pos n bs r rest : block_r pos n bs = Some (r, rest) ->
  (length rest < length bs)%nat /\ forall m, (length bs <= m)%nat -> block_r pos m bs = Some (r, rest).
Proof.
  unfold block_r, bind_r. destruct (bits_r 1 bs) as [[a b1]|] eqn:E1; [|done]. apply bits_r_len in E1.
  destruct (bits_r 2 b1) as [[ty b2]|] eqn:E2; [|done]. apply bits_r_len in E2. destruct (ty =? STORED_BLOCK).
  - intros H. split; [|done]. destruct (bits_r _ b2) as [[x b3]|] eqn:E3 in H; [|done]. apply bits_r_len in E3.
    destruct (bits_r 16 b3) as [[len b4]|] eqn:E4 in H; [|done]. apply bits_r_len in E4.
    destruct (bits_r 16 b4) as [[nlen b5]|] eqn:E5 in H; [|done]. apply bits_r_len in E5. destruct (_ =? _); [|done].
    destruct (bytes_r _ b5) as [[l b6]|] eqn:E6 in H; [|done]. apply bytes_r_shorter in E6. injection H as _ <-. lia.
  - destruct (ty =? STATIC_TREES); [|destruct (ty =? DYN_TREES); [|done]].
    + destruct (symbols_r n fixed_codes b2) as [[l b3]|] eqn:E3; [|done]. destruct (symbols_r_enough _ _ _ _ _ E3) as [L M].
      intros F. injection F as <- <-. split; [lia|]. intros m Hm. by rewrite M by lia.
    + destruct (header_r b2) as [[c b3]|] eqn:E3; [|done]. apply header_r_shorter in E3.
      destruct (symbols_r n c b3) as [[l b4]|] eqn:E4; [|done]. destruct (symbols_r_enough _ _ _ _ _ E4) as [L M].
      intros F. injection F as <- <-. split; [lia|]. intros m Hm. by rewrite M by lia.
Qed.

(** Only the alignment of the position matters. *)
Lemma block_r_aligned pos pos' n bs : (pos - pos') mod 8 = 0 -> block_r pos n bs = block_r pos' n bs.
Proof.
  intros E. unfold block_r. replace (- (pos + 3) mod 8) with (- (pos' + 3) mod 8); [done|].
  apply Z.mod_divide in E as [k E]; [|done]. replace (- (pos' + 3)) with (- (pos + 3) + k * 8) by lia. apply Z.mod_add. lia.
Qed.

(** ** Streams of blocks *)

Definition block_at (pos : Z) (b : list bool) (r : bool * content) : Prop := exists n, reads (block_r pos n) b r.

(** [bs] are blocks, none the last, that hold [cs]. *)
Inductive written : list bool -> list content -> Prop :=
| written_nil : written [] []
| written_snoc bs cs b c :
    written bs cs -> block_at (Z.of_nat (length bs)) b (false, c) -> written (bs ++ b) (cs ++ [c]).

(** All blocks up to the last one. *)
Definition inflate_bits (bs : list bool) : option (list content * list bool) :=
  stream_r (S (length bs)) (length bs) (length bs) bs.

Lemma block_at_some pos b r tail fuel : block_at pos b r -> (length (b ++ tail) <= fuel)%nat ->
  block_r pos fuel (b ++ tail) = Some (r, tail) /\ (0 < length b)%nat.
Proof.
  intros [n R] Hf. destruct (block_r_enough _ _ _ _ _ (R tail)) as [L M]. split; [by apply M|]. rewrite length_app in L. lia.
Qed.

Lemma written_read bs cs : written bs cs -> (length cs <= length bs)%nat /\
  forall tail total n, total = length (bs ++ tail) ->
    stream_r (length cs + n) total total (bs ++ tail) =
    match stream_r n total total tail with Some (l, r) => Some (cs ++ l, r) | None => None end.
Proof.
  induction 1 as [|bs cs b c W [IL IH] B].
  { split; [done|]. intros tail total n _. cbn. by destruct (stream_r _ _ _ _) as [[l r]|]. }
  split.
  - destruct (block_at_some _ _ _ [] _ B (le_n _)) as [_ L]. rewrite !length_app. cbn. lia.
  - intros tail total n E. rewrite <- !app_assoc in *. rewrite length_app, <- Nat.add_assoc.
    rewrite IH by done. change (length [c] + n)%nat with (S n). cbn [stream_r].
    destruct (block_at_some _ _ _ tail total B) as [R _]; [rewrite E, !length_app; lia|].
    replace (Z.of_nat (total - length (b ++ tail))) with (Z.of_nat (length bs)) by (rewrite E, !length_app; lia). rewrite R.
    destruct (stream_r n total total tail) as [[l r]|]; [|done]. by rewrite <- app_assoc.
Qed.

Lemma inflate_written bs cs b c tail : written bs cs -> block_at (Z.of_nat (length bs)) b (true, c) ->
  inflate_bits (bs ++ b ++ tail) = Some (cs ++ [c], tail).
Proof.
  intros W B. destruct (written_read bs cs W) as [L R]. unfold inflate_bits. set (total := length (bs ++ b ++ tail)).
  assert (Lt : (length bs + length b <= total)%nat) by (unfold total; rewrite !length_app; lia).
  replace (S total) with (length cs + S (total - length cs))%nat by lia. rewrite R by done. cbn [stream_r].
  destruct (block_at_some _ _ _ tail total B) as [E _]; [unfold total; rewrite !length_app; lia|].
  replace (Z.of_nat (total - length (b ++ tail))) with (Z.of_nat (length bs)) by (unfold total; rewrite !length_app; lia). by rewrite E.
Qed.

(** ** Wrappers *)

(** The data, and the bytes behind the last block. *)
Definition inflate_bytes (limit : Z) (l : list Z) : option (list Z * list Z) :=
  match inflate_bits (byte_bits l) with
  | Some (cs, rest) =>
      match unpack limit [] cs with Some d => Some (d, drop (length l - length rest / 8) l) | None => None end
  | None => None
  end.

Definition be32 (a b c d : Z) : Z := a * 2 ^ 24 + b * 2 ^ 16 + c * 2 ^ 8 + d.

(** RFC 1950, without preset dictionaries. *)
Definition zlib_decode (l : list Z) : option (list Z) :=
  match l with
  | cmf :: flg :: l =>
      if ((cmf * 256 + flg) mod 31 =? 0) && (cmf mod 16 =? 8) && (cmf / 16 <=? 7) && negb (Z.testbit flg 5) then
        match inflate_bytes (2 ^ (cmf / 16 + 8)) l with
        | Some (D, [a; b; c; d]) => if be32 a b c d =? pack (adler_ref (1, 0) D) then Some D else None
        | _ => None
        end
      else None
  | _ => None
  end.

(** RFC 1952, without the optional fields. *)
Definition gzip_decode (l : list Z) : option (list Z) :=
  match l with
  | 31 :: 139 :: 8 :: 0 :: _ :: _ :: _ :: _ :: _ :: _ :: l =>
      match inflate_bytes (2 ^ 15) l with
      | Some (D, [a; b; c; d; e; f; g; h]) =>
          if (be32 d c b a =? crc_spec 0 D) && (be32 h g f e =? u32 (Z.of_nat (length D))) then Some D else None
      | _ => None
      end
  | _ => None
  end.

Definition raw_decode (w_bits : Z) (l : list Z) : option (list Z) :=
  match inflate_bytes (2 ^ w_bits) l with Some (D, []) => Some D | _ => None end.

(** [byte_bits] with bits to fill the last byte. *)
Lemma inflate_bytes_written limit l bs cs b c pad tail D : byte_bits l = bs ++ b ++ replicate pad false ++ byte_bits tail ->
  (pad < 8)%nat -> written bs cs -> block_at (Z.of_nat (length bs)) b (true, c) -> unpack limit [] (cs ++ [c]) = Some D ->
  inflate_bytes limit l = Some (D, drop (length l - length tail) l).
Proof.
  intros E Hp W B U. unfold inflate_bytes. rewrite E, (inflate_written bs cs b c) by done. rewrite U. do 3 f_equal.
  rewrite length_app, length_replicate, length_byte_bits. rewrite Nat.mul_comm, Nat.div_add, Nat.div_small by lia. lia.
Qed.
