(* ===== verification/Blocks.v ===== *)
(** * Blocks: what the compressors of Deflate.v keep true

    The invariant that joins the window, the symbols tallied, the bits put out and the
    input read, and its preservation by reading, tallying and flushing. *)

From S2P Require Import Prelude.
From S2P Require Import Crc32.
From S2P Require Import Adler32.
From S2P Require Import Trees.
From S2P Require Import Canon.
From S2P Require Import BlockReader.
From S2P Require Import TreeSend.
From S2P Require Import Lz.
From S2P Require Import Deflate.
From S2P Require Import Inflated.

#[local] Open Scope Z_scope.

(** ** What has been put out *)

Definition all_bits (s : dstate) : list bool := byte_bits (next_out (strm s)) ++ stream (bits s).

(** [R]: the size of the output buffer, filled and free. *)
Record out_ok (R : Z) (x : z_stream) : Prop := {
  o_bytes : bytes_ok (next_out x);
  o_avail : 0 <= avail_out x;
  o_room : Z.of_nat (length (next_out x)) + avail_out x = R;
  o_total : total_out x = u64 (Z.of_nat (length (next_out x)))
}.

Ltac ds_fields := cbn [conf win ts strm wrap status last_flush with_win with_ts with_strm with_status with_last_flush with_wrap
  next_in next_out avail_out total_in total_out adler write_out with_adler].

Lemma u64_add a b : u64 (u64 a + b) = u64 (a + b).
Proof. unfold u64. by rewrite Zplus_mod_idemp_l. Qed.

Lemma write_out_ok R x l : out_ok R x -> bytes_ok l -> Z.of_nat (length l) <= avail_out x ->
  out_ok R (write_out x l (Z.of_nat (length l))).
Proof.
  intros [O1 O2 O3 O4] Hl Ha. constructor; ds_fields; rewrite ?length_app; [by apply Forall_app|lia|lia|].
  rewrite O4, u64_add. f_equal. lia.
Qed.

(** Only bytes were moved to the output. *)
Definition moved (s s' : dstate) : Prop :=
  s' = mk_ds (conf s) (win s) (with_out (ts s) (bits s'))
         (mk_strm (next_in (strm s)) (next_out (strm s')) (avail_out (strm s')) (total_in (strm s)) (total_out (strm s')) (adler (strm s)))
         (wrap s) (status s) (last_flush s).

Lemma flush_pending_ok R s : bitbuf_ok (bits s) -> out_ok R (strm s) ->
  let s' := flush_pending s in
  moved s s' /\ bitbuf_ok (bits s') /\ out_ok R (strm s') /\ all_bits s' = all_bits s /\
  (avail_out (strm s') <> 0 -> pending (bits s') = []) /\ (bi_valid (bits s) = 0 -> bi_valid (bits s') = 0).
Proof.
  intros Hb Ho. cbv zeta. unfold flush_pending. destruct (bi_flush_stream (bits s) Hb) as (B1 & B2 & B3).
  fold (_tr_flush_bits (bits s)) in B1, B2, B3. set (b := _tr_flush_bits (bits s)) in *.
  set (s1 := with_bits s b). change (bits s1) with b. change (pending_len s1) with (Z.of_nat (length (pending b))).
  change (strm s1) with (strm s). pose proof (o_avail _ _ Ho) as Ha.
  assert (Z0 : bi_valid (bits s) = 0 -> bi_valid b = 0) by (intros E; unfold b, _tr_flush_bits, bi_flush; by rewrite E).
  set (n := if avail_out (strm s) <? Z.of_nat (length (pending b)) then avail_out (strm s) else Z.of_nat (length (pending b))).
  assert (Hn : n = Z.min (avail_out (strm s)) (Z.of_nat (length (pending b)))) by (unfold n; destruct (Z.ltb_spec (avail_out (strm s)) (Z.of_nat (length (pending b)))); lia).
  destruct (Z.eqb_spec n 0) as [E|E].
  - split.
    { unfold moved, s1, with_bits, with_ts. change (bits (mk_ds _ _ (with_out (ts s) b) _ _ _ _)) with b. ds_fields. by destruct (strm s). }
    split; [done|]. split; [done|].
    split; [unfold all_bits; change (bits s1) with b; by rewrite B2|]. split; [|done].
    intros Hx. change (strm s1) with (strm s) in Hx. change (bits s1) with b. destruct (pending b); [done|]. cbn [length] in *. lia.
  - set (l := take (Z.to_nat n) (pending b)). assert (Ll : Z.of_nat (length l) = n) by (unfold l; rewrite length_take; lia).
    destruct B1 as (P1 & P2 & P3).
    assert (Hl : bytes_ok l) by (by apply Forall_take).
    pose proof (write_out_ok R (strm s) l Ho Hl ltac:(lia)) as W. rewrite Ll in W.
    split; [done|]. split; [split; [by apply Forall_drop|done]|]. split; [exact W|]. split; [|split; [|done]].
    + unfold all_bits. rewrite <- B2. unfold stream, bits, with_bits. cbn [ts with_ts with_strm strm out with_out].
      cbn [pending bi_buf bi_valid write_out next_out].
      rewrite byte_bits_app, <- !app_assoc. f_equal. rewrite app_assoc, <- byte_bits_app. unfold l. by rewrite take_drop.
    + unfold bits, with_bits. cbn [ts with_ts with_strm strm out with_out write_out avail_out pending]. intros Hx.
      apply drop_ge. lia.
Qed.

(** Flushing keeps the level and the strategy. *)
Lemma build_trees_mode t : level (fst (build_trees t)) = level t /\ strategy (fst (build_trees t)) = strategy t.
Proof.
  unfold build_trees. set (t0 := if data_type t =? Z_UNKNOWN then _ else _).
  assert (E : level t0 = level t /\ strategy t0 = strategy t) by (unfold t0; by destruct (data_type t =? Z_UNKNOWN)).
  clearbody t0. destruct (TreeBuild.build_tree _ _ (wk t0)) as [[l lm] w1]. destruct (TreeBuild.build_tree _ _ w1) as [[d dm] w2].
  unfold build_bl_tree. destruct (scan_tree _ _ _) as [l' bl1]. destruct (scan_tree _ _ bl1) as [d' bl2].
  by destruct (TreeBuild.build_tree _ bl2 _) as [[bl bm] w3].
Qed.

Lemma tr_flush_mode t buf n last :
  level (_tr_flush_block t buf n last) = level t /\ strategy (_tr_flush_block t buf n last) = strategy t.
Proof.
  unfold _tr_flush_block. destruct (if 0 <? level t then _ else _) as [[[t1 m] o] sl] eqn:E.
  assert (E1 : level t1 = level t /\ strategy t1 = strategy t).
  { destruct (0 <? level t); [|by injection E as <- _ _ _]. pose proof (build_trees_mode t) as M.
    destruct (build_trees t) as [t2 m2]. by injection E as <- _ _ _. }
  clear E. set (c := if _ || _ then _ else _). assert (E2 : level c = level t /\ strategy c = strategy t).
  { unfold c. by destruct (_ || _). }
  clearbody c. set (f := match buf with Some _ => _ | None => _ end).
  assert (E3 : level f = level t /\ strategy f = strategy t) by (unfold f; destruct buf; [destruct (_ <=? _)|]; done).
  clearbody f. by destruct (negb (last =? 0)).
Qed.

(** ** Slices *)

Lemma get_ext a b : length a = length b -> (forall i, 0 <= i < Z.of_nat (length a) -> get a i = get b i) -> a = b.
Proof.
  intros El E. apply (nth_ext _ _ 0 0); [done|]. intros n Hn. specialize (E (Z.of_nat n) ltac:(lia)). unfold get in E.
  by rewrite Nat2Z.id in E.
Qed.

Lemma upto_slice D a n : 0 <= a -> 0 <= n -> upto D a ++ bytes_at D a n = upto D (a + n).
Proof. intros. unfold upto, bytes_at. rewrite Z2Nat.inj_add by lia. by rewrite take_take_drop. Qed.

(** A piece of the window is a piece of the data. *)
Lemma window_slice p D s i n : params_ok p -> holds p D s -> 0 <= i -> 0 <= n -> i + n <= strstart s + lookahead s ->
  bytes_at (window s) i n = bytes_at D (Z.of_nat (length D) - (strstart s + lookahead s) + i) n.
Proof.
  intros Hp [H1 H2 H3 H4 H5 H6 H7 H8] Hi Hn Hb.
  assert (L1 : Z.of_nat (length (bytes_at (window s) i n)) = n) by (apply length_bytes_at; lia).
  assert (L2 : Z.of_nat (length (bytes_at D (Z.of_nat (length D) - (strstart s + lookahead s) + i) n)) = n) by (apply length_bytes_at; lia).
  apply get_ext; [lia|]. intros j Hj. rewrite !get_bytes_at, H7 by lia. f_equal. lia.
Qed.

(** What was put out before is whole bytes, so a block may be read without them. *)
Lemma block_moved s h bs b r : all_bits s = byte_bits h ++ bs -> block_at (Z.of_nat (length (stream (bits s)))) b r ->
  block_at (Z.of_nat (length bs)) b r.
Proof.
  intros E [n B]. exists n. intros rest. rewrite <- (B rest). apply block_r_aligned.
  apply (f_equal (@length bool)) in E. unfold all_bits in E. rewrite !length_app, !length_byte_bits in E.
  replace (Z.of_nat (length bs) - Z.of_nat (length (stream (bits s)))) with
    ((Z.of_nat (length (next_out (strm s))) - Z.of_nat (length h)) * 8) by lia. apply Z.mod_mul. lia.
Qed.

(** ** The invariant of the compressors *)

Section Core.
(** The level, the strategy, the wrapper and the parameters of the stream; the size of
    the output buffer; the header. *)
Context (L St W : Z) (P : params) (HP : params_ok P) (R : Z) (hdr : list Z).

Definition emitted (s : dstate) (cs : list content) : Prop :=
  exists bs, all_bits s = byte_bits hdr ++ bs /\ written bs cs.

(** Where the current block starts in the data. *)
Definition block_abs (D : list Z) (w : lz) : Z := Z.of_nat (length D) - lookahead w - strstart w + block_start w.

(** [D]: the input read so far; its first [q] bytes are in the blocks put out and in
    the symbols tallied. *)
Record core (D : list Z) (q : Z) (s : dstate) : Prop := {
  i_conf : conf s = P;
  i_mode : level (ts s) = L /\ strategy (ts s) = St /\ wrap s = W;
  i_status : status s = BUSY_STATE;
  i_holds : holds P D (win s);
  i_tally : tally_ok (ts s);
  i_lits : (last_lit (ts s) < lit_bufsize (ts s))%nat /\ (2 <= lit_bufsize (ts s))%nat /\ Z.of_nat (lit_bufsize (ts s)) <= 32768;
  i_bits : bitbuf_ok (bits s);
  i_out : out_ok R (strm s);
  i_in : bytes_ok (next_in (strm s));
  i_data : bytes_ok D;
  i_check : check_ok W (adler (strm s)) D;
  i_total : total_in (strm s) = u64 (Z.of_nat (length D));
  i_q : 0 <= block_abs D (win s) <= q /\ q <= Z.of_nat (length D);
  i_coded : exists cs, emitted s cs /\ unpack (w_size P) [] cs = Some (upto D (block_abs D (win s))) /\
    expand (w_size P) (upto D (block_abs D (win s))) (buffered (ts s)) = Some (upto D q)
}.

(** The window may change as long as it holds the data and the block starts where it did. *)
Lemma core_win D q s w : core D q s -> holds P D w -> block_abs D w = block_abs D (win s) -> core D q (with_win s w).
Proof using. intros [? ? ? ? ? ? ? ? ? ? ? ? Hq Hc] Hw E. constructor; ds_fields; rewrite ?E; done. Qed.

(** *** Reading *)

Lemma refill_ok D q s : core D q s -> insert_ok (win s) -> lookahead (win s) < MIN_LOOKAHEAD ->
  let s' := refill s in
  exists taken, core (D ++ taken) q s' /\ filled P D taken W (win s) (win s') (strm s) (strm s') /\
    ts s' = ts s /\ last_flush s' = last_flush s.
Proof using HP.
  intros C I Hl. destruct C as [Ec (El & Es & Ew) Est Ho Ht Hli Hb Hou Hi Hd Hch Hto Hq Hc].
  pose proof (fill_window_ok P HP D W (win s) (strm s) Ho I Hi Hl) as F. unfold refill. rewrite Ec, Ew.
  destruct (fill_window P W (win s) (strm s)) as [w x]. destruct F as [taken F]. cbv zeta. exists taken.
  split; [|by split]. destruct F as [[K1 (K2 & K3 & K4) K5 K6] F2 (k & _ & Sd) F4 F5 F6 F7 F8].
  assert (Hi' : bytes_ok taken /\ bytes_ok (next_in x)) by (rewrite K1 in Hi; by apply Forall_app in Hi).
  assert (Ea : block_abs (D ++ taken) w = block_abs D (win s)).
  { unfold block_abs. rewrite length_app, F4, (d_strstart _ _ _ Sd), (d_block _ _ _ Sd). lia. }
  constructor; ds_fields; try done.
  - destruct Hou as [O1 O2 O3 O4]. constructor; rewrite ?K2, ?K3, ?K4; done.
  - by apply Hi'.
  - apply Forall_app. split; [done|apply Hi'].
  - apply K6; [done|apply Hi'|done].
  - rewrite length_app, Nat2Z.inj_add. destruct K5 as [-> |[-> ->]]; [rewrite Hto; apply u64_add|].
    cbn [length]. by rewrite Z.add_0_r.
  - rewrite Ea, length_app. lia.
  - destruct Hc as (cs & (bs & B1 & B2) & U & X). exists cs. split; [exists bs; split; [|done]|].
    + unfold all_bits in *. unfold bits in *. ds_fields. by rewrite K2.
    + rewrite Ea, !upto_app by lia. done.
Qed.

(** *** Tallying *)

Definition roomy (s : dstate) : Prop := (S (last_lit (ts s)) < lit_bufsize (ts s))%nat.

(** A pair was tallied that stands for the bytes from [q] to [q']. *)
Lemma tallied_ok D q q' s t dist lc : core D q s -> roomy s -> symbol_ok dist lc -> q <= q' <= Z.of_nat (length D) ->
  expand (w_size P) (upto D q) [symbol_of dist lc] = Some (upto D q') ->
  (exists m, t = with_buffers (fst (_tr_tally (ts s) dist lc)) (l_buf (fst (_tr_tally (ts s) dist lc)))
     (d_buf (fst (_tr_tally (ts s) dist lc))) (last_lit (fst (_tr_tally (ts s) dist lc))) m) ->
  core D q' (with_ts s t) /\ last_lit t = S (last_lit (ts s)) /\ lit_bufsize t = lit_bufsize (ts s) /\
  buffered t = buffered (ts s) ++ [symbol_of dist lc].
Proof using.
  intros [Ec (El & Es & Ew) Est Ho Ht (Hl1 & Hl2 & Hl3) Hb Hou Hi Hd Hch Hto Hq Hc] Hr Hs Hq' Hx [m ->].
  destruct (tr_tally_ok (ts s) dist lc Ht Hs Hl1 Hl3) as (T & N & B & O & S1). cbv zeta in *.
  assert (F : level (fst (_tr_tally (ts s) dist lc)) = level (ts s) /\ strategy (fst (_tr_tally (ts s) dist lc)) = strategy (ts s)).
  { unfold _tr_tally. by destruct (dist =? 0). }
  destruct F as [F1 F2]. set (t := fst (_tr_tally (ts s) dist lc)) in *. clearbody t.
  unfold roomy in Hr.
  set (t' := with_buffers t (l_buf t) (d_buf t) (last_lit t) m).
  assert (E : last_lit t' = last_lit t /\ lit_bufsize t' = lit_bufsize t /\ buffered t' = buffered t) by done.
  destruct E as (E1 & E2 & E3). split; [|by rewrite E1, E2, E3].
  constructor; ds_fields; try done.
  - unfold t'. cbn [level strategy with_buffers]. by rewrite F1, F2.
  - destruct T as [Sz ? ? ? ? ?]. constructor; try done. destruct Sz. by constructor.
  - rewrite E1, E2, N, B. lia.
  - unfold bits in *. ds_fields. change (out t') with (out t). by rewrite O.
  - lia.
  - destruct Hc as (cs & (bs & B1 & B2) & U & X). exists cs. split; [exists bs; split; [|done]|].
    + unfold all_bits, bits in *. ds_fields. change (out t') with (out t). by rewrite O.
    + split; [done|]. rewrite E3, S1, expand_app, X. done.
Qed.

Lemma literal_ok D q s pos : core D q s -> roomy s -> 0 <= q < Z.of_nat (length D) -> get (window (win s)) pos = get D q ->
  let '(s', bflush) := literal s pos in
  core D (q + 1) s' /\ (bflush = false -> roomy s') /\ s' = with_ts s (ts s') /\
  buffered (ts s') = buffered (ts s) ++ [Literal (get D q)].
Proof using.
  intros C Hr Hq E. unfold literal. rewrite E. pose proof (get_byte D q (i_data _ _ _ C)) as Hb. unfold byte_ok in Hb.
  rewrite tr_tally_lit_same by done.
  destruct (tallied_ok D q (q + 1) s (fst (_tr_tally (ts s) 0 (get D q))) 0 (get D q) C Hr) as (C' & N & B & Sb).
  - split; lia.
  - lia.
  - cbn. f_equal. symmetry. apply upto_snoc. lia.
  - exists (matches (fst (_tr_tally (ts s) 0 (get D q)))). by destruct (fst _).
  - assert (Eb : snd (_tr_tally (ts s) 0 (get D q)) =
      (last_lit (fst (_tr_tally (ts s) 0 (get D q))) =? lit_bufsize (fst (_tr_tally (ts s) 0 (get D q))) - 1)%nat) by done.
    destruct (_tr_tally (ts s) 0 (get D q)) as [t bflush]. cbn [fst snd] in *. split; [done|]. split; [|by split].
    intros ->. symmetry in Eb. apply Nat.eqb_neq in Eb. unfold roomy in *. ds_fields. lia.
Qed.

Lemma matched_ok D q s dist len : core D q s -> roomy s -> MIN_MATCH <= len <= MAX_MATCH -> 1 <= dist <= q -> dist <= MAX_DIST P ->
  q + len <= Z.of_nat (length D) -> (forall i, 0 <= i < len -> get D (q - dist + i) = get D (q + i)) ->
  let '(s', bflush) := matched s dist len in
  core D (q + len) s' /\ (bflush = false -> roomy s') /\ s' = with_ts s (ts s').
Proof using HP.
  intros C Hr Hlen Hd Hm Hq E. unfold MIN_MATCH, MAX_MATCH in *. destruct (sizes P HP) as (Sw & _ & Sm & _).
  unfold matched, MIN_MATCH. rewrite u32_id by (change (2 ^ 32) with 4294967296; lia).
  rewrite tr_tally_dist_same by lia. set (t := with_buffers _ _ _ _ _).
  destruct (tallied_ok D q (q + len) s t dist (len - 3) C Hr) as (C' & N & B & Sb).
  - split; lia.
  - lia.
  - unfold symbol_of. rewrite (proj2 (Z.eqb_neq dist 0)) by lia. unfold MIN_MATCH. cbn [expand].
    rewrite length_upto by lia. rewrite !(proj2 (Z.leb_le _ _)) by lia. cbn [andb].
    replace (len - 3 + 3) with (Z.of_nat (Z.to_nat len)) by lia. rewrite Nat2Z.id.
    rewrite copy_match_data by (lia || (intros i Hi; apply E; lia)). do 2 f_equal. lia.
  - by eexists.
  - split; [done|]. split; [|done].
    assert (Eb : snd (_tr_tally (ts s) dist (len - 3)) = (last_lit t =? lit_bufsize t - 1)%nat).
    { unfold t, _tr_tally. by rewrite (proj2 (Z.eqb_neq dist 0)) by lia. }
    rewrite Eb. intros En. apply Nat.eqb_neq in En. unfold roomy in *. ds_fields. lia.
Qed.

(** *** Flushing a block *)

(** What [_tr_flush_block] and [flush_pending] do. *)
Record block_flushed (D : list Z) (q last : Z) (s s' : dstate) : Prop := {
  b_conf : conf s' = P;
  b_mode : level (ts s') = L /\ strategy (ts s') = St /\ wrap s' = W;
  b_status : status s' = BUSY_STATE;
  b_win : win s' = with_block (win s) (strstart (win s));
  b_tally : tally_ok (ts s') /\ last_lit (ts s') = 0%nat /\ lit_bufsize (ts s') = lit_bufsize (ts s);
  b_bits : bitbuf_ok (bits s');
  b_out : out_ok R (strm s');
  b_strm : next_in (strm s') = next_in (strm s) /\ adler (strm s') = adler (strm s) /\ total_in (strm s') = total_in (strm s);
  b_pending : avail_out (strm s') <> 0 -> pending (bits s') = [];
  b_block : exists b pad c, all_bits s' = all_bits s ++ b ++ replicate pad false /\ (pad < 8)%nat /\
    (last = 0 -> pad = 0%nat) /\ (last = 1 -> bi_valid (bits s') = 0) /\
    block_at (Z.of_nat (length (stream (bits s)))) b (last =? 1, c) /\
    expand_content (w_size P) (upto D (block_abs D (win s))) c = Some (upto D q)
}.

Lemma flush_block_ok D q s last : core D q s -> q = Z.of_nat (length D) - lookahead (win s) -> last = 0 \/ last = 1 ->
  (0 <= block_start (win s) -> strstart (win s) - block_start (win s) <= 65535) ->
  block_flushed D q last s (flush_block_only s last).
Proof using HP.
  intros [Ec (El & Es & Ew) Est Ho Ht (Hl1 & Hl2 & Hl3) Hb Hou Hi Hd Hch Hto Hq Hc] Eq Hl Hlen.
  destruct (sizes P HP) as (Sw & _). pose proof Ho as [H1 H2 H3 H4 H5 H6 H7 H8]. unfold window_size in *.
  unfold flush_block_only. unfold block_abs in Hq.
  assert (Eu : u64 (strstart (win s) - block_start (win s)) = strstart (win s) - block_start (win s) \/ block_start (win s) < 0).
  { destruct (Z.lt_ge_cases (block_start (win s)) 0); [by right|left]. unfold u64. apply Z.mod_small. change (2 ^ 64) with 18446744073709551616. lia. }
  set (n := u64 (strstart (win s) - block_start (win s))) in *.
  set (buf := if 0 <=? block_start (win s) then _ else None).
  assert (Hbuf : forall l, buf = Some l -> bytes_ok l /\ Z.of_nat (length l) <= 65535 /\ upto D (block_abs D (win s)) ++ l = upto D q).
  { intros l. unfold buf. destruct (Z.leb_spec 0 (block_start (win s))) as [B|B]; [|done]. intros E. injection E as <-.
    destruct Eu as [Eu|]; [|lia]. rewrite Eu in *. split; [by apply bytes_at_bytes|].
    split; [rewrite length_bytes_at by lia; by apply Hlen|]. rewrite (window_slice P D) by (done || lia).
    replace (Z.of_nat (length D) - (strstart (win s) + lookahead (win s)) + block_start (win s)) with (block_abs D (win s))
      by (unfold block_abs; lia). rewrite upto_slice by (unfold block_abs; lia). f_equal. unfold block_abs. lia. }
  destruct (tr_flush_block_reads (ts s) buf n last Ht Hb Hl ltac:(intros l E; destruct (Hbuf l E) as (? & ? & _); done))
    as (T1 & T2 & T3 & T4 & b & pad & c & S1 & Hp & P0 & P1 & Rd & Cc). cbv zeta in *.
  destruct (tr_flush_mode (ts s) buf n last) as [M1 M2]. set (t := _tr_flush_block (ts s) buf n last) in *. clearbody t.
  set (s1 := with_win (with_ts s t) (with_block (win s) (strstart (win s)))).
  destruct (flush_pending_ok R s1 T2 Hou) as (F1 & F2 & F3 & F4 & F5 & F6). cbv zeta in *.
  change (with_win (with_ts s t) _) with s1. set (s2 := flush_pending s1) in *. clearbody s2.
  constructor; try (rewrite F1; done).
  - rewrite F1. ds_fields. cbn [level strategy with_out]. change (ts s1) with t. by rewrite M1, M2.
  - split; [rewrite F1; ds_fields; apply with_out_ok; exact T1|]. rewrite F1. ds_fields. done.
  - done.
  - exists b, pad, c. rewrite F4. split; [|split; [done|split; [done|split; [|split; [by eexists|]]]]].
    + unfold all_bits. change (bits s1) with (out t). change (strm s1) with (strm s). rewrite S1. by rewrite <- app_assoc.
    + intros E. apply F6. change (bits s1) with (out t). by apply P1.
    + destruct Hc as (cs & _ & _ & X). destruct Cc as [-> |(l & El' & ->)]; [exact X|]. cbn [expand_content]. f_equal.
      by apply Hbuf.
Qed.

(** A block more. *)
Lemma emit_block s s' cs b c : emitted s cs -> all_bits s' = all_bits s ++ b ->
  block_at (Z.of_nat (length (stream (bits s)))) b (false, c) -> emitted s' (cs ++ [c]).
Proof using.
  intros (bs & E & Wr) E' B. exists (bs ++ b). split; [by rewrite E', E, app_assoc|]. constructor; [done|].
  by apply (block_moved s hdr bs).
Qed.

Lemma flush_more_ok D q s : core D q s -> q = Z.of_nat (length D) - lookahead (win s) ->
  (0 <= block_start (win s) -> strstart (win s) - block_start (win s) <= 65535) ->
  let s' := flush_block_only s 0 in
  core D q s' /\ last_lit (ts s') = 0%nat /\ win s' = with_block (win s) (strstart (win s)) /\
  (avail_out (strm s') <> 0 -> pending (bits s') = []) /\ next_in (strm s') = next_in (strm s).
Proof using HP.
  intros C Eq Hlen. cbv zeta. destruct (flush_block_ok D q s 0 C Eq (or_introl eq_refl) Hlen)
    as [Ec Em Est Ewin (T1 & T2 & T3) Hb Ho (Hi & Ha & Hto) Hp (b & pad & c & Bs & _ & P0 & _ & Ba & X)].
  destruct C as [_ _ _ Hh _ (Hl1 & Hl2 & Hl3) _ _ Hin Hd Hch Htot Hq Hc].
  assert (Hh' : holds P D (with_block (win s) (strstart (win s)))) by (destruct Hh; by constructor).
  assert (Ea : block_abs D (with_block (win s) (strstart (win s))) = q) by (unfold block_abs; lz_fields; lia).
  split; [|by split; [|split; [|split]]]. rewrite (P0 eq_refl) in Bs. cbn [replicate] in Bs. rewrite app_nil_r in Bs.
  constructor; try done.
  - by rewrite Ewin.
  - rewrite T2, T3. lia.
  - by rewrite Hi.
  - by rewrite Ha.
  - by rewrite Hto.
  - rewrite Ewin, Ea. lia.
  - destruct Hc as (cs & Em' & U & _). exists (cs ++ [c]). split; [by apply (emit_block s _ _ b)|].
    rewrite Ewin, Ea, unpack_app, U. cbn [unpack]. rewrite X. split; [done|]. unfold buffered, symbols. by rewrite T2.
Qed.

(** The last block was put out, and [D] is all there was. *)
Record ended (D : list Z) (s : dstate) : Prop := {
  e_conf : conf s = P;
  e_mode : level (ts s) = L /\ strategy (ts s) = St /\ wrap s = W;
  e_bits : bitbuf_ok (bits s);
  e_whole : bi_valid (bits s) = 0;
  e_out : out_ok R (strm s);
  e_look : lookahead (win s) = 0;
  e_data : bytes_ok D;
  e_check : check_ok W (adler (strm s)) D;
  e_total : total_in (strm s) = u64 (Z.of_nat (length D));
  e_coded : exists bs cs b c pad, all_bits s = byte_bits hdr ++ bs ++ b ++ replicate pad false /\ (pad < 8)%nat /\
    written bs cs /\ block_at (Z.of_nat (length bs)) b (true, c) /\ unpack (w_size P) [] (cs ++ [c]) = Some D
}.

Lemma flush_last_ok D q s : core D q s -> q = Z.of_nat (length D) - lookahead (win s) ->
  (0 <= block_start (win s) -> strstart (win s) - block_start (win s) <= 65535) -> lookahead (win s) = 0 ->
  let s' := flush_block_only s 1 in
  ended D s' /\ (avail_out (strm s') <> 0 -> pending (bits s') = []) /\ next_in (strm s') = next_in (strm s).
Proof using HP.
  intros C Eq Hlen E0. cbv zeta. destruct (flush_block_ok D q s 1 C Eq (or_intror eq_refl) Hlen)
    as [Ec Em Est Ewin _ Hb Ho (Hi & Ha & Hto) Hp (b & pad & c & Bs & Pp & _ & P1 & Ba & X)].
  destruct C as [_ _ _ _ _ _ _ _ _ Hd Hch Htot _ Hc]. split; [|by split].
  constructor; try done.
  - by apply P1.
  - by rewrite Ewin.
  - by rewrite Ha.
  - by rewrite Hto.
  - destruct Hc as (cs & (bs & B1 & B2) & U & _). exists bs, cs, b, c, pad.
    split; [by rewrite Bs, B1, !app_assoc|]. split; [done|]. split; [done|]. split; [by apply (block_moved s hdr bs)|].
    rewrite unpack_app, U. cbn [unpack]. rewrite X, Eq, E0, Z.sub_0_r. by rewrite upto_all.
Qed.
End Core.
