(* ===== verification/Compressors.v ===== *)
(** * Compressors: the loops of deflate.c

    Every block function keeps the invariant of Blocks.v, ends, and leaves nothing of
    the input behind when it is told to finish. *)

From S2P Require Import Prelude.
From S2P Require Import Trees.
From S2P Require Import Canon.
From S2P Require Import BlockReader.
From S2P Require Import TreeSend.
From S2P Require Import Lz.
From S2P Require Import Deflate.
From S2P Require Import Inflated.
From S2P Require Import Blocks.

#[local] Open Scope Z_scope.

Section Compressors.
Context (L St W : Z) (P : params) (HP : params_ok P) (R : Z) (hdr : list Z).
Notation core := (core L St W P R hdr).

(** ** The loops *)

Section Loop.
(** [T]: the input read and to be read; [X]: what a compressor adds to the invariant. *)
Context (T : list Z) (flush : Z) (X : list Z -> Z -> dstate -> Prop).
Context (X_flush : forall D q s s', X D q s -> win s' = with_block (win s) (strstart (win s)) -> last_lit (ts s') = 0%nat -> X D q s').
Context (X_refill : forall D taken q s s', core D q s -> X D q s -> filled P D taken W (win s) (win s') (strm s) (strm s') -> ts s' = ts s ->
  X (D ++ taken) q s').

Record cur (D : list Z) (q : Z) (s : dstate) : Prop := {
  r_all : T = D ++ next_in (strm s);
  r_core : core D q s;
  r_insert : L <> 0 -> insert_ok (win s);
  r_more : X D q s
}.
Definition inv (s : dstate) : Prop := exists D q, cur D q s /\ roomy s.
Definition left_over (s : dstate) : nat := (length (next_in (strm s)) + Z.to_nat (lookahead (win s)))%nat.

(** The loop is left when there is nothing to do. *)
Definition at_break (s : dstate) : Prop :=
  inv s /\ lookahead (win s) = 0 /\ next_in (strm s) = [] /\ strstart (win s) <= 65535.
Definition at_return (s : dstate) (b : block_state) : Prop :=
  b = need_more /\ inv s /\ (avail_out (strm s) = 0 \/ flush = Z_NO_FLUSH /\ next_in (strm s) = []).
Definition turn_ok (n : nat) (t : turn) : Prop :=
  match t with
  | Next s => inv s /\ (left_over s < n)%nat
  | Break s => at_break s
  | Return s b => at_return s b
  end.

Lemma run_turns_ok body : (forall s, inv s -> turn_ok (left_over s) (body s)) ->
  forall fuel s, inv s -> (left_over s < fuel)%nat ->
  match run_turns body fuel s with
  | Some (s, None) => at_break s
  | Some (s, Some b) => at_return s b
  | None => False
  end.
Proof using.
  intros Hb. induction fuel as [|fuel IH]; intros s I Hf; [lia|]. cbn [run_turns]. specialize (Hb s I).
  destruct (body s) as [s'|s'|s' b]; [|done..]. destruct Hb as [I' L']. apply IH; [done|lia].
Qed.

Lemma get_lookahead_ok least s : L <> 0 -> 0 < least <= MIN_LOOKAHEAD -> inv s ->
  match get_lookahead least flush s with
  | Next s' => inv s' /\ left_over s' = left_over s /\ 0 < lookahead (win s') /\ strstart (win s') + least <= window_size P
  | t => turn_ok 0 t
  end.
Proof using HP X_refill.
  intros HL Hl (D & q & [Ht C I Hx] & Hr). specialize (I HL). unfold get_lookahead. pose proof (i_holds _ _ _ _ _ _ _ _ _ C) as H.
  destruct (sizes P HP) as (Sw & _ & Sm & _). unfold MIN_LOOKAHEAD, MAX_MATCH, MIN_MATCH in Hl.
  destruct (Z.ltb_spec (lookahead (win s)) least) as [Ll|Ll].
  2:{ split; [by exists D, q|]. split; [done|]. split; [lia|]. pose proof (h_room _ _ _ H). lia. }
  destruct (refill_ok L St W P HP R hdr D q s C I ltac:(unfold MIN_LOOKAHEAD, MAX_MATCH, MIN_MATCH; lia)) as (taken & C' & F & Et & _).
  cbv zeta in *. set (s' := refill s) in *.
  assert (I' : inv s').
  { exists (D ++ taken), q. split; [|unfold roomy; by rewrite Et]. constructor; [|done|intros _; apply F|by apply (X_refill D taken q s)].
    rewrite Ht, (k_in _ _ _ _ (f_took _ _ _ _ _ _ _ _ F)). by rewrite app_assoc. }
  pose proof (f_look _ _ _ _ _ _ _ _ F) as El. pose proof (f_start _ _ _ _ _ _ _ _ F) as Es. pose proof (h_look _ _ _ H).
  assert (Ed : lookahead (win s') < MIN_LOOKAHEAD -> next_in (strm s') = []) by (destruct (f_done _ _ _ _ _ _ _ _ F); [done|lia]).
  unfold MIN_LOOKAHEAD, MAX_MATCH, MIN_MATCH in Ed.
  destruct ((lookahead (win s') <? least) && (flush =? Z_NO_FLUSH)) eqn:E.
  { apply andb_true_iff in E as [E1 E2]. apply Z.ltb_lt in E1. apply Z.eqb_eq in E2. split; [done|]. split; [done|]. right.
    split; [done|]. apply Ed. lia. }
  unfold window_size. destruct (Z.eqb_spec (lookahead (win s')) 0) as [E0|N0].
  { split; [done|]. split; [done|]. split; [apply Ed; lia|lia]. }
  split; [done|]. split; [|lia]. unfold left_over. rewrite (k_in _ _ _ _ (f_took _ _ _ _ _ _ _ _ F)), length_app. lia.
Qed.

(** The end of a turn. *)
Lemma flush_if_ok D q s bflush n : cur D q s -> q = Z.of_nat (length D) - lookahead (win s) -> (bflush = false -> roomy s) ->
  (0 <= block_start (win s) -> strstart (win s) - block_start (win s) <= 65535) -> (left_over s < n)%nat ->
  turn_ok n (flush_if bflush s).
Proof using HP X_flush.
  intros [Ht C I Hx] Eq Hr Hs Hn. unfold flush_if. destruct bflush.
  2:{ split; [|done]. exists D, q. split; [by constructor|by apply Hr]. }
  destruct (flush_more_ok L St W P HP R hdr D q s C Eq Hs) as (C' & E0 & Ew & _ & Ei). cbv zeta in *.
  set (s' := flush_block_only s 0) in *.
  assert (I' : inv s').
  { exists D, q. split; [constructor; [by rewrite Ei|done|by rewrite Ew|by apply (X_flush D q s)]|].
    unfold roomy. rewrite E0. pose proof (i_lits _ _ _ _ _ _ _ _ _ C'). lia. }
  destruct (Z.eqb_spec (avail_out (strm s')) 0) as [Ea|Na].
  - split; [done|]. split; [done|by left].
  - split; [done|]. unfold left_over in *. rewrite Ei, Ew. done.
Qed.

(** ** Behind the loops *)

Definition compressed (s : dstate) (b : block_state) : Prop :=
  match b with
  | need_more => inv s /\ (L <> 0 -> avail_out (strm s) = 0 \/ flush = Z_NO_FLUSH /\ next_in (strm s) = [])
  | block_done => cur T (Z.of_nat (length T)) s /\ flush <> Z_FINISH /\ lookahead (win s) = 0 /\ next_in (strm s) = [] /\ last_lit (ts s) = 0%nat
  | finish_started => flush = Z_FINISH /\ ended L St W P R hdr T s /\ next_in (strm s) = [] /\ (L <> 0 -> avail_out (strm s) = 0)
  | finish_done => flush = Z_FINISH /\ ended L St W P R hdr T s /\ next_in (strm s) = [] /\ pending (bits s) = []
  end.

Lemma end_blocks_ok insert s : core T (Z.of_nat (length T)) s -> next_in (strm s) = [] -> lookahead (win s) = 0 ->
  strstart (win s) <= 65535 -> 0 <= insert <= 2 -> insert <= strstart (win s) ->
  X T (Z.of_nat (length T)) (with_win s (with_insert (win s) insert)) ->
  let '(s', b) := end_blocks insert flush s in compressed s' b.
Proof using HP X_flush.
  intros C Ei El Es Hi Hs Hx. unfold end_blocks. set (s0 := with_win s (with_insert (win s) insert)) in *.
  assert (C0 : core T (Z.of_nat (length T)) s0).
  { apply core_win; [done| |done]. pose proof (i_holds _ _ _ _ _ _ _ _ _ C) as H. destruct H. by constructor. }
  assert (E0 : lookahead (win s0) = 0 /\ strstart (win s0) = strstart (win s) /\ next_in (strm s0) = []) by done.
  assert (I0 : L <> 0 -> insert_ok (win s0)) by (intros _; unfold insert_ok, s0; ds_fields; lz_fields; lia).
  destruct E0 as (E1 & E2 & E3). clearbody s0.
  assert (Eq : Z.of_nat (length T) = Z.of_nat (length T) - lookahead (win s0)) by lia.
  destruct (Z.eqb_spec flush Z_FINISH) as [Ef|Nf].
  - pose proof (flush_last_ok L St W P HP R hdr T _ s0 C0 Eq ltac:(lia) E1) as (E & Hp & Hi1). cbv zeta in *. rewrite E3 in Hi1.
    destruct (Z.eqb_spec (avail_out (strm (flush_block_only s0 1))) 0); unfold compressed; auto.
  - destruct (Nat.eqb_spec (last_lit (ts s0)) 0) as [Z0|N0]; cbn [negb].
    + split; [|done]. constructor; rewrite ?E3, ?app_nil_r; done.
    + destruct (flush_more_ok L St W P HP R hdr T _ s0 C0 Eq ltac:(lia)) as (C' & L0 & Ew & _ & En). cbv zeta in *.
      set (s' := flush_block_only s0 0) in *. rewrite E3 in En.
      assert (I' : cur T (Z.of_nat (length T)) s').
      { constructor; rewrite ?En, ?app_nil_r; [done|done|by rewrite Ew|by apply (X_flush T _ s0)]. }
      destruct (Z.eqb_spec (avail_out (strm s')) 0); unfold compressed; [|by rewrite Ew]. split; [|by left].
      exists T, (Z.of_nat (length T)). split; [done|]. unfold roomy. rewrite L0. pose proof (i_lits _ _ _ _ _ _ _ _ _ C'). lia.
Qed.

(** A loop and what follows it. *)
Lemma run_blocks_ok body tail s : (forall s, inv s -> turn_ok (left_over s) (body s)) ->
  (forall s, at_break s -> let '(s', b) := tail s in compressed s' b) -> inv s ->
  exists s' b, run_blocks body tail s = Some (s', b) /\ compressed s' b.
Proof using.
  intros Hb Ht I. unfold run_blocks. pose proof (run_turns_ok body Hb (enough_turns s) s I) as H.
  specialize (H ltac:(unfold enough_turns, left_over; lia)). destruct (run_turns _ _ _) as [[s' [b|]]|]; [| |done].
  - exists s', b. split; [done|]. by destruct H as (-> & I' & H).
  - specialize (Ht s' H). destruct (tail s') as [s2 b]. by exists s2, b.
Qed.
End Loop.

(** ** The hash table in the loops *)

(** Equality of updated windows. *)
Lemma lz_ext w w' : window w = window w' -> prev w = prev w' -> head w = head w' -> ins_h w = ins_h w' ->
  strstart w = strstart w' -> lookahead w = lookahead w' -> s_insert w = s_insert w' -> block_start w = block_start w' ->
  high_water w = high_water w' -> match_start w = match_start w' -> match_length w = match_length w' ->
  prev_match w = prev_match w' -> prev_length w = prev_length w' -> match_available w = match_available w' -> w = w'.
Proof using. destruct w, w'. lz_fields. intros. by subst. Qed.
Ltac lz_eq := apply lz_ext; lz_fields; done || lia.

(** The chains from [h] may be searched for the string at [strstart]. *)
Definition searchable (w : lz) (h : Z) : Prop :=
  h <> NIL -> u32 (strstart w - h) <= MAX_DIST P ->
  forall w2, window w2 = window w -> prev w2 = prev w -> strstart w2 = strstart w -> lookahead w2 = lookahead w ->
  let '(len, w3) := longest_match P w2 h in
  w3 = with_match w2 (match_start w3) (match_length w2) /\ len <= lookahead w /\
  (len <= prev_length w2 \/ match_at P w2 (match_start w3) len).

Lemma insert_string_ok w : hashed P w -> bytes_ok (window w) -> 0 <= strstart w < 65536 -> MIN_MATCH <= lookahead w ->
  let '(w', h) := INSERT_STRING P w (strstart w) in
  w' = with_hash w (prev w') (head w') (ins_h w') /\ ready P w' (strstart w + 1) /\ searchable w' h.
Proof using HP.
  intros Hh Hb Hs Hl. pose proof Hh as (ins & C & Pr). destruct (Pr Hl) as [E0 Pm]. rewrite E0, Z.sub_0_r in C.
  assert (Hl' : strstart w + 2 < strstart w + lookahead w) by (unfold MIN_MATCH in Hl; lia).
  pose proof (longest_match_ok P HP ins w (snd (INSERT_STRING P w (strstart w))) C Pm Hb Hs Hl) as M.
  pose proof (ready_insert P HP w (strstart w) (proj1 (hashed_ready P w) Hh) Hs Hl') as Rd.
  destruct (insert_chains P HP ins _ _ w C ltac:(lia) Pm Hs Hl') as (_ & _ & F & E). cbv zeta in *.
  unfold INSERT_STRING in *. destruct (insert_at P w (strstart w)) as [w' h]. cbn [fst snd] in *.
  split; [done|]. split; [done|]. intros Nh Hd w2 E1 E2 E3 E4.
  assert (Es : strstart w' = strstart w /\ lookahead w' = lookahead w) by (rewrite E; done). destruct Es as [Es El].
  rewrite El. apply M; auto. rewrite Es in Hd. destruct (sizes P HP) as (Sw & _ & Sm & _). destruct F as [F|[F|(F1 & F2 & _)]]; [done|..].
  - rewrite u32_id in Hd; [done|]. change (2 ^ 32) with 4294967296. lia.
  - pose proof (c_ins _ _ _ _ _ C _ F1). rewrite u32_id in Hd; [done|]. change (2 ^ 32) with 4294967296. lia.
Qed.

Lemma insert_here_ok D q s : core D q s -> hashed P (win s) -> 0 < lookahead (win s) -> 
  let '(s', h) := insert_here s in
  s' = with_win s (win s') /\ win s' = with_hash (win s) (prev (win s')) (head (win s')) (ins_h (win s')) /\
  ready P (win s') (strstart (win s) + 1) /\ searchable (win s') h.
Proof using HP.
  intros C Hh Hl. pose proof (i_holds _ _ _ _ _ _ _ _ _ C) as H. pose proof (h_pos _ _ _ H). pose proof (h_room _ _ _ H).
  destruct (sizes P HP) as (Sw & _). unfold window_size in *. unfold insert_here. rewrite (i_conf _ _ _ _ _ _ _ _ _ C).
  destruct (Z.leb_spec MIN_MATCH (lookahead (win s))) as [Lm|Lm].
  - pose proof (insert_string_ok (win s) Hh ltac:(apply H) ltac:(lia) Lm) as M.
    destruct (INSERT_STRING P (win s) (strstart (win s))) as [w h]. destruct M as (E & Rd & Se). split; [done|]. by split.
  - split; [by destruct s|]. split; [by destruct (win s)|]. split; [|by intros []].
    apply (ready_jump P (win s) _ (strstart (win s))); auto; [by apply hashed_ready|lia|]. unfold MIN_MATCH in Lm. lia.
Qed.

(** [w'] is [w] moved on by [n] with other hash chains. *)
Definition moved_on (n : Z) (w w' : lz) : Prop :=
  w' = with_hash (with_pos w (strstart w + n) (lookahead w)) (prev w') (head w') (ins_h w').

Lemma moved_on_trans a b w w1 w2 : moved_on a w w1 -> moved_on b w1 w2 -> moved_on (a + b) w w2.
Proof using. unfold moved_on. intros M1 M2. rewrite M2, M1. lz_fields. by rewrite Z.add_assoc. Qed.

(** [e]: the end of the data. *)
Lemma insert_upto_ok e n : forall w, ready P (with_pos w e 0) (strstart w + 1) -> 0 <= strstart w -> e <= 65536 ->
  let w' := insert_upto P (e - MIN_MATCH) n w in
  moved_on (Z.of_nat n) w w' /\ ready P (with_pos w' e 0) (strstart w' + 1).
Proof using HP.
  unfold insert_upto. generalize 0%nat as lo. induction n as [|n IH]; intros lo w Rd Hs He; cbv zeta.
  - rewrite for_0. split; [|done]. unfold moved_on. rewrite Z.add_0_r. by destruct w.
  - rewrite for_S. set (w1 := with_pos w (strstart w + 1) (lookahead w)). change (strstart w1) with (strstart w + 1).
    set (w2 := if strstart w + 1 <=? e - MIN_MATCH then fst (INSERT_STRING P w1 (strstart w + 1)) else w1).
    assert (M : moved_on 1 w w2) by (unfold w2; by destruct (_ <=? _)).
    assert (E2 : strstart w2 = strstart w + 1) by (by rewrite M).
    assert (Rd2 : ready P (with_pos w2 e 0) (strstart w2 + 1)).
    { rewrite E2. unfold w2. unfold MIN_MATCH. destruct (Z.leb_spec (strstart w + 1) (e - 3)) as [Le|Le].
      - change (with_pos (fst (INSERT_STRING P w1 (strstart w + 1))) e 0) with (fst (insert_at P (with_pos w e 0) (strstart w + 1))).
        apply ready_insert; [done|done|lia|lz_fields; lia].
      - apply (ready_jump P (with_pos w e 0) _ (strstart w + 1)); auto; [lia|lz_fields; lia]. }
    destruct (IH (S lo) w2 Rd2 ltac:(lia) He) as (M' & Rd'). cbv zeta in *. split; [|done].
    replace (Z.of_nat (S n)) with (1 + Z.of_nat n) by lia. exact (moved_on_trans _ _ _ _ _ M M').
Qed.

(** Where every string can be inserted, the bound need not be looked at. *)
Lemma insert_next_upto m n : forall w, strstart w + Z.of_nat n <= m -> insert_next P n w = insert_upto P m n w.
Proof using.
  unfold insert_next, insert_upto. generalize 0%nat as lo. induction n as [|n IH]; intros lo w Hw; [done|].
  rewrite !for_S. set (w1 := with_pos w (strstart w + 1) (lookahead w)). change (strstart w1) with (strstart w + 1).
  rewrite (proj2 (Z.leb_le _ _)) by lia. apply IH. change (strstart w + 1 + Z.of_nat n <= m). lia.
Qed.

Lemma skip_match_ok w : ready P w (strstart w + 1) -> bytes_ok (window w) -> 0 <= strstart w ->
  strstart w + lookahead w <= 65536 -> MIN_MATCH <= match_length w <= lookahead w ->
  let w' := skip_match P w in
  w' = with_match (with_hash (with_pos w (strstart w + match_length w) (lookahead w - match_length w)) (prev w') (head w') (ins_h w'))
         (match_start w) 0 /\ hashed P w'.
Proof using HP.
  intros Rd Hb Hs He Hl. cbv zeta. unfold skip_match. set (w1 := with_pos w (strstart w) (lookahead w - match_length w)).
  change (match_length w1) with (match_length w). change (lookahead w1) with (lookahead w - match_length w).
  destruct ((match_length w <=? max_lazy_match P) && (MIN_MATCH <=? lookahead w - match_length w)) eqn:E.
  - apply andb_true_iff in E as [_ E]. apply Z.leb_le in E. set (e := strstart w + lookahead w).
    set (n := Z.to_nat (match_length w - 1)). unfold MIN_MATCH in *.
    rewrite (insert_next_upto (e - 3)) by (change (strstart w + Z.of_nat n <= e - 3); unfold n, e; lia).
    destruct (insert_upto_ok e n w1) as [M Rd']; [|done|done|].
    { apply (ready_ext P w); auto. unfold w1, e. lz_fields. lia. }
    change (e - MIN_MATCH) with (e - 3) in *. cbv zeta in *. set (w2 := insert_upto P (e - 3) n w1) in *.
    assert (Es : strstart w2 = strstart w + match_length w - 1 /\ lookahead w2 = lookahead w - match_length w).
    { rewrite M. unfold w1. lz_fields. unfold n. lia. }
    destruct Es as [Es El]. split.
    + rewrite M. unfold w1, n. lz_eq.
    + apply hashed_ready. apply (ready_ext P (with_pos w2 e 0)); [|done..|].
      * exact Rd'.
      * lz_fields. unfold e. lia.
  - split; [done|]. apply hashed_ready. lz_fields. apply (ready_jump P w _ (strstart w + 1)); try done.
    + unfold MIN_MATCH in Hl. change (strstart w + 1 <= strstart w + match_length w). lia.
    + lz_fields. unfold w1. lz_fields. lia.
    + intros _. by apply primed_start.
Qed.

Lemma skip_prev_ok w : ready P w (strstart w + 1) -> 0 <= strstart w -> MIN_MATCH <= strstart w + lookahead w <= 65536 ->
  MIN_MATCH <= prev_length w <= lookahead w + 1 ->
  let w' := skip_prev P w in
  w' = with_match (with_available (with_prev (with_hash (with_pos w (strstart w + (prev_length w - 1)) (lookahead w - (prev_length w - 1)))
         (prev w') (head w') (ins_h w')) (prev_match w) 0) false) (match_start w) (MIN_MATCH - 1) /\ hashed P w'.
Proof using HP.
  intros Rd Hs He Hl. cbv zeta. unfold skip_prev. set (e := strstart w + lookahead w) in *. unfold MIN_MATCH in *.
  rewrite (u32_id (e - 3)) by (change (2 ^ 32) with 4294967296; lia).
  set (w1 := with_pos w (strstart w) (lookahead w - (prev_length w - 1))). set (n := Z.to_nat (prev_length w - 2)).
  destruct (insert_upto_ok e n w1) as [M Rd']; [|done|lia|].
  { apply (ready_ext P w); auto. unfold w1, e. lz_fields. lia. }
  change (e - MIN_MATCH) with (e - 3) in *. cbv zeta in *. set (w2 := insert_upto P (e - 3) n w1) in *.
  assert (Es : strstart w2 = strstart w + (prev_length w - 2) /\ lookahead w2 = lookahead w - (prev_length w - 1)).
  { rewrite M. unfold w1. lz_fields. unfold n. lia. }
  destruct Es as [Es El]. split.
  - rewrite M. unfold w1, n. lz_eq.
  - apply hashed_ready. apply (ready_ext P (with_pos w2 e 0)); [|done..|].
    + exact Rd'.
    + lz_fields. unfold e. lia.
Qed.

(** What [longest_match] found, in the data. *)
Lemma match_data D w start len : holds P D w -> match_at P w start len -> len <= lookahead w ->
  let q := Z.of_nat (length D) - lookahead w in let d := strstart w - start in
  1 <= d <= q /\ d <= MAX_DIST P /\ forall i, 0 <= i < len -> get D (q - d + i) = get D (q + i).
Proof using.
  intros [_ _ H1 H2 H3 H4 H5 _] (M1 & M2 & M3 & M4) Hl. cbv zeta. split; [lia|]. split; [done|].
  intros i Hi. specialize (M4 i Hi). rewrite !H5 in M4 by lia. etransitivity; [|etransitivity; [exact M4|]]; f_equal; lia.
Qed.

(** The same data, elsewhere in it. *)
Lemma core_moved D q s w : core D q s -> window w = window (win s) ->
  strstart w + lookahead w = strstart (win s) + lookahead (win s) -> 0 <= strstart w -> 0 <= lookahead w ->
  block_start w = block_start (win s) -> high_water w = high_water (win s) -> core D q (with_win s w).
Proof using.
  intros C Ew El Hs Hl Eb Eh. apply core_win; [done| |].
  - destruct (i_holds _ _ _ _ _ _ _ _ _ C). constructor; rewrite ?Ew, ?El, ?Eh; done.
  - unfold block_abs. rewrite Eb. lia.
Qed.

(** [w'] is [w] moved on past [n] bytes. *)
Record stepped (n : Z) (w w' : lz) : Prop := {
  p_window : window w' = window w;
  p_pos : strstart w' = strstart w + n /\ lookahead w' = lookahead w - n;
  p_block : block_start w' = block_start w;
  p_rest : high_water w' = high_water w /\ s_insert w' = s_insert w
}.

(** The end of a turn that tallied a symbol for [n] bytes. *)
Lemma after_symbol T flush X (XF : forall D q s s', X D q s -> win s' = with_block (win s) (strstart (win s)) -> last_lit (ts s') = 0%nat -> X D q s')
    D q s s' w n (bflush : bool) : core D q s' -> (bflush = false -> roomy s') -> s' = with_ts s (ts s') -> T = D ++ next_in (strm s) ->
  insert_ok (win s) -> stepped n (win s) w -> 0 < n <= lookahead (win s) ->
  (0 <= block_start (win s) -> strstart (win s) + n - block_start (win s) <= 65535) ->
  q = Z.of_nat (length D) - lookahead w -> X D q (with_win s' w) -> turn_ok T flush X (left_over s) (flush_if bflush (with_win s' w)).
Proof using HP.
  intros C Hr E Ht Hi [E1 [E2 E3] E4 [E5 E6]] Hn Hs Eq Hx. assert (Ew : win s' = win s) by (by rewrite E).
  pose proof (h_pos _ _ _ (i_holds _ _ _ _ _ _ _ _ _ C)) as H0. rewrite Ew in H0.
  apply (flush_if_ok T flush X XF D q); ds_fields.
  - constructor; [by rewrite E| |intros _; unfold insert_ok in *; ds_fields; lia|done].
    apply core_moved; rewrite ?Ew; done || lia.
  - done.
  - intros Eb. exact (Hr Eb).
  - rewrite E2, E4. exact Hs.
  - unfold left_over. ds_fields. rewrite E. ds_fields. lia.
Qed.

(** The state of a turn once the search is over: [start] and [len] are set. *)
Record searched (D : list Z) (q : Z) (start len : Z) (s1 s : dstate) : Prop := {
  se_core : core D q s;
  se_same : ts s = ts s1 /\ strm s = strm s1;
  se_win : strstart (win s) = strstart (win s1) /\ lookahead (win s) = lookahead (win s1) /\ block_start (win s) = block_start (win s1) /\
    s_insert (win s) = s_insert (win s1) /\ match_available (win s) = match_available (win s1);
  se_match : match_start (win s) = start /\ match_length (win s) = len;
  se_ready : ready P (win s) (strstart (win s) + 1)
}.

(** A literal for the byte at [strstart]. *)
Lemma literal_here D q s : core D q s -> roomy s -> q = Z.of_nat (length D) - lookahead (win s) -> 0 < lookahead (win s) ->
  let '(s', bflush) := literal s (strstart (win s)) in
  core D (q + 1) s' /\ (bflush = false -> roomy s') /\ s' = with_ts s (ts s') /\
  buffered (ts s') = buffered (ts s) ++ [Literal (get D q)].
Proof using.
  intros C Hr Eq Hl. pose proof (i_holds _ _ _ _ _ _ _ _ _ C) as H. pose proof (h_pos _ _ _ H). pose proof (h_data _ _ _ H).
  apply (literal_ok L St W P R hdr); [done|done|lia|]. rewrite (h_same _ _ _ H) by lia. f_equal. lia.
Qed.

Lemma step_pos n w : stepped n w (with_pos w (strstart w + n) (lookahead w - n)).
Proof using. by constructor. Qed.

(** ** deflate_fast *)

Definition X_fast (D : list Z) (q : Z) (s : dstate) : Prop :=
  q = Z.of_nat (length D) - lookahead (win s) /\ hashed P (win s) /\ match_length (win s) < MIN_MATCH /\ prev_length (win s) < MIN_MATCH.

Lemma hashed_same w w' : hashed P w -> window w' = window w -> prev w' = prev w -> head w' = head w -> ins_h w' = ins_h w ->
  s_insert w' = s_insert w -> strstart w' = strstart w -> lookahead w' = lookahead w -> hashed P w'.
Proof using.
  intros H E1 E2 E3 E4 E5 E6 E7. apply hashed_ready. apply (ready_ext P w); try done; [|lia].
  rewrite E6. exact (proj1 (hashed_ready P w) H).
Qed.

Lemma fast_flush D q s s' : X_fast D q s -> win s' = with_block (win s) (strstart (win s)) -> last_lit (ts s') = 0%nat -> X_fast D q s'.
Proof using. intros (X1 & X2 & X3 & X4) E _. unfold X_fast. rewrite E. split; [done|]. split; [by apply (hashed_same (win s))|done]. Qed.

Lemma fast_refill D taken q s s' : core D q s -> X_fast D q s -> filled P D taken W (win s) (win s') (strm s) (strm s') -> ts s' = ts s ->
  X_fast (D ++ taken) q s'.
Proof using.
  intros _ (X1 & X2 & X3 & X4) [_ _ (k & _ & [_ _ _ (D1 & _ & D3 & _)]) El _ Hh _ _] _. unfold X_fast.
  rewrite length_app, El, D1, D3. split; [lia|]. auto.
Qed.

Lemma find_fast_ok s h : conf s = P -> searchable (win s) h -> match_length (win s) < MIN_MATCH -> prev_length (win s) < MIN_MATCH ->
  let s' := find_fast s h in
  exists start len, s' = with_win s (with_match (win s) start len) /\
    (len < MIN_MATCH \/ match_at P (win s) start len /\ len <= lookahead (win s)).
Proof using.
  intros Ec Se Hm Hp. cbv zeta. unfold find_fast. rewrite Ec. destruct (negb (h =? NIL) && _) eqn:E.
  - apply andb_true_iff in E as [E1 E2]. apply negb_true_iff, Z.eqb_neq in E1. apply Z.leb_le in E2.
    specialize (Se E1 E2 (win s) eq_refl eq_refl eq_refl eq_refl). destruct (longest_match P (win s) h) as [len w].
    destruct Se as (Ew & L1 & L2). exists (match_start w), len. split; [by rewrite Ew|].
    destruct L2 as [L2|L2]; [left; lia|by right].
  - exists (match_start (win s)), (match_length (win s)). split; [by destruct s as [? [] ? ? ? ? ?]|by left].
Qed.

Lemma fast_search D q s1 : core D q s1 -> hashed P (win s1) -> 0 < lookahead (win s1) ->
  match_length (win s1) < MIN_MATCH -> prev_length (win s1) < MIN_MATCH ->
  let '(s2, h) := insert_here s1 in exists start len, let s := find_fast s2 h in
  searched D q start len s1 s /\ prev_length (win s) = prev_length (win s1) /\
  (len < MIN_MATCH \/ match_at P (win s) start len /\ len <= lookahead (win s)).
Proof using HP.
  intros C Hh Hl Hm Hpl. pose proof (insert_here_ok D q s1 C Hh Hl) as N. destruct (insert_here s1) as [s2 h]. destruct N as (E2 & Ew2 & Rd & Se).
  pose proof (i_holds _ _ _ _ _ _ _ _ _ C) as H. assert (F2 : conf s2 = P) by (rewrite E2; apply C).
  destruct (find_fast_ok s2 h F2 Se ltac:(by rewrite Ew2) ltac:(by rewrite Ew2)) as (start & len & E3 & M). cbv zeta in *. exists start, len.
  assert (W3 : win (find_fast s2 h) = with_match (win s2) start len) by (by rewrite E3).
  split; [|rewrite W3; split; [by rewrite Ew2|exact M]]. constructor.
  - rewrite E3, E2, Ew2. apply (core_moved D q s1); done || apply H.
  - by rewrite E3, E2.
  - by rewrite W3, Ew2.
  - by rewrite W3.
  - rewrite W3. assert (Es2 : strstart (win s2) = strstart (win s1)) by (by rewrite Ew2). apply (ready_ext P (win s2)); try done. lz_fields. by rewrite Es2.
Qed.

(** A match is tallied. *)
Lemma fast_match T flush D q start len s1 s : searched D q start len s1 s -> roomy s -> T = D ++ next_in (strm s) -> insert_ok (win s) ->
  q = Z.of_nat (length D) - lookahead (win s) -> strstart (win s) + MIN_LOOKAHEAD <= window_size P -> prev_length (win s) < MIN_MATCH ->
  MIN_MATCH <= len -> match_at P (win s) start len -> len <= lookahead (win s) ->
  turn_ok T flush X_fast (left_over s)
    (let '(s', bflush) := let '(s', bflush) := matched s (u32 (strstart (win s) - start)) len in (with_win s' (skip_match (conf s') (win s)), bflush) in
     flush_if bflush s').
Proof using HP.
  intros [C _ _ [Es El] Rd] Hr Ht Hi Eq Hs Hpl Hm Ma Hl. pose proof (i_holds _ _ _ _ _ _ _ _ _ C) as H. pose proof (h_pos _ _ _ H). pose proof (h_room _ _ _ H).
  pose proof (h_data _ _ _ H). destruct (sizes P HP) as (Sw & _). unfold window_size, MIN_LOOKAHEAD, MAX_MATCH, MIN_MATCH in *.
  destruct (match_data D (win s) start len H Ma Hl) as (G1 & G2 & G3). cbv zeta in *. rewrite <- Eq in G1, G3.
  pose proof (proj1 Ma). pose proof (proj1 (proj2 (proj2 Ma))) as Mx. unfold MAX_MATCH in Mx.
  rewrite u32_id by (change (2 ^ 32) with 4294967296; lia).
  pose proof (matched_ok L St W P HP R hdr D q s _ len C Hr ltac:(split; done) G1 G2 ltac:(lia) G3) as Mt.
  destruct (matched s (strstart (win s) - start) len) as [s4 bflush]. destruct Mt as (C4 & B4 & E4).
  destruct (skip_match_ok (win s) Rd ltac:(apply H) ltac:(lia) ltac:(lia) ltac:(unfold MIN_MATCH; lia)) as (Ew & Hh'). cbv zeta in *.
  assert (Ec : conf s4 = P) by apply C4. rewrite Ec. set (w := skip_match P (win s)) in *. rewrite El in Ew.
  assert (U : lookahead w = lookahead (win s) - len /\ match_length w = 0 /\ prev_length w = prev_length (win s)) by (by rewrite Ew).
  destruct U as (U1 & U2 & U3). apply (after_symbol T flush X_fast fast_flush D (q + len) s s4 w len); try done; try lia.
  - constructor; rewrite Ew; done.
  - unfold X_fast, MIN_MATCH. ds_fields. rewrite U1, U2, U3. split; [lia|]. split; [done|lia].
Qed.

Lemma fast_turn_ok T flush s : L <> 0 -> inv T X_fast s -> turn_ok T flush X_fast (left_over s) (fast_turn flush s).
Proof using HP.
  intros HL I. pose proof (get_lookahead_ok T flush X_fast fast_refill MIN_LOOKAHEAD s HL ltac:(done) I) as G.
  unfold fast_turn. destruct (get_lookahead MIN_LOOKAHEAD flush s) as [s1|s1|s1 b]; [|done..].
  destruct G as ((D & q & [Ht C Hi (Eq & Hh & Hm & Hpl)] & Hr) & Elo & Hl & Hs). specialize (Hi HL). rewrite <- Elo. clear I s Elo.
  pose proof (fast_search D q s1 C Hh Hl Hm Hpl) as N. destruct (insert_here s1) as [s2 h]. destruct N as (start & len & Sd & Ep & M). cbv zeta in *.
  set (s3 := find_fast s2 h) in *. clearbody s3. pose proof Sd as [C3 [V1 V2] (V3 & V4 & V5 & V6 & _) [V8 V9] Rd].
  assert (Lo : left_over s1 = left_over s3) by (unfold left_over; by rewrite V2, V4). rewrite Lo, V8, V9.
  assert (R3 : roomy s3) by (unfold roomy; by rewrite V1). assert (Hi3 : insert_ok (win s3)) by (unfold insert_ok in *; by rewrite V6, V3).
  rewrite <- V2 in Ht. rewrite <- V4 in Eq, Hl. rewrite <- V3 in Hs.
  destruct (Z.leb_spec MIN_MATCH len) as [Lm|Lm].
  - destruct M as [M|[M Ml]]; [lia|]. by apply (fast_match T flush D q start len s1 s3); rewrite ?Ep.
  - pose proof (literal_here D q s3 C3 R3 Eq Hl) as Mt. destruct (literal s3 (strstart (win s3))) as [s4 bflush].
    destruct Mt as (C4 & B4 & E4 & _). assert (Ew4 : win s4 = win s3) by (by rewrite E4). unfold advance. rewrite Ew4.
    destruct (sizes P HP) as (Sw & _). unfold window_size, MIN_LOOKAHEAD, MAX_MATCH, MIN_MATCH in *.
    apply (after_symbol T flush X_fast fast_flush D (q + 1) s3 s4 _ 1); try done; lz_fields; try lia.
    unfold X_fast, MIN_MATCH. ds_fields. lz_fields. rewrite Ep, V9. split; [lia|]. split; [|lia].
    apply hashed_ready. apply (ready_ext P (win s3)); try done. lz_fields. lia.
Qed.

Lemma last_two_ok s : 0 <= strstart (win s) -> 0 <= last_two s <= 2 /\ last_two s <= strstart (win s).
Proof using. unfold last_two, MIN_MATCH. destruct (Z.ltb_spec (strstart (win s)) (3 - 1)); lia. Qed.

Lemma deflate_fast_ok T flush s : L <> 0 -> inv T X_fast s ->
  exists s' b, deflate_fast s flush = Some (s', b) /\ compressed T flush X_fast s' b.
Proof using HP.
  intros HL I. apply run_blocks_ok; [intros s0; by apply fast_turn_ok| |done]. clear s I.
  intros s (I & El & Ei & Es). destruct I as (D & q & [Ht C Hi (Eq & Hh & Hm & Hpl)] & Hr).
  rewrite Ei, app_nil_r in Ht. subst D. pose proof (h_pos _ _ _ (i_holds _ _ _ _ _ _ _ _ _ C)) as H0.
  destruct (last_two_ok s H0) as [T1 T2]. rewrite El, Z.sub_0_r in Eq. subst q.
  apply (end_blocks_ok T flush X_fast fast_flush); try done. unfold X_fast. ds_fields. lz_fields. rewrite El. split; [lia|].
  split; [by apply hashed_end|done].
Qed.

(** ** deflate_slow *)

(** The match of the turn before: for the string one byte back, if that byte is held. *)
Definition held_match (D : list Z) (q : Z) (w : lz) : Prop :=
  MIN_MATCH <= match_length w ->
  match_available w = true /\ match_length w <= lookahead w + 1 /\ match_length w <= MAX_MATCH /\
  let d := u32 (strstart w - 1 - match_start w) in
  1 <= d <= q /\ d <= MAX_DIST P /\ forall i, 0 <= i < match_length w -> get D (q - d + i) = get D (q + i).

Record X_slow (D : list Z) (q : Z) (s : dstate) : Prop := {
  l_pos : q = Z.of_nat (length D) - lookahead (win s) - Z.b2z (match_available (win s));
  l_hashed : hashed P (win s);
  l_behind : match_available (win s) = true -> 1 <= strstart (win s);
  l_match : held_match D q (win s)
}.

Lemma slow_flush D q s s' : X_slow D q s -> win s' = with_block (win s) (strstart (win s)) -> last_lit (ts s') = 0%nat -> X_slow D q s'.
Proof using. intros [X1 X2 X3 X4] E _. constructor; rewrite E; [done|by apply (hashed_same (win s))|done|done]. Qed.

Lemma u32_minus a b c : u32 b = u32 c -> u32 (a - b) = u32 (a - c).
Proof using. unfold u32. intros E. by rewrite Zminus_mod, E, <- Zminus_mod. Qed.

Lemma slow_refill D taken q s s' : core D q s -> X_slow D q s -> filled P D taken W (win s) (win s') (strm s) (strm s') -> ts s' = ts s ->
  X_slow (D ++ taken) q s'.
Proof using HP.
  intros C [X1 X2 X3 X4] [_ _ (k & Hk & [D1 _ D2 (D3 & _ & _ & D4)]) El _ Hh _ _] _. destruct (sizes P HP) as (Sw & _ & Sm & _).
  constructor.
  - rewrite length_app, El, D4. lia.
  - auto.
  - rewrite D4. intros E. specialize (X3 E). lia.
  - unfold held_match in *. rewrite D3, D4. intros Hm. destruct (X4 Hm) as (A & Y1 & Y2 & Y3 & Y4 & Y5). cbv zeta in *. rewrite A in X1.
    cbn [Z.b2z] in X1.
    assert (Ed : u32 (strstart (win s') - 1 - match_start (win s')) = u32 (strstart (win s) - 1 - match_start (win s))).
    { rewrite D1, (u32_minus _ _ _ D2). f_equal. lia. }
    rewrite Ed. split; [done|]. split; [lia|]. split; [done|]. split; [done|]. split; [done|].
    intros i Hi. rewrite !get_app_l by lia. by apply Y5.
Qed.

Lemma find_slow_ok s h : conf s = P -> searchable (win s) h ->
  let s' := find_slow s h in
  exists start len, s' = with_win s (with_match (with_prev (win s) (match_start (win s)) (match_length (win s))) start len) /\
    (len < MIN_MATCH \/ len <= match_length (win s) \/ match_at P (win s) start len /\ len <= lookahead (win s)).
Proof using.
  intros Ec Se. cbv zeta. unfold find_slow. rewrite Ec. set (w0 := with_match _ _ _). destruct (_ && _ && _) eqn:E.
  - apply andb_true_iff in E as [E1 E2]. apply andb_true_iff in E1 as [E1 _]. apply negb_true_iff, Z.eqb_neq in E1. apply Z.leb_le in E2.
    specialize (Se E1 E2 w0 eq_refl eq_refl eq_refl eq_refl). destruct (longest_match P w0 h) as [len w].
    destruct Se as (Ew & L1 & L2). set (l := if _ && _ then _ else len).
    assert (Hl : l = len \/ l = MIN_MATCH - 1) by (unfold l; destruct (_ && _); auto).
    exists (match_start w), l. split; [by rewrite Ew|]. destruct Hl as [-> | ->]; [right|left; unfold MIN_MATCH; lia].
    destruct L2 as [L2|L2]; [by left|by right].
  - exists (match_start (win s)), (MIN_MATCH - 1). split; [done|left]. unfold MIN_MATCH. lia.
Qed.

(** What a turn of deflate_slow found, and what it holds of the turn before. *)
Record held (start len : Z) (s1 s : dstate) : Prop := {
  sl_prev : prev_match (win s) = match_start (win s1) /\ prev_length (win s) = match_length (win s1);
  sl_found : len < MIN_MATCH \/ len <= match_length (win s1) \/ match_at P (win s) start len /\ len <= lookahead (win s)
}.

Lemma slow_search D q s1 : core D q s1 -> hashed P (win s1) -> 0 < lookahead (win s1) ->
  let '(s2, h) := insert_here s1 in exists start len, searched D q start len s1 (find_slow s2 h) /\ held start len s1 (find_slow s2 h).
Proof using HP.
  intros C Hh Hl. pose proof (insert_here_ok D q s1 C Hh Hl) as N. destruct (insert_here s1) as [s2 h]. destruct N as (E2 & Ew2 & Rd & Se).
  pose proof (i_holds _ _ _ _ _ _ _ _ _ C) as H.
  assert (F2 : conf s2 = P) by (rewrite E2; apply C).
  destruct (find_slow_ok s2 h F2 Se) as (start & len & E3 & M). cbv zeta in *. exists start, len.
  assert (W3 : win (find_slow s2 h) = with_match (with_prev (win s2) (match_start (win s2)) (match_length (win s2))) start len) by (by rewrite E3).
  assert (V : match_length (win s2) = match_length (win s1) /\ strstart (win s2) = strstart (win s1)) by (by rewrite Ew2). destruct V as [V1 V2].
  split; constructor.
  - rewrite E3, E2, Ew2. apply (core_moved D q s1); done || apply H.
  - by rewrite E3, E2.
  - by rewrite W3, Ew2.
  - by rewrite W3.
  - rewrite W3. apply (ready_ext P (win s2)); try done. lz_fields. by rewrite V2.
  - by rewrite W3, Ew2.
  - rewrite W3, <- V1. exact M.
Qed.

(** The new match is held for the next turn. *)
Lemma hold_next D q start len s1 s w : searched D q start len s1 s -> held start len s1 s ->
  ~ (MIN_MATCH <= match_length (win s1) /\ len <= match_length (win s1)) ->
  match_start w = start -> match_length w = len -> match_available w = true -> strstart w = strstart (win s) + 1 ->
  lookahead w = lookahead (win s) - 1 -> held_match D (Z.of_nat (length D) - lookahead (win s)) w.
Proof using HP.
  intros [C _ _ _ _] [_ F] N E1 E2 E3 E4 E5 Hm. rewrite E1, E2, E4, E5 in *.
  destruct F as [F|[F|[M F]]]; [lia|exfalso; apply N; lia|]. pose proof (i_holds _ _ _ _ _ _ _ _ _ C) as H.
  destruct (match_data D (win s) start len H M F) as (G1 & G2 & G3). cbv zeta in *. pose proof M as (M1 & _ & M3 & _).
  destruct (sizes P HP) as (Sw & _). pose proof (h_room _ _ _ H). pose proof (h_look _ _ _ H). unfold window_size in *.
  replace (strstart (win s) + 1 - 1 - start) with (strstart (win s) - start) by lia.
  rewrite u32_id by (change (2 ^ 32) with 4294967296; lia). split; [done|]. split; [lia|]. done.
Qed.

(** The match of the turn before is tallied. *)
Lemma slow_match T flush D q start len s1 s : searched D q start len s1 s -> held start len s1 s -> roomy s -> T = D ++ next_in (strm s) ->
  insert_ok (win s) -> X_slow D q s1 -> strstart (win s) + MIN_LOOKAHEAD <= window_size P -> MIN_MATCH <= match_length (win s1) ->
  turn_ok T flush X_slow (left_over s)
    (let '(s', bflush) := matched s (u32 (strstart (win s) - 1 - match_start (win s1))) (match_length (win s1)) in
     flush_if bflush (with_win s' (skip_prev (conf s') (win s)))).
Proof using HP.
  intros [C _ (V3 & V4 & _ & _ & V7) _ Rd] [[V10 V11] _] Hr Ht Hi [Eq _ Hav Hm] Hs Hml. destruct (Hm Hml) as (A & Y1 & Y2 & Y3 & Y4 & Y5). cbv zeta in *.
  rewrite <- V3 in Y3, Y4, Y5, Hav. rewrite <- V4 in Y1, Eq. rewrite A in *. cbn [Z.b2z] in Eq. specialize (Hav eq_refl).
  set (d := u32 (strstart (win s) - 1 - match_start (win s1))) in *. pose proof (i_holds _ _ _ _ _ _ _ _ _ C) as H.
  pose proof (h_room _ _ _ H). destruct (sizes P HP) as (Sw & _). unfold window_size, MIN_LOOKAHEAD in *.
  set (n := match_length (win s1)) in *. unfold MAX_MATCH, MIN_MATCH in *.
  pose proof (matched_ok L St W P HP R hdr D q s d n C Hr ltac:(split; done) Y3 Y4 ltac:(lia) Y5) as Mt.
  destruct (matched s d n) as [s4 bflush]. destruct Mt as (C4 & B4 & E4).
  destruct (skip_prev_ok (win s) Rd ltac:(lia) ltac:(unfold MIN_MATCH; lia) ltac:(unfold MIN_MATCH; lia)) as (Ew & Hh'). rewrite V11 in Ew. cbv zeta in *.
  assert (Ec : conf s4 = P) by apply C4. rewrite Ec. set (w := skip_prev P (win s)) in *.
  assert (U : lookahead w = lookahead (win s) - (n - 1) /\ match_length w = 2 /\ match_available w = false) by (by rewrite Ew).
  destruct U as (U1 & U2 & U3). apply (after_symbol T flush X_slow slow_flush D (q + n) s s4 w (n - 1)); try done; try lia.
  - constructor; rewrite Ew; done.
  - constructor; ds_fields; rewrite ?U1, ?U3; cbn [Z.b2z]; [lia|done|done|]. intros Hx. rewrite U2 in Hx. by unfold MIN_MATCH in Hx.
Qed.

(** The next state where the byte at [strstart] is held back. *)
Lemma slow_advance T D q0 q start len s1 s s5 w : searched D q0 start len s1 s -> held start len s1 s ->
  ~ (MIN_MATCH <= match_length (win s1) /\ len <= match_length (win s1)) -> insert_ok (win s) -> 0 < lookahead (win s) ->
  core D q s5 -> roomy s5 -> T = D ++ next_in (strm s5) -> q = Z.of_nat (length D) - lookahead (win s) ->
  (exists b, win s5 = with_block (win s) b) -> w = with_available (win s5) true -> inv T X_slow (advance (with_win s5 w) 1).
Proof using HP.
  intros Sd Hd NE Hi Hl C Hr Ht Eq [b Eb] ->. pose proof (hold_next D q0 start len s1 s (with_pos (with_available (win s5) true) (strstart (win s5) + 1) (lookahead (win s5) - 1)) Sd Hd NE) as Hn.
  destruct Sd as [C3 _ _ [V8 V9] Rd]. pose proof (h_pos _ _ _ (i_holds _ _ _ _ _ _ _ _ _ C3)) as H0.
  assert (U : strstart (win s5) = strstart (win s) /\ lookahead (win s5) = lookahead (win s) /\ s_insert (win s5) = s_insert (win s)) by (by rewrite Eb).
  destruct U as (U1 & U2 & U3). exists D, q. split; [|exact Hr]. unfold advance. constructor.
  - exact Ht.
  - ds_fields. apply (core_moved D q s5); lz_fields; done || lia.
  - intros _. unfold insert_ok in *. ds_fields. lz_fields. lia.
  - constructor; ds_fields; lz_fields; cbn [Z.b2z]; [lia| |lia|].
    + apply hashed_ready. lz_fields. rewrite U1. apply (ready_ext P (win s)); try done; lz_fields; rewrite Eb; try done. lz_fields. lia.
    + rewrite Eq. apply Hn; lz_fields; rewrite ?Eb; done.
Qed.

(** The byte held back is a literal. *)
Lemma slow_literal D q start len s1 s : searched D q start len s1 s -> roomy s -> match_available (win s1) = true -> X_slow D q s1 -> 
  0 < lookahead (win s) ->
  (0 <= block_start (win s) -> strstart (win s) - block_start (win s) <= 65535) ->
  let '(s4, bflush) := literal s (strstart (win s) - 1) in let s5 := if bflush then flush_block_only s4 0 else s4 in
  core D (q + 1) s5 /\ roomy s5 /\ (exists b, win s5 = with_block (win s) b) /\ next_in (strm s5) = next_in (strm s).
Proof using HP.
  intros [C _ (V3 & V4 & _) _ _] Hr A [Eq _ Hav _] Hl Hs. rewrite A in *. cbn [Z.b2z] in Eq. specialize (Hav eq_refl).
  rewrite <- V3 in Hav. rewrite <- V4 in Eq. pose proof (i_holds _ _ _ _ _ _ _ _ _ C) as H. pose proof (h_data _ _ _ H).
  pose proof (h_same _ _ _ H (strstart (win s) - 1) ltac:(lia)) as Gq.
  replace (Z.of_nat (length D) - (strstart (win s) + lookahead (win s)) + (strstart (win s) - 1)) with q in Gq by lia.
  pose proof (literal_ok L St W P R hdr D q s (strstart (win s) - 1) C Hr ltac:(lia) Gq) as Mt.
  destruct (literal s (strstart (win s) - 1)) as [s4 bflush]. destruct Mt as (C4 & B4 & E4 & _).
  assert (Ew4 : win s4 = win s) by (by rewrite E4). assert (Ei4 : next_in (strm s4) = next_in (strm s)) by (by rewrite E4). cbv zeta. destruct bflush.
  - destruct (flush_more_ok L St W P HP R hdr D (q + 1) s4 C4 ltac:(rewrite Ew4; lia) ltac:(by rewrite Ew4)) as (C5 & E0 & Ew & _ & Ei).
    cbv zeta in *. split; [done|]. split; [|split; [exists (strstart (win s4)); by rewrite Ew, Ew4|by rewrite Ei]].
    unfold roomy. rewrite E0. pose proof (i_lits _ _ _ _ _ _ _ _ _ C5). lia.
  - split; [done|]. split; [by apply B4|]. split; [|done]. exists (block_start (win s)). rewrite Ew4. by destruct (win s).
Qed.

Lemma slow_turn_ok T flush s : L <> 0 -> inv T X_slow s -> turn_ok T flush X_slow (left_over s) (slow_turn flush s).
Proof using HP.
  intros HL I. pose proof (get_lookahead_ok T flush X_slow slow_refill MIN_LOOKAHEAD s HL ltac:(done) I) as G.
  unfold slow_turn. destruct (get_lookahead MIN_LOOKAHEAD flush s) as [s1|s1|s1 b]; [|done..].
  destruct G as ((D & q & [Ht C Hi Xs] & Hr) & Elo & Hl & Hs). specialize (Hi HL). rewrite <- Elo. clear I s Elo. pose proof Xs as [Eq Hh Hav Hm].
  pose proof (slow_search D q s1 C Hh Hl) as N. destruct (insert_here s1) as [s2 h]. destruct N as (start & len & Sd & Hd).
  set (s3 := find_slow s2 h) in *. clearbody s3. pose proof Sd as [C3 [V1 V2] (V3 & V4 & V5 & V6 & V7) [V8 V9] Rd]. pose proof Hd as [[V10 V11] _].
  assert (Lo : left_over s1 = left_over s3) by (unfold left_over; by rewrite V2, V4).
  assert (R3 : roomy s3) by (unfold roomy; by rewrite V1). assert (Hi3 : insert_ok (win s3)) by (unfold insert_ok in *; by rewrite V6, V3).
  rewrite <- V2 in Ht. rewrite <- V4 in Eq, Hl. rewrite <- V3 in Hs. rewrite Lo, V9, V10, V11.
  destruct ((MIN_MATCH <=? match_length (win s1)) && (len <=? match_length (win s1))) eqn:E.
  { apply andb_true_iff in E as [E _]. apply Z.leb_le in E. by apply (slow_match T flush D q start len s1 s3). }
  assert (NE : ~ (MIN_MATCH <= match_length (win s1) /\ len <= match_length (win s1))).
  { intros [N1 N2]. apply Z.leb_le in N1, N2. by rewrite N1, N2 in E. }
  rewrite V7. destruct (match_available (win s1)) eqn:A; cbn [Z.b2z] in Eq.
  2:{ rewrite Z.sub_0_r in Eq. split.
      - apply (slow_advance T D q q start len s1 s3 s3); try done. exists (block_start (win s3)). by destruct (win s3).
      - unfold left_over, advance. ds_fields. lz_fields. lia. }
  destruct (sizes P HP) as (Sw & _). unfold window_size, MIN_LOOKAHEAD, MAX_MATCH, MIN_MATCH in Hs.
  pose proof (slow_literal D q start len s1 s3 Sd R3 A Xs Hl ltac:(lia)) as Sl. destruct (literal s3 (strstart (win s3) - 1)) as [s4 bflush].
  cbv zeta in Sl. set (s5 := if bflush then flush_block_only s4 0 else s4) in *. clearbody s5. destruct Sl as (C5 & R5 & [b W5] & I5).
  assert (U : lookahead (win s5) = lookahead (win s3) /\ with_win s5 (with_available (win s5) true) = s5).
  { rewrite W5. split; [done|]. destruct s5 as [? w ? ? ? ? ?]. ds_fields. f_equal. cbn [win] in W5. subst w. destruct (win s3). lz_fields. cbn in V7. by subst. }
  destruct U as [U1 U2]. assert (I' : inv T X_slow (advance s5 1)).
  { rewrite <- U2. apply (slow_advance T D q (q + 1) start len s1 s3 s5); try done; [by rewrite I5|lia|by exists b]. }
  assert (Lo5 : (left_over (advance s5 1) < left_over s3)%nat) by (unfold left_over, advance; ds_fields; lz_fields; rewrite I5; lia).
  destruct (Z.eqb_spec (avail_out (strm (advance s5 1))) 0) as [Ea|Na]; [|by split]. split; [done|]. split; [done|by left].
Qed.

Lemma last_literal_ok T s : at_break T X_slow s ->
  let s' := last_literal s in
  core T (Z.of_nat (length T)) s' /\ win s' = with_available (win s) false /\ next_in (strm s') = [] /\ hashed P (win s).
Proof using HP.
  intros ((D & q & [Ht C Hi [Eq Hh Hav Hm]] & Hr) & El & Ei & Es). rewrite Ei, app_nil_r in Ht. subst D. cbv zeta. unfold last_literal.
  rewrite El in Eq. destruct (match_available (win s)) eqn:A; cbn [Z.b2z] in Eq.
  - specialize (Hav eq_refl). pose proof (i_holds _ _ _ _ _ _ _ _ _ C) as H. pose proof (h_data _ _ _ H).
    pose proof (h_same _ _ _ H (strstart (win s) - 1) ltac:(lia)) as Gq.
    replace (Z.of_nat (length T) - (strstart (win s) + lookahead (win s)) + (strstart (win s) - 1)) with q in Gq by lia.
    pose proof (literal_ok L St W P R hdr T q s (strstart (win s) - 1) C Hr ltac:(lia) Gq) as Mt.
    destruct (literal s (strstart (win s) - 1)) as [s4 bflush]. destruct Mt as (C4 & _ & E4 & _).
    assert (Ew4 : win s4 = win s) by (by rewrite E4). ds_fields. rewrite Ew4.
    replace (q + 1) with (Z.of_nat (length T)) in C4 by lia. rewrite <- Ew4 at 1.
    split; [|split; [done|split; [by rewrite E4|done]]]. rewrite Ew4. apply core_moved; rewrite ?Ew4; lz_fields; done || apply H.
  - replace q with (Z.of_nat (length T)) in C by lia. split; [done|]. split; [|done]. destruct (win s). cbn in A. by subst.
Qed.

Lemma deflate_slow_ok T flush s : L <> 0 -> inv T X_slow s ->
  exists s' b, deflate_slow s flush = Some (s', b) /\ compressed T flush X_slow s' b.
Proof using HP.
  intros HL I. apply run_blocks_ok; [intros s0; by apply slow_turn_ok| |done]. clear s I. intros s B.
  destruct (last_literal_ok T s B) as (C & Ew & Ei & Hh). destruct B as (I & El & _ & Es). cbv zeta in *.
  set (s' := last_literal s) in *. clearbody s'. assert (E : lookahead (win s') = 0 /\ strstart (win s') = strstart (win s)) by (by rewrite Ew).
  destruct E as [E1 E2]. pose proof (h_pos _ _ _ (i_holds _ _ _ _ _ _ _ _ _ C)) as H0.
  destruct (last_two_ok s' H0) as [T1 T2].
  assert (Hm : match_length (win s) < MIN_MATCH).
  { destruct I as (D & q & [_ _ _ [_ _ _ Hm]] & _). destruct (Z.lt_ge_cases (match_length (win s)) MIN_MATCH); [done|].
    destruct (Hm ltac:(lia)) as (_ & Y & _). unfold MIN_MATCH in *. lia. }
  apply (end_blocks_ok T flush X_slow slow_flush); try done; [lia|].
  constructor; ds_fields; rewrite ?Ew; lz_fields; cbn [Z.b2z]; [lia| |done|].
  { apply hashed_end; [by apply (hashed_same (win s))|done|done]. }
  intros N. change (MIN_MATCH <= match_length (win s)) in N. lia.
Qed.

(** ** deflate_rle *)

Definition X_rle (D : list Z) (q : Z) (s : dstate) : Prop := q = Z.of_nat (length D) - lookahead (win s).

Lemma rle_flush D q s s' : X_rle D q s -> win s' = with_block (win s) (strstart (win s)) -> last_lit (ts s') = 0%nat -> X_rle D q s'.
Proof using. intros X E _. unfold X_rle. by rewrite E. Qed.

Lemma rle_refill D taken q s s' : core D q s -> X_rle D q s -> filled P D taken W (win s) (win s') (strm s) (strm s') -> ts s' = ts s ->
  X_rle (D ++ taken) q s'.
Proof using. intros _ X F _. unfold X_rle in *. rewrite length_app, (f_look _ _ _ _ _ _ _ _ F). lia. Qed.

Lemma same_run_spec w b n : forall scan, let r := same_run w b n scan in
  0 <= r <= Z.of_nat n /\ forall i, 0 < i <= r -> get w (scan + i) = b.
Proof using.
  induction n as [|n IH]; intros scan; cbv zeta; cbn [same_run]; [split; [lia|intros; lia]|].
  destruct (Z.eqb_spec b (get w (scan + 1))) as [E|E]; [|split; [lia|intros; lia]].
  destruct (IH (scan + 1)) as [R' F]. cbv zeta in *. split; [lia|]. intros i Hi.
  destruct (Z.eq_dec i 1) as [->|N]; [done|]. replace (scan + i) with (scan + 1 + (i - 1)) by lia. apply F. lia.
Qed.

Lemma run_loop_spec w b strend fuel : forall scan, strend = scan + 8 * Z.of_nat fuel -> (0 < fuel)%nat ->
  let r := run_loop_rle w b strend fuel scan in
  scan < r <= strend /\ forall i, 0 < i < r - scan -> get w (scan + i) = b.
Proof using.
  induction fuel as [|fuel IH]; intros scan Es Hf; [lia|]. cbv zeta. cbn [run_loop_rle].
  pose proof (same_run_spec w b 8 scan) as [R' F]. cbv zeta in *. set (n := same_run w b 8 scan) in *. clearbody n.
  destruct (Z.eqb_spec n 8) as [E|E].
  - destruct (Z.ltb_spec (scan + 8) strend) as [Ls|Ls]; [|split; [lia|intros i Hi; apply F; lia]].
    destruct (IH (scan + 8) ltac:(lia) ltac:(lia)) as [R2 F2]. cbv zeta in *. set (r := run_loop_rle _ _ _ _ _) in *.
    split; [lia|]. intros i Hi. destruct (Z.le_gt_cases i 8); [apply F; lia|].
    replace (scan + i) with (scan + 8 + (i - 8)) by lia. apply F2. lia.
  - split; [lia|]. intros i Hi. apply F. lia.
Qed.

(** A run repeats the byte before it. *)
Lemma run_length_ok w : 0 <= lookahead w -> let len := run_length w in
  len < MIN_MATCH \/ 1 <= strstart w /\ len <= MAX_MATCH /\ len <= lookahead w /\
    forall i, 0 <= i < len -> get (window w) (strstart w - 1 + i) = get (window w) (strstart w + i).
Proof using.
  intros Hl. cbv zeta. unfold run_length, MIN_MATCH, MAX_MATCH. destruct (_ && _) eqn:E; [|left; lia].
  apply andb_true_iff in E as [_ E]. apply Z.ltb_lt in E. set (b := get (window w) (strstart w - 1)).
  destruct (Z.eqb_spec (same_run (window w) b 3 (strstart w - 1)) 3) as [E3|N3]; [right|left; lia].
  pose proof (same_run_spec (window w) b 3 (strstart w - 1)) as [_ F]. cbv zeta in F. rewrite E3 in F.
  pose proof (run_loop_spec (window w) b (strstart w + 258) 32 (strstart w - 1 + 3) ltac:(lia) ltac:(lia)) as [R' G]. cbv zeta in *.
  set (r := run_loop_rle _ _ _ _ _) in *. clearbody r. set (len := 258 - (strstart w + 258 - r)).
  assert (B : forall j, 0 <= j <= len -> get (window w) (strstart w - 1 + j) = b).
  { intros j Hj. destruct (Z.eq_dec j 0) as [->|Nj]; [by rewrite Z.add_0_r|]. destruct (Z.le_gt_cases j 3); [apply F; lia|].
    replace (strstart w - 1 + j) with (strstart w - 1 + 3 + (j - 3)) by lia. apply G. unfold len in *. lia. }
  split; [lia|]. set (l := if _ <? _ then _ else len). assert (Hl' : l <= lookahead w /\ l <= len).
  { unfold l. destruct (Z.ltb_spec (lookahead w) len); lia. }
  split; [unfold len in *; lia|]. split; [lia|]. intros i Hi. rewrite B by lia.
  replace (strstart w + i) with (strstart w - 1 + (i + 1)) by lia. rewrite B by lia. done.
Qed.

(** The window after a symbol for [n] bytes. *)
Lemma advance_core D q s n : core D q s -> 0 <= n <= lookahead (win s) -> core D q (advance s n).
Proof using.
  intros C Hn. pose proof (h_pos _ _ _ (i_holds _ _ _ _ _ _ _ _ _ C)). apply core_moved; lz_fields; done || lia.
Qed.

Lemma rle_turn_ok T flush s : L <> 0 -> inv T X_rle s -> turn_ok T flush X_rle (left_over s) (rle_turn flush s).
Proof using HP.
  intros HL I. pose proof (get_lookahead_ok T flush X_rle rle_refill (MAX_MATCH + 1) s HL ltac:(done) I) as G.
  unfold rle_turn. destruct (get_lookahead (MAX_MATCH + 1) flush s) as [s1|s1|s1 b]; [|done..].
  destruct G as ((D & q & [Ht C Hi Eq] & Hr) & Elo & Hl & Hs). specialize (Hi HL). rewrite <- Elo. clear I s Elo. unfold X_rle in Eq.
  destruct (sizes P HP) as (Sw & _ & Sm & _). unfold window_size, MAX_MATCH in Hs.
  pose proof (i_holds _ _ _ _ _ _ _ _ _ C) as H. pose proof (h_pos _ _ _ H). pose proof (h_data _ _ _ H).
  pose proof (run_length_ok (win s1) ltac:(lia)) as Rl. cbv zeta in Rl. set (len := run_length (win s1)) in *. clearbody len.
  set (s2 := with_win s1 (with_match (win s1) (match_start (win s1)) len)).
  assert (C2 : core D q s2) by (apply core_moved; lz_fields; done || lia). change (left_over s1) with (left_over s2).
  destruct (Z.leb_spec MIN_MATCH len) as [Lm|Lm].
  - destruct Rl as [Rl|(R1 & R2 & R3 & R4)]; [lia|]. unfold MIN_MATCH, MAX_MATCH in *.
    assert (G3 : forall i, 0 <= i < len -> get D (q - 1 + i) = get D (q + i)).
    { intros i Hi'. specialize (R4 i Hi'). rewrite !(h_same _ _ _ H) in R4 by lia.
      etransitivity; [|etransitivity; [exact R4|]]; f_equal; lia. }
    pose proof (matched_ok L St W P HP R hdr D q s2 1 len C2 Hr ltac:(split; done) ltac:(lia) ltac:(lia) ltac:(lia) G3) as Mt.
    destruct (matched s2 1 len) as [s4 bflush]. destruct Mt as (C4 & B4 & E4). assert (Ew4 : win s4 = win s2) by (by rewrite E4).
    change (with_win (advance s4 len) (with_match (win (advance s4 len)) (match_start (win (advance s4 len))) 0)) with
      (with_win s4 (with_match (with_pos (win s4) (strstart (win s4) + len) (lookahead (win s4) - len)) (match_start (win s4)) 0)). rewrite Ew4.
    apply (after_symbol T flush X_rle rle_flush D (q + len) s2 s4 _ len); try done; unfold X_rle, s2; ds_fields; lz_fields; try lia.
  - pose proof (literal_here D q s2 C2 Hr Eq Hl) as Mt. destruct (literal s2 (strstart (win s2))) as [s4 bflush].
    destruct Mt as (C4 & B4 & E4 & _). assert (Ew4 : win s4 = win s2) by (by rewrite E4). unfold advance. rewrite Ew4.
    apply (after_symbol T flush X_rle rle_flush D (q + 1) s2 s4 _ 1); try done; unfold X_rle, s2; ds_fields; lz_fields; try lia.
Qed.

Lemma deflate_rle_ok T flush s : L <> 0 -> inv T X_rle s ->
  exists s' b, deflate_rle s flush = Some (s', b) /\ compressed T flush X_rle s' b.
Proof using HP.
  intros HL I. apply run_blocks_ok; [intros s0; by apply rle_turn_ok| |done]. clear s I. intros s (I & El & Ei & Es).
  destruct I as (D & q & [Ht C Hi Eq] & Hr). rewrite Ei, app_nil_r in Ht. subst D. unfold X_rle in Eq. rewrite El, Z.sub_0_r in Eq. subst q.
  pose proof (h_pos _ _ _ (i_holds _ _ _ _ _ _ _ _ _ C)).
  apply (end_blocks_ok T flush X_rle rle_flush); try done. unfold X_rle. ds_fields. lz_fields. lia.
Qed.

(** ** deflate_huff *)

(** All symbols of the block are literals, so it is not longer than they are. *)
Definition X_huff (D : list Z) (q : Z) (s : dstate) : Prop :=
  q = Z.of_nat (length D) - lookahead (win s) /\ strstart (win s) - block_start (win s) = Z.of_nat (last_lit (ts s)).

Lemma huff_flush D q s s' : X_huff D q s -> win s' = with_block (win s) (strstart (win s)) -> last_lit (ts s') = 0%nat -> X_huff D q s'.
Proof using. intros [X1 X2] E E0. unfold X_huff. rewrite E, E0. lz_fields. split; [done|lia]. Qed.

Lemma huff_refill D taken q s s' : core D q s -> X_huff D q s -> filled P D taken W (win s) (win s') (strm s) (strm s') -> ts s' = ts s ->
  X_huff (D ++ taken) q s'.
Proof using.
  intros _ [X1 X2] [_ _ (k & _ & [D1 D2 _ _]) El _ _ _ _] Et. unfold X_huff. rewrite length_app, El, D1, D2, Et. lia.
Qed.

Lemma huff_turn_ok T flush s : L <> 0 -> inv T X_huff s -> turn_ok T flush X_huff (left_over s) (huff_turn flush s).
Proof using HP.
  intros HL I. pose proof (get_lookahead_ok T flush X_huff huff_refill 1 s HL ltac:(done) I) as G.
  unfold huff_turn. destruct (get_lookahead 1 flush s) as [s1|s1|s1 b]; [|done..].
  destruct G as ((D & q & [Ht C Hi [Eq Eb]] & Hr) & Elo & Hl & Hs). specialize (Hi HL). rewrite <- Elo. clear I s Elo.
  set (s2 := with_win s1 (with_match (win s1) (match_start (win s1)) 0)).
  pose proof (i_holds _ _ _ _ _ _ _ _ _ C) as H. pose proof (h_pos _ _ _ H).
  assert (C2 : core D q s2) by (apply core_moved; lz_fields; done || lia).
  pose proof (literal_here D q s2 C2 Hr Eq Hl) as Mt. destruct (literal s2 (strstart (win s2))) as [s4 bflush].
  destruct Mt as (C4 & B4 & E4 & S4). assert (Ew4 : win s4 = win s2) by (by rewrite E4).
  assert (N4 : last_lit (ts s4) = S (last_lit (ts s1))).
  { apply (f_equal (@length symbol)) in S4. unfold buffered in S4. rewrite length_app in S4. unfold symbols in S4.
    rewrite !length_map, !length_seq in S4. cbn in S4. change (ts s2) with (ts s1) in S4. lia. }
  pose proof (i_lits _ _ _ _ _ _ _ _ _ C4) as Hli.
  change (left_over s1) with (left_over s2). unfold advance. rewrite Ew4.
  apply (after_symbol T flush X_huff huff_flush D (q + 1) s2 s4 _ 1); try done; unfold X_huff, s2; ds_fields; lz_fields; try lia.
Qed.

Lemma deflate_huff_ok T flush s : L <> 0 -> inv T X_huff s ->
  exists s' b, deflate_huff s flush = Some (s', b) /\ compressed T flush X_huff s' b.
Proof using HP.
  intros HL I. apply run_blocks_ok; [intros s0; by apply huff_turn_ok| |done]. clear s I. intros s (I & El & Ei & Es).
  destruct I as (D & q & [Ht C Hi [Eq Eb]] & Hr). rewrite Ei, app_nil_r in Ht. subst D. rewrite El, Z.sub_0_r in Eq. subst q.
  pose proof (h_pos _ _ _ (i_holds _ _ _ _ _ _ _ _ _ C)).
  apply (end_blocks_ok T flush X_huff huff_flush); try done. unfold X_huff. ds_fields. lz_fields. lia.
Qed.
End Compressors.
