(* ===== verification/Stored.v ===== *)
(** * Stored: deflate_stored

    The level 0 of deflate.c, which copies its input to the output without passing it
    through the window where it can. *)

From S2P Require Import Prelude.
From S2P Require Import Trees.
From S2P Require Import Canon.
From S2P Require Import BlockReader.
From S2P Require Import TreeSend.
From S2P Require Import Lz.
From S2P Require Import Deflate.
From S2P Require Import Inflated.
From S2P Require Import Blocks.
From S2P Require Import Compressors.

#[local] Open Scope Z_scope.

(** ** The header with its lengths replaced *)

Lemma u8_ext a b : (forall i, 0 <= i < 8 -> Z.testbit a i = Z.testbit b i) -> u8 a = u8 b.
Proof.
  intros E. apply Z.bits_inj'. intros i Hi. unfold u8. destruct (Z.lt_ge_cases i 8).
  - rewrite !Z.mod_pow2_bits_low by lia. apply E. lia.
  - by rewrite !Z.mod_pow2_bits_high by lia.
Qed.

(** The four bytes are those [put_short] writes. *)
Lemma length_bytes len :
  [u8 len; u8 (Z.shiftr len 8); u8 (Z.lnot len); u8 (Z.shiftr (u32 (Z.lnot len)) 8)] =
  [u8 (Z.land (u16 len) 0xff); u8 (Z.shiftr (u16 (u16 len)) 8);
   u8 (Z.land (u16 (Z.lnot len)) 0xff); u8 (Z.shiftr (u16 (u16 (Z.lnot len))) 8)].
Proof.
  change 0xff with (2 ^ 8 - 1). rewrite !land_ones_mod by lia.
  f_equal; [|f_equal; [|f_equal; [|f_equal]]]; apply u8_ext; intros i Hi; unfold u16, u32;
    rewrite ?Z.shiftr_spec by lia; rewrite ?Z.mod_pow2_bits_low by lia; done.
Qed.

Lemma stored_header_shape b l last : let h := stored_header b (Z.of_nat (length l)) last in
  _tr_stored_block b l last = mk_bitbuf (pending h ++ l) (bi_buf h) (bi_valid h).
Proof.
  cbv zeta. unfold stored_header, _tr_stored_block. set (w := bi_windup _). set (len := Z.of_nat (length l)).
  unfold put_short, put_byte. cbn [pending bi_buf bi_valid length app]. rewrite app_nil_r. rewrite <- !app_assoc. cbn [app].
  rewrite length_app. cbn [length]. f_equal.
  replace (length (pending w) + 4 - 4)%nat with (length (pending w) + 0)%nat by lia.
  replace (length (pending w) + 4 - 3)%nat with (length (pending w) + 1)%nat by lia.
  replace (length (pending w) + 4 - 2)%nat with (length (pending w) + 2)%nat by lia.
  replace (length (pending w) + 4 - 1)%nat with (length (pending w) + 3)%nat by lia.
  unfold setn. rewrite !insert_app_r. cbn [insert list_insert]. pose proof (length_bytes len) as E.
  rewrite <- app_assoc. f_equal. exact (f_equal (fun x => x ++ l) (eq_sym E)).
Qed.

Lemma stored_header_ok b l last : bitbuf_ok b -> last = 0 \/ last = 1 -> bytes_ok l -> Z.of_nat (length l) <= 65535 ->
  let h := stored_header b (Z.of_nat (length l)) last in
  bitbuf_ok h /\ bi_valid h = 0 /\
  Z.of_nat (length (pending h)) = Z.of_nat (length (pending b)) + Z.shiftr (bi_valid b + 42) 3 /\
  exists bs, stream h ++ byte_bits l = stream b ++ bs /\ block_at (Z.of_nat (length (stream b))) bs (last =? 1, Bytes l).
Proof.
  intros Hb Hl Hbuf Hlen. cbv zeta. pose proof (stored_header_shape b l last) as E. cbv zeta in E.
  set (h := stored_header b (Z.of_nat (length l)) last) in *.
  destruct (stored_block_stream b l last Hb Hl Hbuf) as (O & V & St & _). rewrite E in O, V, St. destruct O as (O1 & O2 & O3).
  cbn [pending bi_buf bi_valid] in *. apply Forall_app in O1 as [O1 _].
  assert (Eh : stream (mk_bitbuf (pending h ++ l) (bi_buf h) (bi_valid h)) = stream h ++ byte_bits l).
  { unfold stream. cbn [pending bi_buf bi_valid]. rewrite V.
    change (bits_of (bi_buf h) (Z.to_nat 0)) with (@nil bool). by rewrite byte_bits_app, !app_nil_r. }
  rewrite Eh in St. split; [by split|]. split; [done|]. split.
  - apply (f_equal (@length bool)) in St. unfold stream in St. rewrite V in St. change (bits_of (bi_buf h) (Z.to_nat 0)) with (@nil bool) in St.
    rewrite app_nil_r in St. repeat rewrite length_app in St. rewrite !length_byte_bits, !length_bits_of, length_replicate in St.
    destruct Hb as (_ & Hv & _). rewrite Z.shiftr_div_pow2 by lia. change (2 ^ 3) with 8.
    pose proof (Z.mod_pos_bound (- (bi_valid b + 3)) 8 ltac:(lia)). revert St. Z.div_mod_to_equations. lia.
  - destruct (stored_block_reads b l last 0 Hb Hl Hbuf Hlen) as (bs & [_ S1] & Rd). exists bs. rewrite E, Eh in S1. split; [done|].
    by exists 0%nat.
Qed.

Section Stored.
Context (L St W : Z) (P : params) (HP : params_ok P) (R : Z) (hdr : list Z).

(** ** Copying to the output *)

(** The output holds the first [q] bytes of [D], or, after the last block, all of it. *)
Definition put_upto (last : bool) (D : list Z) (q : Z) (s : dstate) : Prop :=
  if last then bi_valid (bits s) = 0 /\ exists bs cs b c pad, all_bits s = byte_bits hdr ++ bs ++ b ++ replicate pad false /\ (pad < 8)%nat /\
    written bs cs /\ block_at (Z.of_nat (length bs)) b (true, c) /\ unpack (w_size P) [] (cs ++ [c]) = Some (upto D q)
  else exists cs, emitted hdr s cs /\ unpack (w_size P) [] cs = Some (upto D q).

(** What is left in the window to write. *)
Definition left_in (s : dstate) : Z := strstart (win s) - block_start (win s).

(** [D]: what the window has seen; [used]: the input read past it, while the window is
    not yet brought up to date. *)
Record mid (last : bool) (D used : list Z) (s : dstate) : Prop := {
  m_conf : conf s = P;
  m_mode : level (ts s) = L /\ strategy (ts s) = St /\ wrap s = W;
  m_status : status s = BUSY_STATE;
  m_holds : holds P D (win s);
  m_look : lookahead (win s) = 0;
  m_block : 0 <= block_start (win s) <= strstart (win s);
  m_top : strstart (win s) < window_size P;
  m_tally : tally_ok (ts s);
  m_lits : last_lit (ts s) = 0%nat /\ (2 <= lit_bufsize (ts s))%nat /\ Z.of_nat (lit_bufsize (ts s)) <= 32768;
  m_bits : bitbuf_ok (bits s);
  m_pending : pending (bits s) = [];
  m_out : out_ok R (strm s);
  m_in : bytes_ok (next_in (strm s));
  m_data : bytes_ok (D ++ used);
  m_check : check_ok W (adler (strm s)) (D ++ used);
  m_total : total_in (strm s) = u64 (Z.of_nat (length (D ++ used)));
  m_used : used <> [] -> left_in s = 0;
  m_put : put_upto last (D ++ used) (Z.of_nat (length (D ++ used)) - left_in s) s
}.

(** A block more. *)
Lemma put_block_upto D q l s s' bs last : put_upto false D q s -> all_bits s' = all_bits s ++ bs ->
  block_at (Z.of_nat (length (stream (bits s)))) bs (last, Bytes l) -> (last = true -> bi_valid (bits s') = 0) ->
  forall D', upto D q ++ l = upto D' (q + Z.of_nat (length l)) -> put_upto last D' (q + Z.of_nat (length l)) s'.
Proof using.
  intros (cs & (b0 & B1 & B2) & U) E B Z0 D' El. assert (U' : unpack (w_size P) [] (cs ++ [Bytes l]) = Some (upto D' (q + Z.of_nat (length l)))).
  { rewrite unpack_app, U. cbn [unpack expand_content]. by rewrite El. }
  destruct last.
  - split; [by apply Z0|]. exists b0, cs, bs, (Bytes l), 0%nat. cbn [replicate]. rewrite app_nil_r.
    split; [by rewrite E, B1, <- app_assoc|]. split; [lia|]. split; [done|]. split; [by apply (block_moved s hdr b0)|done].
  - exists (cs ++ [Bytes l]). split; [|done]. apply (emit_block hdr s s' cs bs (Bytes l)); [by exists b0|done|done].
Qed.

(** Writing [l] behind the header. *)
Lemma all_bits_write s l : bi_valid (bits s) = 0 -> pending (bits s) = [] ->
  byte_bits (next_out (strm s) ++ l) ++ stream (bits s) = all_bits s ++ byte_bits l.
Proof using.
  intros V E. unfold all_bits, stream. rewrite V, E. change (bits_of (bi_buf (bits s)) (Z.to_nat 0)) with (@nil bool).
  change (byte_bits []) with (@nil bool). by rewrite !app_nil_r, byte_bits_app.
Qed.

(** The header of a stored block, when there is room for it. *)
Lemma header_flushed b0 s l last : bits s = b0 -> bitbuf_ok b0 -> pending b0 = [] -> out_ok R (strm s) -> last = 0 \/ last = 1 -> bytes_ok l ->
  Z.of_nat (length l) <= 65535 -> Z.shiftr (bi_valid b0 + 42) 3 <= avail_out (strm s) ->
  let s' := flush_pending (with_bits s (stored_header b0 (Z.of_nat (length l)) last)) in
  moved (with_bits s (stored_header b0 (Z.of_nat (length l)) last)) s' /\ bitbuf_ok (bits s') /\ out_ok R (strm s') /\ bi_valid (bits s') = 0 /\ pending (bits s') = [] /\
  avail_out (strm s') = avail_out (strm s) - Z.shiftr (bi_valid b0 + 42) 3 /\
  exists bs, all_bits s' ++ byte_bits l = all_bits s ++ bs /\ block_at (Z.of_nat (length (stream b0))) bs (last =? 1, Bytes l).
Proof using.
  intros Eb Hb Hp Ho Hl Hbuf Hlen Hr. cbv zeta. destruct (stored_header_ok b0 l last Hb Hl Hbuf Hlen) as (H1 & H2 & H3 & bs & H4 & H5). cbv zeta in *.
  set (h := stored_header b0 (Z.of_nat (length l)) last) in *. rewrite Hp in H3. cbn [length] in H3.
  set (s1 := with_bits s h). destruct (flush_pending_ok R s1 H1 Ho) as (F1 & F2 & F3 & F4 & F5 & F6). cbv zeta in *.
  assert (E : exists b, flush_pending s1 = with_bits (with_strm s1 (write_out (strm s1) (pending h) (Z.of_nat (length (pending h))))) b /\ pending b = []).
  { unfold flush_pending. change (bits s1) with h. assert (Ef : _tr_flush_bits h = h) by (unfold _tr_flush_bits, bi_flush; by rewrite H2).
    rewrite Ef. change (with_bits s1 h) with s1. unfold pending_len. change (bits s1) with h. change (strm s1) with (strm s).
    rewrite (proj2 (Z.ltb_ge _ _)) by lia. assert (0 <= bi_valid b0) by apply Hb.
    assert (5 <= Z.shiftr (bi_valid b0 + 42) 3) by (rewrite Z.shiftr_div_pow2 by lia; change (2 ^ 3) with 8; Z.div_mod_to_equations; lia).
    rewrite (proj2 (Z.eqb_neq _ _)) by lia. rewrite Nat2Z.id, firstn_all, drop_all. by eexists. }
  destruct E as (b & E & Eb0). set (s' := flush_pending s1) in *.
  split; [done|]. split; [done|]. split; [done|]. split; [by apply F6|]. split; [by rewrite E|]. split.
  - rewrite E. change (avail_out (strm s) - Z.of_nat (length (pending h)) = avail_out (strm s) - Z.shiftr (bi_valid b0 + 42) 3). lia.
  - exists bs. split; [|done]. rewrite F4. unfold all_bits. change (bits s1) with h. change (strm s1) with (strm s).
    by rewrite <- app_assoc, H4, Eb, app_assoc.
Qed.

(** [l] was written behind what was put out. *)
Record wrote (l : list Z) (s s' : dstate) : Prop := {
  y_same : conf s' = conf s /\ ts s' = ts s /\ wrap s' = wrap s /\ status s' = status s;
  y_out : out_ok R (strm s');
  y_bits : all_bits s' = all_bits s ++ byte_bits l;
  y_avail : avail_out (strm s') = avail_out (strm s) - Z.of_nat (length l)
}.

Lemma copy_window_ok s n : bi_valid (bits s) = 0 -> pending (bits s) = [] -> out_ok R (strm s) ->
  Z.of_nat (length (window (win s))) = window_size P -> bytes_ok (window (win s)) -> 0 <= block_start (win s) -> 0 <= n ->
  block_start (win s) + n <= window_size P -> n <= avail_out (strm s) ->
  let s' := copy_window s n in
  wrote (bytes_at (window (win s)) (block_start (win s)) n) s s' /\ win s' = with_block (win s) (block_start (win s) + n) /\
  next_in (strm s') = next_in (strm s) /\ adler (strm s') = adler (strm s) /\ total_in (strm s') = total_in (strm s).
Proof using.
  intros V E O Hw Hb H0 Hn Hr Ha. cbv zeta. unfold copy_window. pose proof (length_bytes_at (window (win s)) (block_start (win s)) n H0 Hn ltac:(lia)) as Ll.
  destruct (Z.eqb_spec n 0) as [-> |N].
  - split; [|split; [rewrite Z.add_0_r; by destruct (win s)|done]]. constructor; [done|done|by rewrite app_nil_r|cbn; lia].
  - set (l := bytes_at _ _ _) in *. split; [|done]. constructor; [done| | |by rewrite Ll].
    + change (out_ok R (write_out (strm s) l n)). rewrite <- Ll. apply write_out_ok; [done|by apply bytes_at_bytes|lia].
    + exact (all_bits_write s l V E).
Qed.

Lemma copy_input_ok s n : bi_valid (bits s) = 0 -> pending (bits s) = [] -> out_ok R (strm s) -> wrap s = W -> bytes_ok (next_in (strm s)) ->
  0 <= n <= avail_in (strm s) -> n <= avail_out (strm s) ->
  let s' := copy_input s n in let l := take (Z.to_nat n) (next_in (strm s)) in
  wrote l s s' /\ win s' = win s /\ Z.of_nat (length l) = n /\ next_in (strm s) = l ++ next_in (strm s') /\
  (forall D, total_in (strm s) = u64 (Z.of_nat (length D)) -> total_in (strm s') = u64 (Z.of_nat (length (D ++ l)))) /\
  forall D, bytes_ok D -> check_ok W (adler (strm s)) D -> check_ok W (adler (strm s')) (D ++ l).
Proof using.
  intros V E O Ew Hi Hn Ha. cbv zeta. unfold copy_input. set (l := take (Z.to_nat n) (next_in (strm s))). unfold avail_in in Hn.
  assert (Ll : Z.of_nat (length l) = n) by (unfold l; rewrite length_take; lia).
  assert (Hl : bytes_ok l) by (by apply Forall_take).
  destruct (Z.eqb_spec n 0) as [N0|N].
  - assert (El : l = []) by (destruct l; [done|cbn in Ll; lia]). rewrite El in *. split; [|split; [done|split; [done|split; [done|split]]]].
    + constructor; [done|done|by rewrite app_nil_r|cbn; lia].
    + intros D ED. by rewrite app_nil_r.
    + intros D _ C. by rewrite app_nil_r.
  - assert (Er : read_buf (wrap s) (strm s) n = (l, mk_strm (drop (Z.to_nat n) (next_in (strm s))) (next_out (strm s)) (avail_out (strm s))
      (u64 (total_in (strm s) + n)) (total_out (strm s)) (check_bytes (wrap s) (adler (strm s)) l))).
    { unfold read_buf, avail_in. destruct (Z.ltb_spec n (Z.of_nat (length (next_in (strm s))))).
      - rewrite (proj2 (Z.eqb_neq _ _)) by lia. done.
      - assert (En : Z.of_nat (length (next_in (strm s))) = n) by lia. rewrite En. rewrite (proj2 (Z.eqb_neq _ _)) by lia. done. }
    rewrite Er. set (x := mk_strm _ _ _ _ _ _). assert (Ox : out_ok R x) by (destruct O; by constructor).
    split; [|split; [done|split; [done|split; [by unfold l; cbn; rewrite take_drop|split]]]].
    + constructor; [done| | |by rewrite Ll].
      * change (out_ok R (write_out x l n)). rewrite <- Ll. apply write_out_ok; [done|done|change (avail_out x) with (avail_out (strm s)); lia].
      * exact (all_bits_write s l V E).
    + intros D ED. change (u64 (total_in (strm s) + n) = u64 (Z.of_nat (length (D ++ l)))). rewrite ED, u64_add, length_app. f_equal. lia.
    + intros D HD C. change (check_ok W (check_bytes (wrap s) (adler (strm s)) l) (D ++ l)). rewrite Ew. by apply check_bytes_ok.
Qed.

(** The bytes of a block follow those put out before. *)
Lemma stored_data D used s last n m : mid last D used s -> 0 <= n <= left_in s -> (m = 0 \/ n = left_in s) -> 0 <= m <= avail_in (strm s) ->
  let q := Z.of_nat (length (D ++ used)) - left_in s in
  let l := take (Z.to_nat m) (next_in (strm s)) in
  upto (D ++ used) q ++ bytes_at (window (win s)) (block_start (win s)) n ++ l = upto (D ++ used ++ l) (q + (n + m)).
Proof using HP.
  intros M Hn Hm Hi. cbv zeta. set (l := take (Z.to_nat m) (next_in (strm s))). unfold avail_in in Hi.
  assert (Ll : Z.of_nat (length l) = m) by (unfold l; rewrite length_take; lia).
  pose proof (m_block _ _ _ _ M) as Hb. pose proof (m_holds _ _ _ _ M) as H. pose proof (h_data _ _ _ H) as Hd.
  rewrite (m_look _ _ _ _ M), Z.add_0_r in Hd. unfold left_in in *. rewrite (length_app D used) in *.
  assert (E : upto (D ++ used) (Z.of_nat (length D + length used) - (strstart (win s) - block_start (win s))) ++
    bytes_at (window (win s)) (block_start (win s)) n =
    upto (D ++ used) (Z.of_nat (length D + length used) - (strstart (win s) - block_start (win s)) + n)).
  { destruct used as [|x used].
    - rewrite app_nil_r, Nat.add_0_r. rewrite (window_slice P D) by (done || (rewrite ?(m_look _ _ _ _ M); lia)). rewrite (m_look _ _ _ _ M).
      replace (Z.of_nat (length D) - (strstart (win s) + 0) + block_start (win s)) with
        (Z.of_nat (length D) - (strstart (win s) - block_start (win s))) by lia. apply upto_slice; lia.
    - assert (E0 : left_in s = 0) by (by apply (m_used _ _ _ _ M)). unfold left_in in E0.
      assert (n = 0) by lia. subst n. unfold bytes_at at 1. cbn [Z.to_nat take]. rewrite app_nil_r. f_equal. lia. }
  rewrite app_assoc, E, (app_assoc D). destruct Hm as [-> |Hm].
  - assert (El : l = []) by (destruct l; [done|cbn in Ll; lia]). rewrite El, !app_nil_r. f_equal. lia.
  - replace (Z.of_nat (length D + length used) - (strstart (win s) - block_start (win s)) + n) with (Z.of_nat (length (D ++ used)))
      by (rewrite length_app; lia). rewrite upto_all.
    replace (Z.of_nat (length D + length used) - (strstart (win s) - block_start (win s)) + (n + m)) with (Z.of_nat (length ((D ++ used) ++ l)))
      by (rewrite !length_app; lia). by rewrite upto_all.
Qed.

(** A block that is put out directly, [n] bytes of it from the window and [m] from the input. *)
Lemma put_block_ok D used s n m last : mid false D used s -> 0 <= n <= left_in s -> (m = 0 \/ n = left_in s) -> 0 <= m <= avail_in (strm s) ->
  n + m <= 65535 -> Z.shiftr (bi_valid (bits s) + 42) 3 + (n + m) <= avail_out (strm s) ->
  let s1 := flush_pending (with_bits s (stored_header (bits s) (n + m) (Z.b2z last))) in
  let s' := copy_input (copy_window s1 n) m in
  exists l, next_in (strm s) = l ++ next_in (strm s') /\ Z.of_nat (length l) = m /\ mid last D (used ++ l) s' /\ left_in s' = left_in s - n.
Proof using HP.
  intros M Hn Hm Hi Hl Ha. cbv zeta. pose proof (stored_data D used s false n m M Hn Hm Hi) as Dt. cbv zeta in Dt.
  destruct M as [M1 M2 M3 M4 M5 M6 M7 M8 M9 M10 M11 M12 M13 M14 M15 M16 M17 M18]. destruct (sizes P HP) as (Sw & _).
  pose proof M4 as [H1 H2 H3 H4 H5 H6 H7 H8]. unfold left_in in Hn.
  set (lw := bytes_at (window (win s)) (block_start (win s)) n) in *. set (li := take (Z.to_nat m) (next_in (strm s))) in *.
  unfold avail_in in Hi. assert (Lw : Z.of_nat (length lw) = n) by (apply length_bytes_at; lia).
  assert (Li : Z.of_nat (length li) = m) by (unfold li; rewrite length_take; lia).
  assert (Ll : Z.of_nat (length (lw ++ li)) = n + m) by (rewrite length_app; lia).
  assert (Bl : bytes_ok (lw ++ li)) by (apply Forall_app; split; [by apply bytes_at_bytes|by apply Forall_take]).
  destruct (header_flushed (bits s) s (lw ++ li) (Z.b2z last) eq_refl M10 M11 M12 ltac:(destruct last; auto) Bl ltac:(lia) ltac:(lia))
    as (F1 & F2 & F3 & F4 & F5 & F6 & bs & F7 & F8). cbv zeta in *. rewrite Ll in *.
  set (s0 := with_bits s (stored_header (bits s) (n + m) (Z.b2z last))) in *. set (s1 := flush_pending s0) in *.
  assert (V1 : win s1 = win s /\ next_in (strm s1) = next_in (strm s) /\ adler (strm s1) = adler (strm s) /\ total_in (strm s1) = total_in (strm s) /\
    conf s1 = conf s /\ wrap s1 = wrap s /\ status s1 = status s /\ ts s1 = with_out (ts s) (bits s1)) by (rewrite F1; done).
  destruct V1 as (V1 & V2 & V3 & V4 & V5 & V6 & V7 & V8).
  destruct (copy_window_ok s1 n F4 F5 F3) as (W1 & W2 & W3 & W4 & W5); rewrite ?V1; try done; [lia|lia|lia|lia|]. cbv zeta in *.
  rewrite V1 in W1, W2. fold lw in W1. set (s2 := copy_window s1 n) in *. destruct W1 as [(Y1 & Y2 & Y3 & Y4) Y5 Y6 Y7].
  assert (Eb2 : bits s2 = bits s1) by (unfold bits; by rewrite Y2).
  destruct (copy_input_ok s2 m) as (X1 & X2 & X3 & X4 & X5 & X6); rewrite ?Eb2; try done; [by rewrite Y3, V6; apply M2|by rewrite W3, V2|
    unfold avail_in; rewrite W3, V2; lia|lia|]. cbv zeta in *. rewrite W3, V2 in X1, X3, X4, X5, X6. fold li in X1, X3, X4, X5, X6.
  set (s3 := copy_input s2 m) in *. destruct X1 as [(Z1 & Z2 & Z3 & Z4) Z5 Z6 Z7].
  assert (Eb3 : bits s3 = bits s1) by (unfold bits; by rewrite Z2, Y2).
  assert (Et : ts s3 = with_out (ts s) (bits s1)) by (by rewrite Z2, Y2).
  assert (Ew : win s3 = with_block (win s) (block_start (win s) + n)) by (by rewrite X2).
  assert (Bd : bytes_ok li) by (by apply Forall_take).
  exists li. split; [done|]. split; [done|]. assert (El3 : left_in s3 = left_in s - n) by (unfold left_in; rewrite Ew; lz_fields; lia).
  split; [|done]. constructor.
  - by rewrite Z1, Y1, V5.
  - rewrite Et, Z3, Y3, V6. done.
  - by rewrite Z4, Y4, V7.
  - rewrite Ew. by constructor.
  - by rewrite Ew.
  - rewrite Ew. lz_fields. lia.
  - by rewrite Ew.
  - rewrite Et. by apply with_out_ok.
  - by rewrite Et.
  - by rewrite Eb3.
  - by rewrite Eb3.
  - done.
  - rewrite X4 in M13. by apply Forall_app in M13 as [_ M13].
  - rewrite app_assoc. by apply Forall_app.
  - rewrite app_assoc. apply X6; [done|]. by rewrite W4, V3.
  - rewrite app_assoc. apply X5. by rewrite W5, V4.
  - intros Nu. rewrite El3. destruct used as [|x used]; [|rewrite M17 in * by done; unfold left_in in *; rewrite M17 in Hn by done; lia].
    destruct Hm as [-> |Hm]; [|lia]. destruct li; [done|cbn in Li; lia].
  - rewrite El3. rewrite (app_assoc D), (length_app (D ++ used)). 
    replace (Z.of_nat (length (D ++ used) + length li) - (left_in s - n)) with
      (Z.of_nat (length (D ++ used)) - left_in s + Z.of_nat (length (lw ++ li))) by lia.
    apply (put_block_upto (D ++ used) _ (lw ++ li) s s3 bs last M18).
    + rewrite Z6, Y6, <- app_assoc, <- byte_bits_app. exact F7.
    + by destruct last.
    + intros _. by rewrite Eb3.
    + rewrite Ll, <- app_assoc. exact Dt.
Qed.

(** The lengths are computed in 32 bits; the input is assumed to leave room for what
    the window holds. *)
Definition small_input (s : dstate) : Prop := avail_in (strm s) + 65536 < 4294967296.

Lemma left_in_range last D used s : mid last D used s -> 0 <= left_in s <= 65535 /\ u32 (left_in s) = left_in s.
Proof using HP.
  intros M. destruct (sizes P HP) as (Sw & _). pose proof (m_block _ _ _ _ M). pose proof (m_top _ _ _ _ M). unfold left_in, window_size in *.
  split; [lia|]. apply u32_id. change (2 ^ 32) with 4294967296. lia.
Qed.

Lemma stored_turn_ok D used s flush min_block : mid false D used s -> small_input s -> 0 < min_block ->
  match stored_turn flush min_block s with
  | None => True
  | Some (s', last) =>
      exists l, next_in (strm s) = l ++ next_in (strm s') /\ mid last D (used ++ l) s' /\
        (last = true -> flush = Z_FINISH /\ next_in (strm s') = [] /\ left_in s' = 0) /\
        (last = false -> left_in s' + avail_in (strm s') < left_in s + avail_in (strm s))
  end.
Proof using HP.
  intros M Hs Hmb. destruct (left_in_range _ _ _ _ M) as [Rl Ul]. unfold stored_turn, small_input in *.
  change (strstart (win s) - block_start (win s)) with (left_in s). rewrite Ul.
  assert (Hav : 0 <= avail_in (strm s)) by (unfold avail_in; lia).
  rewrite (u32_id (left_in s + avail_in (strm s))) by (change (2 ^ 32) with 4294967296; lia).
  set (have := Z.shiftr (bi_valid (bits s) + 42) 3). set (all := left_in s + avail_in (strm s)).
  destruct (Z.ltb_spec (avail_out (strm s)) have) as [|La]; [done|].
  set (len1 := if all <? MAX_STORED then all else MAX_STORED).
  set (len := if avail_out (strm s) - have <? len1 then avail_out (strm s) - have else len1).
  assert (Hlen : 0 <= len <= all /\ len <= 65535 /\ have + len <= avail_out (strm s)).
  { unfold len, len1, all, MAX_STORED. destruct (Z.ltb_spec (left_in s + avail_in (strm s)) 65535);
      match goal with |- context [?a <? ?b] => destruct (Z.ltb_spec a b) end; lia. }
  clearbody len. clear len1. destruct ((len <? min_block) && _) eqn:Eg; [done|]. set (last := (flush =? Z_FINISH) && (len =? all)) in *.
  set (n := if len <? left_in s then len else left_in s).
  assert (Hn : 0 <= n <= left_in s /\ 0 <= len - n <= avail_in (strm s) /\ (len - n = 0 \/ n = left_in s)).
  { unfold n, all in *. destruct (Z.ltb_spec len (left_in s)); lia. }
  destruct Hn as (N1 & N2 & N3). pose proof (put_block_ok D used s n (len - n) last M N1 N3 N2 ltac:(lia) ltac:(fold have; lia)) as Pb.
  cbv zeta in Pb. replace (n + (len - n)) with len in Pb by lia. set (s' := copy_input _ _) in *. clearbody s'.
  destruct Pb as (l & E1 & E2 & M' & E3). exists l. split; [done|]. split; [done|].
  assert (Ei : avail_in (strm s) = Z.of_nat (length l) + avail_in (strm s')) by (unfold avail_in; rewrite E1, length_app; lia).
  split.
  - unfold last. rewrite andb_true_iff, !Z.eqb_eq. intros [Ef El]. split; [done|].
    assert (avail_in (strm s') = 0) as E0 by (unfold all in *; unfold avail_in in *; lia). split; [|unfold all in *; lia].
    unfold avail_in in E0. destruct (next_in (strm s')); [done|cbn in E0; lia].
  - intros El. assert (0 < len); [|lia]. destruct (Z.eq_dec len 0) as [Z0|]; [|lia]. exfalso. unfold last in El. rewrite Z0 in *.
    rewrite (proj2 (Z.ltb_lt _ _)) in Eg by lia. cbn [andb] in Eg. apply orb_false_iff in Eg as [Eg E5]. apply orb_false_iff in Eg as [Eg _].
    rewrite Z.eqb_refl in Eg. apply negb_false_iff in Eg, E5. by rewrite Eg, E5 in El.
Qed.

Lemma stored_loop_ok flush min_block : 0 < min_block -> forall fuel D used s, mid false D used s -> small_input s ->
  left_in s + avail_in (strm s) < Z.of_nat fuel ->
  exists s' last l, stored_loop fuel flush min_block s = Some (s', last) /\ next_in (strm s) = l ++ next_in (strm s') /\
    mid last D (used ++ l) s' /\ (last = true -> flush = Z_FINISH /\ next_in (strm s') = [] /\ left_in s' = 0).
Proof using HP.
  intros Hm. induction fuel as [|fuel IH]; intros D used s M Hs Hf.
  { destruct (left_in_range _ _ _ _ M). unfold avail_in in Hf. lia. }
  cbn [stored_loop]. pose proof (stored_turn_ok D used s flush min_block M Hs Hm) as T.
  destruct (stored_turn flush min_block s) as [[s1 last]|].
  - destruct T as (l & E & M1 & T1 & T2). destruct last; [by exists s1, true, l|].
    assert (Hs1 : small_input s1) by (unfold small_input, avail_in in *; rewrite E, length_app in Hs; lia).
    destruct (IH D (used ++ l) s1 M1 Hs1 ltac:(specialize (T2 eq_refl); lia)) as (s2 & last & l2 & E2 & E3 & M2 & T3).
    exists s2, last, (l ++ l2). split; [done|]. split; [by rewrite E, E3, app_assoc|]. split; [by rewrite app_assoc|done].
  - exists s, false, []. rewrite app_nil_r. done.
Qed.

(** ** The window is brought up to date *)

Lemma holds_append D w l : holds P D w -> lookahead w = 0 -> bytes_ok l -> strstart w + Z.of_nat (length l) <= window_size P ->
  holds P (D ++ l) (with_pos (with_window w (zmemcpy (window w) (strstart w) l)) (strstart w + Z.of_nat (length l)) (lookahead w)).
Proof using.
  intros [H1 H2 H3 H4 H5 H6 H7 H8] E Hl Hr. rewrite E in *. constructor; lz_fields; rewrite ?length_app; try lia.
  - rewrite length_zmemcpy; lia.
  - by apply zmemcpy_bytes.
  - intros i Hi. rewrite get_zmemcpy by lia. destruct (Z.leb_spec (strstart w) i) as [Le|Le]; cbn [andb].
    + rewrite (proj2 (Z.ltb_lt _ _)) by lia. rewrite get_app_r by lia. f_equal. lia.
    + rewrite H7, get_app_l by lia. f_equal. lia.
Qed.

(** The upper half of the window is moved to the lower one. *)
Lemma holds_down D w b : holds P D w -> lookahead w = 0 -> w_size P <= strstart w ->
  holds P D (with_pos (with_block (with_window w (zmemcpy (window w) 0 (bytes_at (window w) (w_size P) (strstart w - w_size P)))) b)
    (strstart w - w_size P) (lookahead w)).
Proof using HP.
  intros [H1 H2 H3 H4 H5 H6 H7 H8] E Hs. destruct (sizes P HP) as (Sw & _). unfold window_size in *. rewrite E in *.
  pose proof (length_bytes_at (window w) (w_size P) (strstart w - w_size P) ltac:(lia) ltac:(lia) ltac:(lia)) as Ll.
  constructor; lz_fields; unfold window_size; try lia.
  - rewrite length_zmemcpy; lia.
  - apply zmemcpy_bytes; [done|by apply bytes_at_bytes].
  - intros i Hi. rewrite get_zmemcpy, Ll by lia. rewrite (proj2 (Z.leb_le _ _)), (proj2 (Z.ltb_lt _ _)) by lia. cbn [andb].
    rewrite get_bytes_at, H7 by lia. f_equal. lia.
Qed.

(** The window is filled anew. *)
Lemma holds_anew D w l : holds P D w -> lookahead w = 0 -> bytes_ok l -> w_size P <= Z.of_nat (length l) ->
  holds P (D ++ l) (with_pos (with_window w (zmemcpy (window w) 0 (bytes_at l (Z.of_nat (length l) - w_size P) (w_size P)))) (w_size P) (lookahead w)).
Proof using HP.
  intros [H1 H2 H3 H4 H5 H6 H7 H8] E Hl Hs. destruct (sizes P HP) as (Sw & _). unfold window_size in *. rewrite E in *.
  pose proof (length_bytes_at l (Z.of_nat (length l) - w_size P) (w_size P) ltac:(lia) ltac:(lia) ltac:(lia)) as Ll.
  constructor; lz_fields; unfold window_size; rewrite ?length_app; try lia.
  - rewrite length_zmemcpy; lia.
  - apply zmemcpy_bytes; [done|by apply bytes_at_bytes].
  - intros i Hi. rewrite get_zmemcpy, Ll by lia. rewrite (proj2 (Z.leb_le _ _)), (proj2 (Z.ltb_lt _ _)) by lia. cbn [andb].
    rewrite get_bytes_at, get_app_r by lia. f_equal. lia.
Qed.

Lemma count_slide_win s : win (count_slide s) = win s.
Proof using. unfold count_slide. by destruct (_ <? 2). Qed.

(** What a change of the window, or of the count of slides, leaves alone. *)
Definition recounted (s s' : dstate) : Prop :=
  s' = mk_ds (conf s) (win s') (with_buffers (ts s) (l_buf (ts s)) (d_buf (ts s)) (last_lit (ts s)) (matches (ts s'))) (strm s) (wrap s) (status s) (last_flush s).

Lemma recounted_trans s s1 s2 : recounted s s1 -> recounted s1 s2 -> recounted s s2.
Proof using. unfold recounted. intros E1 E2. rewrite E2, E1. done. Qed.

Lemma recounted_win s w : recounted s (with_win s w).
Proof using. unfold recounted. ds_fields. by destruct s as [? ? [] ? ? ? ?]. Qed.

Lemma recounted_count s : recounted s (count_slide s).
Proof using. unfold recounted, count_slide. destruct (_ <? 2); [done|]. by destruct s as [? ? [] ? ? ? ?]. Qed.

Lemma mid_win last D used s s' : mid last D used s -> recounted s s' -> holds P (D ++ used) (win s') -> lookahead (win s') = 0 ->
  0 <= block_start (win s') -> strstart (win s') < window_size P -> left_in s' = left_in s -> mid last (D ++ used) [] s'.
Proof using.
  intros [M1 M2 M3 M4 M5 M6 M7 M8 M9 M10 M11 M12 M13 M14 M15 M16 M17 M18] E H Hl Hb Ht El.
  assert (Eb : bits s' = bits s /\ strm s' = strm s) by (rewrite E; done). destruct Eb as [Eb Ex].
  constructor; rewrite ?app_nil_r, ?Eb, ?Ex, ?El; try done; try (rewrite E; done).
  - unfold left_in in El. lia.
  - rewrite E. destruct M8 as [Sz ? ? ? ? ?]. constructor; try done. destruct Sz. by constructor.
Qed.

Lemma raise_high_ok last D s : mid last D [] s -> let s' := raise_high s in
  mid last D [] s' /\ left_in s' = left_in s /\ strm s' = strm s /\ strstart (win s') = strstart (win s) /\ block_start (win s') = block_start (win s).
Proof using.
  intros M. cbv zeta. unfold raise_high. destruct (_ <? _); [|done]. split; [|done]. pose proof (m_holds _ _ _ _ M) as H.
  rewrite <- (app_nil_r D). apply (mid_win last D [] s); [done|apply recounted_win| |apply M|apply M|apply M|done].
  rewrite app_nil_r. pose proof (m_holds _ _ _ _ M) as [? ? ? ? ? ? ? ?]. by constructor.
Qed.

Lemma window_copied_ok last D used s : mid last D used s -> let s' := window_copied s used in
  mid last (D ++ used) [] s' /\ left_in s' = left_in s /\ strm s' = strm s.
Proof using HP.
  intros M. cbv zeta. unfold window_copied. pose proof (m_holds _ _ _ _ M) as H. pose proof (m_look _ _ _ _ M) as El.
  destruct (sizes P HP) as (Sw & _). pose proof (m_block _ _ _ _ M) as Hb. pose proof (m_top _ _ _ _ M) as Ht.
  destruct (Z.eqb_spec (Z.of_nat (length used)) 0) as [E0|N0].
  { destruct used; [|done]. split; [|done]. by rewrite app_nil_r. }
  assert (Nu : used <> []) by (by intros ->). pose proof (m_used _ _ _ _ M Nu) as E0. rewrite (m_conf _ _ _ _ M).
  assert (Bu : bytes_ok used) by (pose proof (m_data _ _ _ _ M) as B; by apply Forall_app in B as [_ B]).
  assert (Fin : forall s1, recounted s s1 -> holds P (D ++ used) (win s1) -> lookahead (win s1) = 0 -> strstart (win s1) < window_size P ->
    let w := with_block (win s1) (strstart (win s1)) in
    let s' := with_win s1 (with_insert w (s_insert w + MIN (Z.of_nat (length used)) (w_size P - s_insert w))) in
    mid last (D ++ used) [] s' /\ left_in s' = left_in s /\ strm s' = strm s).
  { intros s1 R1 H1 L1 T1. cbv zeta. set (s' := with_win s1 _).
    assert (E1 : left_in s' = left_in s) by (rewrite E0; unfold left_in, s'; ds_fields; lz_fields; lia).
    split; [|split; [done|unfold s'; ds_fields; by rewrite R1]].
    apply (mid_win last D used s); [done|apply (recounted_trans _ s1); [done|apply recounted_win]| |done| |done|done].
    - unfold s'. ds_fields. destruct H1. by constructor.
    - unfold s'. ds_fields. lz_fields. apply H1. }
  unfold window_size in *. destruct (Z.leb_spec (w_size P) (Z.of_nat (length used))) as [L1|L1].
  - set (s1 := with_win (with_matches s 2) _).
    apply (Fin s1); [done| |done|unfold s1; ds_fields; lz_fields; lia]. by apply (holds_anew D (win s)).
  - set (s1 := if 2 * w_size P - strstart (win s) <=? Z.of_nat (length used) then _ else s).
    assert (V : recounted s s1 /\ holds P D (win s1) /\ lookahead (win s1) = 0 /\ strstart (win s1) + Z.of_nat (length used) < 2 * w_size P).
    { unfold s1. destruct (Z.leb_spec (2 * w_size P - strstart (win s)) (Z.of_nat (length used))) as [L2|L2].
      - split; [eapply recounted_trans; [|apply recounted_count]; apply recounted_win|].
        rewrite count_slide_win. ds_fields. split; [|split; [done|lz_fields; lia]].
        pose proof (holds_down D (win s) (block_start (win s)) H El ltac:(lia)) as H1. by destruct (win s).
      - split; [|split; [done|split; [done|lia]]]. unfold recounted. by destruct s as [? ? [] ? ? ? ?]. }
    destruct V as (V1 & V2 & V3 & V4). clearbody s1.
    apply (Fin (with_win s1 (with_pos (with_window (win s1) (zmemcpy (window (win s1)) (strstart (win s1)) used)) (strstart (win s1) + Z.of_nat (length used)) (lookahead (win s1))))).
    + apply (recounted_trans _ s1); [done|apply recounted_win].
    + ds_fields. apply holds_append; try done. unfold window_size. lia.
    + done.
    + ds_fields. lz_fields. done.
Qed.

(** ** The rest of the input goes to the window *)

Lemma fill_rest_ok D s : mid false D [] s -> let s' := fill_rest s in
  exists l, next_in (strm s) = l ++ next_in (strm s') /\ mid false (D ++ l) [] s'.
Proof using HP.
  intros M. cbv zeta. unfold fill_rest. rewrite (m_conf _ _ _ _ M). destruct (sizes P HP) as (Sw & _).
  pose proof (m_holds _ _ _ _ M) as H. pose proof (m_look _ _ _ _ M) as El. pose proof (m_block _ _ _ _ M) as Hb. pose proof (m_top _ _ _ _ M) as Ht.
  unfold window_size in *. set (slid := if _ && _ then _ else _).
  assert (V : let '(s1, have) := slid in mid false D [] s1 /\ strm s1 = strm s /\ have = 2 * w_size P - strstart (win s1) - 1).
  { unfold slid. destruct (_ && _) eqn:E; [|done]. apply andb_true_iff in E as [_ E]. apply Z.leb_le in E.
    split; [|split; [unfold count_slide; by destruct (_ <? 2)|rewrite count_slide_win; ds_fields; lz_fields; lia]].
    rewrite <- (app_nil_r D). apply (mid_win false D [] s); rewrite ?count_slide_win; ds_fields; lz_fields; unfold window_size; try done; try lia.
    - eapply recounted_trans; [apply recounted_win|apply recounted_count].
    - rewrite app_nil_r. apply (holds_down D (win s)); [done|done|lia].
    - unfold left_in. rewrite count_slide_win. ds_fields. lz_fields. lia. }
  destruct slid as [s1 have]. destruct V as (M1 & Ex & ->). clear M H El Hb Ht. rename M1 into M.
  pose proof (m_holds _ _ _ _ M) as H. pose proof (m_look _ _ _ _ M) as El. pose proof (m_block _ _ _ _ M) as Hb. pose proof (m_top _ _ _ _ M) as Ht.
  unfold window_size in *. rewrite <- Ex. set (n := if _ <? _ then _ else _).
  assert (Hn : 0 <= n <= 2 * w_size P - strstart (win s1) - 1).
  { unfold n, avail_in. match goal with |- context [?a <? ?b] => destruct (Z.ltb_spec a b) end; lia. }
  destruct (Z.eqb_spec n 0) as [N0|N0]; [exists []; rewrite app_nil_r; by split|].
  assert (Hn' : n <= avail_in (strm s1)) by (unfold n; match goal with |- context [?a <? ?b] => destruct (Z.ltb_spec a b) end; lia).
  pose proof (read_buf_ok (wrap s1) (strm s1) n ltac:(lia)) as Rb. destruct (read_buf (wrap s1) (strm s1) n) as [buf x].
  destruct Rb as [[K1 (K2 & K3 & K4) K5 K6] Lb]. rewrite Z.min_l in Lb by lia. exists buf. split; [done|].
  destruct M as [M1 M2 M3 M4 M5 M6 M7 M8 M9 M10 M11 M12 M13 M14 M15 M16 M17 M18]. rewrite app_nil_r in *.
  rewrite K1 in M13. apply Forall_app in M13 as [B1 B2]. destruct M2 as (M2a & M2b & M2c). rewrite M2c in K6.
  rewrite <- Lb. constructor; ds_fields; lz_fields; rewrite ?app_nil_r; try done.
  - by apply holds_append; [done|done|done|unfold window_size; lia].
  - lia.
  - unfold window_size. lia.
  - destruct M12. constructor; rewrite ?K2, ?K3, ?K4; done.
  - by apply Forall_app.
  - by apply K6.
  - rewrite length_app, Nat2Z.inj_add. destruct K5 as [-> |[-> ->]]; [rewrite M16; apply u64_add|]. cbn [length]. by rewrite Z.add_0_r.
  - destruct M18 as (cs & (bs & E1 & E2) & U). exists cs. split.
    + exists bs. split; [|done]. unfold all_bits, bits in *. ds_fields. by rewrite K2.
    + rewrite U. f_equal. unfold left_in in *. ds_fields. lz_fields. rewrite length_app, upto_app by lia. f_equal. lia.
Qed.

(** The invariant of level 0 between calls. *)
Definition X_stored (D : list Z) (q : Z) (s : dstate) : Prop :=
  last_lit (ts s) = 0%nat /\ lookahead (win s) = 0 /\ 0 <= block_start (win s) /\ strstart (win s) < window_size P /\ q = block_abs D (win s).

Lemma mid_cur D s : L = 0 -> mid false D [] s -> cur L St W P R hdr (D ++ next_in (strm s)) X_stored D (Z.of_nat (length D) - left_in s) s.
Proof using.
  intros HL [M1 M2 M3 M4 M5 M6 M7 M8 M9 M10 M11 M12 M13 M14 M15 M16 M17 M18]. rewrite app_nil_r in *.
  pose proof (h_data _ _ _ M4) as Hd. rewrite M5 in Hd. unfold left_in in *.
  assert (Ea : block_abs D (win s) = Z.of_nat (length D) - (strstart (win s) - block_start (win s))) by (unfold block_abs; lia).
  constructor; [done| |by intros []|split; [by apply M9|split; [done|split; [lia|split; [done|by rewrite Ea]]]]].
  constructor; try done.
  - destruct M9 as (N1 & N2 & N3). rewrite N1. lia.
  - lia.
  - destruct M18 as (cs & E & U). exists cs. split; [done|]. rewrite Ea. split; [done|]. unfold buffered, symbols. by rewrite (proj1 M9).
Qed.

Lemma cur_mid T D q s : cur L St W P R hdr T X_stored D q s -> pending (bits s) = [] -> mid false D [] s.
Proof using.
  intros [_ [C1 C2 C3 C4 C5 C6 C7 C8 C9 C10 C11 C12 C13 C14] _ (X1 & X2 & X3 & X4 & X5)] Ep.
  assert (El : Z.of_nat (length D) - left_in s = block_abs D (win s)) by (unfold left_in, block_abs; lia).
  constructor; rewrite ?app_nil_r; try done.
  - unfold block_abs in *. lia.
  - rewrite X1. lia.
  - destruct C14 as (cs & E & U & _). exists cs. by rewrite El.
Qed.

Lemma mid_ended D s : mid true D [] s -> left_in s = 0 -> ended L St W P R hdr D s.
Proof using.
  intros [M1 M2 M3 M4 M5 M6 M7 M8 M9 M10 M11 M12 M13 M14 M15 M16 M17 [M18 M19]] E. rewrite app_nil_r in *. constructor; try done.
  by rewrite E, Z.sub_0_r, upto_all in M19.
Qed.

(** A block by way of the pending buffer. *)
Lemma stored_pending_ok D s flush : L = 0 -> mid false D [] s ->
  let '(s', last) := stored_pending flush s in
  if last then flush = Z_FINISH /\ next_in (strm s) = [] /\ next_in (strm s') = [] /\ ended L St W P R hdr D s'
  else cur L St W P R hdr (D ++ next_in (strm s)) X_stored D (block_abs D (win s')) s' /\ last_lit (ts s') = 0%nat.
Proof using HP.
  intros HL M. unfold stored_pending. set (have := MIN _ MAX_STORED). change (strstart (win s) - block_start (win s)) with (left_in s).
  destruct (left_in_range _ _ _ _ M) as [Rl _]. pose proof (m_bits _ _ _ _ M) as Hb. pose proof (m_lits _ _ _ _ M) as (N1 & N2 & N3).
  assert (Hh : 0 <= have <= 65535).
  { unfold have, MIN, MAX_STORED. assert (Eb : pending_buf_size s = Z.of_nat (lit_bufsize (ts s)) * 4).
    { unfold pending_buf_size, u64. apply Z.mod_small. change (2 ^ 64) with 18446744073709551616. lia. }
    rewrite Eb. destruct Hb as (_ & Hv & _). assert (Z.shiftr (bi_valid (bits s) + 42) 3 <= 7).
    { rewrite Z.shiftr_div_pow2 by lia. change (2 ^ 3) with 8. Z.div_mod_to_equations. lia. }
    match goal with |- context [?a <? ?b] => destruct (Z.ltb_spec a b) end; lia. }
  clearbody have. destruct (_ || _) eqn:Eg.
  2:{ pose proof (mid_cur D s HL M) as C. split; [|done]. destruct C as [C1 C2 C3 C4]. pose proof C4 as (_ & _ & _ & _ & Eq). by rewrite <- Eq. }
  set (len := MIN (left_in s) have). assert (Hl : 0 <= len <= left_in s /\ len <= 65535).
  { unfold len, MIN. match goal with |- context [?a <? ?b] => destruct (Z.ltb_spec a b) end; lia. }
  set (last := (flush =? Z_FINISH) && _ && _). set (l := bytes_at (window (win s)) (block_start (win s)) len).
  pose proof (stored_data D [] s false len 0 M (proj1 Hl) (or_introl eq_refl) ltac:(unfold avail_in; lia)) as Dt. cbv zeta in Dt.
  fold l in Dt. change (take (Z.to_nat 0) (next_in (strm s))) with (@nil Z) in Dt. cbn [app] in Dt. rewrite !app_nil_r, Z.add_0_r in Dt.
  pose proof (m_block _ _ _ _ M) as Hbl. pose proof (m_top _ _ _ _ M) as Ht. pose proof (m_holds _ _ _ _ M) as H. destruct H as [G1 G2 G3 G4 G5 G6 G7 G8].
  unfold left_in in Rl. assert (Ll : Z.of_nat (length l) = len) by (apply length_bytes_at; unfold left_in in Hl; lia).
  destruct (stored_block_reads (bits s) l (Z.b2z last) 0 Hb ltac:(destruct last; auto) ltac:(by apply bytes_at_bytes) ltac:(lia)) as (bs & [S1 S2] & Rd).
  destruct (stored_block_stream (bits s) l (Z.b2z last) Hb ltac:(destruct last; auto) ltac:(by apply bytes_at_bytes)) as (_ & V & _).
  set (b := _tr_stored_block (bits s) l (Z.b2z last)) in *. clearbody b.
  set (s1 := with_win (with_bits s b) (with_block (win s) (block_start (win s) + len))).
  destruct (flush_pending_ok R s1 S1 (m_out _ _ _ _ M)) as (F1 & F2 & F3 & F4 & F5 & F6). cbv zeta in *.
  change (with_win (with_bits s b) _) with s1. set (s' := flush_pending s1) in *. clearbody s'.
  assert (Ew : win s' = with_block (win s) (block_start (win s) + len)) by (by rewrite F1).
  assert (Ex : next_in (strm s') = next_in (strm s) /\ adler (strm s') = adler (strm s) /\ total_in (strm s') = total_in (strm s)) by (by rewrite F1).
  destruct Ex as (Ex1 & Ex2 & Ex3).
  assert (Ets : conf s' = conf s /\ wrap s' = wrap s /\ status s' = status s /\ ts s' = with_out (ts s) (bits s')) by (by rewrite F1).
  destruct Ets as (Et1 & Et2 & Et3 & Et4). destruct M as [M1 M2 M3 M4 M5 M6 M7 M8 M9 M10 M11 M12 M13 M14 M15 M16 M17 M18].
  rewrite app_nil_r in *.
  assert (Put : put_upto last D (Z.of_nat (length D) - left_in s + Z.of_nat (length l)) s').
  { apply (put_block_upto D _ l s s' bs last M18).
    - rewrite F4. unfold all_bits. change (bits s1) with b. change (strm s1) with (strm s). by rewrite S2, app_assoc.
    - exists 0%nat. destruct last; exact Rd.
    - intros _. apply F6. exact V.
    - by rewrite Ll. }
  rewrite Ll in Put. assert (Ea : block_abs D (win s') = Z.of_nat (length D) - left_in s + len).
  { rewrite Ew. unfold block_abs, left_in. lz_fields. lia. }
  destruct last eqn:Elast.
  - unfold last in Elast. rewrite !andb_true_iff, !Z.eqb_eq in Elast. destruct Elast as [[E1 E2] E3]. split; [done|].
    unfold avail_in in E2. assert (Ei : next_in (strm s) = []) by (destruct (next_in (strm s)); [done|cbn in E2; lia]).
    split; [done|]. split; [by rewrite Ex1|]. destruct Put as [P1 P2].
    constructor; rewrite ?Et1, ?Et2, ?Et4, ?Ew, ?Ex2, ?Ex3; try done.
    replace (Z.of_nat (length D) - left_in s + len) with (Z.of_nat (length D)) in P2 by lia. by rewrite upto_all in P2.
  - split; [|by rewrite Et4]. constructor; [by rewrite Ex1| |by intros []|].
    + constructor; rewrite ?Et1, ?Et2, ?Et3, ?Ex1, ?Ex2, ?Ex3; try done.
      * by rewrite Et4.
      * rewrite Ew. by constructor.
      * rewrite Et4. by apply with_out_ok.
      * rewrite Et4. cbn [last_lit lit_bufsize with_out]. lia.
      * unfold left_in in *. rewrite Ea. lia.
      * rewrite Ea. destruct Put as (cs & E & U). exists cs. split; [done|]. split; [done|]. rewrite Et4. unfold buffered, symbols.
        cbn [last_lit with_out]. by rewrite N1.
    + unfold X_stored. rewrite Ea, Et4, Ew. cbn [last_lit with_out]. lz_fields. split; [done|]. split; [done|]. split; [lia|]. split; [done|].
      unfold block_abs, left_in. lz_fields. lia.
Qed.

(** ** The whole function *)

Lemma deflate_stored_ok T flush s : L = 0 -> inv L St W P R hdr T X_stored s -> pending (bits s) = [] -> small_input s ->
  exists s' b, deflate_stored s flush = Some (s', b) /\ compressed L St W P R hdr T flush X_stored s' b.
Proof using HP.
  intros HL (D & q & C & Hr) Ep Hs. pose proof (cur_mid T D q s C Ep) as M. destruct C as [Ht _ _ _].
  destruct (left_in_range _ _ _ _ M) as [Rl Ul]. unfold deflate_stored. change (strstart (win s) - block_start (win s)) with (left_in s). rewrite Ul.
  destruct (sizes P HP) as (Sw & _). destruct (m_lits _ _ _ _ M) as (N1 & N2 & N3).
  set (mb := MIN _ (w_size (conf s))). assert (Hmb : 0 < mb).
  { unfold mb, MIN. rewrite (m_conf _ _ _ _ M). assert (Eb : pending_buf_size s = Z.of_nat (lit_bufsize (ts s)) * 4).
    { unfold pending_buf_size, u64. apply Z.mod_small. change (2 ^ 64) with 18446744073709551616. lia. }
    rewrite Eb. match goal with |- context [?a <? ?b] => destruct (Z.ltb_spec a b) end; lia. }
  destruct (stored_loop_ok flush mb Hmb (S (Z.to_nat (left_in s) + length (next_in (strm s)))) D [] s M Hs ltac:(unfold avail_in; lia))
    as (s1 & last & l & E & El & M1 & T1). rewrite E.
  assert (Eu : take (length (next_in (strm s)) - length (next_in (strm s1))) (next_in (strm s)) = l).
  { rewrite El, length_app, Nat.add_sub. by apply take_app_length. }
  rewrite Eu. cbn [app] in M1. destruct (window_copied_ok last D l s1 M1) as (M2 & L2 & X2). cbv zeta in *.
  destruct (raise_high_ok last (D ++ l) _ M2) as (M3 & L3 & X3 & _). cbv zeta in *. set (s2 := raise_high (window_copied s1 l)) in *.
  rewrite X2 in X3. rewrite L2 in L3. clear M1 M2 L2 X2. assert (Et : T = (D ++ l) ++ next_in (strm s2)) by (by rewrite Ht, El, X3, app_assoc).
  exists (fst (if last then (s2, finish_done)
     else if negb (flush =? Z_NO_FLUSH) && negb (flush =? Z_FINISH) && (avail_in (strm s2) =? 0) && (strstart (win s2) =? block_start (win s2)) then (s2, block_done)
     else let '(s, last) := stored_pending flush (raise_high (fill_rest s2)) in (s, if last then finish_started else need_more))).
  eexists. split; [f_equal; apply surjective_pairing|]. destruct last.
  - destruct (T1 eq_refl) as (F1 & F2 & F3). cbn [fst snd compressed]. split; [done|].
    assert (Ed : T = D ++ l) by (by rewrite Et, X3, F2, app_nil_r). rewrite Ed. split; [apply mid_ended; [done|lia]|]. split; [by rewrite X3|apply M3].
  - destruct (_ && _ && _ && _) eqn:Eg.
    + rewrite !andb_true_iff, !negb_true_iff, !Z.eqb_eq in Eg. destruct Eg as [[[_ G1] G2] G3]. cbn [fst snd compressed].
      assert (Ei : next_in (strm s2) = []) by (unfold avail_in in G2; destruct (next_in (strm s2)); [done|cbn in G2; lia]).
      pose proof (mid_cur _ _ HL M3) as C. assert (E0 : left_in s2 = 0) by (unfold left_in; lia). rewrite E0, Z.sub_0_r, Ei, app_nil_r in C.
      assert (Ed : T = D ++ l) by (by rewrite Et, Ei, app_nil_r). rewrite Ed. split; [done|]. split; [by apply Z.eqb_neq in G1|].
      split; [apply M3|]. split; [done|]. by destruct (m_lits _ _ _ _ M3).
    + destruct (fill_rest_ok (D ++ l) s2 M3) as (l2 & E4 & M4). cbv zeta in *. destruct (raise_high_ok false _ _ M4) as (M5 & _ & X5 & _).
      cbv zeta in *. set (s3 := raise_high (fill_rest s2)) in *. rewrite <- X5 in E4.
      pose proof (stored_pending_ok _ s3 flush HL M5) as Sp. destruct (stored_pending flush s3) as [s4 last4]. cbn [fst snd].
      assert (Ed : T = ((D ++ l) ++ l2) ++ next_in (strm s3)) by (by rewrite Et, E4, app_assoc).
      destruct last4; cbn [compressed].
      * destruct Sp as (S1 & S2 & S3 & S4). rewrite S2, app_nil_r in Ed. split; [done|]. split; [by rewrite Ed|]. split; [done|by intros []].
      * destruct Sp as [S1 S2]. split; [|by intros []]. rewrite Ed. exists ((D ++ l) ++ l2), (block_abs ((D ++ l) ++ l2) (win s4)).
        split; [done|]. unfold roomy. rewrite S2. pose proof (i_lits _ _ _ _ _ _ _ _ _ (r_core _ _ _ _ _ _ _ _ _ _ _ S1)). lia.
Qed.
End Stored.
