(* ===== verification/Compress.v ===== *)
(** * Compress: deflate loses nothing

    The state machine [deflate] over the block functions, from [deflateInit2_] on:
    whatever is put out, once [deflate] has returned [Z_STREAM_END], is decoded by the
    reference decoder of Inflated.v to what was put in. *)

From S2P Require Import Prelude.
From S2P Require Import Crc32.
From S2P Require Import Adler32.
From S2P Require Import Trees.
From S2P Require Import Canon.
From S2P Require Import BlockReader.
From S2P Require Import TreeSend.
From S2P Require Import Lz.
From S2P Require Import Deflate.
From S2P Require Import Inflated.
From S2P Require Import Blocks.
From S2P Require Import Compressors.
From S2P Require Import Stored.

#[local] Open Scope Z_scope.

(** ** Bytes *)

Lemma bits_of_inj a b : byte_ok a -> byte_ok b -> bits_of a 8 = bits_of b 8 -> a = b.
Proof.
  intros Ha Hb E. apply (f_equal bits_val) in E. by rewrite !bits_val_of in E.
Qed.

Lemma byte_bits_split h : forall l x, bytes_ok h -> bytes_ok l -> byte_bits l = byte_bits h ++ x ->
  exists t, l = h ++ t /\ byte_bits t = x.
Proof.
  induction h as [|a h IH]; intros l x Hh Hl E; [by exists l|]. apply Forall_cons_iff in Hh as [Ha Hh].
  change (byte_bits (a :: h)) with (bits_of a 8 ++ byte_bits h) in E. rewrite <- app_assoc in E.
  destruct l as [|b l].
  { apply (f_equal (@length bool)) in E. rewrite length_app, length_bits_of in E. cbn in E. lia. }
  apply Forall_cons_iff in Hl as [Hb Hl]. change (byte_bits (b :: l)) with (bits_of b 8 ++ byte_bits l) in E.
  apply app_inj_1 in E as [E1 E2]; [|by rewrite !length_bits_of]. apply bits_of_inj in E1; [|done..]. subst b.
  destruct (IH l x Hh Hl E2) as (t & -> & Et). by exists t.
Qed.

(** Big-endian bytes. *)
Lemma be32_bytes x : 0 <= x < 4294967296 ->
  be32 (u8 (Z.shiftr x 24)) (u8 (Z.shiftr x 16)) (u8 (Z.shiftr x 8)) (u8 x) = x.
Proof.
  intros Hx. unfold be32, u8. rewrite !Z.shiftr_div_pow2 by lia. change (2 ^ 24) with 16777216. change (2 ^ 16) with 65536.
  change (2 ^ 8) with 256. Z.div_mod_to_equations. lia.
Qed.

(** A larger window decodes as well. *)
Lemma expand_mono m n l : m <= n -> forall h d, expand m h l = Some d -> expand n h l = Some d.
Proof.
  intros Hmn. induction l as [|x l IH]; intros h d; [done|]. cbn [expand]. destruct x as [c|k len|]; [apply IH| |done].
  destruct (_ && _ && (k <=? m)) eqn:E; [|done]. apply andb_true_iff in E as [E1 E2]. apply Z.leb_le in E2. rewrite E1.
  rewrite (proj2 (Z.leb_le k n)) by lia. apply IH.
Qed.

Lemma unpack_mono m n cs : m <= n -> forall h d, unpack m h cs = Some d -> unpack n h cs = Some d.
Proof.
  intros Hmn. induction cs as [|c cs IH]; intros h d; [done|]. cbn [unpack]. destruct (expand_content m h c) as [h'|] eqn:E; [|done].
  assert (E' : expand_content n h c = Some h') by (destruct c; [exact E|by apply (expand_mono m)]). rewrite E'. apply IH.
Qed.

(** ** Wrappers *)

Section Wrappers.
Context (W : Z) (P : params) (HP : params_ok P).

Definition header_ok (hdr : list Z) : Prop := bytes_ok hdr /\
  ((W = 1 /\ exists cmf flg, hdr = [cmf; flg] /\ (cmf * 256 + flg) mod 31 = 0 /\ cmf mod 16 = 8 /\ cmf / 16 = w_bits P - 8 /\ Z.testbit flg 5 = false) \/
  (W = 2 /\ exists xfl, hdr = [31; 139; 8; 0; 0; 0; 0; 0; xfl; OS_CODE]) \/
  (W = 0 /\ hdr = [])).

Definition be_bytes (x : Z) : list Z := [u8 (Z.shiftr x 24); u8 (Z.shiftr x 16); u8 (Z.shiftr x 8); u8 x].
Definition le_bytes (x : Z) : list Z := [u8 x; u8 (Z.shiftr x 8); u8 (Z.shiftr x 16); u8 (Z.shiftr x 24)].
Definition trailer (D : list Z) : list Z :=
  if W =? 1 then be_bytes (pack (adler_ref (1, 0) D))
  else if W =? 2 then le_bytes (crc_spec 0 D) ++ le_bytes (u32 (Z.of_nat (length D)))
  else [].

(** What the formats decode. *)
Definition decodes (l D : list Z) : Prop :=
  if W =? 1 then zlib_decode l = Some D
  else if W =? 2 then gzip_decode l = Some D
  else raw_decode (w_bits P) l = Some D.

Lemma adler_range D : 0 <= pack (adler_ref (1, 0) D) < 4294967296.
Proof using.
  assert (S0 : sums_ok (1, 0)) by (unfold sums_ok, BASE; cbn; lia).
  pose proof (adler_ref_ok D (1, 0) S0) as [H1 H2]. unfold pack, BASE in *. change (2 ^ 16) with 65536. lia.
Qed.

(** The output as the formats lay it out. *)
Lemma wrapped_ok hdr body D bs cs b c pad : header_ok hdr -> bytes_ok D ->
  byte_bits body = bs ++ b ++ replicate pad false -> (pad < 8)%nat -> written bs cs -> block_at (Z.of_nat (length bs)) b (true, c) ->
  unpack (w_size P) [] (cs ++ [c]) = Some D -> decodes (hdr ++ body ++ trailer D) D.
Proof using HP.
  intros Hh Hd Eb Hp Wr Ba U. destruct (sizes P HP) as (_ & _ & _ & Ew & _). pose proof (p_w _ HP) as Hw.
  assert (I : forall limit, w_size P <= limit -> inflate_bytes limit (body ++ trailer D) = Some (D, trailer D)).
  { intros limit Hl. rewrite (inflate_bytes_written limit _ bs cs b c pad (trailer D) D); try done.
    - do 2 f_equal. rewrite length_app, Nat.add_sub. apply drop_app_length.
    - by rewrite byte_bits_app, Eb, <- !app_assoc.
    - by apply (unpack_mono (w_size P)). }
  unfold decodes, trailer in *. destruct Hh as [_ [(-> & cmf & flg & -> & E1 & E2 & E3 & E4)|[(-> & xfl & ->)|(-> & ->)]]]; cbn [Z.eqb Pos.eqb app] in *.
  - cbn [zlib_decode]. rewrite E1, E2, E3, E4. cbn [andb negb Z.eqb Pos.eqb]. rewrite (proj2 (Z.leb_le _ _)) by lia. cbn [andb].
    rewrite I by (replace (w_bits P - 8 + 8) with (w_bits P) by lia; lia). unfold be_bytes.
    rewrite be32_bytes by apply adler_range. by rewrite Z.eqb_refl.
  - assert (w_size P <= 2 ^ 15) by (rewrite Ew; apply Z.pow_le_mono_r; lia). cbn [gzip_decode]. rewrite I by done. unfold le_bytes. cbn [app].
    assert (Hc : 0 <= crc_spec 0 D < 4294967296) by (apply crc_spec_ok; [split; cbn; lia|done]).
    rewrite !be32_bytes; [|unfold u32; apply Z.mod_pos_bound; lia|done]. by rewrite !Z.eqb_refl.
  - unfold raw_decode. rewrite <- Ew, I by lia. done.
Qed.
End Wrappers.

(** *** The bytes of headers and trailers *)

Lemma put_bytes_shape s l : put_bytes s l = with_bits s (mk_bitbuf (pending (bits s) ++ map u8 l) (bi_buf (bits s)) (bi_valid (bits s))).
Proof.
  unfold put_bytes. f_equal. generalize (bits s). intros b. revert b. induction l as [|c l IH]; intros b; cbn [fold_left map].
  - rewrite app_nil_r. by destruct b.
  - rewrite IH. unfold put_byte. cbn [pending bi_buf bi_valid]. by rewrite <- app_assoc.
Qed.

Lemma map_u8_bytes l : bytes_ok (map u8 l).
Proof. induction l as [|c l IH]; constructor; [apply u8_range|done]. Qed.

Ltac u8_bits := apply u8_ext; let i := fresh "i" in intros i ?; unfold u32, u64;
  repeat first [rewrite Z.shiftr_spec by lia | rewrite land_ones_mod by lia | rewrite Z.mod_pow2_bits_low by lia];
  try (f_equal; lia); try done.

Lemma short_bytes x : map u8 [Z.shiftr (u32 (Z.shiftr x 16)) 8; Z.land (u32 (Z.shiftr x 16)) 0xff; Z.shiftr (Z.land x 0xffff) 8; Z.land (Z.land x 0xffff) 0xff] = be_bytes x.
Proof.
  unfold be_bytes. cbn [map]. change 0xffff with (2 ^ 16 - 1). change 0xff with (2 ^ 8 - 1).
  f_equal; [|f_equal; [|f_equal; [|f_equal]]]; u8_bits.
Qed.

Lemma long_bytes x : map u8 (le_bytes4 x) = le_bytes x.
Proof.
  unfold le_bytes4, le_bytes. cbn [map]. change 0xff with (2 ^ 8 - 1).
  f_equal; [|f_equal; [|f_equal; [|f_equal]]]; u8_bits.
Qed.

Lemma le_bytes_u64 n : le_bytes (u64 n) = le_bytes (u32 n).
Proof. unfold le_bytes. f_equal; [|f_equal; [|f_equal; [|f_equal]]]; u8_bits. Qed.

(** The output, when it is whole bytes. *)
Definition total_bytes (s : dstate) : list Z := next_out (strm s) ++ pending (bits s).

Lemma all_total s : bi_valid (bits s) = 0 -> all_bits s = byte_bits (total_bytes s).
Proof.
  intros E. unfold all_bits, stream, total_bytes. rewrite E. change (bits_of (bi_buf (bits s)) (Z.to_nat 0)) with (@nil bool).
  by rewrite app_nil_r, byte_bits_app.
Qed.

Lemma total_same R s s' : bi_valid (bits s) = 0 -> bi_valid (bits s') = 0 -> bitbuf_ok (bits s) -> bitbuf_ok (bits s') ->
  out_ok R (strm s) -> out_ok R (strm s') -> all_bits s' = all_bits s -> total_bytes s' = total_bytes s.
Proof.
  intros V V' [B _] [B' _] O O' E. rewrite !all_total in E by done.
  assert (T : bytes_ok (total_bytes s)) by (apply Forall_app; split; [apply O|done]).
  assert (T' : bytes_ok (total_bytes s')) by (apply Forall_app; split; [apply O'|done]).
  rewrite <- (app_nil_r (byte_bits (total_bytes s))) in E. destruct (byte_bits_split _ _ _ T T' E) as (t & -> & Et).
  destruct t as [|x t]; [by rewrite app_nil_r|]. apply (f_equal (@length bool)) in Et. rewrite length_byte_bits in Et. done.
Qed.

(** ** Between the calls *)

Section Session.
Context (L St W : Z) (P : params) (HP : params_ok P) (HL : 0 <= L <= 9).

(** What the block function of the level and the strategy adds to the invariant. *)
Definition X_mode (D : list Z) (q : Z) (s : dstate) : Prop :=
  if L =? 0 then X_stored P D q s
  else if St =? Z_HUFFMAN_ONLY then X_huff D q s
  else if St =? Z_RLE then X_rle D q s
  else match func_of L with Stored => False | Fast => X_fast P D q s | Slow => X_slow P D q s end.

Lemma X_mode_same D q s s' : X_mode D q s -> win s' = win s -> last_lit (ts s') = last_lit (ts s) -> X_mode D q s'.
Proof using.
  unfold X_mode. intros X Ew El. destruct (L =? 0); [unfold X_stored in *; by rewrite Ew, El|].
  destruct (St =? Z_HUFFMAN_ONLY); [unfold X_huff in *; by rewrite Ew, El|]. destruct (St =? Z_RLE); [unfold X_rle in *; by rewrite Ew|].
  destruct (func_of L); [done|unfold X_fast in *; by rewrite Ew|]. destruct X. constructor; by rewrite ?Ew.
Qed.

Lemma clear_hashed w b i : Z.of_nat (length (prev w)) = w_size P ->
  hashed P (with_insert (with_block (with_pos (CLEAR_HASH P w) 0 0) b) i).
Proof using HP.
  intros Hp. destruct (sizes P HP) as (_ & Sh & _). exists (fun _ => False). split; [|unfold MIN_MATCH; lz_fields; lia].
  apply no_chains; unfold CLEAR_HASH; lz_fields; [rewrite length_replicate; lia|done|intros h'; apply get_zeros].
Qed.

(** Emptying the hash table at the end of the data. *)
Lemma X_mode_clear D q s s' : X_mode D q s -> lookahead (win s) = 0 -> last_lit (ts s) = 0%nat -> q = Z.of_nat (length D) ->
  win s' = with_insert (with_block (with_pos (CLEAR_HASH P (win s)) 0 0) 0) 0 -> last_lit (ts s') = 0%nat -> X_mode D q s'.
Proof using HP.
  destruct (sizes P HP) as (Sw & _).
  unfold X_mode. intros X El N Eq Ew N'. destruct (L =? 0).
  { unfold X_stored, block_abs, CLEAR_HASH, window_size in *. rewrite Ew, N'. lz_fields. lia. }
  destruct (St =? Z_HUFFMAN_ONLY); [unfold X_huff, CLEAR_HASH in *; rewrite Ew, N'; lz_fields; lia|].
  destruct (St =? Z_RLE); [unfold X_rle, CLEAR_HASH in *; rewrite Ew; lz_fields; lia|].
  destruct (func_of L); [done| |].
  - destruct X as (X1 & (ins & C & _) & X3 & X4). unfold X_fast. rewrite Ew. split; [unfold CLEAR_HASH; lz_fields; lia|].
    split; [|done]. apply clear_hashed; apply C.
  - destruct X as [X1 (ins & C & _) X3 X4]. rewrite El in X1. assert (Ea : match_available (win s) = false) by (destruct (match_available (win s)); [cbn in X1; lia|done]).
    constructor; rewrite Ew; unfold CLEAR_HASH; lz_fields.
    + rewrite Ea. cbn. lia.
    + apply clear_hashed; apply C.
    + by rewrite Ea.
    + intros Hm. change (MIN_MATCH <= match_length (win s)) in Hm. destruct (X4 Hm) as [A _]. by rewrite A in Ea.
Qed.

Section Call.
(** One call, with [R] the size of the output. *)
Context (R : Z) (hdr : list Z).
Notation cur T := (cur L St W P R hdr T X_mode).

(** Everything that may change without the window and the symbols noticing. *)
Lemma core_kept D q s s' : core L St W P R hdr D q s -> conf s' = P -> level (ts s') = L /\ strategy (ts s') = St /\ wrap s' = W -> status s' = BUSY_STATE ->
  win s' = win s -> tally_ok (ts s') -> last_lit (ts s') = last_lit (ts s) -> lit_bufsize (ts s') = lit_bufsize (ts s) -> buffered (ts s') = buffered (ts s) ->
  bitbuf_ok (bits s') -> out_ok R (strm s') -> next_in (strm s') = next_in (strm s) -> adler (strm s') = adler (strm s) ->
  total_in (strm s') = total_in (strm s) -> 
  (forall cs, emitted hdr s cs -> exists cs', emitted hdr s' cs' /\ forall h, unpack (w_size P) [] cs = Some h -> unpack (w_size P) [] cs' = Some h) ->
  core L St W P R hdr D q s'.
Proof using.
  intros [C1 C2 C3 C4 C5 C6 C7 C8 C9 C10 C11 C12 C13 (cs & C14 & C15 & C16)] E1 E2 E3 E4 E5 E6 E7 E8 E9 E10 E11 E12 E13 E14.
  constructor; rewrite ?E4, ?E6, ?E7, ?E11, ?E12, ?E13; try done.
  destruct (E14 cs C14) as (cs' & Em & U). exists cs'. split; [done|]. split; [by apply U|]. by rewrite E8.
Qed.

Lemma flush_core D q s : core L St W P R hdr D q s -> let s' := flush_pending s in
  core L St W P R hdr D q s' /\ (avail_out (strm s') <> 0 -> pending (bits s') = []) /\ win s' = win s /\ next_in (strm s') = next_in (strm s) /\
  last_lit (ts s') = last_lit (ts s).
Proof using.
  intros C. cbv zeta. destruct (flush_pending_ok R s (i_bits _ _ _ _ _ _ _ _ _ C) (i_out _ _ _ _ _ _ _ _ _ C)) as (F1 & F2 & F3 & F4 & F5 & _).
  cbv zeta in *. set (s' := flush_pending s) in *. clearbody s'. split; [|rewrite F1; done].
  apply (core_kept D q s); try done; try (rewrite F1; (apply C || done)).
  - rewrite F1. apply with_out_ok. apply C.
  - intros cs (bs & E & Wr). exists cs. split; [|done]. exists bs. by rewrite F4.
Qed.

Lemma flush_cur T D q s : cur T D q s -> let s' := flush_pending s in
  cur T D q s' /\ (avail_out (strm s') <> 0 -> pending (bits s') = []) /\ win s' = win s /\ next_in (strm s') = next_in (strm s) /\
  last_lit (ts s') = last_lit (ts s) /\ lit_bufsize (ts s') = lit_bufsize (ts s).
Proof using.
  intros [Ht C I X]. cbv zeta. destruct (flush_core D q s C) as (C' & F1 & F2 & F3 & F4). cbv zeta in *.
  destruct (flush_pending_ok R s (i_bits _ _ _ _ _ _ _ _ _ C) (i_out _ _ _ _ _ _ _ _ _ C)) as (F5 & _). cbv zeta in *.
  split; [|split; [done|split; [done|split; [done|split; [done|by rewrite F5]]]]]. constructor; [by rewrite F3|done|by rewrite F2|by apply (X_mode_same D q s)].
Qed.

(** A block that holds nothing. *)
Lemma empty_block T D q s b c bs : cur T D q s -> bitbuf_ok b -> stream b = stream (bits s) ++ bs ->
  block_at (Z.of_nat (length (stream (bits s)))) bs (false, c) -> (forall h, expand_content (w_size P) h c = Some h) ->
  cur T D q (with_bits s b).
Proof using.
  intros [Ht C I X] Hb Es Ba Hc. constructor; [done| |done|by apply (X_mode_same D q s)].
  apply (core_kept D q s); try done; try apply C.
  - apply with_out_ok. apply C.
  - intros cs Em. exists (cs ++ [c]). split.
    + apply (emit_block hdr s _ cs bs c Em); [|done]. unfold all_bits. change (bits (with_bits s b)) with b.
      change (strm (with_bits s b)) with (strm s). by rewrite Es, app_assoc.
    + intros h E. rewrite unpack_app, E. cbn [unpack]. by rewrite Hc.
Qed.

Lemma align_block b : bitbuf_ok b -> exists bs, bitbuf_ok (_tr_align b) /\ stream (_tr_align b) = stream b ++ bs /\
  forall pos, block_at pos bs (false, Symbols []).
Proof using.
  intros Hb. destruct (fixed_block_reads [] [] 0 b 0 0 Hb (or_introl eq_refl) ltac:(intros; lia)) as (bs & [S1 S2] & _).
  set (b1 := compress_block static_ltree static_dtree [] [] 0 (send_bits b (Z.shiftl STATIC_TREES 1 + 0) 3)) in *.
  destruct (bi_flush_stream b1 S1) as (B1 & B2 & _). change (_tr_align b) with (bi_flush b1). exists bs. split; [done|].
  split; [by rewrite B2, S2|]. intros pos. exists 1%nat.
  destruct (fixed_block_reads [] [] 0 b 0 pos Hb (or_introl eq_refl) ltac:(intros; lia)) as (bs' & [S1' S2'] & Rd).
  fold b1 in S2'. rewrite S2 in S2'. apply app_inv_head in S2'. by rewrite S2'.
Qed.

(** Starting over at the beginning of the window. *)
Lemma clear_cur T D s : cur T D (Z.of_nat (length D)) s -> lookahead (win s) = 0 -> last_lit (ts s) = 0%nat ->
  cur T D (Z.of_nat (length D)) (with_win s (with_insert (with_block (with_pos (CLEAR_HASH P (win s)) 0 0) 0) 0)).
Proof using HP.
  intros [Ht C I X] El N. pose proof C as [_ _ _ C4 _ _ _ _ _ _ _ _ C13 (cs & _ & _ & C16)].
  assert (Ea : block_abs D (win s) = Z.of_nat (length D)).
  { unfold buffered, symbols in C16. rewrite N in C16. cbn in C16. injection C16 as C16. apply (f_equal (@length Z)) in C16.
    pose proof (length_upto D (block_abs D (win s)) ltac:(lia)). pose proof (length_upto D (Z.of_nat (length D)) ltac:(lia)). lia. }
  constructor; [done| |intros _; unfold insert_ok; ds_fields; lz_fields; lia|by apply (X_mode_clear D _ s)].
  apply core_win; [done| |rewrite Ea; unfold block_abs; lz_fields; lia].
  destruct C4. constructor; unfold CLEAR_HASH; lz_fields; try done; try lia.
Qed.

Lemma flush_mark_ok T D s flush : cur T D (Z.of_nat (length D)) s -> lookahead (win s) = 0 -> last_lit (ts s) = 0%nat ->
  let s' := flush_mark s flush in
  cur T D (Z.of_nat (length D)) s' /\ last_lit (ts s') = 0%nat /\ next_in (strm s') = next_in (strm s) /\
  (avail_out (strm s') <> 0 -> pending (bits s') = []).
Proof using HP.
  intros C El N. cbv zeta. unfold flush_mark. set (s1 := if flush =? Z_PARTIAL_FLUSH then _ else _).
  assert (V : cur T D (Z.of_nat (length D)) s1 /\ last_lit (ts s1) = 0%nat /\ next_in (strm s1) = next_in (strm s)).
  { unfold s1. pose proof (i_bits _ _ _ _ _ _ _ _ _ (r_core _ _ _ _ _ _ _ _ _ _ _ C)) as Hb.
    destruct (flush =? Z_PARTIAL_FLUSH).
    { destruct (align_block (bits s) Hb) as (bs & B1 & B2 & B3). split; [|done].
      by apply (empty_block T D _ s _ (Symbols []) bs). }
    destruct (negb (flush =? Z_BLOCK)); [|done].
    assert (C1 : cur T D (Z.of_nat (length D)) (with_bits s (_tr_stored_block (bits s) [] 0))).
    { destruct (stored_block_reads (bits s) [] 0 0 Hb (or_introl eq_refl) ltac:(constructor) ltac:(cbn; lia)) as (bs & [B1 B2] & B3).
      apply (empty_block T D _ s _ (Bytes []) bs); [done|done|done|by exists 0%nat|]. intros h. cbn. by rewrite app_nil_r. }
    set (s2 := with_bits s _) in *. assert (V2 : lookahead (win s2) = 0 /\ last_lit (ts s2) = 0%nat /\ next_in (strm s2) = next_in (strm s)) by done.
    destruct V2 as (V2 & V3 & V4). clearbody s2. destruct (flush =? Z_FULL_FLUSH); [|done].
    assert (Ec : conf s2 = P) by apply (r_core _ _ _ _ _ _ _ _ _ _ _ C1). rewrite Ec. change (lookahead (CLEAR_HASH P (win s2))) with (lookahead (win s2)).
    rewrite V2. cbn [Z.eqb]. split; [|done]. by apply clear_cur. }
  destruct V as (V1 & V2 & V3). clearbody s1. destruct (flush_cur T D _ s1 V1) as (F1 & F2 & F3 & F4 & F5 & _). cbv zeta in *.
  split; [done|]. split; [by rewrite F5|]. split; [by rewrite F4|done].
Qed.

(** *** The header *)

Record starting (s : dstate) : Prop := {
  g_conf : conf s = P;
  g_mode : level (ts s) = L /\ strategy (ts s) = St /\ wrap s = W;
  g_wrap : W = 1 /\ status s = INIT_STATE \/ W = 2 /\ status s = GZIP_STATE;
  g_holds : holds P [] (win s);
  g_zero : strstart (win s) = 0 /\ lookahead (win s) = 0 /\ block_start (win s) = 0;
  g_tally : tally_ok (ts s);
  g_lits : last_lit (ts s) = 0%nat /\ (2 <= lit_bufsize (ts s))%nat /\ Z.of_nat (lit_bufsize (ts s)) <= 32768;
  g_bits : bitbuf_ok (bits s) /\ pending (bits s) = [] /\ bi_valid (bits s) = 0;
  g_out : out_ok R (strm s);
  g_empty : next_out (strm s) = [];
  g_in : bytes_ok (next_in (strm s));
  g_total : total_in (strm s) = 0;
  g_insert : L <> 0 -> insert_ok (win s);
  g_more : X_mode [] 0 s
}.

(** The first state of the blocks, the header being in the output. *)
Lemma first_cur s s' l : starting s -> hdr = map u8 l -> 
  s' = with_status (with_strm (put_bytes s l) (with_adler (strm s) (adler (strm s')))) BUSY_STATE -> check_ok W (adler (strm s')) [] ->
  cur (next_in (strm s)) [] 0 s'.
Proof using.
  intros [G1 G2 G3 G4 (G5 & G6 & G7) G8 (G9 & G10 & G11) (G12 & G13 & G14) G15 G16 G17 G18 G19 G20] Eh E Hc. rewrite put_bytes_shape, G13 in E. cbn [app] in E.
  assert (Eb : bits s' = mk_bitbuf (map u8 l) (bi_buf (bits s)) (bi_valid (bits s))) by (by rewrite E).
  assert (Ew : win s' = win s) by (by rewrite E). assert (El : last_lit (ts s') = last_lit (ts s)) by (by rewrite E).
  assert (Ea : block_abs [] (win s') = 0) by (rewrite Ew; unfold block_abs; cbn [length]; lia).
  constructor; [by rewrite E| |by rewrite Ew|by apply (X_mode_same [] 0 s)].
  constructor; rewrite ?Ew, ?El; try done; try (rewrite E; done).
  - rewrite E. ds_fields. apply with_out_ok. exact G8.
  - assert (Elb : lit_bufsize (ts s') = lit_bufsize (ts s)) by (by rewrite E). rewrite Elb. lia.
  - rewrite Eb. destruct G12 as (_ & B). split; [apply map_u8_bytes|exact B].
  - rewrite E. ds_fields. destruct G15. by constructor.
  - rewrite Ew in Ea. rewrite Ea. cbn. lia.
  - rewrite Ew in Ea. rewrite Ea. exists []. split; [|split; [done|unfold buffered, symbols; by rewrite El, G9]].
    exists []. split; [|constructor]. rewrite all_total by (by rewrite Eb). rewrite app_nil_r, Eh. unfold total_bytes. rewrite Eb. cbn [pending].
    assert (En : next_out (strm s') = []) by (by rewrite E). by rewrite En.
Qed.
End Call.

Notation cur R hdr T := (cur L St W P R hdr T X_mode).

Lemma flags_cases st l : exists f, (if (Z_HUFFMAN_ONLY <=? st) || (l <? 2) then 0 else if l <? 6 then 1 else if l =? 6 then 2 else 3) = f /\
  (f = 0 \/ f = 1 \/ f = 2 \/ f = 3).
Proof using. eexists. split; [done|]. destruct (_ || _); [auto|]. destruct (_ <? _); [auto|]. destruct (_ =? _); auto. Qed.

(** Check bits, method and size of the window; no dictionary. *)
Lemma zlib_header_ok s : conf s = P -> strstart (win s) = 0 -> W = 1 ->
  header_ok W P (map u8 [Z.shiftr (zlib_header s) 8; Z.land (zlib_header s) 0xff]).
Proof using HP.
  intros Ec Es EW. split; [apply map_u8_bytes|]. left. split; [done|]. exists (u8 (Z.shiftr (zlib_header s) 8)), (u8 (Z.land (zlib_header s) 0xff)). split; [done|].
  unfold zlib_header. rewrite Ec, Es. destruct (flags_cases (strategy (ts s)) (level (ts s))) as (f & -> & Hf). cbv zeta. rewrite Z.eqb_refl. cbn [negb].
  pose proof (p_w _ HP) as Hw. assert (Hb : w_bits P = 9 \/ w_bits P = 10 \/ w_bits P = 11 \/ w_bits P = 12 \/ w_bits P = 13 \/ w_bits P = 14 \/ w_bits P = 15) by lia.
  repeat destruct Hb as [-> |Hb]; [..|rewrite Hb]; repeat destruct Hf as [-> |Hf]; [..|subst f| | | |subst f| | | |subst f| | | |subst f| | | |subst f| | | |subst f| | | |subst f];
    cbv; auto.
Qed.

Lemma write_header_ok R s : starting R s -> let '(s', stop) := write_header s in
  exists hdr, header_ok W P hdr /\ cur R hdr (next_in (strm s)) [] 0 s' /\ roomy s' /\ next_in (strm s') = next_in (strm s) /\
    (stop = true -> avail_out (strm s') = 0) /\ (stop = false -> pending (bits s') = []) /\ status s' = BUSY_STATE.
Proof using HP.
  intros G. pose proof G as [G1 _ _ _ (G5 & _) _ (G9 & G10 & G11) _ _ _ _ _ _ _].
  assert (Fin : forall hdr l a s1, header_ok W P hdr -> hdr = map u8 l -> check_ok W a [] ->
    s1 = with_status (with_strm (put_bytes s l) (with_adler (strm s) a)) BUSY_STATE ->
    let '(s', stop) := (if negb (pending_len (flush_pending s1) =? 0) then (with_last_flush (flush_pending s1) (-1), true) else (flush_pending s1, false)) in
    exists hdr, header_ok W P hdr /\ cur R hdr (next_in (strm s)) [] 0 s' /\ roomy s' /\ next_in (strm s') = next_in (strm s) /\
      (stop = true -> avail_out (strm s') = 0) /\ (stop = false -> pending (bits s') = []) /\ status s' = BUSY_STATE).
  { intros hdr l a s1 Hh Eh Hc E. assert (Ea : adler (strm s1) = a) by (by rewrite E).
    pose proof (first_cur R hdr s s1 l G Eh ltac:(by rewrite Ea) ltac:(by rewrite Ea)) as C1.
    destruct (flush_cur R hdr _ _ _ s1 C1) as (C2 & F1 & F2 & F3 & F4 & F5). cbv zeta in *. set (s2 := flush_pending s1) in *.
    assert (Rm : roomy s2).
    { unfold roomy. rewrite F4, F5. assert (E1 : last_lit (ts s1) = last_lit (ts s) /\ lit_bufsize (ts s1) = lit_bufsize (ts s)).
      { rewrite E, put_bytes_shape. done. } destruct E1 as [-> ->]. rewrite G9. lia. }
    assert (Ei : next_in (strm s2) = next_in (strm s)) by (rewrite F3, E; done).
    unfold pending_len. destruct (Z.eqb_spec (Z.of_nat (length (pending (bits s2)))) 0) as [E0|N0]; cbn [negb].
    - exists hdr. split; [done|]. split; [done|]. split; [done|]. split; [done|]. split; [done|].
      split; [intros _; by destruct (pending (bits s2))|apply C2].
    - exists hdr. split; [done|]. split; [|split; [done|split; [done|split; [|split; [done|apply C2]]]]].
      + destruct C2 as [A1 [? ? ? ? ? ? ? ? ? ? ? ? ? ?] A3 A4]. constructor; [done|by constructor|done|by apply (X_mode_same [] 0 s2)].
      + intros _. destruct (Z.eq_dec (avail_out (strm s2)) 0) as [|N]; [done|]. rewrite F1 in N0 by done. done. }
  unfold write_header. destruct (g_wrap _ _ G) as [[EW Est]|[EW Est]]; rewrite Est; cbn [Z.eqb Pos.eqb INIT_STATE GZIP_STATE].
  - unfold write_zlib_header. rewrite G5. cbn [Z.eqb negb].
    apply (Fin (map u8 [Z.shiftr (zlib_header s) 8; Z.land (zlib_header s) 0xff]) [Z.shiftr (zlib_header s) 8; Z.land (zlib_header s) 0xff] 1).
    + by apply zlib_header_ok.
    + done.
    + split; [done|]. intros E. by rewrite EW in E.
    + done.
  - unfold write_gzip_header. set (s0 := with_strm s _). set (xfl := if level (ts s0) =? 9 then _ else _).
    apply (Fin (map u8 [31; 139; 8; 0; 0; 0; 0; 0; xfl; OS_CODE]) [31; 139; 8; 0; 0; 0; 0; 0; xfl; OS_CODE] 0).
    + split; [apply map_u8_bytes|]. right. left. split; [done|]. by exists (u8 xfl).
    + done.
    + split; [intros E; by rewrite EW in E|done].
    + done.
Qed.

(** *** The trailer *)

(** The blocks are complete, and what is still pending. *)
Lemma ended_total R hdr D s : ended L St W P R hdr D s -> header_ok W P hdr -> decodes W P (total_bytes s ++ trailer W D) D.
Proof using HP.
  intros [E1 E2 E3 E4 E5 E6 E7 E8 E9 (bs & cs & b & c & pad & X1 & X2 & X3 & X4 & X5)] Hh.
  rewrite all_total in X1 by done.
  assert (T : bytes_ok (total_bytes s)) by (apply Forall_app; split; [apply E5|apply E3]).
  destruct (byte_bits_split _ _ _ (proj1 Hh) T X1) as (body & -> & Eb). rewrite <- app_assoc. by apply (wrapped_ok W P HP hdr body D bs cs b c pad).
Qed.

Lemma put_bytes_app s a b : put_bytes (put_bytes s a) b = put_bytes s (a ++ b).
Proof using. unfold put_bytes at 1 3. by rewrite fold_left_app. Qed.

Lemma trailer_ok R hdr D s : ended L St W P R hdr D s -> header_ok W P hdr -> 0 < W ->
  let s' := write_trailer s in
  wrap s' = - W /\ status s' = status s /\ bi_valid (bits s') = 0 /\ bitbuf_ok (bits s') /\ out_ok R (strm s') /\
  next_in (strm s') = next_in (strm s) /\ lookahead (win s') = 0 /\ decodes W P (total_bytes s') D /\
  (avail_out (strm s') <> 0 -> pending (bits s') = []).
Proof using HP.
  intros En Hh HW. pose proof (ended_total R hdr D s En Hh) as Dt. destruct En as [E1 (E2a & E2b & E2c) E3 E4 E5 E6 E7 E8 E9 _]. cbv zeta. unfold write_trailer.
  set (s1 := if wrap s =? 2 then _ else _).
  assert (V : exists l, s1 = put_bytes s l /\ map u8 l = trailer W D).
  { unfold s1. rewrite E2c. unfold trailer. destruct Hh as [_ [(EW & _)|[(EW & _)|(EW & _)]]]; rewrite EW in *; cbn [Z.eqb Pos.eqb]; [| |lia].
    - rewrite (proj1 E8) by done. eexists. split; [|apply short_bytes]. unfold putShortMSB, put_bytes. done.
    - rewrite (proj2 E8) by done. rewrite put_bytes_app. eexists. split; [done|]. rewrite map_app, !long_bytes, E9, le_bytes_u64. done. }
  clearbody s1. destruct V as (l & -> & El). rewrite put_bytes_shape. set (s1 := with_bits s _).
  assert (B1 : bitbuf_ok (bits s1)) by (destruct E3 as [P3 Q3]; split; [apply Forall_app; split; [done|apply map_u8_bytes]|done]).
  destruct (flush_pending_ok R s1 B1 E5) as (F1 & F2 & F3 & F4 & F5 & F6). cbv zeta in *. set (s2 := flush_pending s1) in *.
  assert (V2 : bi_valid (bits s2) = 0) by (by apply F6).
  assert (Et : total_bytes s2 = total_bytes s ++ trailer W D).
  { rewrite (total_same R s1 s2); try done. unfold total_bytes. change (bits s1) with (mk_bitbuf (pending (bits s) ++ map u8 l) (bi_buf (bits s)) (bi_valid (bits s))).
    cbn [pending]. change (strm s1) with (strm s). by rewrite El, app_assoc. }
  assert (Ew : wrap s2 = W) by (rewrite F1; exact E2c). rewrite Ew, (proj2 (Z.ltb_lt _ _)) by done. ds_fields.
  split; [done|]. split; [by rewrite F1|]. split; [done|]. split; [done|]. split; [done|]. split; [by rewrite F1|]. split; [by rewrite F1|].
  split; [|done]. change (total_bytes (with_wrap s2 (- W))) with (total_bytes s2). by rewrite Et.
Qed.

(** *** The states between calls *)

(** [D]: what was read. *)
Inductive phase (R : Z) (D : list Z) (s : dstate) : Prop :=
| Starting : D = [] -> starting R s -> phase R D s
| Running hdr q : header_ok W P hdr -> cur R hdr (D ++ next_in (strm s)) D q s -> roomy s -> phase R D s
| Ending hdr : header_ok W P hdr -> ended L St W P R hdr D s -> status s = FINISH_STATE -> phase R D s
| Trailed : 0 < W -> wrap s = - W -> status s = FINISH_STATE -> bitbuf_ok (bits s) -> bi_valid (bits s) = 0 -> out_ok R (strm s) ->
    lookahead (win s) = 0 -> decodes W P (total_bytes s) D -> phase R D s.

(** The outcome of a call: what was not read is left, the end means that all is out,
    and no progress without end means that the output is full. *)
Definition outcome (R : Z) (T : list Z) (flush : Z) (s : dstate) (r : Z) : Prop :=
  exists D, D ++ next_in (strm s) = T /\ phase R D s /\
    (r = Z_STREAM_END -> pending (bits s) = [] /\ decodes W P (next_out (strm s)) D /\ next_in (strm s) = []) /\
    (r = Z_OK -> L <> 0 -> flush = Z_FINISH -> avail_out (strm s) = 0).

Lemma phase_last_flush R D s x : phase R D s -> phase R D (with_last_flush s x).
Proof using.
  intros [E G|hdr q Hh [A1 A2 A3 A4] Hr|hdr Hh En Es|H1 H2 H3 H4 H5 H6 H7 H8].
  - apply Starting; [done|]. destruct G as [? ? ? ? ? ? ? ? ? ? ? ? ? X]. constructor; try done. by apply (X_mode_same [] 0 s).
  - apply (Running R D _ hdr q); [done| |done]. constructor; [done| |done|by apply (X_mode_same D q s)].
    destruct A2. by constructor.
  - apply (Ending R D _ hdr); [done| |done]. destruct En. by constructor.
  - by apply Trailed.
Qed.

Lemma outcome_last_flush R T flush s r x : outcome R T flush s r -> outcome R T flush (with_last_flush s x) r.
Proof using. intros (D & E & Ph & O). exists D. split; [done|]. split; [by apply phase_last_flush|done]. Qed.

Lemma phase_flush R D s : phase R D s -> ~ starting R s -> let s' := flush_pending s in
  phase R D s' /\ (avail_out (strm s') <> 0 -> pending (bits s') = []) /\ next_in (strm s') = next_in (strm s) /\ status s' = status s /\
  last_flush s' = last_flush s.
Proof using.
  intros Ph Ns. cbv zeta. destruct Ph as [E G|hdr q Hh C Hr|hdr Hh En Es|H1 H2 H3 H4 H5 H6 H7 H8]; [done| | |].
  - destruct (flush_cur R hdr _ _ _ s C) as (C' & F1 & F2 & F3 & F4 & F5). cbv zeta in *.
    destruct (flush_pending_ok R s (i_bits _ _ _ _ _ _ _ _ _ (r_core _ _ _ _ _ _ _ _ _ _ _ C)) (i_out _ _ _ _ _ _ _ _ _ (r_core _ _ _ _ _ _ _ _ _ _ _ C)))
      as (M & _). cbv zeta in *.
    split; [|split; [done|split; [done|by rewrite M]]]. apply (Running R D _ hdr q); [done|by rewrite F3|]. unfold roomy. by rewrite F4, F5.
  - destruct En as [E1 E2 E3 E4 E5 E6 E7 E8 E9 (bs & cs & b & c & pad & X)].
    destruct (flush_pending_ok R s E3 E5) as (F1 & F2 & F3 & F4 & F5 & F6). cbv zeta in *. set (s' := flush_pending s) in *. clearbody s'.
    split; [|split; [done|rewrite F1; done]]. apply (Ending R D _ hdr); [done| |by rewrite F1].
    constructor; try done; try (rewrite F1; done). + by apply F6. + exists bs, cs, b, c, pad. by rewrite F4.
  - destruct (flush_pending_ok R s H4 H6) as (F1 & F2 & F3 & F4 & F5 & F6). cbv zeta in *. set (s' := flush_pending s) in *. clearbody s'.
    split; [|split; [done|rewrite F1; done]]. apply Trailed; try done; try (rewrite F1; done); [by apply F6|].
    rewrite (total_same R s s'); try done. by apply F6.
Qed.

(** The end: nothing is pending and nothing is left to read. *)
Lemma finish_ok R D s flush : phase R D s -> status s = FINISH_STATE -> flush = Z_FINISH -> pending (bits s) = [] -> next_in (strm s) = [] ->
  let '(s', r) := finish s flush in outcome R D flush s' r.
Proof using HP.
  intros Ph Es Ef Ep Ei. unfold finish. rewrite Ef, Z.eqb_refl. cbn [negb].
  assert (Tb : total_bytes s = next_out (strm s)) by (unfold total_bytes; by rewrite Ep, app_nil_r).
  destruct Ph as [E G|hdr q Hh C Hr|hdr Hh En _|H1 H2 H3 H4 H5 H6 H7 H8].
  - destruct (g_wrap _ _ G) as [[_ E']|[_ E']]; by rewrite E' in Es.
  - pose proof (i_status _ _ _ _ _ _ _ _ _ (r_core _ _ _ _ _ _ _ _ _ _ _ C)) as E'. by rewrite E' in Es.
  - destruct (e_mode _ _ _ _ _ _ _ _ En) as (_ & _ & Ew). rewrite Ew. destruct (Z.leb_spec W 0) as [Lw|Lw].
    + exists D. rewrite Ei, app_nil_r. split; [done|]. split; [by apply (Ending R D _ hdr)|]. split; [|done]. intros _. split; [done|]. split; [|done].
      pose proof (ended_total R hdr D s En Hh) as Dt. rewrite Tb in Dt. unfold trailer in Dt.
      rewrite !(proj2 (Z.eqb_neq _ _)) in Dt by lia. by rewrite app_nil_r in Dt.
    + destruct (trailer_ok R hdr D s En Hh Lw) as (T1 & T2 & T3 & T4 & T5 & T6 & T7 & T8 & T9). cbv zeta in *. set (s' := write_trailer s) in *.
      exists D. rewrite T6, Ei, app_nil_r. split; [done|]. split; [apply Trailed; try done; by rewrite T2|]. unfold pending_len.
      destruct (Z.eqb_spec (Z.of_nat (length (pending (bits s')))) 0) as [E0|N0]; cbn [negb].
      * assert (Ep' : pending (bits s') = []) by (by destruct (pending (bits s'))). split; [|done]. intros _. split; [done|]. split; [|done].
        unfold total_bytes in T8. by rewrite Ep', app_nil_r in T8.
      * split; [done|]. intros _ _ _. destruct (Z.eq_dec (avail_out (strm s')) 0) as [|N]; [done|]. rewrite T9 in N0 by done. done.
  - rewrite H2, (proj2 (Z.leb_le _ _)) by lia. exists D. rewrite Ei, app_nil_r. split; [done|]. split; [by apply Trailed|]. split; [|done].
    intros _. split; [done|]. split; [|done]. by rewrite Tb in H8.
Qed.

(** *** The block function *)

Lemma cur_ext R hdr T X X' D q s : (X D q s -> X' D q s) -> Compressors.cur L St W P R hdr T X D q s -> Compressors.cur L St W P R hdr T X' D q s.
Proof using. intros Hx [? ? ? ?]. constructor; auto. Qed.

Lemma compressed_ext R hdr T flush X X' s b : (forall D q s, X D q s -> X' D q s) -> 
  compressed L St W P R hdr T flush X s b -> compressed L St W P R hdr T flush X' s b.
Proof using.
  intros Hx. destruct b; cbn [compressed]; try done.
  - intros ((D & q & C & Hr) & H). split; [|done]. exists D, q. split; [|done]. apply (cur_ext _ _ _ X); auto.
  - intros (C & H). split; [|done]. apply (cur_ext _ _ _ X); auto.
Qed.

Lemma compress_some_ok R hdr T D q s flush : cur R hdr T D q s -> roomy s -> pending (bits s) = [] -> (L = 0 -> small_input s) ->
  exists s' b, compress_some s flush = Some (s', b) /\ compressed L St W P R hdr T flush X_mode s' b.
Proof using HP HL.
  intros C Hr Ep Hs. destruct (i_mode _ _ _ _ _ _ _ _ _ (r_core _ _ _ _ _ _ _ _ _ _ _ C)) as (El & Es & _). unfold compress_some. rewrite El, Es.
  assert (G : forall X f, (forall D q s, X_mode D q s <-> X D q s) ->
    (inv L St W P R hdr T X s -> exists s' b, f = Some (s', b) /\ compressed L St W P R hdr T flush X s' b) ->
    exists s' b, f = Some (s', b) /\ compressed L St W P R hdr T flush X_mode s' b).
  { intros X f Hx Hf. destruct Hf as (s' & b & E & Cs).
    - exists D, q. split; [|done]. apply (cur_ext _ _ _ X_mode); [apply Hx|done].
    - exists s', b. split; [done|]. apply (compressed_ext _ _ _ _ X); [|done]. intros D' q' s1. apply Hx. }
  unfold X_mode in G at 1. destruct (Z.eqb_spec L 0) as [L0|L0].
  { apply (G (X_stored P)); [done|]. intros I. apply deflate_stored_ok; auto. }
  destruct (St =? Z_HUFFMAN_ONLY); [apply (G X_huff); [done|]; intros I; by apply deflate_huff_ok|].
  destruct (St =? Z_RLE); [apply (G X_rle); [done|]; intros I; by apply deflate_rle_ok|].
  destruct (func_of L) eqn:Ef.
  - exfalso. unfold func_of in Ef. assert (H : L = 1 \/ L = 2 \/ L = 3 \/ L = 4 \/ L = 5 \/ L = 6 \/ L = 7 \/ L = 8 \/ L = 9) by lia.
    repeat destruct H as [H|H]; by rewrite H in Ef.
  - apply (G (X_fast P)); [done|]. intros I. by apply deflate_fast_ok.
  - apply (G (X_slow P)); [done|]. intros I. by apply deflate_slow_ok.
Qed.

(** From "Start a new block" on. *)
Lemma deflate_blocks_ok R D s flush : phase R D s -> ~ starting R s -> pending (bits s) = [] -> (L = 0 -> small_input s) ->
  (status s = FINISH_STATE -> flush = Z_FINISH /\ next_in (strm s) = []) ->
  exists s' r, deflate_blocks s flush = Some (s', r) /\ outcome R (D ++ next_in (strm s)) flush s' r.
Proof using HP HL.
  intros Ph Ns Ep Hs Hf. unfold deflate_blocks. destruct (Z.eq_dec (status s) FINISH_STATE) as [Es|Nf].
  { destruct (Hf Es) as [Ef Ei]. unfold avail_in. rewrite Ei, Es.
    assert (El : lookahead (win s) = 0).
    { destruct Ph as [_ G|hdr q _ C _|hdr _ En _|_ _ _ _ _ _ H _]; [done| |apply En|done].
      pose proof (i_status _ _ _ _ _ _ _ _ _ (r_core _ _ _ _ _ _ _ _ _ _ _ C)) as E'. by rewrite E' in Es. }
    rewrite El. cbn [length Z.of_nat Z.eqb negb orb]. rewrite Z.eqb_refl. cbn [negb]. rewrite andb_false_r.
    pose proof (finish_ok R D s flush Ph Es Ef Ep Ei) as F. destruct (finish s flush) as [s' r]. exists s', r. by rewrite app_nil_r. }
  destruct Ph as [_ G|hdr q Hh C Hr|hdr _ _ E'|_ _ E' _ _ _ _ _]; [done| |done|done].
  assert (Run : forall s' r, (exists q' D', cur R hdr (D ++ next_in (strm s)) D' q' s') -> roomy s' -> (r = Z_OK -> L <> 0 -> flush = Z_FINISH -> avail_out (strm s') = 0) ->
    r = Z_OK -> outcome R (D ++ next_in (strm s)) flush s' r).
  { intros s' r (q' & D' & C') Hr' Ha ->. exists D'. pose proof (r_all _ _ _ _ _ _ _ _ _ _ _ C') as Et. split; [done|].
    split; [by apply (Running R D' s' hdr q'); [done|by rewrite <- Et|done]|]. by split. }
  destruct (_ || _ || _) eqn:Ec.
  2:{ assert (Nfl : flush <> Z_FINISH).
      { intros ->. rewrite (proj2 (Z.eqb_neq (status s) FINISH_STATE)) in Ec by done. cbn in Ec. by rewrite orb_true_r in Ec. }
      exists s, Z_OK. unfold finish. rewrite (proj2 (Z.eqb_neq flush Z_FINISH)) by done. split; [done|]. apply Run; try done. by exists q, D. }
  destruct (compress_some_ok R hdr _ D q s flush C Hr Ep Hs) as (s1 & b & E1 & Cs). rewrite E1. destruct b; cbn [compressed] in Cs.
  - destruct Cs as ((D1 & q1 & C1 & Hr1) & Ha). eexists _, Z_OK. split; [done|].
    assert (O : outcome R (D ++ next_in (strm s)) flush s1 Z_OK).
    { apply Run; [by exists q1, D1|done| |done]. intros _ HL0 Ef. destruct (Ha HL0) as [Ha'|[Ha' _]]; [done|]. by rewrite Ef in Ha'. }
    destruct (avail_out (strm s1) =? 0); [by apply outcome_last_flush|done].
  - destruct Cs as (C1 & Nfl & El & Ei & N). destruct (flush_mark_ok R hdr _ _ s1 flush C1 El N) as (C2 & N2 & Ei2 & Hp2). cbv zeta in *.
    set (s2 := flush_mark s1 flush) in *.
    assert (Rm : roomy s2) by (unfold roomy; rewrite N2; pose proof (i_lits _ _ _ _ _ _ _ _ _ (r_core _ _ _ _ _ _ _ _ _ _ _ C2)); lia).
    assert (O : outcome R (D ++ next_in (strm s)) flush s2 Z_OK) by (apply Run; [by eexists _, _|done|done|done]).
    destruct (avail_out (strm s2) =? 0); [eexists _, Z_OK; split; [done|by apply outcome_last_flush]|].
    unfold finish. rewrite (proj2 (Z.eqb_neq flush Z_FINISH)) by done. by exists s2, Z_OK.
  - destruct Cs as (Ef & En & Ei & Ha). eexists _, Z_OK. split; [done|]. set (s2 := with_status s1 FINISH_STATE).
    assert (O : outcome R (D ++ next_in (strm s)) flush s2 Z_OK).
    { eexists. change (strm s2) with (strm s1). rewrite Ei, app_nil_r. split; [done|]. split; [|split; [done|by intros _ HL0 _; apply Ha]].
      apply (Ending R _ s2 hdr); [done| |done]. destruct En. by constructor. }
    change (strm s2) with (strm s1). destruct (avail_out (strm s1) =? 0); [by apply outcome_last_flush|done].
  - destruct Cs as (Ef & En & Ei & Ep1). set (s2 := with_status s1 FINISH_STATE).
    assert (Ph : phase R (D ++ next_in (strm s)) s2) by (apply (Ending R _ s2 hdr); [done| |done]; destruct En; by constructor).
    pose proof (finish_ok R _ s2 flush Ph eq_refl Ef Ep1 Ei) as F. destruct (finish s2 flush) as [s' r]. by exists s', r.
Qed.

(** *** A call *)

Lemma phase_status R D s : phase R D s -> starting R s \/ status s = BUSY_STATE \/ status s = FINISH_STATE.
Proof using. intros [_ G|hdr q _ C _|hdr _ _ E|_ _ E _ _ _ _ _]; [by left|right; left|by right; right..]. apply (r_core _ _ _ _ _ _ _ _ _ _ _ C). Qed.

Lemma not_starting R s : status s = BUSY_STATE \/ status s = FINISH_STATE -> ~ starting R s.
Proof using. intros E G. destruct (g_wrap _ _ G) as [[_ E']|[_ E']]; destruct E as [E|E]; by rewrite E' in E. Qed.

Lemma starting_last_flush R s x : starting R s -> starting R (with_last_flush s x).
Proof using. intros [? ? ? ? ? ? ? ? ? ? ? ? ? X]. constructor; try done. by apply (X_mode_same [] 0 s). Qed.

(** The state goes on as it is. *)
Lemma outcome_stay R D s flush r : phase R D s -> r <> Z_STREAM_END -> (r = Z_OK -> avail_out (strm s) = 0) ->
  outcome R (D ++ next_in (strm s)) flush s r.
Proof using. intros Ph N Ha. exists D. split; [done|]. split; [done|]. split; [intros E; by destruct (N E)|intros E _ _; by apply Ha]. Qed.

Lemma deflate_pending_ok R D s flush : phase R D s -> let s1 := with_last_flush s flush in
  let s2 := if negb (pending_len s1 =? 0) then flush_pending s1 else s1 in
  phase R D s2 /\ next_in (strm s2) = next_in (strm s) /\ status s2 = status s /\
  (pending (bits s2) <> [] -> pending (bits s1) <> [] /\ avail_out (strm s2) = 0) /\ (starting R s -> starting R s2).
Proof using.
  intros Ph. cbv zeta. set (s1 := with_last_flush s flush).
  assert (P1 : phase R D s1) by (by apply phase_last_flush). assert (E1 : pending (bits s1) = pending (bits s)) by done.
  unfold pending_len. destruct (Z.eqb_spec (Z.of_nat (length (pending (bits s1)))) 0) as [E0|N0]; cbn [negb].
  - assert (Ep : pending (bits s1) = []) by (by destruct (pending (bits s1))). split; [done|]. split; [done|]. split; [done|].
    split; [by rewrite Ep|]. apply starting_last_flush.
  - assert (Ns : ~ starting R s) by (intros G; destruct (g_bits _ _ G) as (_ & G1 & _); rewrite E1, G1 in N0; done).
    assert (Ns1 : ~ starting R s1).
    { intros G. destruct (g_bits _ _ G) as (_ & G1 & _). by rewrite G1 in N0. }
    destruct (phase_flush R D s1 P1 Ns1) as (F1 & F2 & F3 & F4 & _). cbv zeta in *. split; [done|]. split; [done|]. split; [done|]. split; [|done].
    intros Np. split; [intros E; by rewrite E in N0|]. destruct (Z.eq_dec (avail_out (strm (flush_pending s1))) 0) as [|N]; [done|]. by apply F2 in N.
Qed.

Lemma deflate_ok R D s flush : phase R D s -> (L = 0 -> small_input s) ->
  exists s' r, deflate s flush = Some (s', r) /\ outcome R (D ++ next_in (strm s)) flush s' r.
Proof using HP HL.
  intros Ph Hs. assert (Stay : forall r, r <> Z_STREAM_END -> r <> Z_OK -> exists s' r', Some (s, r) = Some (s', r') /\ outcome R (D ++ next_in (strm s)) flush s' r').
  { intros r N1 N2. exists s, r. split; [done|]. by apply outcome_stay. }
  unfold deflate. destruct (_ || _); [by apply Stay|]. destruct ((status s =? FINISH_STATE) && negb (flush =? Z_FINISH)) eqn:E1; [by apply Stay|].
  destruct (avail_out (strm s) =? 0); [by apply Stay|]. clear Stay.
  destruct (deflate_pending_ok R D s flush Ph) as (P2 & Ei & Est & Hp & Hst). cbv zeta in *. set (s1 := with_last_flush s flush) in *.
  set (s2 := if negb (pending_len s1 =? 0) then flush_pending s1 else s1) in *. rewrite <- Ei.
  destruct (negb (pending_len s1 =? 0) && (avail_out (strm s2) =? 0)) eqn:E2.
  { apply andb_true_iff in E2 as [_ E2]. apply Z.eqb_eq in E2. eexists _, Z_OK. split; [done|]. apply outcome_last_flush. by apply outcome_stay. }
  assert (Ep : pending (bits s2) = []).
  { destruct (pending (bits s2)) as [|x l] eqn:E; [done|]. destruct (Hp ltac:(done)) as [H1 H2]. exfalso.
    rewrite H2 in E2. unfold pending_len in E2. destruct (pending (bits s1)); [done|]. by cbn in E2. }
  destruct (negb (negb (pending_len s1 =? 0)) && _ && _ && _); [eexists _, Z_BUF_ERROR; split; [done|]; by apply outcome_stay|].
  destruct ((status s2 =? FINISH_STATE) && negb (avail_in (strm s2) =? 0)) eqn:E3; [eexists _, Z_BUF_ERROR; split; [done|]; by apply outcome_stay|].
  assert (Hf : status s2 = FINISH_STATE -> flush = Z_FINISH /\ next_in (strm s2) = []).
  { intros E. rewrite <- Est, E in E1. rewrite E in E3. rewrite !Z.eqb_refl in E1, E3. cbn [andb] in E1, E3. apply negb_false_iff, Z.eqb_eq in E1, E3.
    split; [done|]. unfold avail_in in E3. by destruct (next_in (strm s2)). }
  assert (Hs2 : L = 0 -> small_input s2) by (intros E; specialize (Hs E); unfold small_input, avail_in in *; by rewrite Ei).
  assert (Cont : forall s3, phase R D s3 -> ~ starting R s3 -> pending (bits s3) = [] -> next_in (strm s3) = next_in (strm s2) ->
    (status s3 = FINISH_STATE -> flush = Z_FINISH /\ next_in (strm s3) = []) ->
    exists s' r, deflate_blocks s3 flush = Some (s', r) /\ outcome R (D ++ next_in (strm s2)) flush s' r).
  { intros s3 P3 N3 Ep3 Ei3 Hf3. rewrite <- Ei3. apply deflate_blocks_ok; try done.
    intros E. specialize (Hs2 E). unfold small_input, avail_in in *. by rewrite Ei3. }
  clearbody s2. clear Hp Hst.
  destruct (phase_status R D s2 P2) as [G|B].
  - pose proof (write_header_ok R s2 G) as H. destruct (write_header s2) as [s3 stop]. destruct H as (hdr & H1 & H2 & H3 & H4 & H5 & H6 & H7).
    assert (P3 : phase R D s3).
    { destruct P2 as [-> _|hdr' q _ C _|hdr' _ _ E|_ _ E _ _ _ _ _].
      - apply (Running R [] s3 hdr 0); [done|by rewrite H4|done].
      - by destruct (not_starting R s2 (or_introl (i_status _ _ _ _ _ _ _ _ _ (r_core _ _ _ _ _ _ _ _ _ _ _ C)))).
      - by destruct (not_starting R s2 (or_intror E)).
      - by destruct (not_starting R s2 (or_intror E)). }
    destruct stop.
    + eexists _, Z_OK. split; [done|]. rewrite <- H4. apply outcome_stay; [done|done|by intros _; apply H5].
    + apply Cont; [done|by apply not_starting; left|by apply H6|done|]. rewrite H7. done.
  - assert (Ew : write_header s2 = (s2, false)).
    { unfold write_header. by destruct B as [B|B]; rewrite B. }
    rewrite Ew. apply Cont; try done. by apply not_starting.
Qed.
End Session.
