(* ===== verification/Streams.v ===== *)
(** * Streams: whole uses of deflate

    A stream set up by [deflateInit2_] and fed by any sequence of calls, and
    [compress2], which makes one call do. *)

From S2P Require Import Prelude.
From S2P Require Import Crc32.
From S2P Require Import Adler32.
From S2P Require Import Trees.
From S2P Require Import TreeBuild.
From S2P Require Import TreeSend.
From S2P Require Import Lz.
From S2P Require Import Deflate.
From S2P Require Import Inflated.
From S2P Require Import Blocks.
From S2P Require Import Compressors.
From S2P Require Import Stored.
From S2P Require Import Compress.

#[local] Open Scope Z_scope.

(** ** Calls *)

(** The stream before a call: the input [inp] is set, and room for [room] bytes. *)
Definition give (s : dstate) (inp : list Z) (room : Z) : dstate :=
  with_strm s (mk_strm inp (next_out (strm s)) room (total_in (strm s)) (total_out (strm s)) (adler (strm s))).

(** [s] is reached from [s0] by calls of [deflate] with any input, room and flush;
    [D] is the input they read. *)
Inductive fed (s0 : dstate) : list Z -> dstate -> Prop :=
| fed_none : fed s0 [] s0
| fed_call D s inp room flush s' r D' :
    fed s0 D s -> bytes_ok inp -> 0 <= room -> Z.of_nat (length inp) + 65536 < 4294967296 ->
    deflate (give s inp room) flush = Some (s', r) -> D' ++ next_in (strm s') = D ++ inp -> fed s0 D' s'.

Section Calls.
Context (L St W : Z) (P : params) (HP : params_ok P) (HL : 0 <= L <= 9).

Lemma give_phase R D s inp room : phase L St W P R D s -> bytes_ok inp -> 0 <= room ->
  phase L St W P (Z.of_nat (length (next_out (strm s))) + room) D (give s inp room).
Proof using.
  intros Ph Hi Hr. assert (O : forall R, out_ok R (strm s) -> out_ok (Z.of_nat (length (next_out (strm s))) + room) (strm (give s inp room))).
  { intros R' [O1 O2 O3 O4]. by constructor. }
  destruct Ph as [E G|hdr q Hh [A1 A2 A3 A4] Hr'|hdr Hh En Es|H1 H2 H3 H4 H5 H6 H7 H8].
  - apply Starting; [done|]. destruct G as [? ? ? ? ? ? ? ? Ho ? ? ? ? X]. constructor; try done; [by apply (O R)|]. by apply (X_mode_same _ _ _ [] 0 s).
  - apply (Running _ _ _ _ _ D _ hdr q); [done| |done]. constructor; [done| |done|by apply (X_mode_same _ _ _ D q s)].
    destruct A2 as [? ? ? ? ? ? ? Ho ? ? ? ? ? ?]. constructor; try done. by apply (O R).
  - apply (Ending _ _ _ _ _ D _ hdr); [done| |done]. destruct En as [? ? ? ? Ho ? ? ? ? ?]. constructor; try done. by apply (O R).
  - apply Trailed; try done. by apply (O R).
Qed.

Lemma phase_out R D s : phase L St W P R D s -> out_ok R (strm s).
Proof using.
  intros [_ G|hdr q _ C _|hdr _ En _|_ _ _ _ _ H _ _]; [apply G|apply (r_core _ _ _ _ _ _ _ _ _ _ _ C)|apply En|done].
Qed.

(** Any call that follows. *)
Lemma call_ok R D s inp room flush : phase L St W P R D s -> bytes_ok inp -> 0 <= room -> Z.of_nat (length inp) + 65536 < 4294967296 ->
  exists s' r, deflate (give s inp room) flush = Some (s', r) /\
    outcome L St W P (Z.of_nat (length (next_out (strm s))) + room) (D ++ inp) flush s' r.
Proof using HP HL.
  intros Ph Hi Hr Hl. apply (deflate_ok L St W P HP HL _ D (give s inp room) flush); [by apply (give_phase R)|]. intros _. exact Hl.
Qed.

Lemma fed_phase R s0 : phase L St W P R [] s0 -> forall D s, fed s0 D s -> exists R', phase L St W P R' D s.
Proof using HP HL.
  intros P0 D s. induction 1 as [|D s inp room flush s' r D' F [R' Ph] Hi Hr Hl E Ed]; [by exists R|].
  destruct (call_ok R' D s inp room flush Ph Hi Hr Hl) as (s1 & r1 & E1 & (D1 & Ed1 & P1 & _)). rewrite E in E1. injection E1 as <- <-.
  rewrite <- Ed in Ed1. apply app_inv_tail in Ed1. subst D1. by eexists.
Qed.
End Calls.

Section Memory.
Context (fresh_bytes fresh_cells : Z -> list Z) (fresh_state : Z -> tstate).

(** Fresh memory has the size asked for, and any content of its type. *)
Record memory_ok : Prop := {
  y_bytes n : 0 <= n -> Z.of_nat (length (fresh_bytes n)) = n /\ bytes_ok (fresh_bytes n);
  y_cells n : 0 <= n -> Z.of_nat (length (fresh_cells n)) = n;
  y_state n : 0 <= n -> sizes_ok (fresh_state n) /\ Z.of_nat (lit_bufsize (fresh_state n)) = n
}.
Context (Hm : memory_ok).

(** What [windowBits] asks for. *)
Definition init_wrap (windowBits : Z) : Z := if windowBits <? 0 then 0 else if 15 <? windowBits then 2 else 1.

(** *** Setting up *)

Lemma init_params_ok windowBits memLevel level method strategy x s :
  deflateInit2_ fresh_bytes fresh_cells fresh_state x level method windowBits memLevel strategy = inl s ->
  exists l p w t wr, l = (if level =? Z_DEFAULT_COMPRESSION then 6 else level) /\ 0 <= l <= 9 /\ params_ok p /\ wr = init_wrap windowBits /\ 
    w = mk_lz (fresh_bytes (2 * w_size p)) (fresh_cells (w_size p)) (fresh_cells (hash_size p)) 0 0 0 0 0 0 0 0 0 0 false /\
    (exists n, 128 <= n <= 32768 /\ t = with_level (fresh_state n) l strategy) /\
    s = deflateReset (mk_ds p w t x wr INIT_STATE 0).
Proof using.
  unfold deflateInit2_, init_wrap. set (l := if level =? Z_DEFAULT_COMPRESSION then 6 else level).
  set (pr := if windowBits <? 0 then _ else _). 
  assert (Epr : fst pr = (if windowBits <? 0 then 0 else if 15 <? windowBits then 2 else 1)).
  { unfold pr. destruct (windowBits <? 0); [done|]. by destruct (15 <? windowBits). }
  destruct pr as [wr wb]. cbn [fst] in Epr. unfold MAX_MEM_LEVEL, Z_FIXED. destruct (_ || _) eqn:E; [done|]. rewrite !orb_false_iff, !Z.ltb_ge in E.
  destruct E as [[[[[[[[[E1 E2] E3] E4] E5] E6] E7] E8] E9] E10]. intros Eq. injection Eq as <-.
  set (b := if wb =? 8 then 9 else wb). assert (Hb : 9 <= b <= 15) by (unfold b; destruct (Z.eqb_spec wb 8); lia).
  eexists l, _, _, _, wr. split; [done|]. split; [lia|]. split; [|split; [done|split; [done|split; [|done]]]].
  - constructor; cbn [w_bits hash_bits]; lia.
  - exists (Z.shiftl 1 (memLevel + 6)). split; [|done]. rewrite Z.shiftl_1_l.
    assert (2 ^ 7 <= 2 ^ (memLevel + 6) <= 2 ^ 15) by (split; apply Z.pow_le_mono_r; lia). lia.
Qed.

(** The first window: no data, and empty chains. *)
Definition first_window (p : params) : lz :=
  mk_lz (fresh_bytes (2 * w_size p)) (fresh_cells (w_size p)) (replicate (Z.to_nat (hash_size p)) NIL) 0 0 0 0 0 0 0 (MIN_MATCH - 1) 0 (MIN_MATCH - 1) false.

Lemma first_window_ok p P : params_ok p -> params_ok P -> w_size P = w_size p -> hash_size P = hash_size p ->
  holds P [] (first_window p) /\ hashed P (first_window p).
Proof using Hm.
  intros Hp HP E1 E2. destruct (sizes p Hp) as (Sw & Sh & _).
  destruct (y_bytes Hm (2 * w_size p) ltac:(lia)) as [W1 W2]. pose proof (y_cells Hm (w_size p) ltac:(lia)) as W3.
  split; [constructor; unfold first_window, window_size; lz_fields; try done; lia|].
  exists (fun _ => False). split; [|unfold first_window, MIN_MATCH; lz_fields; lia].
  apply no_chains; unfold first_window; lz_fields; [rewrite length_replicate; lia|lia|intros h; apply get_zeros].
Qed.

Lemma first_mode l st p P s : params_ok P -> 0 <= l <= 9 -> hashed P (first_window p) -> win s = first_window p -> last_lit (ts s) = 0%nat ->
  X_mode l st P [] 0 s.
Proof using.
  intros HP Hl Hh Ew El. destruct (sizes P HP) as (Sw & _). unfold X_mode. destruct (Z.eqb_spec l 0) as [L0|L0].
  { unfold X_stored, block_abs, window_size. rewrite Ew. unfold first_window. lz_fields. cbn [length]. split; [done|]. split; [done|]. split; [done|]. split; [lia|done]. }
  destruct (st =? Z_HUFFMAN_ONLY); [unfold X_huff; rewrite Ew, El; unfold first_window; lz_fields; cbn; lia|].
  destruct (st =? Z_RLE); [unfold X_rle; rewrite Ew; unfold first_window; lz_fields; cbn; lia|].
  destruct (func_of l) eqn:Ef.
  - unfold func_of in Ef. assert (Hc : l = 1 \/ l = 2 \/ l = 3 \/ l = 4 \/ l = 5 \/ l = 6 \/ l = 7 \/ l = 8 \/ l = 9) by lia.
    repeat destruct Hc as [Hc|Hc]; by rewrite Hc in Ef.
  - unfold X_fast. rewrite Ew. split; [done|]. split; [done|]. unfold first_window, MIN_MATCH. lz_fields. lia.
  - constructor; rewrite ?Ew; [done|done|done|]. intros Hx. unfold first_window, MIN_MATCH in Hx. cbn [match_length] in Hx. lia.
Qed.

(** What [deflateReset] makes of it. *)
Lemma reset_state p n l x st wr : wr = 0 \/ wr = 1 \/ wr = 2 ->
  let w := mk_lz (fresh_bytes (2 * w_size p)) (fresh_cells (w_size p)) (fresh_cells (hash_size p)) 0 0 0 0 0 0 0 0 0 0 false in
  let t := with_type (with_out (with_level (fresh_state n) l st) (mk_bitbuf [] 0 0)) Z_UNKNOWN in
  exists P, w_bits P = w_bits p /\ hash_bits P = hash_bits p /\
    deflateReset (mk_ds p w (with_level (fresh_state n) l st) x wr INIT_STATE 0) =
    mk_ds P (first_window p) (init_block t)
      (mk_strm (next_in x) (next_out x) (avail_out x) 0 0 (if wr =? 2 then crc32 true true 0 0 None else adler32 64 false 0 None))
      wr (if wr =? 2 then GZIP_STATE else if negb (wr =? 0) then INIT_STATE else BUSY_STATE) Z_NO_FLUSH.
Proof using.
  intros Hwr. cbv zeta. unfold deflateReset, lm_init. destruct (configuration_table _) as [[[[? ?] ?] ?] ?].
  assert (Ew : (if wr <? 0 then - wr else wr) = wr) by (rewrite (proj2 (Z.ltb_ge _ _)) by lia; done).
  unfold deflateResetKeep. cbn [wrap]. rewrite Ew. eexists. split; [|split; [|done]]; done.
Qed.

(** The first state is one of those [deflate] is proved about. *)
Lemma reset_phase l p x n st wr : 0 <= l <= 9 -> params_ok p -> wr = 0 \/ wr = 1 \/ wr = 2 -> 128 <= n <= 32768 ->
  next_out x = [] -> bytes_ok (next_in x) -> 0 <= avail_out x ->
  let w := mk_lz (fresh_bytes (2 * w_size p)) (fresh_cells (w_size p)) (fresh_cells (hash_size p)) 0 0 0 0 0 0 0 0 0 0 false in
  let s := deflateReset (mk_ds p w (with_level (fresh_state n) l st) x wr INIT_STATE 0) in
  params_ok (conf s) /\ w_bits (conf s) = w_bits p /\ level (ts s) = l /\ phase l st wr (conf s) (avail_out x) [] s.
Proof using Hm.
  intros Hl Hp Hwr Hn Eo Hi Ha w s. destruct (y_state Hm n ltac:(lia)) as [T1 T2].
  destruct (reset_state p n l x st wr Hwr) as (P & E1 & E2 & Es). cbv zeta in Es. change (deflateReset _) with s in Es.
  assert (HP : params_ok P) by (destruct Hp; constructor; by rewrite ?E1, ?E2).
  destruct (first_window_ok p P Hp HP) as [H Hh]; [unfold w_size; by rewrite E1|unfold hash_size; by rewrite E2|].
  set (t0 := with_type (with_out (with_level (fresh_state n) l st) (mk_bitbuf [] 0 0)) Z_UNKNOWN) in *.
  assert (T0 : sizes_ok t0) by (destruct T1; by constructor). destruct (init_block_ok t0 T0) as (B1 & B2 & B3 & B4).
  assert (Et : level (init_block t0) = l /\ strategy (init_block t0) = st) by done. destruct Et as [Et1 Et2].
  assert (Eb : out (init_block t0) = mk_bitbuf [] 0 0) by (by rewrite B3). change (lit_bufsize t0) with (lit_bufsize (fresh_state n)) in B4.
  set (t := init_block t0) in *. clearbody t. clear T0 B3 t0. set (v := first_window p) in *. rewrite Es. cbn [conf ts].
  split; [done|]. split; [done|]. split; [done|]. clear s Es w.
  assert (Ol : (2 <= lit_bufsize t)%nat /\ Z.of_nat (lit_bufsize t) <= 32768) by (rewrite B4; lia).
  set (s1 := mk_ds _ _ _ _ _ _ _).
  assert (X : X_mode l st P [] 0 s1) by (by apply (first_mode l st p)).
  assert (Hb : bitbuf_ok (out t)) by (rewrite Eb; split; [constructor|cbn; lia]).
  assert (Ho : out_ok (avail_out x) (strm s1)).
  { unfold s1. constructor; ds_fields; rewrite ?Eo; [constructor|done|cbn; lia|done]. }
  destruct (Z.eq_dec wr 0) as [W0|W0].
  - apply (Running _ _ _ _ _ [] s1 [] 0); [split; [done|]; right; right; by split| |].
    + constructor; [done| |intros _; unfold insert_ok, s1, v, first_window; ds_fields; lz_fields; lia|done].
      assert (Ea : block_abs [] (win s1) = 0) by done.
      constructor; rewrite ?Ea; try done.
      * unfold s1. ds_fields. by rewrite W0.
      * unfold s1. ds_fields. rewrite B2. lia.
      * split; intros E; by rewrite W0 in E.
      * exists []. split; [|split; [done|unfold buffered, symbols, s1; ds_fields; by rewrite B2]]. exists []. split; [|constructor].
        unfold all_bits, bits, s1. ds_fields. by rewrite Eb, Eo.
    + unfold roomy, s1. ds_fields. rewrite B2. lia.
  - apply Starting; [done|]. constructor; try done.
    + unfold s1. ds_fields. destruct Hwr as [->|[-> | ->]]; [done|by left|by right].
    + unfold s1, bits. ds_fields. by rewrite Eb.
Qed.

Lemma init_phase x lvl method windowBits memLevel strategy s : next_out x = [] -> bytes_ok (next_in x) -> 0 <= avail_out x ->
  deflateInit2_ fresh_bytes fresh_cells fresh_state x lvl method windowBits memLevel strategy = inl s ->
  params_ok (conf s) /\ 0 <= level (ts s) <= 9 /\ level (ts s) = (if lvl =? Z_DEFAULT_COMPRESSION then 6 else lvl) /\
  (next_in (strm s) = next_in x /\ next_out (strm s) = next_out x /\ avail_out (strm s) = avail_out x /\ status s <> FINISH_STATE) /\
  phase (level (ts s)) strategy (init_wrap windowBits) (conf s) (avail_out x) [] s.
Proof using Hm.
  intros Eo Hi Ha E. destruct (init_params_ok _ _ _ _ _ _ _ E) as (l & p & w & t & wr & El & Hl & Hp & Ew & -> & (n & Hn & ->) & ->).
  assert (Hwr : wr = 0 \/ wr = 1 \/ wr = 2) by (rewrite Ew; unfold init_wrap; destruct (windowBits <? 0); [auto|]; destruct (15 <? windowBits); auto).
  destruct (reset_phase l p x n strategy wr Hl Hp Hwr Hn Eo Hi Ha) as (R1 & _ & R3 & R4). cbv zeta in *.
  split; [done|]. rewrite R3, <- Ew. split; [done|]. split; [done|]. split; [|done].
  unfold deflateReset, lm_init. destruct (configuration_table _) as [[[[? ?] ?] ?] ?]. split; [done|]. split; [done|]. split; [done|].
  cbn [status deflateResetKeep wrap]. destruct (_ =? 2); [done|]. by destruct (negb _).
Qed.

(** C2. A stream is set up with any parameters [deflateInit2_] accepts and given input by
    any sequence of calls, at any level and strategy, with any flushes and any room for
    output.  The next call returns; it writes no more than the room given; when it
    says the stream has ended, all output together is a zlib, gzip or raw stream by the
    formats' specifications (header, blocks of RFC 1951, check value and length) which
    decodes to exactly the input of all calls, provided [intact] holds, that is, no symbol
    was overwritten by output before it was read, since the program lays the symbols into
    its output buffer (once false, [intact] stays so: [Overlay.deflate_keeps]); and a call
    that is to finish the stream and does not end it has filled the output (levels 1 to 9). *)
Theorem deflate_lossless x lvl method windowBits memLevel st s0 D s inp room flush
    (Hx : next_out x = [] /\ bytes_ok (next_in x) /\ 0 <= avail_out x)
    (H0 : deflateInit2_ fresh_bytes fresh_cells fresh_state x lvl method windowBits memLevel st = inl s0)
    (Hs : fed s0 D s) (Hi : bytes_ok inp) (Hr : 0 <= room) (Hl : Z.of_nat (length inp) + 65536 < 4294967296) :
  exists s' r, deflate (give s inp room) flush = Some (s', r) /\
    Z.of_nat (length (next_out (strm s'))) <= Z.of_nat (length (next_out (strm s))) + room /\
    (r = Z_STREAM_END -> intact (ts s') = true -> decodes (init_wrap windowBits) (conf s0) (next_out (strm s')) (D ++ inp)) /\
    (r = Z_OK -> flush = Z_FINISH -> level (ts s0) <> 0 -> avail_out (strm s') = 0).
Proof using Hm.
  destruct Hx as (X1 & X2 & X3). destruct (init_phase _ _ _ _ _ _ _ X1 X2 X3 H0) as (HP & HL & _ & _ & P0).
  destruct (fed_phase _ _ _ _ HP HL _ s0 P0 D s Hs) as [R Ph].
  destruct (call_ok _ _ _ _ HP HL R D s inp room flush Ph Hi Hr Hl) as (s' & r & E & (D' & Ed & P' & O1 & O2)).
  exists s', r. split; [done|]. split; [|split].
  - pose proof (phase_out _ _ _ _ _ _ _ P') as [_ A B _]. lia.
  - intros Er _. destruct (O1 Er) as (_ & Dc & En). rewrite En, app_nil_r in Ed. by subst D'.
  - intros Er Ef N. by apply O2.
Qed.

(** *** compress *)

Lemma finish_results s s' r flush : finish s flush = (s', r) -> r = Z_OK \/ r = Z_STREAM_END.
Proof using.
  unfold finish. destruct (negb _); [intros E; injection E as _ <-; auto|]. destruct (_ <=? 0); [intros E; injection E as _ <-; auto|].
  destruct (negb _); intros E; injection E as _ <-; auto.
Qed.

Lemma blocks_results s s' r flush : deflate_blocks s flush = Some (s', r) -> r = Z_OK \/ r = Z_STREAM_END.
Proof using.
  unfold deflate_blocks. destruct (_ || _ || _); [|intros E; injection E as E; by apply finish_results in E].
  destruct (compress_some s flush) as [[s1 b]|]; [|done].
  destruct b; [intros E; injection E as _ <-; auto| |intros E; injection E as _ <-; auto|intros E; injection E as E; by apply finish_results in E].
  destruct (_ =? 0); intros E; injection E as E; [auto|by apply finish_results in E].
Qed.

Lemma flush_pending_status s : status (flush_pending s) = status s.
Proof using. unfold flush_pending. by destruct (_ =? 0). Qed.

Lemma deflate_results s s' r : deflate s Z_FINISH = Some (s', r) -> r = Z_OK \/ r = Z_STREAM_END \/
  r = Z_BUF_ERROR /\ (avail_out (strm s) = 0 /\ s' = s \/ status s = FINISH_STATE).
Proof using.
  unfold deflate. change ((Z_BLOCK <? Z_FINISH) || (Z_FINISH <? 0)) with false. change (negb (Z_FINISH =? Z_FINISH)) with false.
  rewrite andb_false_r. cbv zeta. destruct (Z.eqb_spec (avail_out (strm s)) 0); [intros E; injection E as <- <-; auto 10|].
  set (s2 := if negb (pending_len (with_last_flush s Z_FINISH) =? 0) then _ else _).
  assert (Es : status s2 = status s) by (unfold s2; destruct (negb _); [by rewrite flush_pending_status|done]).
  match goal with |- (if ?b then _ else _) = _ -> _ => destruct b; [intros E; injection E as _ <-; auto|] end.
  rewrite andb_false_r. destruct (status s2 =? FINISH_STATE) eqn:Ef.
  { apply Z.eqb_eq in Ef. destruct (negb (avail_in _ =? 0)); cbn [andb]; [intros E; injection E as _ <-; rewrite <- Es; auto 10|].
    destruct (write_header _) as [s3 stop]. destruct stop; [intros E; injection E as _ <-; auto|]. intros E. apply blocks_results in E as [E|E]; auto. }
  cbn [andb].
  destruct (write_header _) as [s3 stop]. destruct stop; [intros E; injection E as _ <-; auto|].
  intros E. apply blocks_results in E as [E|E]; auto.
Qed.

(** The first turn of the loop gives all there is, the next one finds no room. *)
Lemma compress_loop_first fuel s room source : next_in (strm s) = [] -> avail_out (strm s) = 0 -> room <= uint_max ->
  Z.of_nat (length source) <= uint_max ->
  compress_loop (S fuel) s room source =
  match deflate (give s source room) Z_FINISH with
  | Some (s, err) => if err =? Z_OK then compress_loop fuel s 0 [] else Some (s, err)
  | None => None
  end.
Proof using.
  intros Ei Ea Hr Hs. cbn [compress_loop]. unfold avail_in. rewrite Ea, (proj2 (Z.ltb_ge uint_max room)) by done. cbn [Z.eqb].
  cbv beta iota. cbn [next_in next_out avail_out total_in total_out adler]. rewrite Ei. change (Z.of_nat (length (@nil Z)) =? 0) with true. cbv beta iota.
  rewrite (proj2 (Z.ltb_ge uint_max (Z.of_nat (length source)))), Nat2Z.id, firstn_all, drop_all by done. rewrite Z.sub_diag.
  unfold give. by destruct (deflate _ _) as [[s1 err]|].
Qed.

Lemma compress_loop_full fuel s : avail_out (strm s) = 0 ->
  exists s', compress_loop (S fuel) s 0 [] = Some (s', Z_BUF_ERROR) /\ next_out (strm s') = next_out (strm s) /\ total_out (strm s') = total_out (strm s).
Proof using.
  intros Ea. cbn [compress_loop]. rewrite Ea. change (uint_max <? 0) with false. cbn [Z.eqb]. cbv beta iota.
  cbn [next_in next_out avail_out total_in total_out adler].
  assert (G : forall x, avail_out x = 0 -> deflate (with_strm s x) Z_FINISH = Some (with_strm s x, Z_BUF_ERROR)).
  { intros x Ex. unfold deflate. change ((Z_BLOCK <? Z_FINISH) || (Z_FINISH <? 0)) with false. change (negb (Z_FINISH =? Z_FINISH)) with false.
    rewrite andb_false_r. change (avail_out (strm (with_strm s x))) with (avail_out x). by rewrite Ex. }
  destruct (avail_in _ =? 0); cbn [length Z.of_nat drop take]; change (negb (Z.of_nat (length (@nil Z)) =? 0)) with false; cbv beta iota;
    rewrite G by done; cbn [Z.eqb Z_BUF_ERROR Z_OK]; by eexists.
Qed.

(** The level and the memory are accepted. *)
Lemma compress_init lvl x : lvl = Z_DEFAULT_COMPRESSION \/ 1 <= lvl <= 9 ->
  exists s, deflateInit2_ fresh_bytes fresh_cells fresh_state x lvl Z_DEFLATED MAX_WBITS DEF_MEM_LEVEL Z_DEFAULT_STRATEGY = inl s.
Proof using.
  intros Hv. unfold deflateInit2_. change (MAX_WBITS <? 0) with false. change (15 <? MAX_WBITS) with false. cbv beta iota.
  destruct (_ || _) eqn:E; [|by eexists]. exfalso. revert E. destruct Hv as [-> |Hv]; [vm_compute; discriminate|].
  rewrite (proj2 (Z.eqb_neq lvl _)) by (unfold Z_DEFAULT_COMPRESSION; lia). by rewrite (proj2 (Z.ltb_ge lvl 0)), (proj2 (Z.ltb_ge 9 lvl)) by lia.
Qed.

Lemma compress2_ok fuel destLen source lvl (Hf : (2 <= fuel)%nat) (Hd : 0 <= destLen < 4294967296)
    (Hs : bytes_ok source) (Hn : Z.of_nat (length source) + 65536 < 4294967296) (Hv : lvl = Z_DEFAULT_COMPRESSION \/ 1 <= lvl <= 9) :
  exists out r ok, compress2 fresh_bytes fresh_cells fresh_state fuel destLen source lvl = Some (out, r, ok) /\
    (r = Z_OK /\ Z.of_nat (length out) <= destLen /\ (ok = true -> zlib_decode out = Some source) \/
     r = Z_BUF_ERROR /\ Z.of_nat (length out) = destLen).
Proof using Hm.
  unfold compress2. set (x := mk_strm [] [] 0 0 0 0). destruct (compress_init lvl x Hv) as [s0 E0]. rewrite E0.
  destruct (init_phase x _ _ _ _ _ s0 eq_refl (Forall_nil_2 _) (Z.le_refl 0) E0) as (HP & HL & El & (I1 & I2 & I3 & I4) & P0).
  assert (Nl : level (ts s0) <> 0).
  { rewrite El. destruct Hv as [-> |Hv]; [done|]. rewrite (proj2 (Z.eqb_neq lvl _)) by (unfold Z_DEFAULT_COMPRESSION; lia). lia. }
  destruct fuel as [|[|fuel]]; [lia|lia|]. rewrite compress_loop_first by (done || (unfold uint_max; lia)).
  destruct (call_ok _ _ _ _ HP HL 0 [] s0 source destLen Z_FINISH P0 Hs (proj1 Hd) Hn) as (s1 & r & E1 & (D & Ed & P1 & O1 & O2)).
  rewrite E1. pose proof (phase_out _ _ _ _ _ _ _ P1) as [B1 B2 B3 B4]. rewrite I2 in B3. cbn [x next_out length Z.of_nat] in B3.
  assert (Et : take (Z.to_nat (total_out (strm s1))) (next_out (strm s1)) = next_out (strm s1)).
  { rewrite B4. unfold u64. rewrite Z.mod_small by (change (2 ^ 64) with 18446744073709551616; lia). by rewrite Nat2Z.id, firstn_all. }
  destruct (deflate_results _ _ _ E1) as [-> |[-> |[-> Hb]]]; cbn [Z.eqb Z_OK Z_STREAM_END Z_BUF_ERROR Pos.eqb].
  - destruct (compress_loop_full fuel s1 (O2 eq_refl Nl eq_refl)) as (s2 & E2 & E3 & E4). rewrite E2, E3, E4, Et.
    eexists _, _, _. split; [done|]. right. split; [done|]. specialize (O2 eq_refl Nl eq_refl). lia.
  - eexists _, _, _. rewrite Et. split; [done|]. left. split; [done|]. split; [lia|]. intros _.
    destruct (O1 eq_refl) as (_ & Dc & En). rewrite En, app_nil_r in Ed. cbn in Ed. by subst D.
  - eexists _, _, _. rewrite Et. split; [done|]. right. split; [done|]. destruct Hb as [[Hb ->]|Hb]; [|done].
    change (next_out (strm (give s0 source destLen))) with (next_out (strm s0)). change (avail_out (strm (give s0 source destLen))) with destLen in Hb.
    rewrite I2, Hb. done.
Qed.

(** C10. [compress2], at level -1 or 1 to 9 (not 0), with a buffer and a source that one turn of
    [uInt] counts (the source 64K less), returns after at most two turns of its loop:
    with Z_BUF_ERROR when the buffer is full, or with Z_OK and at most [destLen]
    bytes.  These are a zlib stream that decodes to exactly the source provided no
    symbol of a block was overwritten by the output that waits in the same buffer ([ok]). *)
Theorem compress2_correct fuel destLen source lvl (Hf : (2 <= fuel)%nat) (Hd : 0 <= destLen < 4294967296)
    (Hs : bytes_ok source) (Hn : Z.of_nat (length source) + 65536 < 4294967296) (Hv : lvl = Z_DEFAULT_COMPRESSION \/ 1 <= lvl <= 9) :
  exists out r ok, compress2 fresh_bytes fresh_cells fresh_state fuel destLen source lvl = Some (out, r, ok) /\
    (r = Z_OK /\ Z.of_nat (length out) <= destLen /\ (ok = true -> zlib_decode out = Some source) \/
     r = Z_BUF_ERROR /\ Z.of_nat (length out) = destLen).
Proof using Hm. by apply compress2_ok. Qed.

(** *** sendCompressed of httpd.hpp *)

(** What is sent, and the flag; memory for the buffer is found. *)
Definition sendCompressed (fuel : nat) (data : list Z) : option (list Z * bool) :=
  let blen := compressBound (Z.of_nat (length data)) in
  match compress fresh_bytes fresh_cells fresh_state fuel blen data with
  | None => None
  | Some (buf, r, ok) => Some (if negb (r =? Z_OK) then [] else buf, ok)
  end.

(** Nothing, or what decodes to the data. *)
Lemma sendCompressed_ok data : bytes_ok data -> Z.of_nat (length data) < 2147483648 ->
  exists out ok, sendCompressed 2 data = Some (out, ok) /\ (out = [] \/ (ok = true -> zlib_decode out = Some data)).
Proof using Hm.
  intros Hb Hn. unfold sendCompressed, compress. set (blen := compressBound _).
  assert (Hd : 0 <= blen < 4294967296).
  { unfold blen, compressBound. set (n := Z.of_nat (length data)) in *. assert (0 <= n) by lia. rewrite !Z.shiftr_div_pow2 by lia.
    change (2 ^ 12) with 4096. change (2 ^ 14) with 16384. change (2 ^ 25) with 33554432.
    unfold u64. change (2 ^ 64) with 18446744073709551616.
    assert (0 <= n / 4096 <= n /\ 0 <= n / 16384 <= n / 4 /\ 0 <= n / 33554432 <= n / 4 /\ n / 4 <= 536870912) by (Z.to_euclidean_division_equations; lia).
    assert (n / 4096 <= 1000000) by (Z.to_euclidean_division_equations; lia).
    rewrite Z.mod_small; lia. }
  destruct (compress2_ok 2 blen data Z_DEFAULT_COMPRESSION) as (out & r & ok & E & O); [lia|done|done|lia|by left|].
  rewrite E. eexists _, _. split; [done|]. destruct O as [(-> & _ & O)|[-> _]]; [by right|by left].
Qed.
End Memory.

(** ** Examples of use *)

(** Memory full of sevens. *)
Definition some_bytes (n : Z) : list Z := replicate (Z.to_nat n) 7.
Definition some_state (n : Z) : tstate :=
  mk_ts (replicate 573 (mk_ct 7 7)) (replicate 61 (mk_ct 7 7)) (replicate 39 (mk_ct 7 7)) 0 0 0
    (mk_work (replicate 573 0%nat) 0 573 (replicate 573 0) (replicate 16 0) 0 0)
    (replicate (Z.to_nat n) 0) (replicate (Z.to_nat n) 0) 0 (Z.to_nat n) 0 (mk_bitbuf [] 0 0) 6 0 2 true.

Lemma some_memory_ok : memory_ok some_bytes some_bytes some_state.
Proof.
  constructor; intros n Hn; unfold some_bytes, some_state.
  - rewrite length_replicate. split; [lia|]. apply Forall_replicate. unfold byte_ok. lia.
  - rewrite length_replicate. lia.
  - split; [|cbn [lit_bufsize]; lia]. constructor; try done; cbn [l_buf d_buf lit_bufsize]; apply length_replicate.
Qed.

(** A zlib stream at level 1 with a window of 512 bytes, after a call that took [ab]. *)
Definition no_stream : z_stream := mk_strm [] [] 0 0 0 0.
Definition first_state : dstate :=
  match deflateInit2_ some_bytes some_bytes some_state no_stream 1 Z_DEFLATED 9 1 Z_FIXED with
  | inl s => s
  | inr _ => mk_ds (mk_params 9 8 0 0 0 0) (first_window some_bytes some_bytes (mk_params 9 8 0 0 0 0)) (some_state 128) no_stream 0 0 0
  end.
Definition fed_state : dstate :=
  match deflate (give first_state [97; 98] 100) Z_NO_FLUSH with Some (s, _) => s | None => first_state end.

Lemma fed_state_ok : fed first_state [97; 98] fed_state.
Proof.
  apply (fed_call first_state [] first_state [97; 98] 100 Z_NO_FLUSH _ Z_OK); [constructor|..].
  - repeat constructor; lia.
  - lia.
  - cbn. lia.
  - vm_compute. reflexivity.
  - vm_compute. reflexivity.
Qed.

(** The input of both calls comes back. *)
Lemma deflate_lossless_witness : exists s',
  deflate (give fed_state [97; 98; 97; 98; 97] 100) Z_FINISH = Some (s', Z_STREAM_END) /\
  next_out (strm s') = [24; 25; 75; 76; 74; 4; 65; 0; 10; 175; 2; 171] /\
  decodes 1 (conf first_state) (next_out (strm s')) ([97; 98] ++ [97; 98; 97; 98; 97]).
Proof.
  destruct (deflate_lossless some_bytes some_bytes some_state some_memory_ok no_stream 1 Z_DEFLATED 9 1 Z_FIXED first_state [97; 98] fed_state
    [97; 98; 97; 98; 97] 100 Z_FINISH) as (s' & r & E & _ & Dc & _).
  - split; [reflexivity|]. split; [constructor|cbn; lia].
  - vm_compute. reflexivity.
  - apply fed_state_ok.
  - repeat constructor; lia.
  - lia.
  - cbn. lia.
  - assert (F : match deflate (give fed_state [97; 98; 97; 98; 97] 100) Z_FINISH with Some (s, e) => (next_out (strm s), e, intact (ts s)) | None => ([], 0, false) end =
      ([24; 25; 75; 76; 74; 4; 65; 0; 10; 175; 2; 171], Z_STREAM_END, true)) by (vm_compute; reflexivity).
    rewrite E in F. injection F as F -> G. exists s'. split; [exact E|]. split; [exact F|]. exact (Dc eq_refl G).
Defined.

(** [compress] of four letters into a buffer of a hundred bytes. *)
Lemma compress2_correct_witness : exists out r ok,
  compress2 some_bytes some_bytes some_state 2 100 [97; 98; 97; 98] Z_DEFAULT_COMPRESSION = Some (out, r, ok) /\
  (r = Z_OK /\ Z.of_nat (length out) <= 100 /\ (ok = true -> zlib_decode out = Some [97; 98; 97; 98]) \/
   r = Z_BUF_ERROR /\ Z.of_nat (length out) = 100).
Proof.
  apply (compress2_correct some_bytes some_bytes some_state some_memory_ok 2 100 [97; 98; 97; 98] Z_DEFAULT_COMPRESSION).
  - lia.
  - lia.
  - repeat constructor; lia.
  - cbn. lia.
  - left. reflexivity.
Defined.
